(* ===== verification/_CoqProject ===== *)
-Q . S2P
Prelude.v
Types.v
GlobalIndex.v
Hashing.v
MerkleStore.v
MerkleTree.v
MerkleSpec.v
MerkleTreeFacts.v
MerkleDense.v
MerkleReset.v
MonitoredTx.v
Tables.v
Storage.v
StorageFacts.v
SchemaInv.v
Transactions.v
EthClient.v
Etherman.v
PendingTxs.v
GroupMonitor.v
TxMonitor.v
BridgeCtrl.v
MessageBridge.v
Synchronizer.v
SyncAtomic.v
TableInv.v
TypedRows.v
EthermanFacts.v
GroupFacts.v
NetTrees.v
SyncFacts.v
SyncReorg.v
StorageProps.v
Restart.v
ChannelMonitor.v
Hex.v
Http.v
BridgeService.v
RpcClient.v
AutoClaim.v
Redis.v
RedisFacts.v
CoinMiddleware.v
PushMessage.v
Producers.v
GoFloat.v
Gateway.v
PushTask.v
PushTaskFacts.v
EstimateTime.v
ClaimTxManager.v
XLayerClaimTxManager.v
ManagerLoop.v
TokenLogo.v
LocalCache.v
XLayerService.v
DepositMessages.v
Metrics.v
XMetrics.v
MetricsFacts.v
Configuration.v
Connections.v
ClaimTxManagerFacts.v
XLayerFacts.v
XLayerServiceFacts.v
BridgeServiceFacts.v
EndToEnd.v
AutoClaimFacts.v
Examples.v
ClaimExamples.v
ReadExamples.v
PushExamples.v
XLayerExamples.v
AutoExamples.v
ServiceExamples.v
MetricsExamples.v
StartUp.v
StartFacts.v
StartSuccess.v
StartExamples.v
