(* ===== verification/Prelude.v ===== *)
(** * X Layer bridge service: verification library

    The service moves deposits between Ethereum (network 0) and the rollups of
    X Layer.  A synchronizer per network reads the events of its bridge contract,
    stores them in PostgreSQL and extends the exit tree of the network; the REST
    service proves from the stored trees that a deposit can be claimed; a claim
    manager sends the claims of the deposits that go to its own rollup; tasks keep
    averages in Redis and tell the front end, through Kafka, what became of a
    deposit.  A service apart claims deposits through the REST interface, and
    interceptors stand before the endpoints.  The start of the process connects the
    parts by channels.  This library models these parts in Gallina, function by
    function, and proves what they promise.

    ** How the code is translated

    A Go function is a function of the same name in the monad [M S A] of
    [Prelude]: a state [S], and a result that is a value, an [error] or a panic.
    [attempt] is [r, err :=], [zoom] runs an operation on a component of the
    state, [map_err] is the wrapping of an error.  Unsigned integers are [Z] with
    [wrap32] and [wrap64] written where the code wraps, signed ones with [int64];
    byte slices are lists of bytes, [*big.Int] is [Z], a map is a [gmap], the keys
    of a set a [gset].  A loop is a [Fixpoint] on the list it visits, or on fuel
    when its length is not known.

    What is not in the repository is an interface: a class of operations, with a
    class of laws where the code relies on documented behaviour.  These are
    Keccak-256 ([Keccak]), the node and the clock ([EthNode], [Runtime],
    [ChainReader], [BatchNode]), the bindings of the contracts ([Bindings],
    [BridgeContract], [Compressor]), the ABI and JSON codecs ([TokenAbi],
    [ClaimAbi], [Json], [Codec]), the LRU caches ([NonceLru], [LruCache]), Redis
    ([RedisClient] with its laws [RedisOk]), Kafka ([KafkaProducer],
    [SaramaProducer], [ConsumerSession]), HTTP ([HttpClient] with the codecs
    [ProtoJson], [RpcJson], [CountryApi]), the contracts of the auto claim service
    ([ClaimContracts]), Nacos ([NamingClient]), the collectors of Prometheus
    ([Prometheus] with its laws [PrometheusOk]), what the interceptors record
    ([Gateway.Metrics]), Sentinel with its interceptor ([Sentinel], [SentinelOk]),
    the files of the configuration and
    the keys of its passwords ([Viper], [AutoViper], [Kms]) and whatever is dialled
    when the process starts ([Outside]; [OutsideUp] says that it answers).  The
    connection to PostgreSQL is modelled with its failures: [db_faults] says for
    each statement whether it is refused or breaks off after some rows, and a failed
    statement aborts its transaction.  A loop over [rows.Next()] does not notice
    that a statement broke off ([Tables.query]).  The [Examples] files instantiate every interface with functions
    that compute, and apply each theorem that has hypotheses to concrete inputs.

    ** The files, from the bottom up

    - [Types] (etherman/types.go), [GlobalIndex] (etherman/etherman.go), [Hashing]
      (bridgectrl/hash.go), [Hex] (hex/hex.go), [MonitoredTx] (claimtxman/types).
    - [MerkleStore], [MerkleTree] (bridgectrl/interfaces.go, merkletree.go): the
      append-only tree, whose siblings are in memory and whose nodes are in the
      store.  [MerkleSpec] is the specification, a Merkle tree over a list of
      leaves; [MerkleTreeFacts], [MerkleReset] and [MerkleDense] show that
      appending, rebuilding after a reorganisation and the dense rollup tree
      refine it.  [BridgeCtrl] (bridgectrl.go) holds a tree for each network.
    - [Tables] and [Storage] (db/pgstorage): the schema after its last migration,
      and every query as a function of the tables.  [SchemaInv] is the invariant
      of the schema, [TypedRows] that Go's types survive the columns, [Transactions] and [TableInv] what transactions guarantee,
      [StorageFacts] that the tables implement the store of the trees, and
      [StorageProps] what the queries answer.
    - [Etherman] (etherman/etherman.go): from logs to blocks of events;
      [EthermanFacts] links them to the synchronizer.
    - [MessageBridge] (xlayer/utils/messagebridge) and [Synchronizer]
      (synchronizer/): blocks, reorganisations and the loop of [Sync].
      [SyncAtomic], [NetTrees], [SyncFacts] and [SyncReorg] are its
      theorems.  [ChannelMonitor] (cmd/run.go) takes the place of the claim
      manager of a network when claims are not sent.  [Restart] is what a new
      process finds in the tables of an old one.
    - [BridgeService] (server/service.go) with [BridgeServiceFacts]: the proofs.
    - [EthClient], [TxMonitor], [PendingTxs], [GroupMonitor], [ClaimTxManager]
      and [XLayerClaimTxManager] (claimtxman/, utils/client.go,
      utils/xlayer_client.go): the monitor of single claims, of compressed groups,
      and the two managers.  [GroupFacts] and [ClaimTxManagerFacts] are
      their theorems.
    - [Redis], [PushMessage], [GoFloat], [PushTask], [EstimateTime]
      (xlayer/redisstorage, messagepush, utils, pushtask, estimatetime), with
      [RedisFacts] and [PushTaskFacts].
    - [ManagerLoop] (Start and StartXLayer): the loops of the two managers, as
      steps of the events they receive and of the goroutines they start;
      [XLayerFacts] holds the theorems on the X Layer manager and on
      the life of a claim.
    - [TokenLogo], [LocalCache] and [XLayerService] (xlayer/tokenlogoinfo,
      xlayer/localcache, server/xlayer_service.go): the endpoints of X Layer and
      what they read, with [XLayerServiceFacts].
    - [DepositMessages] (synchronizer/xlayer_synchronizer.go): the messages about
      deposits and claims, and the large transactions.  [Metrics] and [XMetrics]
      (metrics/, etherman/metrics, server/metrics, synchronizer/metrics,
      xlayer/metrics): the registries and what is recorded, with [MetricsFacts].
    - [Http]: requests and answers.  Over it, [AutoClaim] (autoclaimservice/) with
      [AutoClaimFacts], [RpcClient] (jsonrpcclient/), and [Gateway] (xlayer/nacos,
      xlayer/iprestriction, server/xlayer_interceptors.go and the chain of server.go).
    - [EndToEnd]: the components together, from the block of a deposit to its proof.
    - [CoinMiddleware] and [Producers] (xlayer/coinmiddleware,
      xlayer/messagepush): the consumer of prices, and the producers behind the
      interface of [PushMessage].
    - [Configuration] (config/, cmd/xlayer_helpers.go, xlayer/kms), [Connections]
      (the constructors of clients and storages), [StartUp] (cmd/run.go,
      cmd/xlayer_run.go, cmd/main.go, autoclaimservice/main.go):
      the start of the processes, up to the goroutines and their channels.
      [StartFacts] shows how the channels are wired, for the X
      Layer process and for the upstream one, and [StartSuccess] that a start
      succeeds.

    ** What the theorems show

    - Together: a deposit of L1 whose block was stored becomes claimable on its
      rollup once the node of the rollup reports an exit root that covers it, and the
      proof the service answers leads from the hash of the deposit to that root.
    - Trees: the roots and the proofs are those of the specification, for every
      hash function; a proof read from the store verifies against any later root;
      an operation that fails says what it leaves behind.
    - Storage: keys, foreign keys and sequences hold in every reachable database;
      a transaction is invisible before its commit and a failed one never commits;
      stored numbers, addresses and hashes keep the types of their columns
      ([TypedRows] lists which); stored deposits and claims are read back.
    - Synchronizer: the blocks that are read hold exactly the events of the logs in
      their order; a block is stored completely or not at all; a block of deposits
      extends the tree in memory and in the tables alike; a reorganisation leaves
      the tree of the deposits that stay; the search for the common block
      terminates and is right.  A restart rebuilds the trees of the stored deposits,
      and the block whose processing failed is then stored.  (The theorems on blocks that
      are stored are about synchronizers without Redis, on a database that answers.)
    - Claims: a pass of a monitor is atomic, keeps the invariant of the groups (at
      most one claim waits for a receipt) and the limit of the histories; nonces
      increase; only stored deposits that are ready and go to the manager's network get a
      claim; a mined
      claim is confirmed by the next pass that succeeds, and a final status never
      changes; nothing is processed before both networks are synced, and then each
      global exit root once while the goroutines keep up.  Without a claim manager
      a global exit root makes ready exactly the deposits it covers.
    - Auto claims: served by the bridge service on tables that stay the same, the auto
      claim service sends for every bridge the claim that the claim manager would
      build from these tables; the groups have the configured size and the bridges
      in their order, up to the first group without a claim.
    - Endpoints: a page of transactions shows the deposits of the account with the
      status their claims give them, or the rows that arrived when the read broke off;
      a claim is sent only for a deposit that can be
      claimed; the refresh of the coins ends when one page holds them all; a request
      that Sentinel lets through is refused exactly when its address is known to be
      restricted, and otherwise reaches its handler.
    - Tasks: at most one process is in a task while its lock lives; every confirmed
      block is notified once and in its turn while Redis and the node answer; the pages of a batch
      are all visited; averages and estimates stay in their ranges; no stored price
      becomes older, whatever messages arrive and whatever Redis answers.
    - Start: when the services it needs answer, the start of the tasks succeeds, and
      its synchronizers work on the trees of the stored deposits; no channel has two
      readers, whatever is sent has one, and it is the one of the right network.  With a
      hundred coins the API is for ever in its first refresh.
    - Metrics: in any interleaving with the goroutine that registers the metrics, a call
      that records fails only when it reads the map that is being written.
    - Several theorems state what goes wrong: a tree ahead of its tables refuses
      every later block, a lock that expires is not exclusive, a block that cannot
      be read is skipped for good.  The manifest lists them as findings.

    ** Bounds

    The trees have 32 levels in the program; the theorems hold for every height up
    to 64, and the examples use 2 so that they compute.  [checkReorg] needs one
    unit of fuel for each stored block and one more; [syncBlocks] and [Sync] take
    the number of iterations; the pages of a batch need one for each hundred
    deposits and one more, and the groups of claims one for each bridge and one
    more.  The theorems state these bounds or hold for every
    fuel.  The first refresh of the coins takes one unit for each page it reads or
    fails to read; it ends with six when there are fewer than a hundred coins, and
    with none when there are more, which is a theorem for every fuel.  The process
    has one database, to which both of its storages are connections.

    ** What is not modelled

    The bindings generated by abigen and protoc, the simulated client, mocks,
    scripts and tests, with the functions of utils/client.go and of the storage that
    only they call.  The servers of HTTP and gRPC (server/server.go after RunServer,
    and the servers of the metrics) forward to libraries; logging is not observed.
    The handler of changed rules of Sentinel and the client of the token logo service only forward requests.  Migrations
    run in the database: [Tables] is the schema they lead to.  Goroutines are modelled
    where a theorem is about them, as the list of what was started ([PushTask],
    [XLayerClaimTxManager], [StartUp]) or as steps ([RedisFacts], [ManagerLoop], [XMetrics]); the
    channels between the components are the lists of what was sent, and [StartUp]
    says who holds them.  The variables of packages, such as the processors of
    message bridges, are set by the start and are arguments of what reads them
    afterwards. *)
From stdpp Require Export prelude.
From stdpp Require Export list gmap strings sorting.
From Stdlib Require Export ZArith Lia.
From Stdlib Require Export Strings.Byte.
#[global] Set Default Goal Selector "!".
#[global] Open Scope Z_scope.

(** ** Machine integers

    Go's fixed width unsigned integers are integers reduced modulo a power of
    two after each operation that may leave the range. *)
Definition wrap (w x : Z) : Z := x mod 2 ^ w.
Definition wrap8 (x : Z) : Z := wrap 8 x.
Definition wrap32 (x : Z) : Z := wrap 32 x.
Definition wrap64 (x : Z) : Z := wrap 64 x.

(** A signed 64-bit integer, Go's [int] on the supported platforms, and its
    signed 32-bit companion. *)
Definition swrap (w x : Z) : Z := (x + 2 ^ (w - 1)) mod 2 ^ w - 2 ^ (w - 1).
Definition int64 (x : Z) : Z := swrap 64 x.
Definition int32 (x : Z) : Z := swrap 32 x.

Definition in_width (w x : Z) : Prop := 0 ≤ x < 2 ^ w.
Abbreviation is_uint8 := (in_width 8).
Abbreviation is_uint32 := (in_width 32).
Abbreviation is_uint64 := (in_width 64).
#[global] Instance in_width_dec w x : Decision (in_width w x).
Proof. unfold in_width. apply _. Defined.

Lemma wrap_id w x : in_width w x → wrap w x = x.
Proof. unfold wrap, in_width. intros. by apply Z.mod_small. Qed.
Lemma wrap_range w x : 0 ≤ w → in_width w (wrap w x).
Proof. intros. unfold wrap, in_width. apply Z.mod_pos_bound. lia. Qed.
Lemma wrap32_wrap64 x : wrap32 (wrap64 x) = wrap32 x.
Proof. apply Z.mod_mod_divide. by exists (2 ^ 32). Qed.
Lemma swrap_id w x : 0 < w → - 2 ^ (w - 1) ≤ x < 2 ^ (w - 1) → swrap w x = x.
Proof.
  intros Hw Hx. unfold swrap.
  assert (2 ^ w = 2 * 2 ^ (w - 1)) as E by (rewrite <- Z.pow_succ_r by lia; f_equal; lia).
  rewrite Z.mod_small; lia.
Qed.

(** ** Errors and panics

    A Go call returns a value, an [error] or panics.  The sentinel errors of
    [utils/gerror] and of pgx are constructors; [fmt.Errorf] with [%w] keeps
    the wrapped error visible to [errors.Is], with [%v] or [%s] it does not. *)
Inductive error : Type :=
| ErrStorageNotFound | ErrStorageNotRegister | ErrNilDBTransaction
| ErrRestServerHealth | ErrDepositNotSynced | ErrNetworkNotRegister
| ErrInternalErrorForRpcCall
| ErrTxClosed                          (* pgx.ErrTxClosed *)
| ErrNoRows                            (* pgx.ErrNoRows *)
| ErrTxAborted                         (* a statement in a transaction that has failed *)
| ErrUniqueViolation                   (* a key or unique constraint refused the row *)
| ErrForeignKey                        (* a foreign key refused the row *)
| ErrAlreadyExists
| ErrNotFound                          (* ethereum.NotFound *)
| ErrRedisNil                          (* redis.Nil: there is no such key *)
| ErrExternal (code : Z)               (* an error of a service outside the program *)
| Errorf (msg : string) (args : list Z)
| ErrorfW (msg : string) (inner : error)   (* fmt.Errorf with %w *)
| ErrorfV (msg : string) (inner : error).  (* fmt.Errorf with %v or %s *)

#[global] Instance error_eq_dec : EqDecision error.
Proof. solve_decision. Defined.

(** [errors.Is err target] follows the chain of wrapped errors. *)
Fixpoint errors_Is (err target : error) : bool :=
  bool_decide (err = target) ||
  match err with ErrorfW _ inner => errors_Is inner target | _ => false end.

Inductive res (A : Type) : Type :=
| Ok (a : A)
| Err (e : error)
| Panic (msg : string).
Arguments Ok {A} a.
Arguments Err {A} e.
Arguments Panic {A} msg.

#[global] Instance res_eq_dec `{EqDecision A} : EqDecision (res A).
Proof. solve_decision. Defined.
#[global] Instance res_ret : MRet res := λ A a, Ok a.
#[global] Instance res_bind : MBind res := λ A B f m,
  match m with Ok a => f a | Err e => Err e | Panic p => Panic p end.
#[global] Instance res_fmap : FMap res := λ A B f m,
  match m with Ok a => Ok (f a) | Err e => Err e | Panic p => Panic p end.

Definition is_ok {A} (r : res A) : bool := match r with Ok _ => true | _ => false end.

(** A slice access [s[i]]: out of range panics. *)
Definition at_index {A} (l : list A) (i : Z) : res A :=
  if bool_decide (0 ≤ i) then
    match l !! Z.to_nat i with Some x => Ok x | None => Panic "index out of range" end
  else Panic "index out of range".

Lemma at_index_nat {A} (l : list A) (i : nat) :
  at_index l (Z.of_nat i) = match l !! i with Some x => Ok x | None => Panic "index out of range" end.
Proof. unfold at_index. rewrite bool_decide_true by lia. by rewrite Nat2Z.id. Qed.

(** ** The state and error monad

    A method that changes its receiver is a function from the state to a
    result and the state it leaves behind: the state survives an error and a
    panic, as it does in Go. *)
Definition M (S A : Type) : Type := S → res A * S.

#[global] Instance M_ret S : MRet (M S) := λ A a s, (Ok a, s).
#[global] Instance M_bind S : MBind (M S) := λ A B f m s,
  match m s with
  | (Ok a, s') => f a s'
  | (Err e, s') => (Err e, s')
  | (Panic p, s') => (Panic p, s')
  end.

Section MonadOps.
Context {S : Type}.
Definition get : M S S := λ s, (Ok s, s).
Definition put (s : S) : M S unit := λ _, (Ok tt, s).
Definition modify (f : S → S) : M S unit := λ s, (Ok tt, f s).
Definition gets {A} (f : S → A) : M S A := λ s, (Ok (f s), s).
Definition throw {A} (e : error) : M S A := λ s, (Err e, s).
Definition gopanic {A} (p : string) : M S A := λ s, (Panic p, s).
Definition lift_res {A} (r : res A) : M S A := λ s, (r, s).
(** [x, err := m]: the error becomes a value the caller looks at. *)
Definition attempt {A} (m : M S A) : M S (A + error) := λ s,
  match m s with
  | (Ok a, s') => (Ok (inl a), s')
  | (Err e, s') => (Ok (inr e), s')
  | (Panic p, s') => (Panic p, s')
  end.
(** Turns every error of [m] by [f]: [if err != nil { return f(err) }]. *)
Definition map_err {A} (f : error → error) (m : M S A) : M S A := λ s,
  match m s with (Err e, s') => (Err (f e), s') | r => r end.
Definition when (b : bool) (m : M S unit) : M S unit := if b then m else mret tt.
(** [for _, x := range l { f(x) }] with an early return on an error. *)
Fixpoint for_each {A} (l : list A) (f : A → M S unit) : M S unit :=
  match l with
  | [] => mret tt
  | x :: l => f x ;; for_each l f
  end.
End MonadOps.

(** A method of a field of the state. *)
Definition zoom {S T A} (proj : S → T) (upd : T → S → S) (m : M T A) : M S A := λ s,
  match m (proj s) with (r, t) => (r, upd t s) end.

Lemma M_bind_ok {S A B} (m : M S A) (f : A → M S B) s a s' :
  m s = (Ok a, s') → (m ≫= f) s = f a s'.
Proof. intros H. unfold mbind, M_bind. by rewrite H. Qed.
Lemma M_bind_err {S A B} (m : M S A) (f : A → M S B) s e s' :
  m s = (Err e, s') → (m ≫= f) s = (Err e, s').
Proof. intros H. unfold mbind, M_bind. by rewrite H. Qed.
Lemma M_bind_panic {S A B} (m : M S A) (f : A → M S B) s p s' :
  m s = (Panic p, s') → (m ≫= f) s = (Panic p, s').
Proof. intros H. unfold mbind, M_bind. by rewrite H. Qed.
(** A bind that succeeded ran both parts. *)
Lemma M_bind_inv {S A B} (m : M S A) (f : A → M S B) s b s' :
  (m ≫= f) s = (Ok b, s') → ∃ a s1, m s = (Ok a, s1) ∧ f a s1 = (Ok b, s').
Proof. unfold mbind, M_bind. destruct (m s) as [[a|e|p] s1]; [eauto|done|done]. Qed.
Lemma M_map_err_inv {S A} f (m : M S A) st a st' : map_err f m st = (Ok a, st') → m st = (Ok a, st').
Proof. unfold map_err. by destruct (m st) as [[]]. Qed.
Lemma lift_res_inv {S A} (r : res A) (st st' : S) a : lift_res r st = (Ok a, st') → r = Ok a ∧ st' = st.
Proof. unfold lift_res. by intros [= -> ->]. Qed.

(** A run with a known result. *)
Lemma run_result {S A} (p : res A * S) r : p.1 = r → p = (r, p.2).
Proof. destruct p. cbn. by intros ->. Qed.

(** ** Byte strings *)
Abbreviation bytes := (list byte).
#[global] Instance byte_eq_dec : EqDecision byte := Byte.byte_eq_dec.
#[global] Program Instance byte_countable : Countable byte :=
  inj_countable Byte.to_N Byte.of_N _.
Next Obligation. intros x. apply Byte.of_to_N. Qed.

Definition byte_of_Z (z : Z) : byte :=
  match Byte.of_N (Z.to_N (wrap8 z)) with Some b => b | None => x00 end.
Definition Z_of_byte (b : byte) : Z := Z.of_N (Byte.to_N b).

Lemma Z_of_byte_range b : is_uint8 (Z_of_byte b).
Proof.
  unfold in_width, Z_of_byte. pose proof (Byte.to_N_bounded b) as H.
  change (2 ^ 8) with 256. lia.
Qed.
Lemma byte_of_Z_of_byte b : byte_of_Z (Z_of_byte b) = b.
Proof.
  unfold byte_of_Z, wrap8. rewrite wrap_id by apply Z_of_byte_range.
  unfold Z_of_byte. rewrite N2Z.id, Byte.of_to_N. done.
Qed.
Lemma Z_of_byte_of_Z z : Z_of_byte (byte_of_Z z) = wrap8 z.
Proof.
  unfold byte_of_Z. pose proof (wrap_range 8 z ltac:(lia)) as [H0 H1].
  change (2 ^ 8) with 256 in H1. unfold wrap8.
  destruct (Byte.of_N (Z.to_N (wrap 8 z))) as [b|] eqn:E.
  - apply Byte.to_of_N in E. unfold Z_of_byte. rewrite E. lia.
  - apply Byte.of_N_None_iff in E. lia.
Qed.

(** [copy(dst, src)] on byte slices and arrays. *)
Definition go_copy (dst src : bytes) : bytes :=
  take (length dst) src ++ drop (length src) dst.

#[global] Arguments go_copy : simpl never.

Lemma length_go_copy dst src : length (go_copy dst src) = length dst.
Proof. unfold go_copy. rewrite length_app, length_take, length_drop. lia. Qed.
Lemma go_copy_full dst src : length src = length dst → go_copy dst src = src.
Proof.
  intros H. unfold go_copy. rewrite H, drop_all, app_nil_r.
  rewrite take_ge; [done|lia].
Qed.

(** Big-endian encodings: [n] bytes of a number, and the number of a byte string. *)
Fixpoint be_bytes (n : nat) (z : Z) : bytes :=
  match n with
  | O => []
  | S n => be_bytes n (z / 256) ++ [byte_of_Z z]
  end.
Definition be_value (b : bytes) : Z := fold_left (λ acc x, acc * 256 + Z_of_byte x) b 0.

Lemma length_be_bytes n z : length (be_bytes n z) = n.
Proof. revert z. induction n as [|n IH]; intros z; simpl; [done|]. rewrite length_app, IH. simpl. lia. Qed.

Lemma be_value_app b1 b2 :
  be_value (b1 ++ b2) = be_value b1 * 256 ^ Z.of_nat (length b2) + be_value b2.
Proof.
  unfold be_value. rewrite fold_left_app. generalize (fold_left (λ acc x, acc * 256 + Z_of_byte x) b1 0).
  induction b2 as [|x b2 IH] using rev_ind; intros a; [simpl; lia|].
  rewrite !fold_left_app, IH, length_app, Nat2Z.inj_add, Z.pow_add_r by lia. simpl. lia.
Qed.

Lemma be_value_range b : 0 ≤ be_value b < 256 ^ Z.of_nat (length b).
Proof.
  induction b as [|x b IH] using rev_ind; [done|].
  rewrite be_value_app, length_app, Nat2Z.inj_add, Z.pow_add_r by lia.
  pose proof (Z_of_byte_range x) as [? Hx]. change (2 ^ 8) with 256 in Hx.
  replace (be_value [x]) with (Z_of_byte x) by (unfold be_value; simpl; lia).
  cbn [length]. change (256 ^ Z.of_nat 1) with 256. nia.
Qed.

(** Printing then reading a number keeps its low bytes. *)
Lemma be_value_be_bytes n z : be_value (be_bytes n z) = z mod 256 ^ Z.of_nat n.
Proof.
  revert z. induction n as [|n IH]; intros z; [simpl; by rewrite Z.mod_1_r|].
  simpl be_bytes. rewrite be_value_app, IH. cbn [length].
  replace (be_value [byte_of_Z z]) with (wrap8 z)
    by (unfold be_value; simpl; rewrite Z_of_byte_of_Z; lia).
  rewrite (Nat2Z.inj_succ n), Z.pow_succ_r by lia. change (256 ^ Z.of_nat 1) with 256.
  unfold wrap8, wrap. change (2 ^ 8) with 256.
  rewrite Z.rem_mul_r by lia. lia.
Qed.

Lemma be_bytes_be_value b : be_bytes (length b) (be_value b) = b.
Proof.
  induction b as [|x b IH] using rev_ind; [done|].
  rewrite length_app, Nat.add_comm. cbn [length Nat.add be_bytes].
  rewrite be_value_app. cbn [length].
  pose proof (Z_of_byte_range x) as [? Hx]. change (2 ^ 8) with 256 in Hx.
  replace (be_value [x]) with (Z_of_byte x) by (unfold be_value; simpl; lia).
  change (256 ^ Z.of_nat 1) with 256.
  rewrite Z.div_add_l, Z.div_small, Z.add_0_r, IH by lia. f_equal. f_equal.
  rewrite <- (byte_of_Z_of_byte x) at 2. unfold byte_of_Z, wrap8, wrap. do 3 f_equal.
  change (2 ^ 8) with 256. rewrite Z.add_comm, Z.mod_add by lia. done.
Qed.

#[global] Arguments be_value : simpl never.

(** ** Tactics *)
(** Case analysis on the innermost [match] of the goal or of a hypothesis. *)
Ltac case_match_in H :=
  match type of H with context [ match ?x with _ => _ end ] => destruct x eqn:? end.
(** Takes a successful computation apart. *)
Ltac inv_bind H :=
  let a := fresh "a" in let s1 := fresh "s" in let H1 := fresh "H" in let H2 := fresh "H" in
  apply M_bind_inv in H as (a & s1 & H1 & H2).
(** A closed equality, and a closed decidable proposition. *)
Ltac computed := vm_compute; reflexivity.
Ltac decided := apply (bool_decide_unpack _); vm_compute; exact I.
(** Unfolds the monad. *)
Ltac unfold_M :=
  unfold mbind, M_bind, mret, M_ret, get, put, modify, gets, throw, gopanic, lift_res,
    attempt, map_err, when, zoom in *.
