(* ===== verification/Types.v ===== *)
(** * Data exchanged by the components

    The structures of [etherman/types.go]: blocks and the bridge events they
    carry.  A [common.Hash] and a [[32]byte] are 32 bytes, a [common.Address]
    is 20 bytes; a [*big.Int] is an integer; a [time.Time] is a number of
    nanoseconds, the zero time being 0. *)
From S2P Require Import Prelude.

Definition zero_hash : bytes := replicate 32 x00.
Definition zero_address : bytes := replicate 20 x00.
Definition zero_time : Z := 0.

#[global] Arguments zero_hash : simpl never.
#[global] Arguments zero_address : simpl never.

(** [common.BytesToHash]: keeps the last 32 bytes, pads on the left. *)
Definition BytesToHash (b : bytes) : bytes :=
  let b' := drop (length b - 32) b in replicate (32 - length b') x00 ++ b'.

Lemma BytesToHash_32 b : length b = 32%nat → BytesToHash b = b.
Proof. intros H. unfold BytesToHash. by rewrite H, Nat.sub_diag, drop_0, H. Qed.
Lemma length_zero_hash : length zero_hash = 32%nat.
Proof. done. Qed.

Record GlobalExitRoot := mkGlobalExitRoot {
  ger_BlockID : Z;
  ger_BlockNumber : Z;
  ger_ExitRoots : list bytes;
  ger_GlobalExitRoot : bytes;
  ger_NetworkID : Z;
  ger_ID : Z;
  ger_Time : Z;
}.

Record Deposit := mkDeposit {
  dep_Id : Z;
  dep_LeafType : Z;
  dep_OriginalNetwork : Z;
  dep_OriginalAddress : bytes;
  dep_Amount : Z;
  dep_DestinationNetwork : Z;
  dep_DestinationAddress : bytes;
  dep_DepositCount : Z;
  dep_BlockID : Z;
  dep_BlockNumber : Z;
  dep_NetworkID : Z;
  dep_TxHash : bytes;
  dep_Metadata : bytes;
  dep_ReadyForClaim : bool;
  dep_Time : Z;
  dep_ReadyTime : Z;
  dep_DestContractAddress : bytes;
}.

Record Claim := mkClaim {
  clm_MainnetFlag : bool;
  clm_RollupIndex : Z;
  clm_Index : Z;
  clm_OriginalNetwork : Z;
  clm_OriginalAddress : bytes;
  clm_Amount : Z;
  clm_DestinationAddress : bytes;
  clm_BlockID : Z;
  clm_BlockNumber : Z;
  clm_NetworkID : Z;
  clm_TxHash : bytes;
  clm_Time : Z;
}.

Record TokenMetadata := mkTokenMetadata {
  tm_Name : string;
  tm_Symbol : string;
  tm_Decimals : Z;
}.

Record TokenWrapped := mkTokenWrapped {
  tw_TokenMetadata : TokenMetadata;
  tw_OriginalNetwork : Z;
  tw_OriginalTokenAddress : bytes;
  tw_WrappedTokenAddress : bytes;
  tw_BlockID : Z;
  tw_BlockNumber : Z;
  tw_NetworkID : Z;
}.

Record VerifiedBatch := mkVerifiedBatch {
  vb_BlockNumber : Z;
  vb_BatchNumber : Z;
  vb_RollupID : Z;
  vb_LocalExitRoot : bytes;
  vb_TxHash : bytes;
  vb_StateRoot : bytes;
  vb_Aggregator : bytes;
}.

Record RollupExitLeaf := mkRollupExitLeaf {
  rel_ID : Z;
  rel_BlockID : Z;
  rel_Leaf : bytes;
  rel_RollupId : Z;
  rel_Root : bytes;
}.

Record Block := mkBlock {
  blk_ID : Z;
  blk_BlockNumber : Z;
  blk_BlockHash : bytes;
  blk_NetworkID : Z;
  blk_GlobalExitRoots : list GlobalExitRoot;
  blk_RemoveL2GER : list GlobalExitRoot;
  blk_Deposits : list Deposit;
  blk_Claims : list Claim;
  blk_Tokens : list TokenWrapped;
  blk_VerifiedBatches : list VerifiedBatch;
  blk_ActivateEtrog : list bool;
  blk_ReceivedAt : Z;
}.

(** [etherman.EventOrder] and [etherman.Order]: the kind of an event and its
    position among those of its kind in the block. *)
Inductive EventOrder : Type :=
| GlobalExitRootsOrder | RemoveL2GEROrder | DepositsOrder | ClaimsOrder | TokensOrder | VerifyBatchOrder.
#[global] Instance EventOrder_eq_dec : EqDecision EventOrder.
Proof. solve_decision. Defined.
Record Order := mkOrder { ord_Name : EventOrder; ord_Pos : Z }.

(** The zero value [Block{}] and a block with a number and a hash only. *)
Definition mk_header (number : Z) (hash : bytes) : Block :=
  mkBlock 0 number hash 0 [] [] [] [] [] [] [] zero_time.
Definition empty_block : Block := mk_header 0 zero_hash.

#[global] Instance GlobalExitRoot_eq_dec : EqDecision GlobalExitRoot.
Proof. solve_decision. Defined.
#[global] Instance Deposit_eq_dec : EqDecision Deposit.
Proof. solve_decision. Defined.
#[global] Instance Claim_eq_dec : EqDecision Claim.
Proof. solve_decision. Defined.
#[global] Instance TokenMetadata_eq_dec : EqDecision TokenMetadata.
Proof. solve_decision. Defined.
#[global] Instance TokenWrapped_eq_dec : EqDecision TokenWrapped.
Proof. solve_decision. Defined.
#[global] Instance VerifiedBatch_eq_dec : EqDecision VerifiedBatch.
Proof. solve_decision. Defined.
#[global] Instance RollupExitLeaf_eq_dec : EqDecision RollupExitLeaf.
Proof. solve_decision. Defined.
#[global] Instance Block_eq_dec : EqDecision Block.
Proof. solve_decision. Defined.

(** ** Field assignments of the source *)
Section Setters.
Definition set_ger_ids (blockID net : Z) (g : GlobalExitRoot) : GlobalExitRoot :=
  mkGlobalExitRoot blockID (ger_BlockNumber g) (ger_ExitRoots g) (ger_GlobalExitRoot g)
    net (ger_ID g) (ger_Time g).
Definition set_ger_ExitRoots (r : list bytes) (g : GlobalExitRoot) : GlobalExitRoot :=
  mkGlobalExitRoot (ger_BlockID g) (ger_BlockNumber g) r (ger_GlobalExitRoot g)
    (ger_NetworkID g) (ger_ID g) (ger_Time g).
Definition set_dep_ids (blockID net : Z) (d : Deposit) : Deposit :=
  mkDeposit (dep_Id d) (dep_LeafType d) (dep_OriginalNetwork d) (dep_OriginalAddress d)
    (dep_Amount d) (dep_DestinationNetwork d) (dep_DestinationAddress d)
    (dep_DepositCount d) blockID (dep_BlockNumber d) net (dep_TxHash d) (dep_Metadata d)
    (dep_ReadyForClaim d) (dep_Time d) (dep_ReadyTime d) (dep_DestContractAddress d).
Definition set_dep_Time (t : Z) (d : Deposit) : Deposit :=
  mkDeposit (dep_Id d) (dep_LeafType d) (dep_OriginalNetwork d) (dep_OriginalAddress d)
    (dep_Amount d) (dep_DestinationNetwork d) (dep_DestinationAddress d)
    (dep_DepositCount d) (dep_BlockID d) (dep_BlockNumber d) (dep_NetworkID d) (dep_TxHash d)
    (dep_Metadata d) (dep_ReadyForClaim d) t (dep_ReadyTime d) (dep_DestContractAddress d).
Definition set_dep_ready (b : bool) (d : Deposit) : Deposit :=
  mkDeposit (dep_Id d) (dep_LeafType d) (dep_OriginalNetwork d) (dep_OriginalAddress d)
    (dep_Amount d) (dep_DestinationNetwork d) (dep_DestinationAddress d)
    (dep_DepositCount d) (dep_BlockID d) (dep_BlockNumber d) (dep_NetworkID d) (dep_TxHash d)
    (dep_Metadata d) b (dep_Time d) (dep_ReadyTime d) (dep_DestContractAddress d).
Definition set_dep_Id (i : Z) (d : Deposit) : Deposit :=
  mkDeposit i (dep_LeafType d) (dep_OriginalNetwork d) (dep_OriginalAddress d)
    (dep_Amount d) (dep_DestinationNetwork d) (dep_DestinationAddress d)
    (dep_DepositCount d) (dep_BlockID d) (dep_BlockNumber d) (dep_NetworkID d) (dep_TxHash d)
    (dep_Metadata d) (dep_ReadyForClaim d) (dep_Time d) (dep_ReadyTime d)
    (dep_DestContractAddress d).
Definition set_clm_ids (blockID net : Z) (c : Claim) : Claim :=
  mkClaim (clm_MainnetFlag c) (clm_RollupIndex c) (clm_Index c) (clm_OriginalNetwork c)
    (clm_OriginalAddress c) (clm_Amount c) (clm_DestinationAddress c) blockID
    (clm_BlockNumber c) net (clm_TxHash c) (clm_Time c).
Definition set_clm_Time (t : Z) (c : Claim) : Claim :=
  mkClaim (clm_MainnetFlag c) (clm_RollupIndex c) (clm_Index c) (clm_OriginalNetwork c)
    (clm_OriginalAddress c) (clm_Amount c) (clm_DestinationAddress c) (clm_BlockID c)
    (clm_BlockNumber c) (clm_NetworkID c) (clm_TxHash c) t.
Definition set_tw_ids (blockID net : Z) (t : TokenWrapped) : TokenWrapped :=
  mkTokenWrapped (tw_TokenMetadata t) (tw_OriginalNetwork t) (tw_OriginalTokenAddress t)
    (tw_WrappedTokenAddress t) blockID (tw_BlockNumber t) net.
Definition set_blk_NetworkID (net : Z) (b : Block) : Block :=
  mkBlock (blk_ID b) (blk_BlockNumber b) (blk_BlockHash b) net (blk_GlobalExitRoots b)
    (blk_RemoveL2GER b) (blk_Deposits b) (blk_Claims b) (blk_Tokens b)
    (blk_VerifiedBatches b) (blk_ActivateEtrog b) (blk_ReceivedAt b).
End Setters.
