(* ===== verification/GlobalIndex.v ===== *)
(** * Global indexes

    [GenerateGlobalIndex] and [DecodeGlobalIndex] of [etherman/etherman.go].  A
    global index packs a mainnet flag, a rollup index and a local exit root
    index: bit 64 is the flag, bits 32 to 63 the rollup index and bits 0 to 31
    the local index. *)
From S2P Require Import Prelude.

(** [big.Int.Bytes]: the big-endian bytes with no leading zero. *)
Definition big_Bytes (z : Z) : bytes :=
  be_bytes (Z.to_nat (if bool_decide (z = 0) then 0 else Z.log2 (Z.abs z) / 8 + 1)) (Z.abs z).

(** [big.Int.FillBytes] on a buffer of [n] bytes: panics when the absolute
    value does not fit. *)
Definition FillBytes (n : nat) (z : Z) : res bytes :=
  if bool_decide (Z.abs z < 256 ^ Z.of_nat n) then Ok (be_bytes n (Z.abs z))
  else Panic "math/big: buffer too small to fit value".

Definition GenerateGlobalIndex (mainnetFlag : bool) (rollupIndex localExitRootIndex : Z) : res Z :=
  globalIndexBytes ←
    (if mainnetFlag then
       ri ← FillBytes 4 0; mret (big_Bytes 1 ++ ri)
     else FillBytes 4 rollupIndex);
  leri ← FillBytes 4 localExitRootIndex;
  mret (be_value (globalIndexBytes ++ leri)).

(** The slice expression [b[i:j]] on a 32-byte buffer. *)
Definition slice (i j : nat) (b : bytes) : bytes := take (j - i) (drop i b).

Definition lengthGlobalIndexInBytes : nat := 32.

Definition DecodeGlobalIndex (globalIndex : Z) : res (bool * Z * Z) :=
  gIBytes ← FillBytes 32 globalIndex;
  if bool_decide (length gIBytes ≠ lengthGlobalIndexInBytes) then
    Err (Errorf "invalid globaIndex length. Should be 32. Current length: %d" [Z.of_nat (length gIBytes)])
  else
    flagByte ← at_index gIBytes 23;
    let mainnetFlag := bool_decide (be_value [flagByte] = 1) in
    let rollupIndex := be_value (slice 24 28 gIBytes) in
    let localRootIndex := be_value (slice 28 32 gIBytes) in
    if bool_decide (wrap64 rollupIndex > 2 ^ 32 - 1) then
      Err (Errorf "invalid rollupIndex length. Should be fit into uint32 type" [])
    else if bool_decide (wrap64 localRootIndex > 2 ^ 32 - 1) then
      Err (Errorf "invalid localRootIndex length. Should be fit into uint32 type" [])
    else Ok (mainnetFlag, wrap32 (wrap64 rollupIndex), wrap32 (wrap64 localRootIndex)).

(** ** Facts *)
Section Facts.
Lemma FillBytes_ok n z : 0 ≤ z < 256 ^ Z.of_nat n → FillBytes n z = Ok (be_bytes n z).
Proof. intros H. unfold FillBytes. rewrite Z.abs_eq by lia. by rewrite bool_decide_true by lia. Qed.

(** The bytes of a number, seen from position [i]. *)
Lemma drop_be_bytes n m z : drop n (be_bytes (n + m) z) = be_bytes m z.
Proof.
  revert z. induction m as [|m IH]; intros z.
  - rewrite Nat.add_0_r, drop_ge; [done|]. by rewrite length_be_bytes.
  - rewrite Nat.add_succ_r. simpl be_bytes. rewrite drop_app_le, IH; [done|].
    rewrite length_be_bytes. lia.
Qed.
Lemma take_be_bytes n m z : take n (be_bytes (n + m) z) = be_bytes n (z / 256 ^ Z.of_nat m).
Proof.
  revert z. induction m as [|m IH]; intros z.
  - rewrite Nat.add_0_r, Z.div_1_r, take_ge; [done|]. by rewrite length_be_bytes.
  - rewrite Nat.add_succ_r. simpl be_bytes.
    rewrite take_app_le by (rewrite length_be_bytes; lia).
    rewrite IH, Nat2Z.inj_succ, Z.pow_succ_r, Z.div_div by lia. done.
Qed.
Lemma be_value_slice i j n z :
  (i ≤ j ≤ n)%nat →
  be_value (slice i j (be_bytes n z)) = z / 256 ^ Z.of_nat (n - j) mod 256 ^ Z.of_nat (j - i).
Proof.
  intros H. unfold slice. replace n with (i + (n - i))%nat at 1 by lia.
  rewrite drop_be_bytes. replace (n - i)%nat with ((j - i) + (n - j))%nat at 1 by lia.
  by rewrite take_be_bytes, be_value_be_bytes.
Qed.
Lemma be_bytes_lookup n i z :
  (i < n)%nat → be_bytes n z !! i = Some (byte_of_Z (z / 256 ^ Z.of_nat (n - S i))).
Proof.
  revert z. induction n as [|n IH]; intros z Hi; [lia|]. simpl be_bytes.
  destruct (decide (i = n)) as [->|].
  - rewrite lookup_app_r, length_be_bytes, Nat.sub_diag, Nat.sub_diag by (rewrite length_be_bytes; lia).
    simpl. by rewrite Z.div_1_r.
  - rewrite lookup_app_l by (rewrite length_be_bytes; lia). rewrite IH by lia.
    replace (S n - S i)%nat with (S (n - S i)) by lia.
    rewrite Nat2Z.inj_succ, Z.pow_succ_r, Z.div_div by lia. done.
Qed.
End Facts.


(** The three fields a decoded word holds. *)
Lemma DecodeGlobalIndex_fits (g : Z) :
  Z.abs g < 256 ^ 32 →
  DecodeGlobalIndex g =
    Ok (bool_decide (Z.abs g / 2 ^ 64 mod 256 = 1),
        Z.abs g / 2 ^ 32 mod 2 ^ 32, Z.abs g mod 2 ^ 32).
Proof.
  intros Hg. unfold DecodeGlobalIndex, FillBytes.
  rewrite bool_decide_true by done. generalize (Z.abs g). clear. intros a.
  cbn -[be_value be_bytes Z.pow slice at_index].
  rewrite bool_decide_false by (unfold lengthGlobalIndexInBytes; rewrite length_be_bytes; tauto).
  replace (at_index (be_bytes 32 a) 23) with (Ok (byte_of_Z (a / 256 ^ 8)))
    by (unfold at_index; rewrite bool_decide_true by lia; simpl (Z.to_nat 23);
        by rewrite be_bytes_lookup by lia).
  cbn -[be_value be_bytes Z.pow slice].
  rewrite !be_value_slice by lia. simpl (Z.of_nat _).
  rewrite Z.div_1_r. change (256 ^ Z.of_nat 4) with (2 ^ 32). change (256 ^ 8) with (2 ^ 64).
  replace (be_value [byte_of_Z (a / 2 ^ 64)]) with (a / 2 ^ 64 mod 256)
    by (unfold be_value; simpl fold_left; rewrite Z_of_byte_of_Z; done).
  pose proof (Z.mod_pos_bound (a / 2 ^ 32) (2 ^ 32) ltac:(lia)).
  pose proof (Z.mod_pos_bound a (2 ^ 32) ltac:(lia)).
  assert (∀ x, 0 ≤ x < 2 ^ 32 → wrap64 x = x) as Hw.
  { intros x Hx. apply wrap_id. unfold in_width. lia. }
  rewrite !Hw by lia. unfold wrap32. rewrite !wrap_id by (unfold in_width; lia).
  rewrite !(bool_decide_false (_ > _)) by lia. done.
Qed.

(** The number a generated index is. *)
Lemma GenerateGlobalIndex_value (mainnetFlag : bool) (rollupIndex localExitRootIndex : Z) :
  is_uint32 rollupIndex → is_uint32 localExitRootIndex →
  GenerateGlobalIndex mainnetFlag rollupIndex localExitRootIndex =
    Ok ((if mainnetFlag then 2 ^ 64 else rollupIndex * 2 ^ 32) + localExitRootIndex).
Proof.
  unfold GenerateGlobalIndex, in_width. intros Hr Hl.
  destruct mainnetFlag; cbn -[FillBytes be_value].
  - rewrite !FillBytes_ok by (simpl; lia). cbn -[FillBytes be_value be_bytes big_Bytes].
    rewrite !be_value_app, !be_value_be_bytes, length_be_bytes.
    rewrite (Z.mod_small localExitRootIndex) by (simpl; lia). done.
  - rewrite !FillBytes_ok by (simpl; lia). cbn -[FillBytes be_value be_bytes].
    rewrite be_value_app, !be_value_be_bytes, length_be_bytes.
    rewrite !Z.mod_small by (simpl; lia). done.
Qed.

(** ** Properties *)

(** Decoding is total on the 256-bit words and reads the three
    fields; it panics on wider numbers, and its two error returns are never
    taken. *)
Theorem DecodeGlobalIndex_total (g : Z) :
  DecodeGlobalIndex g =
    if bool_decide (Z.abs g < 2 ^ 256) then
      Ok (bool_decide (Z.abs g / 2 ^ 64 mod 256 = 1),
          Z.abs g / 2 ^ 32 mod 2 ^ 32, Z.abs g mod 2 ^ 32)
    else Panic "math/big: buffer too small to fit value".
Proof.
  change (2 ^ 256) with (256 ^ 32). case_bool_decide as H; [by apply DecodeGlobalIndex_fits|].
  unfold DecodeGlobalIndex, FillBytes. by rewrite bool_decide_false by done.
Qed.

(** C22. Decoding a generated index gives back the flag, the local
    index and, off mainnet, the rollup index. *)
Theorem GlobalIndex_roundtrip (mainnetFlag : bool) (rollupIndex localExitRootIndex : Z)
  (Hr : is_uint32 rollupIndex) (Hl : is_uint32 localExitRootIndex) :
  (GenerateGlobalIndex mainnetFlag rollupIndex localExitRootIndex ≫= DecodeGlobalIndex) =
    Ok (mainnetFlag, if mainnetFlag then 0 else rollupIndex, localExitRootIndex).
Proof.
  rewrite GenerateGlobalIndex_value by done. cbn -[Z.pow DecodeGlobalIndex].
  unfold in_width in *. rewrite DecodeGlobalIndex_fits by (destruct mainnetFlag; lia).
  rewrite Z.abs_eq by (destruct mainnetFlag; lia). destruct mainnetFlag.
  - change (2 ^ 64) with (1 * 2 ^ 64). rewrite Z.div_add_l, (Z.div_small _ (1 * 2 ^ 64)) by lia.
    change (1 * 2 ^ 64) with (2 ^ 32 * 2 ^ 32).
    rewrite Z.div_add_l, (Z.div_small _ (2 ^ 32)), Z.add_0_r, Z.mod_same by lia.
    rewrite (Z.add_comm (_ * _)), Z.mod_add, (Z.mod_small localExitRootIndex) by lia. done.
  - rewrite (Z.div_small _ (2 ^ 64)) by lia. rewrite bool_decide_false by done.
    rewrite Z.div_add_l, (Z.div_small _ (2 ^ 32)), Z.add_0_r, (Z.mod_small rollupIndex) by lia.
    rewrite (Z.add_comm (_ * _)), Z.mod_add, (Z.mod_small localExitRootIndex) by lia. done.
Qed.

Lemma GlobalIndex_roundtrip_witness :
  GenerateGlobalIndex false 3 77 = Ok (3 * 2 ^ 32 + 77) ∧
  (GenerateGlobalIndex false 3 77 ≫= DecodeGlobalIndex) = Ok (false, 3, 77).
Proof.
  split; [vm_compute; reflexivity|].
  apply (GlobalIndex_roundtrip false 3 77); unfold in_width; lia.
Defined.
