(* ===== verification/Hashing.v ===== *)
(** * Hashes of the exit trees

    [bridgectrl/hash.go].  The Keccak-256 function of the cryptographic
    libraries is the parameter [keccak256]; whatever it returns, [Hash] copies
    it into a 32-byte array. *)
From S2P Require Import Prelude Types GlobalIndex.

(** Legacy Keccak-256 (golang.org/x/crypto/sha3, iden3 keccak256). *)
Class Keccak : Type := keccak256 : bytes → bytes.

Definition LeafTypeAsset : Z := 0.
Definition LeafTypeMessage : Z := 1.

Section Hashing.
Context {K : Keccak}.

Definition Hash (data : list bytes) : bytes := go_copy zero_hash (keccak256 (concat data)).

Definition HashZero : bytes := zero_hash.

(** The body of the loop [for i := 1; i <= height; i++], [n] times. *)
Fixpoint generateZeroHashes_loop (n : nat) (i : Z) (zeroHashes : list bytes) : res (list bytes) :=
  match n with
  | O => Ok zeroHashes
  | S n =>
      x ← at_index zeroHashes (i - 1);
      y ← at_index zeroHashes (i - 1);
      generateZeroHashes_loop n (i + 1) (zeroHashes ++ [Hash [x; y]])
  end.
Definition generateZeroHashes (height : Z) : res (list bytes) :=
  generateZeroHashes_loop (Z.to_nat height) 1 [HashZero].

(** The package variable set by [init()]. *)
Definition zeroHashes : list bytes :=
  match generateZeroHashes 64 with Ok l => l | _ => [] end.

Definition hashDeposit (deposit : Deposit) : res bytes :=
  let origNet := be_bytes 4 (wrap32 (dep_OriginalNetwork deposit)) in
  let destNet := be_bytes 4 (wrap32 (dep_DestinationNetwork deposit)) in
  let metaHash := keccak256 (dep_Metadata deposit) in
  let emptyAddr := zero_address in
  let destAddr :=
    if bool_decide (dep_LeafType deposit = LeafTypeMessage)
       && bool_decide (dep_DestContractAddress deposit ≠ emptyAddr)
    then dep_DestContractAddress deposit else dep_DestinationAddress deposit in
  amount ← FillBytes 32 (dep_Amount deposit);
  mret (go_copy zero_hash
    (keccak256 (concat [[byte_of_Z (dep_LeafType deposit)]; origNet;
      dep_OriginalAddress deposit; destNet; destAddr; amount; metaHash]))).

(** ** Facts *)
Lemma length_Hash data : length (Hash data) = 32%nat.
Proof. unfold Hash. by rewrite length_go_copy. Qed.

(** The hash of the empty subtree of height [h]. *)
Fixpoint zero_node (h : nat) : bytes :=
  match h with O => zero_hash | S h => Hash [zero_node h; zero_node h] end.

Lemma length_zero_node h : length (zero_node h) = 32%nat.
Proof. destruct h; [done|apply length_Hash]. Qed.

Lemma generateZeroHashes_loop_spec n k :
  generateZeroHashes_loop n (Z.of_nat (S k)) (zero_node <$> seq 0 (S k)) =
    Ok (zero_node <$> seq 0 (S k + n)).
Proof.
  revert k. induction n as [|n IH]; intros k; [by rewrite Nat.add_0_r|].
  cbn [generateZeroHashes_loop]. unfold at_index.
  rewrite bool_decide_true by lia.
  replace (Z.to_nat (Z.of_nat (S k) - 1)) with k by lia.
  assert ((zero_node <$> seq 0 (S k)) !! k = Some (zero_node k)) as ->.
  { rewrite list_lookup_fmap, lookup_seq_lt by lia. done. }
  unfold mbind, res_bind.
  replace ((zero_node <$> seq 0 (S k)) ++ [Hash [zero_node k; zero_node k]])
    with (zero_node <$> seq 0 (S (S k)))
    by (rewrite (seq_S (S k)), fmap_app; done).
  replace (Z.of_nat (S k) + 1) with (Z.of_nat (S (S k))) by lia.
  rewrite IH. by replace (S (S k) + n)%nat with (S k + S n)%nat by lia.
Qed.

Lemma generateZeroHashes_spec (h : nat) :
  generateZeroHashes (Z.of_nat h) = Ok (zero_node <$> seq 0 (S h)).
Proof.
  unfold generateZeroHashes. rewrite Nat2Z.id.
  apply (generateZeroHashes_loop_spec h 0).
Qed.

Lemma zeroHashes_spec : zeroHashes = zero_node <$> seq 0 65.
Proof. unfold zeroHashes. change 64 with (Z.of_nat 64). by rewrite generateZeroHashes_spec. Qed.

Lemma zeroHashes_at (h : Z) : 0 ≤ h ≤ 64 → at_index zeroHashes h = Ok (zero_node (Z.to_nat h)).
Proof.
  intros Hh. unfold at_index. rewrite bool_decide_true by lia.
  by rewrite zeroHashes_spec, list_lookup_fmap, lookup_seq_lt by lia.
Qed.

Lemma length_hashDeposit d leaf : hashDeposit d = Ok leaf → length leaf = 32%nat.
Proof.
  unfold hashDeposit. destruct (FillBytes 32 (dep_Amount d)); cbn; [|done|done].
  intros [= <-]. apply length_go_copy.
Qed.
End Hashing.

(** A computable function with the type of [keccak256], for examples. *)
Definition toy_keccak : Keccak := λ b,
  be_bytes 32 (fold_left (λ acc x, (acc * 131 + Z_of_byte x + 7) mod 1000000007) b 5381).
