(* ===== verification/MerkleStore.v ===== *)
(** * The storage interface of the exit trees

    [bridgectrl/interfaces.go]: the Go interface [merkleTreeStore] as a class
    of operations, and the laws its clients rely on.  [nodes], [roots] and
    [deposit_counts] are what a transaction sees of the three tables: tree
    nodes with the deposit that wrote them, roots with their deposit and
    network, and the deposit count of every deposit identifier. *)
From S2P Require Import Prelude Types.

(** A [pgx.Tx] argument: [nil], or the transaction the caller has opened. *)
Inductive Tx : Type := nil_tx | open_tx.
#[global] Instance Tx_eq_dec : EqDecision Tx.
Proof. solve_decision. Defined.

(** A row of mt.rht: key, value, deposit_id. *)
Definition node_row : Type := bytes * list bytes * Z.
(** A row of mt.root: root, deposit_id, network. *)
Definition root_row : Type := bytes * Z * Z.

Class merkleTreeStore (DB : Type) : Type := {
  st_Get : bytes → Tx → M DB (list bytes);
  st_BulkSet : list node_row → Tx → M DB unit;
  st_GetRoot : Z → Z → Tx → M DB bytes;
  st_SetRoot : bytes → Z → Z → Tx → M DB unit;
  st_GetLastDepositCount : Z → Tx → M DB Z;
  st_AddRollupExitLeaves : list (bytes * Z * bytes * Z) → Tx → M DB unit;
  st_GetRollupExitLeavesByRoot : bytes → Tx → M DB (list RollupExitLeaf);
  st_GetLatestRollupExitLeaves : Tx → M DB (list RollupExitLeaf);
  st_IsRollupExitRoot : bytes → Tx → M DB bool;
}.

(** What the trees need to know of a store. [live] says that the store answers
    (no fault is pending and the transaction is open). *)
Class merkleTreeStoreOk (DB : Type) `{!merkleTreeStore DB} : Type := {
  nodes : Tx → DB → list node_row;
  roots : Tx → DB → list root_row;
  deposit_counts : Tx → DB → list (Z * Z);
  live : Tx → DB → Prop;

  Get_ok k tx db v db' :
    st_Get k tx db = (Ok v, db') →
    (∃ d, (k, v, d) ∈ nodes tx db) ∧
    nodes tx db' = nodes tx db ∧ roots tx db' = roots tx db ∧
    deposit_counts tx db' = deposit_counts tx db ∧ (live tx db → live tx db');
  Get_live k tx db v d :
    live tx db → (k, v, d) ∈ nodes tx db →
    ∃ v' db', st_Get k tx db = (Ok v', db');
  BulkSet_ok rows tx db u db' :
    st_BulkSet rows tx db = (Ok u, db') →
    nodes tx db' = nodes tx db ++ rows ∧ roots tx db' = roots tx db ∧
    deposit_counts tx db' = deposit_counts tx db ∧ (live tx db → live tx db');
  BulkSet_live rows tx db :
    live tx db →
    NoDup ((λ r : node_row, (r.1.1, r.2)) <$> (nodes tx db ++ rows)) →
    (∀ k v d, (k, v, d) ∈ rows → ∃ c, (d, c) ∈ deposit_counts tx db) →
    ∃ db', st_BulkSet rows tx db = (Ok tt, db');
  GetRoot_ok c net tx db r db' :
    st_GetRoot c net tx db = (Ok r, db') →
    (∃ d, (r, d, net) ∈ roots tx db ∧ (d, c) ∈ deposit_counts tx db) ∧
    nodes tx db' = nodes tx db ∧ roots tx db' = roots tx db ∧
    deposit_counts tx db' = deposit_counts tx db ∧ (live tx db → live tx db');
  GetRoot_live c net tx db r d :
    live tx db → (r, d, net) ∈ roots tx db → (d, c) ∈ deposit_counts tx db →
    ∃ r' db', st_GetRoot c net tx db = (Ok r', db');
  SetRoot_ok r d net tx db u db' :
    st_SetRoot r d net tx db = (Ok u, db') →
    nodes tx db' = nodes tx db ∧ roots tx db' = roots tx db ++ [(r, d, net)] ∧
    deposit_counts tx db' = deposit_counts tx db ∧ (live tx db → live tx db');
  SetRoot_live r d c net tx db :
    live tx db → (∀ r' n', (r', d, n') ∉ roots tx db) → (d, c) ∈ deposit_counts tx db →
    ∃ db', st_SetRoot r d net tx db = (Ok tt, db');
}.
