(* ===== verification/MerkleTree.v ===== *)
(** * The append-only Merkle tree

    [bridgectrl/merkletree.go], function by function.  The receiver [mt] and
    the store are the state of the monad; the slices [mt.siblings] and [leaves]
    are lists; every slice access that can be out of range panics. *)
From S2P Require Import Prelude Types Hashing MerkleStore.

Definition KeyLen : Z := 32.

Record MerkleTree := mkMerkleTree {
  mt_networkID : Z;
  mt_height : Z;               (* uint8 *)
  mt_count : Z;                (* uint32 *)
  mt_siblings : list bytes;
}.
#[global] Instance MerkleTree_eq_dec : EqDecision MerkleTree.
Proof. solve_decision. Defined.

Definition set_count (c : Z) (mt : MerkleTree) : MerkleTree :=
  mkMerkleTree (mt_networkID mt) (mt_height mt) c (mt_siblings mt).
Definition set_siblings (s : list bytes) (mt : MerkleTree) : MerkleTree :=
  mkMerkleTree (mt_networkID mt) (mt_height mt) (mt_count mt) s.

(** The test [index&(1<<h) > 0] on a uint32. *)
Definition bit_set (index h : Z) : bool := bool_decide (Z.land index (wrap32 (Z.shiftl 1 h)) > 0).

(** [for st, en := 0, len(s)-1; st < en; ...  { swap }]: reverses in place. *)
Fixpoint invert_loop (fuel : nat) (st en : nat) (s : list bytes) : list bytes :=
  match fuel with
  | O => s
  | S fuel =>
      if bool_decide (st < en)%nat then
        match s !! st, s !! en with
        | Some a, Some b => invert_loop fuel (S st) (en - 1) (<[st:=b]> (<[en:=a]> s))
        | _, _ => s
        end
      else s
  end.
Definition invert (s : list bytes) : list bytes := invert_loop (length s) 0 (length s - 1) s.

(** A triple of the source's [[][]byte]: parent, left child, right child. *)
Abbreviation node3 := (bytes * bytes * bytes)%type.
Definition node3_row (depositID : Z) (n : node3) : node_row :=
  (n.1.1, [n.1.2; n.2], depositID).

Section MerkleTree.
Context {K : Keccak} {DB : Type} {STO : merkleTreeStore DB}.

Abbreviation MT := (M (MerkleTree * DB)).
Definition on_store {A} (m : M DB A) : MT A := zoom snd (λ db s, (s.1, db)) m.
Definition update_mt (f : MerkleTree → MerkleTree) : MT unit := modify (λ s, (f s.1, s.2)).

(** A method call on a value the caller holds and does not keep. *)
Definition with_receiver {A} (mt : MerkleTree) (m : MT A) : M DB A :=
  λ db, let '(r, (_, db')) := m (mt, db) in (r, db').

Definition getRoot (tx : Tx) : MT bytes :=
  mt ← gets fst;
  if bool_decide (mt_count mt = 0) then lift_res (at_index zeroHashes (mt_height mt))
  else on_store (st_GetRoot (wrap32 (mt_count mt - 1)) (mt_networkID mt) tx).

(** The levels a loop [for h := int(mt.height - 1); h >= 0; h--] visits. *)
Definition levels (height : Z) : list Z :=
  Z.of_nat <$> rev (seq 0 (Z.to_nat (wrap8 (height - 1) + 1))).

Fixpoint initSiblings_zero (hs : list Z) (left : bytes) (siblings : list bytes) : res (list bytes) :=
  match hs with
  | [] => Ok siblings
  | h :: hs =>
      z ← at_index zeroHashes h;
      let left := go_copy left z in
      initSiblings_zero hs left (siblings ++ [left])
  end.

Fixpoint initSiblings_loop (hs : list Z) (index : Z) (cur left : bytes) (siblings : list bytes)
    (tx : Tx) : M DB (list bytes) :=
  match hs with
  | [] => mret siblings
  | h :: hs =>
      value ← map_err (ErrorfV "height: %d, cur: %v, error: %v") (st_Get cur tx);
      v0 ← lift_res (at_index value 0);
      let left := go_copy left v0 in
      let siblings := siblings ++ [left] in
      cur ← lift_res (if bit_set index h then at_index value 1 else at_index value 0);
      initSiblings_loop hs index cur left siblings tx
  end.

Definition initSiblings (tx : Tx) : MT (list bytes) :=
  mt ← gets fst;
  if bool_decide (mt_count mt = 0) then
    lift_res (initSiblings_zero (Z.of_nat <$> seq 0 (Z.to_nat (mt_height mt))) zero_hash [])
  else
    root ← getRoot tx;
    let index := wrap32 (mt_count mt - 1) in
    siblings ← on_store (initSiblings_loop (levels (mt_height mt)) index root zero_hash [] tx);
    mret (invert siblings).

Definition NewMerkleTree (height networkID : Z) : M DB MerkleTree :=
  last ← attempt (st_GetLastDepositCount networkID nil_tx);
  depositCnt ← match last with
               | inr err => if bool_decide (err ≠ ErrStorageNotFound) then throw err else mret 0
               | inl c => mret (wrap32 (c + 1))
               end;
  let mt := mkMerkleTree networkID height depositCnt [] in
  siblings ← with_receiver mt (initSiblings nil_tx);
  mret (set_siblings siblings mt).

(** One pass over the levels of [addLeaf]: the running node, the siblings and
    the nodes to store. *)
Fixpoint addLeaf_loop (todo : nat) (h index : Z) (cur : bytes) (isFilledSubTree : bool)
    (siblings : list bytes) (leaves : list node3) : res (bytes * list bytes * list node3) :=
  match todo with
  | O => Ok (cur, siblings, leaves)
  | S todo =>
      if bit_set index h then
        let child := go_copy zero_hash cur in
        s ← at_index siblings h;
        let parent := Hash [s; child] in
        addLeaf_loop todo (h + 1) index parent isFilledSubTree siblings
          (leaves ++ [(parent, s, child)])
      else
        '(siblings, isFilledSubTree) ←
          (if isFilledSubTree then
             s ← at_index siblings h;
             mret (<[Z.to_nat h := go_copy s cur]> siblings, false)
           else mret (siblings, isFilledSubTree));
        let child := go_copy zero_hash cur in
        z ← at_index zeroHashes h;
        let parent := Hash [child; z] in
        addLeaf_loop todo (h + 1) index parent isFilledSubTree siblings
          (leaves ++ [(parent, child, z)])
  end.

Definition addLeaf (depositID : Z) (leaf : bytes) (index : Z) (tx : Tx) : MT unit :=
  mt ← gets fst;
  if bool_decide (index ≠ mt_count mt) then
    throw (Errorf "mismatched deposit count: %d, expected: %d" [index; mt_count mt])
  else
    '(cur, siblings, leaves) ←
      lift_res (addLeaf_loop (Z.to_nat (mt_height mt)) 0 index leaf true (mt_siblings mt) []);
    update_mt (set_siblings siblings);;
    on_store (st_SetRoot cur depositID (mt_networkID mt) tx);;
    on_store (st_BulkSet (node3_row depositID <$> leaves) tx);;
    update_mt (set_count (wrap32 (mt_count mt + 1))).

Definition resetLeaf (depositCount : Z) (tx : Tx) : MT unit :=
  update_mt (set_count depositCount);;
  r ← attempt (initSiblings tx);
  match r with
  | inl siblings => update_mt (set_siblings siblings)
  | inr err => update_mt (set_siblings []);; throw err
  end.

Fixpoint buildIntermediate (leaves : list bytes) : res (list node3 * list bytes) :=
  match leaves with
  | [] => Ok ([], [])
  | l :: r :: rest =>
      let hash := Hash [l; r] in
      '(nodes, hashes) ← buildIntermediate rest;
      mret ((hash, l, r) :: nodes, hash :: hashes)
  | [_] => Panic "index out of range"
  end.

(** Appends the zero hash of the level when the number of nodes is odd. *)
Definition pad_odd (h : Z) (leaves : list bytes) : res (list bytes) :=
  if Nat.odd (length leaves) then z ← at_index zeroHashes h; mret (leaves ++ [z])
  else mret leaves.

(** The loop shared by [updateLeaf] and [buildMTRoot]: the nodes of every
    level, and the last level. *)
Fixpoint build_loop (todo : nat) (h : Z) (leaves : list bytes) (nodes : list (list node3))
    (ns : list node3) : res (list (list node3) * list node3) :=
  match todo with
  | O => Ok (nodes, ns)
  | S todo =>
      leaves ← pad_odd h leaves;
      '(ns, leaves) ← buildIntermediate leaves;
      build_loop todo (h + 1) leaves (nodes ++ [ns]) ns
  end.

Definition first_leaves (leaves : list bytes) : res (list bytes) :=
  match leaves with [] => z ← at_index zeroHashes 0; mret [z] | _ => mret leaves end.

Definition ErrMoreThanOneRoot : error := Errorf "error: more than one root detected: %+v" [].

Definition updateLeaf (depositID : Z) (leaves : list bytes) (tx : Tx) : MT unit :=
  mt ← gets fst;
  let initLeavesCount := wrap32 (Z.of_nat (length leaves)) in
  '(nodes, ns) ← lift_res (leaves ← first_leaves leaves;
                           build_loop (Z.to_nat (mt_height mt)) 0 leaves [] []);
  match ns with
  | [n] =>
      on_store (st_SetRoot n.1.1 depositID (mt_networkID mt) tx);;
      on_store (st_BulkSet (node3_row depositID <$> concat nodes) tx);;
      update_mt (set_count initLeavesCount)
  | _ => throw ErrMoreThanOneRoot
  end.

Definition is_zeroHash (c : bytes) : bool :=
  existsb (λ z, bool_decide (BytesToHash z = BytesToHash c)) zeroHashes.

Fixpoint getLeaves_level (cur : list bytes) (tx : Tx) : M DB (list bytes) :=
  match cur with
  | [] => mret []
  | c :: cur =>
      leaves ← attempt (st_Get c tx);
      leaves ← match leaves with
               | inl leaves => mret leaves
               | inr err => if is_zeroHash c then mret []
                            else throw (ErrorfV "height: %d, cur: %v, error: %v" err)
               end;
      rest ← getLeaves_level cur tx;
      mret (leaves ++ rest)
  end.
Fixpoint getLeaves_loop (hs : list Z) (cur : list bytes) (tx : Tx) : M DB (list bytes) :=
  match hs with
  | [] => mret cur
  | h :: hs => cur ← getLeaves_level cur tx; getLeaves_loop hs cur tx
  end.
Definition getLeaves (tx : Tx) : MT (list bytes) :=
  mt ← gets fst;
  root ← getRoot tx;
  cur ← on_store (getLeaves_loop (levels (mt_height mt)) [root] tx);
  mret (go_copy zero_hash <$> cur).

Definition buildMTRoot (height : Z) (leaves : list bytes) : res bytes :=
  leaves ← first_leaves leaves;
  '(nodes, ns) ← build_loop (Z.to_nat height) 0 leaves [] [];
  match ns with
  | [n] => Ok (BytesToHash n.1.1)
  | _ => Err ErrMoreThanOneRoot
  end.

Definition storeLeaves (leaves : list bytes) (blockID : Z) (tx : Tx) : MT unit :=
  mt ← gets fst;
  root ← lift_res (buildMTRoot (mt_height mt) leaves);
  exist ← on_store (st_IsRollupExitRoot root tx);
  if negb exist then
    on_store (st_AddRollupExitLeaves
      (imap (λ i l, (l, Z.of_nat i + 1, root, blockID)) leaves) tx)
  else mret tt.

(** [for i := len(stored); i < int(rollupLeaf.RollupId); i++]: empty leaves up
    to the new rollup. *)
Definition extend_leaves (stored : list RollupExitLeaf) (rollupLeaf : RollupExitLeaf)
  : list RollupExitLeaf :=
  stored ++ ((λ i, mkRollupExitLeaf 0 (rel_BlockID rollupLeaf) zero_hash
                     (wrap32 (Z.of_nat i + 1)) zero_hash) <$>
             seq (length stored) (Z.to_nat (rel_RollupId rollupLeaf) - length stored)).

(** The stored leaves with the new leaf put at its position. *)
Definition place_leaf (stored : list RollupExitLeaf) (rollupLeaf : RollupExitLeaf)
  : res (list RollupExitLeaf) :=
  let stored := extend_leaves stored rollupLeaf in
  let pos := wrap32 (rel_RollupId rollupLeaf - 1) in
  l ← at_index stored pos;
  if bool_decide (rel_RollupId l = rel_RollupId rollupLeaf) then
    Ok (<[Z.to_nat pos := rollupLeaf]> stored)
  else Err (Errorf "error: RollupId doesn't match" []).

Definition addRollupExitLeaf (rollupLeaf : RollupExitLeaf) (tx : Tx) : MT unit :=
  stored ← on_store (st_GetLatestRollupExitLeaves tx);
  stored ← lift_res (place_leaf stored rollupLeaf);
  let leaves := (λ l, go_copy zero_hash (rel_Leaf l)) <$> stored in
  storeLeaves leaves (rel_BlockID rollupLeaf) tx.

(** One level of [ComputeSiblings]. *)
Definition sibling_at (index : Z) (leaves : list bytes) : res (list bytes) :=
  if bool_decide (index mod 2 = 1) then x ← at_index leaves (index - 1); mret [x]
  else if bool_decide (1 < length leaves)%nat then
    x ← at_index leaves (wrap32 (index + 1)); mret [x]
  else mret [].

Fixpoint ComputeSiblings_loop (todo : nat) (h index : Z) (leaves siblings : list bytes)
    (ns : list node3) : res (list bytes * list node3) :=
  match todo with
  | O => Ok (siblings, ns)
  | S todo =>
      leaves ← pad_odd h leaves;
      s ← sibling_at index leaves;
      '(ns, hashes) ← buildIntermediate leaves;
      ComputeSiblings_loop todo (h + 1) (index / 2) hashes (siblings ++ s) ns
  end.

Definition ComputeSiblings (rollupIndex : Z) (leaves : list bytes) (height : Z)
  : res (list bytes * bytes) :=
  leaves ← first_leaves leaves;
  '(siblings, ns) ← ComputeSiblings_loop (Z.to_nat height) 0 rollupIndex leaves [] [];
  match ns with
  | [n] => Ok (siblings, BytesToHash n.1.1)
  | _ => Err ErrMoreThanOneRoot
  end.

Fixpoint calculateRoot_loop (todo : nat) (h index : Z) (node : bytes) (smtProof : list bytes)
  : res bytes :=
  match todo with
  | O => Ok node
  | S todo =>
      s ← at_index smtProof h;
      let node := if bool_decide (Z.land (Z.shiftr index h) 1 = 1) then Hash [s; node]
                  else Hash [node; s] in
      calculateRoot_loop todo (h + 1) index node smtProof
  end.
Definition calculateRoot (leafHash : bytes) (smtProof : list bytes) (index height : Z) : res bytes :=
  node ← calculateRoot_loop (Z.to_nat height) 0 index (go_copy zero_hash leafHash) smtProof;
  mret (BytesToHash node).
End MerkleTree.
