(* ===== verification/MerkleSpec.v ===== *)
(** * Specification of the exit trees

    The Merkle tree of a list of leaves, padded with zero leaves on the right:
    [node L h i] is the hash of the [i]-th subtree of height [h], [merkle_root]
    the root, [path_nodes] the inner nodes above a leaf and [path_siblings] the
    proof of a leaf. *)
From S2P Require Import Prelude Types Hashing.

Section Spec.
Context {K : Keccak}.

Fixpoint node (L : list bytes) (h i : nat) : bytes :=
  match h with
  | O => default zero_hash (L !! i)
  | S h => Hash [node L h (2 * i); node L h (2 * i + 1)]
  end.

Definition merkle_root (height : nat) (L : list bytes) : bytes := node L height 0.

(** The inner node of height [h + 1] above leaf [i], with its children. *)
Definition path_node (L : list bytes) (i h : nat) : bytes * bytes * bytes :=
  let p := (i / 2 ^ S h)%nat in
  (node L (S h) p, node L h (2 * p), node L h (2 * p + 1)).
Definition path_nodes (L : list bytes) (height i : nat) : list (bytes * bytes * bytes) :=
  path_node L i <$> seq 0 height.

(** The sibling of leaf [i]'s ancestor of height [h]. *)
Definition path_sibling (L : list bytes) (i h : nat) : bytes :=
  let a := (i / 2 ^ h)%nat in
  node L h (if Nat.odd a then a - 1 else a + 1).
Definition path_siblings (L : list bytes) (height i : nat) : list bytes :=
  path_sibling L i <$> seq 0 height.

(** Folding a proof from a leaf to the root, bit by bit. *)
Fixpoint fold_proof (proof : list bytes) (i : nat) (cur : bytes) : bytes :=
  match proof with
  | [] => cur
  | s :: proof => fold_proof proof (i / 2) (if Nat.odd i then Hash [s; cur] else Hash [cur; s])
  end.

Definition hashes32 (L : list bytes) : Prop := Forall (λ l, length l = 32%nat) L.
#[global] Instance hashes32_dec L : Decision (hashes32 L).
Proof. unfold hashes32. apply _. Defined.

(** ** Facts *)
Lemma length_node L h i : hashes32 L → length (node L h i) = 32%nat.
Proof.
  intros HL. destruct h as [|h]; [|apply length_Hash]. simpl.
  destruct (L !! i) as [x|] eqn:E; [|done]. simpl.
  by eapply (Forall_lookup_1 _ _ _ _ HL).
Qed.

(** A subtree only depends on the leaves below it. *)
Lemma node_ext L L' h i :
  (∀ j, (i * 2 ^ h ≤ j < (i + 1) * 2 ^ h)%nat → L !! j = L' !! j) →
  node L h i = node L' h i.
Proof.
  revert i. induction h as [|h IH]; intros i Hj; cbn [node].
  - rewrite (Hj i); [done|]. simpl. lia.
  - rewrite Nat.pow_succ_r' in Hj.
    rewrite (IH (2 * i)%nat), (IH (2 * i + 1)%nat); [done| |]; intros j ?; apply Hj; lia.
Qed.

Lemma node_empty L h i : (length L ≤ i * 2 ^ h)%nat → node L h i = zero_node h.
Proof.
  revert i. induction h as [|h IH]; intros i Hi; cbn [node zero_node].
  - rewrite (lookup_ge_None_2 L i); [done|]. simpl in Hi. lia.
  - rewrite Nat.pow_succ_r' in Hi. rewrite !IH; [done| |]; lia.
Qed.

Lemma node_app L L' h i : ((i + 1) * 2 ^ h ≤ length L)%nat → node (L ++ L') h i = node L h i.
Proof. intros H. apply node_ext. intros j ?. apply lookup_app_l. lia. Qed.

Lemma node_take L k h i : ((i + 1) * 2 ^ h ≤ k)%nat → node (take k L) h i = node L h i.
Proof. intros H. apply node_ext. intros j ?. apply lookup_take_lt. lia. Qed.

(** Arithmetic of the path: the ancestor of height [h+1] is above that of
    height [h]. *)
Lemma div_pow_succ i h : (i / 2 ^ S h = (i / 2 ^ h) / 2)%nat.
Proof. rewrite Nat.pow_succ_r', Nat.mul_comm. by rewrite Nat.Div0.div_div. Qed.

Lemma odd_div2 a : Nat.odd a = true → (a = 2 * (a / 2) + 1)%nat.
Proof.
  intros H. apply Nat.odd_spec in H as [k ->].
  rewrite (Nat.mul_comm 2 k), Nat.div_add_l, (Nat.div_small 1 2) by lia. lia.
Qed.
Lemma even_div2 a : Nat.odd a = false → (a = 2 * (a / 2))%nat.
Proof.
  intros H. rewrite <- Nat.negb_even in H. apply negb_false_iff, Nat.even_spec in H as [k ->].
  rewrite (Nat.mul_comm 2 k), Nat.div_mul by lia. lia.
Qed.
Lemma div_pow_lower i h : (i / 2 ^ h * 2 ^ h ≤ i)%nat.
Proof. rewrite Nat.mul_comm. apply Nat.Div0.mul_div_le. Qed.
Lemma div_pow_upper i h : (i < (i / 2 ^ h + 1) * 2 ^ h)%nat.
Proof.
  pose proof (Nat.mul_succ_div_gt i (2 ^ h) ltac:(apply Nat.pow_nonzero; lia)). lia.
Qed.

(** A correct proof folds to the root. *)
Lemma fold_proof_path L height i h k :
  (k + h = height)%nat →
  fold_proof (path_sibling L i <$> seq h k) (i / 2 ^ h) (node L h (i / 2 ^ h)) =
    node L height (i / 2 ^ height).
Proof.
  revert h. induction k as [|k IH]; intros h Hk; [simpl in Hk; by subst|].
  cbn [seq fmap list_fmap fold_proof]. rewrite <- (IH (S h)) by lia.
  rewrite div_pow_succ. f_equal. unfold path_sibling. cbn zeta.
  destruct (Nat.odd (i / 2 ^ h)) eqn:E; cbn [node].
  - rewrite (odd_div2 _ E) at 1 2. do 3 f_equal. lia.
  - rewrite (even_div2 _ E) at 1 2. done.
Qed.

Lemma fold_proof_root L height i :
  (i < 2 ^ height)%nat →
  fold_proof (path_siblings L height i) i (default zero_hash (L !! i)) = merkle_root height L.
Proof.
  intros Hi. unfold merkle_root.
  rewrite <- (Nat.div_small i (2 ^ height)) by done.
  rewrite <- (fold_proof_path L height i 0 height) by lia. by rewrite Nat.div_1_r.
Qed.
End Spec.
