(* ===== verification/MerkleTreeFacts.v ===== *)
(** * Correctness of the append-only tree

    The incremental tree of [MerkleTree.v] against the specification of
    [MerkleSpec.v]: appending a leaf, rebuilding the siblings from the store,
    and the dense constructions of the rollup exit tree. *)
From S2P Require Import Prelude Types Hashing MerkleStore MerkleTree MerkleSpec.

Section Bits.
Lemma land_pow2 (a k : Z) : 0 ≤ k → Z.land a (2 ^ k) = if Z.testbit a k then 2 ^ k else 0.
Proof.
  intros Hk. apply Z.bits_inj'. intros j Hj.
  rewrite Z.land_spec, Z.pow2_bits_eqb by done.
  destruct (Z.eqb_spec k j) as [->|].
  - destruct (Z.testbit a j); [by rewrite Z.pow2_bits_true|by rewrite Z.bits_0].
  - rewrite andb_false_r. destruct (Z.testbit a k); [|by rewrite Z.bits_0].
    symmetry. by apply Z.pow2_bits_false.
Qed.

Lemma testbit_odd_div (i h : nat) : Z.testbit (Z.of_nat i) (Z.of_nat h) = Nat.odd (i / 2 ^ h).
Proof.
  rewrite Z.testbit_odd, Z.shiftr_div_pow2 by lia.
  assert (Z.of_nat i / 2 ^ Z.of_nat h = Z.of_nat (i / 2 ^ h)) as ->.
  { rewrite Nat2Z.inj_div, Nat2Z.inj_pow. done. }
  generalize (i / 2 ^ h)%nat. intros a. rewrite <- Nat.negb_even, <- Z.negb_even. f_equal.
  apply eq_bool_prop_intro. rewrite !Is_true_true, Z.even_spec, Nat.even_spec.
  split; intros [k Hk]; [exists (Z.to_nat k)|exists (Z.of_nat k)]; lia.
Qed.

(** The test on a uint32 reads the bit of the leaf index. *)
Lemma bit_set_spec (i h : nat) :
  Z.of_nat i < 2 ^ 32 → bit_set (Z.of_nat i) (Z.of_nat h) = Nat.odd (i / 2 ^ h).
Proof.
  intros Hi. unfold bit_set, wrap32, wrap. rewrite Z.shiftl_1_l.
  destruct (decide (Z.of_nat h < 32)) as [Hh|Hh].
  - rewrite Z.mod_small by (split; [lia|apply Z.pow_lt_mono_r; lia]).
    rewrite land_pow2, testbit_odd_div by lia.
    destruct (Nat.odd (i / 2 ^ h)); [|done].
    apply bool_decide_true. pose proof (Z.pow_pos_nonneg 2 (Z.of_nat h)). lia.
  - assert (2 ^ Z.of_nat h mod 2 ^ 32 = 0) as ->.
    { apply Z.mod_divide; [lia|]. exists (2 ^ (Z.of_nat h - 32)).
      rewrite <- Z.pow_add_r by lia. f_equal. lia. }
    rewrite Z.land_0_r.
    rewrite Nat.div_small; [done|].
    apply Nat2Z.inj_lt. rewrite Nat2Z.inj_pow.
    eapply Z.lt_le_trans; [done|]. apply Z.pow_le_mono_r; lia.
Qed.
End Bits.

(** [carry n k]: adding one to [n] carries up to bit [k]. *)
Definition carry (n k : nat) : Prop :=
  (∀ j, j < k → Nat.odd (n / 2 ^ j) = true)%nat ∧ Nat.odd (n / 2 ^ k) = false.

Section Carry.
Lemma low_ones n k : (∀ j, j < k → Nat.odd (n / 2 ^ j) = true)%nat →
  (n = n / 2 ^ k * 2 ^ k + (2 ^ k - 1))%nat.
Proof.
  induction k as [|k IH]; intros H; [rewrite Nat.pow_0_r, Nat.div_1_r; lia|].
  assert (Hk : Nat.odd (n / 2 ^ k) = true) by (apply H; lia).
  assert (Hn := IH (λ j Hj, H j ltac:(lia))). apply odd_div2 in Hk.
  rewrite <- div_pow_succ in Hk. rewrite Nat.pow_succ_r'.
  pose proof (Nat.pow_nonzero 2 k ltac:(lia)). rewrite Nat.pow_succ_r' in Hk. nia.
Qed.

(** The bits of [n + 1] below, at and above the carry. *)
Lemma carry_succ_div n k j : carry n k →
  ((n + 1) / 2 ^ j =
     if bool_decide (j < k) then (n / 2 ^ k + 1) * 2 ^ (k - j)
     else if bool_decide (j = k) then n / 2 ^ k + 1 else n / 2 ^ j)%nat.
Proof.
  intros [Hlow Hk]. assert (Hn := low_ones _ _ Hlow).
  pose proof (Nat.pow_nonzero 2 k ltac:(lia)).
  assert (Hs : (n + 1 = (n / 2 ^ k + 1) * 2 ^ k)%nat) by lia.
  case_bool_decide as Hj.
  { rewrite Hs. replace k with (k - j + j)%nat at 2 by lia.
    rewrite Nat.pow_add_r, Nat.mul_assoc, Nat.div_mul; [done|]. by apply Nat.pow_nonzero. }
  case_bool_decide as Hj'.
  { subst. by rewrite Hs, Nat.div_mul at 1. }
  replace j with (k + (1 + (j - k - 1)))%nat by lia.
  rewrite Nat.pow_add_r, <- !Nat.Div0.div_div. rewrite Hs at 1. rewrite Nat.div_mul by done.
  rewrite Nat.pow_add_r, <- !Nat.Div0.div_div. f_equal.
  apply even_div2 in Hk. rewrite Nat.pow_1_r. set (a := (n / 2 ^ k)%nat) in *.
  rewrite Hk at 1. rewrite (Nat.mul_comm 2), Nat.div_add_l, (Nat.div_small 1 2) by lia. lia.
Qed.

Lemma even_pow_mul a m : (0 < m)%nat → Nat.odd (a * 2 ^ m) = false.
Proof.
  intros Hm. rewrite Nat.odd_mul. destruct m as [|m]; [lia|].
  rewrite Nat.pow_succ_r', Nat.odd_mul. by rewrite andb_false_r.
Qed.
End Carry.

Section Append.
Context {K : Keccak}.

(** The siblings a tree of leaves [L] keeps: at every level where the next
    index has a one, the complete subtree on its left. *)
Definition siblings_ok (height : nat) (L S : list bytes) : Prop :=
  length S = height ∧ hashes32 S ∧
  ∀ h, (h < height)%nat → Nat.odd (length L / 2 ^ h) = true →
    S !! h = Some (node L h (length L / 2 ^ h - 1)).

(** The siblings while [addLeaf] climbs: unchanged up to the carry, then
    updated once. *)
Definition climbing (n : nat) (L' S : list bytes) (h : nat) (filled : bool) (S' : list bytes) : Prop :=
  if filled then S' = S ∧ ∀ j, (j < h)%nat → Nat.odd (n / 2 ^ j) = true
  else ∃ k, (k < h)%nat ∧ carry n k ∧ S' = <[k := node L' k (n / 2 ^ k)]> S.

Lemma climbing_lookup n L' S h filled S' :
  climbing n L' S h filled S' → S' !! h = S !! h ∧ length S' = length S.
Proof.
  destruct filled; [by intros [-> _]|]. intros (k & Hk & _ & ->).
  rewrite list_lookup_insert_ne, length_insert by lia. done.
Qed.

Section Loop.
Context (height : nat) (L S : list bytes) (x : bytes).
Context (Hheight : (height ≤ 64)%nat) (HL : hashes32 L) (Hx : length x = 32%nat).
Context (HS : siblings_ok height L S) (Hn : Z.of_nat (length L) < 2 ^ 32).
Let n := length L.
Let L' := L ++ [x].

Lemma hashes32_snoc : hashes32 L'.
Proof. unfold L', hashes32. apply Forall_app. split; [done|]. by constructor. Qed.

Lemma node_right_empty h : Nat.odd (n / 2 ^ h) = false → node L' h (n / 2 ^ h + 1) = zero_node h.
Proof.
  intros Ho. apply node_empty. unfold L'. rewrite length_app. simpl.
  pose proof (div_pow_upper n h). unfold n in *. lia.
Qed.

Lemma sibling_left h : (h < height)%nat → Nat.odd (n / 2 ^ h) = true →
  S !! h = Some (node L' h (n / 2 ^ h - 1)).
Proof.
  intros Hh Ho. destruct HS as (_ & _ & H). rewrite H by done. f_equal. symmetry.
  apply node_app. fold n. pose proof (odd_div2 _ Ho). pose proof (div_pow_lower n h). nia.
Qed.

Lemma climbing_step h (S' : list bytes) filled :
  (h < height)%nat → Nat.odd (n / 2 ^ h) = true →
  climbing n L' S h filled S' → climbing n L' S (Datatypes.S h) filled S'.
Proof.
  intros Hh Ho. destruct filled.
  - intros [-> Hj]. split; [done|]. intros j ?.
    destruct (decide (j = h)) as [->|]; [done|]. apply Hj. lia.
  - intros (k & ? & ? & ->). exists k. split_and!; [lia|done|done].
Qed.

(** At the carry the sibling of the level is replaced by the running node. *)
Lemma climbing_step_even h (S' : list bytes) filled :
  (h < height)%nat → Nat.odd (n / 2 ^ h) = false → climbing n L' S h filled S' →
  ∃ S2, climbing n L' S (Datatypes.S h) false S2 ∧
    if filled then ∃ s, S !! h = Some s ∧ S2 = <[h := go_copy s (node L' h (n / 2 ^ h))]> S'
    else S2 = S'.
Proof.
  intros Hh Ho. destruct filled.
  - intros [-> Hj]. destruct HS as (HlenS & H32 & _).
    destruct (lookup_lt_is_Some_2 S h ltac:(lia)) as [s Hs].
    assert (length s = 32%nat) by (by eapply (Forall_lookup_1 _ _ _ _ H32)).
    exists (<[h := node L' h (n / 2 ^ h)]> S). split.
    + exists h. split_and!; [lia|by split|done].
    + exists s. split; [done|]. rewrite go_copy_full; [done|].
      rewrite length_node; [done|apply hashes32_snoc].
  - intros (k & ? & ? & ->). eexists. split; [|done]. exists k. split_and!; [lia|done|done].
Qed.

Lemma path_node_odd h : Nat.odd (n / 2 ^ h) = true →
  path_node L' n h =
    (node L' (Datatypes.S h) (n / 2 ^ Datatypes.S h), node L' h (n / 2 ^ h - 1), node L' h (n / 2 ^ h))
  ∧ node L' (Datatypes.S h) (n / 2 ^ Datatypes.S h)
    = Hash [node L' h (n / 2 ^ h - 1); node L' h (n / 2 ^ h)].
Proof.
  intros Ho. unfold path_node. cbn [node]. rewrite !div_pow_succ.
  set (a := (n / 2 ^ h)%nat) in *. pose proof (odd_div2 _ Ho) as Ha.
  replace (2 * (a / 2))%nat with (a - 1)%nat by lia.
  by replace (a - 1 + 1)%nat with a by lia.
Qed.
Lemma path_node_even h : Nat.odd (n / 2 ^ h) = false →
  path_node L' n h =
    (node L' (Datatypes.S h) (n / 2 ^ Datatypes.S h), node L' h (n / 2 ^ h), zero_node h)
  ∧ node L' (Datatypes.S h) (n / 2 ^ Datatypes.S h) = Hash [node L' h (n / 2 ^ h); zero_node h].
Proof.
  intros Ho. rewrite <- node_right_empty by done. unfold path_node. cbn [node].
  rewrite !div_pow_succ. by rewrite <- (even_div2 _ Ho).
Qed.

Lemma addLeaf_loop_spec todo h filled S' leaves :
  (h + todo = height)%nat → climbing n L' S h filled S' →
  ∃ S'' filled',
    addLeaf_loop todo (Z.of_nat h) (Z.of_nat n) (node L' h (n / 2 ^ h)) filled S' leaves =
      Ok (node L' height (n / 2 ^ height), S'', leaves ++ (path_node L' n <$> seq h todo)) ∧
    climbing n L' S height filled' S''.
Proof.
  revert h filled S' leaves. induction todo as [|todo IH]; intros h filled S' leaves Hh Hc.
  { rewrite Nat.add_0_r in Hh. subst h. exists S', filled. by rewrite app_nil_r. }
  destruct (climbing_lookup _ _ _ _ _ _ Hc) as [Hlk Hlen].
  assert (Hlen32 := length_node L' h (n / 2 ^ h) hashes32_snoc).
  cbn [addLeaf_loop seq fmap list_fmap]. rewrite bit_set_spec by done.
  replace (Z.of_nat h + 1) with (Z.of_nat (Datatypes.S h)) by lia.
  rewrite zeroHashes_at, !at_index_nat, !Nat2Z.id, Hlk by lia.
  rewrite (go_copy_full zero_hash) by done.
  destruct (Nat.odd (n / 2 ^ h)) eqn:Ho.
  - rewrite sibling_left by (lia || done).
    destruct (IH (Datatypes.S h) filled S' (leaves ++ [path_node L' n h]))
      as (S'' & f' & E & Hc'); [lia|apply climbing_step; (lia || done)|].
    exists S'', f'. split; [|done]. rewrite <- app_assoc in E. cbn [app] in E. rewrite <- E.
    destruct (path_node_odd h Ho) as [-> ->]. done.
  - destruct (climbing_step_even h S' filled) as (S2 & Hc2 & HS2); [lia|done|done|].
    destruct (IH (Datatypes.S h) false S2 (leaves ++ [path_node L' n h]))
      as (S'' & f' & E & Hc'); [lia|done|].
    exists S'', f'. split; [|done]. rewrite <- app_assoc in E. cbn [app] in E. rewrite <- E.
    destruct (path_node_even h Ho) as [-> ->]. destruct filled.
    + destruct HS2 as (s & -> & ->). done.
    + by subst.
Qed.

(** After the climb the siblings serve the longer tree, and still the
    shorter one: only a level whose bit is zero has changed. *)
Lemma climbing_length filled S' : climbing n L' S height filled S' →
  length S' = height ∧ hashes32 S'.
Proof.
  destruct HS as (Hlen & H32 & _). destruct filled; [by intros [-> _]|].
  intros (k & Hk & _ & ->). rewrite length_insert. split; [done|].
  apply Forall_insert; [done|]. apply length_node, hashes32_snoc.
Qed.

Lemma climbing_old filled S' : climbing n L' S height filled S' → siblings_ok height L S'.
Proof.
  intros Hc. destruct (climbing_length _ _ Hc) as [Hlen H32]. split_and!; [done|done|].
  intros h Hh Ho. destruct HS as (_ & _ & H). destruct filled.
  - destruct Hc as [-> _]. by apply H.
  - destruct Hc as (k & Hk & [_ Hcar] & ->).
    rewrite list_lookup_insert_ne by (intros ->; unfold n in *; congruence). by apply H.
Qed.

Lemma climbing_new filled S' : (n < 2 ^ height)%nat →
  climbing n L' S height filled S' → siblings_ok height L' S'.
Proof.
  intros Hfit Hc. destruct (climbing_length _ _ Hc) as [Hlen H32]. split_and!; [done|done|].
  intros h Hh. assert (HL' : length L' = (n + 1)%nat) by (unfold L'; by rewrite length_app).
  rewrite HL'. destruct filled.
  { destruct Hc as [-> Hones]. pose proof (low_ones _ _ Hones) as Hn'.
    rewrite (Nat.div_small n) in Hn' by done.
    assert ((n + 1)%nat = (1 * 2 ^ (height - h)) * 2 ^ h)%nat as ->.
    { rewrite Nat.mul_1_l, <- Nat.pow_add_r.
      pose proof (Nat.pow_nonzero 2 height ltac:(lia)).
      replace (height - h + h)%nat with height by lia. lia. }
    rewrite Nat.div_mul by (by apply Nat.pow_nonzero). by rewrite even_pow_mul by lia. }
  destruct Hc as (k & Hk & Hcar & ->). rewrite (carry_succ_div _ _ h Hcar).
  case_bool_decide as Hhk; [by rewrite even_pow_mul by lia|].
  destruct HS as (HlenS & _ & _). case_bool_decide as Hhk'.
  - subst h. intros _. rewrite list_lookup_insert_eq by lia. do 2 f_equal. lia.
  - intros Ho. rewrite list_lookup_insert_ne by lia. by apply sibling_left.
Qed.
End Loop.

Lemma addLeaf_loop_full height L S x :
  (height ≤ 64)%nat → hashes32 L → length x = 32%nat → siblings_ok height L S →
  (length L < 2 ^ height)%nat → Z.of_nat (length L) < 2 ^ 32 →
  ∃ S', addLeaf_loop height 0 (Z.of_nat (length L)) x true S [] =
          Ok (merkle_root height (L ++ [x]), S', path_nodes (L ++ [x]) height (length L)) ∧
        siblings_ok height L S' ∧ siblings_ok height (L ++ [x]) S'.
Proof.
  intros Hh HL Hx HS Hfit Hn.
  destruct (addLeaf_loop_spec height L S x Hh HL Hx HS Hn height 0 true S [])
    as (S' & f & E & Hc); [lia|split; [done|lia]|].
  exists S'. split_and!; [|by eapply climbing_old|by eapply climbing_new].
  assert (node (L ++ [x]) 0 (length L / 2 ^ 0) = x) as Hx0.
  { rewrite Nat.pow_0_r, Nat.div_1_r. simpl. by rewrite lookup_app_r, Nat.sub_diag by lia. }
  rewrite Hx0, (Nat.div_small _ (2 ^ height)) in E by done. exact E.
Qed.
End Append.

Section Append_store.
Context {K : Keccak} {DB : Type} {STO : merkleTreeStore DB} {STOok : merkleTreeStoreOk DB}.

(** [mt] is the tree of the leaves [L]. *)
Definition represents (mt : MerkleTree) (L : list bytes) : Prop :=
  mt_count mt = Z.of_nat (length L) ∧ 0 ≤ mt_height mt ≤ 64 ∧ hashes32 L ∧
  siblings_ok (Z.to_nat (mt_height mt)) L (mt_siblings mt).

(** The rows of mt.rht written for the last leaf of [L]. *)
Definition path_rows (height : nat) (L : list bytes) (depositID : Z) : list node_row :=
  node3_row depositID <$> path_nodes L height (length L - 1).

Definition fits (mt : MerkleTree) (L : list bytes) : Prop :=
  (length L < 2 ^ Z.to_nat (mt_height mt))%nat ∧ Z.of_nat (length L) + 1 < 2 ^ 32.

Lemma represents_keep mt L S : represents mt L →
  siblings_ok (Z.to_nat (mt_height mt)) L S → represents (set_siblings S mt) L.
Proof. intros (H1 & H2 & H3 & _) HS. exact (conj H1 (conj H2 (conj H3 HS))). Qed.

(** The state [addLeaf] is in when it calls the store. *)
Lemma addLeaf_unfold mt L x depositID tx db :
  represents mt L → fits mt L → length x = 32%nat →
  ∃ S', siblings_ok (Z.to_nat (mt_height mt)) L S' ∧
    siblings_ok (Z.to_nat (mt_height mt)) (L ++ [x]) S' ∧
    let h := Z.to_nat (mt_height mt) in
    addLeaf depositID x (mt_count mt) tx (mt, db) =
      (on_store (st_SetRoot (merkle_root h (L ++ [x])) depositID (mt_networkID mt) tx);;
       on_store (st_BulkSet (path_rows h (L ++ [x]) depositID) tx);;
       update_mt (set_count (Z.of_nat (length (L ++ [x]))))) (set_siblings S' mt, db).
Proof.
  intros (Hc & Hh & HL & HS) [Hfit Hn] Hx.
  destruct (addLeaf_loop_full (Z.to_nat (mt_height mt)) L (mt_siblings mt) x)
    as (S' & E & Hold & Hnew); try (done || lia).
  exists S'. split_and!; [done|done|]. cbn zeta. unfold addLeaf.
  unfold mbind at 1, M_bind at 1, gets at 1. cbn [fst].
  rewrite Hc, bool_decide_false by tauto. rewrite E.
  unfold path_rows. rewrite !length_app. cbn [length].
  replace (length L + 1 - 1)%nat with (length L) by lia.
  unfold wrap32. rewrite wrap_id by (unfold in_width; lia).
  replace (Z.of_nat (length L) + 1) with (Z.of_nat (length L + 1)) by lia. done.
Qed.

(** What the store holds for the tree of a network: a root for every prefix
    of the leaves, recorded under the deposit that completes the prefix, and
    the nodes above that deposit's leaf. *)
Record tree_stored (tx : Tx) (db : DB) (net : Z) (height : nat) (L : list bytes) : Prop := {
  ts_roots r d c : (r, d, net) ∈ roots tx db → (d, c) ∈ deposit_counts tx db →
    ∃ k, c = Z.of_nat k ∧ (k < length L)%nat ∧ r = merkle_root height (take (S k) L);
  ts_has_root k : (k < length L)%nat →
    ∃ d, (merkle_root height (take (S k) L), d, net) ∈ roots tx db ∧
         (d, Z.of_nat k) ∈ deposit_counts tx db ∧
         ∀ h, (h < height)%nat → node3_row d (path_node (take (S k) L) k h) ∈ nodes tx db;
}.

Lemma ts_nodes tx db net height L k h :
  tree_stored tx db net height L → (k < length L)%nat → (h < height)%nat →
  ∃ d, node3_row d (path_node (take (S k) L) k h) ∈ nodes tx db.
Proof. intros TS Hk Hh. destruct (ts_has_root _ _ _ _ _ TS k Hk) as (d & _ & _ & H). eauto. Qed.

(** The tree in memory and the tree in the store are that of [L]. *)
Definition tree_inv (tx : Tx) (mt : MerkleTree) (db : DB) (L : list bytes) : Prop :=
  represents mt L ∧ tree_stored tx db (mt_networkID mt) (Z.to_nat (mt_height mt)) L.

(** The deposit is registered with the next count, and has no root yet. *)
Definition next_deposit (tx : Tx) (db : DB) (depositID : Z) (n : nat) : Prop :=
  (depositID, Z.of_nat n) ∈ deposit_counts tx db ∧
  (∀ c, (depositID, c) ∈ deposit_counts tx db → c = Z.of_nat n) ∧
  (∀ r net, (r, depositID, net) ∉ roots tx db).

Lemma take_succ_snoc (L : list bytes) x k :
  (k < length L)%nat → take (S k) (L ++ [x]) = take (S k) L.
Proof. intros. apply take_app_le. lia. Qed.

Lemma tree_stored_snoc tx db db' net height L x depositID :
  tree_stored tx db net height L → next_deposit tx db depositID (length L) →
  nodes tx db' = nodes tx db ++ path_rows height (L ++ [x]) depositID →
  roots tx db' = roots tx db ++ [(merkle_root height (L ++ [x]), depositID, net)] →
  deposit_counts tx db' = deposit_counts tx db →
  tree_stored tx db' net height (L ++ [x]).
Proof.
  intros TS (Hd & Hd1 & Hd2) Hn Hr Hc.
  assert (Hfull : take (S (length L)) (L ++ [x]) = L ++ [x])
    by (apply take_ge; rewrite length_app; simpl; lia).
  split.
  - intros r d c. rewrite Hr, Hc, elem_of_app, list_elem_of_singleton, length_app. cbn [length].
    intros [Hin|[= -> ->]] Hdc.
    + destruct (ts_roots _ _ _ _ _ TS _ _ _ Hin Hdc) as (k & -> & Hk & ->).
      exists k. rewrite take_succ_snoc by done. split_and!; [done|lia|done].
    + apply Hd1 in Hdc as ->. exists (length L). rewrite Hfull. split_and!; [done|lia|done].
  - intros k. rewrite length_app. cbn [length]. intros Hk. rewrite Hr, Hc, Hn.
    destruct (decide (k = length L)) as [->|].
    + exists depositID. rewrite Hfull. split_and!; [apply elem_of_app; right; by constructor|done|].
      intros h Hh. apply elem_of_app. right. unfold path_rows, path_nodes.
      rewrite length_app. cbn [length]. replace (length L + 1 - 1)%nat with (length L) by lia.
      apply list_elem_of_fmap. eexists. split; [done|].
      apply list_elem_of_fmap. exists h. split; [done|]. apply elem_of_seq. lia.
    + destruct (ts_has_root _ _ _ _ _ TS k) as (d & Hin & Hdc & Hnodes); [lia|].
      exists d. rewrite take_succ_snoc by lia.
      split_and!; [apply elem_of_app; by left|done|]. intros h Hh. apply elem_of_app. left. auto.
Qed.

(** The two store calls of [addLeaf], when they succeed. *)
Lemma store_calls_ok mt db r d net rows tx u s' :
  (on_store (st_SetRoot r d net tx);; on_store (st_BulkSet rows tx)) (mt, db) = (Ok u, s') →
  s'.1 = mt ∧ nodes tx s'.2 = nodes tx db ++ rows ∧
  roots tx s'.2 = roots tx db ++ [(r, d, net)] ∧
  deposit_counts tx s'.2 = deposit_counts tx db ∧ (live tx db → live tx s'.2).
Proof.
  unfold on_store, zoom, mbind, M_bind. cbn [snd fst].
  destruct (st_SetRoot r d net tx db) as [[[]| |] db1] eqn:E1; cbn [fst snd]; try discriminate.
  destruct (st_BulkSet rows tx db1) as [[[]| |] db2] eqn:E2; cbn [fst snd]; try discriminate.
  intros [= <- <-]. cbn [fst snd].
  apply SetRoot_ok in E1 as (? & ? & ? & ?). apply BulkSet_ok in E2 as (? & ? & ? & ?).
  split_and!; try congruence. auto.
Qed.

Lemma store_calls_live mt db r d c net rows tx :
  live tx db → (∀ r' n', (r', d, n') ∉ roots tx db) → (d, c) ∈ deposit_counts tx db →
  NoDup ((λ r : node_row, (r.1.1, r.2)) <$> (nodes tx db ++ rows)) →
  (∀ k v d', (k, v, d') ∈ rows → d' = d) →
  ∃ s', (on_store (st_SetRoot r d net tx);; on_store (st_BulkSet rows tx)) (mt, db) = (Ok tt, s').
Proof.
  intros Hl Hf Hd Hnd Hrows. unfold on_store, zoom, mbind, M_bind. cbn [snd fst].
  destruct (SetRoot_live r d c net tx db Hl Hf Hd) as (db1 & E1).
  rewrite E1. apply SetRoot_ok in E1 as (Hn1 & Hr1 & Hc1 & Hl1).
  destruct (BulkSet_live rows tx db1) as (db2 & E2); [auto|by rewrite Hn1| |].
  { intros k v d' Hin. rewrite Hc1, (Hrows _ _ _ Hin). eauto. }
  cbn [fst snd]. rewrite E2. eauto.
Qed.

Lemma M_bind_assoc_unit (m1 m2 m3 : M (MerkleTree * DB) unit) s :
  (m1;; m2;; m3) s = ((m1;; m2);; m3) s.
Proof. unfold mbind, M_bind. by destruct (m1 s) as [[] ?]. Qed.

(** Appending a leaf to a live store succeeds: the tree in memory
    and the store then hold the longer list, the new root is the Merkle root
    of all the leaves, and exactly the nodes of the new path are written. *)
Lemma addLeaf_ok mt L x depositID tx db
  (Hinv : tree_inv tx mt db L) (Hfits : fits mt L) (Hx : length x = 32%nat)
  (Hlive : live tx db) (Hdep : next_deposit tx db depositID (length L))
  (Hnew : NoDup ((λ r : node_row, (r.1.1, r.2)) <$>
            (nodes tx db ++ path_rows (Z.to_nat (mt_height mt)) (L ++ [x]) depositID))) :
  ∃ mt' db', addLeaf depositID x (mt_count mt) tx (mt, db) = (Ok tt, (mt', db')) ∧
    tree_inv tx mt' db' (L ++ [x]) ∧ live tx db' ∧
    roots tx db' = roots tx db ++
      [(merkle_root (Z.to_nat (mt_height mt)) (L ++ [x]), depositID, mt_networkID mt)] ∧
    nodes tx db' = nodes tx db ++ path_rows (Z.to_nat (mt_height mt)) (L ++ [x]) depositID ∧
    mt_networkID mt' = mt_networkID mt ∧ mt_height mt' = mt_height mt.
Proof.
  destruct Hinv as [Hrep Hst].
  destruct (addLeaf_unfold mt L x depositID tx db Hrep Hfits Hx) as (S' & Hold & Hsib & E).
  cbn zeta in E. rewrite M_bind_assoc_unit in E. destruct Hdep as (Hd & Hd1 & Hd2).
  destruct (store_calls_live (set_siblings S' mt) db
    (merkle_root (Z.to_nat (mt_height mt)) (L ++ [x])) depositID (Z.of_nat (length L))
    (mt_networkID mt) _ tx Hlive Hd2 Hd Hnew) as ([mt1 db1] & E1).
  { intros k v d' Hin. apply list_elem_of_fmap in Hin as (n3 & [= _ _ ->] & _). done. }
  unfold mbind at 1, M_bind at 1 in E. rewrite E1 in E.
  apply store_calls_ok in E1 as (Hmt & Hn & Hr & Hc & Hl). cbn [fst snd] in *. subst mt1.
  eexists _, db1. split; [exact E|]. destruct Hrep as (_ & Hh & HL & _).
  split; [|split_and!; auto]. split.
  - split; [done|]. split; [done|]. split; [by apply hashes32_snoc|]. done.
  - eapply tree_stored_snoc; [done|done|done|done|done].
Qed.

(** ** Properties *)

(** Whatever the store answers, a call of [addLeaf] that returns an
    error leaves a tree that still is the tree of the old leaves, with the
    same count: it can be called again. *)
Theorem addLeaf_error_keeps_tree mt L x index depositID tx db e mt' db'
  (Hrep : represents mt L) (Hfits : fits mt L) (Hx : length x = 32%nat)
  (Herr : addLeaf depositID x index tx (mt, db) = (Err e, (mt', db'))) :
  represents mt' L ∧ mt_count mt' = mt_count mt.
Proof.
  destruct (decide (index = mt_count mt)) as [->|Hi].
  - destruct (addLeaf_unfold mt L x depositID tx db Hrep Hfits Hx) as (S' & Hold & Hsib & E).
    cbn zeta in E. rewrite E in Herr. clear E. revert Herr.
    unfold on_store, update_mt, modify, zoom, mbind, M_bind. cbn [fst snd].
    destruct (st_SetRoot _ _ _ _ _) as [[[]| |] db1]; cbn [fst snd]; try done.
    + destruct (st_BulkSet _ _ _) as [[[]| |] db2]; cbn [fst snd]; try done.
      intros [= _ <- _]. split; [|done]. by apply represents_keep.
    + intros [= _ <- _]. split; [|done]. by apply represents_keep.
  - revert Herr. unfold addLeaf, mbind at 1, M_bind at 1, gets. cbn [fst].
    rewrite bool_decide_true by done. intros [= _ <- _]. done.
Qed.
End Append_store.
