(* ===== verification/MerkleDense.v ===== *)
(** * The rollup exit tree and the claim proofs

    [buildMTRoot], [ComputeSiblings] and [calculateRoot] of
    [bridgectrl/merkletree.go] build a whole tree level by level.  They are
    shown equal to the recursive specification of [MerkleSpec.v] on every
    input, errors and panics included. *)
From S2P Require Import Prelude Types Hashing MerkleStore MerkleTree MerkleSpec.

Section Dense.
Context {K : Keccak}.

(** The first [m] subtrees of height [h]. *)
Definition level (L : list bytes) (h m : nat) : list bytes := node L h <$> seq 0 m.
(** [m] rounded up to an even number, and its half. *)
Definition half_up (m : nat) : nat := ((m + 1) / 2)%nat.

Lemma half_up_spec m : (m ≤ 2 * half_up m ≤ m + 1)%nat.
Proof.
  unfold half_up. pose proof (Nat.mod_upper_bound (m + 1) 2 ltac:(lia)).
  pose proof (Nat.div_mod_eq (m + 1) 2). lia.
Qed.
Lemma half_up_odd m : Nat.odd m = true → (m + 1 = 2 * half_up m)%nat.
Proof. intros H%odd_div2. pose proof (half_up_spec m). lia. Qed.
Lemma half_up_even m : Nat.odd m = false → (m = 2 * half_up m)%nat.
Proof. intros H%even_div2. pose proof (half_up_spec m). lia. Qed.
Lemma half_up_pos m : (0 < m)%nat → (0 < half_up m)%nat.
Proof. pose proof (half_up_spec m). lia. Qed.

Lemma level_lookup L h m i : (i < m)%nat → level L h m !! i = Some (node L h i).
Proof. intros. unfold level. rewrite list_lookup_fmap, lookup_seq_lt by done. done. Qed.
Lemma length_level L h m : length (level L h m) = m.
Proof. unfold level. by rewrite length_fmap, length_seq. Qed.
Lemma level_0 L : level L 0 (length L) = L.
Proof.
  apply list_eq. intros i. destruct (decide (i < length L)%nat).
  - rewrite level_lookup by done. cbn [node].
    destruct (lookup_lt_is_Some_2 L i) as [x ->]; done.
  - rewrite !lookup_ge_None_2; [done|lia|rewrite length_level; lia].
Qed.

(** The nodes of level [h + 1] with their children. *)
Definition level_nodes (L : list bytes) (h m : nat) : list node3 :=
  (λ p, (node L (S h) p, node L h (2 * p), node L h (2 * p + 1))) <$> seq 0 m.

Lemma pad_odd_level L h m : (h ≤ 64)%nat → (length L ≤ m * 2 ^ h)%nat →
  pad_odd (Z.of_nat h) (level L h m) = Ok (level L h (2 * half_up m)).
Proof.
  intros Hh Hm. unfold pad_odd. rewrite length_level. destruct (Nat.odd m) eqn:Ho.
  - rewrite zeroHashes_at, Nat2Z.id by lia. rewrite <- half_up_odd by done.
    rewrite Nat.add_1_r. unfold level. rewrite seq_S, fmap_app. cbn.
    by rewrite node_empty.
  - by rewrite <- half_up_even.
Qed.

Lemma buildIntermediate_from L h a m :
  buildIntermediate (node L h <$> seq (2 * a) (2 * m)) =
    Ok ((λ p, (node L (S h) p, node L h (2 * p), node L h (2 * p + 1))) <$> seq a m,
        node L (S h) <$> seq a m).
Proof.
  revert a. induction m as [|m IH]; intros a; [done|].
  replace (2 * S m)%nat with (S (S (2 * m))) by lia.
  cbn [seq fmap list_fmap buildIntermediate].
  replace (S (S (2 * a))) with (2 * S a)%nat by lia. rewrite IH.
  cbn [mbind res_bind mret res_ret node]. by replace (S (2 * a)) with (2 * a + 1)%nat by lia.
Qed.
Lemma buildIntermediate_level L h m :
  buildIntermediate (level L h (2 * m)) = Ok (level_nodes L h m, level L (S h) m).
Proof. exact (buildIntermediate_from L h 0 m). Qed.

Lemma cover_step (L : list bytes) h m : (length L ≤ m * 2 ^ h → length L ≤ half_up m * 2 ^ S h)%nat.
Proof. rewrite Nat.pow_succ_r'. pose proof (half_up_spec m). nia. Qed.

(** The number of nodes left after [k] levels. *)
Fixpoint width (k m : nat) : nat :=
  match k with O => m | S k => width k (half_up m) end.

Lemma width_S k m : width (S k) m = half_up (width k m).
Proof. revert m. induction k as [|k IH]; intros m; [done|]. exact (IH (half_up m)). Qed.
Lemma width_le k m n : (m ≤ n * 2 ^ k)%nat ↔ (width k m ≤ n)%nat.
Proof.
  revert m n. induction k as [|k IH]; intros m n; [cbn; lia|].
  cbn [width]. rewrite <- IH, Nat.pow_succ_r'. pose proof (half_up_spec m).
  split; nia.
Qed.
Lemma width_pos k m : (0 < m)%nat → (0 < width k m)%nat.
Proof.
  revert m. induction k as [|k IH]; intros m Hm; [done|]. cbn [width]. by apply IH, half_up_pos.
Qed.
Lemma width_one k m : (0 < m)%nat → (width k m = 1 ↔ m ≤ 2 ^ k)%nat.
Proof. intros Hm. pose proof (width_le k m 1). pose proof (width_pos k m Hm). lia. Qed.

(** The level the loops of the source leave in [ns]. *)
Definition last_nodes (L : list bytes) (k h m : nat) (ns : list node3) : list node3 :=
  match k with O => ns | S k => level_nodes L (h + k) (width (S k) m) end.

Lemma last_nodes_S L k h m (ns' : list node3) :
  last_nodes L k (S h) (half_up m) (level_nodes L h (half_up m)) = last_nodes L (S k) h m ns'.
Proof.
  destruct k as [|k]; cbn [last_nodes width]; [by rewrite Nat.add_0_r|].
  by replace (S h + k)%nat with (h + S k)%nat by lia.
Qed.

Lemma build_loop_level L k h m nodes ns :
  (h + k ≤ 65)%nat → (length L ≤ m * 2 ^ h)%nat →
  build_loop k (Z.of_nat h) (level L h m) nodes ns =
    Ok (nodes ++ ((λ j, level_nodes L (h + j) (width (S j) m)) <$> seq 0 k),
        last_nodes L k h m ns).
Proof.
  revert h m nodes ns. induction k as [|k IH]; intros h m nodes ns Hk Hm.
  { by rewrite app_nil_r. }
  cbn [build_loop]. rewrite pad_odd_level by (lia || done).
  cbn [mbind res_bind]. rewrite buildIntermediate_level. cbn [mbind res_bind].
  replace (Z.of_nat h + 1) with (Z.of_nat (S h)) by lia.
  rewrite IH by (lia || by apply cover_step). f_equal. f_equal.
  - rewrite <- app_assoc. cbn [seq fmap list_fmap app]. do 2 f_equal.
    + by rewrite Nat.add_0_r.
    + rewrite <- fmap_S_seq, <- list_fmap_compose. apply list_fmap_ext. intros j ? _.
      unfold compose. by rewrite <- Nat.add_succ_comm.
  - apply last_nodes_S.
Qed.

Lemma first_leaves_level (leaves : list bytes) :
  first_leaves leaves = Ok (level leaves 0 (Nat.max 1 (length leaves))).
Proof.
  destruct leaves as [|l leaves]; cbn [first_leaves].
  - rewrite zeroHashes_at by lia. done.
  - rewrite Nat.max_r by (cbn; lia). by rewrite level_0.
Qed.

(** The last level of a tree of height [S k] is one node exactly when the
    leaves fit. *)
Lemma match_last_nodes {A} L k m ns (f : node3 → A) (e : A) :
  (0 < m)%nat →
  match last_nodes L (S k) 0 m ns with [n] => f n | _ => e end =
  if bool_decide (m ≤ 2 ^ S k)%nat
  then f (node L (S k) 0, node L k 0, node L k 1) else e.
Proof.
  intros Hm. pose proof (width_one (S k) m Hm) as Hw. pose proof (width_pos (S k) m Hm).
  cbn [last_nodes]. case_bool_decide as Hf.
  - rewrite (proj2 Hw Hf). done.
  - unfold level_nodes. destruct (width (S k) m) as [|[|w]]; [lia|lia|done].
Qed.

Lemma mod2_odd i : bool_decide (Z.of_nat i mod 2 = 1) = Nat.odd i.
Proof.
  destruct (Nat.odd i) eqn:Ho.
  - apply odd_div2 in Ho. set (a := (i / 2)%nat) in *. apply bool_decide_true.
    Z.to_euclidean_division_equations. lia.
  - apply even_div2 in Ho. set (a := (i / 2)%nat) in *. apply bool_decide_false.
    Z.to_euclidean_division_equations. lia.
Qed.

(** The sibling read at one level, for an index inside the padded level. *)
Lemma sibling_at_level L h m i :
  (h ≤ 64)%nat → (i < 2 * half_up m)%nat → Z.of_nat i + 1 < 2 ^ 32 →
  sibling_at (Z.of_nat i) (level L h (2 * half_up m)) =
    Ok [node L h (if Nat.odd i then i - 1 else i + 1)].
Proof.
  intros Hh Hi H32. unfold sibling_at. rewrite length_level, mod2_odd.
  destruct (Nat.odd i) eqn:Ho.
  - apply odd_div2 in Ho. set (a := (i / 2)%nat) in *.
    replace (Z.of_nat i - 1) with (Z.of_nat (i - 1)) by lia.
    rewrite at_index_nat, level_lookup by lia. done.
  - apply even_div2 in Ho. set (a := (i / 2)%nat) in *.
    rewrite bool_decide_true by lia.
    unfold wrap32. rewrite wrap_id by (unfold in_width; lia).
    replace (Z.of_nat i + 1) with (Z.of_nat (i + 1)) by lia.
    rewrite at_index_nat, level_lookup by lia. done.
Qed.

Lemma sibling_at_panics L h m i :
  (2 * half_up m ≤ i)%nat → (0 < m)%nat → Z.of_nat i + 1 < 2 ^ 32 →
  sibling_at (Z.of_nat i) (level L h (2 * half_up m)) = Panic "index out of range".
Proof.
  intros Hi Hm H32. pose proof (half_up_pos m Hm). unfold sibling_at.
  rewrite length_level, mod2_odd. destruct (Nat.odd i) eqn:Ho.
  - apply odd_div2 in Ho. set (a := (i / 2)%nat) in *.
    replace (Z.of_nat i - 1) with (Z.of_nat (i - 1)) by lia.
    rewrite at_index_nat, lookup_ge_None_2 by (rewrite length_level; lia). done.
  - apply even_div2 in Ho. set (a := (i / 2)%nat) in *.
    rewrite bool_decide_true by lia.
    unfold wrap32. rewrite wrap_id by (unfold in_width; lia).
    replace (Z.of_nat i + 1) with (Z.of_nat (i + 1)) by lia.
    rewrite at_index_nat, lookup_ge_None_2 by (rewrite length_level; lia). done.
Qed.

Lemma half_lt i m : (i < 2 * m → i / 2 < m)%nat.
Proof. intros. apply Nat.Div0.div_lt_upper_bound. lia. Qed.

Lemma ComputeSiblings_loop_level L k h m i siblings ns :
  (h + k ≤ 65)%nat → (length L ≤ m * 2 ^ h)%nat → Z.of_nat i + 1 < 2 ^ 32 →
  (i / 2 ^ h < 2 * half_up m)%nat →
  ComputeSiblings_loop k (Z.of_nat h) (Z.of_nat (i / 2 ^ h)) (level L h m) siblings ns =
    Ok (siblings ++ (path_sibling L i <$> seq h k), last_nodes L k h m ns).
Proof.
  revert h m siblings ns. induction k as [|k IH]; intros h m siblings ns Hk Hm Hi Hin.
  { by rewrite app_nil_r. }
  cbn [ComputeSiblings_loop]. rewrite pad_odd_level by (lia || done).
  cbn [mbind res_bind]. rewrite sibling_at_level; [|lia|done|].
  2: { pose proof (div_pow_lower i h). pose proof (Nat.pow_nonzero 2 h ltac:(lia)). nia. }
  cbn [mbind res_bind]. rewrite buildIntermediate_level. cbn [mbind res_bind].
  replace (Z.of_nat h + 1) with (Z.of_nat (S h)) by lia.
  replace (Z.of_nat (i / 2 ^ h) / 2) with (Z.of_nat (i / 2 ^ S h))
    by (rewrite div_pow_succ; by rewrite Nat2Z.inj_div).
  rewrite IH; [|lia|by apply cover_step|done|].
  - rewrite <- app_assoc. by rewrite (last_nodes_S L k h m ns).
  - rewrite div_pow_succ. pose proof (half_lt _ _ Hin). pose proof (half_up_spec (half_up m)). lia.
Qed.

(** The loop of [calculateRoot] folds the proof. *)
Lemma testbit_odd i h : bool_decide (Z.land (Z.shiftr (Z.of_nat i) (Z.of_nat h)) 1 = 1) = Nat.odd (i / 2 ^ h).
Proof.
  rewrite Z.shiftr_div_pow2 by lia.
  replace (Z.of_nat i / 2 ^ Z.of_nat h) with (Z.of_nat (i / 2 ^ h))
    by (rewrite Nat2Z.inj_div, Nat2Z.inj_pow; done).
  generalize (i / 2 ^ h)%nat. intros a.
  pose proof (Z.land_ones (Z.of_nat a) 1 ltac:(lia)) as E. change (Z.ones 1) with 1 in E.
  rewrite E. change (2 ^ 1) with 2. apply mod2_odd.
Qed.

Lemma calculateRoot_loop_spec proof i h k cur :
  (h + k ≤ length proof)%nat →
  calculateRoot_loop k (Z.of_nat h) (Z.of_nat i) cur proof =
    Ok (fold_proof (take k (drop h proof)) (i / 2 ^ h) cur).
Proof.
  revert h cur. induction k as [|k IH]; intros h cur Hk; [done|].
  destruct (lookup_lt_is_Some_2 proof h ltac:(lia)) as [s Hs].
  rewrite (drop_S proof s h Hs). cbn [take calculateRoot_loop fold_proof].
  rewrite at_index_nat, Hs. cbn [mbind res_bind]. rewrite testbit_odd.
  replace (Z.of_nat h + 1) with (Z.of_nat (S h)) by lia.
  rewrite IH by lia. by rewrite div_pow_succ.
Qed.

Lemma calculateRoot_loop_short proof i h k cur :
  (length proof < h + k)%nat → (h ≤ length proof)%nat →
  calculateRoot_loop k (Z.of_nat h) i cur proof = Panic "index out of range".
Proof.
  revert h cur. induction k as [|k IH]; intros h cur Hk Hh; [lia|].
  cbn [calculateRoot_loop]. rewrite at_index_nat.
  destruct (decide (h = length proof)) as [->|].
  - by rewrite lookup_ge_None_2 by lia.
  - destruct (lookup_lt_is_Some_2 proof h ltac:(lia)) as [s ->]. cbn [mbind res_bind].
    replace (Z.of_nat h + 1) with (Z.of_nat (S h)) by lia. apply IH; lia.
Qed.

Lemma fold_proof_length proof i cur : length cur = 32%nat → length (fold_proof proof i cur) = 32%nat.
Proof.
  revert i cur. induction proof as [|s proof IH]; intros i cur Hc; [done|].
  cbn [fold_proof]. apply IH. destruct (Nat.odd i); apply length_Hash.
Qed.

(** The dense construction returns the Merkle root of the leaves
    exactly when they fit below the height, and an error otherwise. *)
Lemma buildMTRoot_eq (height : Z) (leaves : list bytes) (Hh : 1 ≤ height ≤ 64) :
  buildMTRoot height leaves =
    if bool_decide (length leaves ≤ 2 ^ Z.to_nat height)%nat
    then Ok (merkle_root (Z.to_nat height) leaves) else Err ErrMoreThanOneRoot.
Proof.
  unfold buildMTRoot. rewrite first_leaves_level. cbn [mbind res_bind].
  change 0 with (Z.of_nat 0).
  rewrite build_loop_level by (cbn; lia). cbn [mbind res_bind].
  destruct (Z.to_nat height) as [|k] eqn:E; [lia|].
  rewrite match_last_nodes by lia. pose proof (Nat.pow_nonzero 2 (S k) ltac:(lia)).
  cbn [fst]. rewrite (bool_decide_ext _ (length leaves ≤ 2 ^ S k)%nat) by lia.
  case_bool_decide; [|done].
  by rewrite BytesToHash_32 by apply length_Hash.
Qed.

(** On every index and every list of leaves that fits, the proof is the path
    to the root; an index beyond the leaves (padded to an even number) makes
    the program panic. *)
Lemma ComputeSiblings_eq (rollupIndex height : Z) (leaves : list bytes)
    (Hi : 0 ≤ rollupIndex < 2 ^ 32 - 1) (Hh : 1 ≤ height ≤ 64)
    (Hfit : (length leaves ≤ 2 ^ Z.to_nat height)%nat) :
  ComputeSiblings rollupIndex leaves height =
    if bool_decide (rollupIndex < 2 * Z.of_nat (half_up (Nat.max 1 (length leaves))))
    then Ok (path_siblings leaves (Z.to_nat height) (Z.to_nat rollupIndex),
             merkle_root (Z.to_nat height) leaves)
    else Panic "index out of range".
Proof.
  unfold ComputeSiblings. rewrite first_leaves_level. cbn [mbind res_bind].
  pose proof (Z2Nat.id rollupIndex ltac:(lia)) as Ei. revert Ei.
  generalize (Z.to_nat rollupIndex) as i. intros i <-.
  change 0 with (Z.of_nat 0). set (m := Nat.max 1 (length leaves)).
  assert (Hm : (0 < m)%nat) by lia. pose proof (half_up_spec m).
  destruct (Z.to_nat height) as [|k] eqn:E; [lia|]. case_bool_decide as Hlt.
  - replace (Z.of_nat i) with (Z.of_nat (i / 2 ^ 0)) at 1 by (by rewrite Nat.div_1_r).
    rewrite ComputeSiblings_loop_level; [|lia|cbn; lia|lia|rewrite Nat.div_1_r; lia].
    cbn [mbind res_bind]. rewrite match_last_nodes by done.
    pose proof (Nat.pow_nonzero 2 (S k) ltac:(lia)).
    rewrite bool_decide_true by lia. cbn [fst].
    by rewrite BytesToHash_32 by apply length_Hash.
  - cbn [ComputeSiblings_loop]. rewrite pad_odd_level; [|lia|cbn; lia]. cbn [mbind res_bind].
    by rewrite sibling_at_panics by lia.
Qed.

(** An answer, of a list of leaves of any length, is the path. *)
Lemma ComputeSiblings_path (rollupIndex height : Z) (leaves siblings : list bytes) r :
  0 ≤ rollupIndex < 2 ^ 32 - 1 → 1 ≤ height ≤ 64 →
  ComputeSiblings rollupIndex leaves height = Ok (siblings, r) →
  siblings = path_siblings leaves (Z.to_nat height) (Z.to_nat rollupIndex).
Proof.
  intros Hi Hh. unfold ComputeSiblings. rewrite first_leaves_level. cbn [mbind res_bind].
  pose proof (Z2Nat.id rollupIndex ltac:(lia)) as Ei. revert Ei.
  generalize (Z.to_nat rollupIndex) as i. intros i <-. change 0 with (Z.of_nat 0).
  set (m := Nat.max 1 (length leaves)). assert (Hm : (0 < m)%nat) by lia.
  pose proof (half_up_spec m). destruct (Z.to_nat height) as [|k] eqn:E; [lia|].
  destruct (decide (i < 2 * half_up m)%nat) as [Hlt|Hlt].
  - replace (Z.of_nat i) with (Z.of_nat (i / 2 ^ 0)) at 1 by (by rewrite Nat.div_1_r).
    rewrite ComputeSiblings_loop_level; [|lia|cbn; lia|lia|rewrite Nat.div_1_r; lia].
    cbn [mbind res_bind]. destruct (last_nodes _ _ _ _ _) as [|? [|]]; [done| |done]. by intros [= <- _].
  - cbn [ComputeSiblings_loop]. rewrite pad_odd_level; [|lia|cbn; lia]. cbn [mbind res_bind].
    by rewrite sibling_at_panics by lia.
Qed.

(** [calculateRoot] folds a proof at least as long as the height, and panics
    on a shorter one. *)
Lemma calculateRoot_eq (leaf : bytes) (smtProof : list bytes) (i : nat) (height : Z)
    (Hleaf : length leaf = 32%nat) (Hh : 0 ≤ height < 256) :
  calculateRoot leaf smtProof (Z.of_nat i) height =
    if bool_decide (Z.to_nat height ≤ length smtProof)%nat
    then Ok (fold_proof (take (Z.to_nat height) smtProof) i leaf)
    else Panic "index out of range".
Proof.
  unfold calculateRoot. rewrite go_copy_full by done. change 0 with (Z.of_nat 0).
  case_bool_decide.
  - rewrite calculateRoot_loop_spec by lia. cbn [mbind res_bind mret res_ret].
    rewrite drop_0, Nat.div_1_r, BytesToHash_32; [done|by apply fold_proof_length].
  - by rewrite calculateRoot_loop_short by lia.
Qed.

(** *** The leaves of the rollup exit tree *)

(** The rollup of the [i]-th leaf is [i + 1]. *)
Definition well_numbered (stored : list RollupExitLeaf) : Prop :=
  ∀ i l, stored !! i = Some l → rel_RollupId l = Z.of_nat i + 1.

(** The leaf of rollup [j + 1] after the new leaf is put in its place. *)
Definition leaf_after (stored : list RollupExitLeaf) (new : RollupExitLeaf) (j : nat) : bytes :=
  if bool_decide (Z.of_nat j + 1 = rel_RollupId new) then rel_Leaf new
  else default zero_hash (rel_Leaf <$> stored !! j).
Definition leaves_after (stored : list RollupExitLeaf) (new : RollupExitLeaf) : list bytes :=
  leaf_after stored new <$> seq 0 (Nat.max (length stored) (Z.to_nat (rel_RollupId new))).

Lemma length_extend_leaves stored new :
  length (extend_leaves stored new) = Nat.max (length stored) (Z.to_nat (rel_RollupId new)).
Proof. unfold extend_leaves. rewrite length_app, length_fmap, length_seq. lia. Qed.

Lemma extend_leaves_lookup stored new j : (j < length (extend_leaves stored new))%nat →
  ∃ l, extend_leaves stored new !! j = Some l ∧
    rel_Leaf l = default zero_hash (rel_Leaf <$> stored !! j) ∧
    (well_numbered stored → Z.of_nat j + 1 < 2 ^ 32 → rel_RollupId l = Z.of_nat j + 1).
Proof.
  rewrite length_extend_leaves. intros Hj. unfold extend_leaves.
  destruct (decide (j < length stored)%nat) as [Hlt|].
  - rewrite lookup_app_l by done. destruct (lookup_lt_is_Some_2 stored j Hlt) as [l Hl].
    exists l. rewrite Hl. split_and!; [done|done|]. intros Hw _. by apply Hw.
  - rewrite lookup_app_r, list_lookup_fmap, lookup_seq_lt by lia.
    rewrite (lookup_ge_None_2 stored j) by lia. eexists. split; [done|]. split; [done|].
    intros _ H32. cbn. unfold wrap32. rewrite wrap_id by (unfold in_width; lia). lia.
Qed.

Lemma place_leaf_ok stored new :
  well_numbered stored → 0 < rel_RollupId new < 2 ^ 32 →
  ∃ stored', place_leaf stored new = Ok stored' ∧ rel_Leaf <$> stored' = leaves_after stored new.
Proof.
  intros Hw Hid. pose proof (length_extend_leaves stored new) as Hlen.
  set (p := Z.to_nat (rel_RollupId new - 1)).
  assert (Hp : (p < length (extend_leaves stored new))%nat) by lia.
  destruct (extend_leaves_lookup stored new p Hp) as (l & Hl & _ & Hlid).
  unfold place_leaf, wrap32. rewrite wrap_id by (unfold in_width; lia).
  replace (rel_RollupId new - 1) with (Z.of_nat p) by lia.
  rewrite at_index_nat, Hl, Nat2Z.id. cbn [mbind res_bind].
  rewrite Hlid, bool_decide_true by (done || lia).
  eexists. split; [done|]. apply list_eq. intros j. unfold leaves_after. rewrite <- Hlen.
  rewrite !list_lookup_fmap. destruct (decide (j < length (extend_leaves stored new))%nat) as [Hj|].
  - rewrite lookup_seq_lt by done. cbn [fmap option_fmap option_map]. unfold leaf_after. cbn [Nat.add].
    destruct (decide (j = p)) as [->|].
    + rewrite list_lookup_insert_eq by done. by rewrite bool_decide_true by lia.
    + rewrite list_lookup_insert_ne, bool_decide_false by lia.
      by destruct (extend_leaves_lookup stored new j Hj) as (l' & -> & <- & _).
  - rewrite !lookup_ge_None_2; [done|rewrite length_seq; lia|rewrite length_insert; lia].
Qed.

Lemma merkle_root_32 (height : Z) leaves : 1 ≤ height → length (merkle_root (Z.to_nat height) leaves) = 32%nat.
Proof.
  intros H. unfold merkle_root. destruct (Z.to_nat height) eqn:E; [lia|]. apply length_Hash.
Qed.

(** ** Properties *)

(** C21. The proof computed for a leaf verifies: it has one sibling for
    each level, the root returned with it is the Merkle root of the leaves
    (the one [buildMTRoot] computes), and folding the proof from the leaf
    gives that root. *)
Theorem ComputeSiblings_verifies (i height : Z) (leaves : list bytes) (leaf : bytes)
    (Hi : 0 ≤ i < 2 ^ 32 - 1) (Hh : 1 ≤ height ≤ 64)
    (Hfit : (length leaves ≤ 2 ^ Z.to_nat height)%nat) (H32 : hashes32 leaves)
    (Hleaf : leaves !! Z.to_nat i = Some leaf) :
  ∃ siblings root, ComputeSiblings i leaves height = Ok (siblings, root) ∧
    length siblings = Z.to_nat height ∧ buildMTRoot height leaves = Ok root ∧
    root = merkle_root (Z.to_nat height) leaves ∧
    calculateRoot leaf siblings i height = Ok root.
Proof.
  pose proof (lookup_lt_Some _ _ _ Hleaf) as Hlt.
  pose proof (half_up_spec (Nat.max 1 (length leaves))).
  rewrite ComputeSiblings_eq, bool_decide_true by (done || lia).
  eexists _, _. split_and!; [done| | |done|].
  - unfold path_siblings. by rewrite length_fmap, length_seq.
  - by rewrite buildMTRoot_eq, bool_decide_true by done.
  - rewrite <- (Z2Nat.id i) at 2 by lia.
    rewrite calculateRoot_eq; [|by eapply (Forall_lookup_1 _ _ _ _ H32)|lia].
    assert (length (path_siblings leaves (Z.to_nat height) (Z.to_nat i)) = Z.to_nat height) as El
      by (unfold path_siblings; by rewrite length_fmap, length_seq).
    rewrite El, bool_decide_true, take_ge by lia. f_equal.
    rewrite <- (fold_proof_root leaves (Z.to_nat height) (Z.to_nat i)) by lia.
    by rewrite Hleaf.
Qed.

(** An index beyond the leaves is never an error: past the padding it makes
    [ComputeSiblings] panic, whatever the height. *)
Theorem ComputeSiblings_panics (i height : Z) (leaves : list bytes)
    (Hi : Z.of_nat (length leaves) < i < 2 ^ 32 - 1) (Hi1 : 1 < i) (Hh : 1 ≤ height ≤ 64)
    (Hfit : (length leaves ≤ 2 ^ Z.to_nat height)%nat) :
  ComputeSiblings i leaves height = Panic "index out of range".
Proof.
  pose proof (half_up_spec (Nat.max 1 (length leaves))).
  rewrite ComputeSiblings_eq, bool_decide_false by (done || lia). done.
Qed.

(** C20. [addRollupExitLeaf] puts the leaf at the position of its rollup,
    fills the rollups that have no leaf yet with zero leaves, and stores the
    leaves under the Merkle root of the new list, unless that root is already
    stored. *)
Theorem addRollupExitLeaf_stores {DB} {STO : merkleTreeStore DB} mt stored new tx db db1
    (Hget : st_GetLatestRollupExitLeaves tx db = (Ok stored, db1))
    (Hw : well_numbered stored) (Hid : 0 < rel_RollupId new < 2 ^ 32)
    (Hh : 1 ≤ mt_height mt ≤ 64) (H32 : hashes32 (leaves_after stored new))
    (Hfit : (length (leaves_after stored new) ≤ 2 ^ Z.to_nat (mt_height mt))%nat) :
  addRollupExitLeaf new tx (mt, db) =
    let leaves := leaves_after stored new in
    let root := merkle_root (Z.to_nat (mt_height mt)) leaves in
    match st_IsRollupExitRoot root tx db1 with
    | (Ok true, db2) => (Ok tt, (mt, db2))
    | (Ok false, db2) =>
        let '(r, db3) := st_AddRollupExitLeaves
          (imap (λ i l, (l, Z.of_nat i + 1, root, rel_BlockID new)) leaves) tx db2 in
        (r, (mt, db3))
    | (Err e, db2) => (Err e, (mt, db2))
    | (Panic p, db2) => (Panic p, (mt, db2))
    end.
Proof.
  destruct (place_leaf_ok stored new Hw Hid) as (stored' & Ep & El).
  unfold addRollupExitLeaf, on_store, zoom. unfold mbind at 1, M_bind at 1. cbn [fst snd].
  rewrite Hget. unfold mbind at 1, M_bind at 1, lift_res at 1. rewrite Ep.
  replace ((λ l : RollupExitLeaf, go_copy zero_hash (rel_Leaf l)) <$> stored')
    with (leaves_after stored new).
  2: { symmetry. etrans; [apply (list_fmap_compose rel_Leaf (go_copy zero_hash))|].
       rewrite El. rewrite <- (list_fmap_id (leaves_after stored new)) at 2.
       apply Forall_fmap_ext_1. eapply Forall_impl; [exact H32|].
       intros l Hl. by apply go_copy_full. }
  unfold storeLeaves, mbind at 1, M_bind at 1, gets at 1. cbn [fst].
  unfold mbind at 1, M_bind at 1, lift_res at 1.
  rewrite buildMTRoot_eq, bool_decide_true by done.
  unfold mbind, M_bind, on_store, zoom. cbn [fst snd]. cbn zeta.
  destruct (st_IsRollupExitRoot _ tx db1) as [[[]| |] db2]; cbn [fst snd negb]; try done.
Qed.

(** A leaf of rollup 0 makes [addRollupExitLeaf] panic. *)
Theorem addRollupExitLeaf_rollup0 {DB} {STO : merkleTreeStore DB} mt stored new tx db db1
    (Hget : st_GetLatestRollupExitLeaves tx db = (Ok stored, db1))
    (Hlen : Z.of_nat (length stored) < 2 ^ 32 - 1) (Hid : rel_RollupId new = 0) :
  addRollupExitLeaf new tx (mt, db) = (Panic "index out of range", (mt, db1)).
Proof.
  unfold addRollupExitLeaf, on_store, zoom. unfold mbind at 1, M_bind at 1. cbn [fst snd].
  rewrite Hget. unfold mbind at 1, M_bind at 1, lift_res at 1, place_leaf.
  rewrite Hid. change (wrap32 (0 - 1)) with (2 ^ 32 - 1). unfold at_index.
  rewrite bool_decide_true by lia. rewrite lookup_ge_None_2; [done|].
  rewrite length_extend_leaves, Hid. lia.
Qed.
End Dense.
