(* ===== verification/MerkleReset.v ===== *)
(** * Rebuilding the tree from the store

    [resetLeaf] and [initSiblings] of [bridgectrl/merkletree.go] read the
    frontier of the tree back from the stored nodes, after a reorganisation or
    at start-up. *)
From S2P Require Import Prelude Types Hashing MerkleStore MerkleTree MerkleSpec MerkleTreeFacts.

(** [invert] reverses its slice. *)
Section Invert.
Implicit Types s pre mid post : list bytes.

Lemma invert_loop_rev fuel pre mid post :
  (length mid ≤ 2 * fuel + 1)%nat →
  invert_loop fuel (length pre) (length pre + length mid - 1) (pre ++ mid ++ post) =
    pre ++ rev mid ++ post.
Proof.
  revert pre mid post. induction fuel as [|fuel IH]; intros pre mid post Hf.
  - cbn. destruct mid as [|a [|b mid]]; [done|done|cbn in Hf; lia].
  - destruct mid as [|a mid]; [cbn [invert_loop]; rewrite bool_decide_false by (cbn; lia); done|].
    destruct mid as [|b mid _] using rev_ind.
    { cbn [invert_loop]. rewrite bool_decide_false by (cbn; lia). done. }
    cbn [invert_loop]. rewrite bool_decide_true by (cbn; rewrite length_app; cbn; lia).
    replace (length pre + length (a :: mid ++ [b]) - 1)%nat
      with (length (pre ++ a :: mid)) by (rewrite !length_app; cbn; rewrite length_app; cbn; lia).
    replace (pre ++ (a :: mid ++ [b]) ++ post) with (pre ++ a :: mid ++ b :: post)
      by (by simplify_list_eq).
    rewrite (list_lookup_middle pre) by done.
    assert (Hen : pre ++ a :: mid ++ b :: post = (pre ++ a :: mid) ++ b :: post)
      by (by simplify_list_eq).
    rewrite Hen at 1. rewrite list_lookup_middle by done.
    rewrite Hen, insert_app_r_alt, Nat.sub_diag by done. cbn [insert list_insert].
    replace ((pre ++ a :: mid) ++ a :: post) with (pre ++ a :: mid ++ a :: post)
      by (by simplify_list_eq).
    rewrite insert_app_r_alt, Nat.sub_diag by done. cbn [insert list_insert].
    replace (pre ++ b :: mid ++ a :: post) with ((pre ++ [b]) ++ mid ++ (a :: post))
      by (by simplify_list_eq).
    replace (S (length pre)) with (length (pre ++ [b])) by (rewrite length_app; cbn; lia).
    replace (length (pre ++ a :: mid) - 1)%nat with (length (pre ++ [b]) + length mid - 1)%nat
      by (rewrite !length_app; cbn; lia).
    rewrite IH. 2: { cbn in Hf. rewrite length_app in Hf. cbn in Hf. lia. }
    cbn [rev]. rewrite rev_app_distr. cbn. rewrite <- !app_assoc. done.
Qed.

Lemma invert_rev s : invert s = rev s.
Proof.
  unfold invert. pose proof (invert_loop_rev (length s) [] s []) as H.
  rewrite !app_nil_r in H. apply H. lia.
Qed.
End Invert.

Section Reset.
Context {K : Keccak} {DB : Type} {STO : merkleTreeStore DB} {STOok : merkleTreeStoreOk DB}.

(** The key of a stored node determines its children. *)
Definition no_collision (rows : list node_row) : Prop :=
  ∀ k v v' d d', (k, v, d) ∈ rows → (k, v', d') ∈ rows → v = v'.

(** The frontier [initSiblings] reads: the left child at each level of the
    path of the last leaf. *)
Definition frontier (L : list bytes) (h i : nat) : bytes := node L h (2 * (i / 2 ^ S h)).

Lemma list_fmap_rev {A B} (f : A → B) l : f <$> rev l = rev (f <$> l).
Proof. induction l as [|x l IH]; [done|]. cbn. by rewrite fmap_app, IH. Qed.
Lemma at_index_0 (a : bytes) l : at_index (a :: l) 0 = Ok a.
Proof. done. Qed.
Lemma at_index_1 (a b : bytes) l : at_index (a :: b :: l) 1 = Ok b.
Proof. done. Qed.

Lemma levels_spec height : 1 ≤ height ≤ 64 → levels height = Z.of_nat <$> rev (seq 0 (Z.to_nat height)).
Proof.
  intros Hh. unfold levels, wrap8. rewrite wrap_id by (unfold in_width; lia).
  by replace (height - 1 + 1) with height by lia.
Qed.

Lemma rev_seq_S n : rev (seq 0 (S n)) = n :: rev (seq 0 n).
Proof. by rewrite seq_S, rev_app_distr. Qed.

Lemma frontier_last_zero h : siblings_ok h [] (zero_node <$> seq 0 h).
Proof.
  split_and!.
  - by rewrite length_fmap, length_seq.
  - apply Forall_fmap, Forall_forall. intros i _. apply length_zero_node.
  - intros j _. cbn [length]. rewrite Nat.Div0.div_0_l. done.
Qed.

Lemma initSiblings_zero_spec h k acc left :
  (h + k ≤ 65)%nat → length left = 32%nat →
  initSiblings_zero (Z.of_nat <$> seq h k) left acc = Ok (acc ++ (zero_node <$> seq h k)).
Proof.
  revert h acc left. induction k as [|k IH]; intros h acc left Hk Hl; [by rewrite app_nil_r|].
  cbn [seq fmap list_fmap initSiblings_zero]. rewrite zeroHashes_at, Nat2Z.id by lia.
  cbn [mbind res_bind]. rewrite go_copy_full by (by rewrite length_zero_node).
  rewrite IH by (lia || apply length_zero_node). by rewrite <- app_assoc.
Qed.

(** The ancestor of the last leaf one level down. *)
Lemma child_of_path L i h :
  (if Nat.odd (i / 2 ^ h) then node L h (2 * (i / 2 ^ S h) + 1) else node L h (2 * (i / 2 ^ S h)))
  = node L h (i / 2 ^ h).
Proof.
  rewrite div_pow_succ. destruct (Nat.odd (i / 2 ^ h)) eqn:Ho.
  - by rewrite <- odd_div2.
  - by rewrite <- even_div2.
Qed.

Lemma initSiblings_loop_spec tx L i (h : nat) left acc db :
  hashes32 L → Z.of_nat i < 2 ^ 32 → length left = 32%nat → live tx db →
  no_collision (nodes tx db) →
  (∀ j, (j < h)%nat → ∃ d, node3_row d (path_node L i j) ∈ nodes tx db) →
  ∃ db', initSiblings_loop (Z.of_nat <$> rev (seq 0 h)) (Z.of_nat i) (node L h (i / 2 ^ h))
           left acc tx db = (Ok (acc ++ ((λ j, frontier L j i) <$> rev (seq 0 h))), db') ∧
    live tx db' ∧ nodes tx db' = nodes tx db ∧ roots tx db' = roots tx db ∧
    deposit_counts tx db' = deposit_counts tx db.
Proof.
  intros HL Hi. revert left acc db. induction h as [|h IH]; intros left acc db Hleft Hlive Hnc Hrows.
  { exists db. cbn. rewrite app_nil_r. done. }
  rewrite rev_seq_S. cbn [fmap list_fmap initSiblings_loop].
  destruct (Hrows h ltac:(lia)) as [d Hd].
  destruct (Get_live _ tx db _ _ Hlive Hd) as (v & db1 & Eg).
  unfold mbind at 1, M_bind at 1, map_err. cbn [node3_row path_node fst] in Eg. rewrite Eg.
  destruct (Get_ok _ _ _ _ _ Eg) as ([d' Hv] & Hn & Hr & Hc & Hl).
  assert (v = [node L h (2 * (i / 2 ^ S h)); node L h (2 * (i / 2 ^ S h) + 1)]) as ->
    by (eapply Hnc; [exact Hv|exact Hd]).
  rewrite bit_set_spec, !at_index_0, at_index_1 by done.
  unfold mbind at 1, M_bind at 1, lift_res at 1. rewrite go_copy_full by (by rewrite length_node).
  pose proof (child_of_path L i h) as Hcur.
  destruct (IH (frontier L h i) (acc ++ [frontier L h i]) db1) as (db2 & E2 & H2).
  { by apply length_node. } { auto. } { by rewrite Hn. }
  { intros j Hj. rewrite Hn. apply Hrows. lia. }
  exists db2. destruct H2 as (? & ? & ? & ?). split_and!; [|done|congruence|congruence|congruence].
  rewrite <- app_assoc in E2. cbn [app] in E2. rewrite <- E2.
  destruct (Nat.odd (i / 2 ^ h)); unfold mbind, M_bind, lift_res; by rewrite <- Hcur.
Qed.

Lemma frontier_ok L height :
  (0 < length L)%nat → hashes32 L →
  siblings_ok height L ((λ j, frontier L j (length L - 1)) <$> seq 0 height).
Proof.
  intros HL H32. split_and!.
  - by rewrite length_fmap, length_seq.
  - apply Forall_fmap, Forall_forall. intros i _. by apply length_node.
  - intros h Hh Ho. rewrite list_lookup_fmap, lookup_seq_lt by done.
    cbn [fmap option_fmap option_map Nat.add]. unfold frontier. do 2 f_equal. apply odd_div2 in Ho.
    pose proof (div_pow_lower (length L) h). pose proof (div_pow_upper (length L) h).
    set (q := (length L / 2 ^ h / 2)%nat) in *.
    assert ((length L - 1) / 2 ^ S h = q)%nat as ->; [|lia].
    pose proof (Nat.pow_nonzero 2 h ltac:(lia)).
    symmetry. apply (Nat.div_unique _ _ _ (length L - 1 - 2 ^ S h * q)); rewrite Nat.pow_succ_r'; nia.
Qed.

Lemma initSiblings_zero_count tx mt db :
  mt_count mt = 0 → 0 ≤ mt_height mt ≤ 64 →
  initSiblings tx (mt, db) = (Ok (zero_node <$> seq 0 (Z.to_nat (mt_height mt))), (mt, db)).
Proof.
  intros Hc Hh. unfold initSiblings, mbind at 1, M_bind at 1, gets at 1. cbn [fst].
  rewrite Hc, bool_decide_true by done. unfold lift_res. f_equal.
  rewrite (initSiblings_zero_spec 0) by (done || lia). done.
Qed.

(** A prefix of the stored leaves can be read back. *)
Lemma initSiblings_prefix tx mt db L (c : nat) :
  mt_count mt = Z.of_nat c → (c ≤ length L)%nat → Z.of_nat (length L) < 2 ^ 32 →
  1 ≤ mt_height mt ≤ 64 → hashes32 L → (length L ≤ 2 ^ Z.to_nat (mt_height mt))%nat →
  tree_stored tx db (mt_networkID mt) (Z.to_nat (mt_height mt)) L →
  no_collision (nodes tx db) → live tx db →
  ∃ S db', initSiblings tx (mt, db) = (Ok S, (mt, db')) ∧
    siblings_ok (Z.to_nat (mt_height mt)) (take c L) S ∧
    live tx db' ∧ nodes tx db' = nodes tx db ∧ roots tx db' = roots tx db ∧
    deposit_counts tx db' = deposit_counts tx db.
Proof.
  intros Hc Hle H32 Hh HL Hfit TS Hnc Hlive. destruct c as [|i].
  { exists (zero_node <$> seq 0 (Z.to_nat (mt_height mt))), db.
    rewrite initSiblings_zero_count by (done || lia).
    split_and!; try done; apply frontier_last_zero. }
  set (H := Z.to_nat (mt_height mt)) in *. assert (HLc : hashes32 (take (S i) L)) by by apply Forall_take.
  unfold initSiblings, mbind at 1, M_bind at 1, gets at 1. cbn [fst].
  rewrite bool_decide_false by lia.
  unfold mbind at 1, M_bind at 1, getRoot, mbind at 1, M_bind at 1, gets at 1. cbn [fst].
  rewrite bool_decide_false by lia. rewrite Hc.
  replace (wrap32 (Z.of_nat (S i) - 1)) with (Z.of_nat i)
    by (unfold wrap32; rewrite wrap_id by (unfold in_width; lia); lia).
  destruct (ts_has_root _ _ _ _ _ TS i) as (d & Hd & Hdc & _); [lia|].
  destruct (GetRoot_live _ _ tx db _ _ Hlive Hd Hdc) as (r & db1 & Eg).
  unfold on_store at 1, zoom at 1. cbn [snd fst]. rewrite Eg.
  apply GetRoot_ok in Eg as ((d' & Hr' & Hdc') & Hn & Hr & Hcn & Hl).
  destruct (ts_roots _ _ _ _ _ TS _ _ _ Hr' Hdc') as (k & Hk & _ & ->).
  apply Nat2Z.inj in Hk as <-.
  unfold mbind at 1, M_bind at 1, on_store at 1, zoom at 1. cbn [snd fst].
  rewrite levels_spec by done. fold H.
  destruct (initSiblings_loop_spec tx (take (S i) L) i H zero_hash [] db1) as (db2 & E2 & Hl2 & Hn2 & Hr2 & Hc2).
  { done. } { lia. } { done. } { auto. } { by rewrite Hn. }
  { intros j Hj. rewrite Hn. apply (ts_nodes _ _ _ _ _ _ _ TS); lia. }
  rewrite (Nat.div_small i) in E2 by lia. unfold merkle_root. rewrite E2.
  eexists _, db2. split; [done|]. split; [|split_and!; congruence].
  rewrite invert_rev. cbn [app]. rewrite list_fmap_rev, rev_involutive.
  assert (length (take (S i) L) = S i) as El by (rewrite length_take; lia).
  pose proof (frontier_ok (take (S i) L) H) as Hf. rewrite El in Hf.
  replace (S i - 1)%nat with i in Hf by lia. apply Hf; [lia|done].
Qed.

(** [initSiblings] has a value receiver's effect: it does not touch the tree. *)
Lemma on_store_keeps {A} (m : M DB A) mt db r s' : on_store m (mt, db) = (r, s') → s'.1 = mt.
Proof. unfold on_store, zoom. cbn [snd fst]. destruct (m db). by intros [= _ <-]. Qed.
Lemma initSiblings_keeps tx mt db r s' : initSiblings tx (mt, db) = (r, s') → s'.1 = mt.
Proof.
  unfold initSiblings, mbind at 1, M_bind at 1, gets at 1. cbn [fst].
  case_bool_decide; [by intros [= _ <-]|].
  unfold mbind at 1, M_bind at 1. unfold getRoot, mbind at 1, M_bind at 1, gets at 1. cbn [fst].
  rewrite bool_decide_false by done.
  destruct (on_store _ (mt, db)) as [[root|e|p] [mt1 db1]] eqn:E1;
    apply on_store_keeps in E1; cbn [fst] in E1; subst mt1; try by intros [= _ <-].
  unfold mbind at 1, M_bind at 1.
  destruct (on_store _ (mt, db1)) as [[S|e|p] [mt2 db2]] eqn:E2;
    apply on_store_keeps in E2; cbn [fst] in E2; subst mt2; by intros [= _ <-].
Qed.

(** Resetting the tree to the first [c] of the stored leaves succeeds
    on a live store and leaves in memory exactly the tree of those leaves; the
    store is unchanged. *)
Lemma resetLeaf_ok tx mt db L (c : nat)
  (Hle : (c ≤ length L)%nat) (H32 : Z.of_nat (length L) < 2 ^ 32)
  (Hh : 1 ≤ mt_height mt ≤ 64) (HL : hashes32 L)
  (Hfit : (length L ≤ 2 ^ Z.to_nat (mt_height mt))%nat)
  (TS : tree_stored tx db (mt_networkID mt) (Z.to_nat (mt_height mt)) L)
  (Hnc : no_collision (nodes tx db)) (Hlive : live tx db) :
  ∃ mt' db', resetLeaf (Z.of_nat c) tx (mt, db) = (Ok tt, (mt', db')) ∧
    represents mt' (take c L) ∧
    mt_networkID mt' = mt_networkID mt ∧ mt_height mt' = mt_height mt ∧
    live tx db' ∧ nodes tx db' = nodes tx db ∧ roots tx db' = roots tx db ∧
    deposit_counts tx db' = deposit_counts tx db.
Proof.
  destruct (initSiblings_prefix tx (set_count (Z.of_nat c) mt) db L c) as (S & db' & E & HS & Hst);
    try done.
  unfold resetLeaf, update_mt. unfold mbind at 1, M_bind at 1, modify at 1. cbn [fst snd].
  unfold mbind at 1, M_bind at 1, attempt. rewrite E.
  eexists _, db'. split; [done|]. split; [|done]. cbn [fst].
  split_and!; cbn [set_siblings set_count mt_count mt_height mt_siblings].
  - rewrite length_take, Nat.min_l by done. done.
  - lia.
  - lia.
  - by apply Forall_take.
  - done.
Qed.

(** ** Properties *)

(** When a read of the store fails, [resetLeaf] reports it and the
    tree has no siblings left. *)
Theorem resetLeaf_error tx mt db c e mt' db'
  (Herr : resetLeaf c tx (mt, db) = (Err e, (mt', db'))) :
  mt' = mkMerkleTree (mt_networkID mt) (mt_height mt) c [].
Proof.
  revert Herr. unfold resetLeaf, update_mt. unfold mbind at 1, M_bind at 1, modify at 1.
  cbn [fst snd]. unfold mbind at 1, M_bind at 1, attempt.
  destruct (initSiblings tx (set_count c mt, db)) as [[S|e'|p] [mt1 db1]] eqn:E;
    apply initSiblings_keeps in E; cbn [fst] in E; subst mt1; [by intros [=]| |by intros [=]].
  by intros [= _ <- _].
Qed.
End Reset.
