(* ===== verification/MonitoredTx.v ===== *)
(** * Monitored claim transactions

    [claimtxman/types/monitoredtx.go]: the claim transactions the claim manager
    follows and the groups it compresses them into.  A nil pointer is [None];
    the map [History], whose values are all true, is the set of its keys. *)
From S2P Require Import Prelude Types.

Inductive MonitoredTxStatus : Type :=
| MonitoredTxStatusCreated | MonitoredTxStatusFailed | MonitoredTxStatusConfirmed
| MonitoredTxStatusCompressing | MonitoredTxStatusClaiming.
#[global] Instance MonitoredTxStatus_eq_dec : EqDecision MonitoredTxStatus.
Proof. solve_decision. Defined.

Record MonitoredTx := mkMonitoredTx {
  mtx_DepositID : Z;
  mtx_From : bytes;
  mtx_To : option bytes;
  mtx_Nonce : Z;
  mtx_Value : option Z;
  mtx_Data : bytes;
  mtx_Gas : Z;
  mtx_GasPrice : option Z;
  mtx_Status : MonitoredTxStatus;
  mtx_History : gset bytes;
  mtx_CreatedAt : Z;
  mtx_UpdatedAt : Z;
  mtx_GroupID : option Z;
  mtx_GlobalExitRoot : bytes;
}.

Inductive MonitoredTxGroupStatus : Type :=
| MonitoredTxGroupStatusCreated | MonitoredTxGroupStatusClaiming
| MonitoredTxGroupStatussFailed | MonitoredTxGroupStatusConfirmed
| MonitoredTxGroupStatusEmpty.          (* the zero value of the type, an empty string *)
#[global] Instance MonitoredTxGroupStatus_eq_dec : EqDecision MonitoredTxGroupStatus.
Proof. solve_decision. Defined.

Record TxHashHistoryEntry := mkTxHashHistoryEntry {
  the_TxHash : bytes;
  the_ReceiptStatus : option Z;
  the_CreatedAt : Z;
}.
#[global] Instance TxHashHistoryEntry_eq_dec : EqDecision TxHashHistoryEntry.
Proof. solve_decision. Defined.

Record TxHistoryV2 := mkTxHistoryV2 {
  th_Version : Z;
  th_TxHashes : list TxHashHistoryEntry;
}.
#[global] Instance TxHistoryV2_eq_dec : EqDecision TxHistoryV2.
Proof. solve_decision. Defined.

Record MonitoredTxGroupDBEntry := mkMonitoredTxGroupDBEntry {
  grp_GroupID : Z;
  grp_Status : MonitoredTxGroupStatus;
  grp_DepositIDs : list Z;
  grp_CompressedTxData : option bytes;
  grp_ClaimTxHistory : option TxHistoryV2;
  grp_CreatedAt : Z;
  grp_UpdatedAt : Z;
  grp_NumRetries : Z;
  grp_LastLog : string;
}.

Record MonitoredTxGroup := mkMonitoredTxGroup {
  mg_DbEntry : MonitoredTxGroupDBEntry;
  mg_Txs : list MonitoredTx;
}.

#[global] Instance MonitoredTx_eq_dec : EqDecision MonitoredTx.
Proof. solve_decision. Defined.
#[global] Instance MonitoredTxGroupDBEntry_eq_dec : EqDecision MonitoredTxGroupDBEntry.
Proof. solve_decision. Defined.

(** ** Receipts *)
Definition ReceiptStatusFailed : Z := 0.
Definition ReceiptStatusSuccessful : Z := 1.
Definition ReceiptStatusOutdated : Z := 2.

Definition IsPending (t : TxHashHistoryEntry) : bool := bool_decide (the_ReceiptStatus t = None).
Definition has_receipt (status : Z) (t : TxHashHistoryEntry) : bool :=
  match the_ReceiptStatus t with None => false | Some s => bool_decide (s = status) end.
Definition IsFailed : TxHashHistoryEntry → bool := has_receipt ReceiptStatusFailed.
Definition IsSuccessful : TxHashHistoryEntry → bool := has_receipt ReceiptStatusSuccessful.
Definition IsOutdated : TxHashHistoryEntry → bool := has_receipt ReceiptStatusOutdated.

Definition set_receipt (status : Z) (t : TxHashHistoryEntry) : TxHashHistoryEntry :=
  mkTxHashHistoryEntry (the_TxHash t) (Some status) (the_CreatedAt t).
Definition Outdate : TxHashHistoryEntry → TxHashHistoryEntry := set_receipt ReceiptStatusOutdated.
Definition ReceiptFailed : TxHashHistoryEntry → TxHashHistoryEntry := set_receipt ReceiptStatusFailed.
Definition ReceiptSuccessful : TxHashHistoryEntry → TxHashHistoryEntry :=
  set_receipt ReceiptStatusSuccessful.

Definition IsExhaustedTimeWaitingForReceipt (t : TxHashHistoryEntry) (now maxTime : Z) : bool :=
  bool_decide (now - the_CreatedAt t > maxTime).

(** ** Histories *)
Definition TxHistory_AddPendingTx (now : Z) (txHash : bytes) (t : TxHistoryV2) : TxHistoryV2 :=
  mkTxHistoryV2 (th_Version t) (th_TxHashes t ++ [mkTxHashHistoryEntry txHash None now]).

(** The index and creation time of the most recent entry, first one on a tie. *)
Fixpoint more_recent (l : list TxHashHistoryEntry) (idx maxIdx : nat) (maxTime : Z) : nat :=
  match l with
  | [] => maxIdx
  | e :: l =>
      if bool_decide (the_CreatedAt e > maxTime) then more_recent l (S idx) idx (the_CreatedAt e)
      else more_recent l (S idx) maxIdx maxTime
  end.
Definition GetMoreRecentTx (t : TxHistoryV2) : option TxHashHistoryEntry :=
  match th_TxHashes t with
  | [] => None
  | e :: _ => th_TxHashes t !! more_recent (th_TxHashes t) 0 0 (the_CreatedAt e)
  end.

(** ** Groups *)
Definition set_ClaimTxHistory (h : option TxHistoryV2) (m : MonitoredTxGroupDBEntry)
  : MonitoredTxGroupDBEntry :=
  mkMonitoredTxGroupDBEntry (grp_GroupID m) (grp_Status m) (grp_DepositIDs m)
    (grp_CompressedTxData m) h (grp_CreatedAt m) (grp_UpdatedAt m) (grp_NumRetries m)
    (grp_LastLog m).

(** [AddPendingTx] of a group creates the history on first use. *)
Definition Group_AddPendingTx (now : Z) (txHash : bytes) (m : MonitoredTxGroupDBEntry)
  : MonitoredTxGroupDBEntry * Z :=
  let h := match grp_ClaimTxHistory m with None => mkTxHistoryV2 1 [] | Some h => h end in
  (set_ClaimTxHistory (Some (TxHistory_AddPendingTx now txHash h)) m, grp_GroupID m).

Definition IsClaimTxHistoryEmpty (m : MonitoredTxGroupDBEntry) : bool :=
  match grp_ClaimTxHistory m with
  | None => true
  | Some h => bool_decide (length (th_TxHashes h) = 0%nat)
  end.

Definition set_mtx_GroupID (g : option Z) (m : MonitoredTx) : MonitoredTx :=
  mkMonitoredTx (mtx_DepositID m) (mtx_From m) (mtx_To m) (mtx_Nonce m) (mtx_Value m)
    (mtx_Data m) (mtx_Gas m) (mtx_GasPrice m) (mtx_Status m) (mtx_History m) (mtx_CreatedAt m)
    (mtx_UpdatedAt m) g (mtx_GlobalExitRoot m).
Definition set_mtx_History (h : gset bytes) (m : MonitoredTx) : MonitoredTx :=
  mkMonitoredTx (mtx_DepositID m) (mtx_From m) (mtx_To m) (mtx_Nonce m) (mtx_Value m)
    (mtx_Data m) (mtx_Gas m) (mtx_GasPrice m) (mtx_Status m) h (mtx_CreatedAt m)
    (mtx_UpdatedAt m) (mtx_GroupID m) (mtx_GlobalExitRoot m).
Definition set_mtx_Status (s : MonitoredTxStatus) (m : MonitoredTx) : MonitoredTx :=
  mkMonitoredTx (mtx_DepositID m) (mtx_From m) (mtx_To m) (mtx_Nonce m) (mtx_Value m)
    (mtx_Data m) (mtx_Gas m) (mtx_GasPrice m) s (mtx_History m) (mtx_CreatedAt m)
    (mtx_UpdatedAt m) (mtx_GroupID m) (mtx_GlobalExitRoot m).

Definition set_grp_Status (st : MonitoredTxGroupStatus) (m : MonitoredTxGroupDBEntry)
  : MonitoredTxGroupDBEntry :=
  mkMonitoredTxGroupDBEntry (grp_GroupID m) st (grp_DepositIDs m) (grp_CompressedTxData m)
    (grp_ClaimTxHistory m) (grp_CreatedAt m) (grp_UpdatedAt m) (grp_NumRetries m) (grp_LastLog m).
Definition set_grp_LastLog (l : string) (m : MonitoredTxGroupDBEntry) : MonitoredTxGroupDBEntry :=
  mkMonitoredTxGroupDBEntry (grp_GroupID m) (grp_Status m) (grp_DepositIDs m) (grp_CompressedTxData m)
    (grp_ClaimTxHistory m) (grp_CreatedAt m) (grp_UpdatedAt m) (grp_NumRetries m) l.
Definition set_grp_NumRetries (n : Z) (m : MonitoredTxGroupDBEntry) : MonitoredTxGroupDBEntry :=
  mkMonitoredTxGroupDBEntry (grp_GroupID m) (grp_Status m) (grp_DepositIDs m) (grp_CompressedTxData m)
    (grp_ClaimTxHistory m) (grp_CreatedAt m) (grp_UpdatedAt m) n (grp_LastLog m).
Definition set_grp_UpdatedAt (t : Z) (m : MonitoredTxGroupDBEntry) : MonitoredTxGroupDBEntry :=
  mkMonitoredTxGroupDBEntry (grp_GroupID m) (grp_Status m) (grp_DepositIDs m) (grp_CompressedTxData m)
    (grp_ClaimTxHistory m) (grp_CreatedAt m) t (grp_NumRetries m) (grp_LastLog m).
Definition set_grp_DepositIDs (l : list Z) (m : MonitoredTxGroupDBEntry) : MonitoredTxGroupDBEntry :=
  mkMonitoredTxGroupDBEntry (grp_GroupID m) (grp_Status m) l (grp_CompressedTxData m)
    (grp_ClaimTxHistory m) (grp_CreatedAt m) (grp_UpdatedAt m) (grp_NumRetries m) (grp_LastLog m).
Definition set_grp_CompressedTxData (d : option bytes) (m : MonitoredTxGroupDBEntry)
  : MonitoredTxGroupDBEntry :=
  mkMonitoredTxGroupDBEntry (grp_GroupID m) (grp_Status m) (grp_DepositIDs m) d
    (grp_ClaimTxHistory m) (grp_CreatedAt m) (grp_UpdatedAt m) (grp_NumRetries m) (grp_LastLog m).

(** [AssignTxsGroupID]: every transaction points to the group. *)
Definition AssignTxsGroupID (m : MonitoredTxGroup) : MonitoredTxGroup :=
  mkMonitoredTxGroup (mg_DbEntry m)
    (set_mtx_GroupID (Some (grp_GroupID (mg_DbEntry m))) <$> mg_Txs m).
Definition NewMonitoredTxGroup (entry : MonitoredTxGroupDBEntry) (txs : list MonitoredTx)
  : MonitoredTxGroup := AssignTxsGroupID (mkMonitoredTxGroup entry txs).

Fixpoint find_by_DepositID (depositID : Z) (txs : list MonitoredTx) : option MonitoredTx :=
  match txs with
  | [] => None
  | tx :: txs => if bool_decide (mtx_DepositID tx = depositID) then Some tx
                 else find_by_DepositID depositID txs
  end.
Definition GetTxByDepositID (depositID : Z) (m : MonitoredTxGroup) : option MonitoredTx :=
  find_by_DepositID depositID (mg_Txs m).

Definition AddTx (tx : MonitoredTx) (m : MonitoredTxGroup) : MonitoredTxGroup :=
  mkMonitoredTxGroup (mg_DbEntry m)
    (mg_Txs m ++ [set_mtx_GroupID (Some (grp_GroupID (mg_DbEntry m))) tx]).
Definition GetTxsDepositID (m : MonitoredTxGroup) : list Z := mtx_DepositID <$> mg_Txs m.

(** ** The history of one transaction, as a set of hashes *)
Definition AddHistory (txHash : bytes) (mTx : MonitoredTx) : res MonitoredTx :=
  if bool_decide (txHash ∈ mtx_History mTx) then Err ErrAlreadyExists
  else Ok (set_mtx_History ({[txHash]} ∪ mtx_History mTx) mTx).
Definition RemoveHistory (txHash : bytes) (mTx : MonitoredTx) : MonitoredTx :=
  set_mtx_History (mtx_History mTx ∖ {[txHash]}) mTx.
(** The order of a Go map is unspecified; here the canonical order of the set. *)
Definition HistoryHashSlice (mTx : MonitoredTx) : list bytes := elements (mtx_History mTx).

Definition IsCandidateToBeGrouped (ger : bytes) (mTx : MonitoredTx) : bool :=
  bool_decide (mtx_Status mTx = MonitoredTxStatusCreated) &&
  bool_decide (size (mtx_History mTx) = 0%nat) &&
  bool_decide (mtx_GroupID mTx = None) &&
  bool_decide (mtx_GlobalExitRoot mTx = ger).

(** ** Facts *)
Section Facts.
(** The scan keeps the first entry with the latest time. *)
Lemma more_recent_spec l : ∀ pre best maxIdx,
  (pre ++ l) !! maxIdx = Some best → (maxIdx < length pre ∨ l !! 0%nat = Some best ∧ maxIdx = length pre)%nat →
  (∀ i e, pre !! i = Some e → the_CreatedAt e ≤ the_CreatedAt best ∧
     ((i < maxIdx)%nat → the_CreatedAt e < the_CreatedAt best)) →
  ∃ r best', more_recent l (length pre) maxIdx (the_CreatedAt best) = r ∧ (pre ++ l) !! r = Some best' ∧
    ∀ i e, (pre ++ l) !! i = Some e → the_CreatedAt e ≤ the_CreatedAt best' ∧
      ((i < r)%nat → the_CreatedAt e < the_CreatedAt best').
Proof.
  induction l as [|x l IH]; intros pre best maxIdx Hbest Hidx Hpre.
  { exists maxIdx, best. rewrite app_nil_r in *. done. }
  cbn [more_recent]. replace (S (length pre)) with (length (pre ++ [x])) by (rewrite length_app; cbn; lia).
  assert (Happ : pre ++ x :: l = (pre ++ [x]) ++ l) by (by rewrite <- app_assoc).
  assert (Hx : (pre ++ x :: l) !! length pre = Some x) by (by rewrite lookup_app_r, Nat.sub_diag).
  case_bool_decide as Hgt.
  - rewrite Happ in *. apply IH; [done|left; rewrite length_app; cbn; lia|].
    intros i e [He|[Hi He]]%lookup_app_Some.
    + destruct (Hpre i e He). lia.
    + apply list_lookup_singleton_Some in He as [Hi0 ->]. lia.
  - rewrite Happ in *. apply IH; [done| |].
    + left. rewrite length_app. cbn. destruct Hidx as [?|[_ ->]]; lia.
    + intros i e [He|[Hi He]]%lookup_app_Some; [by apply Hpre|].
      apply list_lookup_singleton_Some in He as [Hi0 ->]. split; [lia|]. intros Hlt.
      destruct Hidx as [?|[_ ->]]; lia.
Qed.

(** The entry [GetMoreRecentTx] returns is one of the history, no entry is
    more recent, and it is the first of those with its time; a history without an
    entry has none. *)
Theorem GetMoreRecentTx_latest t :
  match GetMoreRecentTx t with
  | None => th_TxHashes t = []
  | Some best => ∃ r, th_TxHashes t !! r = Some best ∧
      ∀ i e, th_TxHashes t !! i = Some e → the_CreatedAt e ≤ the_CreatedAt best ∧
        ((i < r)%nat → the_CreatedAt e < the_CreatedAt best)
  end.
Proof.
  unfold GetMoreRecentTx. destruct (th_TxHashes t) as [|e l] eqn:E; [done|].
  destruct (more_recent_spec (e :: l) [] e 0) as (r & best & <- & Hb & Hall); [done|by right|done|].
  cbn [app length] in Hb, Hall. rewrite Hb. eauto.
Qed.
End Facts.
