(* ===== verification/Tables.v ===== *)
(** * The database: tables, statements and transactions

    The schema [db/pgstorage/migrations] builds (columns the program reads or
    writes, keys, unique constraints, foreign keys with ON DELETE CASCADE), and
    what a statement does to it.  A statement runs on the open transaction or,
    with a nil transaction, directly on the committed tables; a failed statement
    changes nothing but the sequences and aborts the transaction it runs in.
    [db_faults] is what the connection does: one entry per statement, [Some f] when
    the statement fails for a reason outside the program, refused or broken off. *)
From S2P Require Import Prelude Types MerkleStore MonitoredTx.

(** sync.block; the row with id 0 has no number and no network. *)
Record block_row := mkBlockRow {
  b_id : Z;
  b_num : option Z;
  b_hash : bytes;
  b_net : option Z;
  b_received_at : Z;
}.
(** sync.exit_root *)
Record exit_root_row := mkExitRootRow { er_ger : GlobalExitRoot; er_allowed : bool }.
(** sync.deposit; the block number and times of the structure are not columns. *)
Record deposit_row := mkDepositRow { dr_dep : Deposit; dr_ready_time : option Z }.
(** sync.remove_exit_root *)
Record remove_row := mkRemoveRow { rm_id : Z; rm_block_id : Z; rm_ger : bytes; rm_net : Z }.
(** sync.bridge_balance *)
Record balance_row := mkBalanceRow { bal_addr : bytes; bal_net : Z; bal_balance : Z }.
(** sync.monitored_txs_group; the history is stored as JSON. *)
Record group_row := mkGroupRow { gr_group : MonitoredTxGroupDBEntry; gr_history : string }.

#[global] Instance block_row_eq_dec : EqDecision block_row.
Proof. solve_decision. Defined.

Record tables := mkTables {
  t_block : list block_row;
  t_exit_root : list exit_root_row;
  t_deposit : list deposit_row;
  t_claim : list Claim;
  t_token_wrapped : list TokenWrapped;
  t_root : list root_row;
  t_rht : list node_row;
  t_rollup_exit : list RollupExitLeaf;
  t_remove : list remove_row;
  t_monitored : list MonitoredTx;
  t_groups : list group_row;
  t_balance : list balance_row;
}.

Definition set_block v t := mkTables v (t_exit_root t) (t_deposit t) (t_claim t) (t_token_wrapped t) (t_root t) (t_rht t) (t_rollup_exit t) (t_remove t) (t_monitored t) (t_groups t) (t_balance t).
Definition set_exit_root v t := mkTables (t_block t) v (t_deposit t) (t_claim t) (t_token_wrapped t) (t_root t) (t_rht t) (t_rollup_exit t) (t_remove t) (t_monitored t) (t_groups t) (t_balance t).
Definition set_deposit v t := mkTables (t_block t) (t_exit_root t) v (t_claim t) (t_token_wrapped t) (t_root t) (t_rht t) (t_rollup_exit t) (t_remove t) (t_monitored t) (t_groups t) (t_balance t).
Definition set_claim v t := mkTables (t_block t) (t_exit_root t) (t_deposit t) v (t_token_wrapped t) (t_root t) (t_rht t) (t_rollup_exit t) (t_remove t) (t_monitored t) (t_groups t) (t_balance t).
Definition set_token_wrapped v t := mkTables (t_block t) (t_exit_root t) (t_deposit t) (t_claim t) v (t_root t) (t_rht t) (t_rollup_exit t) (t_remove t) (t_monitored t) (t_groups t) (t_balance t).
Definition set_root v t := mkTables (t_block t) (t_exit_root t) (t_deposit t) (t_claim t) (t_token_wrapped t) v (t_rht t) (t_rollup_exit t) (t_remove t) (t_monitored t) (t_groups t) (t_balance t).
Definition set_rht v t := mkTables (t_block t) (t_exit_root t) (t_deposit t) (t_claim t) (t_token_wrapped t) (t_root t) v (t_rollup_exit t) (t_remove t) (t_monitored t) (t_groups t) (t_balance t).
Definition set_rollup_exit v t := mkTables (t_block t) (t_exit_root t) (t_deposit t) (t_claim t) (t_token_wrapped t) (t_root t) (t_rht t) v (t_remove t) (t_monitored t) (t_groups t) (t_balance t).
Definition set_remove v t := mkTables (t_block t) (t_exit_root t) (t_deposit t) (t_claim t) (t_token_wrapped t) (t_root t) (t_rht t) (t_rollup_exit t) v (t_monitored t) (t_groups t) (t_balance t).
Definition set_monitored v t := mkTables (t_block t) (t_exit_root t) (t_deposit t) (t_claim t) (t_token_wrapped t) (t_root t) (t_rht t) (t_rollup_exit t) (t_remove t) v (t_groups t) (t_balance t).
Definition set_groups v t := mkTables (t_block t) (t_exit_root t) (t_deposit t) (t_claim t) (t_token_wrapped t) (t_root t) (t_rht t) (t_rollup_exit t) (t_remove t) (t_monitored t) v (t_balance t).
Definition set_balance v t := mkTables (t_block t) (t_exit_root t) (t_deposit t) (t_claim t) (t_token_wrapped t) (t_root t) (t_rht t) (t_rollup_exit t) (t_remove t) (t_monitored t) (t_groups t) v.

(** The last value each sequence gave; [nextval] is not undone by a rollback. *)
Record sequences := mkSequences {
  sq_block : Z; sq_exit_root : Z; sq_deposit : Z; sq_rollup_exit : Z; sq_remove : Z;
}.

(** The tables after the migrations: the block with id 0 for trusted exit roots. *)
Definition initial_tables : tables :=
  mkTables [mkBlockRow 0 None [x5c; x78; x30] None zero_time] [] [] [] [] [] [] [] [] [] [] [].
Definition initial_sequences : sequences := mkSequences 0 0 0 0 0.

(** An open transaction sees its own tables; [aborted] after a failed statement. *)
Record transaction := mkTransaction { tx_tables : tables; tx_aborted : bool }.

(** How a statement fails on the connection: it is refused, or it is accepted and
    breaks off after some rows. *)
Inductive fault : Type := Refused (code : Z) | Broken (rows : nat) (code : Z).
Coercion Refused : Z >-> fault.
Definition fault_error (f : fault) : error :=
  match f with Refused code | Broken _ code => ErrExternal code end.

Record database := mkDatabase {
  db_committed : tables;
  db_tx : option transaction;
  db_seqs : sequences;
  db_leaked : nat;           (* transactions left open when another one began *)
  db_faults : list (option fault);
  db_now : Z;                (* the clock of time.Now and CURRENT_TIMESTAMP *)
}.

Definition initial_db : database := mkDatabase initial_tables None initial_sequences 0 [] 0.

Definition set_tx (tx : option transaction) (db : database) : database :=
  mkDatabase (db_committed db) tx (db_seqs db) (db_leaked db) (db_faults db) (db_now db).

(** A SQL statement: the rows it returns and the tables it leaves. *)
Abbreviation SQL := (M (tables * sequences)).
Definition select {A} (f : tables → A) : SQL A := gets (λ s, f s.1).
Definition change (f : tables → tables) : SQL unit := modify (λ s, (f s.1, s.2)).
Definition require (b : bool) (e : error) : SQL unit := if b then mret tt else throw e.

(** The next entry of [faults]. *)
Definition pop_fault : M database (option fault) := λ db,
  match db_faults db with
  | [] => (Ok None, db)
  | f :: fs => (Ok f, mkDatabase (db_committed db) (db_tx db) (db_seqs db) (db_leaked db) fs (db_now db))
  end.

(** A statement on the committed tables: they change when it succeeds. *)
Definition run_auto {A} (m : SQL A) : M database A := λ db,
  match m (db_committed db, db_seqs db) with
  | (Ok a, (t, q)) => (Ok a, mkDatabase t (db_tx db) q (db_leaked db) (db_faults db) (db_now db))
  | (r, (_, q)) => (r, mkDatabase (db_committed db) (db_tx db) q (db_leaked db) (db_faults db) (db_now db))
  end.
(** A statement in the open transaction. *)
Definition run_tx {A} (m : SQL A) : M database A := λ db,
  match db_tx db with
  | None => (Err ErrTxClosed, db)
  | Some (mkTransaction t true) => (Err ErrTxAborted, db)
  | Some (mkTransaction t false) =>
      match m (t, db_seqs db) with
      | (Ok a, (t', q)) =>
          (Ok a, mkDatabase (db_committed db) (Some (mkTransaction t' false)) q (db_leaked db) (db_faults db) (db_now db))
      | (r, (_, q)) =>
          (r, mkDatabase (db_committed db) (Some (mkTransaction t true)) q (db_leaked db) (db_faults db) (db_now db))
      end
  end.
(** [getExecQuerier(dbTx)] followed by the statement. *)
Definition exec {A} (tx : Tx) (m : SQL A) : M database A :=
  fault ← pop_fault;
  let m := match fault with Some f => throw (fault_error f) | None => m end in
  match tx with nil_tx => run_auto m | open_tx => run_tx m end.

(** The tables a statement sees. *)
Definition view (tx : Tx) (db : database) : tables :=
  match tx with
  | nil_tx => db_committed db
  | open_tx => match db_tx db with Some t => tx_tables t | None => initial_tables end
  end.
(** [Query(...)] and the loop over [rows.Next()].  The loop ends at an error as it
    does after the last row, and nobody asks for [rows.Err()]: once the statement
    was accepted, its failure leaves the rows that were received.  Only a refused
    statement and a closed transaction are errors; in an aborted transaction a
    statement is refused when it is prepared and breaks off when it was prepared
    before. *)
Definition received {A} (tx : Tx) (m : SQL (list A)) (db : database) : option (list A) :=
  let rows n := match (m (view tx db, db_seqs db)).1 with Ok l => take n l | _ => [] end in
  match (match tx with nil_tx => Some false | open_tx => tx_aborted <$> db_tx db end), head (db_faults db) with
  | None, _ | Some _, Some (Some (Refused _)) => None
  | Some true, Some (Some (Broken _ _)) => Some []
  | Some true, _ => None
  | Some false, Some (Some (Broken n _)) => Some (rows n)
  | Some false, _ => Some []
  end.
Definition query {A} (tx : Tx) (m : SQL (list A)) : M database (list A) := λ db,
  match exec tx m db with
  | (Err e, db') => (match received tx m db with Some rows => Ok rows | None => Err e end, db')
  | r => r
  end.

(** [QueryRow(...).Scan(...)]: an empty result is an error of [Scan], not of
    the statement. *)
Definition scan {A} (o : option A) : M database A :=
  match o with Some a => mret a | None => throw ErrNoRows end.
Definition query_row {A} (tx : Tx) (f : tables → option A) : M database A :=
  o ← exec tx (select f); scan o.
(** [if errors.Is(err, pgx.ErrNoRows) { return ..., gerror.ErrStorageNotFound }]. *)
Definition not_found {A} : M database A → M database A :=
  map_err (λ e, if errors_Is e ErrNoRows then ErrStorageNotFound else e).

(** A uint64 argument of a BIGINT parameter: the driver refuses what does not
    fit, before the statement is sent. *)
Definition int8_param (z : Z) : M database unit :=
  if bool_decide (z < 2 ^ 63) then mret tt
  else throw (Errorf "%d is greater than maximum value for Int8" [z]).

Definition now : M database Z := gets db_now.

(** ORDER BY key DESC and ASC. *)
Definition desc {A} (key : A → Z) (a b : A) : Prop := key b ≤ key a.
Definition desc2 {A} (k1 k2 : A → Z) (a b : A) : Prop := k1 b < k1 a ∨ (k1 a = k1 b ∧ k2 b ≤ k2 a).
#[global] Instance desc_dec {A} (key : A → Z) : RelDecision (desc key).
Proof. unfold desc. intros ??. apply _. Defined.
#[global] Instance desc2_dec {A} (k1 k2 : A → Z) : RelDecision (desc2 k1 k2).
Proof. unfold desc2. intros ??. apply _. Defined.
Definition order_desc {A} (key : A → Z) (l : list A) : list A := merge_sort (desc key) l.
Definition order_asc {A} (key : A → Z) (l : list A) : list A := merge_sort (desc (λ a, - key a)) l.
Definition order_desc2 {A} (k1 k2 : A → Z) (l : list A) : list A := merge_sort (desc2 k1 k2) l.
(** LIMIT and OFFSET. *)
Definition page {A} (limit offset : Z) (l : list A) : list A :=
  take (Z.to_nat limit) (drop (Z.to_nat offset) l).
(** coalesce(MAX(...), -1) of non-negative values. *)
Definition max_or_minus1 (l : list Z) : Z := foldr Z.max (-1) l.

(** ** Facts *)
(** The connection answers and the transaction is usable. *)
Definition db_live (tx : Tx) (db : database) : Prop :=
  db_faults db = [] ∧
  match tx with nil_tx => True | open_tx => ∃ t, db_tx db = Some (mkTransaction t false) end.

(** What a successful statement did. *)
Lemma exec_ok {A} tx (m : SQL A) db a db' :
  exec tx m db = (Ok a, db') →
  ∃ q', m (view tx db, db_seqs db) = (Ok a, (view tx db', q')) ∧ db_seqs db' = q' ∧
    (tx = open_tx → ∃ t t', db_tx db = Some (mkTransaction t false) ∧
      db_tx db' = Some (mkTransaction t' false) ∧ db_committed db' = db_committed db) ∧
    (tx = nil_tx → db_tx db' = db_tx db) ∧
    db_leaked db' = db_leaked db ∧ db_now db' = db_now db ∧
    (db_live tx db → db_live tx db').
Proof.
  unfold exec, pop_fault, mbind, M_bind. destruct db as [tb otx q lk fs nw]. cbn.
  assert (∀ fs', match tx with nil_tx => @run_auto A | open_tx => run_tx end
    match fs with [] => m | f :: _ => match f with Some c => throw (fault_error c) | None => m end end
    (mkDatabase tb otx q lk fs' nw) = (Ok a, db') →
    (fs = [] → fs' = []) →
    ∃ q', m (view tx (mkDatabase tb otx q lk fs nw), q) = (Ok a, (view tx db', q')) ∧ db_seqs db' = q' ∧
    (tx = open_tx → ∃ t t', otx = Some (mkTransaction t false) ∧
      db_tx db' = Some (mkTransaction t' false) ∧ db_committed db' = tb) ∧
    (tx = nil_tx → db_tx db' = otx) ∧ db_leaked db' = lk ∧ db_now db' = nw ∧
    (db_live tx (mkDatabase tb otx q lk fs nw) → db_live tx db')) as Hmain.
  2: { destruct fs as [|f fs]; cbn; intros H.
       - destruct (Hmain []) as (q' & ?); [by destruct tx|done|]. eauto.
       - destruct (Hmain fs) as (q' & ?); [by destruct tx|done|]. eauto. }
  intros fs' H Hfs. set (m' := match fs with [] => _ | _ => _ end) in H.
  assert (Hm : m' = m ∨ ∃ c, m' = throw (fault_error c)).
  { unfold m'. destruct fs as [|[c|] fs]; eauto. }
  destruct Hm as [->|[c ->]]; [|by destruct tx, otx as [[t []]|]].
  destruct tx; cbn in H |- *.
  - unfold run_auto in H. cbn in H. destruct (m (tb, q)) as [[a'|e|p] [t' q']]; [|done|done].
    simplify_eq. exists q'. cbn. split_and!; try done. intros [Hff _]. split; [by apply Hfs|done].
  - unfold run_tx in H. cbn in H. destruct otx as [[t []]|]; [done| |done].
    destruct (m (t, q)) as [[a'|e|p] [t' q']] eqn:E; [|done|done]. simplify_eq. exists q'. cbn.
    split_and!; eauto; [done|]. intros [Hff _]. split; [by apply Hfs|eauto].
Qed.

(** A statement that cannot fail succeeds on a live database. *)
Lemma exec_live {A} tx (m : SQL A) db a t' q' :
  db_live tx db → m (view tx db, db_seqs db) = (Ok a, (t', q')) →
  ∃ db', exec tx m db = (Ok a, db').
Proof.
  destruct db as [tb otx q lk fs nw]. intros [Hf Htx] Hm. cbn in Hf, Htx. subst fs.
  unfold exec, pop_fault, mbind, M_bind. cbn. destruct tx.
  - unfold run_auto. cbn in Hm |- *. rewrite Hm. eauto.
  - destruct Htx as [t ->]. unfold run_tx. cbn in Hm |- *. rewrite Hm. eauto.
Qed.

(** *** Queries *)
Lemma query_exec {A} tx (m : SQL (list A)) db r db' :
  query tx m db = (r, db') → ∃ r0, exec tx m db = (r0, db') ∧
    match r0 with Err e => received tx m db = None ∧ r = Err e ∨ ∃ l, received tx m db = Some l ∧ r = Ok l | _ => r = r0 end.
Proof.
  unfold query. destruct (exec tx m db) as [[l|e|p] db1]; intros [= <- <-]; eexists; (split; [done|]); [done| |done].
  destruct (received tx m db); eauto.
Qed.
Lemma query_live {A} tx (m : SQL (list A)) db l t' q' :
  db_live tx db → m (view tx db, db_seqs db) = (Ok l, (t', q')) → ∃ db', exec tx m db = (Ok l, db') ∧ query tx m db = (Ok l, db').
Proof. intros Hl Hm. destruct (exec_live _ _ _ _ _ _ Hl Hm) as [db' E]. exists db'. unfold query. by rewrite E. Qed.
