(* ===== verification/Storage.v ===== *)
(** * The PostgreSQL storage

    [db/pgstorage/pgstorage.go], [db/pgstorage/utils.go] (the metadata decoder)
    and [db/pgstorage/xlayer_pgstorage.go]: every method with its SQL statements;
    those with [Query] go through [query], the others through [exec].
    Where a query has several rows for an answer and no ORDER BY, the first row
    in the order of insertion is taken.  The ABI decoder and the JSON codec are
    libraries. *)
From S2P Require Import Prelude Types MerkleStore MonitoredTx Tables.

(** [abi.Arguments{name string, symbol string, decimals uint8}.UnpackIntoMap]. *)
Class TokenAbi := UnpackToken : bytes → option TokenMetadata.

Definition ErrAbi : error := ErrExternal 1.

Definition Rollback (tx : Tx) : M database unit :=
  match tx with
  | nil_tx => throw ErrNilDBTransaction
  | open_tx => λ db, match db_tx db with
                     | None => (Err ErrTxClosed, db)
                     | Some _ => (Ok tt, set_tx None db)
                     end
  end.

(** Committing an aborted transaction rolls it back and is an error; a commit
    that fails leaves the transaction closed. *)
Definition commit_tx (fault : option fault) : M database unit := λ db,
  match db_tx db with
  | None => (Err ErrTxClosed, db)
  | Some (mkTransaction t aborted) =>
      match fault with
      | Some f => (Err (fault_error f), set_tx None db)
      | None =>
          if aborted then (Err ErrTxAborted, set_tx None db)
          else (Ok tt, mkDatabase t None (db_seqs db) (db_leaked db) (db_faults db) (db_now db))
      end
  end.
Definition Commit (tx : Tx) : M database unit :=
  match tx with
  | nil_tx => throw ErrNilDBTransaction
  | open_tx => fault ← pop_fault; commit_tx fault
  end.

(** The new transaction is the one later statements run in; one that was still
    open stays open for ever. *)
Definition BeginDBTransaction : M database Tx :=
  fault ← pop_fault;
  match fault with
  | Some f => throw (fault_error f)
  | None =>
      modify (λ db, mkDatabase (db_committed db) (Some (mkTransaction (db_committed db) false))
        (db_seqs db) (db_leaked db + match db_tx db with Some _ => 1 | None => 0 end)%nat
        (db_faults db) (db_now db));;
      mret open_tx
  end.

(** ** Blocks *)
Definition blocks_of (net : Z) (t : tables) : list block_row :=
  filter (λ b, b_net b = Some net) (t_block t).
Definition blocks_desc (net : Z) (t : tables) : list block_row :=
  order_desc (λ b, default 0 (b_num b)) (blocks_of net t).

Definition GetLastBlock (networkID : Z) (tx : Tx) : M database Block :=
  b ← not_found (query_row tx (λ t, head (blocks_desc networkID t)));
  mret (mkBlock (b_id b) (default 0 (b_num b)) (b_hash b) (default 0 (b_net b)) [] [] [] [] [] [] []
          zero_time).

Definition sql_add_block (num : Z) (hash : bytes) (net received : Z) : SQL Z := λ '(t, q),
  let id := sq_block q + 1 in
  let q := mkSequences id (sq_exit_root q) (sq_deposit q) (sq_rollup_exit q) (sq_remove q) in
  match list_find (λ b, b_hash b = hash) (t_block t) with
  | Some (_, b) => (Ok (b_id b), (t, q))
  | None => (Ok id, (set_block (t_block t ++ [mkBlockRow id (Some num) hash (Some net) received]) t, q))
  end.

Definition AddBlock (block : Block) (tx : Tx) : M database Z :=
  int8_param (blk_BlockNumber block);;
  exec tx (sql_add_block (blk_BlockNumber block) (blk_BlockHash block) (blk_NetworkID block)
             (blk_ReceivedAt block)).

(** ** Rows that reference a block or a deposit *)
Definition block_exists (id : Z) (t : tables) : bool := existsb (λ b, bool_decide (b_id b = id)) (t_block t).
Definition deposit_exists (id : Z) (t : tables) : bool :=
  existsb (λ d, bool_decide (dep_Id (dr_dep d) = id)) (t_deposit t).

Definition sql_add_exit_root (blockID : Z) (ger : bytes) (exitRoots : list bytes) (net : Z) : SQL unit :=
  λ '(t, q),
  let id := sq_exit_root q + 1 in
  let q := mkSequences (sq_block q) id (sq_deposit q) (sq_rollup_exit q) (sq_remove q) in
  if existsb (λ r, bool_decide (ger_BlockID (er_ger r) = blockID ∧ ger_GlobalExitRoot (er_ger r) = ger ∧
                               ger_NetworkID (er_ger r) = net)) (t_exit_root t)
  then (Err ErrUniqueViolation, (t, q))
  else if block_exists blockID t then
    (Ok tt, (set_exit_root (t_exit_root t ++
               [mkExitRootRow (mkGlobalExitRoot blockID 0 exitRoots ger net id zero_time) true]) t, q))
  else (Err ErrForeignKey, (t, q)).

(** The two roots of a global exit root; one root alone is out of range. *)
Definition two_roots (l : list bytes) : res (list bytes) :=
  r0 ← at_index l 0; r1 ← at_index l 1; mret [r0; r1].

Definition AddGlobalExitRoot (exitRoot : GlobalExitRoot) (tx : Tx) : M database unit :=
  exitRoots ← lift_res (match ger_ExitRoots exitRoot with [] => mret [] | l => two_roots l end);
  int8_param (ger_BlockID exitRoot);;
  exec tx (sql_add_exit_root (ger_BlockID exitRoot) (ger_GlobalExitRoot exitRoot) exitRoots
             (ger_NetworkID exitRoot)).

Definition sql_add_deposit (d : Deposit) : SQL Z := λ '(t, q),
  let id := sq_deposit q + 1 in
  let q := mkSequences (sq_block q) (sq_exit_root q) id (sq_rollup_exit q) (sq_remove q) in
  if existsb (λ r, bool_decide (dep_NetworkID (dr_dep r) = dep_NetworkID d ∧
                               dep_DepositCount (dr_dep r) = dep_DepositCount d)) (t_deposit t)
  then (Err ErrUniqueViolation, (t, q))
  else if block_exists (dep_BlockID d) t then
    (Ok id, (set_deposit (t_deposit t ++
       [mkDepositRow (mkDeposit id (dep_LeafType d) (dep_OriginalNetwork d) (dep_OriginalAddress d)
          (dep_Amount d) (dep_DestinationNetwork d) (dep_DestinationAddress d) (dep_DepositCount d)
          (dep_BlockID d) 0 (dep_NetworkID d) (dep_TxHash d) (dep_Metadata d) false zero_time
          zero_time (dep_DestContractAddress d)) None]) t, q))
  else (Err ErrForeignKey, (t, q)).

Definition set_dep_DestContract (a : bytes) (d : Deposit) : Deposit :=
  mkDeposit (dep_Id d) (dep_LeafType d) (dep_OriginalNetwork d) (dep_OriginalAddress d)
    (dep_Amount d) (dep_DestinationNetwork d) (dep_DestinationAddress d) (dep_DepositCount d)
    (dep_BlockID d) (dep_BlockNumber d) (dep_NetworkID d) (dep_TxHash d) (dep_Metadata d)
    (dep_ReadyForClaim d) (dep_Time d) (dep_ReadyTime d) a.

(** The statement of [AddDeposit] leaves dest_contract_addr to its default. *)
Definition AddDeposit (deposit : Deposit) (tx : Tx) : M database Z :=
  int8_param (dep_BlockID deposit);;
  exec tx (sql_add_deposit (set_dep_DestContract zero_address deposit)).
Definition AddDepositXLayer (deposit : Deposit) (tx : Tx) : M database Z :=
  int8_param (dep_BlockID deposit);;
  exec tx (sql_add_deposit deposit).

Definition sql_add_claim (c : Claim) : SQL unit := λ '(t, q),
  if existsb (λ r, bool_decide (clm_Index r = clm_Index c ∧ clm_RollupIndex r = clm_RollupIndex c ∧
                               clm_NetworkID r = clm_NetworkID c ∧ clm_MainnetFlag r = clm_MainnetFlag c))
       (t_claim t)
  then (Err ErrUniqueViolation, (t, q))
  else if block_exists (clm_BlockID c) t then
    (Ok tt, (set_claim (t_claim t ++
       [mkClaim (clm_MainnetFlag c) (clm_RollupIndex c) (clm_Index c) (clm_OriginalNetwork c)
          (clm_OriginalAddress c) (clm_Amount c) (clm_DestinationAddress c) (clm_BlockID c) 0
          (clm_NetworkID c) (clm_TxHash c) zero_time]) t, q))
  else (Err ErrForeignKey, (t, q)).

Definition AddClaim (claim : Claim) (tx : Tx) : M database unit :=
  int8_param (clm_BlockID claim);;
  exec tx (sql_add_claim claim).

(** ** Wrapped tokens *)
Section Tokens.
Context {Abi : TokenAbi}.

Definition getDecodedToken (metadata : bytes) : res TokenMetadata :=
  match UnpackToken metadata with Some tm => Ok tm | None => Err ErrAbi end.

Definition GetTokenMetadata (networkID destNet : Z) (originalTokenAddr : bytes) (tx : Tx)
  : M database bytes :=
  query_row tx (λ t,
    head (dep_Metadata ∘ dr_dep <$>
      filter (λ d, dep_NetworkID (dr_dep d) = networkID ∧
                   dep_OriginalAddress (dr_dep d) = originalTokenAddr ∧
                   dep_DestinationNetwork (dr_dep d) = destNet) (t_deposit t))).

Definition token_key (tw : TokenWrapped) : Z * Z * bytes :=
  (tw_NetworkID tw, tw_OriginalNetwork tw, tw_OriginalTokenAddress tw).

Definition sql_add_token (tw : TokenWrapped) : SQL unit := λ '(t, q),
  if existsb (λ r, bool_decide (token_key r = token_key tw)) (t_token_wrapped t)
  then (Err ErrUniqueViolation, (t, q))
  else if block_exists (tw_BlockID tw) t then
    (Ok tt, (set_token_wrapped (t_token_wrapped t ++ [tw]) t, q))
  else (Err ErrForeignKey, (t, q)).

Definition AddTokenWrapped (tokenWrapped : TokenWrapped) (tx : Tx) : M database unit :=
  r ← attempt (GetTokenMetadata (tw_OriginalNetwork tokenWrapped) (tw_NetworkID tokenWrapped)
                 (tw_OriginalTokenAddress tokenWrapped) tx);
  tokenMetadata ← match r with
                  | inr err => if bool_decide (err ≠ ErrNoRows) then throw err
                               else mret (mkTokenMetadata "" "" 0)
                  | inl metadata => lift_res (getDecodedToken metadata)
                  end;
  int8_param (tw_BlockID tokenWrapped);;
  exec tx (sql_add_token (mkTokenWrapped tokenMetadata (tw_OriginalNetwork tokenWrapped)
             (tw_OriginalTokenAddress tokenWrapped) (tw_WrappedTokenAddress tokenWrapped)
             (tw_BlockID tokenWrapped) 0 (tw_NetworkID tokenWrapped))).

Definition sql_update_token (net : Z) (addr : bytes) (tm : TokenMetadata) (t : tables) : tables :=
  set_token_wrapped ((λ r,
    if bool_decide (tw_OriginalNetwork r = net ∧ tw_OriginalTokenAddress r = addr)
    then mkTokenWrapped tm (tw_OriginalNetwork r) (tw_OriginalTokenAddress r)
           (tw_WrappedTokenAddress r) (tw_BlockID r) (tw_BlockNumber r) (tw_NetworkID r)
    else r) <$> t_token_wrapped t) t.

(** [var token etherman.TokenWrapped]. *)
Definition zero_token : TokenWrapped := mkTokenWrapped (mkTokenMetadata "" "" 0) 0 zero_address zero_address 0 0 0.
(** The token is returned with an empty symbol when the deposit that carries
    its metadata is still missing.  An error of the first query that is not an empty
    result is returned at the end only: until then the token is the zero value, and
    metadata found for that one is written to the row of the token. *)
Definition GetTokenWrapped (originalNetwork : Z) (originalTokenAddress : bytes) (tx : Tx)
  : M database TokenWrapped :=
  first ← attempt (query_row tx (λ t, head (filter (λ r, tw_OriginalNetwork r = originalNetwork ∧
            tw_OriginalTokenAddress r = originalTokenAddress) (t_token_wrapped t))));
  if (match first with inr err => errors_Is err ErrNoRows | inl _ => false end) then throw ErrStorageNotFound
  else
    let token := match first with inl token => token | inr _ => zero_token end in
    token ← (if bool_decide (tm_Symbol (tw_TokenMetadata token) = "") then
      r ← attempt (GetTokenMetadata (tw_OriginalNetwork token) (tw_NetworkID token)
                     (tw_OriginalTokenAddress token) tx);
      match r with
      | inr err => if bool_decide (err ≠ ErrNoRows) then throw err else mret token
      | inl metadata =>
          tm ← lift_res (getDecodedToken metadata);
          exec tx (change (sql_update_token originalNetwork originalTokenAddress tm));;
          mret (mkTokenWrapped tm (tw_OriginalNetwork token) (tw_OriginalTokenAddress token)
                  (tw_WrappedTokenAddress token) (tw_BlockID token) (tw_BlockNumber token)
                  (tw_NetworkID token))
      end
    else mret token);
    match first with inl _ => mret token | inr err => throw err end.
End Tokens.

(** ** Reorganisations *)

(** DELETE FROM sync.block with its cascades: rows of a deleted block, then the
    roots and nodes of a deleted deposit. *)
Definition block_gone (blockNumber net : Z) (b : block_row) : bool :=
  match b_num b, b_net b with
  | Some n, Some m => bool_decide (n > blockNumber) && bool_decide (m = net)
  | _, _ => false
  end.
Definition gone_blocks (blockNumber net : Z) (t : tables) : list Z :=
  b_id <$> filter (λ b, block_gone blockNumber net b = true) (t_block t).
Definition gone_deposits (gone_ids : list Z) (t : tables) : list Z :=
  dep_Id ∘ dr_dep <$> filter (λ d, dep_BlockID (dr_dep d) ∈ gone_ids) (t_deposit t).
Definition sql_reset (blockNumber net : Z) (t : tables) : tables :=
  let gone_ids := gone_blocks blockNumber net t in
  let gone_deps := gone_deposits gone_ids t in
  mkTables
    (filter (λ b, block_gone blockNumber net b = false) (t_block t))
    (filter (λ r, ger_BlockID (er_ger r) ∉ gone_ids) (t_exit_root t))
    (filter (λ d, dep_BlockID (dr_dep d) ∉ gone_ids) (t_deposit t))
    (filter (λ c, clm_BlockID c ∉ gone_ids) (t_claim t))
    (filter (λ w, tw_BlockID w ∉ gone_ids) (t_token_wrapped t))
    (filter (λ r : root_row, r.1.2 ∉ gone_deps) (t_root t))
    (filter (λ r : node_row, r.2 ∉ gone_deps) (t_rht t))
    (filter (λ l, rel_BlockID l ∉ gone_ids) (t_rollup_exit t))
    (filter (λ r, rm_block_id r ∉ gone_ids) (t_remove t))
    (t_monitored t) (t_groups t) (t_balance t).

Definition Reset (blockNumber networkID : Z) (tx : Tx) : M database unit :=
  int8_param blockNumber;;
  exec tx (change (sql_reset blockNumber networkID)).

Definition GetPreviousBlock (networkID offset : Z) (tx : Tx) : M database Block :=
  int8_param offset;;
  b ← not_found (query_row tx (λ t, head (drop (Z.to_nat offset) (blocks_desc networkID t))));
  mret (mkBlock 0 (default 0 (b_num b)) (b_hash b) (default 0 (b_net b)) [] [] [] [] [] [] [] zero_time).

(** INNER JOIN sync.block ON network_id and block_id. *)
Definition block_of (d : deposit_row) (t : tables) : option block_row :=
  head (filter (λ b, b_id b = dep_BlockID (dr_dep d) ∧ b_net b = Some (dep_NetworkID (dr_dep d))) (t_block t)).

Definition block_num_upto (n : Z) (b : option block_row) : bool :=
  match b ≫= b_num with Some m => bool_decide (m ≤ n) | None => false end.

Definition GetNumberDeposits (networkID blockNumber : Z) (tx : Tx) : M database Z :=
  int8_param blockNumber;;
  n ← exec tx (select (λ t, max_or_minus1 (dep_DepositCount ∘ dr_dep <$>
        filter (λ d, dep_NetworkID (dr_dep d) = networkID ∧
                     block_num_upto blockNumber (block_of d t) = true) (t_deposit t))));
  mret (wrap32 (n + 1)).

(** ** Global exit roots *)
Definition AddTrustedGlobalExitRoot (g : GlobalExitRoot) (tx : Tx) : M database bool :=
  exitRoots ← lift_res (two_roots (ger_ExitRoots g));
  r ← exec tx (λ '(t, q), match sql_add_exit_root 0 (ger_GlobalExitRoot g) exitRoots (ger_NetworkID g) (t, q) with
                          | (Err ErrUniqueViolation, s) => (Ok false, s)   (* ON CONFLICT DO NOTHING *)
                          | (Ok _, s) => (Ok true, s)
                          | (Err e, s) => (Err e, s)
                          | (Panic p, s) => (Panic p, s)
                          end);
  mret r.

Definition allowed_roots (P : GlobalExitRoot → bool) (t : tables) : list GlobalExitRoot :=
  er_ger <$> order_desc (λ r, ger_ID (er_ger r))
    (filter (λ r, er_allowed r = true ∧ P (er_ger r) = true) (t_exit_root t)).

(** The exit roots of a row scanned as two hashes. *)
Definition scan_roots (g : GlobalExitRoot) : res (list bytes) :=
  r0 ← at_index (ger_ExitRoots g) 0; r1 ← at_index (ger_ExitRoots g) 1;
  mret [BytesToHash r0; BytesToHash r1].

Definition l1_root (o : option GlobalExitRoot) : M database GlobalExitRoot :=
  g ← not_found (scan o);
  roots ← lift_res (scan_roots g);
  mret (mkGlobalExitRoot (ger_BlockID g) 0 roots (ger_GlobalExitRoot g) 0 0 zero_time).

Definition GetLatestL1SyncedExitRoot (tx : Tx) : M database GlobalExitRoot :=
  o ← exec tx (select (λ t, head (allowed_roots (λ g,
        bool_decide (ger_BlockID g > 0) && bool_decide (ger_NetworkID g = 0)) t)));
  l1_root o.

Definition GetL1ExitRootByGER (ger : bytes) (tx : Tx) : M database GlobalExitRoot :=
  o ← exec tx (select (λ t, head (allowed_roots (λ g,
        bool_decide (ger_BlockID g > 0) && bool_decide (ger_GlobalExitRoot g = ger) &&
        bool_decide (ger_NetworkID g = 0)) t)));
  l1_root o.

Definition GetL2ExitRootsByGER (ger : bytes) (tx : Tx) : M database (list GlobalExitRoot) :=
  query tx (select (λ t,
    (λ g, mkGlobalExitRoot (ger_BlockID g) 0 [] (ger_GlobalExitRoot g) (ger_NetworkID g) (ger_ID g) zero_time) <$>
    allowed_roots (λ g, bool_decide (ger_BlockID g > 0) && bool_decide (ger_GlobalExitRoot g = ger) &&
      bool_decide (ger_NetworkID g ≠ 0) && bool_decide (length (ger_ExitRoots g) = 0%nat)) t)).

Definition UpdateL2GER (g : GlobalExitRoot) (tx : Tx) : M database unit :=
  exitRoots ← lift_res (two_roots (ger_ExitRoots g));
  exec tx (change (λ t, set_exit_root ((λ r,
    if bool_decide (ger_ID (er_ger r) = ger_ID g)
    then mkExitRootRow (set_ger_ExitRoots exitRoots (er_ger r)) (er_allowed r) else r) <$> t_exit_root t) t)).

Definition GetLatestTrustedExitRoot (networkID : Z) (tx : Tx) : M database GlobalExitRoot :=
  g ← not_found (query_row tx (λ t, head (allowed_roots (λ g, bool_decide (ger_NetworkID g = networkID)) t)));
  let g := mkGlobalExitRoot (ger_BlockID g) 0 (ger_ExitRoots g) (ger_GlobalExitRoot g)
             (ger_NetworkID g) (ger_ID g) zero_time in
  if bool_decide (length (ger_ExitRoots g) = 2%nat) then
    roots ← lift_res (scan_roots g); mret (set_ger_ExitRoots roots g)
  else
    l1GER ← not_found (GetL1ExitRootByGER (ger_GlobalExitRoot g) tx);
    mret (set_ger_ExitRoots (ger_ExitRoots l1GER) g).

Definition GetLatestExitRoot (networkID destNetwork : Z) (tx : Tx) : M database GlobalExitRoot :=
  if bool_decide (networkID = 0) then GetLatestTrustedExitRoot destNetwork tx
  else GetLatestL1SyncedExitRoot tx.

(** ** Claims and deposits *)
(** The origin of a claim: mainnet, or the rollup after its index. *)
Definition claim_from (originNetworkID : Z) (c : Claim) : bool :=
  if bool_decide (originNetworkID = 0) then clm_MainnetFlag c
  else negb (clm_MainnetFlag c) && bool_decide (clm_RollupIndex c + 1 = originNetworkID).

Definition GetClaim (depositCount originNetworkID networkID : Z) (tx : Tx) : M database Claim :=
  c ← not_found (query_row tx (λ t, head (filter (λ c,
        clm_Index c = depositCount ∧ clm_NetworkID c = networkID ∧
        claim_from originNetworkID c = true) (t_claim t))));
  mret (mkClaim (bool_decide (originNetworkID = 0)) (clm_RollupIndex c) (clm_Index c)
          (clm_OriginalNetwork c) (clm_OriginalAddress c) (clm_Amount c) (clm_DestinationAddress c)
          (clm_BlockID c) 0 (clm_NetworkID c) (clm_TxHash c) zero_time).

(** A deposit row as the queries return it; the columns they do not read keep
    their zero values. *)
Definition scan_deposit (blockNum time : Z) (contract : bytes) (d : Deposit) : Deposit :=
  mkDeposit (dep_Id d) (dep_LeafType d) (dep_OriginalNetwork d) (dep_OriginalAddress d)
    (dep_Amount d) (dep_DestinationNetwork d) (dep_DestinationAddress d) (dep_DepositCount d)
    (dep_BlockID d) blockNum (dep_NetworkID d) (dep_TxHash d) (dep_Metadata d)
    (dep_ReadyForClaim d) time zero_time contract.
Definition scan_plain (d : deposit_row) : Deposit := scan_deposit 0 zero_time zero_address (dr_dep d).
(** Rows joined with their block: with the block number, or with the time and
    the destination contract too. *)
Definition join_num (t : tables) (d : deposit_row) : option Deposit :=
  b ← block_of d t; mret (scan_deposit (default 0 (b_num b)) zero_time zero_address (dr_dep d)).
Definition join_full (t : tables) (d : deposit_row) : option Deposit :=
  b ← block_of d t;
  mret (scan_deposit (default 0 (b_num b)) (b_received_at b) (dep_DestContractAddress (dr_dep d)) (dr_dep d)).

Definition GetDeposit (depositCounterUser networkID : Z) (tx : Tx) : M database Deposit :=
  not_found (query_row tx (λ t, head (omap (join_num t)
    (filter (λ d, dep_NetworkID (dr_dep d) = networkID ∧
                  dep_DepositCount (dr_dep d) = depositCounterUser) (t_deposit t))))).

Definition newest_first : list Deposit → list Deposit := order_desc2 dep_BlockID dep_DepositCount.

Definition GetDeposits (destAddr : bytes) (limit offset : Z) (tx : Tx) : M database (list Deposit) :=
  query tx (select (λ t, page limit offset (newest_first (omap (join_num t)
    (filter (λ d, dep_DestinationAddress (dr_dep d) = destAddr) (t_deposit t)))))).

Definition GetDepositCount (destAddr : bytes) (tx : Tx) : M database Z :=
  exec tx (select (λ t, Z.of_nat (length
    (filter (λ d, dep_DestinationAddress (dr_dep d) = destAddr) (t_deposit t))))).

Definition GetClaimCount (destAddr : bytes) (tx : Tx) : M database Z :=
  exec tx (select (λ t, Z.of_nat (length
    (filter (λ c, clm_DestinationAddress c = destAddr) (t_claim t))))).

Definition GetClaims (destAddr : bytes) (limit offset : Z) (tx : Tx) : M database (list Claim) :=
  query tx (select (λ t, page limit offset (order_desc clm_BlockID
    (filter (λ c, clm_DestinationAddress c = destAddr) (t_claim t))))).

(** deposit_cnt of the deposit whose root is given, in a network. *)
Definition root_counts (root : bytes) (net : Z) (t : tables) : list Z :=
  r ← filter (λ r : root_row, r.1.1 = root ∧ r.2 = net) (t_root t);
  d ← filter (λ d, dep_Id (dr_dep d) = r.1.2) (t_deposit t);
  mret (dep_DepositCount (dr_dep d)).

Definition mark_ready (P : Deposit → bool) (time : option Z) (t : tables) : tables :=
  set_deposit ((λ d, if P (dr_dep d) then mkDepositRow (set_dep_ready true (dr_dep d))
                                            (match time with Some n => Some n | None => dr_ready_time d end)
                     else d) <$> t_deposit t) t.

(** The rows an UPDATE ... WHERE deposit_cnt <= (subquery) selects: none when
    the subquery is empty, an error when it has several rows. *)
Definition upto_subquery (counts : list Z) (P : Z → Deposit → bool) : res (Deposit → bool) :=
  match counts with
  | [] => Ok (λ _, false)
  | [n] => Ok (P n)
  | _ => Err (ErrExternal 21000)   (* cardinality_violation *)
  end.

Definition sql_update_status (counts : tables → list Z) (P : Z → Deposit → bool) (time : option Z)
  : SQL (list deposit_row) :=
  t ← select id;
  sel ← lift_res (upto_subquery (counts t) P);
  change (mark_ready sel time);;
  mret ((λ d, mkDepositRow (set_dep_ready true (dr_dep d)) (dr_ready_time d)) <$>
        filter (λ d, sel (dr_dep d) = true) (t_deposit t)).

Definition UpdateL1DepositsStatus (exitRoot : bytes) (destinationNetwork : Z) (tx : Tx)
  : M database (list Deposit) :=
  rows ← query tx (sql_update_status (root_counts exitRoot 0)
    (λ n d, bool_decide (dep_DepositCount d ≤ n) && bool_decide (dep_NetworkID d = 0) &&
            negb (dep_ReadyForClaim d) && bool_decide (dep_DestinationNetwork d = destinationNetwork)) None);
  mret (scan_plain <$> rows).

(** The leaf of a rollup under an exit root; several leaves are an error of the
    subquery. *)
Definition rollup_leaves (exitRoot : bytes) (rollupID : Z) (t : tables) : list bytes :=
  rel_Leaf <$> filter (λ l, rel_Root l = exitRoot ∧ rel_RollupId l = rollupID) (t_rollup_exit t).

Definition sql_update_l2_status (exitRoot : bytes) (rollupID networkID : Z) (time : option Z)
  : SQL (list deposit_row) :=
  t ← select id;
  match rollup_leaves exitRoot rollupID t with
  | _ :: _ :: _ => throw (ErrExternal 21000)
  | leaves =>
      sql_update_status (λ t, leaf ← leaves; root_counts leaf networkID t)
        (λ n d, bool_decide (dep_DepositCount d ≤ n) && bool_decide (dep_NetworkID d = networkID) &&
                negb (dep_ReadyForClaim d)) time
  end.

Definition UpdateL2DepositsStatus (exitRoot : bytes) (rollupID networkID : Z) (tx : Tx) : M database unit :=
  exec tx (sql_update_l2_status exitRoot rollupID networkID None);; mret tt.

(** *** The X Layer variants return the deposits joined with their blocks and
    record when they became ready. *)
Definition UpdateL1DepositsStatusXLayer (exitRoot : bytes) (tx : Tx) : M database (list Deposit) :=
  time ← now;
  query tx (rows ← sql_update_status (root_counts exitRoot 0)
             (λ n d, bool_decide (dep_DepositCount d ≤ n) && bool_decide (dep_NetworkID d = 0) &&
                     negb (dep_ReadyForClaim d)) (Some time);
           t ← select id;
           mret (omap (join_full t) rows)).

Definition drop_contract (d : Deposit) : Deposit := set_dep_DestContract zero_address d.

Definition UpdateL2DepositsStatusXLayer (exitRoot : bytes) (rollupID networkID : Z) (tx : Tx)
  : M database (list Deposit) :=
  time ← now;
  query tx (rows ← sql_update_l2_status exitRoot rollupID networkID (Some time);
           t ← select id;
           mret (drop_contract <$> omap (join_full t) rows)).

Definition UpdateL1DepositStatus (depositCount : Z) (tx : Tx) : M database unit :=
  time ← now;
  exec tx (change (mark_ready (λ d, bool_decide (dep_DepositCount d = depositCount) &&
                                    bool_decide (dep_NetworkID d = 0)) (Some time))).

Definition GetL1Deposits (exitRoot : bytes) (tx : Tx) : M database (list Deposit) :=
  query tx (t ← select id;
           sel ← lift_res (upto_subquery (root_counts exitRoot 0 t)
             (λ n d, bool_decide (dep_DepositCount d ≤ n) && bool_decide (dep_NetworkID d = 0) &&
                     negb (dep_ReadyForClaim d)));
           mret (omap (join_full t) (filter (λ d, sel (dr_dep d) = true) (t_deposit t)))).

(** ** The exit trees *)

(** Any other error than an empty result is dropped and the count is 0. *)
Definition GetDepositCountByRoot (root : bytes) (network : Z) (tx : Tx) : M database Z :=
  r ← attempt (query_row tx (λ t, head (root_counts root network t)));
  match r with
  | inl n => mret n
  | inr err => if errors_Is err ErrNoRows then throw ErrStorageNotFound else mret 0
  end.

Definition CheckIfRootExists (root : bytes) (network : Z) (tx : Tx) : M database bool :=
  r ← attempt (exec tx (select (λ t,
        Z.of_nat (length (filter (λ r : root_row, r.1.1 = root ∧ r.2 = network) (t_root t))))));
  match r with
  | inl count => mret (negb (bool_decide (count = 0)))
  | inr err => if errors_Is err ErrNoRows then throw ErrStorageNotFound else mret false
  end.

Definition GetRoot (depositCnt network : Z) (tx : Tx) : M database bytes :=
  not_found (query_row tx (λ t, head (
    r ← filter (λ r : root_row, r.2 = network) (t_root t);
    d ← filter (λ d, dep_Id (dr_dep d) = r.1.2 ∧ dep_DepositCount (dr_dep d) = depositCnt) (t_deposit t);
    [r.1.1]))).

Definition sql_set_root (root : bytes) (depositID network : Z) : SQL unit :=
  t ← select id;
  require (negb (existsb (λ r : root_row, bool_decide (r.1.2 = depositID)) (t_root t))) ErrUniqueViolation;;
  require (deposit_exists depositID t) ErrForeignKey;;
  change (λ t, set_root (t_root t ++ [(root, depositID, network)]) t).
Definition SetRoot (root : bytes) (depositID network : Z) (tx : Tx) : M database unit :=
  exec tx (sql_set_root root depositID network).

Definition Get (key : bytes) (tx : Tx) : M database (list bytes) :=
  not_found (query_row tx (λ t, head ((λ r : node_row, r.1.2) <$>
    filter (λ r : node_row, r.1.1 = key) (t_rht t)))).

Definition rht_keys (rows : list node_row) : list (bytes * Z) := (λ r : node_row, (r.1.1, r.2)) <$> rows.
Definition sql_bulk_set (rows : list node_row) : SQL unit :=
  t ← select id;
  require (bool_decide (NoDup (rht_keys (t_rht t ++ rows)))) ErrUniqueViolation;;
  require (forallb (λ r : node_row, deposit_exists r.2 t) rows) ErrForeignKey;;
  change (λ t, set_rht (t_rht t ++ rows) t).
Definition Set_ (key : bytes) (value : list bytes) (depositID : Z) (tx : Tx) : M database unit :=
  int8_param depositID;;
  exec tx (sql_bulk_set [(key, value, depositID)]).
Definition BulkSet (rows : list node_row) (tx : Tx) : M database unit := exec tx (sql_bulk_set rows).

(** COPY into mt.rollup_exit: ids from the sequence, in order. *)
Fixpoint number_leaves (id : Z) (rows : list (bytes * Z * bytes * Z)) : list RollupExitLeaf :=
  match rows with
  | [] => []
  | (leaf, rollupId, root, blockID) :: rows =>
      mkRollupExitLeaf id blockID leaf rollupId root :: number_leaves (id + 1) rows
  end.
Definition sql_add_rollup_leaves (rows : list (bytes * Z * bytes * Z)) : SQL unit := λ '(t, q),
  let leaves := number_leaves (sq_rollup_exit q + 1) rows in
  let q := mkSequences (sq_block q) (sq_exit_root q) (sq_deposit q)
             (sq_rollup_exit q + Z.of_nat (length rows)) (sq_remove q) in
  if forallb (λ r : bytes * Z * bytes * Z, block_exists r.2 t) rows
  then (Ok tt, (set_rollup_exit (t_rollup_exit t ++ leaves) t, q))
  else (Err ErrForeignKey, (t, q)).
Definition AddRollupExitLeaves (rows : list (bytes * Z * bytes * Z)) (tx : Tx) : M database unit :=
  exec tx (sql_add_rollup_leaves rows).

Definition GetRollupExitLeavesByRoot (root : bytes) (tx : Tx) : M database (list RollupExitLeaf) :=
  query tx (select (λ t, order_asc rel_RollupId (filter (λ l, rel_Root l = root) (t_rollup_exit t)))).

Definition IsRollupExitRoot (root : bytes) (tx : Tx) : M database bool :=
  count ← not_found (exec tx (select (λ t,
    Z.of_nat (length (filter (λ l, rel_Root l = root) (t_rollup_exit t))))));
  mret (bool_decide (count > 0)).

(** The row with the greatest id of its rollup. *)
Definition is_latest_leaf (all : list RollupExitLeaf) (l : RollupExitLeaf) : bool :=
  forallb (λ l', negb (bool_decide (rel_RollupId l' = rel_RollupId l)) || bool_decide (rel_ID l' ≤ rel_ID l)) all.
Definition GetLatestRollupExitLeaves (tx : Tx) : M database (list RollupExitLeaf) :=
  query tx (select (λ t, order_asc rel_RollupId
    (filter (λ l, is_latest_leaf (t_rollup_exit t) l = true) (t_rollup_exit t)))).

(** An error of the query is dropped: the count is then 0. *)
Definition GetLastDepositCount (networkID : Z) (tx : Tx) : M database Z :=
  r ← attempt (exec tx (select (λ t,
        let last := max_or_minus1 ((λ r : root_row, r.1.2) <$>
                      filter (λ r : root_row, r.2 = networkID) (t_root t)) in
        max_or_minus1 (dep_DepositCount ∘ dr_dep <$>
                       filter (λ d, dep_Id (dr_dep d) = last) (t_deposit t)))));
  match r with
  | inr err => mret 0
  | inl depositCnt => if bool_decide (depositCnt < 0) then throw ErrStorageNotFound
                      else mret (wrap32 depositCnt)
  end.

#[global] Instance pgStore : merkleTreeStore database := {|
  st_Get := Get;
  st_BulkSet := BulkSet;
  st_GetRoot := GetRoot;
  st_SetRoot := SetRoot;
  st_GetLastDepositCount := GetLastDepositCount;
  st_AddRollupExitLeaves := AddRollupExitLeaves;
  st_GetRollupExitLeavesByRoot := GetRollupExitLeavesByRoot;
  st_GetLatestRollupExitLeaves := GetLatestRollupExitLeaves;
  st_IsRollupExitRoot := IsRollupExitRoot;
|}.

(** ** Deposits to claim *)

(** index NOT IN the claims of the network, whatever their origin. *)
Definition not_claimed_index (net : Z) (t : tables) (d : Deposit) : bool :=
  negb (existsb (λ c, bool_decide (clm_Index c = dep_DepositCount d ∧ clm_NetworkID c = net)) (t_claim t)).

Definition GetDepositsFromOtherL2ToClaim (destinationNetwork : Z) (tx : Tx) : M database (list Deposit) :=
  query tx (select (λ t, order_desc dep_Id (scan_plain <$>
    filter (λ d, not_claimed_index destinationNetwork t (dr_dep d) = true ∧
                 dep_NetworkID (dr_dep d) ≠ 0 ∧ dep_DestinationNetwork (dr_dep d) = destinationNetwork ∧
                 dep_ReadyForClaim (dr_dep d) = true) (t_deposit t)))).

Definition pending_to_claim (destAddress : bytes) (destNetwork leafType : Z) (t : tables)
  : list deposit_row :=
  filter (λ d, dep_DestinationNetwork (dr_dep d) = destNetwork ∧ dep_ReadyForClaim (dr_dep d) = true ∧
               dep_LeafType (dr_dep d) = leafType ∧
               (destAddress = zero_address ∨ dep_DestinationAddress (dr_dep d) = destAddress) ∧
               not_claimed_index destNetwork t (dr_dep d) = true) (t_deposit t).
(** Joined with sync.block on the id only. *)
Definition join_num_by_id (t : tables) (d : deposit_row) : option Deposit :=
  b ← head (filter (λ b, b_id b = dep_BlockID (dr_dep d)) (t_block t));
  mret (scan_deposit (default 0 (b_num b)) zero_time zero_address (dr_dep d)).

Definition GetPendingDepositsToClaim (destAddress : bytes) (destNetwork leafType limit offset : Z)
    (tx : Tx) : M database (list Deposit * Z) :=
  totalCount ← exec tx (select (λ t, Z.of_nat (length (pending_to_claim destAddress destNetwork leafType t))));
  deposits ← query tx (select (λ t, page limit offset (order_asc dep_DepositCount
    (omap (join_num_by_id t) (pending_to_claim destAddress destNetwork leafType t)))));
  mret (deposits, totalCount).

Definition exit_root_nth (n : nat) (g : GlobalExitRoot) : option bytes := ger_ExitRoots g !! (n - 1)%nat.

Definition GetLatestTrustedGERByDeposit (depositCnt networkID destinationNetwork : Z) (tx : Tx)
  : M database bytes :=
  not_found (query_row tx (λ t, head (ger_GlobalExitRoot <$> order_desc ger_ID (
    d ← filter (λ d, dep_DepositCount (dr_dep d) = depositCnt ∧ dep_NetworkID (dr_dep d) = networkID ∧
                     dep_DestinationNetwork (dr_dep d) = destinationNetwork) (t_deposit t);
    r ← filter (λ r : root_row, r.1.2 = dep_Id (dr_dep d)) (t_root t);
    l ← filter (λ l, rel_Leaf l = r.1.1 ∧ rel_RollupId l = networkID) (t_rollup_exit t);
    g ← filter (λ g, er_allowed g = true ∧ exit_root_nth 2 (er_ger g) = Some (rel_Root l) ∧
                     ger_NetworkID (er_ger g) = destinationNetwork) (t_exit_root t);
    [er_ger g])))).

Definition GetDepositCountByGER (ger : bytes) (network : Z) (rollupsTree : bool) (tx : Tx)
  : M database (Z * Z) :=
  let arrayIndex := if rollupsTree then 2%nat else 1%nat in
  let rootNetwork := if rollupsTree then network else 0 in
  not_found (query_row tx (λ t, head (
    d ← t_deposit t;
    r ← filter (λ r : root_row, r.1.2 = dep_Id (dr_dep d) ∧ r.2 = rootNetwork) (t_root t);
    g ← filter (λ g, exit_root_nth arrayIndex (er_ger g) = Some r.1.1 ∧
                     ger_GlobalExitRoot (er_ger g) = ger ∧ ger_NetworkID (er_ger g) = network) (t_exit_root t);
    [(dep_Id (dr_dep d), dep_DepositCount (dr_dep d))]))).

Definition sql_add_remove (blockID : Z) (ger : bytes) (net : Z) : SQL unit := λ '(t, q),
  let id := sq_remove q + 1 in
  let q := mkSequences (sq_block q) (sq_exit_root q) (sq_deposit q) (sq_rollup_exit q) id in
  if block_exists blockID t
  then (Ok tt, (set_remove (t_remove t ++ [mkRemoveRow id blockID ger net]) t, q))
  else (Err ErrForeignKey, (t, q)).

(** UPDATE ... SET allowed = false ... RETURNING id: the first id. *)
Definition sql_disallow (ger : bytes) (net : Z) : SQL (option Z) :=
  t ← select id;
  let P r := bool_decide (ger_GlobalExitRoot (er_ger r) = ger ∧ ger_NetworkID (er_ger r) = net) in
  change (λ t, set_exit_root ((λ r, if P r then mkExitRootRow (er_ger r) false else r) <$> t_exit_root t) t);;
  mret (head (ger_ID ∘ er_ger <$> filter (λ r, P r = true) (t_exit_root t))).

Definition MaxUint64 : Z := 2 ^ 64 - 1.

Definition sql_unready (lo hi dest : Z) (t : tables) : tables :=
  set_deposit ((λ d, if bool_decide (lo < dep_Id (dr_dep d) ∧ dep_Id (dr_dep d) ≤ hi ∧
                                     dep_NetworkID (dr_dep d) = 0 ∧ dep_DestinationNetwork (dr_dep d) = dest)
                     then mkDepositRow (set_dep_ready false (dr_dep d)) (dr_ready_time d) else d)
               <$> t_deposit t) t.

(** The deposit of a global exit root, or a default when there is none. *)
Definition deposit_of_ger (ger : bytes) (network dflt : Z) (tx : Tx) : M database Z :=
  r ← attempt (GetDepositCountByGER ger network false tx);
  match r with
  | inl (id, _) => mret id
  | inr err => if errors_Is err ErrStorageNotFound then mret dflt else throw err
  end.

Definition AddRemoveL2GER (g : GlobalExitRoot) (tx : Tx) : M database unit :=
  int8_param (ger_BlockID g);;
  exec tx (sql_add_remove (ger_BlockID g) (ger_GlobalExitRoot g) (ger_NetworkID g));;
  o ← exec tx (sql_disallow (ger_GlobalExitRoot g) (ger_NetworkID g));
  gerID ← scan o;
  prevGer ← query_row tx (λ t, head (ger_GlobalExitRoot ∘ er_ger <$>
    order_desc (λ r, ger_ID (er_ger r))
      (filter (λ r, ger_NetworkID (er_ger r) = ger_NetworkID g ∧ ger_ID (er_ger r) < gerID) (t_exit_root t))));
  prevDepositID ← deposit_of_ger prevGer (ger_NetworkID g) 0 tx;
  currentDepositID ← deposit_of_ger (ger_GlobalExitRoot g) (ger_NetworkID g) MaxUint64 tx;
  int8_param prevDepositID;;
  int8_param currentDepositID;;
  exec tx (change (sql_unready prevDepositID currentDepositID (ger_NetworkID g))).

(** ** Monitored transactions *)

(** A row of sync.monitored_txs; the gas price is not a column. *)
Definition monitored_row (m : MonitoredTx) (created updated : Z) : MonitoredTx :=
  mkMonitoredTx (mtx_DepositID m) (mtx_From m) (mtx_To m) (mtx_Nonce m) (mtx_Value m) (mtx_Data m)
    (mtx_Gas m) None (mtx_Status m) (mtx_History m) created updated (mtx_GroupID m) (mtx_GlobalExitRoot m).

Definition mtx_params (m : MonitoredTx) : M database unit :=
  int8_param (mtx_DepositID m);; int8_param (mtx_Nonce m);; int8_param (mtx_Gas m);;
  int8_param (default 0 (mtx_GroupID m)).

Definition AddClaimTx (mTx : MonitoredTx) (tx : Tx) : M database unit :=
  mtx_params mTx;;
  time ← now;
  exec tx (t ← select id;
           require (negb (existsb (λ r, bool_decide (mtx_DepositID r = mtx_DepositID mTx)) (t_monitored t)))
             ErrUniqueViolation;;
           change (λ t, set_monitored (t_monitored t ++ [monitored_row mTx time time]) t)).

Definition UpdateClaimTx (mTx : MonitoredTx) (tx : Tx) : M database unit :=
  mtx_params mTx;;
  time ← now;
  exec tx (change (λ t, set_monitored ((λ r,
    if bool_decide (mtx_DepositID r = mtx_DepositID mTx)
    then mkMonitoredTx (mtx_DepositID r) (mtx_From mTx) (mtx_To mTx) (mtx_Nonce mTx) (mtx_Value mTx)
           (mtx_Data mTx) (mtx_Gas mTx) None (mtx_Status mTx) (mtx_History mTx) (mtx_CreatedAt r) time
           (mtx_GroupID mTx) (mtx_GlobalExitRoot r)
    else r) <$> t_monitored t) t)).

Definition deposit_dest (id net : Z) (t : tables) : bool :=
  existsb (λ d, bool_decide (dep_Id (dr_dep d) = id ∧ dep_DestinationNetwork (dr_dep d) = net)) (t_deposit t).

Definition GetClaimTxsByStatus (statuses : list MonitoredTxStatus) (rollupID : Z) (tx : Tx)
  : M database (list MonitoredTx) :=
  query tx (select (λ t, order_asc mtx_CreatedAt
    (filter (λ m, mtx_Status m ∈ statuses ∧ deposit_dest (mtx_DepositID m) rollupID t = true) (t_monitored t)))).

(** The X Layer queries do not read the group and the global exit root. *)
Definition without_group (m : MonitoredTx) : MonitoredTx :=
  mkMonitoredTx (mtx_DepositID m) (mtx_From m) (mtx_To m) (mtx_Nonce m) (mtx_Value m) (mtx_Data m)
    (mtx_Gas m) None (mtx_Status m) (mtx_History m) (mtx_CreatedAt m) (mtx_UpdatedAt m) None zero_hash.

Definition GetClaimTxsByStatusWithLimit (statuses : list MonitoredTxStatus) (limit offset : Z) (tx : Tx)
  : M database (list MonitoredTx) :=
  query tx (select (λ t, without_group <$> page limit offset (order_desc mtx_CreatedAt
    (filter (λ m, mtx_Status m ∈ statuses) (t_monitored t))))).

Definition GetClaimTxById (id : Z) (tx : Tx) : M database MonitoredTx :=
  not_found (query_row tx (λ t, head (without_group <$>
    filter (λ m, mtx_DepositID m = id) (t_monitored t)))).

(** ** Groups of monitored transactions *)
Class Json := {
  Marshal : TxHistoryV2 → option string;
  Unmarshal : string → option TxHistoryV2;
}.
Definition ErrJson : error := ErrExternal 2.

Section Groups.
Context {J : Json}.

(** [ToJson] and [NewTxHistoryV2FromJson]: a nil history is the empty string. *)
Definition ToJson (h : option TxHistoryV2) : res string :=
  match h with
  | None => Ok ""
  | Some h => match Marshal h with Some s => Ok s | None => Err ErrJson end
  end.
Definition NewTxHistoryV2FromJson (s : string) : res (option TxHistoryV2) :=
  if bool_decide (s = "") then Ok None
  else match Unmarshal s with Some h => Ok (Some h) | None => Err ErrJson end.

Definition GetLatestMonitoredTxGroupID (tx : Tx) : M database Z :=
  o ← exec tx (select (λ t, head (order_desc id (grp_GroupID ∘ gr_group <$> t_groups t))));
  mret (default 0 o).

Definition history_json (h : option TxHistoryV2) : M database string :=
  map_err (ErrorfW "fails to convert claimTxHistory to json. Err: %w") (lift_res (ToJson h)).

Definition AddMonitoredTxsGroup (g : option MonitoredTxGroupDBEntry) (tx : Tx) : M database unit :=
  match g with
  | None => throw (Errorf "nil monitored tx group" [])
  | Some g =>
      str ← history_json (grp_ClaimTxHistory g);
      int8_param (grp_GroupID g);;
      exec tx (t ← select id;
               require (negb (existsb (λ r, bool_decide (grp_GroupID (gr_group r) = grp_GroupID g)) (t_groups t)))
                 ErrUniqueViolation;;
               change (λ t, set_groups (t_groups t ++
                 [mkGroupRow (mkMonitoredTxGroupDBEntry (grp_GroupID g) (grp_Status g) (grp_DepositIDs g)
                    (grp_CompressedTxData g) None (grp_CreatedAt g) (grp_UpdatedAt g) (grp_NumRetries g) "") str]) t))
  end.

Definition UpdateMonitoredTxsGroup (g : option MonitoredTxGroupDBEntry) (tx : Tx) : M database unit :=
  match g with
  | None => throw (Errorf "nil monitored tx group" [])
  | Some g =>
      str ← history_json (grp_ClaimTxHistory g);
      int8_param (grp_GroupID g);;
      exec tx (change (λ t, set_groups ((λ r,
        if bool_decide (grp_GroupID (gr_group r) = grp_GroupID g)
        then mkGroupRow (mkMonitoredTxGroupDBEntry (grp_GroupID g) (grp_Status g)
               (grp_DepositIDs (gr_group r)) (grp_CompressedTxData g) None (grp_CreatedAt (gr_group r))
               (grp_UpdatedAt g) (grp_NumRetries g) (grp_LastLog g)) str
        else r) <$> t_groups t) t))
  end.

Fixpoint scan_groups (rows : list group_row) : res (gmap Z MonitoredTxGroupDBEntry) :=
  match rows with
  | [] => Ok ∅
  | r :: rows =>
      h ← (match NewTxHistoryV2FromJson (gr_history r) with
           | Err e => Err (ErrorfW "fails to convert claimTxHistory from json. Err: %w" e)
           | x => x
           end);
      m ← scan_groups rows;
      let g := gr_group r in
      mret (if bool_decide (is_Some (m !! grp_GroupID g)) then m
            else <[grp_GroupID g := mkMonitoredTxGroupDBEntry (grp_GroupID g) (grp_Status g) []
                   (grp_CompressedTxData g) h (grp_CreatedAt g) (grp_UpdatedAt g) (grp_NumRetries g) ""]> m)
  end.
Definition GetMonitoredTxsGroups (groupIds : list Z) (tx : Tx)
  : M database (gmap Z MonitoredTxGroupDBEntry) :=
  rows ← query tx (select (λ t, order_asc (grp_CreatedAt ∘ gr_group)
           (filter (λ r, grp_GroupID (gr_group r) ∈ groupIds) (t_groups t))));
  lift_res (scan_groups rows).
End Groups.

(** ** The lists of the X Layer endpoints *)

Definition ErrScan (columns : nat) : error :=
  Errorf "number of field descriptions must equal number of destinations, got %d and %d"
    [Z.of_nat columns; 16].

(** [getDepositList] scans 16 columns: a query that returns another number of
    columns fails on its first row. *)
Definition getDepositList (columns : nat) (f : tables → list Deposit) (tx : Tx) : M database (list Deposit) :=
  rows ← query tx (select f);
  match rows with
  | [] => mret []
  | _ => if bool_decide (columns = 16%nat) then mret rows else throw (ErrScan columns)
  end.

Definition user_deposits (destAddr : bytes) (allow : list bytes) (rollup : Z) (d : Deposit) : bool :=
  bool_decide (dep_DestinationAddress d = destAddr) &&
  (bool_decide (dep_LeafType d = 0) ||
   (bool_decide (dep_LeafType d = 1) && bool_decide (dep_OriginalAddress d ∈ allow))) &&
  (bool_decide (dep_NetworkID d = rollup) || bool_decide (dep_DestinationNetwork d = rollup)).

Definition claimed_at_dest (t : tables) (d : Deposit) : bool :=
  existsb (λ c, bool_decide (clm_Index c = dep_DepositCount d ∧ clm_NetworkID c = dep_DestinationNetwork d))
    (t_claim t).

Definition list_full (P : tables → deposit_row → bool) (t : tables) : list Deposit :=
  newest_first (omap (join_full t) (filter (λ d, P t d = true) (t_deposit t))).

(** [rollup] is the network id of the rollup the process serves. *)
Definition GetDepositsXLayer (destAddr : bytes) (limit offset : Z) (allow : list bytes) (rollup : Z) (tx : Tx)
  : M database (list Deposit) :=
  getDepositList 16 (λ t, page limit offset (list_full (λ _ d, user_deposits destAddr allow rollup (dr_dep d)) t)) tx.

Definition GetPendingTransactions (destAddr : bytes) (limit offset : Z) (allow : list bytes) (rollup : Z) (tx : Tx)
  : M database (list Deposit) :=
  getDepositList 16 (λ t, page limit offset (list_full (λ t d,
    user_deposits destAddr allow rollup (dr_dep d) && negb (claimed_at_dest t (dr_dep d))) t)) tx.

Definition GetNotReadyTransactions (limit offset rollup : Z) (tx : Tx) : M database (list Deposit) :=
  getDepositList 15 (λ t, page limit offset (list_full (λ _ d,
    negb (dep_ReadyForClaim (dr_dep d)) &&
    (bool_decide (dep_NetworkID (dr_dep d) = rollup) || bool_decide (dep_DestinationNetwork (dr_dep d) = rollup))) t)) tx.

Definition ready_since (time : Z) (d : deposit_row) : bool :=
  match dr_ready_time d with Some n => bool_decide (n >= time) | None => false end.

Definition GetReadyPendingTransactions (networkID limit offset minReadyTime rollup : Z) (tx : Tx)
  : M database (list Deposit) :=
  getDepositList 16 (λ t, page limit offset (list_full (λ t d,
    bool_decide (dep_NetworkID (dr_dep d) = networkID) && dep_ReadyForClaim (dr_dep d) &&
    ready_since minReadyTime d &&
    (bool_decide (dep_NetworkID (dr_dep d) = rollup) || bool_decide (dep_DestinationNetwork (dr_dep d) = rollup)) &&
    negb (claimed_at_dest t (dr_dep d))) t)) tx.

Definition block_in (lo hi : Z) (b : option block_row) : bool :=
  match b ≫= b_num with Some n => bool_decide (lo ≤ n ∧ n ≤ hi) | None => false end.

Definition GetNotReadyTransactionsWithBlockRange (networkID minBlockNum maxBlockNum limit offset : Z) (tx : Tx)
  : M database (list Deposit) :=
  int8_param minBlockNum;; int8_param maxBlockNum;;
  query tx (select (λ t, page limit offset (list_full (λ t d,
    bool_decide (dep_NetworkID (dr_dep d) = networkID) && negb (dep_ReadyForClaim (dr_dep d)) &&
    block_in minBlockNum maxBlockNum (block_of d t)) t))).

Definition GetDepositByHash (destAddr : bytes) (networkID : Z) (txHash : bytes) (tx : Tx) : M database Deposit :=
  d ← not_found (query_row tx (λ t, head (omap (join_full t)
        (filter (λ d, dep_DestinationAddress (dr_dep d) = destAddr ∧ dep_NetworkID (dr_dep d) = networkID ∧
                      dep_TxHash (dr_dep d) = txHash) (t_deposit t)))));
  mret (set_dep_Id 0 (set_dep_Time zero_time d)).

Definition set_dep_ReadyTime (n : Z) (d : Deposit) : Deposit :=
  mkDeposit (dep_Id d) (dep_LeafType d) (dep_OriginalNetwork d) (dep_OriginalAddress d)
    (dep_Amount d) (dep_DestinationNetwork d) (dep_DestinationAddress d) (dep_DepositCount d)
    (dep_BlockID d) (dep_BlockNumber d) (dep_NetworkID d) (dep_TxHash d) (dep_Metadata d)
    (dep_ReadyForClaim d) (dep_Time d) n (dep_DestContractAddress d).

Definition GetLatestReadyDeposits (networkID limit : Z) (tx : Tx) : M database (list Deposit) :=
  query tx (select (λ t, page limit 0 (order_desc dep_DepositCount (omap (λ d,
    time ← dr_ready_time d; full ← join_full t d; mret (set_dep_ReadyTime time full))
    (filter (λ d, dep_NetworkID (dr_dep d) = networkID ∧ dep_ReadyForClaim (dr_dep d) = true) (t_deposit t)))))).

(** ** Balances *)
Definition GetBridgeBalance (originalTokenAddr : bytes) (networkID : Z) (forUpdate : bool) (tx : Tx)
  : M database Z :=
  o ← exec tx (select (λ t, head (bal_balance <$>
        filter (λ r, bal_addr r = originalTokenAddr ∧ bal_net r = networkID) (t_balance t))));
  mret (default 0 o).

Definition is_balance (addr : bytes) (net : Z) (r : balance_row) : bool :=
  bool_decide (bal_addr r = addr ∧ bal_net r = net).
Definition SetBridgeBalance (originalTokenAddr : bytes) (networkID balance : Z) (tx : Tx) : M database unit :=
  exec tx (change (λ t, set_balance
    (if existsb (is_balance originalTokenAddr networkID) (t_balance t)
     then (λ r, if is_balance originalTokenAddr networkID r
                then mkBalanceRow (bal_addr r) (bal_net r) balance else r) <$> t_balance t
     else t_balance t ++ [mkBalanceRow originalTokenAddr networkID balance]) t)).
