(* ===== verification/StorageFacts.v ===== *)
(** * Facts about the storage

    The PostgreSQL tables implement the store of the exit trees, keep the
    constraints of the schema, and change atomically. *)
From S2P Require Import Prelude Types MerkleStore MonitoredTx Tables Storage.

(** ** Running a statement *)
Lemma not_found_ok {A} (m : M database A) db a db' :
  not_found m db = (Ok a, db') → m db = (Ok a, db').
Proof. unfold not_found, map_err. by destruct (m db) as [[]]. Qed.
Lemma not_found_run {A} (m : M database A) db a db' :
  m db = (Ok a, db') → not_found m db = (Ok a, db').
Proof. unfold not_found, map_err. by intros ->. Qed.

(** What a page and an ordered list hold. *)
Lemma elem_of_page {A} limit offset (l : list A) x : x ∈ page limit offset l → x ∈ l.
Proof. unfold page. intros H. eapply subseteq_drop, subseteq_take, H. Qed.
Lemma elem_of_order_asc {A} key (l : list A) x : x ∈ order_asc key l → x ∈ l.
Proof. unfold order_asc. by rewrite merge_sort_Permutation. Qed.

(** A query leaves what it read. *)
Lemma select_ok {A} tx (f : tables → A) db a db' :
  exec tx (select f) db = (Ok a, db') →
  a = f (view tx db) ∧ view tx db' = view tx db ∧ db_seqs db' = db_seqs db ∧
  (db_live tx db → db_live tx db').
Proof.
  intros H. destruct (exec_ok _ _ _ _ _ H) as (q' & Hm & Hq & _ & _ & _ & _ & Hl).
  injection Hm as <- <- <-. done.
Qed.
Lemma select_live {A} tx (f : tables → A) db :
  db_live tx db → ∃ db', exec tx (select f) db = (Ok (f (view tx db)), db').
Proof. intros H. eapply exec_live; done. Qed.

(** A query whose rows are read in a loop: on a live connection all of them,
    otherwise the first ones. *)
Lemma query_rows {A} tx (f : tables → list A) db l db' :
  query tx (select f) db = (Ok l, db') → ∃ n, l = take n (f (view tx db)).
Proof.
  intros (r0 & He & H)%query_exec. destruct r0 as [l0|e|p]; [| |done].
  - injection H as <-. apply select_ok in He as (-> & _). exists (length (f (view tx db))).
    by rewrite take_ge.
  - destruct H as [[_ ?]|(l0 & Hr & [= <-])]; [done|]. unfold received in Hr. cbn in Hr.
    repeat case_match; simplify_eq; solve [by exists 0%nat | by eexists].
Qed.
Lemma query_run {A} tx (m : SQL (list A)) db l db' : exec tx m db = (Ok l, db') → query tx m db = (Ok l, db').
Proof. unfold query. by intros ->. Qed.
Lemma query_ok {A} tx (f : tables → list A) db l db' :
  db_live tx db → query tx (select f) db = (Ok l, db') →
  l = f (view tx db) ∧ view tx db' = view tx db ∧ db_seqs db' = db_seqs db ∧ db_live tx db'.
Proof.
  intros Hl H. destruct (query_live tx (select f) db _ _ _ Hl eq_refl) as (db1 & E & Hq).
  rewrite Hq in H. injection H as <- <-. apply select_ok in E as (_ & ? & ? & ?). auto.
Qed.
Lemma query_select_live {A} tx (f : tables → list A) db :
  db_live tx db → ∃ db', query tx (select f) db = (Ok (f (view tx db)), db').
Proof. intros H. destruct (query_live tx (select f) db _ _ _ H eq_refl) as (db' & _ & E). eauto. Qed.

(** A read never panics. *)
Lemma select_no_panic {A} tx (f : tables → A) db p db' : exec tx (select f) db ≠ (Panic p, db').
Proof.
  unfold exec, pop_fault, mbind, M_bind. destruct db as [tb otx q lk fs nw]. cbn.
  destruct fs as [|[c|] fs], tx; cbn; unfold run_tx; cbn; (done || by destruct otx as [[t []]|]).
Qed.
Lemma query_no_panic {A} tx (f : tables → list A) db p db' : query tx (select f) db ≠ (Panic p, db').
Proof.
  intros (r0 & He & H)%query_exec. destruct r0 as [l|e|p']; [done| |by apply select_no_panic in He].
  by destruct H as [[_ ?]|(l & _ & ?)].
Qed.

Lemma query_row_ok {A} tx (f : tables → option A) db a db' :
  query_row tx f db = (Ok a, db') →
  f (view tx db) = Some a ∧ view tx db' = view tx db ∧ db_seqs db' = db_seqs db ∧
  (db_live tx db → db_live tx db').
Proof.
  unfold query_row. intros H. inv_bind H. apply select_ok in H0 as (-> & Hv & Hq & Hl).
  destruct (f (view tx db)); [|done]. by injection H1 as -> <-.
Qed.
Lemma query_row_live {A} tx (f : tables → option A) db a :
  db_live tx db → f (view tx db) = Some a → ∃ db', query_row tx f db = (Ok a, db').
Proof.
  intros Hl Hf. destruct (select_live tx f db Hl) as [db' E]. exists db'.
  unfold query_row. rewrite (M_bind_ok _ _ _ _ _ E), Hf. done.
Qed.

(** Outside a transaction an answer that nothing was found is one of the tables. *)
Lemma not_found_row {A} (f : tables → option A) db db' :
  not_found (query_row nil_tx f) db = (Err ErrStorageNotFound, db') → f (db_committed db) = None.
Proof.
  destruct db as [tb otx q lk fs nw]. unfold not_found, map_err, query_row, exec, pop_fault, mbind, M_bind.
  destruct fs as [|[[code|n code]|] fs]; cbn; try done; by destruct (f tb).
Qed.

(** ** Properties every computation preserves *)
Definition preserves {S} (P : S → Prop) {A} (m : M S A) : Prop :=
  ∀ s r s', P s → m s = (r, s') → P s'.

Create HintDb pres.

Section Preserves.
Context {S : Type} (P : S → Prop).
Lemma pres_ret {A} (a : A) : preserves P (mret a : M S A).
Proof. intros s r s' H [= <- <-]. done. Qed.
Lemma pres_throw {A} e : preserves P (throw e : M S A).
Proof. intros s r s' H [= <- <-]. done. Qed.
Lemma pres_panic {A} p : preserves P (gopanic p : M S A).
Proof. intros s r s' H [= <- <-]. done. Qed.
Lemma pres_lift {A} (r0 : res A) : preserves P (lift_res r0 : M S A).
Proof. intros s r s' H [= <- <-]. done. Qed.
Lemma pres_gets {A} (f : S → A) : preserves P (gets f).
Proof. intros s r s' H [= <- <-]. done. Qed.
Lemma pres_get : preserves P (get : M S S).
Proof. intros s r s' H [= <- <-]. done. Qed.
Lemma pres_modify f : (∀ s, P s → P (f s)) → preserves P (modify f : M S unit).
Proof. intros Hf s r s' H [= <- <-]. auto. Qed.
Lemma pres_bind {A B} (m : M S A) (f : A → M S B) :
  preserves P m → (∀ a, preserves P (f a)) → preserves P (m ≫= f).
Proof.
  intros Hm Hf s r s' H. unfold mbind, M_bind. destruct (m s) as [[a|e|p] s1] eqn:E1;
    specialize (Hm _ _ _ H E1); [|by intros [= <- <-]|by intros [= <- <-]].
  intros E2. exact (Hf a _ _ _ Hm E2).
Qed.
Lemma pres_attempt {A} (m : M S A) : preserves P m → preserves P (attempt m).
Proof.
  intros Hm s r s' H. unfold attempt. destruct (m s) as [[a|e|p] s1] eqn:E1;
    intros [= <- <-]; exact (Hm _ _ _ H E1).
Qed.
Lemma pres_map_err {A} f (m : M S A) : preserves P m → preserves P (map_err f m).
Proof.
  intros Hm s r s' H. unfold map_err. destruct (m s) as [[a|e|p] s1] eqn:E1;
    intros [= <- <-]; exact (Hm _ _ _ H E1).
Qed.
Lemma pres_when b (m : M S unit) : preserves P m → preserves P (when b m).
Proof. destruct b; [done|]. intros _. apply pres_ret. Qed.
Lemma pres_for_each {A} (l : list A) (f : A → M S unit) :
  (∀ a, preserves P (f a)) → preserves P (for_each l f).
Proof.
  intros Hf. induction l as [|x l IH]; [apply pres_ret|]. cbn.
  apply pres_bind; [apply Hf|]. intros _. exact IH.
Qed.
End Preserves.
Section Preserves_db.
Context (P : database → Prop).
Lemma pres_now : preserves P now.
Proof. apply pres_gets. Qed.
Lemma pres_scan {A} (o : option A) : preserves P (scan o).
Proof. destruct o; [apply pres_ret|apply pres_throw]. Qed.
Lemma pres_int8 z : preserves P (int8_param z).
Proof. unfold int8_param. case_bool_decide; [apply pres_ret|apply pres_throw]. Qed.
Lemma pres_query {A} tx (m : SQL (list A)) : preserves P (exec tx m) → preserves P (query tx m).
Proof. intros Hm s r s' Hs (r0 & He & _)%query_exec. exact (Hm _ _ _ Hs He). Qed.
End Preserves_db.
#[export] Hint Resolve pres_ret pres_throw pres_panic pres_lift pres_gets pres_get pres_now pres_scan
  pres_int8 pres_attempt pres_map_err pres_when pres_query : pres.

Ltac solve_preserves :=
  repeat match goal with
  | |- preserves _ (_ ≫= _) => apply pres_bind; [|intros ?]
  | |- preserves _ (match ?x with _ => _ end) => destruct x
  | |- preserves _ (not_found _) => apply pres_map_err
  | |- preserves _ (query _ _) => apply pres_query
  | |- preserves _ (map_err _ _) => apply pres_map_err
  | |- preserves _ (attempt _) => apply pres_attempt
  | |- preserves _ (when _ _) => apply pres_when
  | |- preserves _ (for_each _ _) => apply pres_for_each; intros ?
  | |- _ => solve [eauto with pres]
  end.

(** ** The store of the exit trees *)
Definition pg_nodes (tx : Tx) (db : database) : list node_row := t_rht (view tx db).
Definition pg_roots (tx : Tx) (db : database) : list root_row := t_root (view tx db).
Definition pg_deposit_counts (tx : Tx) (db : database) : list (Z * Z) :=
  (λ d, (dep_Id (dr_dep d), dep_DepositCount (dr_dep d))) <$> t_deposit (view tx db).

Lemma head_Some_elem {A} (l : list A) x : head l = Some x → x ∈ l.
Proof. destruct l; [done|]. intros [= ->]. by left. Qed.
Lemma elem_head {A} (l : list A) x : x ∈ l → ∃ y, head l = Some y.
Proof. destruct l; [by intros ?%elem_of_nil|]. eauto. Qed.

Lemma deposit_exists_spec id t :
  deposit_exists id t = true ↔ ∃ d, d ∈ t_deposit t ∧ dep_Id (dr_dep d) = id.
Proof.
  unfold deposit_exists. rewrite existsb_exists. setoid_rewrite bool_decide_eq_true.
  by setoid_rewrite list_elem_of_In.
Qed.
Lemma block_exists_spec id t : block_exists id t = true ↔ ∃ b, b ∈ t_block t ∧ b_id b = id.
Proof.
  unfold block_exists. rewrite existsb_exists. setoid_rewrite bool_decide_eq_true.
  by setoid_rewrite list_elem_of_In.
Qed.
Lemma elem_of_deposit_counts tx db id c :
  (id, c) ∈ pg_deposit_counts tx db ↔
  ∃ d, d ∈ t_deposit (view tx db) ∧ dep_Id (dr_dep d) = id ∧ dep_DepositCount (dr_dep d) = c.
Proof.
  unfold pg_deposit_counts. rewrite list_elem_of_fmap.
  split; [intros (d & [= -> ->] & ?); eauto|intros (d & ? & <- & <-); eauto].
Qed.

Section Pg_laws.
Lemma pg_Get_ok k tx db v db' : Get k tx db = (Ok v, db') →
  (∃ d, (k, v, d) ∈ pg_nodes tx db) ∧ view tx db' = view tx db ∧ (db_live tx db → db_live tx db').
Proof.
  intros (Hf & Hv & _ & Hl)%not_found_ok%query_row_ok. split; [|done].
  apply head_Some_elem, list_elem_of_fmap in Hf as ([[k' v'] d] & -> & Hin).
  apply list_elem_of_filter in Hin as [Hk Hin]. cbn in Hk. subst k'. by exists d.
Qed.
Lemma pg_Get_live k tx db v d : db_live tx db → (k, v, d) ∈ pg_nodes tx db →
  ∃ v' db', Get k tx db = (Ok v', db').
Proof.
  intros Hl Hin. destruct (elem_head ((λ r : node_row, r.1.2) <$>
    filter (λ r : node_row, r.1.1 = k) (t_rht (view tx db))) v) as [v' Hv'].
  { apply list_elem_of_fmap. exists (k, v, d). split; [done|]. by apply list_elem_of_filter. }
  destruct (query_row_live tx (λ t, head ((λ r : node_row, r.1.2) <$>
    filter (λ r : node_row, r.1.1 = k) (t_rht t))) db v' Hl Hv') as [db' E]. exists v', db'. by apply not_found_run.
Qed.

(** The two checks of an insertion, then the change. *)
Lemma insert_ok tx (c1 c2 : tables → bool) e1 e2 (f : tables → tables) db u db' :
  exec tx (t ← select id; require (c1 t) e1;; require (c2 t) e2;; change f) db = (Ok u, db') →
  c1 (view tx db) = true ∧ c2 (view tx db) = true ∧ view tx db' = f (view tx db) ∧
  (db_live tx db → db_live tx db').
Proof.
  intros (q' & Hm & _ & _ & _ & _ & _ & Hl)%exec_ok. revert Hm.
  unfold mbind, M_bind, select, gets, require, change, modify. cbn.
  destruct (c1 (view tx db)); [|done]. destruct (c2 (view tx db)); [|done]. cbn.
  by intros [= <- <- _].
Qed.
Lemma insert_live tx (c1 c2 : tables → bool) e1 e2 (f : tables → tables) db :
  db_live tx db → c1 (view tx db) = true → c2 (view tx db) = true →
  ∃ db', exec tx (t ← select id; require (c1 t) e1;; require (c2 t) e2;; change f) db = (Ok tt, db').
Proof.
  intros Hl H1 H2. eapply exec_live; [done|].
  unfold mbind, M_bind, select, gets, require, change, modify. cbn. rewrite H1, H2. done.
Qed.

Lemma pg_GetRoot_ok c net tx db r db' : GetRoot c net tx db = (Ok r, db') →
  (∃ d, (r, d, net) ∈ pg_roots tx db ∧ (d, c) ∈ pg_deposit_counts tx db) ∧
  view tx db' = view tx db ∧ (db_live tx db → db_live tx db').
Proof.
  intros (Hf & Hv & _ & Hl)%not_found_ok%query_row_ok. split; [|done].
  apply head_Some_elem, list_elem_of_bind in Hf as ([[r' d] n'] & Hf & Hr).
  apply list_elem_of_bind in Hf as (dr & Hf & Hd). apply list_elem_of_singleton in Hf as ->.
  apply list_elem_of_filter in Hr as [Hn Hr]. apply list_elem_of_filter in Hd as [[Hid Hc] Hd].
  cbn in Hn, Hid. subst n' d. exists (dep_Id (dr_dep dr)). split; [done|].
  apply elem_of_deposit_counts. eauto.
Qed.
Lemma pg_GetRoot_live c net tx db r d :
  db_live tx db → (r, d, net) ∈ pg_roots tx db → (d, c) ∈ pg_deposit_counts tx db →
  ∃ r' db', GetRoot c net tx db = (Ok r', db').
Proof.
  intros Hl Hr (dr & Hd & Hid & Hc)%elem_of_deposit_counts.
  set (f := λ t, head (
    r ← filter (λ r : root_row, r.2 = net) (t_root t);
    d ← filter (λ d, dep_Id (dr_dep d) = r.1.2 ∧ dep_DepositCount (dr_dep d) = c) (t_deposit t);
    [r.1.1])).
  assert (∃ r', f (view tx db) = Some r') as [r' Hr'].
  { apply (elem_head _ r), list_elem_of_bind. exists (r, d, net). split.
    - apply list_elem_of_bind. exists dr. split; [by apply list_elem_of_singleton|].
      apply list_elem_of_filter. done.
    - by apply list_elem_of_filter. }
  destruct (query_row_live tx f db r' Hl Hr') as [db' E]. exists r', db'. by apply not_found_run.
Qed.
End Pg_laws.

#[global] Program Instance pgStoreOk : merkleTreeStoreOk database := {|
  nodes := pg_nodes; roots := pg_roots; deposit_counts := pg_deposit_counts; live := db_live;
|}.
Next Obligation.
  intros k tx db v db' (? & Hv & ?)%pg_Get_ok. unfold pg_nodes, pg_roots, pg_deposit_counts.
  by rewrite Hv.
Qed.
Next Obligation. intros. by eapply pg_Get_live. Qed.
Next Obligation.
  intros rows tx db u db' (_ & _ & Hv & ?)%insert_ok. unfold pg_nodes, pg_roots, pg_deposit_counts.
  by rewrite Hv.
Qed.
Next Obligation.
  intros rows tx db Hl Hnd Hfk. apply insert_live; [done|by apply bool_decide_eq_true|].
  apply forallb_forall. intros [[k v] d] Hin%list_elem_of_In. apply deposit_exists_spec.
  destruct (Hfk k v d Hin) as (c & (dr & ? & ? & _)%elem_of_deposit_counts). eauto.
Qed.
Next Obligation.
  intros c net tx db r db' (? & Hv & ?)%pg_GetRoot_ok. unfold pg_nodes, pg_roots, pg_deposit_counts.
  by rewrite Hv.
Qed.
Next Obligation. intros. by eapply pg_GetRoot_live. Qed.
Next Obligation.
  intros r d net tx db u db' (_ & _ & Hv & ?)%insert_ok. unfold pg_nodes, pg_roots, pg_deposit_counts.
  by rewrite Hv.
Qed.
Next Obligation.
  intros r d c net tx db Hl Hfresh (dr & ? & ? & _)%elem_of_deposit_counts. apply insert_live; [done| |].
  - apply negb_true_iff, not_true_iff_false. rewrite existsb_exists.
    intros ([[r' d'] n'] & Hin%list_elem_of_In & Heq%bool_decide_eq_true). cbn in Heq. subst d'.
    by eapply Hfresh.
  - apply deposit_exists_spec. eauto.
Qed.
