(* ===== verification/SchemaInv.v ===== *)
(** * The constraints of the schema

    Keys are unique, foreign keys hold and sequences are ahead of the ids, in
    the committed tables and in the open transaction, whatever the storage is
    asked to do and whatever statements fail. *)
From S2P Require Import Prelude Types MerkleStore MonitoredTx Tables Storage StorageFacts.

Definition block_ids (t : tables) : list Z := b_id <$> t_block t.
Definition deposit_ids (t : tables) : list Z := dep_Id ∘ dr_dep <$> t_deposit t.
Definition deposit_keys (t : tables) : list (Z * Z) :=
  (λ d, (dep_NetworkID (dr_dep d), dep_DepositCount (dr_dep d))) <$> t_deposit t.
Definition claim_key (c : Claim) : Z * Z * Z * bool :=
  (clm_Index c, clm_RollupIndex c, clm_NetworkID c, clm_MainnetFlag c).
Definition exit_root_key (r : exit_root_row) : Z * bytes * Z :=
  (ger_BlockID (er_ger r), ger_GlobalExitRoot (er_ger r), ger_NetworkID (er_ger r)).

Record schema_ok (t : tables) (q : sequences) : Prop := {
  so_block_id : NoDup (block_ids t);
  so_block_seq : Forall (λ i, i ≤ sq_block q) (block_ids t);
  so_block_hash : NoDup (b_hash <$> t_block t);
  so_deposit_id : NoDup (deposit_ids t);
  so_deposit_seq : Forall (λ i, i ≤ sq_deposit q) (deposit_ids t);
  so_deposit_pos : Forall (λ i, 0 < i) (deposit_ids t);
  so_seq_pos : 0 ≤ sq_deposit q;
  so_deposit_key : NoDup (deposit_keys t);
  so_deposit_fk : Forall (λ d, dep_BlockID (dr_dep d) ∈ block_ids t) (t_deposit t);
  so_root_id : NoDup ((λ r : root_row, r.1.2) <$> t_root t);
  so_root_fk : Forall (λ r : root_row, r.1.2 ∈ deposit_ids t) (t_root t);
  so_rht_key : NoDup (rht_keys (t_rht t));
  so_rht_fk : Forall (λ r : node_row, r.2 ∈ deposit_ids t) (t_rht t);
  so_claim_key : NoDup (claim_key <$> t_claim t);
  so_claim_fk : Forall (λ c, clm_BlockID c ∈ block_ids t) (t_claim t);
  so_exit_key : NoDup (exit_root_key <$> t_exit_root t);
  so_exit_fk : Forall (λ r, ger_BlockID (er_ger r) ∈ block_ids t) (t_exit_root t);
  so_token_key : NoDup (token_key <$> t_token_wrapped t);
  so_token_fk : Forall (λ w, tw_BlockID w ∈ block_ids t) (t_token_wrapped t);
  so_rollup_id : NoDup (rel_ID <$> t_rollup_exit t);
  so_rollup_seq : Forall (λ l, rel_ID l ≤ sq_rollup_exit q) (t_rollup_exit t);
  so_rollup_fk : Forall (λ l, rel_BlockID l ∈ block_ids t) (t_rollup_exit t);
  so_remove_fk : Forall (λ r, rm_block_id r ∈ block_ids t) (t_remove t);
  so_monitored_id : NoDup (mtx_DepositID <$> t_monitored t);
  so_group_id : NoDup (grp_GroupID ∘ gr_group <$> t_groups t);
}.

Definition seq_le (q q' : sequences) : Prop :=
  sq_block q ≤ sq_block q' ∧ sq_deposit q ≤ sq_deposit q' ∧ sq_rollup_exit q ≤ sq_rollup_exit q'.

Definition db_ok (db : database) : Prop :=
  schema_ok (db_committed db) (db_seqs db) ∧
  match db_tx db with Some tx => schema_ok (tx_tables tx) (db_seqs db) | None => True end.

(** ** Preservation, compositionally *)
Definition sql_pres {A} (m : SQL A) : Prop :=
  ∀ t q r t' q', schema_ok t q → m (t, q) = (r, (t', q')) →
    seq_le q q' ∧ (is_ok r = true → schema_ok t' q').
Abbreviation pres := (preserves db_ok).

Section Lists.
Context {A : Type}.
Lemma NoDup_fmap_filter {B} (f : A → B) (P : A → Prop) `{∀ x, Decision (P x)} l :
  NoDup (f <$> l) → NoDup (f <$> filter P l).
Proof. intros H1. eapply sublist_NoDup; [exact H1|]. apply fmap_sublist, sublist_filter. Qed.
Lemma Forall_fmap_filter {B} (f : A → B) (Q : B → Prop) (P : A → Prop) `{∀ x, Decision (P x)} l :
  Forall Q (f <$> l) → Forall Q (f <$> filter P l).
Proof.
  rewrite !Forall_forall. intros HQ y (x & -> & [_ Hx]%list_elem_of_filter)%list_elem_of_fmap.
  apply HQ, list_elem_of_fmap. eauto.
Qed.
Lemma Forall_filter_1 (Q P : A → Prop) `{∀ x, Decision (P x)} l : Forall Q l → Forall Q (filter P l).
Proof. rewrite !Forall_forall. intros HQ x [_ Hx]%list_elem_of_filter. auto. Qed.
(** Dropping the rows whose reference is gone keeps the references valid. *)
Lemma Forall_fk_filter (f : A → Z) (ids bad ids' : list Z) l :
  Forall (λ x, f x ∈ ids) l → (∀ i, i ∈ ids ∧ i ∉ bad → i ∈ ids') →
  Forall (λ x, f x ∈ ids') (filter (λ x, f x ∉ bad) l).
Proof. rewrite !Forall_forall. intros HQ Hi x [HP Hx]%list_elem_of_filter. auto. Qed.
Lemma NoDup_snoc {B} (f : A → B) (l : list A) x :
  NoDup (f <$> l) → f x ∉ f <$> l → NoDup (f <$> l ++ [x]).
Proof.
  intros H1 H2. rewrite fmap_app. apply NoDup_app. split_and!; [done| |apply NoDup_singleton].
  by intros y Hy ->%list_elem_of_singleton.
Qed.
Lemma Forall_snoc_2 (Q : A → Prop) l x : Forall Q l → Q x → Forall Q (l ++ [x]).
Proof. intros H1 H2. apply Forall_app. split; [done|by constructor]. Qed.
Lemma fmap_keep {B} (f : A → B) (g : A → A) (l : list A) : (∀ x, f (g x) = f x) → f <$> (g <$> l) = f <$> l.
Proof. intros H. rewrite <- list_fmap_compose. apply list_fmap_ext. intros _ x _. apply H. Qed.
Lemma Forall_keep (Q : A → Prop) (g : A → A) (l : list A) : (∀ x, Q x → Q (g x)) → Forall Q l → Forall Q (g <$> l).
Proof. rewrite !Forall_forall. intros H HQ y (x & -> & Hx)%list_elem_of_fmap. auto. Qed.
Lemma Forall_le (f : A → Z) a b l : Forall (λ x, f x ≤ a) l → a ≤ b → Forall (λ x, f x ≤ b) l.
Proof. intros H ?. eapply Forall_impl; [exact H|]. cbn. lia. Qed.
Lemma Forall_in_mono {B} (f : A → B) (ids ids' : list B) l :
  (∀ i, i ∈ ids → i ∈ ids') → Forall (λ x, f x ∈ ids) l → Forall (λ x, f x ∈ ids') l.
Proof. intros H1 H2. eapply Forall_impl; [exact H2|]. cbn. auto. Qed.
Lemma elem_of_fmap_snoc {B} (f : A → B) (l : list A) x i : i ∈ f <$> l → i ∈ f <$> (l ++ [x]).
Proof. rewrite fmap_app, elem_of_app. by left. Qed.
(** A key that no row has is fresh. *)
Lemma existsb_fresh {B} (f : A → B) (p : A → bool) k (l : list A) :
  existsb p l = false → (∀ x, f x = k → p x = true) → k ∉ f <$> l.
Proof.
  intros He Hp (x & -> & Hx)%list_elem_of_fmap. apply not_true_iff_false in He. apply He.
  apply existsb_exists. exists x. split; [by apply list_elem_of_In|by apply Hp].
Qed.
End Lists.

Lemma schema_ok_seq t q q' : schema_ok t q → seq_le q q' → schema_ok t q'.
Proof.
  intros [] (? & ? & ?). split; try assumption.
  all: first [lia|eapply Forall_le; [eassumption|lia]].
Qed.
Lemma seq_le_refl q : seq_le q q.
Proof. unfold seq_le. lia. Qed.
Lemma seq_le_trans q q' q'' : seq_le q q' → seq_le q' q'' → seq_le q q''.
Proof. unfold seq_le. lia. Qed.

Section Pres.
Lemma sql_pres_select {A} (f : tables → A) : sql_pres (select f).
Proof. intros t q r t' q' H [= <- <- <-]. split; [apply seq_le_refl|done]. Qed.
Lemma sql_pres_ret {A} (a : A) : sql_pres (mret a : SQL A).
Proof. intros t q r t' q' H [= <- <- <-]. split; [apply seq_le_refl|done]. Qed.
Lemma sql_pres_throw {A} e : sql_pres (throw e : SQL A).
Proof. intros t q r t' q' H [= <- <- <-]. split; [apply seq_le_refl|done]. Qed.
Lemma sql_pres_lift {A} (r0 : res A) : sql_pres (lift_res r0 : SQL A).
Proof. intros t q r t' q' H [= <- <- <-]. split; [apply seq_le_refl|done]. Qed.
Lemma sql_pres_change (f : tables → tables) :
  (∀ t q, schema_ok t q → schema_ok (f t) q) → sql_pres (change f).
Proof. intros Hf t q r t' q' H [= <- <- <-]. split; [apply seq_le_refl|auto]. Qed.
Lemma sql_pres_bind {A B} (m : SQL A) (f : A → SQL B) :
  sql_pres m → (∀ a, sql_pres (f a)) → sql_pres (m ≫= f).
Proof.
  intros Hm Hf t q r t' q' H. unfold mbind, M_bind.
  destruct (m (t, q)) as [[a|e|p] [t1 q1]] eqn:E; destruct (Hm _ _ _ _ _ H E) as [Hle Hok].
  - intros E2. destruct (Hf a _ _ _ _ _ (Hok eq_refl) E2) as [Hle2 Hok2].
    split; [by eapply seq_le_trans|done].
  - intros [= <- <- <-]. done.
  - intros [= <- <- <-]. done.
Qed.
(** An insertion guarded by two checks. *)
Lemma sql_pres_insert (c1 c2 : tables → bool) e1 e2 (f : tables → tables) :
  (∀ t q, schema_ok t q → c1 t = true → c2 t = true → schema_ok (f t) q) →
  sql_pres (t ← select id; require (c1 t) e1;; require (c2 t) e2;; change f).
Proof.
  intros Hf t q r t' q' H. unfold mbind, M_bind, select, gets, require, change, modify. cbn.
  destruct (c1 t) eqn:E1; cbn; [|intros [= <- <- <-]; split; [apply seq_le_refl|done]].
  destruct (c2 t) eqn:E2; cbn; [|intros [= <- <- <-]; split; [apply seq_le_refl|done]].
  intros [= <- <- <-]. split; [apply seq_le_refl|auto].
Qed.
Lemma sql_pres_insert1 (c1 : tables → bool) e1 (f : tables → tables) :
  (∀ t q, schema_ok t q → c1 t = true → schema_ok (f t) q) →
  sql_pres (t ← select id; require (c1 t) e1;; change f).
Proof.
  intros Hf t q r t' q' H. unfold mbind, M_bind, select, gets, require, change, modify. cbn.
  destruct (c1 t) eqn:E1; cbn; [|intros [= <- <- <-]; split; [apply seq_le_refl|done]].
  intros [= <- <- <-]. split; [apply seq_le_refl|auto].
Qed.

Lemma pres_pop_fault : pres pop_fault.
Proof. intros db r db' H. unfold pop_fault. destruct (db_faults db); by intros [= <- <-]. Qed.

Lemma pres_run_auto {A} (m : SQL A) : sql_pres m → pres (run_auto m).
Proof.
  intros Hm db r db' [H1 H2]. unfold run_auto.
  destruct (m (db_committed db, db_seqs db)) as [r1 [t q]] eqn:E.
  destruct (Hm _ _ _ _ _ H1 E) as [Hle Hok].
  assert (match db_tx db with Some tx => schema_ok (tx_tables tx) q | None => True end).
  { destruct (db_tx db); [|done]. by eapply schema_ok_seq. }
  destruct r1; intros [= <- <-]; split; cbn; try done; [by apply Hok| |]; by eapply schema_ok_seq.
Qed.
Lemma pres_run_tx {A} (m : SQL A) : sql_pres m → pres (run_tx m).
Proof.
  intros Hm db r db' [H1 H2]. unfold run_tx. destruct (db_tx db) as [[t []]|] eqn:Et.
  - intros [= <- <-]. split; [done|]. by rewrite Et.
  - destruct (m (t, db_seqs db)) as [r1 [t1 q]] eqn:E.
    destruct (Hm _ _ _ _ _ H2 E) as [Hle Hok].
    destruct r1; intros [= <- <-]; split; cbn; try (by eapply schema_ok_seq). by apply Hok.
  - intros [= <- <-]. split; [done|]. by rewrite Et.
Qed.
Lemma pres_exec {A} tx (m : SQL A) : sql_pres m → pres (exec tx m).
Proof.
  intros Hm. apply pres_bind; [apply pres_pop_fault|]. intros fault.
  assert (sql_pres (match fault with Some code => throw (fault_error code) | None => m end))
    by (destruct fault; [apply sql_pres_throw|done]).
  destruct tx; [by apply pres_run_auto|by apply pres_run_tx].
Qed.
Lemma pres_query_row {A} tx (f : tables → option A) : pres (query_row tx f).
Proof. apply pres_bind; [apply pres_exec, sql_pres_select|]. intros. apply pres_scan. Qed.
End Pres.
#[export] Hint Resolve sql_pres_select sql_pres_ret sql_pres_throw sql_pres_lift pres_exec
  pres_query_row : pres.

(** ** Every statement of the storage *)

(** The goals of a changed table: everything else is untouched. *)
Ltac keep_schema H :=
  destruct H; split; cbn -[rht_keys]; try assumption.

(** Rewriting a table row by row keeps its keys. *)
Ltac keep_keys := first [rewrite fmap_keep; [assumption|] | apply Forall_keep; [|assumption]].

Lemma keep_ids {A} (f : A → A) (key : A → Z) (l l' : list A) :
  (∀ x, key (f x) = key x) → l' = f <$> l → key <$> l' = key <$> l.
Proof. intros H ->. by apply fmap_keep. Qed.

Section Statements.
Lemma sql_pres_add_block num hash net received : sql_pres (sql_add_block num hash net received).
Proof.
  intros t q r t' q' H. unfold sql_add_block.
  assert (seq_le q (mkSequences (sq_block q + 1) (sq_exit_root q) (sq_deposit q) (sq_rollup_exit q) (sq_remove q)))
    as Hle by (unfold seq_le; cbn; lia).
  destruct (list_find _ (t_block t)) as [[i b]|] eqn:E; intros [= <- <- <-]; (split; [done|]; intros _);
    [by eapply schema_ok_seq|].
  pose proof (so_block_seq _ _ H) as Hseq. apply list_find_None in E.
  apply (schema_ok_seq _ _ _ H) in Hle as H'. clear Hle H.
  keep_schema H'; try (eapply Forall_in_mono; [|eassumption]; intros i; apply elem_of_fmap_snoc).
  - apply NoDup_snoc; [done|]. cbn. intros Hc. rewrite Forall_forall in Hseq. specialize (Hseq _ Hc). lia.
  - unfold block_ids. cbn. rewrite fmap_app. apply Forall_snoc_2; [done|cbn; lia].
  - apply NoDup_snoc; [done|]. cbn. intros (b & Hb & Hin')%list_elem_of_fmap.
    rewrite Forall_forall in E. by apply (E b Hin').
Qed.

(** The three forms of an insertion that checks a key and a block. *)
Lemma fresh_from {A B} (key : A → B) (p : A → bool) l x :
  existsb p l = false → (∀ y, key y = key x → p y = true) → key x ∉ key <$> l.
Proof. intros H1 H2. by eapply existsb_fresh. Qed.

Lemma sql_pres_add_exit_root blockID ger roots net : sql_pres (sql_add_exit_root blockID ger roots net).
Proof.
  intros t q r t' q' H. unfold sql_add_exit_root.
  destruct (existsb _ (t_exit_root t)) eqn:E1;
    [intros [= <- <- <-]; split; [unfold seq_le; cbn; lia|done]|].
  destruct (block_exists blockID t) eqn:E2;
    intros [= <- <- <-]; (split; [unfold seq_le; cbn; lia|]); [intros _|done].
  apply block_exists_spec in E2 as (b & Hb & <-).
  keep_schema H.
  - apply NoDup_snoc; [done|]. eapply fresh_from; [exact E1|]. intros y. unfold exit_root_key. cbn.
    intros [= ? ? ?]. by apply bool_decide_eq_true.
  - apply Forall_snoc_2; [done|]. cbn. apply list_elem_of_fmap. eauto.
Qed.

Lemma sql_pres_add_deposit d : sql_pres (sql_add_deposit d).
Proof.
  intros t q r t' q' H. unfold sql_add_deposit.
  assert (seq_le q (mkSequences (sq_block q) (sq_exit_root q) (sq_deposit q + 1) (sq_rollup_exit q) (sq_remove q)))
    as Hle by (unfold seq_le; cbn; lia).
  destruct (existsb _ (t_deposit t)) eqn:E1; [by intros [= <- <- <-]|].
  destruct (block_exists (dep_BlockID d) t) eqn:E2; intros [= <- <- <-]; (split; [done|]); [intros _|done].
  apply block_exists_spec in E2 as (b & Hb & Hid). pose proof (so_deposit_seq _ _ H) as Hseq. pose proof (so_seq_pos _ _ H) as Hpos.
  apply (schema_ok_seq _ _ _ H) in Hle as H'. clear Hle H.
  keep_schema H'; try (eapply Forall_in_mono; [|eassumption]; intros i; apply elem_of_fmap_snoc).
  - apply NoDup_snoc; [done|]. cbn. intros Hc. rewrite Forall_forall in Hseq. specialize (Hseq _ Hc). lia.
  - unfold deposit_ids. cbn. rewrite fmap_app. apply Forall_snoc_2; [done|cbn; lia].
  - unfold deposit_ids. cbn. rewrite fmap_app. apply Forall_snoc_2; [done|cbn; lia].
  - apply NoDup_snoc; [done|].
    eapply (existsb_fresh (λ d, (dep_NetworkID (dr_dep d), dep_DepositCount (dr_dep d)))); [exact E1|].
    cbn. intros y [= ? ?]. by apply bool_decide_eq_true.
  - apply Forall_snoc_2; [done|]. cbn. apply list_elem_of_fmap. eauto.
Qed.

Lemma sql_pres_add_claim c : sql_pres (sql_add_claim c).
Proof.
  intros t q r t' q' H. unfold sql_add_claim.
  destruct (existsb _ (t_claim t)) eqn:E1; [by intros [= <- <- <-]|].
  destruct (block_exists (clm_BlockID c) t) eqn:E2;
    intros [= <- <- <-]; (split; [apply seq_le_refl|]); [intros _|done].
  apply block_exists_spec in E2 as (b & Hb & Hid). keep_schema H.
  - apply NoDup_snoc; [done|]. eapply fresh_from; [exact E1|]. intros y. unfold claim_key. cbn.
    intros [= ? ? ? ?]. by apply bool_decide_eq_true.
  - apply Forall_snoc_2; [done|]. cbn. apply list_elem_of_fmap. eauto.
Qed.

Lemma sql_pres_add_token tw : sql_pres (sql_add_token tw).
Proof.
  intros t q r t' q' H. unfold sql_add_token.
  destruct (existsb _ (t_token_wrapped t)) eqn:E1; [by intros [= <- <- <-]|].
  destruct (block_exists (tw_BlockID tw) t) eqn:E2;
    intros [= <- <- <-]; (split; [apply seq_le_refl|]); [intros _|done].
  apply block_exists_spec in E2 as (b & Hb & Hid). keep_schema H.
  - apply NoDup_snoc; [done|]. eapply fresh_from; [exact E1|]. intros y Hy. by apply bool_decide_eq_true.
  - apply Forall_snoc_2; [done|]. cbn. apply list_elem_of_fmap. eauto.
Qed.

Lemma sql_pres_add_remove blockID ger net : sql_pres (sql_add_remove blockID ger net).
Proof.
  intros t q r t' q' H. unfold sql_add_remove.
  destruct (block_exists blockID t) eqn:E2;
    intros [= <- <- <-]; (split; [unfold seq_le; cbn; lia|]); [intros _|done].
  apply block_exists_spec in E2 as (b & Hb & Hid). keep_schema H.
  apply Forall_snoc_2; [done|]. cbn. apply list_elem_of_fmap. eauto.
Qed.

Lemma sql_pres_set_root root id net : sql_pres (sql_set_root root id net).
Proof.
  apply sql_pres_insert. intros t q H H1 H2. apply deposit_exists_spec in H2 as (d & Hd & Hid).
  apply negb_true_iff in H1. keep_schema H.
  - apply NoDup_snoc; [done|]. cbn. eapply (existsb_fresh (λ r : root_row, r.1.2)); [exact H1|].
    intros y ?. by apply bool_decide_eq_true.
  - apply Forall_snoc_2; [done|]. cbn. apply list_elem_of_fmap. eauto.
Qed.

Lemma sql_pres_bulk_set rows : sql_pres (sql_bulk_set rows).
Proof.
  apply sql_pres_insert. intros t q H H1%bool_decide_eq_true H2. keep_schema H.
  apply Forall_app. split; [done|]. apply Forall_forall. intros [[k v] d] Hin.
  rewrite forallb_forall in H2. specialize (H2 _ (proj1 (list_elem_of_In _ _) Hin)).
  apply deposit_exists_spec in H2 as (d' & Hd & Hid). cbn in Hid |- *. apply list_elem_of_fmap. eauto.
Qed.

Lemma number_leaves_ids id rows :
  rel_ID <$> number_leaves id rows = (λ i, id + Z.of_nat i) <$> seq 0 (length rows).
Proof.
  revert id. induction rows as [|[[[a b] c] d] rows IH]; intros id; [done|]. cbn.
  f_equal; [lia|]. rewrite IH, <- fmap_S_seq, <- list_fmap_compose. apply list_fmap_ext.
  intros _ x _. cbn. lia.
Qed.
Lemma number_leaves_block id rows (ids : list Z) :
  Forall (λ r : bytes * Z * bytes * Z, r.2 ∈ ids) rows →
  Forall (λ l, rel_BlockID l ∈ ids) (number_leaves id rows).
Proof.
  revert id. induction rows as [|[[[a b] c] d] rows IH]; intros id; [done|].
  intros [H1 H2]%Forall_cons. constructor; [done|]. by apply IH.
Qed.

Lemma sql_pres_add_rollup_leaves rows : sql_pres (sql_add_rollup_leaves rows).
Proof.
  intros t q r t' q' H. unfold sql_add_rollup_leaves.
  assert (seq_le q (mkSequences (sq_block q) (sq_exit_root q) (sq_deposit q)
           (sq_rollup_exit q + Z.of_nat (length rows)) (sq_remove q))) as Hle by (unfold seq_le; cbn; lia).
  destruct (forallb _ rows) eqn:E; intros [= <- <- <-]; (split; [done|]); [intros _|done].
  pose proof (so_rollup_seq _ _ H) as Hseq. apply (schema_ok_seq _ _ _ H) in Hle as H'. clear Hle H.
  pose proof (number_leaves_ids (sq_rollup_exit q + 1) rows) as Hids.
  keep_schema H'.
  - rewrite fmap_app, Hids. apply NoDup_app. split_and!; [done| |].
    + intros x (l & -> & Hl)%list_elem_of_fmap (i & Hi & _)%list_elem_of_fmap.
      rewrite Forall_forall in Hseq. specialize (Hseq _ Hl). lia.
    + apply NoDup_fmap_2; [intros ?? ?; lia|apply NoDup_seq].
  - apply Forall_app. split; [done|]. cbn. apply (Forall_fmap rel_ID (λ i, i ≤ _)). rewrite Hids.
    apply Forall_fmap, Forall_forall. intros i [_ Hi]%elem_of_seq. cbn. lia.
  - apply Forall_app. split; [done|]. apply number_leaves_block, Forall_forall. intros x Hx.
    rewrite forallb_forall in E. specialize (E _ (proj1 (list_elem_of_In _ _) Hx)).
    apply block_exists_spec in E as (b & Hb & Hid). apply list_elem_of_fmap. eauto.
Qed.

(** Updates of the rows of sync.deposit that keep their keys. *)
Lemma schema_ok_map_deposit f t q :
  (∀ d, dep_Id (dr_dep (f d)) = dep_Id (dr_dep d) ∧ dep_NetworkID (dr_dep (f d)) = dep_NetworkID (dr_dep d) ∧
        dep_DepositCount (dr_dep (f d)) = dep_DepositCount (dr_dep d) ∧
        dep_BlockID (dr_dep (f d)) = dep_BlockID (dr_dep d)) →
  schema_ok t q → schema_ok (set_deposit (f <$> t_deposit t) t) q.
Proof.
  intros Hf H.
  assert (deposit_ids (set_deposit (f <$> t_deposit t) t) = deposit_ids t) as Hids
    by (unfold deposit_ids; apply fmap_keep; intros d; cbn; apply Hf).
  assert (deposit_keys (set_deposit (f <$> t_deposit t) t) = deposit_keys t) as Hkeys.
  { unfold deposit_keys. apply fmap_keep. intros d. destruct (Hf d) as (_ & -> & -> & _). done. }
  destruct H; split; rewrite ?Hids, ?Hkeys; try assumption.
  apply Forall_keep; [|assumption]. intros d. destruct (Hf d) as (_ & _ & _ & ->). done.
Qed.
Lemma schema_ok_mark_ready P time t q : schema_ok t q → schema_ok (mark_ready P time t) q.
Proof. apply schema_ok_map_deposit. intros d. by destruct (P (dr_dep d)). Qed.
Lemma schema_ok_unready lo hi dest t q : schema_ok t q → schema_ok (sql_unready lo hi dest t) q.
Proof. apply schema_ok_map_deposit. intros d. by case_bool_decide. Qed.

Lemma schema_ok_map_exit_root f t q :
  (∀ r, exit_root_key (f r) = exit_root_key r) →
  schema_ok t q → schema_ok (set_exit_root (f <$> t_exit_root t) t) q.
Proof.
  intros Hf H. keep_schema H.
  - by rewrite fmap_keep.
  - apply Forall_keep; [|assumption]. intros r. specialize (Hf r). unfold exit_root_key in Hf.
    by injection Hf as -> _ _.
Qed.
Lemma schema_ok_map_token f t q :
  (∀ r, token_key (f r) = token_key r ∧ tw_BlockID (f r) = tw_BlockID r) →
  schema_ok t q → schema_ok (set_token_wrapped (f <$> t_token_wrapped t) t) q.
Proof.
  intros Hf H. keep_schema H.
  - rewrite fmap_keep; [done|]. intros r. apply Hf.
  - apply Forall_keep; [|assumption]. intros r. by destruct (Hf r) as [_ ->].
Qed.
Lemma schema_ok_monitored l t q :
  NoDup (mtx_DepositID <$> l) → schema_ok t q → schema_ok (set_monitored l t) q.
Proof. intros Hl H. keep_schema H. Qed.
Lemma schema_ok_groups l t q :
  NoDup (grp_GroupID ∘ gr_group <$> l) → schema_ok t q → schema_ok (set_groups l t) q.
Proof. intros Hl H. keep_schema H. Qed.
Lemma schema_ok_balance l t q : schema_ok t q → schema_ok (set_balance l t) q.
Proof. intros H. keep_schema H. Qed.

(** Deleting blocks with their cascades leaves no dangling row. *)
Lemma schema_ok_reset n net t q : schema_ok t q → schema_ok (sql_reset n net t) q.
Proof.
  intros H. unfold sql_reset. cbn zeta.
  set (gids := gone_blocks n net t). set (gdeps := gone_deposits gids t).
  assert (Hb : ∀ i, i ∈ block_ids t ∧ i ∉ gids → i ∈ b_id <$> filter (λ b, block_gone n net b = false) (t_block t)).
  { intros i [(b & -> & Hb)%list_elem_of_fmap Hg]. apply list_elem_of_fmap. exists b. split; [done|].
    apply list_elem_of_filter. split; [|done]. apply not_true_iff_false. intros Ht. apply Hg.
    apply list_elem_of_fmap. exists b. split; [done|]. by apply list_elem_of_filter. }
  assert (Hd : ∀ i, i ∈ deposit_ids t ∧ i ∉ gdeps →
            i ∈ dep_Id ∘ dr_dep <$> filter (λ d, dep_BlockID (dr_dep d) ∉ gids) (t_deposit t)).
  { intros i [(d & -> & Hd)%list_elem_of_fmap Hg]. apply list_elem_of_fmap. exists d. split; [done|].
    apply list_elem_of_filter. split; [|done]. intros Ht. apply Hg.
    apply list_elem_of_fmap. exists d. split; [done|]. by apply list_elem_of_filter. }
  destruct H; split; unfold block_ids, deposit_ids, deposit_keys, rht_keys in *; cbn; try assumption;
    try (by apply NoDup_fmap_filter);
    try (by apply Forall_filter_1);
    try (by eapply Forall_fk_filter).
  all: by apply Forall_fmap_filter.
Qed.
End Statements.

(** ** The operations *)
Ltac solve_pres := solve_preserves;
  repeat match goal with
  | |- pres (query_row _ _) => apply pres_query_row
  | |- pres (exec _ _) => apply pres_exec
  | |- sql_pres (change _) => apply sql_pres_change; intros ?? ?
  | |- _ => solve [eauto with pres]
  end.

Section Operations.
Lemma pres_Rollback tx : pres (Rollback tx).
Proof.
  destruct tx; [apply pres_throw|]. intros db r db' [H1 H2]. unfold Rollback.
  destruct (db_tx db) eqn:E; intros [= <- <-]; split; try done. by rewrite E.
Qed.
Lemma pres_Commit tx : pres (Commit tx).
Proof.
  destruct tx; [apply pres_throw|]. apply pres_bind; [apply pres_pop_fault|]. intros fault.
  intros db r db' [H1 H2]. unfold commit_tx. destruct (db_tx db) as [[t ab]|] eqn:E.
  - destruct fault, ab; intros [= <- <-]; split; done.
  - intros [= <- <-]. split; [done|]. by rewrite E.
Qed.
Lemma pres_BeginDBTransaction : pres BeginDBTransaction.
Proof.
  apply pres_bind; [apply pres_pop_fault|]. intros [code|]; [apply pres_throw|].
  apply pres_bind; [|intros ?; apply pres_ret].
  intros db r db' [H1 H2] [= <- <-]. split; done.
Qed.

Lemma pres_AddBlock block tx : pres (AddBlock block tx).
Proof. unfold AddBlock. solve_pres. apply sql_pres_add_block. Qed.
Lemma pres_AddGlobalExitRoot g tx : pres (AddGlobalExitRoot g tx).
Proof. unfold AddGlobalExitRoot. solve_pres. apply sql_pres_add_exit_root. Qed.
Lemma pres_AddDepositXLayer d tx : pres (AddDepositXLayer d tx).
Proof. unfold AddDepositXLayer. solve_pres. apply sql_pres_add_deposit. Qed.
Lemma pres_AddDeposit d tx : pres (AddDeposit d tx).
Proof. unfold AddDeposit. solve_pres. apply sql_pres_add_deposit. Qed.
Lemma pres_AddClaim c tx : pres (AddClaim c tx).
Proof. unfold AddClaim. solve_pres. apply sql_pres_add_claim. Qed.
Lemma pres_AddTokenWrapped `{TokenAbi} tw tx : pres (AddTokenWrapped tw tx).
Proof.
  unfold AddTokenWrapped, GetTokenMetadata. solve_pres. apply sql_pres_add_token.
Qed.
Lemma pres_GetTokenWrapped `{TokenAbi} net addr tx : pres (GetTokenWrapped net addr tx).
Proof.
  unfold GetTokenWrapped, GetTokenMetadata. solve_pres.
  apply schema_ok_map_token; [|done]. intros r. by case_bool_decide.
Qed.
Lemma pres_Reset n net tx : pres (Reset n net tx).
Proof. unfold Reset. solve_pres. by apply schema_ok_reset. Qed.
Lemma pres_AddTrustedGlobalExitRoot g tx : pres (AddTrustedGlobalExitRoot g tx).
Proof.
  unfold AddTrustedGlobalExitRoot. solve_pres. intros t q r t' q' H.
  destruct (sql_add_exit_root 0 _ _ _ (t, q)) as [[u|e|p] [t1 q1]] eqn:E;
    destruct (sql_pres_add_exit_root _ _ _ _ _ _ _ _ _ H E) as [Hle Hok];
    [by intros [= <- <- <-]| |by intros [= <- <- <-]].
  assert (t1 = t) as ->.
  { revert E. unfold sql_add_exit_root. destruct (existsb _ _); [by intros [= _ ->]|].
    destruct (block_exists _ _); [done|by intros [= _ ->]]. }
  destruct e; intros [= <- <- <-]; (split; [done|]); try done. intros _. by eapply schema_ok_seq.
Qed.
Lemma pres_UpdateL2GER g tx : pres (UpdateL2GER g tx).
Proof.
  unfold UpdateL2GER. solve_pres. apply schema_ok_map_exit_root; [|done].
  intros r. by case_bool_decide.
Qed.
Lemma sql_pres_update_status counts P time : sql_pres (sql_update_status counts P time).
Proof.
  apply sql_pres_bind; [eauto with pres|]. intros t. apply sql_pres_bind; [eauto with pres|].
  intros sel. apply sql_pres_bind; [|eauto with pres].
  apply sql_pres_change. intros. by apply schema_ok_mark_ready.
Qed.
Lemma sql_pres_update_l2_status root rid net time : sql_pres (sql_update_l2_status root rid net time).
Proof.
  apply sql_pres_bind; [eauto with pres|]. intros t.
  destruct (rollup_leaves root rid t) as [|? [|]];
    [apply sql_pres_update_status|apply sql_pres_update_status|apply sql_pres_throw].
Qed.
Lemma pres_UpdateL1DepositsStatus root dest tx : pres (UpdateL1DepositsStatus root dest tx).
Proof. unfold UpdateL1DepositsStatus. solve_pres. apply sql_pres_update_status. Qed.
Lemma pres_UpdateL2DepositsStatus root rid net tx : pres (UpdateL2DepositsStatus root rid net tx).
Proof. unfold UpdateL2DepositsStatus. solve_pres. apply sql_pres_update_l2_status. Qed.
Lemma pres_UpdateL1DepositsStatusXLayer root tx : pres (UpdateL1DepositsStatusXLayer root tx).
Proof.
  unfold UpdateL1DepositsStatusXLayer. solve_pres.
  apply sql_pres_bind; [apply sql_pres_update_status|]. intros.
  apply sql_pres_bind; eauto with pres.
Qed.
Lemma pres_UpdateL2DepositsStatusXLayer root rid net tx : pres (UpdateL2DepositsStatusXLayer root rid net tx).
Proof.
  unfold UpdateL2DepositsStatusXLayer. solve_pres.
  apply sql_pres_bind; [apply sql_pres_update_l2_status|]. intros.
  apply sql_pres_bind; eauto with pres.
Qed.
Lemma pres_UpdateL1DepositStatus n tx : pres (UpdateL1DepositStatus n tx).
Proof. unfold UpdateL1DepositStatus. solve_pres. by apply schema_ok_mark_ready. Qed.
Lemma pres_SetRoot root id net tx : pres (SetRoot root id net tx).
Proof. unfold SetRoot. solve_pres. apply sql_pres_set_root. Qed.
Lemma pres_BulkSet rows tx : pres (BulkSet rows tx).
Proof. unfold BulkSet. solve_pres. apply sql_pres_bulk_set. Qed.
Lemma pres_AddRollupExitLeaves rows tx : pres (AddRollupExitLeaves rows tx).
Proof. unfold AddRollupExitLeaves. solve_pres. apply sql_pres_add_rollup_leaves. Qed.
Lemma pres_AddRemoveL2GER g tx : pres (AddRemoveL2GER g tx).
Proof.
  unfold AddRemoveL2GER, deposit_of_ger, GetDepositCountByGER. solve_pres.
  - apply sql_pres_add_remove.
  - apply sql_pres_bind; [eauto with pres|]. intros t. apply sql_pres_bind; [|eauto with pres].
    apply sql_pres_change. intros. apply schema_ok_map_exit_root; [|done].
    intros r. by case_match.
  - by apply schema_ok_unready.
Qed.
Lemma pres_AddClaimTx m tx : pres (AddClaimTx m tx).
Proof.
  unfold AddClaimTx, mtx_params. solve_pres. apply sql_pres_insert1. intros t q H H1%negb_true_iff.
  apply schema_ok_monitored; [|done]. apply NoDup_snoc; [apply H|]. cbn.
  eapply (existsb_fresh mtx_DepositID); [exact H1|]. intros y ?. by apply bool_decide_eq_true.
Qed.
Lemma pres_UpdateClaimTx m tx : pres (UpdateClaimTx m tx).
Proof.
  unfold UpdateClaimTx, mtx_params. solve_pres. apply schema_ok_monitored; [|done].
  rewrite fmap_keep; [by eapply so_monitored_id|]. intros r. by case_bool_decide.
Qed.
Lemma pres_AddMonitoredTxsGroup `{Json} g tx : pres (AddMonitoredTxsGroup g tx).
Proof.
  destruct g as [g|]; [|apply pres_throw]. unfold AddMonitoredTxsGroup, history_json. solve_pres.
  apply sql_pres_insert1. intros t q Ht H1%negb_true_iff.
  apply schema_ok_groups; [|done]. apply NoDup_snoc; [apply Ht|]. cbn.
  eapply (existsb_fresh (grp_GroupID ∘ gr_group)); [exact H1|]. intros y ?. by apply bool_decide_eq_true.
Qed.
Lemma pres_UpdateMonitoredTxsGroup `{Json} g tx : pres (UpdateMonitoredTxsGroup g tx).
Proof.
  destruct g as [g|]; [|apply pres_throw]. unfold UpdateMonitoredTxsGroup, history_json. solve_pres.
  apply schema_ok_groups; [|done]. rewrite fmap_keep; [by eapply so_group_id|].
  intros r. cbn. by case_bool_decide.
Qed.
Lemma pres_SetBridgeBalance addr net v tx : pres (SetBridgeBalance addr net v tx).
Proof. unfold SetBridgeBalance. solve_pres. by apply schema_ok_balance. Qed.
End Operations.
#[export] Hint Resolve pres_Rollback pres_Commit pres_BeginDBTransaction pres_AddBlock
  pres_AddGlobalExitRoot pres_AddDepositXLayer pres_AddDeposit pres_AddClaim pres_AddTokenWrapped
  pres_GetTokenWrapped pres_Reset pres_AddTrustedGlobalExitRoot pres_UpdateL2GER
  pres_UpdateL1DepositsStatus pres_UpdateL2DepositsStatus pres_UpdateL1DepositsStatusXLayer
  pres_UpdateL2DepositsStatusXLayer pres_UpdateL1DepositStatus pres_SetRoot pres_BulkSet
  pres_AddRollupExitLeaves pres_AddRemoveL2GER pres_AddClaimTx pres_UpdateClaimTx
  pres_AddMonitoredTxsGroup pres_UpdateMonitoredTxsGroup pres_SetBridgeBalance : pres.

(** ** Reachable databases *)
Section Reachable.
Context {Abi : TokenAbi} {J : Json}.

(** One call of a method that writes, in any state of the connection. *)
Inductive storage_call : Type → Type :=
| call_Rollback (tx : Tx) : storage_call unit
| call_Commit (tx : Tx) : storage_call unit
| call_Begin : storage_call Tx
| call_AddBlock (b : Block) (tx : Tx) : storage_call Z
| call_AddGlobalExitRoot (g : GlobalExitRoot) (tx : Tx) : storage_call unit
| call_AddTrustedGlobalExitRoot (g : GlobalExitRoot) (tx : Tx) : storage_call bool
| call_UpdateL2GER (g : GlobalExitRoot) (tx : Tx) : storage_call unit
| call_AddRemoveL2GER (g : GlobalExitRoot) (tx : Tx) : storage_call unit
| call_AddDeposit (d : Deposit) (tx : Tx) : storage_call Z
| call_AddDepositXLayer (d : Deposit) (tx : Tx) : storage_call Z
| call_AddClaim (c : Claim) (tx : Tx) : storage_call unit
| call_AddTokenWrapped (w : TokenWrapped) (tx : Tx) : storage_call unit
| call_GetTokenWrapped (net : Z) (addr : bytes) (tx : Tx) : storage_call TokenWrapped
| call_Reset (n net : Z) (tx : Tx) : storage_call unit
| call_SetRoot (root : bytes) (id net : Z) (tx : Tx) : storage_call unit
| call_BulkSet (rows : list node_row) (tx : Tx) : storage_call unit
| call_AddRollupExitLeaves (rows : list (bytes * Z * bytes * Z)) (tx : Tx) : storage_call unit
| call_UpdateL1DepositsStatus (root : bytes) (dest : Z) (tx : Tx) : storage_call (list Deposit)
| call_UpdateL2DepositsStatus (root : bytes) (rid net : Z) (tx : Tx) : storage_call unit
| call_UpdateL1DepositsStatusXLayer (root : bytes) (tx : Tx) : storage_call (list Deposit)
| call_UpdateL2DepositsStatusXLayer (root : bytes) (rid net : Z) (tx : Tx) : storage_call (list Deposit)
| call_UpdateL1DepositStatus (n : Z) (tx : Tx) : storage_call unit
| call_AddClaimTx (m : MonitoredTx) (tx : Tx) : storage_call unit
| call_UpdateClaimTx (m : MonitoredTx) (tx : Tx) : storage_call unit
| call_AddMonitoredTxsGroup (g : option MonitoredTxGroupDBEntry) (tx : Tx) : storage_call unit
| call_UpdateMonitoredTxsGroup (g : option MonitoredTxGroupDBEntry) (tx : Tx) : storage_call unit
| call_SetBridgeBalance (addr : bytes) (net v : Z) (tx : Tx) : storage_call unit.

Definition run_call {A} (c : storage_call A) : M database A :=
  match c with
  | call_Rollback tx => Rollback tx
  | call_Commit tx => Commit tx
  | call_Begin => BeginDBTransaction
  | call_AddBlock b tx => AddBlock b tx
  | call_AddGlobalExitRoot g tx => AddGlobalExitRoot g tx
  | call_AddTrustedGlobalExitRoot g tx => AddTrustedGlobalExitRoot g tx
  | call_UpdateL2GER g tx => UpdateL2GER g tx
  | call_AddRemoveL2GER g tx => AddRemoveL2GER g tx
  | call_AddDeposit d tx => AddDeposit d tx
  | call_AddDepositXLayer d tx => AddDepositXLayer d tx
  | call_AddClaim c tx => AddClaim c tx
  | call_AddTokenWrapped w tx => AddTokenWrapped w tx
  | call_GetTokenWrapped net addr tx => GetTokenWrapped net addr tx
  | call_Reset n net tx => Reset n net tx
  | call_SetRoot root id net tx => SetRoot root id net tx
  | call_BulkSet rows tx => BulkSet rows tx
  | call_AddRollupExitLeaves rows tx => AddRollupExitLeaves rows tx
  | call_UpdateL1DepositsStatus root dest tx => UpdateL1DepositsStatus root dest tx
  | call_UpdateL2DepositsStatus root rid net tx => UpdateL2DepositsStatus root rid net tx
  | call_UpdateL1DepositsStatusXLayer root tx => UpdateL1DepositsStatusXLayer root tx
  | call_UpdateL2DepositsStatusXLayer root rid net tx => UpdateL2DepositsStatusXLayer root rid net tx
  | call_UpdateL1DepositStatus n tx => UpdateL1DepositStatus n tx
  | call_AddClaimTx m tx => AddClaimTx m tx
  | call_UpdateClaimTx m tx => UpdateClaimTx m tx
  | call_AddMonitoredTxsGroup g tx => AddMonitoredTxsGroup g tx
  | call_UpdateMonitoredTxsGroup g tx => UpdateMonitoredTxsGroup g tx
  | call_SetBridgeBalance addr net v tx => SetBridgeBalance addr net v tx
  end.

(** The databases the program can bring about: a fresh one, with any future
    of the connection, any call, and the passing of time. *)
Inductive reachable : database → Prop :=
| reachable_init faults time :
    reachable (mkDatabase initial_tables None initial_sequences 0 faults time)
| reachable_call {A} (c : storage_call A) db r db' :
    reachable db → run_call c db = (r, db') → reachable db'
| reachable_time db time : reachable db →
    reachable (mkDatabase (db_committed db) (db_tx db) (db_seqs db) (db_leaked db) (db_faults db) time).

(** C14. The constraints of the schema hold in every reachable database, in
    the committed tables and in the open transaction: keys are unique, no row
    refers to a missing block or deposit, sequences are ahead of the ids. *)
Theorem reachable_schema db (H : reachable db) : db_ok db.
Proof.
  induction H as [faults time|A c db r db' _ IH E|db time _ IH].
  - split; [|done]. cbn. split; unfold block_ids, deposit_ids, deposit_keys, rht_keys; cbn;
      try (by constructor); try lia; apply NoDup_singleton || (constructor; [cbn; lia|constructor]).
  - assert (pres (run_call c)) as Hp by (destruct c; cbn; eauto with pres). by eapply Hp.
  - exact IH.
Qed.
End Reachable.
