(* ===== verification/Transactions.v ===== *)
(** * Transactions are atomic

    What a transaction writes is invisible until its commit, and a transaction
    in which one statement failed never changes the committed tables. *)
From S2P Require Import Prelude Types MerkleStore MonitoredTx Tables Storage StorageFacts SchemaInv.

(** The transaction a call runs in; none for a call that ends or begins one. *)
Definition call_tx {A} (c : storage_call A) : option Tx :=
  match c with
  | call_Commit _ | call_Begin => None
  | call_Rollback tx => Some tx
  | call_AddBlock _ tx | call_AddGlobalExitRoot _ tx | call_AddTrustedGlobalExitRoot _ tx
  | call_UpdateL2GER _ tx | call_AddRemoveL2GER _ tx | call_AddDeposit _ tx
  | call_AddDepositXLayer _ tx | call_AddClaim _ tx | call_AddTokenWrapped _ tx
  | call_GetTokenWrapped _ _ tx | call_Reset _ _ tx | call_SetRoot _ _ _ tx | call_BulkSet _ tx
  | call_AddRollupExitLeaves _ tx | call_UpdateL1DepositsStatus _ _ tx
  | call_UpdateL2DepositsStatus _ _ _ tx | call_UpdateL1DepositsStatusXLayer _ tx
  | call_UpdateL2DepositsStatusXLayer _ _ _ tx | call_UpdateL1DepositStatus _ tx
  | call_AddClaimTx _ tx | call_UpdateClaimTx _ tx | call_AddMonitoredTxsGroup _ tx
  | call_UpdateMonitoredTxsGroup _ tx | call_SetBridgeBalance _ _ _ tx => Some tx
  end.

Section Transactions.
Context {Abi : TokenAbi} {J : Json}.

(** A call inside the open transaction. *)
Definition tx_step (db db' : database) : Prop :=
  ∃ A (c : storage_call A) r, call_tx c = Some open_tx ∧ run_call c db = (r, db').

Section Invariant.
Context (P : database → Prop).
Context (Hexec : ∀ A (m : SQL A), preserves P (exec open_tx m)).
Context (Hrollback : preserves P (Rollback open_tx)).

Lemma tx_step_preserves A (c : storage_call A) :
  call_tx c = Some open_tx → preserves P (run_call c).
Proof.
  destruct c; cbn [call_tx]; intros [= ->]; cbn [run_call]; [exact Hrollback|..];
    unfold AddBlock, AddGlobalExitRoot, AddTrustedGlobalExitRoot, UpdateL2GER, AddRemoveL2GER,
      deposit_of_ger, GetDepositCountByGER, Storage.AddDeposit, AddDepositXLayer, AddClaim,
      AddTokenWrapped, GetTokenWrapped, GetTokenMetadata, Reset, SetRoot, BulkSet,
      AddRollupExitLeaves, UpdateL1DepositsStatus, UpdateL2DepositsStatus,
      UpdateL1DepositsStatusXLayer, UpdateL2DepositsStatusXLayer, UpdateL1DepositStatus,
      AddClaimTx, UpdateClaimTx, mtx_params, AddMonitoredTxsGroup, UpdateMonitoredTxsGroup,
      history_json, SetBridgeBalance, query_row;
    solve_preserves; apply Hexec.
Qed.

Lemma tx_steps_preserve db db' : rtc tx_step db db' → P db → P db'.
Proof.
  induction 1 as [|db db1 db' (A & c & r & Hc & E) _ IH]; [done|].
  intros HP. apply IH. by eapply (tx_step_preserves A c Hc).
Qed.
End Invariant.

Lemma exec_keeps_committed t0 A (m : SQL A) :
  preserves (λ db, db_committed db = t0) (exec open_tx m).
Proof.
  intros db r db' H. unfold exec, pop_fault, mbind, M_bind.
  destruct db as [tb otx q lk fs nw]; cbn in H; subst tb.
  destruct fs as [|f fs]; cbn; unfold run_tx; cbn; (destruct otx as [[t []]|]; [by intros [= _ <-]| |by intros [= _ <-]]).
  - destruct (m (t, q)) as [[] []]; by intros [= _ <-].
  - destruct f as [c|]; [by intros [= _ <-]|].
    destruct (m (t, q)) as [[] []]; by intros [= _ <-].
Qed.
Lemma rollback_keeps_committed t0 : preserves (λ db, db_committed db = t0) (Rollback open_tx).
Proof. intros db r db' H. unfold Rollback. destruct (db_tx db); by intros [= _ <-]. Qed.

(** No transaction is open, or the open one is aborted. *)
Definition poisoned (db : database) : Prop :=
  match db_tx db with None => True | Some tx => tx_aborted tx = true end.

Lemma exec_keeps_poisoned A (m : SQL A) : preserves poisoned (exec open_tx m).
Proof.
  intros [tb otx q lk fs nw] r db' H. unfold exec, pop_fault, mbind, M_bind, poisoned in *. cbn in H.
  destruct otx as [[t ab]|]; cbn in H; subst.
  - destruct fs as [|f fs]; cbn; unfold run_tx; cbn; by intros [= _ <-].
  - destruct fs as [|f fs]; cbn; unfold run_tx; cbn; by intros [= _ <-].
Qed.
Lemma rollback_keeps_poisoned : preserves poisoned (Rollback open_tx).
Proof.
  intros [tb [[t ab]|] q lk fs nw] r db' H; unfold Rollback, poisoned in *; cbn in *; by intros [= _ <-].
Qed.

Lemma exec_err_poisons {A} (m : SQL A) db e db' :
  exec open_tx m db = (Err e, db') → poisoned db' ∧ db_committed db' = db_committed db.
Proof.
  intros E. split; [|by eapply exec_keeps_committed].
  revert E. destruct db as [tb otx q lk fs nw]. unfold exec, pop_fault, mbind, M_bind, poisoned.
  set (m' := match fs with [] => m | f :: _ => match f with Some c => throw (fault_error c) | None => m end end).
  assert (∀ fs', run_tx m' (mkDatabase tb otx q lk fs' nw) = (Err e, db') →
    match db_tx db' with None => True | Some tx => tx_aborted tx = true end) as Hm.
  { intros fs'. unfold run_tx. cbn. destruct otx as [[t []]|]; [by intros [= _ <-]| |by intros [= _ <-]].
    destruct (m' (t, q)) as [[] []]; by intros [= _ <-]. }
  destruct fs as [|f fs]; cbn; apply Hm.
Qed.

Lemma commit_poisoned db r db' :
  poisoned db → Commit open_tx db = (r, db') → is_ok r = false ∧ db_committed db' = db_committed db.
Proof.
  destruct db as [tb otx q lk fs nw]. unfold poisoned, Commit, pop_fault, mbind, M_bind. cbn.
  intros H. destruct otx as [[t ab]|]; cbn in H; subst.
  - destruct fs as [|[c|] fs]; cbn; by intros [= <- <-].
  - destruct fs as [|f fs]; cbn; by intros [= <- <-].
Qed.

(** ** Properties *)

(** Whatever calls are made inside a transaction, the committed tables
    stay the same: other connections see nothing of it before the commit. *)
Theorem uncommitted_invisible db db' (H : rtc tx_step db db') :
  db_committed db' = db_committed db.
Proof.
  eapply (tx_steps_preserve (λ db', db_committed db' = db_committed db));
    [apply exec_keeps_committed|apply rollback_keeps_committed|exact H|done].
Qed.

(** C15. After a statement of the transaction fails, no sequence of further
    calls makes it commit: the commit is an error and the committed tables are
    those from before. *)
Theorem failed_statement_never_commits {A} (m : SQL A) db e db1 db2 r db3
  (Hfail : exec open_tx m db = (Err e, db1)) (Hsteps : rtc tx_step db1 db2)
  (Hcommit : Commit open_tx db2 = (r, db3)) :
  is_ok r = false ∧ db_committed db3 = db_committed db.
Proof.
  apply exec_err_poisons in Hfail as [Hp Hc].
  assert (poisoned db2) as Hp2.
  { eapply (tx_steps_preserve poisoned);
      [apply exec_keeps_poisoned|apply rollback_keeps_poisoned|exact Hsteps|exact Hp]. }
  assert (db_committed db2 = db_committed db1) as Hc2.
  { eapply (tx_steps_preserve (λ db', db_committed db' = db_committed db1));
      [apply exec_keeps_committed|apply rollback_keeps_committed|exact Hsteps|done]. }
  destruct (commit_poisoned _ _ _ Hp2 Hcommit). split; [done|congruence].
Qed.
End Transactions.
