(* ===== verification/EthClient.v ===== *)
(** * The node and the runtime

    What the claim managers read from outside: the node of the network they
    claim on, through [utils.Client], the clock, and the order in which Go visits
    the keys of a map. *)
From S2P Require Import Prelude Types.

(** The clock, and the order in which [range] visits the keys of a map. *)
Class Runtime (E : Type) : Type := {
  Now : M E Z;
  MapRange : ∀ {K : Type}, list K → M E (list K);
}.
(** Every key is visited once. *)
Class RuntimeOk (E : Type) `{!Runtime E} : Type := {
  MapRange_ok {K : Type} (ids : list K) e r e' : MapRange ids e = (r, e') → ∃ ids', r = Ok ids' ∧ ids' ≡ₚ ids;
  Now_ok e : ∃ t e', Now e = (Ok t, e');
}.

Record Receipt := mkReceipt { rc_Status : Z; rc_Logs : Z (* len(receipt.Logs) *) }.

(** [ethereum.CallMsg]. *)
Record CallMsg := mkCallMsg {
  cm_From : bytes; cm_To : option bytes; cm_Value : option Z; cm_Data : bytes;
}.
(** [types.LegacyTx]. *)
Record LegacyTx := mkLegacyTx {
  lt_To : option bytes; lt_Nonce : Z; lt_Value : option Z; lt_Data : bytes; lt_Gas : Z; lt_GasPrice : option Z;
}.

(** The client of go-ethereum and the signer of the account; a signed
    transaction is identified by its hash. *)
Class EthNode (E : Type) : Type := {
  TransactionReceipt : bytes → M E Receipt;
  TransactionByHash : bytes → M E unit;
  SendTransaction : bytes → M E unit;
  EstimateGas : CallMsg → M E Z;
  SuggestGasPrice : M E Z;
  NonceAt : bytes → M E Z;
  Signer : bytes → LegacyTx → M E bytes;
}.

(** The texts of hashes and errors in messages. *)
Class Texts : Type := {
  hash_text : bytes → string;
  error_text : error → string;
}.

Section EthClient.
Context {E : Type} {Node : EthNode E}.

(** [None] is a transaction without a receipt. *)
Definition CheckTxWasMined (txHash : bytes) : M E (option Receipt) :=
  r ← attempt (TransactionReceipt txHash);
  match r with
  | inl receipt => mret (Some receipt)
  | inr err => if errors_Is err ErrNotFound then mret None else throw err
  end.
End EthClient.
