(* ===== verification/Etherman.v ===== *)
(** * The reader of the events of a chain

    [etherman/etherman.go] and [xlayer_etherman.go]: the logs of a range of
    blocks become blocks with their events by kind, and for each block the order
    in which the events came.  The node, the generated bindings of the contracts
    and Keccak are interfaces. *)
From Stdlib Require Import Strings.String.
From S2P Require Import Prelude Types GlobalIndex Hashing EthClient.

(** [types.Log]. *)
Record Log := mkLog {
  lg_Address : bytes;
  lg_Topics : list bytes;
  lg_Data : bytes;
  lg_BlockNumber : Z;
  lg_BlockHash : bytes;
  lg_TxHash : bytes;
}.
(** [ethereum.FilterQuery]; [None] is a nil [ToBlock]. *)
Record FilterQuery := mkFilterQuery {
  fq_FromBlock : Z;
  fq_ToBlock : option Z;
  fq_Addresses : list bytes;
  fq_Topics : list (list bytes);
}.

(** [FilterLogs], and the time of [BlockByHash] in seconds. *)
Class ChainReader (E : Type) : Type := {
  FilterLogs : FilterQuery → M E (list Log);
  BlockByHash_Time : bytes → M E Z;
}.

(** ** What the bindings parse *)
Record BridgeEvent := mkBridgeEvent {
  be_LeafType : Z; be_OriginNetwork : Z; be_OriginAddress : bytes; be_DestinationNetwork : Z;
  be_DestinationAddress : bytes; be_Amount : Z; be_Metadata : bytes; be_DepositCount : Z;
}.
Record ClaimEvent := mkClaimEvent {
  ce_GlobalIndex : Z; ce_OriginNetwork : Z; ce_OriginAddress : bytes; ce_DestinationAddress : bytes; ce_Amount : Z;
}.
Record OldClaimEvent := mkOldClaimEvent {
  oce_Index : Z; oce_OriginNetwork : Z; oce_OriginAddress : bytes; oce_DestinationAddress : bytes; oce_Amount : Z;
}.
Record NewWrappedToken := mkNewWrappedToken {
  nw_OriginNetwork : Z; nw_OriginTokenAddress : bytes; nw_WrappedTokenAddress : bytes; nw_Metadata : bytes;
}.
Record VerifyBatches := mkVerifyBatches {
  ve_RollupID : Z; ve_NumBatch : Z; ve_StateRoot : bytes; ve_ExitRoot : bytes; ve_Aggregator : bytes;
}.
Class Bindings : Type := {
  ParseInsertGlobalExitRoot : Log → res bytes;
  ParseRemoveLastGlobalExitRoot : Log → res bytes;
  ParseUpdateHashChainValue : Log → res bytes;
  ParseUpdateRemovalHashChainValue : Log → res bytes;
  ParseUpdateL1InfoTree : Log → res (bytes * bytes);
  ParseBridgeEvent : Log → res BridgeEvent;
  ParseClaimEvent : Log → res ClaimEvent;
  ParseOldClaimEvent : Log → res OldClaimEvent;
  ParseNewWrappedToken : Log → res NewWrappedToken;
  ParseVerifyBatchesTrustedAggregator : Log → res VerifyBatches;
  ParseVerifyBatches : Log → res VerifyBatches;
}.

(** The bindings a client has: those of the global exit root and of the rollup
    manager on L1, those of the sovereign chains on some L2. *)
Record Client := mkClient {
  ec_SCAddresses : list bytes;
  ec_L1 : bool;                (* PolygonZkEVMGlobalExitRoot, PolygonRollupManager are not nil *)
  ec_sovereign : bool;         (* OldGerL2SovereignChain, GerL2SovereignChain are not nil *)
  ec_NetworkID : Z;
}.

(** ** The signatures of the events *)
Inductive handler : Type :=
| updateGlobalExitRootEvent | updateL1InfoTreeEvent | depositEvent | newClaimEvent | oldClaimEvent
| tokenWrappedEvent | verifyBatchesTrustedAggregatorEvent | verifyBatchesEvent
| insertSovereignChainL2GER | removeLastL2GER | updateHashSovereignChainValue
| updateRemovalHashSovereignChainValue | ignored.

(** The cases of [processEvent], in their order. *)
Definition event_cases : list (string * handler) := [
  ("UpdateGlobalExitRoot(bytes32,bytes32)", updateGlobalExitRootEvent);
  ("UpdateL1InfoTree(bytes32,bytes32)", updateL1InfoTreeEvent);
  ("BridgeEvent(uint8,uint32,address,uint32,address,uint256,bytes,uint32)", depositEvent);
  ("ClaimEvent(uint256,uint32,address,address,uint256)", newClaimEvent);
  ("ClaimEvent(uint32,uint32,address,address,uint256)", oldClaimEvent);
  ("NewWrappedToken(uint32,address,address,bytes)", tokenWrappedEvent);
  ("Initialized(uint8)", ignored);
  ("AdminChanged(address,address)", ignored);
  ("BeaconUpgraded(address)", ignored);
  ("Upgraded(address)", ignored);
  ("OwnershipTransferred(address,address)", ignored);
  ("SetBatchFee(uint256)", ignored);
  ("SetTrustedAggregator(address)", ignored);
  ("SetVerifyBatchTimeTarget(uint64)", ignored);
  ("SetMultiplierBatchFee(uint16)", ignored);
  ("SetPendingStateTimeout(uint64)", ignored);
  ("SetTrustedAggregatorTimeout(uint64)", ignored);
  ("OverridePendingState(uint32,uint64,bytes32,bytes32,address)", ignored);
  ("ProveNonDeterministicPendingState(bytes32,bytes32)", ignored);
  ("ConsolidatePendingState(uint32,uint64,bytes32,bytes32,uint64)", ignored);
  ("VerifyBatchesTrustedAggregator(uint32,uint64,bytes32,bytes32,address)", verifyBatchesTrustedAggregatorEvent);
  ("VerifyBatches(uint32,uint64,bytes32,bytes32,address)", verifyBatchesEvent);
  ("OnSequenceBatches(uint32,uint64)", ignored);
  ("UpdateRollup(uint32,uint32,uint64)", ignored);
  ("AddExistingRollup(uint32,uint64,address,uint64,uint8,uint64)", ignored);
  ("CreateNewRollup(uint32,uint32,address,uint64,address)", ignored);
  ("ObsoleteRollupType(uint32)", ignored);
  ("AddNewRollupType(uint32,address,address,uint64,uint8,bytes32,string)", ignored);
  ("Initialized(uint64)", ignored);
  ("RoleAdminChanged(bytes32,bytes32,bytes32)", ignored);
  ("RoleGranted(bytes32,address,address)", ignored);
  ("RoleRevoked(bytes32,address,address)", ignored);
  ("EmergencyStateActivated()", ignored);
  ("EmergencyStateDeactivated()", ignored);
  ("VerifyBatchesTrustedAggregator(uint64,bytes32,address)", ignored);
  ("UpdateZkEVMVersion(uint64,uint64,string)", ignored);
  ("ConsolidatePendingState(uint64,bytes32,uint64)", ignored);
  ("OverridePendingState(uint64,bytes32,address)", ignored);
  ("SequenceBatches(uint64)", ignored);
  ("SetForceBatchTimeout(uint64)", ignored);
  ("SetTrustedSequencerURL(string)", ignored);
  ("SetTrustedSequencer(address)", ignored);
  ("VerifyBatches(uint64,bytes32,address)", ignored);
  ("SequenceForceBatches(uint64)", ignored);
  ("ForceBatch(uint64,bytes32,address,bytes)", ignored);
  ("SequenceBatches(uint64,bytes32)", ignored);
  ("AcceptAdminRole(address)", ignored);
  ("TransferAdminRole(address)", ignored);
  ("InsertGlobalExitRoot(bytes32)", insertSovereignChainL2GER);
  ("RemoveLastGlobalExitRoot(bytes32)", removeLastL2GER);
  ("UpdateHashChainValue(bytes32,bytes32)", updateHashSovereignChainValue);
  ("UpdateRemovalHashChainValue(bytes32,bytes32)", updateRemovalHashSovereignChainValue);
  ("SetBridgeManager(address)", ignored);
  ("SetSovereignTokenAddress(uint32,address,address,bool)", ignored);
  ("MigrateLegacyToken(address,address,address,uint256)", ignored);
  ("RemoveLegacySovereignTokenAddress(address)", ignored);
  ("SetSovereignWETHAddress(address,bool)", ignored)
]%string.

(** ** The blocks that are built *)
Definition push_GlobalExitRoot (g : GlobalExitRoot) (b : Block) : Block :=
  mkBlock (blk_ID b) (blk_BlockNumber b) (blk_BlockHash b) (blk_NetworkID b) (blk_GlobalExitRoots b ++ [g])
    (blk_RemoveL2GER b) (blk_Deposits b) (blk_Claims b) (blk_Tokens b) (blk_VerifiedBatches b)
    (blk_ActivateEtrog b) (blk_ReceivedAt b).
Definition push_RemoveL2GER (g : GlobalExitRoot) (b : Block) : Block :=
  mkBlock (blk_ID b) (blk_BlockNumber b) (blk_BlockHash b) (blk_NetworkID b) (blk_GlobalExitRoots b)
    (blk_RemoveL2GER b ++ [g]) (blk_Deposits b) (blk_Claims b) (blk_Tokens b) (blk_VerifiedBatches b)
    (blk_ActivateEtrog b) (blk_ReceivedAt b).
Definition push_Deposit (d : Deposit) (b : Block) : Block :=
  mkBlock (blk_ID b) (blk_BlockNumber b) (blk_BlockHash b) (blk_NetworkID b) (blk_GlobalExitRoots b)
    (blk_RemoveL2GER b) (blk_Deposits b ++ [d]) (blk_Claims b) (blk_Tokens b) (blk_VerifiedBatches b)
    (blk_ActivateEtrog b) (blk_ReceivedAt b).
Definition push_Claim (c : Claim) (b : Block) : Block :=
  mkBlock (blk_ID b) (blk_BlockNumber b) (blk_BlockHash b) (blk_NetworkID b) (blk_GlobalExitRoots b)
    (blk_RemoveL2GER b) (blk_Deposits b) (blk_Claims b ++ [c]) (blk_Tokens b) (blk_VerifiedBatches b)
    (blk_ActivateEtrog b) (blk_ReceivedAt b).
Definition push_Token (t : TokenWrapped) (b : Block) : Block :=
  mkBlock (blk_ID b) (blk_BlockNumber b) (blk_BlockHash b) (blk_NetworkID b) (blk_GlobalExitRoots b)
    (blk_RemoveL2GER b) (blk_Deposits b) (blk_Claims b) (blk_Tokens b ++ [t]) (blk_VerifiedBatches b)
    (blk_ActivateEtrog b) (blk_ReceivedAt b).
Definition push_VerifiedBatch (v : VerifiedBatch) (b : Block) : Block :=
  mkBlock (blk_ID b) (blk_BlockNumber b) (blk_BlockHash b) (blk_NetworkID b) (blk_GlobalExitRoots b)
    (blk_RemoveL2GER b) (blk_Deposits b) (blk_Claims b) (blk_Tokens b) (blk_VerifiedBatches b ++ [v])
    (blk_ActivateEtrog b) (blk_ReceivedAt b).

(** ** Reading *)

(** The world, the blocks so far and their orders. *)
Record Scan (E : Type) := mkScan {
  sc_env : E;
  sc_blocks : list Block;
  sc_order : gmap bytes (list Order);
}.
Arguments mkScan {E}.
Arguments sc_env {E}.
Arguments sc_blocks {E}.
Arguments sc_order {E}.

(** [time.Unix(sec, 0)]. *)
Definition time_Unix (sec : Z) : Z := sec * 1000000000.

Section Etherman.
Context {K : Keccak} {E : Type} {Run : Runtime E} {Chain : ChainReader E} {Bind : Bindings}.
Context (etherMan : Client).
Abbreviation Sc := (M (Scan E)).

Definition on_chain {A} (m : M E A) : Sc A := zoom sc_env (λ e s, mkScan e (sc_blocks s) (sc_order s)) m.

Definition signature_hash (s : string) : bytes := keccak256 (list_byte_of_string s).
Definition hash (data : list bytes) : bytes := keccak256 (concat data).

(** The time of the block of a log, the time of the clock when it cannot be
    read. *)
Definition getFullBlockTime (vLog : Log) : Sc Z :=
  r ← attempt (on_chain (BlockByHash_Time (lg_BlockHash vLog)));
  match r with
  | inr _ => on_chain Now
  | inl sec => mret (time_Unix (int64 sec))
  end.

Definition same_block (vLog : Log) (b : Block) : bool :=
  bool_decide (blk_BlockHash b = lg_BlockHash vLog) && bool_decide (blk_BlockNumber b = lg_BlockNumber vLog).
Definition other_block (vLog : Log) (b : Block) : bool :=
  bool_decide (blk_BlockHash b ≠ lg_BlockHash vLog) || bool_decide (blk_BlockNumber b ≠ lg_BlockNumber vLog).
Definition log_block (vLog : Log) (receivedAt : Z) : Block :=
  mkBlock 0 (lg_BlockNumber vLog) (lg_BlockHash vLog) 0 [] [] [] [] [] [] [] receivedAt.

Definition set_blocks (bs : list Block) (s : Scan E) : Scan E := mkScan (sc_env s) bs (sc_order s).
Definition add_order (h : bytes) (o : Order) (s : Scan E) : Scan E :=
  mkScan (sc_env s) (sc_blocks s) (<[h := default [] (sc_order s !! h) ++ [o]]> (sc_order s)).

(** The part the handlers share.  An event of a new block makes a block, which
    [first] puts it in; one of the last block is put there by [next]; its order is
    appended to that of the block. *)
Definition add_event (vLog : Log) (receivedAt : Sc Z) (first next : Block → Block) (name : EventOrder)
    (count : Block → nat) (msg : string) : Sc unit :=
  s ← get;
  (match last (sc_blocks s) with
   | None => t ← receivedAt; s ← get; modify (set_blocks (sc_blocks s ++ [first (log_block vLog t)]))
   | Some b =>
       if other_block vLog b then
         t ← receivedAt; s ← get; modify (set_blocks (sc_blocks s ++ [first (log_block vLog t)]))
       else if same_block vLog b then modify (set_blocks (removelast (sc_blocks s) ++ [next b]))
       else throw (Errorf msg [])
   end);;
  s ← get;
  match last (sc_blocks s) with
  | None => gopanic "index out of range"
  | Some b => modify (add_order (blk_BlockHash b) (mkOrder name (Z.of_nat (count b) - 1)))
  end.

Definition no_time : Sc Z := mret zero_time.

(** A method of a nil binding panics. *)
Definition bound {A} (present : bool) (r : res A) : Sc A :=
  if present then lift_res r else gopanic "invalid memory address or nil pointer dereference".

Definition removeL2GER (removedGlobalExitRoot : bytes) (vLog : Log) : Sc unit :=
  let gExitRoot := mkGlobalExitRoot 0 (lg_BlockNumber vLog) [] removedGlobalExitRoot 0 0 zero_time in
  add_event vLog no_time (push_RemoveL2GER gExitRoot) (push_RemoveL2GER gExitRoot) RemoveL2GEROrder
    (λ b, length (blk_RemoveL2GER b)) "error processing removeL2GER event".

Definition addSovereignChainL2GER (newGlobalExitRoot : bytes) (vLog : Log) : Sc unit :=
  let gExitRoot := mkGlobalExitRoot 0 (lg_BlockNumber vLog) [] newGlobalExitRoot 0 0 zero_time in
  add_event vLog no_time (push_GlobalExitRoot gExitRoot) (push_GlobalExitRoot gExitRoot) GlobalExitRootsOrder
    (λ b, length (blk_GlobalExitRoots b)) "error processing addSovereignChainL2GER event".

Definition processUpdateGlobalExitRootEvent (mainnetExitRoot rollupExitRoot : bytes) (vLog : Log) : Sc unit :=
  fullBlockTime ← getFullBlockTime vLog;
  let gExitRoot := mkGlobalExitRoot 0 (lg_BlockNumber vLog) [mainnetExitRoot; rollupExitRoot]
    (hash [mainnetExitRoot; rollupExitRoot]) 0 0 fullBlockTime in
  add_event vLog (mret fullBlockTime) (push_GlobalExitRoot gExitRoot) (push_GlobalExitRoot gExitRoot)
    GlobalExitRootsOrder (λ b, length (blk_GlobalExitRoots b)) "error processing UpdateGlobalExitRoot event".

(** The deposit of a new block is appended before its time is set: the copy in
    the block keeps the zero time. *)
Definition depositEvent_deposit (vLog : Log) (d : BridgeEvent) : Deposit :=
  mkDeposit 0 (be_LeafType d) (be_OriginNetwork d) (be_OriginAddress d) (be_Amount d) (be_DestinationNetwork d)
    (be_DestinationAddress d) (be_DepositCount d) 0 (lg_BlockNumber vLog) 0 (lg_TxHash vLog) (be_Metadata d)
    false zero_time zero_time zero_address.
Definition process_depositEvent (vLog : Log) : Sc unit :=
  d ← lift_res (ParseBridgeEvent vLog);
  let deposit := depositEvent_deposit vLog d in
  add_event vLog (getFullBlockTime vLog) (push_Deposit deposit)
    (λ b, push_Deposit (set_dep_Time (blk_ReceivedAt b) deposit) b) DepositsOrder
    (λ b, length (blk_Deposits b)) "error processing Deposit event".

(** Likewise for a claim. *)
Definition claimEvent (vLog : Log) (amount : Z) (destinationAddress originAddress : bytes)
    (Index originNetwork rollupIndex : Z) (mainnetFlag : bool) : Sc unit :=
  let claim := mkClaim mainnetFlag rollupIndex Index originNetwork originAddress amount destinationAddress
    0 (lg_BlockNumber vLog) 0 (lg_TxHash vLog) zero_time in
  add_event vLog (getFullBlockTime vLog) (push_Claim claim)
    (λ b, push_Claim (set_clm_Time (blk_ReceivedAt b) claim) b) ClaimsOrder
    (λ b, length (blk_Claims b)) "error processing claim event".
Definition process_oldClaimEvent (vLog : Log) : Sc unit :=
  c ← lift_res (ParseOldClaimEvent vLog);
  claimEvent vLog (oce_Amount c) (oce_DestinationAddress c) (oce_OriginAddress c) (oce_Index c)
    (oce_OriginNetwork c) 0 false.
Definition process_newClaimEvent (vLog : Log) : Sc unit :=
  c ← lift_res (ParseClaimEvent vLog);
  '(mainnetFlag, rollupIndex, localExitRootIndex) ← lift_res (DecodeGlobalIndex (ce_GlobalIndex c));
  claimEvent vLog (ce_Amount c) (ce_DestinationAddress c) (ce_OriginAddress c) localExitRootIndex
    (ce_OriginNetwork c) rollupIndex mainnetFlag.

Definition process_tokenWrappedEvent (vLog : Log) : Sc unit :=
  tw ← lift_res (ParseNewWrappedToken vLog);
  let tokenWrapped := mkTokenWrapped (mkTokenMetadata "" "" 0) (nw_OriginNetwork tw) (nw_OriginTokenAddress tw)
    (nw_WrappedTokenAddress tw) 0 (lg_BlockNumber vLog) 0 in
  add_event vLog (getFullBlockTime vLog) (push_Token tokenWrapped) (push_Token tokenWrapped) TokensOrder
    (λ b, length (blk_Tokens b)) "error processing TokenWrapped event".

Definition verifyBatches (vLog : Log) (vb : VerifyBatches) : Sc unit :=
  let verifyBatch := mkVerifiedBatch (lg_BlockNumber vLog) (ve_NumBatch vb) (ve_RollupID vb) (ve_ExitRoot vb)
    (lg_TxHash vLog) (ve_StateRoot vb) (ve_Aggregator vb) in
  add_event vLog (getFullBlockTime vLog) (push_VerifiedBatch verifyBatch) (push_VerifiedBatch verifyBatch)
    VerifyBatchOrder (λ b, length (blk_VerifiedBatches b)) "error processing verifyBatch event".

Definition process_updateGlobalExitRootEvent (vLog : Log) : Sc unit :=
  t1 ← lift_res (at_index (lg_Topics vLog) 1);
  t2 ← lift_res (at_index (lg_Topics vLog) 2);
  processUpdateGlobalExitRootEvent t1 t2 vLog.
Definition process_updateL1InfoTreeEvent (vLog : Log) : Sc unit :=
  '(m, r) ← bound (ec_L1 etherMan) (ParseUpdateL1InfoTree vLog); processUpdateGlobalExitRootEvent m r vLog.
Definition process_verifyBatchesTrustedAggregatorEvent (vLog : Log) : Sc unit :=
  vb ← bound (ec_L1 etherMan) (ParseVerifyBatchesTrustedAggregator vLog); verifyBatches vLog vb.
Definition process_verifyBatchesEvent (vLog : Log) : Sc unit :=
  vb ← bound (ec_L1 etherMan) (ParseVerifyBatches vLog); verifyBatches vLog vb.
Definition process_insertSovereignChainL2GER (vLog : Log) : Sc unit :=
  g ← bound (ec_sovereign etherMan) (ParseInsertGlobalExitRoot vLog); addSovereignChainL2GER g vLog.
Definition process_removeLastL2GER (vLog : Log) : Sc unit :=
  g ← bound (ec_sovereign etherMan) (ParseRemoveLastGlobalExitRoot vLog); removeL2GER g vLog.
Definition process_updateHashSovereignChainValue (vLog : Log) : Sc unit :=
  g ← bound (ec_sovereign etherMan) (ParseUpdateHashChainValue vLog); addSovereignChainL2GER g vLog.
Definition process_updateRemovalHashSovereignChainValue (vLog : Log) : Sc unit :=
  g ← bound (ec_sovereign etherMan) (ParseUpdateRemovalHashChainValue vLog); removeL2GER g vLog.

Definition handle (h : handler) (vLog : Log) : Sc unit :=
  match h with
  | updateGlobalExitRootEvent => process_updateGlobalExitRootEvent vLog
  | updateL1InfoTreeEvent => process_updateL1InfoTreeEvent vLog
  | depositEvent => process_depositEvent vLog
  | newClaimEvent => process_newClaimEvent vLog
  | oldClaimEvent => process_oldClaimEvent vLog
  | tokenWrappedEvent => process_tokenWrappedEvent vLog
  | verifyBatchesTrustedAggregatorEvent => process_verifyBatchesTrustedAggregatorEvent vLog
  | verifyBatchesEvent => process_verifyBatchesEvent vLog
  | insertSovereignChainL2GER => process_insertSovereignChainL2GER vLog
  | removeLastL2GER => process_removeLastL2GER vLog
  | updateHashSovereignChainValue => process_updateHashSovereignChainValue vLog
  | updateRemovalHashSovereignChainValue => process_updateRemovalHashSovereignChainValue vLog
  | ignored => mret tt
  end.

(** An event that is not registered is ignored. *)
Definition event_handler (topic : bytes) : handler :=
  match find (λ c : string * handler, bool_decide (topic = signature_hash c.1)) event_cases with
  | Some c => c.2
  | None => ignored
  end.
Definition processEvent (vLog : Log) : Sc unit :=
  topic ← lift_res (at_index (lg_Topics vLog) 0);
  handle (event_handler topic) vLog.

(** The loop over the logs, which starts from no blocks. *)
Definition process_logs (logs : list Log) : M E (list Block * gmap bytes (list Order)) := λ e,
  match for_each logs processEvent (mkScan e [] ∅) with
  | (Ok _, s) => (Ok (sc_blocks s, sc_order s), sc_env s)
  | (Err err, s) => (Err err, sc_env s)
  | (Panic p, s) => (Panic p, sc_env s)
  end.
Definition readEvents (query : FilterQuery) : M E (list Block * gmap bytes (list Order)) :=
  logs ← FilterLogs query; process_logs logs.

Definition query_topics : list string := [
  "UpdateGlobalExitRoot(bytes32,bytes32)";
  "UpdateL1InfoTree(bytes32,bytes32)";
  "BridgeEvent(uint8,uint32,address,uint32,address,uint256,bytes,uint32)";
  "ClaimEvent(uint256,uint32,address,address,uint256)";
  "ClaimEvent(uint32,uint32,address,address,uint256)";
  "NewWrappedToken(uint32,address,address,bytes)";
  "VerifyBatchesTrustedAggregator(uint32,uint64,bytes32,bytes32,address)";
  "VerifyBatches(uint32,uint64,bytes32,bytes32,address)";
  "InsertGlobalExitRoot(bytes32)";
  "RemoveLastGlobalExitRoot(bytes32)";
  "UpdateHashChainValue(bytes32,bytes32)";
  "UpdateRemovalHashChainValue(bytes32,bytes32)"
]%string.
Definition GetRollupInfoByBlockRange (fromBlock : Z) (toBlock : option Z)
  : M E (list Block * gmap bytes (list Order)) :=
  readEvents (mkFilterQuery fromBlock toBlock (ec_SCAddresses etherMan) [signature_hash <$> query_topics]).
End Etherman.
