(* ===== verification/PendingTxs.v ===== *)
(** * Pending claim transactions

    [claimtxman/pending_txs.go], [groups_trigger.go] and [store_changes.go]: the
    claim transactions that are not finished, the groups some of them are in, and
    the changes of the groups that are written back to the storage.  [NewPendingTxs]
    splits the transactions: those that can be grouped, and those of each group. *)
From S2P Require Import Prelude Types MerkleStore MonitoredTx Tables Storage EthClient.
(** [ConfigGroupingClaims]; durations are nanoseconds. *)
Record ConfigGroupingClaims := mkConfigGroupingClaims {
  gc_TriggerNumberOfClaims : Z;
  gc_MaxNumberOfClaimsPerGroup : Z;
  gc_TriggerRetainedClaimPeriod : Z;
  gc_MaxRetries : Z;
  gc_RetryInterval : Z;
  gc_RetryTimeout : Z;
}.

(** ** The trigger of a new group *)
Definition isRetainedPeriodSurpassed (cfg : ConfigGroupingClaims) (now : Z) (txs : list MonitoredTx) : bool :=
  existsb (λ tx, bool_decide (now - mtx_CreatedAt tx > gc_TriggerRetainedClaimPeriod cfg)) txs.

Fixpoint chooseGroupTx_loop (max : Z) (txs group : list MonitoredTx) : list MonitoredTx :=
  match txs with
  | [] => group
  | tx :: txs =>
      let group := group ++ [tx] in
      if bool_decide (Z.of_nat (length group) = max) then group else chooseGroupTx_loop max txs group
  end.
Definition chooseGroupTx (cfg : ConfigGroupingClaims) (txs : list MonitoredTx) : list MonitoredTx :=
  chooseGroupTx_loop (gc_MaxNumberOfClaimsPerGroup cfg) txs [].

(** No transaction is the nil slice. *)
Definition ChooseTxs (cfg : ConfigGroupingClaims) (now : Z) (txs : list MonitoredTx) : list MonitoredTx :=
  if isRetainedPeriodSurpassed cfg now txs then chooseGroupTx cfg txs
  else if bool_decide (gc_TriggerNumberOfClaims cfg ≤ Z.of_nat (length txs)) then chooseGroupTx cfg txs
  else [].

(** ** The pending transactions *)
Record PendingTxs := mkPendingTxs {
  pend_GroupTx : gmap Z MonitoredTxGroup;
  pend_TxCandidatesForGroup : list MonitoredTx;
  pend_LastGroupTxID : Z;
}.

Definition set_GroupTx (m : gmap Z MonitoredTxGroup) (p : PendingTxs) : PendingTxs :=
  mkPendingTxs m (pend_TxCandidatesForGroup p) (pend_LastGroupTxID p).

Definition IsEmpty (p : PendingTxs) : bool :=
  bool_decide (size (pend_GroupTx p) = 0%nat) &&
  bool_decide (length (pend_TxCandidatesForGroup p) = 0%nat).

Definition GenerateNewGroupID (p : PendingTxs) : Z * PendingTxs :=
  let n := wrap64 (pend_LastGroupTxID p + 1) in
  (n, mkPendingTxs (pend_GroupTx p) (pend_TxCandidatesForGroup p) n).

Definition addTxCandidatesForGroup (tx : MonitoredTx) (p : PendingTxs) : PendingTxs :=
  mkPendingTxs (pend_GroupTx p) (pend_TxCandidatesForGroup p ++ [tx]) (pend_LastGroupTxID p).

(** [&ctmtypes.MonitoredTxGroup{}]. *)
Definition zero_group : MonitoredTxGroup :=
  mkMonitoredTxGroup
    (mkMonitoredTxGroupDBEntry 0 MonitoredTxGroupStatusEmpty [] None None zero_time zero_time 0 "") [].
Definition addTxToGroup (group : Z) (tx : MonitoredTx) (p : PendingTxs) : PendingTxs :=
  set_GroupTx (<[group := AddTx tx (default zero_group (pend_GroupTx p !! group))]> (pend_GroupTx p)) p.

(** A group that is already there is not replaced. *)
Definition AddGroup (group : MonitoredTxGroup) (p : PendingTxs) : PendingTxs :=
  let id := grp_GroupID (mg_DbEntry group) in
  match pend_GroupTx p !! id with
  | Some _ => p
  | None => set_GroupTx (<[id := group]> (pend_GroupTx p)) p
  end.

Definition SetGroupDBEntry (group : MonitoredTxGroupDBEntry) (p : PendingTxs) : PendingTxs :=
  let txs := match pend_GroupTx p !! grp_GroupID group with Some g => mg_Txs g | None => [] end in
  set_GroupTx (<[grp_GroupID group := AssignTxsGroupID (mkMonitoredTxGroup group txs)]> (pend_GroupTx p)) p.

Fixpoint NewPendingTxs_loop (ger : bytes) (groups : gmap Z MonitoredTxGroupDBEntry)
    (mTxs : list MonitoredTx) (result : PendingTxs) : res PendingTxs :=
  match mTxs with
  | [] => Ok result
  | tx :: mTxs =>
      if IsCandidateToBeGrouped ger tx
      then NewPendingTxs_loop ger groups mTxs (addTxCandidatesForGroup tx result)
      else match mtx_GroupID tx with
           | None => NewPendingTxs_loop ger groups mTxs result
           | Some id =>
               match groups !! id with
               | None => Err (Errorf "group %d not found" [id])
               | Some groupEntry =>
                   NewPendingTxs_loop ger groups mTxs (addTxToGroup id tx (SetGroupDBEntry groupEntry result))
               end
           end
  end.
Definition NewPendingTxs (mTxs : list MonitoredTx) (groups : gmap Z MonitoredTxGroupDBEntry)
    (lastGroupID : Z) : res PendingTxs :=
  let ger := match mTxs with tx :: _ => mtx_GlobalExitRoot tx | [] => zero_hash end in
  NewPendingTxs_loop ger groups mTxs (mkPendingTxs ∅ [] lastGroupID).

(** ** What is written back *)
Record StoreChanges := mkStoreChanges {
  sc_AddGroups : list MonitoredTxGroupDBEntry;
  sc_UpdateGroups : list MonitoredTxGroupDBEntry;
  sc_UpdateTxs : list MonitoredTx;
}.
Definition NewStoreChanges : StoreChanges := mkStoreChanges [] [] [].
Definition sc_AddGroup (g : MonitoredTxGroupDBEntry) (sc : StoreChanges) : StoreChanges :=
  mkStoreChanges (sc_AddGroups sc ++ [g]) (sc_UpdateGroups sc) (sc_UpdateTxs sc).
Definition sc_UpdateGroup (g : MonitoredTxGroupDBEntry) (sc : StoreChanges) : StoreChanges :=
  mkStoreChanges (sc_AddGroups sc) (sc_UpdateGroups sc ++ [g]) (sc_UpdateTxs sc).
Definition sc_UpdateTx (tx : MonitoredTx) (sc : StoreChanges) : StoreChanges :=
  mkStoreChanges (sc_AddGroups sc) (sc_UpdateGroups sc) (sc_UpdateTxs sc ++ [tx]).

(** [cmp.Equal] of go-cmp. *)
Class GoCmp : Type := {
  cmp_entry : MonitoredTxGroupDBEntry → MonitoredTxGroupDBEntry → res bool;
  cmp_tx : MonitoredTx → MonitoredTx → res bool;
}.
(** Structures are compared field by field; a [big.Int] has unexported fields,
    on which [cmp.Equal] panics. *)
Class GoCmpOk `{!GoCmp} : Type := {
  cmp_entry_ok e e' : cmp_entry e e' = Ok (bool_decide (e = e'));
  cmp_tx_ok t t' : mtx_Value t = None → mtx_GasPrice t = None → mtx_Value t' = None → mtx_GasPrice t' = None →
    cmp_tx t t' = Ok (bool_decide (t = t'));
}.

Section Store.
Context {Cmp : GoCmp} {E : Type} {Run : Runtime E}.

Definition group_ids (p : PendingTxs) : list Z := (map_to_list (pend_GroupTx p)).*1.

Definition store_group (oldState newState : PendingTxs) (groupID : Z) (sc : StoreChanges) : M E StoreChanges :=
  match pend_GroupTx newState !! groupID with
  | None => mret sc
  | Some group =>
      match pend_GroupTx oldState !! groupID with
      | None =>
          time ← Now;
          mret (sc_AddGroup (set_grp_DepositIDs (GetTxsDepositID group)
                               (set_grp_UpdatedAt time (mg_DbEntry group))) sc)
      | Some oldGroup =>
          same ← lift_res (cmp_entry (mg_DbEntry oldGroup) (mg_DbEntry group));
          if (same : bool) then mret sc
          else time ← Now; mret (sc_UpdateGroup (set_grp_UpdatedAt time (mg_DbEntry group)) sc)
      end
  end.
Fixpoint store_groups (oldState newState : PendingTxs) (ids : list Z) (sc : StoreChanges) : M E StoreChanges :=
  match ids with
  | [] => mret sc
  | id :: ids => sc ← store_group oldState newState id sc; store_groups oldState newState ids sc
  end.

(** The transactions of a group that was there before, when they changed. *)
Fixpoint store_changed_txs (oldGroup : MonitoredTxGroup) (txs : list MonitoredTx) (sc : StoreChanges)
  : res StoreChanges :=
  match txs with
  | [] => Ok sc
  | tx :: txs =>
      match GetTxByDepositID (mtx_DepositID tx) oldGroup with
      | None => Err (Errorf "tx with depositID %d not found in old state" [mtx_DepositID tx])
      | Some oldTx =>
          same ← cmp_tx oldTx tx;
          store_changed_txs oldGroup txs (if (same : bool) then sc else sc_UpdateTx tx sc)
      end
  end.
Definition store_txs_of (oldState newState : PendingTxs) (groupID : Z) (sc : StoreChanges) : res StoreChanges :=
  match pend_GroupTx newState !! groupID with
  | None => Ok sc
  | Some group =>
      match pend_GroupTx oldState !! groupID with
      | Some oldGroup => store_changed_txs oldGroup (mg_Txs group) sc
      | None => Ok (fold_left (λ sc tx, sc_UpdateTx tx sc) (mg_Txs group) sc)
      end
  end.
Fixpoint store_txs (oldState newState : PendingTxs) (ids : list Z) (sc : StoreChanges) : res StoreChanges :=
  match ids with
  | [] => Ok sc
  | id :: ids => sc ← store_txs_of oldState newState id sc; store_txs oldState newState ids sc
  end.

Definition GenerateStoreUpdate (oldState newState : PendingTxs) : M E StoreChanges :=
  ids ← MapRange (group_ids newState);
  sc ← store_groups oldState newState ids NewStoreChanges;
  ids ← MapRange (group_ids newState);
  lift_res (store_txs oldState newState ids sc).

Context {J : Json}.
Abbreviation ED := (M (E * database)).
Definition on_env {A} (m : M E A) : ED A := zoom fst (λ e s, (e, s.2)) m.
Definition on_db {A} (m : M database A) : ED A := zoom snd (λ db s, (s.1, db)) m.

(** [StoreChanges.Execute]. *)
Definition Execute (sc : StoreChanges) (tx : Tx) : ED unit :=
  for_each (sc_AddGroups sc) (λ g,
    map_err (ErrorfW "storeChanges.Execute error adding MonitoresTxGroup. Err: %w")
      (on_db (AddMonitoredTxsGroup (Some g) tx)));;
  for_each (sc_UpdateGroups sc) (λ g,
    time ← on_env Now;
    on_db (UpdateMonitoredTxsGroup (Some (set_grp_UpdatedAt time g)) tx));;
  for_each (sc_UpdateTxs sc) (λ mTx,
    map_err (ErrorfW "storeChanges.Execute error UpdateClaimTx. Err: %w")
      (on_db (UpdateClaimTx mTx tx))).
End Store.

Lemma set_mtx_GroupID_same tx : set_mtx_GroupID (mtx_GroupID tx) tx = tx.
Proof. by destruct tx. Qed.

(** The group of a number, from its row and the transactions that point to it. *)
Definition group_of (groups : gmap Z MonitoredTxGroupDBEntry) (txs : list MonitoredTx) (id : Z)
  : option MonitoredTxGroup :=
  match filter (λ tx, mtx_GroupID tx = Some id) txs with
  | [] => None
  | members => e ← groups !! id; Some (mkMonitoredTxGroup e members)
  end.

Section Split.
Context (ger : bytes) (groups : gmap Z MonitoredTxGroupDBEntry).
Context (Hkeys : ∀ k e, groups !! k = Some e → grp_GroupID e = k).

(** The state of the loop after the transactions [pre]. *)
Definition split_upto (last : Z) (pre : list MonitoredTx) (p : PendingTxs) : Prop :=
  pend_LastGroupTxID p = last ∧
  pend_TxCandidatesForGroup p = filter (λ tx, IsCandidateToBeGrouped ger tx = true) pre ∧
  ∀ id, pend_GroupTx p !! id = group_of groups pre id.

Lemma members_snoc pre tx id :
  filter (λ tx, mtx_GroupID tx = Some id) (pre ++ [tx]) =
    filter (λ tx, mtx_GroupID tx = Some id) pre ++ (if decide (mtx_GroupID tx = Some id) then [tx] else []).
Proof. by rewrite filter_app. Qed.

Lemma group_of_other pre tx id : mtx_GroupID tx ≠ Some id →
  group_of groups (pre ++ [tx]) id = group_of groups pre id.
Proof. intros H. unfold group_of. by rewrite members_snoc, decide_False, app_nil_r. Qed.

Lemma candidate_no_group tx : IsCandidateToBeGrouped ger tx = true → mtx_GroupID tx = None.
Proof.
  unfold IsCandidateToBeGrouped. rewrite !andb_true_iff, !bool_decide_eq_true. tauto.
Qed.

Lemma split_candidate last pre tx p : IsCandidateToBeGrouped ger tx = true →
  split_upto last pre p → split_upto last (pre ++ [tx]) (addTxCandidatesForGroup tx p).
Proof.
  intros Hc (Hl & Hcs & Hg). split_and!; [done| |].
  - cbn. rewrite Hcs, filter_app, (filter_cons_True _ tx) by done. done.
  - intros id. rewrite group_of_other; [apply Hg|]. rewrite candidate_no_group by done. done.
Qed.
Lemma split_dropped last pre tx p : IsCandidateToBeGrouped ger tx = false → mtx_GroupID tx = None →
  split_upto last pre p → split_upto last (pre ++ [tx]) p.
Proof.
  intros Hc Hn (Hl & Hcs & Hg). split_and!; [done| |].
  - rewrite Hcs, filter_app, (filter_cons_False _ tx) by (by rewrite Hc). by rewrite app_nil_r.
  - intros id. rewrite group_of_other; [apply Hg|]. by rewrite Hn.
Qed.

Lemma same_groups id txs : Forall (λ tx, mtx_GroupID tx = Some id) txs →
  set_mtx_GroupID (Some id) <$> txs = txs.
Proof.
  induction 1 as [|tx txs H _ IH]; [done|]. rewrite fmap_cons, IH. f_equal.
  rewrite <- H. apply set_mtx_GroupID_same.
Qed.
Lemma split_member last pre tx p id e : IsCandidateToBeGrouped ger tx = false →
  mtx_GroupID tx = Some id → groups !! id = Some e → split_upto last pre p →
  split_upto last (pre ++ [tx]) (addTxToGroup id tx (SetGroupDBEntry e p)).
Proof.
  intros Hc Hid He (Hl & Hcs & Hg). pose proof (Hkeys _ _ He) as Hk. split_and!; [done| |].
  - cbn. rewrite Hcs, filter_app, (filter_cons_False _ tx) by (by rewrite Hc). by rewrite app_nil_r.
  - intros id'. unfold addTxToGroup, SetGroupDBEntry. cbn [pend_GroupTx set_GroupTx]. rewrite Hk.
    destruct (decide (id' = id)) as [->|Hne].
    + rewrite !lookup_insert_eq. cbn [from_option Datatypes.id]. unfold AddTx, AssignTxsGroupID. cbn [mg_DbEntry mg_Txs].
      unfold group_of. rewrite members_snoc, decide_True by done. rewrite Hk.
      specialize (Hg id). unfold group_of in Hg.
      assert (Hall : Forall (λ tx, mtx_GroupID tx = Some id) (filter (λ tx, mtx_GroupID tx = Some id) pre)).
      { apply Forall_forall. by intros t [? _]%list_elem_of_filter. }
      assert (Htx : set_mtx_GroupID (Some id) tx = tx) by (rewrite <- Hid; apply set_mtx_GroupID_same).
      rewrite Htx, Hg, He. cbn [mbind option_bind].
      destruct (filter (λ tx, mtx_GroupID tx = Some id) pre) as [|t ts] eqn:Ef; [done|].
      cbn [mbind option_bind mg_Txs]. by rewrite same_groups.
    + rewrite !lookup_insert_ne by done. rewrite group_of_other; [apply Hg|]. congruence.
Qed.

Lemma NewPendingTxs_loop_split last mTxs : ∀ pre p, split_upto last pre p →
  (∀ tx k, tx ∈ mTxs → mtx_GroupID tx = Some k → is_Some (groups !! k)) →
  ∃ p', NewPendingTxs_loop ger groups mTxs p = Ok p' ∧ split_upto last (pre ++ mTxs) p'.
Proof.
  induction mTxs as [|tx mTxs IH]; intros pre p Hp Hfound.
  { exists p. by rewrite app_nil_r. }
  replace (pre ++ tx :: mTxs) with ((pre ++ [tx]) ++ mTxs) by (by rewrite <- app_assoc).
  assert (Hrest : ∀ t k, t ∈ mTxs → mtx_GroupID t = Some k → is_Some (groups !! k)).
  { intros t k Ht. apply Hfound. by right. }
  cbn [NewPendingTxs_loop]. destruct (IsCandidateToBeGrouped ger tx) eqn:Hc.
  - by apply IH; [apply split_candidate|].
  - destruct (mtx_GroupID tx) as [id|] eqn:Hid; [|by apply IH; [apply split_dropped|]].
    destruct (Hfound tx id) as [e He]; [by left|done|]. rewrite He.
    by apply IH; [apply split_member|].
Qed.
End Split.

(** When the group of every transaction has a row, the pending transactions
    are exactly: the candidates, those that have no group, were never sent and
    have the global exit root of the first transaction; and for each group its row
    with the transactions that point to it, in their order.  The others are
    dropped. *)
Theorem NewPendingTxs_split mTxs groups lastGroupID
  (Hkeys : ∀ k e, groups !! k = Some e → grp_GroupID e = k)
  (Hfound : ∀ tx k, tx ∈ mTxs → mtx_GroupID tx = Some k → is_Some (groups !! k)) :
  let ger := from_option mtx_GlobalExitRoot zero_hash (head mTxs) in
  ∃ p, NewPendingTxs mTxs groups lastGroupID = Ok p ∧ pend_LastGroupTxID p = lastGroupID ∧
    pend_TxCandidatesForGroup p = filter (λ tx, IsCandidateToBeGrouped ger tx = true) mTxs ∧
    ∀ id, pend_GroupTx p !! id = group_of groups mTxs id.
Proof.
  intros ger. unfold NewPendingTxs.
  replace (match mTxs with tx :: _ => mtx_GlobalExitRoot tx | [] => zero_hash end) with ger by (by destruct mTxs).
  destruct (NewPendingTxs_loop_split ger groups Hkeys lastGroupID mTxs [] (mkPendingTxs ∅ [] lastGroupID))
    as (p & Hp & Hl & Hc & Hg); [by split_and!|exact Hfound|]. by exists p.
Qed.
