(* ===== verification/GroupMonitor.v ===== *)
(** * The monitor of compressed claims

    [claimtxman/monitor_compressed_txs.go] and [compose_compress_claim.go]: claim
    transactions are put in groups, each group is sent as one compressed
    transaction, and the receipts decide what becomes of the group.  A pass runs
    in one transaction of the storage; the contract of the compressor and the
    node are interfaces. *)
From stdpp Require Import pretty.
From S2P Require Import Prelude Types MonitoredTx MerkleStore Tables Storage EthClient PendingTxs.

(** ** The parameters of the compressor *)

Record bridgeClaimXParams := mk_bridgeClaimXParams {
  cx_smtProofLocalExitRoot : list bytes;
  cx_smtProofRollupExitRoot : list bytes;
  cx_globalIndex : Z;
  cx_mainnetExitRoot : bytes;
  cx_rollupExitRoot : bytes;
  cx_originNetwork : Z;
  cx_originTokenAddress : bytes;
  cx_destinationNetwork : Z;
  cx_destinationAddress : bytes;
  cx_amount : Z;
  cx_metadata : bytes;
  cx_isMessage : bool;
}.
(** [claimcompressor.ClaimCompressorCompressClaimCallData]. *)
Record CompressClaimCallData := mk_CompressClaimCallData {
  cd_SmtProofLocalExitRoot : list bytes;
  cd_SmtProofRollupExitRoot : list bytes;
  cd_GlobalIndex : Z;
  cd_OriginNetwork : Z;
  cd_OriginAddress : bytes;
  cd_DestinationAddress : bytes;
  cd_Amount : Z;
  cd_Metadata : bytes;
  cd_IsMessage : bool;
}.
Record CompressClaimParameters := mk_CompressClaimParameters {
  cp_MainnetExitRoot : bytes;
  cp_RollupExitRoot : bytes;
  cp_ClaimData : list CompressClaimCallData;
}.

(** The ABI of the bridge: the selectors of the two methods and the decoding of
    their arguments, with [isMessage] false. *)
Class ClaimAbi : Type := {
  claimAsset_ID : bytes;
  claimMessage_ID : bytes;
  UnpackClaim : bytes → bytes → res bridgeClaimXParams;
}.

(** The contract of the compressor.  [SendCompressedClaims] takes [auth.NoSend]
    and [auth.GasLimit] and returns the hash and the gas of the transaction. *)
Class Compressor (E : Type) : Type := {
  ClaimCompressor_CompressClaimCall : bytes → bytes → list CompressClaimCallData → M E bytes;
  SendCompressedClaims : bool → Z → bytes → M E (bytes * Z);
}.

Record CompressConfig := mkCompressConfig {
  mc_grouping : ConfigGroupingClaims;
  mc_gasOffset : Z;
  mc_authGasLimit : Z;
  mc_rollupID : Z;
}.

Definition ErrMethodUnknown : error := Errorf "method unknown" [].

Section Compose.
Context {CA : ClaimAbi} {E : Type} {Run : Runtime E}.

Definition set_isMessage (b : bool) (p : bridgeClaimXParams) : bridgeClaimXParams :=
  mk_bridgeClaimXParams (cx_smtProofLocalExitRoot p) (cx_smtProofRollupExitRoot p) (cx_globalIndex p)
    (cx_mainnetExitRoot p) (cx_rollupExitRoot p) (cx_originNetwork p) (cx_originTokenAddress p)
    (cx_destinationNetwork p) (cx_destinationAddress p) (cx_amount p) (cx_metadata p) b.

(** [data[0:4]] and [data[4:]]. *)
Definition extractParams (data : bytes) : res bridgeClaimXParams :=
  if bool_decide (length data < 4)%nat then Panic "slice bounds out of range"
  else
    isMessage ← (if bool_decide (claimAsset_ID = take 4 data) then Ok false
                 else if bool_decide (claimMessage_ID = take 4 data) then Ok true
                 else Err ErrMethodUnknown);
    params ← (match UnpackClaim (take 4 data) (drop 4 data) with
              | Err e => Err (ErrorfW "extracting params, Unpack err: %w " e)
              | r => r
              end);
    mret (set_isMessage isMessage params).

Definition to_ClaimData (v : bridgeClaimXParams) : CompressClaimCallData :=
  mk_CompressClaimCallData (cx_smtProofLocalExitRoot v) (cx_smtProofRollupExitRoot v) (cx_globalIndex v)
    (cx_originNetwork v) (cx_originTokenAddress v) (cx_destinationAddress v) (cx_amount v)
    (cx_metadata v) (cx_isMessage v).

Fixpoint extract_all (ids : list Z) (txsData : gmap Z bytes) (params : gmap Z bridgeClaimXParams)
  : res (gmap Z bridgeClaimXParams) :=
  match ids with
  | [] => Ok params
  | depositID :: ids =>
      p ← extractParams (default [] (txsData !! depositID));
      extract_all ids txsData (<[depositID := p]> params)
  end.

(** [slices.Max], which panics on an empty slice. *)
Definition slices_Max (l : list Z) : res Z :=
  match l with [] => Panic "slices.Max: empty list" | x :: l => Ok (fold_left Z.max l x) end.

Definition GetCompressClaimParameters (txsData : gmap Z bytes) : M E CompressClaimParameters :=
  ids ← MapRange (map_to_list txsData).*1;
  params ← lift_res (extract_all ids txsData ∅);
  maxDepositID ← lift_res (slices_Max (map_to_list params).*1);
  ids ← MapRange (map_to_list params).*1;
  match params !! maxDepositID with
  | None => gopanic "slices.Max: not a key"
  | Some last =>
      mret (mk_CompressClaimParameters (cx_mainnetExitRoot last) (cx_rollupExitRoot last)
              (to_ClaimData <$> omap (λ id, params !! id) ids))
  end.

Definition GetCompressClaimParametersFromMonitoredTx (txs : list MonitoredTx) : M E CompressClaimParameters :=
  GetCompressClaimParameters (fold_left (λ m tx, <[mtx_DepositID tx := mtx_Data tx]> m) txs ∅).
End Compose.

Section GroupMonitor.
Context {Cmp : GoCmp} {CA : ClaimAbi} {J : Json} {Txt : Texts} {E : Type} {Run : Runtime E} {Node : EthNode E}.
Context {Com : Compressor E}.
Context (cfg : CompressConfig).
Abbreviation gcfg := (mc_grouping cfg).

(** [etherMan.CompressClaimCall]: an error of the contract is logged, and the
    empty slice returned without an error. *)
Definition CompressClaimCall (mainnetExitRoot rollupExitRoot : bytes) (claimData : list CompressClaimCallData)
  : M E bytes :=
  r ← attempt (ClaimCompressor_CompressClaimCall mainnetExitRoot rollupExitRoot claimData);
  match r with inl compressedData => mret compressedData | inr _ => mret [] end.

(** ** The states of a group *)

Definition set_DbEntry (f : MonitoredTxGroupDBEntry → MonitoredTxGroupDBEntry) (g : MonitoredTxGroup)
  : MonitoredTxGroup := mkMonitoredTxGroup (f (mg_DbEntry g)) (mg_Txs g).
Definition log_group (msg : string) : MonitoredTxGroup → MonitoredTxGroup := set_DbEntry (set_grp_LastLog msg).
Definition set_txs_Status (st : MonitoredTxStatus) (g : MonitoredTxGroup) : MonitoredTxGroup :=
  mkMonitoredTxGroup (mg_DbEntry g) (set_mtx_Status st <$> mg_Txs g).

(** [group.DbEntry.ClaimTxHistory.TxHashes]. *)
Definition group_TxHashes (g : MonitoredTxGroup) : res (list TxHashHistoryEntry) :=
  match grp_ClaimTxHistory (mg_DbEntry g) with
  | None => Panic "invalid memory address or nil pointer dereference"
  | Some h => Ok (th_TxHashes h)
  end.
(** A change of the entry at an index. *)
Definition alter_TxHash (f : TxHashHistoryEntry → TxHashHistoryEntry) (txIndex : nat)
  : MonitoredTxGroup → MonitoredTxGroup := set_DbEntry (λ e,
    set_ClaimTxHistory ((λ h, mkTxHistoryV2 (th_Version h) (alter f txIndex (th_TxHashes h))) <$>
                        grp_ClaimTxHistory e) e).

Definition OnFinishClaimGroupTxSuccessful (txIndex : nat) (group : MonitoredTxGroup) : res MonitoredTxGroup :=
  l ← group_TxHashes group;
  tx ← at_index l (Z.of_nat txIndex);
  let msg := ("group_id:" +:+ pretty (grp_GroupID (mg_DbEntry group)) +:+ " , tx " +:+
              hash_text (the_TxHash tx) +:+ " was mined successfully")%string in
  mret (set_txs_Status MonitoredTxStatusConfirmed
    (set_DbEntry (set_grp_Status MonitoredTxGroupStatusConfirmed)
      (alter_TxHash ReceiptSuccessful txIndex (log_group msg group)))).

Definition OnFailGroup (group : MonitoredTxGroup) : MonitoredTxGroup :=
  set_txs_Status MonitoredTxStatusFailed
    (log_group ("group_id:" +:+ pretty (grp_GroupID (mg_DbEntry group)) +:+ " , reached maximum retries")%string
      (set_DbEntry (set_grp_Status MonitoredTxGroupStatussFailed) group)).

Definition OnFinishClaimGroupTxFailed (txIndex : nat) (msg : string) (group : MonitoredTxGroup)
  : res MonitoredTxGroup :=
  l ← group_TxHashes group;
  tx ← at_index l (Z.of_nat txIndex);
  mret (alter_TxHash ReceiptFailed txIndex
    (log_group ("tx " +:+ hash_text (the_TxHash tx) +:+ ". " +:+ msg)%string group)).

Definition CanSendNewClaimCall (group : MonitoredTxGroup) : M E bool :=
  let e := mg_DbEntry group in
  if bool_decide (grp_Status e = MonitoredTxGroupStatusCreated) then mret true
  else match grp_ClaimTxHistory e with
       | None => mret true
       | Some h =>
           if bool_decide (length (th_TxHashes h) = 0%nat) then mret true
           else if existsb (λ t, IsPending t && negb (IsOutdated t)) (th_TxHashes h) then mret false
           else if bool_decide (gc_MaxRetries gcfg ≤ grp_NumRetries e) then mret false
           else match GetMoreRecentTx h with
                | None => mret true
                | Some moreRecentTx =>
                    time ← Now;
                    mret (bool_decide (gc_RetryInterval gcfg ≤ time - the_CreatedAt moreRecentTx))
                end
       end.

(** [range pendingTx.GroupTx]: the groups are pointers, changed in place. *)
Fixpoint for_groups (f : MonitoredTxGroup → M E MonitoredTxGroup) (ids : list Z) (p : PendingTxs) : M E PendingTxs :=
  match ids with
  | [] => mret p
  | id :: ids =>
      match pend_GroupTx p !! id with
      | None => for_groups f ids p
      | Some g => g ← f g; for_groups f ids (set_GroupTx (<[id := g]> (pend_GroupTx p)) p)
      end
  end.
Definition each_group (f : MonitoredTxGroup → M E MonitoredTxGroup) (p : PendingTxs) : M E PendingTxs :=
  ids ← MapRange (group_ids p); for_groups f ids p.

Definition send_failed (group : MonitoredTxGroup) (err : error) : MonitoredTxGroup :=
  log_group ("failed to call SMC SendCompressedClaims for group " +:+ pretty (grp_GroupID (mg_DbEntry group)) +:+
             ": " +:+ error_text err)%string group.

(** The claim of a group is estimated, then sent. *)
Definition send_claim (onlyFirstOne : bool) (group : MonitoredTxGroup) : M E MonitoredTxGroup :=
  match grp_CompressedTxData (mg_DbEntry group) with
  | None => mret group
  | Some data =>
      can ← CanSendNewClaimCall group;
      if negb can then mret group
      else if onlyFirstOne && negb (IsClaimTxHistoryEmpty (mg_DbEntry group)) then mret group
      else
        estimated ← attempt (SendCompressedClaims true (mc_authGasLimit cfg) data);
        match estimated with
        | inr err => mret (send_failed group err)
        | inl (_, gas) =>
            sent ← attempt (SendCompressedClaims false (wrap64 (gas + mc_gasOffset cfg)) data);
            match sent with
            | inr err => mret (send_failed group err)
            | inl (hash, _) =>
                time ← Now;
                mret (set_DbEntry (λ e,
                  let e := (Group_AddPendingTx time hash
                              (set_grp_Status MonitoredTxGroupStatusClaiming e)).1 in
                  set_grp_NumRetries (int32 (grp_NumRetries e + 1)) e) group)
            end
        end
  end.
Definition SendClaims (onlyFirstOne : bool) : PendingTxs → M E PendingTxs := each_group (send_claim onlyFirstOne).

(** The loop over the hashes of a group; a successful receipt ends it. *)
Fixpoint check_receipts_loop (txIndex : nat) (txs : list TxHashHistoryEntry) (group : MonitoredTxGroup)
  : M E MonitoredTxGroup :=
  match txs with
  | [] => mret group
  | tx :: txs =>
      if negb (IsPending tx) then check_receipts_loop (S txIndex) txs group
      else
        r ← attempt (CheckTxWasMined (the_TxHash tx));
        match r with
        | inr err =>
            check_receipts_loop (S txIndex) txs
              (log_group ("failed to check if tx[" +:+ pretty (Z.of_nat txIndex) +:+ "] " +:+
                          hash_text (the_TxHash tx) +:+ " was mined: " +:+ error_text err)%string group)
        | inl None =>
            check_receipts_loop (S txIndex) txs
              (log_group ("tx " +:+ hash_text (the_TxHash tx) +:+ " not mined yet")%string group)
        | inl (Some receipt) =>
            if bool_decide (rc_Status receipt = ReceiptStatusSuccessful) && bool_decide (rc_Logs receipt > 0)
            then lift_res (OnFinishClaimGroupTxSuccessful txIndex group)
            else
              group ← lift_res (OnFinishClaimGroupTxFailed txIndex "receipt status failed or no logs" group);
              check_receipts_loop (S txIndex) txs group
        end
  end.
Definition check_receipts (group : MonitoredTxGroup) : M E MonitoredTxGroup :=
  if bool_decide (grp_Status (mg_DbEntry group) = MonitoredTxGroupStatusClaiming) then
    txs ← lift_res (group_TxHashes group);
    check_receipts_loop 0 txs group
  else mret group.
Definition CheckReceipts : PendingTxs → M E PendingTxs := each_group check_receipts.

Fixpoint outdate_loop (txIndex : nat) (txs : list TxHashHistoryEntry) (group : MonitoredTxGroup)
  : M E MonitoredTxGroup :=
  match txs with
  | [] => mret group
  | txHash :: txs =>
      if negb (IsPending txHash) then outdate_loop (S txIndex) txs group
      else
        time ← Now;
        if IsExhaustedTimeWaitingForReceipt txHash time (gc_RetryTimeout gcfg) then
          group ← lift_res (OnFinishClaimGroupTxFailed txIndex "reached maximum wait time" group);
          outdate_loop (S txIndex) txs group
        else outdate_loop (S txIndex) txs group
  end.
Definition outdate_claims (group : MonitoredTxGroup) : M E MonitoredTxGroup :=
  group ← (if bool_decide (grp_Status (mg_DbEntry group) = MonitoredTxGroupStatusClaiming) then
             txs ← lift_res (group_TxHashes group);
             outdate_loop 0 txs group
           else mret group);
  if bool_decide (gc_MaxRetries gcfg ≤ grp_NumRetries (mg_DbEntry group)) then mret (OnFailGroup group)
  else mret group.
Definition OutdateClaims : PendingTxs → M E PendingTxs := each_group outdate_claims.

(** ** New groups *)
Definition createNewGroups (p : PendingTxs) : M E PendingTxs :=
  time ← Now;
  let groupTxs := ChooseTxs gcfg time (pend_TxCandidatesForGroup p) in
  if bool_decide (length groupTxs = 0%nat) then mret p
  else
    let '(id, p) := GenerateNewGroupID p in
    time ← Now;
    let group := NewMonitoredTxGroup
      (mkMonitoredTxGroupDBEntry id MonitoredTxGroupStatusCreated [] None None time zero_time 0 "") groupTxs in
    params ← GetCompressClaimParametersFromMonitoredTx (mg_Txs group);
    compressedData ← map_err (ErrorfV "fails call to claimCompressorSMC for new group_id  with deposits %s err: %v")
      (CompressClaimCall (cp_MainnetExitRoot params) (cp_RollupExitRoot params) (cp_ClaimData params));
    mret (AddGroup (set_DbEntry (set_grp_CompressedTxData (Some compressedData)) group) p).

Definition Process (p : PendingTxs) : M E PendingTxs :=
  p ← SendClaims false p;
  p ← CheckReceipts p;
  p ← OutdateClaims p;
  createNewGroups p.

(** ** A pass of the monitor *)
Abbreviation ED := (M (E * database)).

Definition getGroupsIds (txs : list MonitoredTx) : list Z :=
  elements (list_to_set (omap mtx_GroupID txs) : gset Z).

Definition getPendingTxs (tx : Tx) : M database PendingTxs :=
  mTxs ← map_err (ErrorfV "failed to get get monitored txs: %v")
    (GetClaimTxsByStatus [MonitoredTxStatusCreated; MonitoredTxStatusCompressing; MonitoredTxStatusClaiming]
       (mc_rollupID cfg) tx);
  groups ← map_err (ErrorfV "failed to get get monitoredGroups txs: %v")
    (GetMonitoredTxsGroups (getGroupsIds mTxs) tx);
  lastGroupID ← map_err (ErrorfV "failed to get latest group id: %v") (GetLatestMonitoredTxGroupID tx);
  lift_res (NewPendingTxs mTxs groups lastGroupID).

Definition internalMonitorTxs (tx : Tx) : ED unit :=
  pendingTx ← on_db (getPendingTxs tx);
  if IsEmpty pendingTx then mret tt
  else
    initialStatus ← on_db (getPendingTxs tx);
    pendingTx ← on_env (Process pendingTx);
    storeUpdate ← on_env (GenerateStoreUpdate initialStatus pendingTx);
    Execute storeUpdate tx.

(** The error of the rollback is dropped. *)
Definition MonitorCompressedTxs : ED unit :=
  tx ← on_db BeginDBTransaction;
  r ← attempt (internalMonitorTxs tx);
  match r with
  | inr err => _ ← attempt (on_db (Rollback tx)); throw err
  | inl _ => on_db (Commit tx)
  end.
End GroupMonitor.
