(* ===== verification/TxMonitor.v ===== *)
(** * The monitor of single claim transactions

    [claimtxman/monitortxs.go] and the nonce cache of [nonce_cache.go] and
    [xlayer_nonce_cache.go]: every created claim transaction is signed and sent
    until one of the transactions of its history is mined successfully or the
    history is full. *)
From S2P Require Import Prelude Types MonitoredTx MerkleStore Tables Storage EthClient.

(** The cache of go-lru, from the address of an account to its last nonce. *)
Class NonceLru (C : Type) : Type := {
  nonce_Get : bytes → C → option Z * C;
  nonce_Add : bytes → Z → C → C;
  nonce_Remove : bytes → C → C;
}.
(** An entry is one that was added for its address. *)
Class NonceLruOk (C : Type) `{!NonceLru C} : Type := {
  nonce_holds : C → bytes → Z → Prop;
  nonce_Get_ok k c o c' : nonce_Get k c = (o, c') →
    (∀ n, o = Some n ↔ nonce_holds c k n) ∧ (∀ k' n, nonce_holds c' k' n ↔ nonce_holds c k' n);
  nonce_Add_ok k n c : nonce_holds (nonce_Add k n c) k n;
  nonce_holds_fun c k n n' : nonce_holds c k n → nonce_holds c k n' → n = n';
}.

(** The node, the cache of nonces and the storage. *)
Record Claimer (E C : Type) := mkClaimer { cl_env : E; cl_nonces : C; cl_db : database }.
Arguments mkClaimer {E C}.
Arguments cl_env {E C}.
Arguments cl_nonces {E C}.
Arguments cl_db {E C}.

Record TxConfig := mkTxConfig {
  tcf_rollupID : Z;
  tcf_RetryNumber : Z;
}.
Definition maxHistorySize : nat := 10.

Section TxMonitor.
Context {E C : Type} {Run : Runtime E} {Node : EthNode E} {Lru : NonceLru C} {Txt : Texts}.
Context (cfg : TxConfig).
Abbreviation CM := (M (Claimer E C)).

Definition node {A} (m : M E A) : CM A := zoom cl_env (λ e s, mkClaimer e (cl_nonces s) (cl_db s)) m.
Definition nonces {A} (m : M C A) : CM A := zoom cl_nonces (λ c s, mkClaimer (cl_env s) c (cl_db s)) m.
Definition store {A} (m : M database A) : CM A := zoom cl_db (λ db s, mkClaimer (cl_env s) (cl_nonces s) db) m.

(** ** The cache of nonces *)
Definition GetNextNonce (from : bytes) : CM Z :=
  nonce ← node (NonceAt from);
  found ← nonces (λ c, let '(o, c) := nonce_Get from c in (Ok o, c));
  let nonce := match found with
               | Some tempNonce => if bool_decide (nonce ≤ tempNonce) then wrap64 (tempNonce + 1) else nonce
               | None => nonce
               end in
  nonces (modify (nonce_Add from nonce));;
  mret nonce.
Definition Remove (from : bytes) : CM unit := nonces (modify (nonce_Remove from)).
(** [decr]: an error of the node leaves the cache as it is. *)
Definition decr (from : bytes) : CM unit :=
  r ← attempt (node (NonceAt from));
  match r with
  | inr _ => mret tt
  | inl nonce =>
      found ← nonces (λ c, let '(o, c) := nonce_Get from c in (Ok o, c));
      match found with
      | None => mret tt
      | Some tempNonce =>
          let tempNonce := wrap64 (tempNonce - 1) in
          if bool_decide (nonce ≤ tempNonce) then nonces (modify (nonce_Add from tempNonce))
          else nonces (modify (nonce_Remove from))
      end
  end.

(** ** The review of a transaction *)

Definition is_reverted (err : error) : bool := bool_decide (error_text err = "execution reverted"%string).

(** [for i := 1; err != nil && !reverted && i < RetryNumber; i++]: [todo] more
    tries. *)
Fixpoint estimate_retry (todo : nat) (msg : CallMsg) (r : Z + error) : CM (Z + error) :=
  match r, todo with
  | inr err, S todo => if is_reverted err then mret r
                       else r ← attempt (node (EstimateGas msg)); estimate_retry todo msg r
  | _, _ => mret r
  end.
Definition estimate (msg : CallMsg) : CM (Z + error) :=
  r ← attempt (node (EstimateGas msg));
  estimate_retry (Z.to_nat (tcf_RetryNumber cfg - 1)) msg r.

Definition set_mtx_Gas (g : Z) (m : MonitoredTx) : MonitoredTx :=
  mkMonitoredTx (mtx_DepositID m) (mtx_From m) (mtx_To m) (mtx_Nonce m) (mtx_Value m)
    (mtx_Data m) g (mtx_GasPrice m) (mtx_Status m) (mtx_History m) (mtx_CreatedAt m)
    (mtx_UpdatedAt m) (mtx_GroupID m) (mtx_GlobalExitRoot m).
Definition set_mtx_GasPrice (p : option Z) (m : MonitoredTx) : MonitoredTx :=
  mkMonitoredTx (mtx_DepositID m) (mtx_From m) (mtx_To m) (mtx_Nonce m) (mtx_Value m)
    (mtx_Data m) (mtx_Gas m) p (mtx_Status m) (mtx_History m) (mtx_CreatedAt m)
    (mtx_UpdatedAt m) (mtx_GroupID m) (mtx_GlobalExitRoot m).
Definition set_mtx_Nonce (n : Z) (m : MonitoredTx) : MonitoredTx :=
  mkMonitoredTx (mtx_DepositID m) (mtx_From m) (mtx_To m) n (mtx_Value m)
    (mtx_Data m) (mtx_Gas m) (mtx_GasPrice m) (mtx_Status m) (mtx_History m) (mtx_CreatedAt m)
    (mtx_UpdatedAt m) (mtx_GroupID m) (mtx_GlobalExitRoot m).

(** The transaction is changed in place, also when an error is returned. *)
Definition ReviewMonitoredTx (mTx : MonitoredTx) (reviewNonce : bool) : CM (MonitoredTx * option error) :=
  r ← estimate (mkCallMsg (mtx_From mTx) (mtx_To mTx) (mtx_Value mTx) (mtx_Data mTx));
  match r with
  | inr err => mret (mTx, Some (ErrorfV "failed to estimate gas. Error: %v, Data: %s" err))
  | inl gas =>
      let mTx := if bool_decide (gas > mtx_Gas mTx) then set_mtx_Gas gas mTx else mTx in
      if negb reviewNonce then mret (mTx, None)
      else
        r ← attempt (GetNextNonce (mtx_From mTx));
        match r with
        | inr err => mret (mTx, Some (ErrorfV "failed to get nonce: %v" err))
        | inl nonce =>
            mret (if bool_decide (nonce > mtx_Nonce mTx) then set_mtx_Nonce nonce mTx else mTx, None)
        end
  end.

(** ** The history of a transaction *)

Fixpoint find_in_pool (todo : nat) (txHash : bytes) (r : unit + error) : CM (unit + error) :=
  match r, todo with
  | inr _, S todo => r ← attempt (node (TransactionByHash txHash)); find_in_pool todo txHash r
  | _, _ => mret r
  end.

(** What is known after one hash of the history: failed receipts, all mined,
    and a successful receipt, which ends the loop. *)
Fixpoint checkTxHistory_loop (hashes : list bytes) (hasFailedReceipts allHistoryTxMined : bool)
  : CM (bool * bool * bool) :=
  match hashes with
  | [] => mret (hasFailedReceipts, allHistoryTxMined, false)
  | txHash :: hashes =>
      r ← attempt (node (CheckTxWasMined txHash));
      match r with
      | inr _ => checkTxHistory_loop hashes hasFailedReceipts allHistoryTxMined
      | inl None =>
          r ← attempt (node (TransactionByHash txHash));
          r ← find_in_pool (Z.to_nat (tcf_RetryNumber cfg)) txHash r;
          match r with
          | inl _ => checkTxHistory_loop hashes hasFailedReceipts false
          | inr err => checkTxHistory_loop hashes (errors_Is err ErrNotFound || hasFailedReceipts) allHistoryTxMined
          end
      | inl (Some receipt) =>
          if bool_decide (rc_Status receipt = ReceiptStatusSuccessful)
          then mret (hasFailedReceipts, allHistoryTxMined, true)
          else checkTxHistory_loop hashes true allHistoryTxMined
      end
  end.
Definition checkTxHistory (mTx : MonitoredTx) : CM (bool * bool * bool) :=
  hashes ← node (MapRange (elements (mtx_History mTx)));
  checkTxHistory_loop hashes false true.

(** ** A pass *)

(** [mTx.Tx()]. *)
Definition MonitoredTx_Tx (mTx : MonitoredTx) : LegacyTx :=
  mkLegacyTx (mtx_To mTx) (mtx_Nonce mTx) (mtx_Value mTx) (mtx_Data mTx) (mtx_Gas mTx) (mtx_GasPrice mTx).

Definition mentions_nonce (err : error) : bool :=
  match String.index 0 "nonce" (error_text err) with Some _ => true | None => false end.

(** [AddHistory]: a hash that is there already is not an error. *)
Definition add_history (h : bytes) (mTx : MonitoredTx) : MonitoredTx :=
  match AddHistory h mTx with Ok mTx => mTx | _ => mTx end.

(** The signed transaction is sent unless the network has it; when it is
    refused it leaves the history and the transaction is reviewed. *)
Definition send_signed (h : bytes) (mTx : MonitoredTx) (isResetNonce : bool) : CM (MonitoredTx * bool) :=
  found ← attempt (node (TransactionByHash h));
  match found with
  | inl _ => mret (mTx, isResetNonce)
  | inr err =>
      if negb (errors_Is err ErrNotFound) then mret (mTx, isResetNonce)
      else
        sent ← attempt (node (SendTransaction h));
        match sent with
        | inl _ => mret (mTx, isResetNonce)
        | inr err =>
            let reviewNonce := mentions_nonce err in
            when (reviewNonce && negb isResetNonce) (Remove (mtx_From mTx));;
            '(mTx, _) ← ReviewMonitoredTx (RemoveHistory h mTx) reviewNonce;
            mret (mTx, isResetNonce || reviewNonce)
        end
  end.

(** Errors of the storage are only logged. *)
Definition update_logged (mTx : MonitoredTx) (tx : Tx) : CM unit :=
  _ ← attempt (store (UpdateClaimTx mTx tx)); mret tt.

(** The rest of the body of the loop, when every transaction sent before is
    mined or missing. *)
Definition resend (mTx : MonitoredTx) (hasFailedReceipts isResetNonce : bool) (tx : Tx) : CM bool :=
  '(mTx, reviewed) ← (if hasFailedReceipts then ReviewMonitoredTx mTx true else mret (mTx, None));
  match reviewed with
  | Some _ => mret isResetNonce
  | None =>
      r ← attempt (node SuggestGasPrice);
      match r with
      | inr _ => mret isResetNonce
      | inl gasPrice =>
          let mTx := set_mtx_GasPrice (Some (gasPrice * 10)) mTx in
          r ← attempt (node (Signer (mtx_From mTx) (MonitoredTx_Tx mTx)));
          match r with
          | inr _ => mret isResetNonce
          | inl signedTx =>
              '(mTx, isResetNonce) ← send_signed signedTx (add_history signedTx mTx) isResetNonce;
              update_logged mTx tx;;
              mret isResetNonce
          end
      end
  end.

Definition monitor_tx (mTx : MonitoredTx) (isResetNonce : bool) (tx : Tx) : CM bool :=
  '(hasFailedReceipts, allHistoryTxMined, receiptSuccessful) ← checkTxHistory mTx;
  if (receiptSuccessful : bool) then
    update_logged (set_mtx_Status MonitoredTxStatusConfirmed mTx) tx;; mret isResetNonce
  else if allHistoryTxMined && bool_decide (maxHistorySize ≤ size (mtx_History mTx))%nat then
    update_logged (set_mtx_Status MonitoredTxStatusFailed mTx) tx;; mret isResetNonce
  else if (allHistoryTxMined : bool) then resend mTx hasFailedReceipts isResetNonce tx
  else mret isResetNonce.

Fixpoint monitor_all (mTxs : list MonitoredTx) (isResetNonce : bool) (tx : Tx) : CM unit :=
  match mTxs with
  | [] => mret tt
  | mTx :: mTxs => isResetNonce ← monitor_tx mTx isResetNonce tx; monitor_all mTxs isResetNonce tx
  end.

Definition rollback_with {A} (tx : Tx) (err : error) : CM A :=
  r ← attempt (store (Rollback tx));
  match r with inr rollbackErr => throw rollbackErr | inl _ => throw err end.

Definition MonitorTxs : CM unit :=
  tx ← store BeginDBTransaction;
  r ← attempt (store (GetClaimTxsByStatus [MonitoredTxStatusCreated] (tcf_rollupID cfg) tx));
  match r with
  | inr err => rollback_with tx (ErrorfV "rollupID: %d, failed to get created monitored txs: %v" err)
  | inl mTxs =>
      monitor_all mTxs false tx;;
      r ← attempt (store (Commit tx));
      match r with inl _ => mret tt | inr err => rollback_with tx err end
  end.
End TxMonitor.
