(* ===== verification/BridgeCtrl.v ===== *)
(** * The bridge controller

    [bridgectrl/bridgectrl.go]: one exit tree for each network and the tree of
    the rollups' exit roots. *)
From S2P Require Import Prelude Types Hashing MerkleStore MerkleTree MerkleSpec MerkleTreeFacts.
From S2P Require Import MerkleReset.

Record BridgeController := mkBridgeController {
  bt_exitTrees : list MerkleTree;
  bt_rollupsTree : MerkleTree;
  bt_merkleTreeIDs : gmap Z Z;
}.

Definition MaxInt32 : Z := 2 ^ 31 - 1.

Section BridgeCtrl.
Context {K : Keccak} {DB : Type} {STO : merkleTreeStore DB}.
Abbreviation BC := (M (BridgeController * DB)).

Fixpoint newExitTrees (height i : Z) (networkIDs : list Z) (ids : gmap Z Z) (trees : list MerkleTree)
  : M DB (gmap Z Z * list MerkleTree) :=
  match networkIDs with
  | [] => mret (ids, trees)
  | networkID :: networkIDs =>
      mt ← NewMerkleTree height networkID;
      newExitTrees height (i + 1) networkIDs (<[networkID := wrap8 i]> ids) (trees ++ [mt])
  end.

Definition NewBridgeController (height : Z) (networkIDs : list Z) : M DB BridgeController :=
  '(ids, trees) ← newExitTrees height 0 networkIDs ∅ [];
  rollupsTree ← NewMerkleTree height MaxInt32;
  mret (mkBridgeController trees rollupsTree ids).

Definition GetMerkleTreeID (networkID : Z) (bt : BridgeController) : res Z :=
  match bt_merkleTreeIDs bt !! networkID with
  | None => Err ErrNetworkNotRegister
  | Some tID => Ok tID
  end.

(** A method of [bt.exitTrees[tID]], which is updated in place. *)
Definition on_tree {A} (tID : Z) (m : M (MerkleTree * DB) A) : BC A := λ '(bt, db),
  match at_index (bt_exitTrees bt) tID with
  | Ok mt => let '(r, (mt', db')) := m (mt, db) in
             (r, (mkBridgeController (<[Z.to_nat tID := mt']> (bt_exitTrees bt))
                    (bt_rollupsTree bt) (bt_merkleTreeIDs bt), db'))
  | Err e => (Err e, (bt, db))
  | Panic p => (Panic p, (bt, db))
  end.

Definition AddDeposit (deposit : Deposit) (depositID : Z) (tx : Tx) : BC unit :=
  leaf ← lift_res (hashDeposit deposit);
  bt ← gets fst;
  tID ← lift_res (GetMerkleTreeID (dep_NetworkID deposit) bt);
  on_tree tID (addLeaf depositID leaf (dep_DepositCount deposit) tx).

Definition ReorgMT (depositCount networkID : Z) (tx : Tx) : BC unit :=
  bt ← gets fst;
  tID ← lift_res (GetMerkleTreeID networkID bt);
  on_tree tID (resetLeaf depositCount tx).

Definition GetExitRoot (tID : Z) (tx : Tx) : BC bytes := on_tree tID (getRoot tx).

Definition AddRollupExitLeaf (rollupLeaf : RollupExitLeaf) (tx : Tx) : BC unit := λ '(bt, db),
  let '(r, (mt, db')) := addRollupExitLeaf rollupLeaf tx (bt_rollupsTree bt, db) in
  (r, (mkBridgeController (bt_exitTrees bt) mt (bt_merkleTreeIDs bt), db')).

(** ** Facts *)

(** The tree of a registered network. *)
Definition tree_of (bt : BridgeController) (net : Z) : option MerkleTree :=
  tID ← bt_merkleTreeIDs bt !! net; bt_exitTrees bt !! Z.to_nat tID.
(** Every registered network has its own tree, which carries its number. *)
Definition wf_controller (bt : BridgeController) : Prop :=
  ∀ net tID, bt_merkleTreeIDs bt !! net = Some tID →
    0 ≤ tID ∧ ∃ mt, bt_exitTrees bt !! Z.to_nat tID = Some mt ∧ mt_networkID mt = net.

Lemma wf_distinct bt net net' tID :
  wf_controller bt → bt_merkleTreeIDs bt !! net = Some tID → bt_merkleTreeIDs bt !! net' = Some tID →
  net = net'.
Proof.
  intros H H1 H2. destruct (H _ _ H1) as (_ & mt & E1 & <-).
  destruct (H _ _ H2) as (_ & mt' & E2 & <-). congruence.
Qed.

(** A method of one network's tree, on a well-formed controller. *)
Lemma on_tree_run {A} bt net tID mt (m : M (MerkleTree * DB) A) db r mt' db' :
  wf_controller bt → bt_merkleTreeIDs bt !! net = Some tID → tree_of bt net = Some mt →
  m (mt, db) = (r, (mt', db')) → mt_networkID mt' = mt_networkID mt →
  ∃ bt', on_tree tID m (bt, db) = (r, (bt', db')) ∧ tree_of bt' net = Some mt' ∧
    wf_controller bt' ∧ bt_merkleTreeIDs bt' = bt_merkleTreeIDs bt ∧
    bt_rollupsTree bt' = bt_rollupsTree bt ∧
    ∀ net', net' ≠ net → tree_of bt' net' = tree_of bt net'.
Proof.
  intros Hwf Hid Ht Em Hnet. destruct (Hwf _ _ Hid) as (Hpos & mt0 & E0 & Hn0).
  unfold tree_of in Ht. rewrite Hid in Ht. cbn in Ht. rewrite Ht in E0. injection E0 as <-.
  assert (Hlt := lookup_lt_Some _ _ _ Ht).
  unfold on_tree, at_index. rewrite bool_decide_true by done. rewrite Ht, Em.
  eexists. split; [done|]. unfold tree_of. cbn [bt_merkleTreeIDs bt_exitTrees bt_rollupsTree].
  split_and!; [| |done|done|].
  - rewrite Hid. cbn. by apply list_lookup_insert_eq.
  - intros net' tID' Hid'. destruct (Hwf _ _ Hid') as (Hpos' & mt1 & E1 & Hn1). split; [done|].
    destruct (decide (Z.to_nat tID' = Z.to_nat tID)) as [He|He].
    + exists mt'. assert (tID' = tID) as -> by lia.
      cbn. rewrite list_lookup_insert_eq by done. split; [done|].
      rewrite Hnet, <- Hn1. congruence.
    + exists mt1. cbn. by rewrite list_lookup_insert_ne.
  - intros net' Hne. destruct (bt_merkleTreeIDs bt !! net') as [tID'|] eqn:Hid'; [|done]. cbn.
    rewrite list_lookup_insert_ne; [done|]. intros He. apply Hne. symmetry.
    destruct (Hwf _ _ Hid') as (Hpos' & _). assert (tID' = tID) as -> by lia.
    by eapply wf_distinct.
Qed.
End BridgeCtrl.

Section Facts.
Context {K : Keccak} {DB : Type} {STO : merkleTreeStore DB} {STOok : merkleTreeStoreOk DB}.

(** Only the tree of [net] has changed. *)
Definition only_tree (net : Z) (bt bt' : BridgeController) : Prop :=
  wf_controller bt' ∧ bt_merkleTreeIDs bt' = bt_merkleTreeIDs bt ∧
  bt_rollupsTree bt' = bt_rollupsTree bt ∧ ∀ net', net' ≠ net → tree_of bt' net' = tree_of bt net'.

Lemma tree_of_id bt net mt : tree_of bt net = Some mt → ∃ tID, bt_merkleTreeIDs bt !! net = Some tID.
Proof. unfold tree_of. destruct (bt_merkleTreeIDs bt !! net); [eauto|done]. Qed.

(** The deposit is the next leaf of its network's tree. *)
Lemma AddDeposit_ok bt mt L d leaf depositID tx db
  (Hwf : wf_controller bt) (Ht : tree_of bt (dep_NetworkID d) = Some mt)
  (Hleaf : hashDeposit d = Ok leaf) (Hcount : dep_DepositCount d = Z.of_nat (length L))
  (Hinv : tree_inv tx mt db L) (Hfits : fits mt L) (Hlive : live tx db)
  (Hdep : next_deposit tx db depositID (length L))
  (Hnew : NoDup ((λ r : node_row, (r.1.1, r.2)) <$>
            (nodes tx db ++ path_rows (Z.to_nat (mt_height mt)) (L ++ [leaf]) depositID))) :
  ∃ bt' mt' db', AddDeposit d depositID tx (bt, db) = (Ok tt, (bt', db')) ∧
    tree_of bt' (dep_NetworkID d) = Some mt' ∧ tree_inv tx mt' db' (L ++ [leaf]) ∧
    only_tree (dep_NetworkID d) bt bt' ∧ live tx db' ∧
    roots tx db' = roots tx db ++
      [(merkle_root (Z.to_nat (mt_height mt)) (L ++ [leaf]), depositID, mt_networkID mt)] ∧
    nodes tx db' = nodes tx db ++ path_rows (Z.to_nat (mt_height mt)) (L ++ [leaf]) depositID ∧
    mt_height mt' = mt_height mt.
Proof.
  destruct (tree_of_id _ _ _ Ht) as [tID Hid].
  destruct (addLeaf_ok mt L leaf depositID tx db Hinv Hfits (length_hashDeposit _ _ Hleaf) Hlive Hdep Hnew)
    as (mt' & db' & E & Hinv' & Hl' & Hr' & Hn' & Hnet & Hh).
  destruct (on_tree_run bt _ tID mt _ db _ mt' db' Hwf Hid Ht E Hnet) as (bt' & Et & Ht' & Honly).
  exists bt', mt', db'. split; [|done].
  unfold AddDeposit. rewrite (M_bind_ok _ _ _ leaf (bt, db)) by (unfold lift_res; by rewrite Hleaf).
  rewrite (M_bind_ok _ _ _ bt (bt, db)) by done.
  rewrite (M_bind_ok _ _ _ tID (bt, db)) by (unfold lift_res, GetMerkleTreeID; by rewrite Hid).
  destruct Hinv as [(Hc & _) _]. by rewrite Hcount, <- Hc.
Qed.

(** Rolling the tree of a network back to a prefix of its leaves. *)
Lemma ReorgMT_ok bt net mt L (c : nat) tx db
  (Hwf : wf_controller bt) (Ht : tree_of bt net = Some mt)
  (Hle : (c ≤ length L)%nat) (H32 : Z.of_nat (length L) < 2 ^ 32)
  (Hh : 1 ≤ mt_height mt ≤ 64) (HL : hashes32 L)
  (Hfit : (length L ≤ 2 ^ Z.to_nat (mt_height mt))%nat)
  (TS : tree_stored tx db (mt_networkID mt) (Z.to_nat (mt_height mt)) L)
  (Hnc : no_collision (nodes tx db)) (Hlive : live tx db) :
  ∃ bt' mt' db', ReorgMT (Z.of_nat c) net tx (bt, db) = (Ok tt, (bt', db')) ∧
    tree_of bt' net = Some mt' ∧ represents mt' (take c L) ∧ only_tree net bt bt' ∧
    mt_networkID mt' = mt_networkID mt ∧ mt_height mt' = mt_height mt ∧ live tx db' ∧
    nodes tx db' = nodes tx db ∧ roots tx db' = roots tx db ∧
    deposit_counts tx db' = deposit_counts tx db.
Proof.
  destruct (tree_of_id _ _ _ Ht) as [tID Hid].
  destruct (resetLeaf_ok tx mt db L c Hle H32 Hh HL Hfit TS Hnc Hlive)
    as (mt' & db' & E & Hrep & Hnet & Hst).
  destruct (on_tree_run bt _ tID mt _ db _ mt' db' Hwf Hid Ht E Hnet) as (bt' & Et & Ht' & Honly).
  exists bt', mt', db'. split; [|done].
  unfold ReorgMT. rewrite (M_bind_ok _ _ _ bt (bt, db)) by done.
  by rewrite (M_bind_ok _ _ _ tID (bt, db)) by (unfold lift_res, GetMerkleTreeID; by rewrite Hid).
Qed.

(** A deposit whose count is not the next one is refused and changes
    neither the trees nor the store. *)
Lemma AddDeposit_mismatch bt mt d leaf depositID tx db :
  tree_of bt (dep_NetworkID d) = Some mt → wf_controller bt → hashDeposit d = Ok leaf →
  dep_DepositCount d ≠ mt_count mt →
  AddDeposit d depositID tx (bt, db) =
    (Err (Errorf "mismatched deposit count: %d, expected: %d" [dep_DepositCount d; mt_count mt]), (bt, db)).
Proof.
  intros Ht Hwf Hleaf Hc. destruct (tree_of_id _ _ _ Ht) as [tID Hid].
  unfold AddDeposit. rewrite (M_bind_ok _ _ _ leaf (bt, db)) by (unfold lift_res; by rewrite Hleaf).
  rewrite (M_bind_ok _ _ _ bt (bt, db)) by done.
  rewrite (M_bind_ok _ _ _ tID (bt, db)) by (unfold lift_res, GetMerkleTreeID; by rewrite Hid).
  unfold tree_of in Ht. rewrite Hid in Ht. cbn in Ht. destruct (Hwf _ _ Hid) as (Hpos & _).
  unfold on_tree, at_index. rewrite bool_decide_true by done. rewrite Ht.
  unfold addLeaf. rewrite (M_bind_ok _ _ _ mt (mt, db)) by done. rewrite bool_decide_true by done.
  unfold throw. rewrite list_insert_id by done. by destruct bt.
Qed.
End Facts.
