(* ===== verification/MessageBridge.v ===== *)
(** * Message bridges of X Layer

    [xlayer/utils/messagebridge]: tokens bridged by contracts that use the
    message feature.  The program keeps one processor for each kind of token in
    a map; the three [Init] functions differ only in the key.  The metadata of
    a message is 32 bytes of destination address and the amount. *)
From S2P Require Import Prelude Types Hashing.

Inductive ProcessorType : Type := USDC | WstETH | EURC.
#[global] Instance ProcessorType_eq_dec : EqDecision ProcessorType.
Proof. solve_decision. Defined.
#[global] Instance ProcessorType_countable : Countable ProcessorType.
Proof.
  refine (inj_countable (λ t, match t with USDC => 0%nat | WstETH => 1%nat | EURC => 2%nat end)
    (λ n, match n with 0%nat => Some USDC | 1%nat => Some WstETH | 2%nat => Some EURC | _ => None end) _).
  by intros [].
Defined.

Record Processor := mkProcessor {
  p_contractToTokenMapping : gmap bytes bytes;
  p_contractAddressList : list bytes;
  p_tokenAddressList : list bytes;
}.
Abbreviation processors := (gmap ProcessorType Processor).

(** [common.BytesToAddress]: the last 20 bytes. *)
Definition BytesToAddress (b : bytes) : bytes :=
  let b' := drop (length b - 20) b in replicate (20 - length b') x00 ++ b'.

(** [DecodeMetadataFn] of every processor. *)
Definition DecodeMetadata (metadata : bytes) : res (bytes * Z) :=
  if bool_decide (32 ≤ length metadata)%nat
  then Ok (BytesToAddress (take 32 metadata), be_value (drop 32 metadata))
  else Panic "slice bounds out of range".

(** The pairs of the two lists, without the empty token addresses. *)
Fixpoint address_mapping (contracts tokens : list bytes) (m : gmap bytes bytes) : gmap bytes bytes :=
  match contracts, tokens with
  | c :: contracts, t :: tokens =>
      address_mapping contracts tokens (if bool_decide (t = zero_address) then m else <[c := t]> m)
  | _, _ => m
  end.
Definition InitProcessor (kind : ProcessorType) (contracts tokens : list bytes) (ps : processors) : processors :=
  let m := address_mapping contracts tokens ∅ in
  if bool_decide (0 < size m)%nat then <[kind := mkProcessor m contracts tokens]> ps else ps.
(** The three kinds differ in the key alone: the lists, the mapping and the decoder
    are set up in the same way. *)
Definition InitUSDCLxLyProcessor : list bytes → list bytes → processors → processors := InitProcessor USDC.
Definition InitWstETHProcessor : list bytes → list bytes → processors → processors := InitProcessor WstETH.
Definition InitEURCProcessor : list bytes → list bytes → processors → processors := InitProcessor EURC.

Definition CheckContractAddress (address : bytes) (p : Processor) : bool :=
  bool_decide (is_Some (p_contractToTokenMapping p !! address)).
Definition GetTokenFromContract (contract : bytes) (p : Processor) : option bytes :=
  p_contractToTokenMapping p !! contract.

(** The first processor that knows the address; Go's map has no fixed order, and
    every processor decodes metadata the same way. *)
Definition knows (origAddr : bytes) (o : option Processor) : option Processor :=
  match o with
  | Some p => if CheckContractAddress origAddr p then Some p else None
  | None => None
  end.
Definition getProcessor (origAddr : bytes) (ps : processors) : option Processor :=
  match knows origAddr (ps !! USDC) with
  | Some p => Some p
  | None => match knows origAddr (ps !! WstETH) with
            | Some p => Some p
            | None => knows origAddr (ps !! EURC)
            end
  end.
Definition GetProcessorByType (kind : ProcessorType) (ps : processors) : option Processor := ps !! kind.
(** Also in no fixed order; the queries only ask for membership. *)
Definition GetContractAddressList (ps : processors) : list bytes :=
  mjoin ((λ kind, default [] (p_contractAddressList <$> ps !! kind)) <$> [USDC; WstETH; EURC]).
Definition IsAllowedContractAddress (address : bytes) (ps : processors) : bool :=
  bool_decide (is_Some (getProcessor address ps)).

(** [deposit.DestContractAddress, deposit.DestinationAddress = destination, user]. *)
Definition set_dep_Dest (contract user : bytes) (d : Deposit) : Deposit :=
  mkDeposit (dep_Id d) (dep_LeafType d) (dep_OriginalNetwork d) (dep_OriginalAddress d)
    (dep_Amount d) (dep_DestinationNetwork d) user (dep_DepositCount d) (dep_BlockID d)
    (dep_BlockNumber d) (dep_NetworkID d) (dep_TxHash d) (dep_Metadata d) (dep_ReadyForClaim d)
    (dep_Time d) (dep_ReadyTime d) contract.

Definition ReplaceDepositDestAddresses (ps : processors) (d : Deposit) : res Deposit :=
  if bool_decide (dep_LeafType d ≠ LeafTypeMessage) then Ok d
  else match getProcessor (dep_OriginalAddress d) ps with
       | None => Ok d
       | Some p => '(user, _) ← DecodeMetadata (dep_Metadata d);
                   mret (set_dep_Dest (dep_DestinationAddress d) user d)
       end.

Definition ReplaceDepositInfo (ps : processors) (overwriteOrigNetworkID : bool) (d : Deposit) : res Deposit :=
  match getProcessor (dep_OriginalAddress d) ps with
  | None => Ok d
  | Some p =>
      match GetTokenFromContract (dep_OriginalAddress d) p with
      | None => Ok d
      | Some token =>
          '(_, amount) ← DecodeMetadata (dep_Metadata d);
          mret (mkDeposit (dep_Id d) (dep_LeafType d)
            (if overwriteOrigNetworkID then 0 else dep_OriginalNetwork d) token amount
            (dep_DestinationNetwork d) (dep_DestinationAddress d) (dep_DepositCount d) (dep_BlockID d)
            (dep_BlockNumber d) (dep_NetworkID d) (dep_TxHash d) (dep_Metadata d) (dep_ReadyForClaim d)
            (dep_Time d) (dep_ReadyTime d) (dep_DestContractAddress d))
      end
  end.

(** ** Facts *)
Lemma getProcessor_some origAddr ps p :
  getProcessor origAddr ps = Some p → CheckContractAddress origAddr p = true ∧ ∃ kind, ps !! kind = Some p.
Proof.
  assert (∀ kind, knows origAddr (ps !! kind) = Some p → CheckContractAddress origAddr p = true ∧
    ∃ kind, ps !! kind = Some p) as Hk.
  { intros kind. unfold knows. destruct (ps !! kind) eqn:?; [|done].
    destruct (CheckContractAddress _ _) eqn:?; [|done]. intros [= ->]. eauto. }
  unfold getProcessor. destruct (knows _ (ps !! USDC)) eqn:E1; [intros [= ->]; eauto|].
  destruct (knows _ (ps !! WstETH)) eqn:E2; [intros [= ->]; eauto|eauto].
Qed.

Section Facts.
Context {K : Keccak}.

(** Swapping the user's address in does not change the leaf of the
    deposit: the contract still receives the message in the exit tree. *)
Theorem ReplaceDepositDestAddresses_leaf ps d d'
  (Hfresh : dep_DestContractAddress d = zero_address) (Hdest : dep_DestinationAddress d ≠ zero_address)
  (Hok : ReplaceDepositDestAddresses ps d = Ok d') :
  hashDeposit d' = hashDeposit d.
Proof.
  revert Hok. unfold ReplaceDepositDestAddresses. case_bool_decide as Hm; [by intros [= ->]|].
  destruct (getProcessor _ ps); [|by intros [= ->]].
  destruct (DecodeMetadata (dep_Metadata d)) as [[user amount]| |]; cbn; [|done|done].
  intros [= <-]. unfold hashDeposit.
  cbn [set_dep_Dest dep_LeafType dep_OriginalNetwork dep_OriginalAddress dep_Amount
    dep_DestinationNetwork dep_DestinationAddress dep_Metadata dep_DestContractAddress].
  rewrite Hm, Hfresh, (bool_decide_true (LeafTypeMessage = LeafTypeMessage)) by done.
  rewrite (bool_decide_true (dep_DestinationAddress d ≠ zero_address)) by done.
  rewrite (bool_decide_false (zero_address ≠ zero_address)) by tauto. done.
Qed.
End Facts.
