(* ===== verification/Synchronizer.v ===== *)
(** * The synchronizer

    [synchronizer/synchronizer.go] and the part of
    [synchronizer/xlayer_synchronizer.go] that runs in the same goroutine: the
    events of a range of blocks are stored block by block, each block in one
    transaction; reorganisations are found by comparing hashes with the chain
    and undone.  The chain and the sequencer are interfaces; a channel is the
    list of the values sent to it. *)
From S2P Require Import Prelude Types Hashing MerkleStore MerkleTree Tables Storage BridgeCtrl.
From S2P Require Import MessageBridge.

(** ** What the synchronizer reads from outside *)

(** [ethermanInterface], [zkEVMClientInterface] and the Redis call of the
    deposits, over a state [E] of the outside world; [CtxErr] is [s.ctx.Err()]. *)
Class Environment (E : Type) : Type := {
  HeaderByNumber : option Z → M E (Z * bytes);
  GetRollupInfoByBlockRange : Z → Z → M E (list Block * gmap bytes (list Order));
  GetLatestGlobalExitRoot : M E bytes;
  ExitRootsByGER : bytes → M E (option (bytes * bytes * Z));
  AddBlockDeposit : Deposit → M E unit;
  CtxErr : M E bool;
}.

Record Config := mkConfig {
  cfg_networkID : Z;
  cfg_genBlockNumber : Z;
  cfg_SyncInterval : Z;
  cfg_SyncChunkSize : Z;
  cfg_forceSyncChunk : bool;
  cfg_allNetworkIDs : list Z;
  cfg_sovereignChain : bool;
  cfg_channels : nat;              (* len(s.chsExitRootEvent) *)
  cfg_redis : bool;                (* s.redisStorage != nil *)
  cfg_processors : processors;
}.

Inductive message : Type :=
| SentSynced (net : Z)                          (* s.chSynced *)
| SentExitRoot (channel : nat) (g : GlobalExitRoot)   (* s.chsExitRootEvent *)
| SentExitRootL2 (g : GlobalExitRoot)           (* s.chExitRootEventL2 *)
| StartedNotify (origAddress : bytes) (deposit : Deposit) (depositID : Z)   (* the goroutine of afterProcessDeposit *)
| StartedAfterClaim (claim : Claim).            (* go s.afterProcessClaim *)

Record ClientSynchronizer (E : Type) := mkSync {
  ss_ctrl : BridgeController;
  ss_db : database;
  ss_env : E;
  ss_synced : bool;
  ss_l1RollupExitRoot : bytes;
  ss_waitDuration : Z;
  ss_sent : list message;
}.
Arguments mkSync {E}.
Arguments ss_ctrl {E}.
Arguments ss_db {E}.
Arguments ss_env {E}.
Arguments ss_synced {E}.
Arguments ss_l1RollupExitRoot {E}.
Arguments ss_waitDuration {E}.
Arguments ss_sent {E}.

Definition set_db {E} (db : database) (s : ClientSynchronizer E) : ClientSynchronizer E :=
  mkSync (ss_ctrl s) db (ss_env s) (ss_synced s) (ss_l1RollupExitRoot s) (ss_waitDuration s) (ss_sent s).
Definition set_env {E} (e : E) (s : ClientSynchronizer E) : ClientSynchronizer E :=
  mkSync (ss_ctrl s) (ss_db s) e (ss_synced s) (ss_l1RollupExitRoot s) (ss_waitDuration s) (ss_sent s).
Definition set_ctrl_db {E} (p : BridgeController * database) (s : ClientSynchronizer E)
  : ClientSynchronizer E :=
  mkSync p.1 p.2 (ss_env s) (ss_synced s) (ss_l1RollupExitRoot s) (ss_waitDuration s) (ss_sent s).
Definition set_l1Root {E} (r : bytes) (s : ClientSynchronizer E) : ClientSynchronizer E :=
  mkSync (ss_ctrl s) (ss_db s) (ss_env s) (ss_synced s) r (ss_waitDuration s) (ss_sent s).
Definition send {E} (m : message) (s : ClientSynchronizer E) : ClientSynchronizer E :=
  mkSync (ss_ctrl s) (ss_db s) (ss_env s) (ss_synced s) (ss_l1RollupExitRoot s) (ss_waitDuration s)
    (ss_sent s ++ [m]).
(** [s.waitDuration = ...; s.synced = true; s.chSynced <- s.networkID]. *)
Definition mark_synced {E} (cfg : Config) (s : ClientSynchronizer E) : ClientSynchronizer E :=
  send (SentSynced (cfg_networkID cfg))
    (mkSync (ss_ctrl s) (ss_db s) (ss_env s) true (ss_l1RollupExitRoot s) (cfg_SyncInterval cfg) (ss_sent s)).

Section Synchronizer.
Context {K : Keccak} {Abi : TokenAbi} {E : Type} {Env : Environment E} (cfg : Config).
Abbreviation Sy := (M (ClientSynchronizer E)).

Definition on_db {A} (m : M database A) : Sy A := zoom ss_db set_db m.
Definition on_env {A} (m : M E A) : Sy A := zoom ss_env set_env m.
Definition on_ctrl {A} (m : M (BridgeController * database) A) : Sy A :=
  zoom (λ s, (ss_ctrl s, ss_db s)) set_ctrl_db m.

(** [rollbackErr := s.storage.Rollback(...); if rollbackErr != nil { return
    rollbackErr }; return err]. *)
Definition fail_rollback {A} (tx : Tx) (err : error) : Sy A :=
  r ← attempt (on_db (Rollback tx));
  match r with inr rollbackErr => throw rollbackErr | inl _ => throw err end.
Definition or_rollback {A} (tx : Tx) (m : Sy A) : Sy A :=
  r ← attempt m;
  match r with inl a => mret a | inr err => fail_rollback tx err end.

(** ** Events *)
Definition processVerifyBatch (verifyBatch : VerifiedBatch) (blockID : Z) (tx : Tx) : Sy unit :=
  if bool_decide (vb_LocalExitRoot verifyBatch = zero_hash) then mret tt
  else
    let isRollupSyncing := existsb (λ n, bool_decide (vb_RollupID verifyBatch = n)) (cfg_allNetworkIDs cfg) in
    when isRollupSyncing
      (ok ← or_rollback tx (on_db (CheckIfRootExists (vb_LocalExitRoot verifyBatch) (vb_RollupID verifyBatch) tx));
       when (negb ok)
         (fail_rollback tx (Errorf "networkID: %d, Root: %s doesn't exist!" [cfg_networkID cfg])));;
    or_rollback tx (on_ctrl (AddRollupExitLeaf
      (mkRollupExitLeaf 0 blockID (vb_LocalExitRoot verifyBatch) (vb_RollupID verifyBatch) zero_hash) tx)).

Definition processGlobalExitRoot (globalExitRoot : GlobalExitRoot) (blockID : Z) (tx : Tx) : Sy unit :=
  let g := set_ger_ids blockID (cfg_networkID cfg) globalExitRoot in
  if bool_decide (length (ger_ExitRoots g) = 2%nat) then
    r ← attempt (on_db (GetL2ExitRootsByGER (ger_GlobalExitRoot g) nil_tx));
    gers ← match r with
           | inl gers => mret gers
           | inr err => if errors_Is err ErrStorageNotFound then mret [] else fail_rollback tx err
           end;
    for_each gers (λ l2, or_rollback tx (on_db (UpdateL2GER (set_ger_ExitRoots (ger_ExitRoots g) l2) tx)));;
    or_rollback tx (on_db (AddGlobalExitRoot g tx))
  else if bool_decide (length (ger_ExitRoots g) = 0%nat) then
    r ← attempt (on_db (GetL1ExitRootByGER (ger_GlobalExitRoot g) nil_tx));
    g ← match r with
        | inr err => if errors_Is err ErrStorageNotFound then mret g else fail_rollback tx err
        | inl l1 => mret (set_ger_ExitRoots (ger_ExitRoots l1) g)
        end;
    or_rollback tx (on_db (AddGlobalExitRoot g tx))
  else throw (Errorf "networkID: %d, error exitRoots have a wrong length. Length: %d"
                [cfg_networkID cfg; Z.of_nat (length (ger_ExitRoots g))]).

(** The balance of wstETH not yet withdrawn, changed by [f]. *)
Definition processWstETHCommon (deposit : Deposit) (f : Z → Z) (tx : Tx) : M database unit :=
  match GetProcessorByType WstETH (cfg_processors cfg) with
  | None => mret tt
  | Some p =>
      if negb (CheckContractAddress (dep_OriginalAddress deposit) p) then mret tt
      else
        tokenAddr ← lift_res (at_index (p_tokenAddressList p) 0);
        value ← map_err (ErrorfW "GetBridgeBalance from DB err")
                  (GetBridgeBalance tokenAddr (dep_NetworkID deposit) true tx);
        map_err (ErrorfW "SetBridgeBalance to DB err")
          (SetBridgeBalance tokenAddr (dep_NetworkID deposit) (f value) tx)
  end.
Definition processWstETH (sign : Z) (deposit : Deposit) (tx : Tx) : M database unit :=
  match GetProcessorByType WstETH (cfg_processors cfg) with
  | None => mret tt
  | Some p =>
      if negb (CheckContractAddress (dep_OriginalAddress deposit) p) then mret tt
      else
        '(_, amount) ← lift_res (DecodeMetadata (dep_Metadata deposit));
        processWstETHCommon deposit (λ v, v + sign * amount) tx
  end.
Definition processWstETHDeposit : Deposit → Tx → M database unit := processWstETH 1.
Definition processWstETHClaim : Deposit → Tx → M database unit := processWstETH (-1).

(** The message to the front end is made in a goroutine of its own, from the
    deposit with the token of its message bridge. *)
Definition afterProcessDeposit (deposit : Deposit) (depositID : Z) (tx : Tx) : Sy unit :=
  when (bool_decide (dep_NetworkID deposit = 0))
    (or_rollback tx (on_env (AddBlockDeposit deposit)));;
  or_rollback tx (on_db (processWstETHDeposit deposit tx));;
  let origAddress := dep_OriginalAddress deposit in
  deposit ← lift_res (ReplaceDepositInfo (cfg_processors cfg) true deposit);
  modify (send (StartedNotify origAddress deposit depositID)).

Definition processDeposit (deposit : Deposit) (blockID : Z) (tx : Tx) : Sy unit :=
  deposit ← (if cfg_redis cfg then lift_res (ReplaceDepositDestAddresses (cfg_processors cfg) deposit)
             else mret deposit);
  let deposit := set_dep_ids blockID (cfg_networkID cfg) deposit in
  depositID ← or_rollback tx (on_db (AddDepositXLayer deposit tx));
  or_rollback tx (on_ctrl (BridgeCtrl.AddDeposit deposit depositID tx));;
  when (cfg_redis cfg) (afterProcessDeposit deposit depositID tx).

(** The rest of a claim's processing, [afterProcessClaim], is started in a
    goroutine with the same transaction. *)
Definition processClaim (claim : Claim) (blockID : Z) (tx : Tx) : Sy unit :=
  let claim := set_clm_ids blockID (cfg_networkID cfg) claim in
  or_rollback tx (on_db (AddClaim claim tx));;
  when (cfg_redis cfg) (modify (send (StartedAfterClaim claim))).

(** [afterProcessClaim]: errors are only logged, and the deposit that is left is
    the one to tell about. *)
Definition afterProcessClaim (claim : Claim) (tx : Tx) : M database (option Deposit) :=
  r ← attempt (GetDeposit (clm_Index claim) (clm_OriginalNetwork claim) nil_tx);
  match r with
  | inr _ => mret None
  | inl deposit =>
      r ← attempt (processWstETHClaim deposit tx);
      mret (match r with inl _ => Some deposit | inr _ => None end)
  end.

Definition processTokenWrapped (tokenWrapped : TokenWrapped) (blockID : Z) (tx : Tx) : Sy unit :=
  or_rollback tx (on_db (AddTokenWrapped (set_tw_ids blockID (cfg_networkID cfg) tokenWrapped) tx)).

Definition processRemoveL2GlobalExitRoot (g : GlobalExitRoot) (blockID : Z) (tx : Tx) : Sy unit :=
  or_rollback tx (on_db (AddRemoveL2GER (set_ger_ids blockID (cfg_networkID cfg) g) tx)).

(** ** A range of blocks *)
Definition ErrMessyEvents (name : string) : error :=
  Errorf (name +:+ " event error: invalid data received from the RPC. Probably, messy events were received from the RPC")%string [].

(** The element an order entry points to: the program checks that it is there
    and returns an error, without a rollback, when it is not. *)
Definition ordered {A} (name : string) (l : list A) (pos : Z) : Sy A :=
  if bool_decide (Z.of_nat (length l) < pos + 1) then throw (ErrMessyEvents name)
  else lift_res (at_index l pos).

(** One event, and whether a new global exit root of L1 or L2 came with it. *)
Definition processElement (block : Block) (blockID : Z) (tx : Tx) (element : Order) (flags : bool * bool)
  : Sy (bool * bool) :=
  match ord_Name element with
  | GlobalExitRootsOrder =>
      g ← ordered "globalExitRoots" (blk_GlobalExitRoots block) (ord_Pos element);
      let flags := if bool_decide (length (ger_ExitRoots g) = 2%nat) then (true, flags.2)
                   else if bool_decide (length (ger_ExitRoots g) = 0%nat) then (flags.1, true)
                   else flags in
      processGlobalExitRoot g blockID tx;;
      mret flags
  | RemoveL2GEROrder =>
      g ← ordered "removeL2GER" (blk_RemoveL2GER block) (ord_Pos element);
      processRemoveL2GlobalExitRoot g blockID tx;; mret flags
  | DepositsOrder =>
      d ← ordered "deposits" (blk_Deposits block) (ord_Pos element);
      processDeposit d blockID tx;; mret flags
  | ClaimsOrder =>
      c ← ordered "claims" (blk_Claims block) (ord_Pos element);
      processClaim c blockID tx;; mret flags
  | TokensOrder =>
      t ← ordered "tokens" (blk_Tokens block) (ord_Pos element);
      processTokenWrapped t blockID tx;; mret flags
  | VerifyBatchOrder =>
      v ← ordered "verifiedBatches" (blk_VerifiedBatches block) (ord_Pos element);
      processVerifyBatch v blockID tx;; mret flags
  end.

Fixpoint processElements (block : Block) (blockID : Z) (tx : Tx) (order : list Order) (flags : bool * bool)
  : Sy (bool * bool) :=
  match order with
  | [] => mret flags
  | element :: order =>
      flags ← processElement block blockID tx element flags;
      processElements block blockID tx order flags
  end.

(** One block: a transaction with its events. *)
Definition processBlock (block : Block) (order : gmap bytes (list Order)) (flags : bool * bool)
  : Sy (bool * bool) :=
  tx ← on_db BeginDBTransaction;
  let block := set_blk_NetworkID (cfg_networkID cfg) block in
  blockID ← or_rollback tx (on_db (AddBlock block tx));
  flags ← processElements block blockID tx (default [] (order !! blk_BlockHash block)) flags;
  or_rollback tx (on_db (Commit tx));;
  mret flags.

Fixpoint processBlocks (blocks : list Block) (order : gmap bytes (list Order)) (flags : bool * bool)
  : Sy (bool * bool) :=
  match blocks with
  | [] => mret flags
  | block :: blocks =>
      flags ← processBlock block order flags;
      processBlocks blocks order flags
  end.

Definition processBlockRange (blocks : list Block) (order : gmap bytes (list Order)) : Sy unit :=
  '(isNewL1Ger, isNewL2Ger) ← processBlocks blocks order (false, false);
  when isNewL1Ger
    (g ← on_db (GetLatestL1SyncedExitRoot nil_tx);
     root1 ← lift_res (at_index (ger_ExitRoots g) 1);
     s ← get;
     when (bool_decide (ss_l1RollupExitRoot s ≠ root1))
       (modify (set_l1Root root1);;
        for_each (seq 0 (cfg_channels cfg)) (λ ch, modify (send (SentExitRoot ch g)))));;
  when isNewL2Ger
    (g ← on_db (GetLatestTrustedExitRoot (cfg_networkID cfg) nil_tx);
     modify (send (SentExitRootL2 g))).

(** ** Reorganisations *)
Definition resetState (blockNumber : Z) : Sy unit :=
  tx ← on_db BeginDBTransaction;
  or_rollback tx (on_db (Reset blockNumber (cfg_networkID cfg) tx));;
  depositCnt ← or_rollback tx (on_db (GetNumberDeposits (cfg_networkID cfg) blockNumber tx));
  or_rollback tx (on_ctrl (ReorgMT depositCnt (cfg_networkID cfg) tx));;
  or_rollback tx (on_db (Commit tx)).

Definition ErrFuel : string := "out of fuel".

(** The block of the chain a stored block is compared with. *)
Definition chain_block (reorged : Block) (block : option Block) : Sy Block :=
  match block with
  | Some b => mret b
  | None =>
      '(number, hash) ← on_env (HeaderByNumber (Some (blk_BlockNumber reorged)));
      if bool_decide (number ≠ blk_BlockNumber reorged)
      then throw (Errorf "networkID: %d, wrong ethereum block retrieved from blockchain. Block numbers don't match. BlockNumber stored: %d. BlockNumber retrieved: %d"
             [cfg_networkID cfg; blk_BlockNumber reorged; number])
      else mret (mk_header number hash)
  end.

(** The loop of [checkReorg]: [None] is a break with the block it stops at,
    [Some] the early return with the genesis number. *)
Fixpoint checkReorg_loop (fuel : nat) (depth : Z) (reorged : Block) (block : option Block)
  : Sy (Block * bool) :=
  match fuel with
  | O => gopanic ErrFuel
  | S fuel =>
      b ← chain_block reorged block;
      if negb (bool_decide (blk_BlockHash b = blk_BlockHash reorged)) &&
         bool_decide (blk_BlockNumber reorged > cfg_genBlockNumber cfg)
      then
        let depth := depth + 1 in
        r ← attempt (on_db (GetPreviousBlock (cfg_networkID cfg) depth nil_tx));
        match r with
        | inl lb => checkReorg_loop fuel depth lb None
        | inr err => if errors_Is err ErrStorageNotFound
                     then mret (mk_header (cfg_genBlockNumber cfg) zero_hash, true)
                     else throw err
        end
      else mret (reorged, false)
  end.

Definition checkReorg (fuel : nat) (latestStoredBlock : Block) (syncedBlock : option Block)
  : Sy (option Block) :=
  '(reorged, early) ← checkReorg_loop fuel 0 latestStoredBlock syncedBlock;
  if (early : bool) then mret (Some reorged)
  else if bool_decide (blk_BlockHash latestStoredBlock ≠ blk_BlockHash reorged) then mret (Some reorged)
  else mret None.
End Synchronizer.

Section SyncLoop.
Context {K : Keccak} {Abi : TokenAbi} {E : Type} {Env : Environment E} (cfg : Config).
Abbreviation Sy := (M (ClientSynchronizer E)).

(** ** The synchronization loop *)
Definition syncTrustedState : Sy unit :=
  lastGER ← on_env GetLatestGlobalExitRoot;
  if bool_decide (lastGER = zero_hash) then mret tt
  else
    exitRoots ← on_env (ExitRootsByGER lastGER);
    match exitRoots with
    | None => mret tt
    | Some (mainnet, rollup, timestamp) =>
        let g := mkGlobalExitRoot 0 0 [mainnet; rollup] lastGER (cfg_networkID cfg) 0
                   (int64 timestamp * 10 ^ 9) in
        isUpdated ← on_db (AddTrustedGlobalExitRoot g nil_tx);
        when isUpdated (modify (send (SentExitRootL2 g)))
    end.

Definition reset_to (err : error) (block : Block) : Sy Block :=
  map_err (λ _, err) (resetState cfg (blk_BlockNumber block));;
  mret block.

Definition ErrResetting : error :=
  Errorf "networkID: %d, error resetting the state to a previous block" [cfg_networkID cfg].

(** The range read from the chain has no event of the last stored block: back
    to a previous block. *)
Definition reorg_in_range (fuel : nat) : Sy Block :=
  r ← attempt (on_db (GetPreviousBlock (cfg_networkID cfg) 1 nil_tx));
  prevBlock ← match r with
              | inl b => mret b
              | inr err => if errors_Is err ErrStorageNotFound then mret empty_block else throw err
              end;
  blockReorged ← checkReorg cfg fuel prevBlock None;
  reset_to (Errorf "error resetting the state to a previous block" []) (default prevBlock blockReorged).

(** The bounds of the next range, after looking at the head of the chain
    again when the range goes beyond it. *)
Definition adjust_range (last : Block) (fromBlock toBlock lastKnown : Z) : Sy (Z * Z * Z) :=
  if bool_decide (toBlock > lastKnown) then
    '(lastKnown, _) ← on_env (HeaderByNumber None);
    if bool_decide (toBlock > lastKnown) then
      s ← get;
      if ss_synced s then mret (fromBlock, lastKnown, lastKnown)
      else
        modify (mark_synced cfg);;
        mret (if cfg_forceSyncChunk cfg then fromBlock else blk_BlockNumber last, lastKnown, lastKnown)
    else mret (fromBlock, toBlock, lastKnown)
  else mret (fromBlock, toBlock, lastKnown).

(** The genesis block is added empty when it has no event. *)
Definition with_genesis (fromBlock : Z) (blocks : list Block) : Sy (list Block) :=
  if bool_decide (fromBlock = cfg_genBlockNumber cfg) && negb (cfg_forceSyncChunk cfg) then
    mret (match blocks with
          | b :: _ => if bool_decide (blk_BlockNumber b ≠ cfg_genBlockNumber cfg) then empty_block :: blocks
                      else blocks
          | [] => [empty_block]
          end)
  else if bool_decide (fromBlock < cfg_genBlockNumber cfg) then
    throw (Errorf "networkID: %d. fromBlock %d is lower than the genesisBlockNumber %d"
             [cfg_networkID cfg; fromBlock; cfg_genBlockNumber cfg])
  else mret blocks.

(** The checks of a synced node before a range is processed: the blocks left
    to process, or the block to go back to. *)
Definition check_synced (fuel : nat) (last : Block) (blocks : list Block) : Sy (list Block + Block) :=
  s ← get;
  if negb (ss_synced s) then mret (inl blocks)
  else
    let check (init : option Block) (blocks : list Block) : Sy (list Block + Block) :=
      block ← map_err (λ _, Errorf "networkID: %d, error checking reorgs" [cfg_networkID cfg])
                (checkReorg cfg fuel last init);
      match block with
      | None => mret (inl blocks)
      | Some b => b ← reset_to ErrResetting b; mret (inr b)
      end in
    if cfg_forceSyncChunk cfg then check None blocks
    else match blocks with
         | b :: blocks => check (Some b) blocks
         | [] => b ← reorg_in_range fuel; mret (inr b)
         end.

(** The block kept as the last one of a range. *)
Definition last_of_range (toBlock : Z) (blocks : list Block) (last : Block) : Sy Block :=
  if cfg_forceSyncChunk cfg then
    '(number, hash) ← on_env (HeaderByNumber (Some toBlock));
    mret (mk_header number hash)
  else match List.last blocks last, blocks with
       | b, _ :: _ => mret (set_blk_NetworkID (cfg_networkID cfg) b)
       | _, [] => mret last
       end.

Fixpoint syncBlocks_loop (fuel : nat) (last : Block) (fromBlock toBlock lastKnown : Z) : Sy Block :=
  match fuel with
  | O => gopanic ErrFuel
  | S fuel =>
      '(fromBlock, toBlock, lastKnown) ← adjust_range last fromBlock toBlock lastKnown;
      if bool_decide (fromBlock > toBlock) then mret last
      else
        '(blocks, order) ← on_env (GetRollupInfoByBlockRange fromBlock toBlock);
        blocks ← with_genesis fromBlock blocks;
        checked ← check_synced fuel last blocks;
        match checked with
        | inr b => mret b
        | inl blocks =>
            processBlockRange cfg blocks order;;
            last ← last_of_range toBlock blocks last;
            s ← get;
            if bool_decide (lastKnown ≤ toBlock) then
              when (negb (ss_synced s)) (modify (mark_synced cfg));;
              mret last
            else if negb (ss_synced s) || cfg_forceSyncChunk cfg then
              let fromBlock := wrap64 (toBlock + 1) in
              syncBlocks_loop fuel last fromBlock (wrap64 (fromBlock + cfg_SyncChunkSize cfg)) lastKnown
            else
              syncBlocks_loop fuel last (blk_BlockNumber last) (wrap64 (toBlock + cfg_SyncChunkSize cfg)) lastKnown
        end
  end.

Definition syncBlocks (fuel : nat) (lastBlockSynced : Block) : Sy Block :=
  '(lastKnown, _) ← on_env (HeaderByNumber None);
  block ← map_err (λ _, Errorf "networkID: %d, error checking reorgs" [cfg_networkID cfg])
            (checkReorg cfg fuel lastBlockSynced None);
  match block with
  | Some b => reset_to ErrResetting b
  | None =>
      s ← get;
      let fromBlock := if ss_synced s && negb (cfg_forceSyncChunk cfg) then blk_BlockNumber lastBlockSynced
                       else wrap64 (blk_BlockNumber lastBlockSynced + 1) in
      syncBlocks_loop fuel lastBlockSynced fromBlock (wrap64 (fromBlock + cfg_SyncChunkSize cfg)) lastKnown
  end.

Definition genesis_block : Block :=
  set_blk_NetworkID (cfg_networkID cfg) (mk_header (cfg_genBlockNumber cfg) zero_hash).

(** [GetLastBlock], or the genesis block when nothing is stored. *)
Definition last_stored_block : Sy Block :=
  r ← attempt (on_db (GetLastBlock (cfg_networkID cfg) nil_tx));
  match r with
  | inl b => mret b
  | inr err => if errors_Is err ErrStorageNotFound then mret genesis_block else throw err
  end.

(** The end of an iteration of a node that is not synced yet. *)
Definition check_head (last : Block) : Sy unit :=
  r ← attempt (on_env (HeaderByNumber None));
  match r with
  | inr _ => mret tt
  | inl (lastKnownBlock, _) =>
      s ← get;
      when (bool_decide (blk_BlockNumber last = lastKnownBlock) && negb (ss_synced s))
        (modify (mark_synced cfg));;
      when (bool_decide (blk_BlockNumber last > lastKnownBlock))
        (if bool_decide (cfg_networkID cfg = 0)
         then throw (Errorf "networkID: %d, error: latest Synced BlockNumber (%d) is higher than the latest Proposed block (%d) in the network"
                [cfg_networkID cfg; blk_BlockNumber last; lastKnownBlock])
         else _ ← attempt (resetState cfg lastKnownBlock); mret tt)
  end.

(** One iteration of the loop of [Sync]: the next last block; an error ends
    the loop. *)
Definition sync_iteration (fuel : nat) (lastBlockSynced : Block) : Sy Block :=
  r ← attempt (syncBlocks fuel lastBlockSynced);
  '(last, stop) ← match r with
                  | inl b => mret (b, false)
                  | inr _ => b ← last_stored_block; done ← on_env CtxErr; mret (b, done)
                  end;
  if (stop : bool) then mret last
  else
    s ← get;
    (if negb (ss_synced s) then check_head last
     else if bool_decide (cfg_networkID cfg = 0) || cfg_sovereignChain cfg then mret tt
     else _ ← attempt syncTrustedState; mret tt);;
    mret last.

(** [Sync]: [n] iterations of the loop, until the context is done. *)
Fixpoint sync_loop (n fuel : nat) (last : Block) : Sy Block :=
  match n with
  | O => mret last
  | S n => last ← sync_iteration fuel last; sync_loop n fuel last
  end.
Definition Sync (n fuel : nat) : Sy Block :=
  last ← last_stored_block;
  sync_loop n fuel last.
End SyncLoop.
