(* ===== verification/SyncAtomic.v ===== *)
(** * Blocks are stored atomically

    Whatever fails while a block is processed (the connection, the chain, a
    constraint, an event out of order), the committed tables only change when
    the whole block is committed. *)
From S2P Require Import Prelude Types Hashing MerkleStore MerkleTree Tables Storage StorageFacts.
From S2P Require Import SchemaInv Transactions BridgeCtrl MessageBridge Synchronizer.

Section Atomic.
Context {K : Keccak} {Abi : TokenAbi} {E : Type} {Env : Environment E} (cfg : Config).
Abbreviation St := (ClientSynchronizer E).

(** [P] is about the database only. *)
Section Db.
Context (P : database → Prop).
Definition dbP (s : St) : Prop := P (ss_db s).
Definition cdbP (s : BridgeController * database) : Prop := P s.2.
Definition tdbP (s : MerkleTree * database) : Prop := P s.2.

Lemma pres_on_db {A} (m : M database A) : preserves P m → preserves dbP (on_db m).
Proof.
  intros Hm s r s' H. unfold on_db, zoom. destruct (m (ss_db s)) as [r1 db1] eqn:E1.
  intros [= <- <-]. exact (Hm _ _ _ H E1).
Qed.
Lemma pres_on_env {A} (m : M E A) : preserves dbP (on_env m).
Proof. intros s r s' H. unfold on_env, zoom. destruct (m (ss_env s)). by intros [= <- <-]. Qed.
Lemma pres_send m : preserves dbP (modify (send m) : M St unit).
Proof. by apply pres_modify. Qed.
Lemma pres_on_ctrl {A} (m : M (BridgeController * database) A) :
  preserves cdbP m → preserves dbP (on_ctrl m).
Proof.
  intros Hm s r s' H. unfold on_ctrl, zoom.
  destruct (m (ss_ctrl s, ss_db s)) as [r1 p] eqn:E1. intros [= <- <-].
  exact (Hm (ss_ctrl s, ss_db s) _ _ H E1).
Qed.
Lemma pres_on_store {A} (m : M database A) : preserves P m → preserves tdbP (on_store m).
Proof.
  intros Hm s r s' H. unfold on_store, zoom. destruct (m s.2) as [r1 db1] eqn:E1.
  intros [= <- <-]. exact (Hm _ _ _ H E1).
Qed.
Lemma pres_update_mt f : preserves tdbP (update_mt f : M (MerkleTree * database) unit).
Proof. by apply pres_modify. Qed.
Lemma pres_on_tree {A} tID (m : M (MerkleTree * database) A) :
  preserves tdbP m → preserves cdbP (on_tree tID m).
Proof.
  intros Hm [bt db] r s' H. unfold on_tree.
  destruct (at_index (bt_exitTrees bt) tID); [|by intros [= <- <-]|by intros [= <- <-]].
  destruct (m (a, db)) as [r1 [mt' db']] eqn:E1. intros [= <- <-].
  exact (Hm (a, db) _ _ H E1).
Qed.
Lemma pres_rollupsTree l tx :
  preserves tdbP (addRollupExitLeaf l tx : M (MerkleTree * database) unit) →
  preserves cdbP (AddRollupExitLeaf l tx : M (BridgeController * database) unit).
Proof.
  intros Hm [bt db] r s' H. unfold AddRollupExitLeaf.
  destruct (addRollupExitLeaf l tx (bt_rollupsTree bt, db)) as [r1 [mt' db']] eqn:E1.
  intros [= <- <-]. exact (Hm (_, db) _ _ H E1).
Qed.

Context (Hexec : ∀ A (m : SQL A), preserves P (exec open_tx m)).
Context (Hselect : ∀ A (f : tables → A), preserves P (exec nil_tx (select f))).
Context (Hrollback : preserves P (Rollback open_tx)).
Context (Hbegin : preserves P BeginDBTransaction).

Hint Resolve Hexec Hselect Hrollback Hbegin : pres.
Hint Resolve pres_send pres_on_db pres_on_env pres_on_ctrl pres_on_store pres_update_mt pres_on_tree
  pres_rollupsTree : pres.

Lemma pres_fail_rollback {A} err : preserves dbP (fail_rollback (A:=A) open_tx err : M St A).
Proof. unfold fail_rollback. solve_preserves. Qed.
Hint Resolve pres_fail_rollback : pres.
Lemma pres_or_rollback {A} (m : M St A) : preserves dbP m → preserves dbP (or_rollback open_tx m).
Proof. intros Hm. unfold or_rollback. solve_preserves. Qed.

(** Calls of the storage in the open transaction, and reads outside it. *)
Lemma pres_open_call A (c : ∀ `{Json}, storage_call A) `{Json} :
  call_tx c = Some open_tx → preserves P (run_call c).
Proof. apply tx_step_preserves; auto. Qed.

Lemma pres_query_row_nil {A} (f : tables → option A) : preserves P (query_row nil_tx f).
Proof. unfold query_row. solve_preserves. Qed.
Lemma pres_query_row_open {A} (f : tables → option A) : preserves P (query_row open_tx f).
Proof. unfold query_row. solve_preserves. Qed.
Hint Resolve pres_query_row_nil pres_query_row_open : pres.

Lemma pres_addRollupExitLeaf l : preserves tdbP (addRollupExitLeaf l open_tx : M (MerkleTree * database) unit).
Proof.
  unfold addRollupExitLeaf, storeLeaves. solve_preserves; apply pres_on_store; cbn;
    unfold GetLatestRollupExitLeaves, IsRollupExitRoot, AddRollupExitLeaves; solve_preserves.
Qed.
Lemma pres_addLeaf id leaf n : preserves tdbP (addLeaf id leaf n open_tx : M (MerkleTree * database) unit).
Proof.
  unfold addLeaf. solve_preserves; apply pres_on_store; cbn; unfold SetRoot, BulkSet; solve_preserves.
Qed.
Hint Resolve pres_addRollupExitLeaf pres_addLeaf : pres.
Lemma pres_ctrl_AddDeposit d id : preserves cdbP (BridgeCtrl.AddDeposit d id open_tx).
Proof. unfold BridgeCtrl.AddDeposit. solve_preserves. Qed.

Lemma pres_processVerifyBatch v id : preserves dbP (processVerifyBatch cfg v id open_tx).
Proof.
  unfold processVerifyBatch. solve_preserves; apply pres_or_rollback; solve_preserves.
  apply pres_on_db. unfold CheckIfRootExists. solve_preserves.
Qed.
Lemma pres_processGlobalExitRoot g id : preserves dbP (processGlobalExitRoot cfg g id open_tx).
Proof.
  unfold processGlobalExitRoot. solve_preserves; try apply pres_or_rollback; apply pres_on_db;
    unfold GetL2ExitRootsByGER, UpdateL2GER, AddGlobalExitRoot, GetL1ExitRootByGER, l1_root; solve_preserves.
Qed.
Lemma pres_processWstETHDeposit d : preserves P (processWstETHDeposit cfg d open_tx).
Proof.
  unfold processWstETHDeposit, processWstETH, processWstETHCommon, GetBridgeBalance, SetBridgeBalance.
  solve_preserves.
Qed.
Hint Resolve pres_processWstETHDeposit pres_ctrl_AddDeposit : pres.
Lemma pres_processDeposit d id : preserves dbP (processDeposit cfg d id open_tx).
Proof.
  unfold processDeposit, afterProcessDeposit. solve_preserves; apply pres_or_rollback; solve_preserves.
  apply pres_on_db. unfold AddDepositXLayer. solve_preserves.
Qed.
Lemma pres_processClaim c id : preserves dbP (processClaim cfg c id open_tx).
Proof.
  unfold processClaim. solve_preserves. apply pres_or_rollback, pres_on_db. unfold AddClaim. solve_preserves.
Qed.
Lemma pres_processTokenWrapped w id : preserves dbP (processTokenWrapped cfg w id open_tx).
Proof. apply pres_or_rollback, pres_on_db. unfold AddTokenWrapped, GetTokenMetadata. solve_preserves. Qed.
Lemma pres_processRemove g id : preserves dbP (processRemoveL2GlobalExitRoot cfg g id open_tx).
Proof.
  apply pres_or_rollback, pres_on_db.
  unfold AddRemoveL2GER, deposit_of_ger, GetDepositCountByGER. solve_preserves.
Qed.
Hint Resolve pres_processVerifyBatch pres_processGlobalExitRoot pres_processDeposit
  pres_processClaim pres_processTokenWrapped pres_processRemove : pres.

Lemma pres_ordered {A} name (l : list A) pos : preserves dbP (ordered name l pos : M St A).
Proof. unfold ordered. solve_preserves. Qed.
Hint Resolve pres_ordered : pres.
Lemma pres_processElements block id order flags :
  preserves dbP (processElements cfg block id open_tx order flags).
Proof.
  revert flags. induction order as [|e order IH]; intros flags; cbn [processElements]; [solve_preserves|].
  apply pres_bind; [|intros; apply IH]. unfold processElement. destruct (ord_Name e); solve_preserves.
Qed.
End Db.

(** ** The committed tables *)
Lemma select_nil_keeps_committed t0 A (f : tables → A) :
  preserves (λ db, db_committed db = t0) (exec nil_tx (select f)).
Proof.
  intros [tb otx q lk fs nw] r db' H. cbn in H. subst tb.
  unfold exec, pop_fault, mbind, M_bind. cbn.
  destruct fs as [|[c|] fs]; cbn; by intros [= _ <-].
Qed.
Lemma begin_keeps_committed t0 : preserves (λ db, db_committed db = t0) BeginDBTransaction.
Proof.
  intros [tb otx q lk fs nw] r db' H. cbn in H. subst tb.
  unfold BeginDBTransaction, pop_fault, mbind, M_bind. cbn.
  destruct fs as [|[c|] fs]; cbn; by intros [= _ <-].
Qed.
Lemma commit_err_keeps_committed db r db' :
  Commit open_tx db = (r, db') → is_ok r = false → db_committed db' = db_committed db.
Proof.
  destruct db as [tb otx q lk fs nw]. unfold Commit, pop_fault, commit_tx, mbind, M_bind. cbn.
  destruct fs as [|[c|] fs]; cbn; (destruct otx as [[t []]|]; cbn; by intros [= <- <-]).
Qed.

Abbreviation committed_is t0 := (λ db, db_committed db = t0).

(** [P] holds after [m] whenever [m] fails. *)
Definition keeps_on_failure {S A} (P : S → Prop) (m : M S A) : Prop :=
  ∀ s r s', P s → m s = (r, s') → is_ok r = false → P s'.
Lemma keeps_bind {S A B} (P : S → Prop) (m : M S A) (f : A → M S B) :
  preserves P m → (∀ a, keeps_on_failure P (f a)) → keeps_on_failure P (m ≫= f).
Proof.
  intros Hm Hf s r s' H. unfold mbind, M_bind. destruct (m s) as [[a|e|p] s1] eqn:E1;
    specialize (Hm _ _ _ H E1); [|by intros [= <- <-]|by intros [= <- <-]].
  by apply Hf.
Qed.

Lemma begin_opens s tx s1 : on_db (E:=E) BeginDBTransaction s = (Ok tx, s1) → tx = open_tx.
Proof.
  unfold on_db, zoom. destruct (BeginDBTransaction (ss_db s)) as [r1 d1] eqn:E2.
  intros [= -> _]. revert E2. unfold BeginDBTransaction, pop_fault, mbind, M_bind.
  destruct (db_faults (ss_db s)) as [|[c|] fs]; cbn; by intros [= <- _].
Qed.

Lemma commit_keeps_on_failure t0 {A} (a : A) :
  keeps_on_failure (dbP (committed_is t0)) (or_rollback open_tx (on_db (Commit open_tx));; mret a : M St A).
Proof.
  intros s r s' H. unfold or_rollback, fail_rollback, attempt, on_db, zoom, mbind, M_bind.
  destruct (Commit open_tx (ss_db s)) as [[[]|e|p] db1] eqn:E1;
    [by intros [= <- <-]|..].
  - apply commit_err_keeps_committed in E1; [|done]. intros E2 _. revert E2.
    destruct (Rollback open_tx (ss_db (set_db db1 s))) as [r2 db2] eqn:E3.
    eapply rollback_keeps_committed in E3; [|exact E1]. cbn in E3. unfold dbP in *.
    destruct r2 as [[]|e2|p2]; intros [= <- <-]; cbn; congruence.
  - apply commit_err_keeps_committed in E1; [|done]. intros [= <- <-] _. unfold dbP in *. cbn. congruence.
Qed.

Lemma processBlock_keeps t0 block order flags :
  keeps_on_failure (dbP (committed_is t0)) (processBlock cfg block order flags).
Proof.
  assert (He := exec_keeps_committed t0). assert (Hs := select_nil_keeps_committed t0).
  assert (Hr := rollback_keeps_committed t0).
  intros s r s' H. unfold processBlock. unfold mbind at 1, M_bind at 1.
  destruct (on_db BeginDBTransaction s) as [[tx|e|p] s1] eqn:E1;
    assert (H1 : dbP (committed_is t0) s1)
      by (eapply pres_on_db; [apply begin_keeps_committed|exact H|exact E1]);
    [|by intros [= <- <-]..].
  apply begin_opens in E1 as ->. revert s1 r s' H1. apply keeps_bind.
  - apply pres_or_rollback; [done|]. apply pres_on_db. unfold AddBlock. solve_preserves.
  - intros id. apply keeps_bind; [by apply pres_processElements|].
    intros flags'. apply commit_keeps_on_failure.
Qed.

(** ** Properties *)

(** The goroutine that tells the front end about a deposit is started while the
    block is still open: nothing of the deposit is committed. *)
Theorem announced_before_commit d id s s'
  (Hredis : cfg_redis cfg = true) (H : processDeposit cfg d id open_tx s = (Ok tt, s')) :
  db_committed (ss_db s') = db_committed (ss_db s) ∧
  ∃ origAddress d' depositID, last (ss_sent s') = Some (StartedNotify origAddress d' depositID).
Proof.
  split.
  - exact (pres_processDeposit _ (exec_keeps_committed _) (rollback_keeps_committed _) d id s _ s' eq_refl H).
  - unfold processDeposit, afterProcessDeposit in H. rewrite Hredis in H. cbn [when] in H.
    repeat match goal with X : (_ ≫= _) _ = (Ok tt, s') |- _ => apply M_bind_inv in X as (? & ? & _ & X) end.
    injection H as <-. cbn. rewrite last_snoc. eauto.
Qed.

(** C12. The events of a block are stored all together or not at all:
    whatever goes wrong while a block is processed (the connection, a
    constraint, an event out of order, Redis, the commit itself) the committed
    tables are those from before the block. *)
Theorem processBlock_atomic block order flags s r s'
  (E1 : processBlock cfg block order flags s = (r, s')) (Hfail : is_ok r = false) :
  db_committed (ss_db s') = db_committed (ss_db s).
Proof. exact (processBlock_keeps _ block order flags s r s' eq_refl E1 Hfail). Qed.
End Atomic.
