(* ===== verification/TableInv.v ===== *)
(** * Invariants of the tables, and of the values a computation returns

    A property of the tables that every statement keeps holds of the committed
    tables and of those of the open transaction, whatever the calls; [yields]
    says what a computation returns when it succeeds. *)
From S2P Require Import Prelude Types MerkleStore MonitoredTx Tables Storage StorageFacts Transactions.
From S2P Require Import SyncAtomic.

(** ** What a computation returns *)
Definition yields {S} (P : S → Prop) {A} (m : M S A) (Q : A → Prop) : Prop :=
  ∀ s a s', P s → m s = (Ok a, s') → Q a.
(** Whatever the state. *)
Abbreviation returns m Q := (yields (λ _, True) m Q).

Section Yields.
Context {S : Type} (P : S → Prop).

Lemma yields_ret {A} (a : A) (Q : A → Prop) : Q a → yields P (mret a : M S A) Q.
Proof. by intros H s ? ? _ [= <- _]. Qed.
Lemma yields_lift {A} (r : res A) (Q : A → Prop) : (∀ a, r = Ok a → Q a) → yields P (lift_res r : M S A) Q.
Proof. intros H s a s' _ [= -> _]. auto. Qed.
Lemma yields_throw {A} e (Q : A → Prop) : yields P (throw e : M S A) Q.
Proof. by intros s ? ? _ [=]. Qed.
Lemma yields_panic {A} p (Q : A → Prop) : yields P (gopanic p : M S A) Q.
Proof. by intros s ? ? _ [=]. Qed.
Lemma yields_bind {A B} (m : M S A) (f : A → M S B) R Q :
  preserves P m → yields P m R → (∀ a, R a → yields P (f a) Q) → yields P (m ≫= f) Q.
Proof.
  intros Hp Hm Hf s b s' Hs E. inv_bind E. exact (Hf _ (Hm _ _ _ Hs H) _ _ _ (Hp _ _ _ Hs H) H0).
Qed.
Lemma yields_map_err {A} f (m : M S A) Q : yields P m Q → yields P (map_err f m) Q.
Proof.
  intros H s a s' Hs E. unfold map_err in E. destruct (m s) as [[a'|e|p] s1] eqn:E1; [|done..].
  injection E as <- <-. by eapply H.
Qed.
Lemma yields_weaken {A} (m : M S A) (Q Q' : A → Prop) : yields P m Q → (∀ a, Q a → Q' a) → yields P m Q'.
Proof. intros H HQ s a s' Hs E. eauto. Qed.
Lemma yields_any {A} (m : M S A) : yields P m (λ _, True).
Proof. done. Qed.

(** The rest of a computation may rely on the value. *)
Lemma pres_bind_yields {A B} (m : M S A) (f : A → M S B) R :
  preserves P m → yields P m R → (∀ a, R a → preserves P (f a)) → preserves P (m ≫= f).
Proof.
  intros Hp Hm Hf s r s' Hs. unfold mbind, M_bind. destruct (m s) as [[a|e|p] s1] eqn:E1;
    pose proof (Hp _ _ _ Hs E1) as H1; [|by intros [= <- <-]..].
  intros E2. exact (Hf _ (Hm _ _ _ Hs E1) _ _ _ H1 E2).
Qed.
Lemma pres_for_each_in {A} (l : list A) (f : A → M S unit) :
  (∀ a, a ∈ l → preserves P (f a)) → preserves P (for_each l f).
Proof.
  induction l as [|x l IH]; intros Hf; [apply pres_ret|]. cbn.
  apply pres_bind; [apply Hf; by left|]. intros _. apply IH. intros a Ha. apply Hf. by right.
Qed.
End Yields.

Lemma pres_true {S A} (m : M S A) : preserves (λ _, True) m.
Proof. done. Qed.
#[export] Hint Resolve pres_true : pres.

Lemma returns_bind {S A B} (m : M S A) (f : A → M S B) R Q :
  returns m R → (∀ a, R a → returns (f a) Q) → returns (m ≫= f) Q.
Proof. intros Hm Hf. by eapply yields_bind. Qed.
Lemma returns_seq {S A B} (m : M S A) (f : A → M S B) Q :
  (∀ a, returns (f a) Q) → returns (m ≫= f) Q.
Proof. intros Hf. by eapply (returns_bind _ _ (λ _, True)). Qed.

(** ** Tables *)
Definition sql_keeps (T : tables → Prop) {A} (m : SQL A) : Prop :=
  ∀ t q a t' q', T t → m (t, q) = (Ok a, (t', q')) → T t'.

(** The property holds of the committed tables and of the open transaction. *)
Definition db_all (T : tables → Prop) (db : database) : Prop :=
  T (db_committed db) ∧ match db_tx db with Some tx => T (tx_tables tx) | None => True end.

Section TableInv.
Context (T : tables → Prop).

Lemma keeps_select {A} (f : tables → A) : sql_keeps T (select f).
Proof. by intros t q a t' q' H [= _ <- _]. Qed.
Lemma keeps_change f : (∀ t, T t → T (f t)) → sql_keeps T (change f).
Proof. intros Hf t q a t' q' H [= _ <- _]. auto. Qed.
Lemma keeps_require b e : sql_keeps T (require b e).
Proof. intros t q a t' q' H. destruct b; by intros [= _ <- _]. Qed.
Lemma keeps_seq {A B} (m : SQL A) (f : A → SQL B) :
  sql_keeps T m → (∀ a, sql_keeps T (f a)) → sql_keeps T (m ≫= f).
Proof. intros Hm Hf t q b t' q' H E. inv_bind E. destruct s as [t1 q1]. exact (Hf _ _ _ _ _ _ (Hm _ _ _ _ _ H H0) H1). Qed.

Lemma db_all_exec {A} tx (m : SQL A) : sql_keeps T m → preserves (db_all T) (exec tx m).
Proof.
  intros Hm [tb otx q lk fs nw] r db' [H1 H2]. unfold exec, pop_fault, mbind, M_bind. cbn in *.
  set (run := match tx with nil_tx => run_auto | open_tx => run_tx end : SQL A → M database A).
  assert (∀ m', sql_keeps T m' → ∀ fs', run m' (mkDatabase tb otx q lk fs' nw) = (r, db') → db_all T db') as Hr.
  { intros m' Hm' fs'. unfold run, run_auto, run_tx. destruct tx; cbn.
    - destruct (m' (tb, q)) as [[a|e|p] [t1 q1]] eqn:E; intros [= <- <-]; split; cbn; eauto.
    - destruct otx as [[t []]|]; cbn in *; [by intros [= <- <-]| |by intros [= <- <-]].
      destruct (m' (t, q)) as [[a|e|p] [t1 q1]] eqn:E; intros [= <- <-]; split; cbn; eauto. }
  assert (Ht : ∀ c, sql_keeps T (throw (fault_error c) : SQL A)) by done.
  destruct fs as [|[c|] fs], tx; cbn; intros E;
    first [exact (Hr m Hm _ E)|exact (Hr _ (Ht c) _ E)].
Qed.
Lemma db_all_Begin : preserves (db_all T) BeginDBTransaction.
Proof.
  intros [tb otx q lk fs nw] r db' [H1 H2]. unfold BeginDBTransaction, pop_fault, mbind, M_bind. cbn in *.
  destruct fs as [|[c|] fs]; cbn; by intros [= _ <-].
Qed.
Lemma db_all_Rollback tx : preserves (db_all T) (Rollback tx).
Proof.
  destruct tx; [apply pres_throw|]. intros [tb otx q lk fs nw] r db' [H1 H2]. unfold Rollback. cbn in *.
  destruct otx; by intros [= _ <-].
Qed.
Lemma db_all_Commit tx : preserves (db_all T) (Commit tx).
Proof.
  destruct tx; [apply pres_throw|]. intros [tb otx q lk fs nw] r db' [H1 H2].
  unfold Commit, pop_fault, commit_tx, mbind, M_bind. cbn in *.
  destruct fs as [|[c|] fs]; cbn; (destruct otx as [[t []]|]; cbn in *; by intros [= _ <-]).
Qed.

(** A query yields what it computes from tables with the property. *)
Lemma yields_select {A} tx (f : tables → A) (Q : A → Prop) :
  T initial_tables → (∀ t, T t → Q (f t)) → yields (db_all T) (exec tx (select f)) Q.
Proof.
  intros H0 HQ db a db' [H1 H2] E. apply select_ok in E as (-> & _). apply HQ.
  destruct tx; cbn; [done|]. by destruct (db_tx db).
Qed.
Lemma yields_query {A} tx (f : tables → list A) (Q : A → Prop) :
  T initial_tables → (∀ t, T t → Forall Q (f t)) → yields (db_all T) (query tx (select f)) (Forall Q).
Proof.
  intros H0 HQ db l db' [H1 H2] [n ->]%query_rows. apply Forall_take, HQ.
  destruct tx; cbn; [done|]. by destruct (db_tx db).
Qed.
(** In a transaction the tables are there as soon as the query succeeds. *)
Lemma yields_select_open {A} (f : tables → A) (Q : A → Prop) :
  (∀ t, T t → Q (f t)) → yields (db_all T) (exec open_tx (select f)) Q.
Proof.
  intros HQ db a db' [_ H2] E. apply exec_ok in E as (q' & Hm & _ & Hopen & _).
  destruct (Hopen eq_refl) as (t & t' & Htx & _). unfold view in Hm. rewrite Htx in H2, Hm. injection Hm as <- _ _. by apply HQ.
Qed.
Lemma yields_query_open {A} (f : tables → list A) (Q : A → Prop) :
  (∀ t, T t → Forall Q (f t)) → yields (db_all T) (query open_tx (select f)) (Forall Q).
Proof.
  intros HQ db l db' [_ H2] E. destruct (query_rows _ _ _ _ _ E) as [n ->]. apply Forall_take, HQ.
  unfold view. destruct (db_tx db) as [tx|] eqn:Etx; [done|]. exfalso. revert E.
  unfold query, received, exec, pop_fault, mbind, M_bind. rewrite Etx.
  destruct (db_faults db) as [|f0 fs]; cbn; unfold run_tx; cbn; rewrite ?Etx; done.
Qed.
Lemma db_all_select {A} tx (f : tables → A) : preserves (db_all T) (exec tx (select f)).
Proof. apply db_all_exec, keeps_select. Qed.
End TableInv.

(** The property holds of the open transaction, whatever is committed. *)
Definition tx_all (T : tables → Prop) (db : database) : Prop :=
  match db_tx db with Some tx => T (tx_tables tx) | None => True end.
Section TxAll.
Context (T : tables → Prop).

Lemma tx_all_exec {A} (m : SQL A) : sql_keeps T m → preserves (tx_all T) (exec open_tx m).
Proof.
  intros Hm [tb otx q lk fs nw] r db' H. unfold exec, pop_fault, mbind, M_bind. cbn in *.
  assert (Hr : ∀ m' : SQL A, sql_keeps T m' → ∀ fs', run_tx m' (mkDatabase tb otx q lk fs' nw) = (r, db') → tx_all T db').
  { intros m' Hm' fs'. unfold run_tx. cbn. unfold tx_all in *. cbn in H.
    destruct otx as [[t []]|]; cbn in *; [by intros [= <- <-]| |by intros [= <- <-]].
    destruct (m' (t, q)) as [[a|e|p] [t1 q1]] eqn:E; intros [= <- <-]; cbn; eauto. }
  assert (Ht : ∀ c, sql_keeps T (throw (fault_error c) : SQL A)) by done.
  destruct fs as [|[c|] fs]; cbn; intros E; first [exact (Hr m Hm _ E)|exact (Hr _ (Ht c) _ E)].
Qed.
Lemma tx_all_select_nil {A} (f : tables → A) : preserves (tx_all T) (exec nil_tx (select f)).
Proof.
  intros [tb otx q lk fs nw] r db' H. unfold exec, pop_fault, mbind, M_bind. cbn.
  destruct fs as [|[c|] fs]; cbn; by intros [= _ <-].
Qed.
Lemma tx_all_select {A} tx (f : tables → A) : preserves (tx_all T) (exec tx (select f)).
Proof. destruct tx; [apply tx_all_select_nil|apply tx_all_exec, keeps_select]. Qed.
(** What a change makes true. *)
Lemma tx_all_change f db u db' : (∀ t, T (f t)) → exec open_tx (change f) db = (Ok u, db') → tx_all T db'.
Proof.
  intros Hf E. apply exec_ok in E as (q' & Hm & _ & Hopen & _). destruct (Hopen eq_refl) as (t & t' & Htx & Htx' & _).
  unfold view in Hm. rewrite Htx, Htx' in Hm. injection Hm as _ <- _. unfold tx_all. rewrite Htx'. apply Hf.
Qed.
(** A commit that succeeds publishes the transaction. *)
Lemma commit_publishes db u db' : tx_all T db → Commit open_tx db = (Ok u, db') → db_all T db'.
Proof.
  destruct db as [tb otx q lk fs nw]. unfold tx_all, Commit, pop_fault, commit_tx, mbind, M_bind. cbn.
  destruct fs as [|[c|] fs]; cbn; (destruct otx as [[t []]|]; cbn; try done; intros Ht [= _ <-]; by split).
Qed.
End TxAll.
#[export] Hint Resolve tx_all_select : pres.

(** The property holds of the open transaction as long as it can be committed. *)
Definition tx_live (T : tables → Prop) (db : database) : Prop :=
  match db_tx db with Some tx => tx_aborted tx = false → T (tx_tables tx) | None => True end.
Section TxLive.
Context (T : tables → Prop).

Lemma tx_live_poisoned db : poisoned db → tx_live T db.
Proof. unfold poisoned, tx_live. destruct (db_tx db); [|done]. by intros ->. Qed.
Lemma tx_live_exec {A} (m : SQL A) : sql_keeps T m → preserves (tx_live T) (exec open_tx m).
Proof.
  intros Hm [tb otx q lk fs nw] r db' H. unfold exec, pop_fault, mbind, M_bind. cbn in *.
  assert (Hr : ∀ m' : SQL A, sql_keeps T m' → ∀ fs', run_tx m' (mkDatabase tb otx q lk fs' nw) = (r, db') → tx_live T db').
  { intros m' Hm' fs'. unfold run_tx, tx_live in *. cbn in H |- *.
    destruct otx as [[t []]|]; cbn in *; [by intros [= <- <-]| |by intros [= <- <-]].
    destruct (m' (t, q)) as [[a|e|p] [t1 q1]] eqn:E; intros [= <- <-]; cbn; eauto. }
  assert (Ht : ∀ c, sql_keeps T (throw (fault_error c) : SQL A)) by done.
  destruct fs as [|[c|] fs]; cbn; intros E; first [exact (Hr m Hm _ E)|exact (Hr _ (Ht c) _ E)].
Qed.
Lemma tx_live_select tx {A} (f : tables → A) : preserves (tx_live T) (exec tx (select f)).
Proof.
  destruct tx; [|apply tx_live_exec, keeps_select].
  intros [tb otx q lk fs nw] r db' H. unfold exec, pop_fault, mbind, M_bind. cbn.
  destruct fs as [|[c|] fs]; cbn; by intros [= _ <-].
Qed.
(** A commit that succeeds publishes it. *)
Lemma commit_live_publishes db u db' : tx_live T db → Commit open_tx db = (Ok u, db') → T (db_committed db').
Proof.
  destruct db as [tb otx q lk fs nw]. unfold tx_live, Commit, pop_fault, commit_tx, mbind, M_bind. cbn.
  destruct fs as [|[c|] fs]; cbn; (destruct otx as [[t []]|]; cbn; try done; intros Ht [= _ <-]; by apply Ht).
Qed.
End TxLive.
(** What a query in the open transaction reads: the rows of its tables, unless it
    broke off, after which the transaction cannot be committed. *)
Lemma query_open_ok {A} (m : SQL (list A)) db l db' : query open_tx m db = (Ok l, db') →
  poisoned db' ∨ ∃ t q t' q', db_tx db = Some (mkTransaction t false) ∧ db_tx db' = Some (mkTransaction t' false) ∧
    m (t, q) = (Ok l, (t', q')).
Proof.
  intros (r0 & He & Hr)%query_exec. destruct r0 as [l0|e|p]; [|left; by eapply exec_err_poisons|done].
  right. injection Hr as <-. destruct (exec_ok _ _ _ _ _ He) as (q' & Hm & _ & Hopen & _).
  destruct (Hopen eq_refl) as (t & t' & Htx & Htx' & _). unfold view in Hm. rewrite Htx, Htx' in Hm. cbn in Hm. eauto 10.
Qed.
Lemma begin_ok db tx db' : BeginDBTransaction db = (Ok tx, db') →
  tx = open_tx ∧ db_committed db' = db_committed db ∧ db_tx db' = Some (mkTransaction (db_committed db) false).
Proof.
  unfold BeginDBTransaction, pop_fault, mbind, M_bind.
  destruct db as [tb otx q lk fs nw]; destruct fs as [|[c|] fs]; cbn; by intros [= <- <-].
Qed.
#[export] Hint Resolve db_all_Begin db_all_Rollback db_all_Commit db_all_select : pres.

(** ** Failures keep the committed tables *)

(** A pass in a transaction of its own: begin, work, then commit or roll back. *)
Definition committed_is (t0 : tables) (db : database) : Prop := db_committed db = t0.
Lemma committed_exec t0 A (m : SQL A) : preserves (committed_is t0) (exec open_tx m).
Proof. apply exec_keeps_committed. Qed.
Lemma committed_select t0 A (f : tables → A) : preserves (committed_is t0) (exec nil_tx (select f)).
Proof. apply select_nil_keeps_committed. Qed.
Lemma committed_Rollback t0 tx : preserves (committed_is t0) (Rollback tx).
Proof. destruct tx; [apply pres_throw|apply rollback_keeps_committed]. Qed.
Lemma committed_Begin t0 : preserves (committed_is t0) BeginDBTransaction.
Proof. apply begin_keeps_committed. Qed.
#[export] Hint Resolve committed_exec committed_select committed_Rollback committed_Begin : pres.

Lemma begin_open db tx db' : BeginDBTransaction db = (Ok tx, db') → tx = open_tx.
Proof.
  unfold BeginDBTransaction, pop_fault, mbind, M_bind.
  destruct (db_faults db) as [|[c|] fs]; cbn; by intros [= <- _].
Qed.
