(* ===== verification/TypedRows.v ===== *)
(** * The types of the columns

    Go's integer types and arrays are kept in columns of type BIGINT, INTEGER and
    BYTEA, and scanned back into fixed widths.  What the program stores in the
    columns below keeps its type: no scan of them overflows, and no address or hash
    changes its length. *)
From S2P Require Import Prelude Types MonitoredTx MerkleStore Tables Storage StorageFacts SchemaInv TableInv.

Definition is_address (a : bytes) : Prop := length a = 20%nat.
Definition is_hash (h : bytes) : Prop := length h = 32%nat.
(** What fits a BIGINT column of an unsigned number. *)
Definition is_bigint (z : Z) : Prop := 0 ≤ z < 2 ^ 63.
#[global] Instance is_address_dec a : Decision (is_address a).
Proof. unfold is_address. apply _. Defined.
#[global] Instance is_hash_dec h : Decision (is_hash h).
Proof. unfold is_hash. apply _. Defined.
#[global] Instance is_bigint_dec z : Decision (is_bigint z).
Proof. unfold is_bigint. apply _. Defined.

(** The types of the fields of [etherman.Deposit], [Claim] and [TokenWrapped]
    that are columns; an amount is a uint256 of the contract. *)
Record deposit_typed (d : Deposit) : Prop := {
  dt_LeafType : is_uint8 (dep_LeafType d);
  dt_OriginalNetwork : is_uint32 (dep_OriginalNetwork d);
  dt_OriginalAddress : is_address (dep_OriginalAddress d);
  dt_Amount : 0 ≤ dep_Amount d;
  dt_DestinationNetwork : is_uint32 (dep_DestinationNetwork d);
  dt_DestinationAddress : is_address (dep_DestinationAddress d);
  dt_DepositCount : is_uint32 (dep_DepositCount d);
  dt_NetworkID : is_uint32 (dep_NetworkID d);
  dt_TxHash : is_hash (dep_TxHash d);
  dt_DestContractAddress : is_address (dep_DestContractAddress d);
}.
Record claim_typed (c : Claim) : Prop := {
  ct_RollupIndex : is_uint32 (clm_RollupIndex c);
  ct_Index : is_uint32 (clm_Index c);
  ct_OriginalNetwork : is_uint32 (clm_OriginalNetwork c);
  ct_OriginalAddress : is_address (clm_OriginalAddress c);
  ct_Amount : 0 ≤ clm_Amount c;
  ct_DestinationAddress : is_address (clm_DestinationAddress c);
  ct_NetworkID : is_uint32 (clm_NetworkID c);
  ct_TxHash : is_hash (clm_TxHash c);
}.
Record token_typed (w : TokenWrapped) : Prop := {
  tt_OriginalNetwork : is_uint32 (tw_OriginalNetwork w);
  tt_OriginalTokenAddress : is_address (tw_OriginalTokenAddress w);
  tt_WrappedTokenAddress : is_address (tw_WrappedTokenAddress w);
  tt_NetworkID : is_uint32 (tw_NetworkID w);
}.
Definition block_typed (b : Block) : Prop :=
  0 ≤ blk_BlockNumber b ∧ is_hash (blk_BlockHash b) ∧ is_uint32 (blk_NetworkID b).
(** The row the migrations insert has neither a number nor a network. *)
Definition block_row_typed (b : block_row) : Prop :=
  (∀ n, b_num b = Some n → is_bigint n ∧ is_hash (b_hash b)) ∧ ∀ n, b_net b = Some n → is_uint32 n.
Definition ger_typed (g : GlobalExitRoot) : Prop :=
  is_hash (ger_GlobalExitRoot g) ∧ Forall is_hash (ger_ExitRoots g) ∧ is_uint32 (ger_NetworkID g).
Definition remove_typed (r : remove_row) : Prop := is_hash (rm_ger r) ∧ is_uint32 (rm_net r).
(** [mt.root] and [mt.rht]: a root of a network; a node and its two children. *)
Definition root_typed (r : root_row) : Prop := is_hash r.1.1 ∧ is_uint32 r.2.
Definition node_typed (r : node_row) : Prop := is_hash r.1.1 ∧ Forall is_hash r.1.2.
Definition leaf_typed (l : RollupExitLeaf) : Prop :=
  is_hash (rel_Leaf l) ∧ is_uint32 (rel_RollupId l) ∧ is_hash (rel_Root l).
(** The uint64 fields of a monitored transaction and of a group. *)
Record monitored_typed (m : MonitoredTx) : Prop := {
  mt_DepositID : 0 ≤ mtx_DepositID m;
  mt_From : is_address (mtx_From m);
  mt_To : ∀ a, mtx_To m = Some a → is_address a;
  mt_Nonce : 0 ≤ mtx_Nonce m;
  mt_Gas : 0 ≤ mtx_Gas m;
  mt_GroupID : ∀ n, mtx_GroupID m = Some n → 0 ≤ n;
  mt_History : ∀ h, h ∈ mtx_History m → is_hash h;
  mt_GlobalExitRoot : is_hash (mtx_GlobalExitRoot m);
}.
Record monitored_row_typed (m : MonitoredTx) : Prop := {
  mr_typed : monitored_typed m;
  mr_DepositID : mtx_DepositID m < 2 ^ 63;
  mr_Nonce : mtx_Nonce m < 2 ^ 63;
  mr_Gas : mtx_Gas m < 2 ^ 63;
  mr_GroupID : ∀ n, mtx_GroupID m = Some n → n < 2 ^ 63;
}.
Definition group_arg_typed (g : option MonitoredTxGroupDBEntry) : Prop := ∀ e, g = Some e → 0 ≤ grp_GroupID e.
Definition group_typed (r : group_row) : Prop := is_bigint (grp_GroupID (gr_group r)).
Definition balance_typed (r : balance_row) : Prop := is_address (bal_addr r) ∧ is_uint32 (bal_net r).

Record tables_typed (t : tables) : Prop := {
  ty_block : Forall block_row_typed (t_block t);
  ty_exit_root : Forall (λ r, ger_typed (er_ger r)) (t_exit_root t);
  ty_deposit : Forall (λ r, deposit_typed (dr_dep r)) (t_deposit t);
  ty_claim : Forall claim_typed (t_claim t);
  ty_token : Forall token_typed (t_token_wrapped t);
  ty_root : Forall root_typed (t_root t);
  ty_rht : Forall node_typed (t_rht t);
  ty_leaf : Forall leaf_typed (t_rollup_exit t);
  ty_remove : Forall remove_typed (t_remove t);
  ty_monitored : Forall monitored_row_typed (t_monitored t);
  ty_groups : Forall group_typed (t_groups t);
  ty_balance : Forall balance_typed (t_balance t);
}.

(** The arguments Go's types allow; a byte slice of the trees is a hash. *)
Definition leaf_arg_typed (r : bytes * Z * bytes * Z) : Prop := is_hash r.1.1.1 ∧ is_uint32 r.1.1.2 ∧ is_hash r.1.2.
Definition call_typed {A} (c : storage_call A) : Prop :=
  match c with
  | call_AddBlock b _ => block_typed b
  | call_AddGlobalExitRoot g _ | call_AddTrustedGlobalExitRoot g _ | call_UpdateL2GER g _ | call_AddRemoveL2GER g _ => ger_typed g
  | call_AddDeposit d _ | call_AddDepositXLayer d _ => deposit_typed d
  | call_AddClaim c _ => claim_typed c
  | call_AddTokenWrapped w _ => token_typed w
  | call_SetRoot root _ net _ => is_hash root ∧ is_uint32 net
  | call_BulkSet rows _ => Forall node_typed rows
  | call_AddRollupExitLeaves rows _ => Forall leaf_arg_typed rows
  | call_AddClaimTx m _ | call_UpdateClaimTx m _ => monitored_typed m
  | call_AddMonitoredTxsGroup g _ | call_UpdateMonitoredTxsGroup g _ => group_arg_typed g
  | call_SetBridgeBalance addr net _ _ => is_address addr ∧ is_uint32 net
  | _ => True
  end.

(** ** Every statement keeps the types *)
Section Keeps.

Lemma Forall_snoc {A} (P : A → Prop) l x : Forall P l → P x → Forall P (l ++ [x]).
Proof. intros Hl Hx. apply Forall_app. by rewrite Forall_singleton. Qed.
Lemma Forall_map_keep {A} (P : A → Prop) (f : A → A) l : (∀ x, P x → P (f x)) → Forall P l → Forall P (f <$> l).
Proof. intros Hf Hl. apply Forall_fmap. eapply Forall_impl; [exact Hl|exact Hf]. Qed.

Lemma typed_exit_root v t : tables_typed t → Forall (λ r, ger_typed (er_ger r)) v → tables_typed (set_exit_root v t).
Proof. by intros []. Qed.
Lemma typed_root v t : tables_typed t → Forall root_typed v → tables_typed (set_root v t).
Proof. by intros []. Qed.
Lemma typed_rht v t : tables_typed t → Forall node_typed v → tables_typed (set_rht v t).
Proof. by intros []. Qed.
Lemma typed_remove v t : tables_typed t → Forall remove_typed v → tables_typed (set_remove v t).
Proof. by intros []. Qed.
Lemma typed_groups v t : tables_typed t → Forall group_typed v → tables_typed (set_groups v t).
Proof. by intros []. Qed.
Lemma typed_balance v t : tables_typed t → Forall balance_typed v → tables_typed (set_balance v t).
Proof. by intros []. Qed.
Lemma typed_deposit v t : tables_typed t → Forall (λ r, deposit_typed (dr_dep r)) v → tables_typed (set_deposit v t).
Proof. by intros []. Qed.
Lemma typed_claim v t : tables_typed t → Forall claim_typed v → tables_typed (set_claim v t).
Proof. by intros []. Qed.
Lemma typed_token v t : tables_typed t → Forall token_typed v → tables_typed (set_token_wrapped v t).
Proof. by intros []. Qed.
Lemma typed_leaf v t : tables_typed t → Forall leaf_typed v → tables_typed (set_rollup_exit v t).
Proof. by intros []. Qed.
Lemma typed_monitored v t : tables_typed t → Forall monitored_row_typed v → tables_typed (set_monitored v t).
Proof. by intros []. Qed.
Lemma typed_block v t : tables_typed t → Forall block_row_typed v → tables_typed (set_block v t).
Proof. by intros []. Qed.

Lemma typed_set_ready b d : deposit_typed d → deposit_typed (set_dep_ready b d).
Proof. by intros []. Qed.
Lemma typed_map_deposit (f : deposit_row → deposit_row) t :
  (∀ r, deposit_typed (dr_dep r) → deposit_typed (dr_dep (f r))) → tables_typed t → tables_typed (set_deposit (f <$> t_deposit t) t).
Proof. intros Hf Ht. apply typed_deposit; [done|]. apply Forall_map_keep; [exact Hf|apply Ht]. Qed.
Lemma typed_mark_ready P time t : tables_typed t → tables_typed (mark_ready P time t).
Proof. apply typed_map_deposit. intros r Hr. destruct (P (dr_dep r)); [by apply typed_set_ready|done]. Qed.
Lemma typed_unready lo hi dest t : tables_typed t → tables_typed (sql_unready lo hi dest t).
Proof. apply typed_map_deposit. intros r Hr. case_bool_decide; [by apply typed_set_ready|done]. Qed.
Lemma typed_reset n net t : tables_typed t → tables_typed (sql_reset n net t).
Proof. intros []. split; cbn; by try apply Forall_filter_1. Qed.
Lemma typed_update_token net addr tm t : tables_typed t → tables_typed (sql_update_token net addr tm t).
Proof.
  intros Ht. apply typed_token; [done|]. apply Forall_map_keep; [|apply Ht]. intros w []. by case_bool_decide.
Qed.

Lemma keeps_ret {A} (a : A) : sql_keeps tables_typed (mret a).
Proof. by intros t q a' t' q' H [= _ <- _]. Qed.
Lemma keeps_throw {A} e : sql_keeps tables_typed (throw e : SQL A).
Proof. by intros t q a' t' q' H [=]. Qed.
Lemma keeps_lift {A} (r : res A) : sql_keeps tables_typed (lift_res r).
Proof. by intros t q a' t' q' H [= _ <- _]. Qed.

Lemma keeps_add_block num hash net received : is_bigint num → is_hash hash → is_uint32 net →
  sql_keeps tables_typed (sql_add_block num hash net received).
Proof.
  intros Hn Hh Hnet t q a t' q' Ht. unfold sql_add_block. destruct (list_find _ _) as [[i b]|]; intros [= _ <- _]; [done|].
  apply typed_block; [done|]. apply Forall_snoc; [apply Ht|]. by split; intros n [= <-].
Qed.
Lemma keeps_add_exit_root blockID ger roots net : is_hash ger → Forall is_hash roots → is_uint32 net →
  sql_keeps tables_typed (sql_add_exit_root blockID ger roots net).
Proof.
  intros Hg Hr Hn t q a t' q' Ht. unfold sql_add_exit_root. destruct (existsb _ _); [done|]. destruct (block_exists _ _); [|done].
  intros [= _ <- _]. apply typed_exit_root; [done|]. by apply Forall_snoc; [apply Ht|].
Qed.
Lemma keeps_add_deposit d : deposit_typed d → sql_keeps tables_typed (sql_add_deposit d).
Proof.
  intros Hd t q a t' q' Ht. unfold sql_add_deposit. destruct (existsb _ _); [done|]. destruct (block_exists _ _); [|done].
  intros [= _ <- _]. apply typed_deposit; [done|]. apply Forall_snoc; [apply Ht|]. by destruct Hd.
Qed.
Lemma keeps_add_claim c : claim_typed c → sql_keeps tables_typed (sql_add_claim c).
Proof.
  intros Hc t q a t' q' Ht. unfold sql_add_claim. destruct (existsb _ _); [done|]. destruct (block_exists _ _); [|done].
  intros [= _ <- _]. apply typed_claim; [done|]. apply Forall_snoc; [apply Ht|]. by destruct Hc.
Qed.
Lemma keeps_add_token w : token_typed w → sql_keeps tables_typed (sql_add_token w).
Proof.
  intros Hw t q a t' q' Ht. unfold sql_add_token. destruct (existsb _ _); [done|]. destruct (block_exists _ _); [|done].
  intros [= _ <- _]. apply typed_token; [done|]. apply Forall_snoc; [apply Ht|done].
Qed.
Lemma keeps_add_leaves rows : Forall leaf_arg_typed rows →
  sql_keeps tables_typed (sql_add_rollup_leaves rows).
Proof.
  intros Hr t q a t' q' Ht. unfold sql_add_rollup_leaves. destruct (forallb _ _); [|done]. intros [= _ <- _].
  apply typed_leaf; [done|]. apply Forall_app. split; [apply Ht|]. generalize (sq_rollup_exit q + 1). clear -Hr.
  induction Hr as [|[[[leaf id] root] b] rows Hx _ IH]; intros n; cbn; constructor; [done|apply IH].
Qed.
Lemma keeps_add_remove blockID ger net : is_hash ger → is_uint32 net → sql_keeps tables_typed (sql_add_remove blockID ger net).
Proof.
  intros Hg Hn t q a t' q' Ht. unfold sql_add_remove. destruct (block_exists _ _); [|done]. intros [= _ <- _].
  apply typed_remove; [done|]. by apply Forall_snoc; [apply Ht|].
Qed.
Lemma keeps_update_status counts P time : sql_keeps tables_typed (sql_update_status counts P time).
Proof.
  unfold sql_update_status. apply keeps_seq; [apply keeps_select|]. intros t. apply keeps_seq; [apply keeps_lift|].
  intros sel. apply keeps_seq; [apply keeps_change, typed_mark_ready|]. intros _. apply keeps_ret.
Qed.
Lemma keeps_update_l2 root rid net time : sql_keeps tables_typed (sql_update_l2_status root rid net time).
Proof.
  unfold sql_update_l2_status. apply keeps_seq; [apply keeps_select|]. intros t.
  destruct (rollup_leaves root rid t) as [|l [|l' ls]]; [apply keeps_update_status..|apply keeps_throw].
Qed.
Lemma keeps_disallow ger net : sql_keeps tables_typed (sql_disallow ger net).
Proof.
  unfold sql_disallow. apply keeps_seq; [apply keeps_select|]. intros t.
  apply keeps_seq; [apply keeps_change; intros t' Ht'|intros _; apply keeps_ret].
  apply typed_exit_root; [done|]. apply Forall_map_keep; [|apply Ht']. intros r Hr. by case_bool_decide.
Qed.
Lemma keeps_set_root root id net : is_hash root → is_uint32 net → sql_keeps tables_typed (sql_set_root root id net).
Proof.
  intros Hr Hn. unfold sql_set_root. apply keeps_seq; [apply keeps_select|]. intros t.
  do 2 (apply keeps_seq; [apply keeps_require|]; intros _). apply keeps_change. intros t' Ht'.
  apply typed_root; [done|]. by apply Forall_snoc; [apply Ht'|].
Qed.
Lemma keeps_bulk_set rows : Forall node_typed rows → sql_keeps tables_typed (sql_bulk_set rows).
Proof.
  intros Hr. unfold sql_bulk_set. apply keeps_seq; [apply keeps_select|]. intros t.
  do 2 (apply keeps_seq; [apply keeps_require|]; intros _). apply keeps_change. intros t' Ht'.
  apply typed_rht; [done|]. apply Forall_app. split; [apply Ht'|done].
Qed.
End Keeps.

Create HintDb typed.
#[export] Hint Resolve keeps_ret keeps_throw keeps_lift keeps_add_block keeps_add_exit_root keeps_add_deposit keeps_add_claim
  keeps_add_token keeps_add_leaves keeps_add_remove keeps_update_status keeps_update_l2 keeps_disallow keeps_set_root
  keeps_bulk_set keeps_select keeps_require : typed.

(** ** Every call keeps the types *)
Section Calls.
Context {Abi : TokenAbi} {J : Json}.
Abbreviation keeps := (preserves (db_all tables_typed)).

Lemma keeps_exec {A} tx (m : SQL A) : sql_keeps tables_typed m → keeps (exec tx m).
Proof. apply db_all_exec. Qed.
Lemma keeps_query_row {A} tx (f : tables → option A) : keeps (query_row tx f).
Proof. unfold query_row. apply pres_bind; [apply keeps_exec, keeps_select|]. intros o. apply pres_scan. Qed.
(** A number that is sent fits the column. *)
Lemma keeps_int8 {A} z (m : M database A) : (z < 2 ^ 63 → keeps m) → keeps (int8_param z;; m).
Proof.
  intros Hm db r db' H. unfold int8_param. case_bool_decide as Hz.
  - exact (Hm Hz db r db' H).
  - by intros [= _ <-].
Qed.
Lemma keeps_exec_change tx f : (∀ t, tables_typed t → tables_typed (f t)) → keeps (exec tx (change f)).
Proof. intros Hf. by apply keeps_exec, keeps_change. Qed.
(** What is put in a statement was computed from what was given. *)
Lemma keeps_bind_res {A B} (r : res A) (k : A → M database B) :
  (∀ a, r = Ok a → keeps (k a)) → keeps (lift_res r ≫= k).
Proof.
  intros Hk db r' db' H. destruct r as [a|e|p]; cbn.
  - exact (Hk a eq_refl db r' db' H).
  - by intros [= _ <-].
  - by intros [= _ <-].
Qed.
Lemma two_roots_hashes l roots : Forall is_hash l → two_roots l = Ok roots → Forall is_hash roots.
Proof.
  intros Hl. destruct l as [|a [|b l]]; cbn; try done. intros [= <-].
  inversion Hl as [|? ? Ha Hl']. inversion Hl' as [|? ? Hb _]. by repeat constructor.
Qed.
#[local] Hint Resolve keeps_exec keeps_query_row : pres.
#[local] Hint Extern 5 (sql_keeps _ _) => solve [eauto with typed] : pres.

Ltac keeps_step :=
  match goal with
  | |- preserves _ (int8_param _ ≫= _) => apply keeps_int8; intros ?
  | |- preserves _ (lift_res _ ≫= _) => apply keeps_bind_res; intros ? ?
  | |- preserves _ (query _ _) => apply pres_query
  | |- preserves _ (exec _ (change _)) => apply keeps_exec_change; intros ? ?
  | |- preserves _ (exec _ (_ ≫= _)) => apply keeps_exec
  | |- preserves _ (_ ≫= _) => apply pres_bind; [|intros ?]
  | |- sql_keeps _ (_ ≫= _) => apply keeps_seq; [|intros ?]
  | |- sql_keeps _ (change _) => apply keeps_change; intros ? ?
  | |- preserves _ (match ?x with _ => _ end) => destruct x
  | |- preserves _ (not_found _) => apply pres_map_err
  | |- preserves _ (map_err _ _) => apply pres_map_err
  | |- preserves _ (attempt _) => apply pres_attempt
  | |- _ => solve [eauto using typed_mark_ready, typed_reset, typed_unready, typed_update_token with pres typed]
  end.

Lemma typed_drop_contract a d : is_address a → deposit_typed d → deposit_typed (set_dep_DestContract a d).
Proof. by intros Ha []. Qed.

(** A monitored transaction that is sent fits its columns. *)
Lemma keeps_params {A} m (k : M database A) :
  monitored_typed m → (monitored_row_typed m → keeps k) → keeps (mtx_params m;; k).
Proof.
  intros Hm Hk db r db' H. unfold mtx_params, int8_param, mbind, M_bind.
  case_bool_decide; [|by intros [= _ <-]]. cbn. case_bool_decide; [|by intros [= _ <-]]. cbn.
  case_bool_decide; [|by intros [= _ <-]]. cbn. case_bool_decide as Hg; [|by intros [= _ <-]]. apply Hk; [|done].
  split; try done. intros n E. by rewrite E in Hg.
Qed.
Lemma monitored_row_keeps m created updated : monitored_row_typed m → monitored_row_typed (monitored_row m created updated).
Proof. intros [[] ? ? ?]. by do 2 (split; try done). Qed.

(** The calls whose argument becomes a row, or is spread over several statements. *)
Lemma keeps_AddGlobalExitRoot g tx : ger_typed g → keeps (AddGlobalExitRoot g tx).
Proof.
  intros (Hg & Hr & Hn). unfold AddGlobalExitRoot. repeat keeps_step. apply keeps_exec, keeps_add_exit_root; [done| |done].
  destruct (ger_ExitRoots g) as [|r0 l]; [|by eapply two_roots_hashes].
  match goal with H : _ = Ok _ |- _ => by injection H as <- end.
Qed.
Lemma keeps_AddTrusted g tx : ger_typed g → keeps (AddTrustedGlobalExitRoot g tx).
Proof.
  intros (Hg & Hr & Hn). unfold AddTrustedGlobalExitRoot. repeat keeps_step. apply keeps_exec. intros t q r t' q' Ht.
  pose proof (keeps_add_exit_root 0 (ger_GlobalExitRoot g) a (ger_NetworkID g) Hg
    ltac:(by eapply two_roots_hashes) Hn t q) as Hk. unfold sql_add_exit_root in *.
  destruct (existsb _ _); [by intros [= _ <- _]|]. destruct (block_exists _ _); [|done]. intros [= _ <- _]. by eapply Hk.
Qed.
Lemma keeps_UpdateL2GER g tx : ger_typed g → keeps (UpdateL2GER g tx).
Proof.
  intros (Hg & Hr & Hn). unfold UpdateL2GER. repeat keeps_step. apply typed_exit_root; [done|].
  apply Forall_map_keep; [|by apply ty_exit_root]. intros r (? & ? & ?). case_bool_decide; [|done].
  split; [done|]. split; [by apply (two_roots_hashes _ _ Hr)|done].
Qed.
Lemma keeps_AddRemoveL2GER g tx : ger_typed g → keeps (AddRemoveL2GER g tx).
Proof.
  intros (Hg & Hr & Hn). unfold AddRemoveL2GER, deposit_of_ger, GetDepositCountByGER. repeat keeps_step.
Qed.
Lemma keeps_AddClaimTx m tx : monitored_typed m → keeps (AddClaimTx m tx).
Proof.
  intros Hm. unfold AddClaimTx. apply keeps_params; [done|]. intros Hrow. repeat keeps_step.
  apply typed_monitored; [done|]. apply Forall_snoc; [by apply ty_monitored|by apply monitored_row_keeps].
Qed.
Lemma keeps_UpdateClaimTx m tx : monitored_typed m → keeps (UpdateClaimTx m tx).
Proof.
  intros Hm. unfold UpdateClaimTx. apply keeps_params; [done|]. intros [_ ? ? ? ?]. repeat keeps_step.
  apply typed_monitored; [done|]. apply Forall_map_keep; [|by apply ty_monitored]. intros r Hr. case_bool_decide; [|done].
  destruct Hm, Hr as [[] ? ? ? ?]. by do 2 (split; try done).
Qed.
Lemma keeps_AddGroup g tx : group_arg_typed g → keeps (AddMonitoredTxsGroup g tx).
Proof.
  intros Hg. unfold AddMonitoredTxsGroup, history_json. destruct g as [e|]; [|apply pres_throw]. specialize (Hg e eq_refl).
  repeat keeps_step. apply typed_groups; [done|]. by apply Forall_snoc; [by apply ty_groups|].
Qed.
Lemma keeps_UpdateGroup g tx : group_arg_typed g → keeps (UpdateMonitoredTxsGroup g tx).
Proof.
  intros Hg. unfold UpdateMonitoredTxsGroup, history_json. destruct g as [e|]; [|apply pres_throw]. specialize (Hg e eq_refl).
  repeat keeps_step. apply typed_groups; [done|]. apply Forall_map_keep; [|by apply ty_groups].
  intros r Hr. by case_bool_decide.
Qed.
Lemma keeps_SetBridgeBalance addr net v tx : is_address addr → is_uint32 net → keeps (SetBridgeBalance addr net v tx).
Proof.
  intros Ha Hn. unfold SetBridgeBalance. apply keeps_exec_change. intros t Ht. apply typed_balance; [done|].
  destruct (existsb _ _); [|by apply Forall_snoc; [apply Ht|]].
  apply Forall_map_keep; [|apply Ht]. intros r [? ?]. by destruct (is_balance addr net r).
Qed.
#[local] Hint Resolve keeps_AddGlobalExitRoot keeps_AddTrusted keeps_UpdateL2GER keeps_AddRemoveL2GER keeps_AddClaimTx
  keeps_UpdateClaimTx keeps_AddGroup keeps_UpdateGroup : pres.

Lemma call_keeps_types {A} (c : storage_call A) : call_typed c → keeps (run_call c).
Proof.
  destruct c; intros Hc; cbn [run_call call_typed] in *;
    [apply db_all_Rollback|apply db_all_Commit|apply db_all_Begin|..];
    unfold Storage.AddDeposit, AddDepositXLayer, AddClaim,
      AddTokenWrapped, GetTokenWrapped, GetTokenMetadata, Reset, SetRoot, BulkSet,
      AddRollupExitLeaves, UpdateL1DepositsStatus, UpdateL2DepositsStatus,
      UpdateL1DepositsStatusXLayer, UpdateL2DepositsStatusXLayer, UpdateL1DepositStatus;
    try solve [eauto with pres]; repeat keeps_step.
  - destruct Hc as (Hn & Hh & Hnet). unfold AddBlock. apply keeps_int8. intros Hb. by apply keeps_exec, keeps_add_block.
  - by apply keeps_exec, keeps_add_deposit, typed_drop_contract.
  - destruct Hc. by apply keeps_exec, keeps_add_token.
  - destruct Hc. by apply keeps_exec, keeps_set_root.
  - destruct Hc. by apply keeps_SetBridgeBalance.
Qed.

(** The databases that calls with arguments of Go's types bring about. *)
Inductive reachable_typed : database → Prop :=
| typed_init faults time :
    reachable_typed (mkDatabase initial_tables None initial_sequences 0 faults time)
| typed_call {A} (c : storage_call A) db r db' :
    reachable_typed db → call_typed c → run_call c db = (r, db') → reachable_typed db'
| typed_time db time : reachable_typed db →
    reachable_typed (mkDatabase (db_committed db) (db_tx db) (db_seqs db) (db_leaked db) (db_faults db) time).

(** C36. Go's types survive the untyped columns: whatever calls are made with
    arguments of their types, in and out of transactions and whatever fails, every
    block number, nonce, gas limit, monitored deposit and group number fits a
    BIGINT; every network, rollup, claim index, deposit count and leaf type fits
    its Go type; every hash of a block, transaction, exit root, tree root, tree
    node, leaf and claim history has 32 bytes, and every address of a deposit,
    claim, token, monitored transaction and balance has 20.  (The ids the
    sequences give and the references to them are [reachable_schema]'s; token
    metadata, upper bounds of amounts, times and the deposit ids listed by a
    group are not covered.) *)
Theorem stored_rows_typed db (Hreach : reachable_typed db) :
  tables_typed (db_committed db) ∧ ∀ tx, db_tx db = Some tx → tables_typed (tx_tables tx).
Proof.
  assert (db_all tables_typed db) as [Hc Htx].
  { induction Hreach as [faults time|A c db r db' _ IH Hc E|db time _ IH].
    - split; [|done]. split; cbn; try constructor; [|constructor]. by split; intros n.
    - by eapply (call_keeps_types c).
    - exact IH. }
  split; [done|]. intros tx E. by rewrite E in Htx.
Qed.
End Calls.
