(* ===== verification/EthermanFacts.v ===== *)
(** * The blocks read from a chain carry its events, in their order

    What a log means is decoded by a pure function; the blocks and the orders
    that [readEvents] builds give back the decoded events of every block exactly
    once, in the order of the logs.  The orders never point outside of their
    block: processing the block is processing the events of its logs one after
    the other. *)
From S2P Require Import Prelude Types GlobalIndex Hashing MerkleStore MerkleTree Tables Storage StorageFacts.
From S2P Require Import EthClient Etherman BridgeCtrl MessageBridge Synchronizer SyncAtomic TableInv.
(** ** What a log means *)
Inductive Event : Type :=
| EvGlobalExitRoot (g : GlobalExitRoot) | EvRemoveL2GER (g : GlobalExitRoot) | EvDeposit (d : Deposit)
| EvClaim (c : Claim) | EvToken (t : TokenWrapped) | EvVerified (v : VerifiedBatch).

Definition set_ger_Time (t : Z) (g : GlobalExitRoot) : GlobalExitRoot :=
  mkGlobalExitRoot (ger_BlockID g) (ger_BlockNumber g) (ger_ExitRoots g) (ger_GlobalExitRoot g) (ger_NetworkID g)
    (ger_ID g) t.
(** An event without its time. *)
Definition timeless (e : Event) : Event :=
  match e with
  | EvGlobalExitRoot g => EvGlobalExitRoot (set_ger_Time zero_time g)
  | EvDeposit d => EvDeposit (set_dep_Time zero_time d)
  | EvClaim c => EvClaim (set_clm_Time zero_time c)
  | e => e
  end.

(** The event an order of a block points to, and the number of events of a kind. *)
Definition event_at (b : Block) (o : Order) : res Event :=
  match ord_Name o with
  | GlobalExitRootsOrder => EvGlobalExitRoot <$> at_index (blk_GlobalExitRoots b) (ord_Pos o)
  | RemoveL2GEROrder => EvRemoveL2GER <$> at_index (blk_RemoveL2GER b) (ord_Pos o)
  | DepositsOrder => EvDeposit <$> at_index (blk_Deposits b) (ord_Pos o)
  | ClaimsOrder => EvClaim <$> at_index (blk_Claims b) (ord_Pos o)
  | TokensOrder => EvToken <$> at_index (blk_Tokens b) (ord_Pos o)
  | VerifyBatchOrder => EvVerified <$> at_index (blk_VerifiedBatches b) (ord_Pos o)
  end.
Definition events_of_kind (k : EventOrder) (b : Block) : nat :=
  match k with
  | GlobalExitRootsOrder => length (blk_GlobalExitRoots b)
  | RemoveL2GEROrder => length (blk_RemoveL2GER b)
  | DepositsOrder => length (blk_Deposits b)
  | ClaimsOrder => length (blk_Claims b)
  | TokensOrder => length (blk_Tokens b)
  | VerifyBatchOrder => length (blk_VerifiedBatches b)
  end.

Section Decode.
Context {K : Keccak} {Bind : Bindings} (etherMan : Client).

Definition present {A} (b : bool) (r : res A) : res A := if b then r else Panic "nil".
Definition ger_event (num : Z) (m r : bytes) : Event :=
  EvGlobalExitRoot (mkGlobalExitRoot 0 num [m; r] (hash [m; r]) 0 0 zero_time).
Definition l2_ger (num : Z) (g : bytes) : GlobalExitRoot := mkGlobalExitRoot 0 num [] g 0 0 zero_time.
Definition claim_event (vLog : Log) (mainnet : bool) (rollup index origin : Z) (addr dest : bytes) (amount : Z) : Event :=
  EvClaim (mkClaim mainnet rollup index origin addr amount dest 0 (lg_BlockNumber vLog) 0 (lg_TxHash vLog) zero_time).
Definition verified_event (vLog : Log) (v : VerifyBatches) : Event :=
  EvVerified (mkVerifiedBatch (lg_BlockNumber vLog) (ve_NumBatch v) (ve_RollupID v) (ve_ExitRoot v)
    (lg_TxHash vLog) (ve_StateRoot v) (ve_Aggregator v)).

Definition decode_as (h : handler) (vLog : Log) : res (option Event) :=
  let num := lg_BlockNumber vLog in
  match h with
  | updateGlobalExitRootEvent =>
      m ← at_index (lg_Topics vLog) 1; r ← at_index (lg_Topics vLog) 2; mret (Some (ger_event num m r))
  | updateL1InfoTreeEvent =>
      '(m, r) ← present (ec_L1 etherMan) (ParseUpdateL1InfoTree vLog); mret (Some (ger_event num m r))
  | depositEvent => d ← ParseBridgeEvent vLog; mret (Some (EvDeposit (depositEvent_deposit vLog d)))
  | newClaimEvent =>
      c ← ParseClaimEvent vLog;
      '(mainnet, rollup, index) ← DecodeGlobalIndex (ce_GlobalIndex c);
      mret (Some (claim_event vLog mainnet rollup index (ce_OriginNetwork c) (ce_OriginAddress c)
                    (ce_DestinationAddress c) (ce_Amount c)))
  | oldClaimEvent =>
      c ← ParseOldClaimEvent vLog;
      mret (Some (claim_event vLog false 0 (oce_Index c) (oce_OriginNetwork c) (oce_OriginAddress c)
                    (oce_DestinationAddress c) (oce_Amount c)))
  | tokenWrappedEvent =>
      t ← ParseNewWrappedToken vLog;
      mret (Some (EvToken (mkTokenWrapped (mkTokenMetadata "" "" 0) (nw_OriginNetwork t) (nw_OriginTokenAddress t)
                             (nw_WrappedTokenAddress t) 0 num 0)))
  | verifyBatchesTrustedAggregatorEvent =>
      v ← present (ec_L1 etherMan) (ParseVerifyBatchesTrustedAggregator vLog); mret (Some (verified_event vLog v))
  | verifyBatchesEvent =>
      v ← present (ec_L1 etherMan) (ParseVerifyBatches vLog); mret (Some (verified_event vLog v))
  | insertSovereignChainL2GER =>
      g ← present (ec_sovereign etherMan) (ParseInsertGlobalExitRoot vLog); mret (Some (EvGlobalExitRoot (l2_ger num g)))
  | removeLastL2GER =>
      g ← present (ec_sovereign etherMan) (ParseRemoveLastGlobalExitRoot vLog); mret (Some (EvRemoveL2GER (l2_ger num g)))
  | updateHashSovereignChainValue =>
      g ← present (ec_sovereign etherMan) (ParseUpdateHashChainValue vLog); mret (Some (EvGlobalExitRoot (l2_ger num g)))
  | updateRemovalHashSovereignChainValue =>
      g ← present (ec_sovereign etherMan) (ParseUpdateRemovalHashChainValue vLog); mret (Some (EvRemoveL2GER (l2_ger num g)))
  | ignored => mret None
  end.
Definition decode (vLog : Log) : res (option Event) :=
  topic ← at_index (lg_Topics vLog) 0; decode_as (event_handler topic) vLog.

(** The events of a block of the chain. *)
Definition decoded (logs : list Log) (h : bytes) : list Event :=
  omap (λ l, if bool_decide (lg_BlockHash l = h) then match decode l with Ok o => o | _ => None end else None) logs.
End Decode.

(** ** Adding an event to a block *)
Record adds (ev : Event) (name : EventOrder) (f : Block → Block) : Prop := {
  add_hash b : blk_BlockHash (f b) = blk_BlockHash b;
  add_number b : blk_BlockNumber (f b) = blk_BlockNumber b;
  add_at b : ∃ x, event_at (f b) (mkOrder name (Z.of_nat (events_of_kind name b))) = Ok x ∧ timeless x = ev;
  add_keep b o x : event_at b o = Ok x → event_at (f b) o = Ok x;
  add_count b k : events_of_kind k (f b) = (events_of_kind k b + if bool_decide (k = name) then 1 else 0)%nat;
}.

Lemma at_index_snoc {A} (l : list A) x : at_index (l ++ [x]) (Z.of_nat (length l)) = Ok x.
Proof. by rewrite at_index_nat, lookup_app_r, Nat.sub_diag by done. Qed.
Lemma at_index_keep {A} (l : list A) y i x : at_index l i = Ok x → at_index (l ++ [y]) i = Ok x.
Proof.
  unfold at_index. case_bool_decide; [|done]. destruct (l !! Z.to_nat i) eqn:E; [|done].
  intros [= ->]. by rewrite (lookup_app_l_Some _ _ _ _ E).
Qed.
Lemma fmap_at_index_keep {A B} (f : A → B) (l : list A) y i x :
  f <$> at_index l i = Ok x → f <$> at_index (l ++ [y]) i = Ok x.
Proof.
  destruct (at_index l i) eqn:E; cbn; [|done..]. by rewrite (at_index_keep _ y _ _ E).
Qed.

Ltac solve_adds := split; [done|done|intros b; eexists; cbn; rewrite at_index_snoc; by split
  |intros b [[] p] x; cbn; auto using fmap_at_index_keep
  |intros b []; cbn; rewrite ?length_app; cbn; repeat case_bool_decide; first [lia|congruence]].

Lemma adds_ger g t : adds (EvGlobalExitRoot (set_ger_Time zero_time g)) GlobalExitRootsOrder
  (push_GlobalExitRoot (set_ger_Time t g)).
Proof. solve_adds. Qed.
Lemma adds_remove g : adds (EvRemoveL2GER g) RemoveL2GEROrder (push_RemoveL2GER g).
Proof. solve_adds. Qed.
Lemma adds_deposit d t : adds (EvDeposit (set_dep_Time zero_time d)) DepositsOrder
  (λ b, push_Deposit (set_dep_Time (t b) d) b).
Proof. solve_adds. Qed.
Lemma adds_claim c t : adds (EvClaim (set_clm_Time zero_time c)) ClaimsOrder
  (λ b, push_Claim (set_clm_Time (t b) c) b).
Proof. solve_adds. Qed.
Lemma adds_token t : adds (EvToken t) TokensOrder (push_Token t).
Proof. solve_adds. Qed.
Lemma adds_verified v : adds (EvVerified v) VerifyBatchOrder (push_VerifiedBatch v).
Proof. solve_adds. Qed.

(** ** Results of a list of computations *)
Lemma mapM_snoc {A B} (f : A → res B) l x ys y :
  mapM f l = Ok ys → f x = Ok y → mapM f (l ++ [x]) = Ok (ys ++ [y]).
Proof.
  revert ys. induction l as [|a l IH]; intros ys; cbn; [intros [= <-] ->; done|].
  destruct (f a) as [b| |]; cbn; [|done..]. destruct (mapM f l) as [bs| |]; cbn; [|done..].
  intros [= <-] Hx. by rewrite (IH bs eq_refl Hx).
Qed.
Lemma mapM_keep {A B} (f g : A → res B) l ys :
  (∀ x y, f x = Ok y → g x = Ok y) → mapM f l = Ok ys → mapM g l = Ok ys.
Proof.
  intros H. revert ys. induction l as [|a l IH]; intros ys; cbn; [done|].
  destruct (f a) as [b| |] eqn:E; cbn; [|done..]. rewrite (H _ _ E). cbn.
  destruct (mapM f l) as [bs| |]; cbn; [|done..]. by rewrite (IH bs eq_refl).
Qed.

(** ** The logs of a chain

    As [eth_getLogs] gives them: in the order of the blocks, and one block for
    a number. *)
Record chain_logs (logs : list Log) : Prop := {
  cl_sorted : StronglySorted (λ a b, lg_BlockNumber a ≤ lg_BlockNumber b) logs;
  cl_block a b : a ∈ logs → b ∈ logs → lg_BlockNumber a = lg_BlockNumber b ↔ lg_BlockHash a = lg_BlockHash b;
}.
Lemma chain_logs_prefix l1 l2 : chain_logs (l1 ++ l2) → chain_logs l1.
Proof.
  intros [Hs Hb]. split.
  - by apply StronglySorted_app_1_l in Hs.
  - intros a b Ha Hb'. apply Hb; apply elem_of_app; by left.
Qed.
Lemma chain_logs_le pre l a : chain_logs (pre ++ [l]) → a ∈ pre → lg_BlockNumber a ≤ lg_BlockNumber l.
Proof. intros [Hs _] Ha. eapply (StronglySorted_app_1_elem_of _ pre [l]) in Hs; [exact Hs|done|by apply list_elem_of_singleton]. Qed.

Section Scan.
Context {K : Keccak} {Bind : Bindings} (etherMan : Client).
Abbreviation decode := (decode etherMan).
Abbreviation decoded := (decoded etherMan).

Lemma decoded_snoc pre l h : decoded (pre ++ [l]) h = decoded pre h ++
  (if bool_decide (lg_BlockHash l = h) then match decode l with Ok (Some e) => [e] | _ => [] end else []).
Proof.
  unfold decoded. rewrite omap_app. f_equal. cbn. case_bool_decide; [|done].
  by destruct (decode l) as [[e|]| |].
Qed.
Lemma decoded_nil pre h :
  (∀ l e, l ∈ pre → decode l = Ok (Some e) → lg_BlockHash l ≠ h) → decoded pre h = [].
Proof.
  induction pre as [|l pre IH] using rev_ind; intros H; [done|]. rewrite decoded_snoc, IH.
  - case_bool_decide as Hh; [|done]. destruct (decode l) as [[e|]| |] eqn:E; try done.
    destruct (H l e); [apply elem_of_app; right; by apply list_elem_of_singleton|done|done].
  - intros l' e Hl. apply H, elem_of_app. by left.
Qed.

(** The orders of a block give its decoded events, and of each kind the
    positions in their order. *)
Definition block_events (pre : list Log) (b : Block) (ords : list Order) : Prop :=
  (∃ es, mapM (event_at b) ords = Ok es ∧ timeless <$> es = decoded pre (blk_BlockHash b)) ∧
  ∀ k, ord_Pos <$> filter (λ o, ord_Name o = k) ords = Z.of_nat <$> seq 0 (events_of_kind k b).

Record scanned (pre : list Log) (bs : list Block) (ord : gmap bytes (list Order)) : Prop := {
  sn_sorted : StronglySorted Z.lt (blk_BlockNumber <$> bs);
  sn_from b : b ∈ bs → ∃ l, l ∈ pre ∧ lg_BlockHash l = blk_BlockHash b ∧ lg_BlockNumber l = blk_BlockNumber b;
  sn_order h : h ∉ blk_BlockHash <$> bs → ord !! h = None;
  sn_events b : b ∈ bs → block_events pre b (default [] (ord !! blk_BlockHash b));
  sn_all l e : l ∈ pre → decode l = Ok (Some e) → lg_BlockHash l ∈ blk_BlockHash <$> bs;
}.

Lemma block_events_add pre l b ords ev name f :
  adds ev name f → decode l = Ok (Some ev) → lg_BlockHash l = blk_BlockHash b → block_events pre b ords →
  block_events (pre ++ [l]) (f b) (ords ++ [mkOrder name (Z.of_nat (events_of_kind name b))]).
Proof.
  intros Hf Hd Hh [(es & Hes & Ht) Hpos]. split.
  - destruct (add_at _ _ _ Hf b) as (x & Hx & Hev). exists (es ++ [x]). split.
    + apply mapM_snoc; [|exact Hx]. eapply mapM_keep; [|exact Hes]. intros o y. by apply (add_keep _ _ _ Hf).
    + rewrite fmap_app, Ht, (add_hash _ _ _ Hf), decoded_snoc, bool_decide_true, Hd by done. cbn. by rewrite Hev.
  - intros k. rewrite filter_app, fmap_app, Hpos, (add_count _ _ _ Hf). case_bool_decide as Hk.
    + subst k. rewrite filter_cons_True by done. by rewrite seq_app, fmap_app.
    + rewrite filter_cons_False by (cbn; congruence). by rewrite Nat.add_0_r, app_nil_r.
Qed.
Lemma block_events_other pre l b ords : lg_BlockHash l ≠ blk_BlockHash b →
  block_events pre b ords → block_events (pre ++ [l]) b ords.
Proof.
  intros Hh [(es & Hes & Ht) Hpos]. split; [|done]. exists es. split; [done|].
  by rewrite decoded_snoc, bool_decide_false, app_nil_r by done.
Qed.

(** A log that adds nothing. *)
Lemma scanned_skip pre l bs ord : decode l = Ok None → scanned pre bs ord → scanned (pre ++ [l]) bs ord.
Proof.
  intros Hd []. split; [done| |done| |].
  - intros b Hb. destruct (sn_from0 b Hb) as (l' & Hl & Hh). exists l'. split; [apply elem_of_app; by left|done].
  - intros b Hb. destruct (sn_events0 b Hb) as [(es & Hes & Ht) Hpos]. split; [|done]. exists es. split; [done|].
    rewrite Ht, decoded_snoc, Hd. case_bool_decide; by rewrite app_nil_r.
  - intros l' e [Hl|[= ->]%list_elem_of_singleton]%elem_of_app; [by eapply sn_all0|congruence].
Qed.

(** Numbers and hashes of the blocks agree with those of the logs. *)
Lemma scanned_block pre l bs ord b : chain_logs (pre ++ [l]) → scanned pre bs ord → b ∈ bs →
  blk_BlockNumber b ≤ lg_BlockNumber l ∧ (blk_BlockNumber b = lg_BlockNumber l ↔ blk_BlockHash b = lg_BlockHash l).
Proof.
  intros Hc Hs Hb. destruct (sn_from _ _ _ Hs b Hb) as (a & Ha & <- & <-). split; [by eapply chain_logs_le|].
  apply (cl_block _ Hc); apply elem_of_app; [by left|right; by apply list_elem_of_singleton].
Qed.
Lemma scanned_last pre bs b ord : scanned pre (bs ++ [b]) ord →
  (∀ c, c ∈ bs → blk_BlockNumber c < blk_BlockNumber b).
Proof.
  intros Hs c Hc. pose proof (sn_sorted _ _ _ Hs) as H. rewrite fmap_app in H.
  eapply (StronglySorted_app_1_elem_of _ _ _ _ _ H); [by apply list_elem_of_fmap_2|by apply list_elem_of_singleton].
Qed.
Lemma scanned_hashes pre l bs ord b c : chain_logs (pre ++ [l]) → scanned pre bs ord → b ∈ bs → c ∈ bs →
  blk_BlockHash b = blk_BlockHash c → blk_BlockNumber b = blk_BlockNumber c.
Proof.
  intros Hc Hs Hb Hc'. destruct (sn_from _ _ _ Hs b Hb) as (x & Hx & <- & <-).
  destruct (sn_from _ _ _ Hs c Hc') as (y & Hy & <- & <-). apply (cl_block _ (chain_logs_prefix _ _ Hc) x y Hx Hy).
Qed.

Lemma scanned_next pre l bs b ord ev name f : chain_logs (pre ++ [l]) → scanned pre (bs ++ [b]) ord →
  adds ev name f → decode l = Ok (Some ev) → lg_BlockHash l = blk_BlockHash b →
  scanned (pre ++ [l]) (bs ++ [f b])
    (<[blk_BlockHash b := default [] (ord !! blk_BlockHash b) ++ [mkOrder name (Z.of_nat (events_of_kind name b))]]> ord).
Proof.
  intros Hc Hs Hf Hd Hh. assert (Hin : b ∈ bs ++ [b]) by (apply elem_of_app; right; by apply list_elem_of_singleton).
  assert (Hhs : blk_BlockHash <$> bs ++ [f b] = blk_BlockHash <$> bs ++ [b]).
  { rewrite !fmap_app. cbn. by rewrite (add_hash _ _ _ Hf). }
  split.
  - replace (blk_BlockNumber <$> bs ++ [f b]) with (blk_BlockNumber <$> bs ++ [b]); [apply Hs|].
    rewrite !fmap_app. cbn. by rewrite (add_number _ _ _ Hf).
  - intros c Hc'. assert (∃ l, l ∈ pre ∧ lg_BlockHash l = blk_BlockHash c ∧ lg_BlockNumber l = blk_BlockNumber c)
      as (a & Ha & ?); [|exists a; split; [apply elem_of_app; by left|done]].
    apply elem_of_app in Hc' as [Hc'|Hc'%list_elem_of_singleton].
    + apply (sn_from _ _ _ Hs). apply elem_of_app. by left.
    + subst c. rewrite (add_hash _ _ _ Hf), (add_number _ _ _ Hf). by apply (sn_from _ _ _ Hs).
  - intros h Hn. rewrite Hhs in Hn. rewrite lookup_insert_ne; [by apply (sn_order _ _ _ Hs)|].
    intros <-. apply Hn. by apply list_elem_of_fmap_2.
  - intros c [Hc'|Hc'%list_elem_of_singleton]%elem_of_app.
    + assert (Hne : blk_BlockHash b ≠ blk_BlockHash c).
      { intros Heq. pose proof (scanned_last _ _ _ _ Hs c Hc') as Hlt.
        rewrite (scanned_hashes _ _ _ _ b c Hc Hs Hin) in Hlt; [lia|apply elem_of_app; by left|done]. }
      rewrite lookup_insert_ne by done. apply block_events_other; [congruence|].
      apply (sn_events _ _ _ Hs), elem_of_app. by left.
    + subst c. rewrite (add_hash _ _ _ Hf), lookup_insert_eq. cbn. apply (block_events_add _ _ _ _ ev); [done..|].
      by apply (sn_events _ _ _ Hs).
  - rewrite Hhs. intros a e [Ha|Ha%list_elem_of_singleton]%elem_of_app He; [by eapply (sn_all _ _ _ Hs)|].
    subst a. rewrite Hh. by apply list_elem_of_fmap_2.
Qed.

Lemma scanned_new pre l bs ord ev name f t : chain_logs (pre ++ [l]) → scanned pre bs ord →
  (∀ b, last bs = Some b → other_block l b = true) → adds ev name f → decode l = Ok (Some ev) →
  scanned (pre ++ [l]) (bs ++ [f (log_block l t)])
    (<[lg_BlockHash l := default [] (ord !! lg_BlockHash l) ++
        [mkOrder name (Z.of_nat (events_of_kind name (log_block l t)))]]> ord).
Proof.
  intros Hc Hs Hlast Hf Hd.
  assert (Hlt : ∀ c, c ∈ bs → blk_BlockNumber c < lg_BlockNumber l).
  { destruct bs as [|b bs _] using rev_ind; [by intros c ?%elem_of_nil|].
    assert (Hb : b ∈ bs ++ [b]) by (apply elem_of_app; right; by apply list_elem_of_singleton).
    specialize (Hlast b (last_snoc _ _)). destruct (scanned_block _ _ _ _ _ Hc Hs Hb) as [Hle Hiff].
    assert (blk_BlockNumber b < lg_BlockNumber l).
    { destruct (decide (blk_BlockNumber b = lg_BlockNumber l)) as [He|]; [|lia].
      unfold other_block in Hlast. apply Hiff in He as Hh. rewrite He, Hh in Hlast.
      by rewrite !bool_decide_false in Hlast by (by intros []). }
    intros c [Hc'|Hc'%list_elem_of_singleton]%elem_of_app; [|by subst].
    pose proof (scanned_last _ _ _ _ Hs c Hc'). lia. }
  assert (Hfresh : lg_BlockHash l ∉ blk_BlockHash <$> bs).
  { intros (c & Hh & Hc')%list_elem_of_fmap. destruct (scanned_block _ _ _ _ _ Hc Hs Hc') as [_ Hiff].
    specialize (Hlt c Hc'). assert (blk_BlockNumber c = lg_BlockNumber l) by (by apply Hiff). lia. }
  assert (Hhash : blk_BlockHash (f (log_block l t)) = lg_BlockHash l) by (by rewrite (add_hash _ _ _ Hf)).
  assert (Hnum : blk_BlockNumber (f (log_block l t)) = lg_BlockNumber l) by (by rewrite (add_number _ _ _ Hf)).
  split.
  - rewrite fmap_app. apply StronglySorted_app_2; [|apply Hs|cbn; repeat constructor].
    intros x y (c & -> & Hc')%list_elem_of_fmap Hy. cbn in Hy. apply list_elem_of_singleton in Hy as ->.
    rewrite Hnum. by apply Hlt.
  - intros c [Hc'|Hc'%list_elem_of_singleton]%elem_of_app.
    + destruct (sn_from _ _ _ Hs c Hc') as (a & Ha & ?). exists a. split; [apply elem_of_app; by left|done].
    + subst c. exists l. split_and!; [|done..]. apply elem_of_app. right. by apply list_elem_of_singleton.
  - intros h Hn. rewrite fmap_app, elem_of_app in Hn. cbn in Hn. rewrite list_elem_of_singleton, Hhash in Hn.
    rewrite lookup_insert_ne; [apply (sn_order _ _ _ Hs)|]; naive_solver.
  - intros c [Hc'|Hc'%list_elem_of_singleton]%elem_of_app.
    + assert (lg_BlockHash l ≠ blk_BlockHash c).
      { intros He. apply Hfresh. rewrite He. by apply list_elem_of_fmap_2. }
      rewrite lookup_insert_ne by done. apply block_events_other; [done|]. by apply (sn_events _ _ _ Hs).
    + subst c. rewrite Hhash, lookup_insert_eq. cbn. apply (block_events_add _ _ (log_block l t) _ ev); [done..|].
      rewrite (sn_order _ _ _ Hs) by done. split; [|by intros []]. exists []. split; [done|].
      rewrite decoded_nil; [done|]. intros a e Ha He Heq. apply Hfresh. change (lg_BlockHash l) with (blk_BlockHash (log_block l t)).
      rewrite <- Heq. by eapply (sn_all _ _ _ Hs).
  - intros a e [Ha|Ha%list_elem_of_singleton]%elem_of_app He; rewrite fmap_app, elem_of_app.
    + left. by eapply (sn_all _ _ _ Hs).
    + subst a. right. cbn. rewrite Hhash. by apply list_elem_of_singleton.
Qed.
End Scan.

(** ** The handlers *)
Section Handlers.
Context {K : Keccak} {E : Type} {Run : Runtime E} {Chain : ChainReader E} {Bind : Bindings}.
Context (etherMan : Client).
Abbreviation Sc := (M (Scan E)).
Abbreviation decode := (decode etherMan).
Abbreviation scanned := (scanned etherMan).

Definition scan_is (bs : list Block) (ord : gmap bytes (list Order)) (s : Scan E) : Prop :=
  sc_blocks s = bs ∧ sc_order s = ord.
Lemma pres_on_chain {A} bs ord (m : M E A) : preserves (scan_is bs ord) (on_chain m : Sc A).
Proof. intros s r s' H. unfold on_chain, zoom. destruct (m (sc_env s)). by intros [= <- <-]. Qed.
Hint Resolve pres_on_chain : pres.
Lemma pres_getFullBlockTime bs ord l : preserves (scan_is bs ord) (getFullBlockTime l : Sc Z).
Proof. unfold getFullBlockTime. solve_preserves. Qed.
Hint Resolve pres_getFullBlockTime : pres.

(** The state of the scan after the logs. *)
Definition scanned_state (pre : list Log) (s : Scan E) : Prop := scanned pre (sc_blocks s) (sc_order s).

Lemma add_event_scanned pre l receivedAt first next name count msg ev s s' :
  (∀ bs ord, preserves (scan_is bs ord) (receivedAt : Sc Z)) →
  adds ev name first → adds ev name next → (∀ b, count b = events_of_kind name b) →
  decode l = Ok (Some ev) → chain_logs (pre ++ [l]) →
  scanned_state pre s → add_event l receivedAt first next name count msg s = (Ok tt, s') →
  scanned_state (pre ++ [l]) s'.
Proof.
  intros Hrec Hfirst Hnext Hcount Hd Hc Hs E1. unfold add_event in E1. inv_bind E1. injection H as <- <-.
  assert (Hpos : ∀ f b, adds ev name f → Z.of_nat (count (f b)) - 1 = Z.of_nat (events_of_kind name b)).
  { intros f b Hf. rewrite Hcount, (add_count _ _ _ Hf), bool_decide_true by done. lia. }
  assert (Hnew : ∀ s1, (∀ b, last (sc_blocks s) = Some b → other_block l b = true) →
    (t ← receivedAt; s0 ← get; modify (set_blocks (sc_blocks s0 ++ [first (log_block l t)]))) s = (Ok tt, s1) →
    (s2 ← get; match last (sc_blocks s2) with
               | None => gopanic "index out of range"
               | Some b => modify (add_order (blk_BlockHash b) (mkOrder name (Z.of_nat (count b) - 1)))
               end) s1 = (Ok tt, s') → scanned_state (pre ++ [l]) s').
  { intros s1 Hl E1 E2. inv_bind E1. inv_bind H1. injection H2 as <- <-. injection H3 as <-.
    destruct (Hrec _ _ s _ _ (conj eq_refl eq_refl) H) as [Hb Ho].
    inv_bind E2. injection H1 as <- <-. cbn [sc_blocks set_blocks] in H2. rewrite last_snoc in H2. injection H2 as <-.
    unfold scanned_state. cbn [sc_blocks sc_order set_blocks add_order]. rewrite Hb, Ho, (Hpos _ _ Hfirst), (add_hash _ _ _ Hfirst).
    by apply (scanned_new _ _ _ _ _ ev). }
  inv_bind H0. destruct a. destruct (last (sc_blocks s)) as [b|] eqn:Hl.
  - destruct (other_block l b) eqn:Ho; [apply (Hnew _ ltac:(intros ? [= <-]; exact Ho) H H1)|].
    destruct (same_block l b) eqn:Hsame; [|done]. injection H as <-.
    apply last_Some in Hl as (bs & Hbs). inv_bind H1. injection H as <- <-.
    cbn [sc_blocks set_blocks] in H0. rewrite last_snoc in H0. injection H0 as <-.
    unfold scanned_state in *. cbn [sc_blocks sc_order set_blocks add_order].
    rewrite Hbs, removelast_last, (Hpos _ _ Hnext), (add_hash _ _ _ Hnext).
    rewrite Hbs in Hs. apply (scanned_next _ _ _ _ _ _ ev); try done.
    unfold same_block in Hsame. apply andb_true_iff in Hsame as [Hh _]. by apply bool_decide_eq_true in Hh.
  - apply (Hnew _ ltac:(done) H H1).
Qed.

(** Every handler adds the event its log means, or nothing. *)
Definition handled (l : Log) (m : Sc unit) : Prop := ∀ pre s s', chain_logs (pre ++ [l]) →
  scanned_state pre s → m s = (Ok tt, s') → scanned_state (pre ++ [l]) s'.

Lemma handled_add l receivedAt first next name count msg ev :
  (∀ bs ord, preserves (scan_is bs ord) (receivedAt : Sc Z)) →
  adds ev name first → adds ev name next → (∀ b, count b = events_of_kind name b) →
  decode l = Ok (Some ev) → handled l (add_event l receivedAt first next name count msg).
Proof.
  intros Hr Hf Hn Hc Hd pre s s' H1 H2 H3. exact (add_event_scanned _ _ _ _ _ _ _ _ _ _ _ Hr Hf Hn Hc Hd H1 H2 H3).
Qed.
Lemma handled_lift {A} l (r : res A) (f : A → Sc unit) :
  (∀ a, r = Ok a → handled l (f a)) → handled l (lift_res r ≫= f).
Proof. intros H pre s s' Hc Hs E1. inv_bind E1. injection H0 as -> <-. by eapply H. Qed.
Lemma handled_bound {A} l b (r : res A) (f : A → Sc unit) :
  (∀ a, present b r = Ok a → handled l (f a)) → handled l (bound b r ≫= f).
Proof. intros H. destruct b; [by apply handled_lift|]. by intros pre s s' _ _ E1. Qed.
Lemma pres_no_time bs ord : preserves (scan_is bs ord) (no_time : Sc Z).
Proof. apply pres_ret. Qed.
Hint Resolve pres_no_time pres_ret : pres.

Lemma handled_ger l m r : decode l = Ok (Some (ger_event (lg_BlockNumber l) m r)) →
  handled l (processUpdateGlobalExitRootEvent m r l).
Proof.
  intros Hd pre s s' Hc Hs E1. unfold processUpdateGlobalExitRootEvent in E1. inv_bind E1.
  set (g0 := mkGlobalExitRoot 0 (lg_BlockNumber l) [m; r] (hash [m; r]) 0 0 zero_time).
  pose proof (pres_getFullBlockTime _ _ l s _ _ (conj eq_refl eq_refl) H) as [Hb Ho].
  eapply (handled_add l _ _ _ _ _ _ (ger_event (lg_BlockNumber l) m r)); [| | | | | |unfold scanned_state; rewrite Hb, Ho; exact Hs|exact H0]; try done;
    [auto with pres|apply (adds_ger g0)|apply (adds_ger g0)].
Qed.
Lemma handled_insert l g : decode l = Ok (Some (EvGlobalExitRoot (l2_ger (lg_BlockNumber l) g))) →
  handled l (addSovereignChainL2GER g l).
Proof.
  intros Hd. eapply handled_add; [auto with pres| | |done|exact Hd]; apply (adds_ger (l2_ger (lg_BlockNumber l) g) zero_time).
Qed.
Lemma handled_remove l g : decode l = Ok (Some (EvRemoveL2GER (l2_ger (lg_BlockNumber l) g))) → handled l (removeL2GER g l).
Proof. intros Hd. eapply handled_add; [auto with pres| | |done|exact Hd]; apply adds_remove. Qed.
Lemma handled_claim l mainnet rollup index origin addr dest amount :
  decode l = Ok (Some (claim_event l mainnet rollup index origin addr dest amount)) →
  handled l (claimEvent l amount dest addr index origin rollup mainnet).
Proof.
  intros Hd. set (c := mkClaim mainnet rollup index origin addr amount dest 0 (lg_BlockNumber l) 0 (lg_TxHash l) zero_time).
  eapply handled_add; [auto with pres| | |done|exact Hd]; [apply (adds_claim c (λ _, zero_time))|apply (adds_claim c blk_ReceivedAt)].
Qed.
Lemma handled_verified l v : decode l = Ok (Some (verified_event l v)) → handled l (verifyBatches l v).
Proof. intros Hd. eapply handled_add; [auto with pres| | |done|exact Hd]; apply adds_verified. Qed.

Lemma handled_event l h : decode l = decode_as etherMan h l → handled l (handle etherMan h l).
Proof.
  intros Hd. destruct h; cbn [handle]; cbn [decode_as] in Hd.
  - apply handled_lift. intros m Hm. apply handled_lift. intros r Hr. apply handled_ger. by rewrite Hd, Hm, Hr.
  - apply handled_bound. intros [m r] Hm. apply handled_ger. by rewrite Hd, Hm.
  - apply handled_lift. intros d Hp. set (dep := depositEvent_deposit l d).
    eapply (handled_add l _ _ _ _ _ _ (EvDeposit dep)); [auto with pres| | |done|by rewrite Hd, Hp];
      [apply (adds_deposit dep (λ _, zero_time))|apply (adds_deposit dep blk_ReceivedAt)].
  - apply handled_lift. intros c Hp. apply handled_lift. intros [[mf ri] i] Hi. apply handled_claim. by rewrite Hd, Hp; cbn; rewrite Hi.
  - apply handled_lift. intros c Hp. apply handled_claim. by rewrite Hd, Hp.
  - apply handled_lift. intros t Hp. rewrite Hp in Hd. eapply handled_add; [auto with pres| | |done|exact Hd]; apply adds_token.
  - apply handled_bound. intros v Hp. apply handled_verified. by rewrite Hd, Hp.
  - apply handled_bound. intros v Hp. apply handled_verified. by rewrite Hd, Hp.
  - apply handled_bound. intros g Hp. apply handled_insert. by rewrite Hd, Hp.
  - apply handled_bound. intros g Hp. apply handled_remove. by rewrite Hd, Hp.
  - apply handled_bound. intros g Hp. apply handled_insert. by rewrite Hd, Hp.
  - apply handled_bound. intros g Hp. apply handled_remove. by rewrite Hd, Hp.
  - intros pre s s' _ Hs [= <-]. by apply scanned_skip.
Qed.
Lemma handled_processEvent l : handled l (processEvent etherMan l).
Proof.
  apply handled_lift. intros topic Ht. apply handled_event. unfold EthermanFacts.decode. by rewrite Ht.
Qed.

Lemma scan_loop logs : ∀ pre s s', chain_logs (pre ++ logs) → scanned_state pre s →
  for_each logs (processEvent etherMan) s = (Ok tt, s') → scanned_state (pre ++ logs) s'.
Proof.
  induction logs as [|l logs IH]; intros pre s s' Hc Hs E1; cbn [for_each] in E1.
  { injection E1 as <-. by rewrite app_nil_r. }
  inv_bind E1. destruct a. replace (pre ++ l :: logs) with ((pre ++ [l]) ++ logs) in * by (by rewrite <- app_assoc).
  apply (IH _ s0); [done| |done]. eapply handled_processEvent; [|exact Hs|exact H]. by eapply chain_logs_prefix.
Qed.
Lemma scanned_init e : scanned_state [] (mkScan e [] ∅ : Scan E).
Proof. split; cbn; [constructor|by intros b ?%elem_of_nil|done|by intros b ?%elem_of_nil|by intros l e' ?%elem_of_nil]. Qed.

Lemma process_logs_scanned logs e blocks order e' : chain_logs logs →
  process_logs etherMan logs e = (Ok (blocks, order), e') → scanned logs blocks order.
Proof.
  intros Hchain. unfold process_logs.
  destruct (for_each logs (processEvent etherMan) (mkScan e [] ∅)) as [[[]| |] s] eqn:E2; [|done..].
  intros [= <- <- <-]. exact (scan_loop logs [] _ _ Hchain (scanned_init e) E2).
Qed.

(** C23. The blocks read from a chain are in the order of their numbers, and give
    back what the logs mean: following the orders of a block, as the synchronizer
    does, finds exactly the decoded events of its logs, in the order of the logs,
    each position of each kind once and in its order; and no event is lost. *)
Theorem readEvents_faithful query logs e blocks order e1 e'
  (Hlogs : FilterLogs query e = (Ok logs, e1)) (Hchain : chain_logs logs)
  (E1 : readEvents etherMan query e = (Ok (blocks, order), e')) :
  StronglySorted Z.lt (blk_BlockNumber <$> blocks) ∧
  (∀ b, b ∈ blocks → block_events etherMan logs b (default [] (order !! blk_BlockHash b))) ∧
  (∀ l ev, l ∈ logs → decode l = Ok (Some ev) → lg_BlockHash l ∈ blk_BlockHash <$> blocks).
Proof.
  unfold readEvents in E1. rewrite (M_bind_ok _ _ _ _ _ Hlogs) in E1.
  by destruct (process_logs_scanned _ _ _ _ _ Hchain E1).
Qed.

Lemma open_block vLog (f : Block → Block) (s s' : Scan E) :
  (t ← getFullBlockTime vLog; s ← get; modify (set_blocks (sc_blocks s ++ [f (log_block vLog t)]))) s = (Ok tt, s') →
  ∃ t s1, getFullBlockTime vLog s = (Ok t, s1) ∧ sc_blocks s' = sc_blocks s ++ [f (log_block vLog t)].
Proof.
  intros H. inv_bind H. inv_bind H1. injection H as <- <-. injection H2 as <-. exists a, s0. split; [done|]. cbn.
  by destruct (pres_getFullBlockTime _ _ vLog s _ _ (conj eq_refl eq_refl) H0) as [-> _].
Qed.

(** The deposit that opens a block is put in the block before its time is set:
    the block has the time of its log, the deposit keeps the zero time. *)
Theorem first_deposit_has_no_time vLog s s'
  (Hnew : ∀ b, last (sc_blocks s) = Some b → other_block vLog b = true)
  (E1 : process_depositEvent vLog s = (Ok tt, s')) :
  ∃ d t s1, ParseBridgeEvent vLog = Ok d ∧ getFullBlockTime vLog s = (Ok t, s1) ∧
    sc_blocks s' = sc_blocks s ++ [push_Deposit (depositEvent_deposit vLog d) (log_block vLog t)] ∧
    dep_Time (depositEvent_deposit vLog d) = zero_time.
Proof.
  unfold process_depositEvent in E1. inv_bind E1. unfold lift_res in H. injection H as Hp <-. unfold add_event in H0.
  inv_bind H0. injection H as <- <-. inv_bind H1. destruct a0.
  assert (Hb : ∃ t s1, getFullBlockTime vLog s = (Ok t, s1) ∧
            sc_blocks s0 = sc_blocks s ++ [push_Deposit (depositEvent_deposit vLog a) (log_block vLog t)]).
  { apply open_block. destruct (last (sc_blocks s)) as [b|]; [by rewrite (Hnew b eq_refl) in H|done]. }
  destruct Hb as (t & s1 & Ht & Hb). exists a, t, s1. split_and!; [done|done| |done].
  inv_bind H0. injection H1 as <- <-. rewrite Hb, last_snoc in H2. by injection H2 as <-.
Qed.
End Handlers.

Section ReadSync.
Context {K : Keccak} {Abi : TokenAbi} {E : Type} {Env : Environment E} (cfg : Config).
Abbreviation Sy := (M (ClientSynchronizer E)).

(** What the synchronizer does with one event. *)
Definition process_event (ev : Event) (blockID : Z) (tx : Tx) (flags : bool * bool) : Sy (bool * bool) :=
  match ev with
  | EvGlobalExitRoot g =>
      processGlobalExitRoot cfg g blockID tx;;
      mret (if bool_decide (length (ger_ExitRoots g) = 2%nat) then (true, flags.2)
            else if bool_decide (length (ger_ExitRoots g) = 0%nat) then (flags.1, true) else flags)
  | EvRemoveL2GER g => processRemoveL2GlobalExitRoot cfg g blockID tx;; mret flags
  | EvDeposit d => processDeposit cfg d blockID tx;; mret flags
  | EvClaim c => processClaim cfg c blockID tx;; mret flags
  | EvToken t => processTokenWrapped cfg t blockID tx;; mret flags
  | EvVerified v => processVerifyBatch cfg v blockID tx;; mret flags
  end.
Fixpoint process_events (evs : list Event) (blockID : Z) (tx : Tx) (flags : bool * bool) : Sy (bool * bool) :=
  match evs with
  | [] => mret flags
  | ev :: evs => flags ← process_event ev blockID tx flags; process_events evs blockID tx flags
  end.

Lemma ordered_found {A} name (l : list A) pos x (s : ClientSynchronizer E) :
  at_index l pos = Ok x → ordered name l pos s = (Ok x, s).
Proof.
  intros H. unfold ordered. rewrite bool_decide_false; [by unfold lift_res; rewrite H|].
  unfold at_index in H. case_bool_decide; [|done]. destruct (l !! Z.to_nat pos) eqn:Hl; [|done].
  apply lookup_lt_Some in Hl. lia.
Qed.
Lemma processElement_event b id tx o ev flags (s : ClientSynchronizer E) : event_at b o = Ok ev →
  processElement cfg b id tx o flags s = process_event ev id tx flags s.
Proof.
  unfold event_at, processElement. intros H.
  destruct (ord_Name o); cbn zeta;
    match type of H with _ <$> ?r = _ => destruct r as [x| |] eqn:Hx; cbn in H; [|done..] end;
    injection H as <-; by erewrite M_bind_ok by by apply ordered_found.
Qed.
Lemma processElements_events b id tx ords : ∀ evs flags (s : ClientSynchronizer E), mapM (event_at b) ords = Ok evs →
  processElements cfg b id tx ords flags s = process_events evs id tx flags s.
Proof.
  induction ords as [|o ords IH]; intros evs flags s; cbn; [by intros [= <-]|].
  destruct (event_at b o) as [ev| |] eqn:Ho; cbn; [|done..].
  destruct (mapM (event_at b) ords) as [evs'| |]; cbn; [|done..]. intros [= <-].
  cbn [process_events]. unfold mbind, M_bind. rewrite (processElement_event _ _ _ _ _ _ _ Ho).
  destruct (process_event ev id tx flags s) as [[f| |] s1]; [by apply IH|done|done].
Qed.
End ReadSync.

(** C24. A block that was read from a chain is processed event by event, in the order
    of its logs: the error for events out of order is never reached. *)
Theorem read_blocks_processed `{Keccak, TokenAbi, Environment Ew, Runtime Ec, ChainReader Ec, Bindings} cfg
  (etherMan : Client) query logs (e e1 e' : Ec) blocks order b
  (Hlogs : FilterLogs query e = (Ok logs, e1)) (Hchain : chain_logs logs)
  (E1 : readEvents etherMan query e = (Ok (blocks, order), e')) (Hb : b ∈ blocks) :
  ∃ evs, timeless <$> evs = decoded etherMan logs (blk_BlockHash b) ∧
    ∀ id tx flags (s : ClientSynchronizer Ew),
      processElements cfg (set_blk_NetworkID (cfg_networkID cfg) b) id tx
        (default [] (order !! blk_BlockHash b)) flags s = process_events cfg evs id tx flags s.
Proof.
  unfold readEvents in E1. rewrite (M_bind_ok _ _ _ _ _ Hlogs) in E1. apply process_logs_scanned in E1; [|done].
  destruct (sn_events _ _ _ _ E1 b Hb) as [(evs & Hevs & Ht) _]. exists evs. split; [done|].
  intros id tx flags s. apply processElements_events. exact Hevs.
Qed.
