(* ===== verification/GroupFacts.v ===== *)
(** * The monitor of compressed claims is safe

    No group ever has two claims that wait for a receipt, in memory or in the
    tables; the numbers of new groups are fresh; a group that used its retries
    fails in the same pass; a pass that fails leaves the tables as they were; and
    what a pass makes of a group that the contract refuses to compress. *)
From stdpp Require Import pretty.
From S2P Require Import Prelude Types MerkleStore MonitoredTx Tables Storage StorageFacts Transactions EthClient.
From S2P Require Import PendingTxs GroupMonitor SyncAtomic TableInv.
(** ** Groups with at most one pending claim *)

Definition pending (l : list TxHashHistoryEntry) : list TxHashHistoryEntry :=
  filter (λ t, IsPending t = true) l.

(** A group that was not sent yet has no pending claim, another one at most one. *)
Definition entry_ok (e : MonitoredTxGroupDBEntry) : Prop :=
  match grp_ClaimTxHistory e with
  | None => True
  | Some h => (length (pending (th_TxHashes h)) ≤ 1)%nat ∧
      (grp_Status e = MonitoredTxGroupStatusCreated → pending (th_TxHashes h) = [])
  end.
Definition group_ok (g : MonitoredTxGroup) : Prop := entry_ok (mg_DbEntry g).

(** A property of every group. *)
Definition all_groups (P : MonitoredTxGroup → Prop) (p : PendingTxs) : Prop :=
  map_Forall (λ _ g, P g) (pend_GroupTx p).

(** JSON prints a history and reads it back. *)
Class JsonOk `{!Json} : Prop :=
  Unmarshal_Marshal h s : Marshal h = Some s → s ≠ ""%string ∧ Unmarshal s = Some h.

Lemma pending_cons t l : pending (t :: l) = if IsPending t then t :: pending l else pending l.
Proof.
  unfold pending. destruct (IsPending t) eqn:Et.
  - by rewrite filter_cons_True.
  - rewrite filter_cons_False; [done|by rewrite Et].
Qed.
Lemma pending_nil l : existsb (λ t, IsPending t && negb (IsOutdated t)) l = false → pending l = [].
Proof.
  induction l as [|t l IH]; [done|]. cbn [existsb]. intros [Ht Hl]%orb_false_iff. rewrite pending_cons.
  destruct (IsPending t) eqn:Hp; [|by apply IH]. exfalso. revert Ht.
  unfold IsPending in Hp. apply bool_decide_eq_true in Hp. unfold IsOutdated, has_receipt. by rewrite Hp.
Qed.
Lemma pending_alter f i l : (∀ t, IsPending (f t) = false) →
  ∃ k, (length (pending (alter f i l)) + k = length (pending l))%nat.
Proof.
  intros Hf. revert i. induction l as [|x l IH]; intros i; [by exists 0%nat|]. destruct i as [|i].
  - change (alter f 0%nat (x :: l)) with (f x :: l). rewrite !pending_cons, Hf.
    destruct (IsPending x); [exists 1%nat|exists 0%nat]; cbn [length]; lia.
  - change (alter f (S i) (x :: l)) with (x :: alter f i l). rewrite !pending_cons.
    destruct (IH i) as [k Hk]. exists k. destruct (IsPending x); cbn [length]; lia.
Qed.

Section Groups.
Context {Cmp : GoCmp} {CA : ClaimAbi} {J : Json} {Txt : Texts} {E : Type} {Run : Runtime E} {Node : EthNode E}.
Context {Com : Compressor E} (cfg : CompressConfig).

Lemma group_ok_log msg g : group_ok g → group_ok (log_group msg g).
Proof. done. Qed.
Lemma group_ok_alter f i g : (∀ t, IsPending (f t) = false) → group_ok g → group_ok (alter_TxHash f i g).
Proof.
  intros Hf. unfold group_ok, entry_ok, alter_TxHash, set_DbEntry, set_ClaimTxHistory.
  cbn [mg_DbEntry grp_ClaimTxHistory grp_Status].
  destruct (grp_ClaimTxHistory (mg_DbEntry g)) as [h|]; cbn [fmap option_fmap option_map th_TxHashes]; [|done].
  destruct (pending_alter f i (th_TxHashes h) Hf) as [k Hk]. intros [H1 H2]. split; [lia|].
  intros Hs. specialize (H2 Hs). rewrite H2 in Hk. apply nil_length_inv. cbn [length] in Hk. lia.
Qed.
Lemma group_ok_status st g : st ≠ MonitoredTxGroupStatusCreated → group_ok g →
  group_ok (set_DbEntry (set_grp_Status st) g).
Proof.
  intros Hst. unfold group_ok, entry_ok. cbn. destruct (grp_ClaimTxHistory _); [|done].
  intros [H1 H2]. split; [done|]. by intros ->.
Qed.
Lemma group_ok_txs st g : group_ok g → group_ok (set_txs_Status st g).
Proof. done. Qed.
Lemma group_ok_successful i g g' : OnFinishClaimGroupTxSuccessful i g = Ok g' → group_ok g → group_ok g'.
Proof.
  unfold OnFinishClaimGroupTxSuccessful. destruct (group_TxHashes g) as [l| |]; cbn; [|done..].
  destruct (at_index l (Z.of_nat i)) as [tx| |]; cbn; [|done..]. intros [= <-] H.
  by apply group_ok_txs, group_ok_status, group_ok_alter.
Qed.
Lemma group_ok_failed i msg g g' : OnFinishClaimGroupTxFailed i msg g = Ok g' → group_ok g → group_ok g'.
Proof.
  unfold OnFinishClaimGroupTxFailed. destruct (group_TxHashes g) as [l| |]; cbn; [|done..].
  destruct (at_index l (Z.of_nat i)) as [tx| |]; cbn; [|done..]. intros [= <-] H. by apply group_ok_alter.
Qed.
Lemma group_ok_fail g : group_ok g → group_ok (OnFailGroup g).
Proof. intros H. by apply group_ok_txs, group_ok_log, group_ok_status. Qed.

(** A new claim is sent only when none is pending. *)
Lemma CanSend_none_pending g : group_ok g →
  returns (CanSendNewClaimCall cfg g : M E bool) (λ b, b = true →
    ∀ h, grp_ClaimTxHistory (mg_DbEntry g) = Some h → pending (th_TxHashes h) = []).
Proof.
  unfold group_ok, entry_ok, CanSendNewClaimCall. intros Hok. case_bool_decide as Hst.
  { apply yields_ret. intros _ h Hh. rewrite Hh in Hok. by apply Hok. }
  destruct (grp_ClaimTxHistory (mg_DbEntry g)) as [h|]; [|by apply yields_ret].
  case_bool_decide as Hlen.
  { apply yields_ret. intros _ h' [= <-]. apply nil_length_inv in Hlen. by rewrite Hlen. }
  destruct (existsb _ _) eqn:Ex; [by apply yields_ret|].
  apply pending_nil in Ex.
  eapply yields_weaken; [apply yields_any|]. by intros b _ _ h' [= <-].
Qed.

Lemma send_claim_ok b g : group_ok g → returns (send_claim cfg b g : M E MonitoredTxGroup) group_ok.
Proof.
  intros Hok. unfold send_claim. destruct (grp_CompressedTxData _) as [data|]; [|by apply yields_ret].
  eapply returns_bind; [by apply CanSend_none_pending|]. intros [|] Hcan; cbn [negb]; [|by apply yields_ret].
  destruct (_ && _); [by apply yields_ret|].
  apply returns_seq. intros [[h0 gas]|err]; [|by apply yields_ret].
  apply returns_seq. intros [[hash g1]|err]; [|by apply yields_ret].
  apply returns_seq. intros time. apply yields_ret. specialize (Hcan eq_refl).
  unfold group_ok, entry_ok. cbn. split; [|done]. unfold pending.
  destruct (grp_ClaimTxHistory (mg_DbEntry g)) as [h|]; cbn; [|by cbn].
  rewrite filter_app. fold (pending (th_TxHashes h)). rewrite (Hcan h eq_refl). cbn. done.
Qed.

Lemma check_receipts_loop_ok i txs g : group_ok g →
  returns (check_receipts_loop i txs g : M E MonitoredTxGroup) group_ok.
Proof.
  revert i g. induction txs as [|tx txs IH]; intros i g Hok; [by apply yields_ret|]. cbn [check_receipts_loop].
  destruct (negb _); [by apply IH|].
  apply returns_seq. intros [[receipt|]|err]; [|by apply IH, group_ok_log..].
  destruct (_ && _).
  - apply yields_lift. intros g' H. by eapply group_ok_successful.
  - eapply returns_bind; [|intros g' H; by apply IH].
    apply yields_lift. intros g' H. by eapply group_ok_failed.
Qed.
Lemma check_receipts_ok g : group_ok g → returns (check_receipts g : M E MonitoredTxGroup) group_ok.
Proof.
  intros Hok. unfold check_receipts. case_bool_decide; [|by apply yields_ret].
  apply returns_seq. intros txs. by apply check_receipts_loop_ok.
Qed.

Lemma outdate_loop_ok i txs g : group_ok g →
  returns (outdate_loop cfg i txs g : M E MonitoredTxGroup) group_ok.
Proof.
  revert i g. induction txs as [|tx txs IH]; intros i g Hok; [by apply yields_ret|]. cbn [outdate_loop].
  destruct (negb _); [by apply IH|]. apply returns_seq. intros time. destruct (IsExhaustedTimeWaitingForReceipt _ _ _); [|by apply IH].
  eapply returns_bind; [|intros g' H; by apply IH].
  apply yields_lift. intros g' H. by eapply group_ok_failed.
Qed.
Lemma outdate_claims_ok g : group_ok g → returns (outdate_claims cfg g : M E MonitoredTxGroup) group_ok.
Proof.
  intros Hok. unfold outdate_claims. eapply (returns_bind _ _ group_ok).
  - case_bool_decide; [|by apply yields_ret]. apply returns_seq. intros txs. by apply outdate_loop_ok.
  - intros g' H. case_bool_decide; apply yields_ret; [by apply group_ok_fail|done].
Qed.

(** A loop over the groups keeps what its body keeps. *)
Lemma for_groups_all (P : MonitoredTxGroup → Prop) f ids p :
  (∀ g, P g → returns (f g : M E MonitoredTxGroup) P) → all_groups P p →
  returns (for_groups f ids p) (λ p', all_groups P p').
Proof.
  intros Hf. revert p. induction ids as [|id ids IH]; intros p Hp; [by apply yields_ret|]. cbn [for_groups].
  destruct (pend_GroupTx p !! id) as [g|] eqn:Hg; [|by apply IH].
  eapply returns_bind; [apply Hf; by eapply Hp|]. intros g' Hg'. apply IH.
  by apply map_Forall_insert_2.
Qed.
Lemma each_group_all (P : MonitoredTxGroup → Prop) f p :
  (∀ g, P g → returns (f g : M E MonitoredTxGroup) P) → all_groups P p →
  returns (each_group f p) (λ p', all_groups P p').
Proof. intros Hf Hp. apply returns_seq. intros ids. by apply for_groups_all. Qed.

Lemma createNewGroups_ok p : all_groups group_ok p →
  returns (createNewGroups cfg p : M E PendingTxs) (all_groups group_ok).
Proof.
  intros Hp. unfold createNewGroups. apply returns_seq. intros time. cbn zeta.
  case_bool_decide; [by apply yields_ret|]. cbn [GenerateNewGroupID].
  do 3 (apply returns_seq; intros ?). apply yields_ret. unfold AddGroup. cbn [pend_GroupTx].
  destruct (pend_GroupTx p !! _); [done|]. by apply map_Forall_insert_2.
Qed.
Lemma Process_ok p : all_groups group_ok p → returns (Process cfg p : M E PendingTxs) (all_groups group_ok).
Proof.
  intros Hp. unfold Process.
  eapply returns_bind; [apply each_group_all; [intros g; apply send_claim_ok|exact Hp]|]. intros p1 H1.
  eapply returns_bind; [apply each_group_all; [intros g; apply check_receipts_ok|exact H1]|]. intros p2 H2.
  eapply returns_bind; [apply each_group_all; [intros g; apply outdate_claims_ok|exact H2]|]. intros p3 H3.
  by apply createNewGroups_ok.
Qed.

(** ** What is written back *)
Definition changes_ok (sc : StoreChanges) : Prop :=
  Forall entry_ok (sc_AddGroups sc) ∧ Forall entry_ok (sc_UpdateGroups sc).

Lemma store_group_ok old new id sc : all_groups group_ok new → changes_ok sc →
  returns (store_group old new id sc : M E StoreChanges) changes_ok.
Proof.
  intros Hn [H1 H2]. unfold store_group. destruct (pend_GroupTx new !! id) as [g|] eqn:Hg; [|by apply yields_ret].
  specialize (Hn _ _ Hg). cbn in Hn. destruct (pend_GroupTx old !! id) as [og|].
  - apply returns_seq. intros [|]; [by apply yields_ret|]. apply returns_seq. intros time. apply yields_ret.
    split; [done|]. cbn. apply Forall_app. split; [done|]. apply Forall_singleton. exact Hn.
  - apply returns_seq. intros time. apply yields_ret.
    split; [|done]. cbn. apply Forall_app. split; [done|]. apply Forall_singleton. exact Hn.
Qed.
Lemma store_groups_ok old new ids sc : all_groups group_ok new → changes_ok sc →
  returns (store_groups old new ids sc : M E StoreChanges) changes_ok.
Proof.
  intros Hn. revert sc. induction ids as [|id ids IH]; intros sc Hsc; [by apply yields_ret|].
  cbn [store_groups]. eapply returns_bind; [by apply store_group_ok|]. intros sc' H. by apply IH.
Qed.

(** The loops over the transactions leave the groups alone. *)
Lemma store_txs_groups old new ids sc sc' : store_txs old new ids sc = Ok sc' →
  changes_ok sc → changes_ok sc'.
Proof.
  assert (Hch : ∀ og txs sc sc', store_changed_txs og txs sc = Ok sc' → changes_ok sc → changes_ok sc').
  { intros og txs. induction txs as [|tx txs IH]; intros sc0 sc1; cbn [store_changed_txs]; [by intros [= ->]|].
    destruct (GetTxByDepositID _ _); [|done]. destruct (cmp_tx _ _) as [[]| |]; cbn; [apply IH|..]; [|done..].
    intros H Hsc. eapply IH; [exact H|exact Hsc]. }
  revert sc. induction ids as [|id ids IH]; intros sc; cbn [store_txs]; [by intros [= ->]|].
  destruct (store_txs_of old new id sc) as [sc1| |] eqn:E1; cbn; [|done..]. intros H Hsc.
  eapply IH; [exact H|]. revert E1. unfold store_txs_of. destruct (pend_GroupTx new !! id) as [g|]; [|by intros [= <-]].
  destruct (pend_GroupTx old !! id) as [og|]; [intros E1; by eapply Hch|]. intros [= <-].
  clear H. revert sc Hsc. generalize (mg_Txs g). clear. intros txs. induction txs as [|tx txs IH]; intros sc Hsc; [done|].
  cbn [fold_left]. by apply IH.
Qed.
Lemma GenerateStoreUpdate_ok old new : all_groups group_ok new →
  returns (GenerateStoreUpdate old new : M E StoreChanges) changes_ok.
Proof.
  intros Hn. unfold GenerateStoreUpdate. apply returns_seq. intros ids.
  eapply returns_bind; [apply store_groups_ok; [exact Hn|by split]|]. intros sc Hsc.
  apply returns_seq. intros ids'. apply yields_lift. intros sc' H. by eapply store_txs_groups.
Qed.
End Groups.

(** ** The rows of the groups *)
Section Rows.
Context {Cmp : GoCmp} {CA : ClaimAbi} {J : Json} {JOk : JsonOk} {Txt : Texts} {E : Type} {Run : Runtime E}.
Context {Node : EthNode E} {Com : Compressor E} (cfg : CompressConfig).

(** The history of a row is readable, and its group has at most one pending
    claim. *)
Definition row_ok (r : group_row) : Prop :=
  ∃ h, NewTxHistoryV2FromJson (gr_history r) = Ok h ∧ entry_ok (set_ClaimTxHistory h (gr_group r)).
Definition rows_ok (t : tables) : Prop := Forall row_ok (t_groups t).
Abbreviation groups_stored := (db_all rows_ok).

Lemma ToJson_read h str : ToJson h = Ok str → NewTxHistoryV2FromJson str = Ok h.
Proof.
  unfold ToJson, NewTxHistoryV2FromJson. destruct h as [h|]; [|by intros [= <-]].
  destruct (Marshal h) as [s|] eqn:Em; [|done]. intros [= <-].
  destruct (Unmarshal_Marshal h s Em) as [Hne Hu]. by rewrite bool_decide_false, Hu.
Qed.

Lemma scan_groups_ok rows m : Forall row_ok rows → scan_groups rows = Ok m →
  map_Forall (λ _ e, entry_ok e) m.
Proof.
  revert m. induction rows as [|r rows IH]; intros m Hr; cbn [scan_groups].
  { intros [= <-]. apply map_Forall_empty. }
  apply Forall_cons in Hr as [(h & Hh & Hok) Hr]. rewrite Hh. cbn.
  destruct (scan_groups rows) as [m'| |]; cbn; [|done..]. specialize (IH m' Hr eq_refl).
  intros [= <-]. case_bool_decide; [done|]. apply map_Forall_insert_2; [exact Hok|done].
Qed.

Lemma NewPendingTxs_ok mTxs groups last p : map_Forall (λ _ e, entry_ok e) groups →
  NewPendingTxs mTxs groups last = Ok p → all_groups group_ok p.
Proof.
  intros Hg. unfold NewPendingTxs. generalize (match mTxs with tx :: _ => mtx_GlobalExitRoot tx | [] => zero_hash end).
  intros ger. assert (H0 : all_groups group_ok (mkPendingTxs ∅ [] last)) by apply map_Forall_empty.
  revert H0. generalize (mkPendingTxs ∅ [] last). induction mTxs as [|tx mTxs IH]; intros q Hq; cbn [NewPendingTxs_loop].
  { by intros [= <-]. }
  destruct (IsCandidateToBeGrouped ger tx); [by apply IH|].
  destruct (mtx_GroupID tx) as [id|]; [|by apply IH].
  destruct (groups !! id) as [e|] eqn:He; [|done]. apply IH. specialize (Hg _ _ He). cbn in Hg.
  assert (Hs : all_groups group_ok (SetGroupDBEntry e q)) by (by apply map_Forall_insert_2).
  apply map_Forall_insert_2; [|done]. unfold addTxToGroup, group_ok, AddTx. cbn [mg_DbEntry].
  destruct (pend_GroupTx (SetGroupDBEntry e q) !! id) as [g|] eqn:Hgi; cbn; [exact (Hs _ _ Hgi)|done].
Qed.

Lemma db_all_groups_rows tx f : (∀ t, rows_ok t → rows_ok (f t)) →
  preserves groups_stored (exec tx (change f)).
Proof. intros H. by apply db_all_exec, keeps_change. Qed.

Lemma groups_stored_Add g tx : entry_ok g → preserves groups_stored (AddMonitoredTxsGroup (Some g) tx).
Proof.
  intros Hg. unfold AddMonitoredTxsGroup, history_json.
  eapply (pres_bind_yields _ _ _ (λ str, ToJson (grp_ClaimTxHistory g) = Ok str)).
  - solve_preserves.
  - apply yields_map_err, yields_lift. done.
  - intros str Hstr. apply pres_bind; [apply pres_int8|]. intros _. apply db_all_exec.
    apply keeps_seq; [apply keeps_select|]. intros t0. apply keeps_seq; [apply keeps_require|]. intros _.
    apply keeps_change. intros t Ht. apply Forall_app. split; [exact Ht|]. apply Forall_singleton.
    exists (grp_ClaimTxHistory g). split; [by apply ToJson_read|exact Hg].
Qed.
Lemma groups_stored_Update g tx : entry_ok g → preserves groups_stored (UpdateMonitoredTxsGroup (Some g) tx).
Proof.
  intros Hg. unfold UpdateMonitoredTxsGroup, history_json.
  eapply (pres_bind_yields _ _ _ (λ str, ToJson (grp_ClaimTxHistory g) = Ok str)).
  - solve_preserves.
  - apply yields_map_err, yields_lift. done.
  - intros str Hstr. apply pres_bind; [apply pres_int8|]. intros _. apply db_all_groups_rows.
    intros t Ht. apply Forall_fmap. eapply Forall_impl; [exact Ht|]. intros r Hr. unfold compose.
    case_bool_decide; [|done]. exists (grp_ClaimTxHistory g). split; [by apply ToJson_read|exact Hg].
Qed.
Lemma groups_stored_UpdateClaimTx m tx : preserves groups_stored (UpdateClaimTx m tx).
Proof.
  unfold UpdateClaimTx, mtx_params. solve_preserves. by apply db_all_groups_rows.
Qed.
#[local] Hint Resolve groups_stored_UpdateClaimTx : pres.

Lemma yields_getPendingTxs tx : yields groups_stored (getPendingTxs cfg tx) (all_groups group_ok).
Proof.
  assert (H0 : rows_ok initial_tables) by constructor.
  unfold getPendingTxs, GetClaimTxsByStatus, GetLatestMonitoredTxGroupID.
  eapply yields_bind; [solve_preserves|apply yields_any|]. intros mTxs _.
  eapply (yields_bind _ _ _ (map_Forall (λ _ e, entry_ok e))).
  - unfold GetMonitoredTxsGroups. solve_preserves.
  - apply yields_map_err. eapply (yields_bind _ _ _ (Forall row_ok)); [solve_preserves| |].
    + apply yields_query; [exact H0|]. intros t Ht. apply Forall_forall. intros r.
      unfold order_asc. rewrite merge_sort_Permutation. intros [_ Hin]%list_elem_of_filter.
      by eapply Forall_forall in Hin; [|exact Ht].
    + intros rows Hrows. apply yields_lift. intros m. by apply scan_groups_ok.
  - intros groups Hg. eapply yields_bind; [|apply yields_any|]; [solve_preserves|]. intros last _.
    apply yields_lift. intros p. by apply NewPendingTxs_ok.
Qed.
Lemma pres_getPendingTxs tx : preserves groups_stored (getPendingTxs cfg tx).
Proof.
  unfold getPendingTxs, GetClaimTxsByStatus, GetLatestMonitoredTxGroupID, GetMonitoredTxsGroups.
  solve_preserves.
Qed.

(** ** A pass *)
Section Pass.
Context (P : database → Prop).
Definition stored (s : E * database) : Prop := P s.2.

Lemma pres_pass_db {A} (m : M database A) : preserves P m → preserves stored (on_db m : M (E * database) A).
Proof.
  intros Hm [e db] r s' H. unfold on_db, zoom. cbn. destruct (m db) as [r1 db1] eqn:E1. intros [= <- <-].
  by eapply Hm.
Qed.
Lemma pres_pass_env {A} (m : M E A) : preserves stored (on_env m).
Proof. intros [e db] r s' H. unfold on_env, zoom. cbn. destruct (m e). by intros [= <- <-]. Qed.
Lemma yields_on_db {A} (m : M database A) Q : yields P m Q → yields stored (on_db m : M (E * database) A) Q.
Proof.
  intros Hm [e db] a s' H. unfold on_db, zoom. cbn. destruct (m db) as [r1 db1] eqn:E1. intros [= -> <-].
  by eapply Hm.
Qed.
Lemma yields_on_env {A} (m : M E A) Q : returns m Q → yields stored (on_env m) Q.
Proof.
  intros Hm [e db] a s' H. unfold on_env, zoom. cbn. destruct (m e) as [r1 e1] eqn:E1. intros [= -> <-].
  by eapply Hm.
Qed.

Hint Resolve pres_pass_db pres_pass_env : pres.
Context (Hget : ∀ tx, preserves P (getPendingTxs cfg tx)).
Context (Hyield : ∀ tx, yields P (getPendingTxs cfg tx) (all_groups group_ok)).
Context (Hadd : ∀ g tx, entry_ok g → preserves P (AddMonitoredTxsGroup (Some g) tx)).
Context (Hupd : ∀ g tx, entry_ok g → preserves P (UpdateMonitoredTxsGroup (Some g) tx)).
Context (Hclaim : ∀ m tx, preserves P (UpdateClaimTx m tx)).

Lemma pres_Execute sc tx : changes_ok sc → preserves stored (Execute sc tx).
Proof.
  intros [H1 H2]. unfold Execute. rewrite Forall_forall in H1, H2.
  apply pres_bind; [|intros _; apply pres_bind; [|intros _]]; apply pres_for_each_in; intros x Hx.
  - apply pres_map_err, pres_pass_db, Hadd. auto.
  - apply pres_bind; [apply pres_pass_env|]. intros time. apply pres_pass_db, Hupd. exact (H2 x Hx).
  - apply pres_map_err, pres_pass_db, Hclaim.
Qed.
Lemma pres_internalMonitorTxs tx : preserves stored (internalMonitorTxs cfg tx).
Proof.
  unfold internalMonitorTxs. eapply pres_bind_yields; [apply pres_pass_db, Hget|apply yields_on_db, Hyield|].
  intros p Hp. destruct (IsEmpty p); [apply pres_ret|].
  apply pres_bind; [apply pres_pass_db, Hget|]. intros old.
  eapply pres_bind_yields; [apply pres_pass_env|apply yields_on_env, Process_ok, Hp|]. intros new Hn.
  eapply pres_bind_yields; [apply pres_pass_env|apply yields_on_env, GenerateStoreUpdate_ok, Hn|].
  intros sc Hsc. by apply pres_Execute.
Qed.
End Pass.

Lemma pass_one_pending : preserves (stored groups_stored) (MonitorCompressedTxs cfg).
Proof.
  unfold MonitorCompressedTxs. apply pres_bind; [apply pres_pass_db, db_all_Begin|]. intros tx.
  apply pres_bind.
  - apply pres_attempt, pres_internalMonitorTxs; [apply pres_getPendingTxs|apply yields_getPendingTxs|
      apply groups_stored_Add|apply groups_stored_Update|apply groups_stored_UpdateClaimTx].
  - intros [u|err]; [apply pres_pass_db, db_all_Commit|].
    apply pres_bind; [apply pres_attempt, pres_pass_db, db_all_Rollback|]. intros _. apply pres_throw.
Qed.
End Rows.

Section GroupProps.
Context {Cmp : GoCmp} {CA : ClaimAbi} {J : Json} {Txt : Texts} {E : Type} {Run : Runtime E}.
Context {Node : EthNode E} {Com : Compressor E} (cfg : CompressConfig).

(** ** Failures *)
Section Atomic.
Context (t0 : tables).
Abbreviation kept := (stored (E:=E) (committed_is t0)).

Hint Resolve pres_pass_db pres_pass_env : pres.
Lemma kept_getPendingTxs : preserves (committed_is t0) (getPendingTxs cfg open_tx).
Proof.
  unfold getPendingTxs, GetClaimTxsByStatus, GetLatestMonitoredTxGroupID, GetMonitoredTxsGroups.
  solve_preserves.
Qed.
Lemma kept_AddGroup g : preserves (committed_is t0) (AddMonitoredTxsGroup g open_tx).
Proof. unfold AddMonitoredTxsGroup, history_json. solve_preserves. Qed.
Lemma kept_UpdateGroup g : preserves (committed_is t0) (UpdateMonitoredTxsGroup g open_tx).
Proof. unfold UpdateMonitoredTxsGroup, history_json. solve_preserves. Qed.
Lemma kept_UpdateClaimTx m : preserves (committed_is t0) (UpdateClaimTx m open_tx).
Proof. unfold UpdateClaimTx, mtx_params. solve_preserves. Qed.
Hint Resolve kept_getPendingTxs kept_AddGroup kept_UpdateGroup kept_UpdateClaimTx : pres.
Lemma kept_internal : preserves kept (internalMonitorTxs cfg open_tx).
Proof. unfold internalMonitorTxs, Execute. solve_preserves. Qed.

Lemma on_db_inv {A} (m : M database A) (s : E * database) r s' :
  on_db m s = (r, s') → ∃ db', m s.2 = (r, db') ∧ s' = (s.1, db').
Proof. unfold on_db, zoom. destruct (m s.2) as [r1 db1]. intros [= <- <-]. eauto. Qed.
Lemma pass_keeps : keeps_on_failure kept (MonitorCompressedTxs cfg).
Proof.
  intros s r s' H. unfold MonitorCompressedTxs. unfold mbind at 1, M_bind at 1.
  destruct (on_db BeginDBTransaction s) as [[tx|e|p] s1] eqn:E1;
    pose proof (pres_pass_db _ _ (committed_Begin t0) _ _ _ H E1) as H1; [|by intros [= <- <-]..].
  apply on_db_inv in E1 as (db1 & ->%begin_open & _).
  revert s1 r s' H1. apply keeps_bind; [apply pres_attempt, kept_internal|]. intros [u|err].
  - intros s1 r s' H1 (db' & E2 & ->)%on_db_inv Hf. unfold stored, committed_is in *. cbn.
    rewrite <- H1. by eapply commit_err_keeps_committed.
  - intros s1 r s' H1 E2 _. revert E2. apply (pres_bind kept); [|intros; apply pres_throw|exact H1].
    apply pres_attempt, pres_pass_db, committed_Rollback.
Qed.
End Atomic.

(** A pass that fails leaves the committed tables as they were, also when it has
    sent claims to the network: their hashes are forgotten, and the next pass
    finds the groups as if nothing had been sent. *)
Theorem MonitorCompressedTxs_atomic s r s'
  (E1 : MonitorCompressedTxs cfg s = (r, s')) (Hfail : is_ok r = false) :
  db_committed s'.2 = db_committed s.2.
Proof. exact (pass_keeps _ s r s' eq_refl E1 Hfail). Qed.

(** C16. Whatever the node, the contract and the storage answer, a pass keeps this
    of every group in the tables: its history can be read, at most one of its
    claims waits for a receipt, and none does while the group was not sent. *)
Theorem MonitorCompressedTxs_one_pending (JOk : JsonOk) s r s'
  (Hrows : db_all rows_ok s.2) (E1 : MonitorCompressedTxs cfg s = (r, s')) :
  db_all rows_ok s'.2.
Proof. exact (pass_one_pending cfg s r s' Hrows E1). Qed.

(** ** Groups without retries left *)

Definition exhausted_failed (g : MonitoredTxGroup) : Prop :=
  gc_MaxRetries (mc_grouping cfg) ≤ grp_NumRetries (mg_DbEntry g) →
  grp_Status (mg_DbEntry g) = MonitoredTxGroupStatussFailed ∧
  Forall (λ tx, mtx_Status tx = MonitoredTxStatusFailed) (mg_Txs g).

Lemma outdate_claims_fails g : returns (outdate_claims cfg g : M E MonitoredTxGroup) exhausted_failed.
Proof.
  unfold outdate_claims. apply returns_seq. intros g'. case_bool_decide as Hr; apply yields_ret.
  - intros _. split; [done|]. apply Forall_fmap, Forall_forall. done.
  - intros H. by destruct Hr.
Qed.

(** The groups visited by a loop satisfy what its body establishes, and no group
    comes or goes. *)
Lemma for_groups_spec (Q : MonitoredTxGroup → Prop) f ids p :
  (∀ g, returns (f g : M E MonitoredTxGroup) Q) →
  returns (for_groups f ids p) (λ p', dom (pend_GroupTx p') = dom (pend_GroupTx p) ∧
    pend_TxCandidatesForGroup p' = pend_TxCandidatesForGroup p ∧ pend_LastGroupTxID p' = pend_LastGroupTxID p ∧
    (∀ id, id ∈ ids ∨ (∃ g, pend_GroupTx p !! id = Some g ∧ Q g) →
       ∀ g, pend_GroupTx p' !! id = Some g → Q g)).
Proof.
  intros Hf. revert p. induction ids as [|i ids IH]; intros p.
  { apply yields_ret. split_and!; [done..|]. intros id [[]%not_elem_of_nil|(g & Hg & HQ)] g' Hg'.
    congruence. }
  cbn [for_groups]. destruct (pend_GroupTx p !! i) as [g|] eqn:Hg.
  - eapply returns_bind; [apply Hf|]. intros g' Hg'. eapply yields_weaken; [apply IH|].
    cbn [pend_GroupTx set_GroupTx pend_TxCandidatesForGroup pend_LastGroupTxID].
    intros p' (Hd & Hc & Hl & HQ). split_and!; [|done|done|].
    { rewrite Hd, dom_insert_lookup_L; [done|]. by exists g. }
    intros id Hid. apply HQ. destruct (decide (id = i)) as [->|Hne].
    { right. exists g'. by rewrite lookup_insert_eq. }
    destruct Hid as [[->|Hin]%elem_of_cons|(g0 & Hg0 & HQ0)]; [done|by left|].
    right. exists g0. by rewrite lookup_insert_ne.
  - eapply yields_weaken; [apply IH|]. intros p' (Hd & Hc & Hl & HQ). split_and!; [done..|].
    intros id [[->|Hin]%elem_of_cons|HQ0] g Hgl; [|by eapply HQ; [left|]|by eapply HQ; [right|]].
    apply elem_of_dom_2 in Hgl. rewrite Hd in Hgl. by apply elem_of_dom in Hgl as [? ?]; congruence.
Qed.
Lemma each_group_spec (ROk : RuntimeOk E) (Q : MonitoredTxGroup → Prop) f p :
  (∀ g, returns (f g : M E MonitoredTxGroup) Q) →
  returns (each_group f p) (λ p', dom (pend_GroupTx p') = dom (pend_GroupTx p) ∧
    pend_TxCandidatesForGroup p' = pend_TxCandidatesForGroup p ∧ pend_LastGroupTxID p' = pend_LastGroupTxID p ∧
    all_groups Q p').
Proof.
  intros Hf. unfold each_group. eapply (returns_bind _ _ (λ ids, ids ≡ₚ group_ids p)).
  { intros e ids e' _ E1. destruct (MapRange_ok _ _ _ _ E1) as (ids' & [= ->] & H). done. }
  intros ids Hids. eapply yields_weaken; [exact (for_groups_spec Q f ids p Hf)|].
  intros p' (Hd & Hc & Hl & HQ). split_and!; [done..|]. intros id g Hg. apply (HQ id); [|exact Hg].
  left. rewrite Hids. unfold group_ids. apply elem_of_dom_2 in Hg. rewrite Hd in Hg.
  apply elem_of_dom in Hg as [g0 Hg0]. apply list_elem_of_fmap. exists (id, g0).
  split; [done|]. by apply elem_of_map_to_list.
Qed.

(** ** New groups *)

Lemma chooseGroupTx_loop_spec max txs group :
  chooseGroupTx_loop max txs group =
    if bool_decide (Z.of_nat (length group) < max)
    then group ++ take (Z.to_nat max - length group) txs else group ++ txs.
Proof.
  revert group. induction txs as [|tx txs IH]; intros group; cbn [chooseGroupTx_loop].
  { rewrite take_nil, app_nil_r. by case_bool_decide. }
  rewrite IH, length_app. cbn [length]. repeat case_bool_decide; try lia; rewrite <- ?app_assoc; cbn [app].
  - replace (Z.to_nat max - length group)%nat with 1%nat by lia. cbn. by rewrite take_0.
  - replace (Z.to_nat max - length group)%nat with (S (Z.to_nat max - (length group + 1))) by lia. done.
  - done.
Qed.
Lemma chooseGroupTx_spec gc txs :
  chooseGroupTx gc txs = if bool_decide (0 < gc_MaxNumberOfClaimsPerGroup gc)
    then take (Z.to_nat (gc_MaxNumberOfClaimsPerGroup gc)) txs else txs.
Proof.
  unfold chooseGroupTx. rewrite chooseGroupTx_loop_spec. cbn. by rewrite Nat.sub_0_r.
Qed.
(** What is chosen are the first candidates, at most as many as a group holds. *)
Lemma ChooseTxs_prefix gc now txs : ∃ n, ChooseTxs gc now txs = take n txs ∧
  (n ≤ length txs)%nat ∧ (0 < gc_MaxNumberOfClaimsPerGroup gc → Z.of_nat n ≤ gc_MaxNumberOfClaimsPerGroup gc).
Proof.
  assert (H : ∃ n, chooseGroupTx gc txs = take n txs ∧ (n ≤ length txs)%nat ∧
    (0 < gc_MaxNumberOfClaimsPerGroup gc → Z.of_nat n ≤ gc_MaxNumberOfClaimsPerGroup gc)).
  { rewrite chooseGroupTx_spec. case_bool_decide.
    - exists (Nat.min (Z.to_nat (gc_MaxNumberOfClaimsPerGroup gc)) (length txs)). split_and!; [|lia|lia].
      destruct (Nat.le_ge_cases (Z.to_nat (gc_MaxNumberOfClaimsPerGroup gc)) (length txs)).
      + by rewrite Nat.min_l.
      + rewrite Nat.min_r, !take_ge by lia. done.
    - exists (length txs). rewrite take_ge by done. split_and!; [done|lia|lia]. }
  unfold ChooseTxs. destruct (isRetainedPeriodSurpassed _ _ _); [exact H|].
  case_bool_decide; [exact H|]. exists 0%nat. rewrite take_0. split_and!; [done|lia|lia].
Qed.

Definition new_group (id created : Z) (data : bytes) (txs : list MonitoredTx) : MonitoredTxGroup :=
  mkMonitoredTxGroup
    (mkMonitoredTxGroupDBEntry id MonitoredTxGroupStatusCreated [] (Some data) None created zero_time 0 "")
    (set_mtx_GroupID (Some id) <$> txs).

Lemma createNewGroups_spec (D : bytes → Prop) p :
  (∀ a b c, returns (CompressClaimCall a b c : M E bytes) D) →
  returns (createNewGroups cfg p : M E PendingTxs) (λ p', p' = p ∨ ∃ time created data,
    let id := wrap64 (pend_LastGroupTxID p + 1) in
    let txs := ChooseTxs (mc_grouping cfg) time (pend_TxCandidatesForGroup p) in
    txs ≠ [] ∧ D data ∧
    p' = AddGroup (new_group id created data txs)
           (mkPendingTxs (pend_GroupTx p) (pend_TxCandidatesForGroup p) id)).
Proof.
  intros HD. unfold createNewGroups. apply returns_seq. intros time. cbn zeta.
  case_bool_decide as Hn; [apply yields_ret; by left|]. cbn [GenerateNewGroupID].
  apply returns_seq. intros created. apply returns_seq. intros params.
  eapply returns_bind; [apply yields_map_err, HD|]. intros data Hd. apply yields_ret.
  right. exists time, created, data. split_and!; [|done|done]. intros Hnil. by rewrite Hnil in Hn.
Qed.
Lemma compress_any a b c : returns (CompressClaimCall a b c : M E bytes) (λ _, True).
Proof. apply yields_any. Qed.

(** A new group is one more group, with a number that no group had, the first
    candidates, at most as many as a group may hold, and no claim sent; the groups
    that were there stay as they are. *)
Theorem createNewGroups_fresh p e p' e'
  (Hids : ∀ id, is_Some (pend_GroupTx p !! id) → id ≤ pend_LastGroupTxID p)
  (Hlast : 0 ≤ pend_LastGroupTxID p < 2 ^ 64 - 1)
  (E1 : createNewGroups cfg p e = (Ok p', e')) :
  p' = p ∨ ∃ n group, let id := pend_LastGroupTxID p + 1 in
    pend_GroupTx p !! id = None ∧ pend_GroupTx p' = <[id := group]> (pend_GroupTx p) ∧
    mg_Txs group = set_mtx_GroupID (Some id) <$> take n (pend_TxCandidatesForGroup p) ∧
    (0 < n ≤ length (pend_TxCandidatesForGroup p))%nat ∧
    (0 < gc_MaxNumberOfClaimsPerGroup (mc_grouping cfg) →
       Z.of_nat n ≤ gc_MaxNumberOfClaimsPerGroup (mc_grouping cfg)) ∧
    grp_GroupID (mg_DbEntry group) = id ∧ grp_Status (mg_DbEntry group) = MonitoredTxGroupStatusCreated ∧
    grp_ClaimTxHistory (mg_DbEntry group) = None ∧ is_Some (grp_CompressedTxData (mg_DbEntry group)).
Proof.
  destruct (createNewGroups_spec (λ _, True) p compress_any e p' e' I E1)
    as [->|(time & created & data & Htxs & _ & ->)]; [by left|]. right.
  destruct (ChooseTxs_prefix (mc_grouping cfg) time (pend_TxCandidatesForGroup p)) as (n & Hn & Hlen & Hmax).
  rewrite Hn in Htxs |- *. unfold wrap64. rewrite wrap_id by (unfold in_width; lia).
  assert (Hnone : pend_GroupTx p !! (pend_LastGroupTxID p + 1) = None).
  { apply eq_None_not_Some. intros H. apply Hids in H. lia. }
  exists n, (new_group (pend_LastGroupTxID p + 1) created data (take n (pend_TxCandidatesForGroup p))).
  cbn zeta. unfold AddGroup. cbn [mg_DbEntry new_group grp_GroupID pend_GroupTx]. rewrite Hnone.
  assert (0 < n)%nat by (destruct n; [by rewrite take_0 in Htxs|lia]).
  by split_and!.
Qed.

(** When the contract cannot compress the claims, the group is made all the
    same, with the empty string for its compressed claims, and is never nil: it
    will be sent. *)
Theorem failed_compression_is_stored p e p' e' id group
  (Hfail : ∀ a b c (e1 : E), ∃ err e2, ClaimCompressor_CompressClaimCall a b c e1 = (Err err, e2))
  (E1 : createNewGroups cfg p e = (Ok p', e'))
  (Hnew : pend_GroupTx p !! id = None) (Hgroup : pend_GroupTx p' !! id = Some group) :
  grp_CompressedTxData (mg_DbEntry group) = Some [].
Proof.
  assert (Hc : ∀ a b c, returns (CompressClaimCall a b c : M E bytes) (λ d, d = [])).
  { intros a b c e1 d e2 _. unfold CompressClaimCall, mbind, M_bind, attempt.
    destruct (Hfail a b c e1) as (err & e3 & ->). by intros [= <- _]. }
  destruct (createNewGroups_spec _ p Hc e p' e' I E1) as [->|(time & created & data & _ & -> & ->)]; [congruence|].
  revert Hgroup. unfold AddGroup. cbn [mg_DbEntry new_group grp_GroupID pend_GroupTx].
  destruct (pend_GroupTx p !! wrap64 _) eqn:Hl; cbn [pend_GroupTx set_GroupTx]; [congruence|].
  rewrite lookup_insert. case_decide; [|congruence]. by intros [= <-].
Qed.

(** A group that was there and has used its retries at the end of a pass has
    failed, with all its transactions: the claim sent in this very pass is not
    waited for, and a successful receipt found in it is overruled. *)
Theorem Process_exhausted_fails (ROk : RuntimeOk E) p e p' e' id g
  (E1 : Process cfg p e = (Ok p', e')) (Hold : is_Some (pend_GroupTx p !! id))
  (Hg : pend_GroupTx p' !! id = Some g)
  (Hr : gc_MaxRetries (mc_grouping cfg) ≤ grp_NumRetries (mg_DbEntry g)) :
  grp_Status (mg_DbEntry g) = MonitoredTxGroupStatussFailed ∧
  Forall (λ tx, mtx_Status tx = MonitoredTxStatusFailed) (mg_Txs g).
Proof.
  unfold Process in E1. inv_bind E1. inv_bind H0. inv_bind H2.
  apply (each_group_spec ROk (λ _, True)) in H as (Hd1 & _); [|intros; apply yields_any|done].
  apply (each_group_spec ROk (λ _, True)) in H1 as (Hd2 & _); [|intros; apply yields_any|done].
  apply (each_group_spec ROk exhausted_failed) in H0 as (Hd3 & _ & _ & HQ);
    [|intros; apply outdate_claims_fails|done].
  apply (createNewGroups_spec (λ _, True)) in H3; [|apply compress_any|done].
  assert (Hin : is_Some (pend_GroupTx a1 !! id)).
  { apply elem_of_dom. rewrite Hd3, Hd2, Hd1. by apply elem_of_dom. }
  destruct Hin as [g1 Hg1]. assert (pend_GroupTx p' !! id = Some g1) as Hp'.
  { destruct H3 as [->|(time & created & data & _ & _ & ->)]; [done|]. unfold AddGroup.
    cbn [mg_DbEntry new_group grp_GroupID pend_GroupTx]. destruct (pend_GroupTx a1 !! wrap64 _) eqn:Hw; [done|].
    cbn. rewrite lookup_insert_ne; [done|]. congruence. }
  assert (g1 = g) as -> by congruence. exact (HQ _ _ Hg1 Hr).
Qed.
End GroupProps.
