(* ===== verification/NetTrees.v ===== *)
(** * The exit tree of a network in the tables

    What the tables hold for the deposits of one network, and that it is what
    the tree in memory needs: the link between [sync.deposit], [mt.root] and
    [mt.rht] that appending a deposit and undoing a reorganisation keep. *)
From S2P Require Import Prelude Types Hashing MerkleStore MerkleTree MerkleSpec MerkleTreeFacts.
From S2P Require Import MerkleReset Tables Storage StorageFacts SchemaInv BridgeCtrl.

Section NetTrees.
Context {K : Keccak}.

(** The deposits of [net] are numbered by the leaves [L], without a hole; each
    one has the root of the leaves up to its own and the nodes above it. *)
Record net_stored (t : tables) (net : Z) (height : nat) (L : list bytes) : Prop := {
  ns_deposit d : d ∈ t_deposit t → dep_NetworkID (dr_dep d) = net →
    ∃ k, dep_DepositCount (dr_dep d) = Z.of_nat k ∧ (k < length L)%nat ∧
      (merkle_root height (take (S k) L), dep_Id (dr_dep d), net) ∈ t_root t ∧
      ∀ h, (h < height)%nat →
        node3_row (dep_Id (dr_dep d)) (path_node (take (S k) L) k h) ∈ t_rht t;
  ns_all k : (k < length L)%nat →
    ∃ d, d ∈ t_deposit t ∧ dep_NetworkID (dr_dep d) = net ∧ dep_DepositCount (dr_dep d) = Z.of_nat k;
  ns_root r id : (r, id, net) ∈ t_root t →
    ∃ d, d ∈ t_deposit t ∧ dep_Id (dr_dep d) = id ∧ dep_NetworkID (dr_dep d) = net;
}.

Lemma deposit_id_inj t q d d' : schema_ok t q → d ∈ t_deposit t → d' ∈ t_deposit t →
  dep_Id (dr_dep d) = dep_Id (dr_dep d') → d = d'.
Proof.
  intros Hs Hd Hd' He. apply list_elem_of_lookup in Hd as [i Hi].
  apply list_elem_of_lookup in Hd' as [j Hj].
  assert (i = j) as ->; [|congruence].
  eapply (NoDup_lookup (deposit_ids t)); [apply Hs|unfold deposit_ids; rewrite list_lookup_fmap..].
  - by rewrite Hi.
  - rewrite Hj. cbn. by rewrite He.
Qed.
Lemma root_id_inj t q r r' id net net' : schema_ok t q → (r, id, net) ∈ t_root t →
  (r', id, net') ∈ t_root t → r = r' ∧ net = net'.
Proof.
  intros Hs Hr Hr'. apply list_elem_of_lookup in Hr as [i Hi].
  apply list_elem_of_lookup in Hr' as [j Hj].
  assert (i = j) as ->; [|by simplify_eq].
  apply (f_equal (fmap (λ r : root_row, r.1.2))) in Hi, Hj.
  rewrite <- list_lookup_fmap in Hi, Hj. exact (NoDup_lookup _ i j _ (so_root_id _ _ Hs) Hi Hj).
Qed.

(** The tables give the trees what they need of their store. *)
Lemma net_stored_tree tx db net height L :
  schema_ok (view tx db) (db_seqs db) → net_stored (view tx db) net height L →
  tree_stored tx db net height L.
Proof.
  intros Hs NS. split.
  - intros r d c Hr (dr & Hd & <- & <-)%elem_of_deposit_counts.
    destruct (ns_root _ _ _ _ NS _ _ Hr) as (dr' & Hd' & Hid & Hnet).
    assert (dr' = dr) as -> by (by eapply deposit_id_inj).
    destruct (ns_deposit _ _ _ _ NS dr Hd Hnet) as (k & Hc & Hk & Hr' & _).
    exists k. split_and!; [done|done|]. by destruct (root_id_inj _ _ _ _ _ _ _ Hs Hr Hr').
  - intros k Hk. destruct (ns_all _ _ _ _ NS k Hk) as (dr & Hd & Hnet & Hc).
    destruct (ns_deposit _ _ _ _ NS dr Hd Hnet) as (k' & Hc' & Hk' & Hr & Hn).
    assert (k' = k) as -> by lia. exists (dep_Id (dr_dep dr)).
    split_and!; [done| |done]. apply elem_of_deposit_counts. eauto.
Qed.

(** A network only depends on its own deposits and roots. *)
Lemma net_stored_grow t t' net height L :
  net_stored t net height L →
  (∀ d, dep_NetworkID (dr_dep d) = net → d ∈ t_deposit t' ↔ d ∈ t_deposit t) →
  (∀ r id, (r, id, net) ∈ t_root t' ↔ (r, id, net) ∈ t_root t) →
  (∀ row, row ∈ t_rht t → row ∈ t_rht t') →
  net_stored t' net height L.
Proof.
  intros NS Hd Hr Hn. split.
  - intros d Hin Hnet. apply Hd in Hin; [|done].
    destruct (ns_deposit _ _ _ _ NS d Hin Hnet) as (k & ? & ? & ? & ?).
    exists k. split_and!; [done|done|by apply Hr|auto].
  - intros k Hk. destruct (ns_all _ _ _ _ NS k Hk) as (d & Hin & Hnet & ?).
    exists d. split_and!; [by apply Hd|done|done].
  - intros r id Hin. apply Hr, (ns_root _ _ _ _ NS) in Hin as (d & ? & ? & ?).
    exists d. split_and!; [by apply Hd|done|done].
Qed.

(** The next deposit of the network, with its root and its path. *)
Lemma net_stored_snoc t t' net height L x d :
  net_stored t net height L → dep_NetworkID (dr_dep d) = net →
  dep_DepositCount (dr_dep d) = Z.of_nat (length L) →
  t_deposit t' = t_deposit t ++ [d] →
  t_root t' = t_root t ++ [(merkle_root height (L ++ [x]), dep_Id (dr_dep d), net)] →
  t_rht t' = t_rht t ++ path_rows height (L ++ [x]) (dep_Id (dr_dep d)) →
  net_stored t' net height (L ++ [x]).
Proof.
  intros NS Hnet Hc Hd Hr Hn.
  assert (Hfull : take (S (length L)) (L ++ [x]) = L ++ [x])
    by (apply take_ge; rewrite length_app; simpl; lia).
  split; rewrite ?Hd, ?Hr, ?Hn.
  - intros d0 Hin Hnet0. apply elem_of_app in Hin as [Hin| ->%list_elem_of_singleton].
    + destruct (ns_deposit _ _ _ _ NS d0 Hin Hnet0) as (k & ? & ? & ? & Hnodes).
      exists k. rewrite take_succ_snoc, length_app by done.
      split_and!; [done|lia|apply elem_of_app; by left|].
      intros h Hh. apply elem_of_app. left. auto.
    + exists (length L). rewrite Hfull, length_app. cbn [length].
      split_and!; [done|lia|apply elem_of_app; right; by constructor|].
      intros h Hh. apply elem_of_app. right. unfold path_rows, path_nodes.
      rewrite length_app. cbn [length]. replace (length L + 1 - 1)%nat with (length L) by lia.
      apply list_elem_of_fmap. eexists. split; [done|].
      apply list_elem_of_fmap. exists h. split; [done|]. apply elem_of_seq. lia.
  - intros k. rewrite length_app. cbn [length]. intros Hk.
    destruct (decide (k = length L)) as [->|].
    + exists d. split_and!; [apply elem_of_app; right; by constructor|done|done].
    + destruct (ns_all _ _ _ _ NS k) as (d0 & ? & ? & ?); [lia|].
      exists d0. split_and!; [apply elem_of_app; by left|done|done].
  - intros r id Hin. apply elem_of_app in Hin as [Hin|Hin].
    + destruct (ns_root _ _ _ _ NS r id Hin) as (d0 & ? & ? & ?).
      exists d0. split_and!; [apply elem_of_app; by left|done|done].
    + apply list_elem_of_singleton in Hin as [= -> ->].
      exists d. split_and!; [apply elem_of_app; right; by constructor|done|done].
Qed.

(** ** The trees of the controller *)

(** Every registered network has its tree in memory and in the tables. *)
Definition forest (t : tables) (bt : BridgeController) (Ls : Z → list bytes) : Prop :=
  wf_controller bt ∧
  ∀ net mt, tree_of bt net = Some mt →
    represents mt (Ls net) ∧ mt_networkID mt = net ∧
    net_stored t net (Z.to_nat (mt_height mt)) (Ls net).

(** The deposits of a network got their identifiers in the order of their
    counts. *)
Definition id_order (t : tables) (net : Z) : Prop := ∀ d d', d ∈ t_deposit t → d' ∈ t_deposit t →
  dep_NetworkID (dr_dep d) = net → dep_NetworkID (dr_dep d') = net →
  dep_DepositCount (dr_dep d) < dep_DepositCount (dr_dep d') → dep_Id (dr_dep d) < dep_Id (dr_dep d').

Lemma id_order_snoc t t' height L d net : t_deposit t' = t_deposit t ++ [d] →
  Forall (λ d', dep_Id (dr_dep d') < dep_Id (dr_dep d)) (t_deposit t) →
  net_stored t (dep_NetworkID (dr_dep d)) height L → dep_DepositCount (dr_dep d) = Z.of_nat (length L) →
  id_order t net → id_order t' net.
Proof.
  intros Ht' Hid NS Hc Ho d1 d2. rewrite Ht', !elem_of_app, !list_elem_of_singleton.
  rewrite Forall_forall in Hid. intros [H1| ->] [H2| ->] Hn1 Hn2 Hlt; [by apply Ho|by apply Hid| |lia].
  exfalso. destruct (ns_deposit _ _ _ _ NS d2 H2) as (k & Hk & Hlen & _); [congruence|lia].
Qed.
Lemma id_order_incl t t' net : (∀ d, d ∈ t_deposit t' → d ∈ t_deposit t) → id_order t net → id_order t' net.
Proof. intros Hsub Ho d d' H H'. by apply Ho; apply Hsub. Qed.

Lemma tree_of_net bt net mt : wf_controller bt → tree_of bt net = Some mt → mt_networkID mt = net.
Proof.
  intros Hwf Ht. destruct (tree_of_id _ _ _ Ht) as [tID Hid].
  destruct (Hwf _ _ Hid) as (_ & mt' & E & Hn). unfold tree_of in Ht. rewrite Hid in Ht. cbn in Ht.
  congruence.
Qed.

Definition upd (Ls : Z → list bytes) (net : Z) (L : list bytes) : Z → list bytes :=
  λ n, if decide (n = net) then L else Ls n.
Lemma upd_eq Ls net L : upd Ls net L net = L.
Proof. unfold upd. by rewrite decide_True. Qed.
Lemma upd_ne Ls net L n : n ≠ net → upd Ls net L n = Ls n.
Proof. intros. unfold upd. by rewrite decide_False. Qed.

Lemma forest_update t t' bt bt' Ls net mt' L' :
  forest t bt Ls → only_tree net bt bt' → tree_of bt' net = Some mt' →
  represents mt' L' → mt_networkID mt' = net →
  net_stored t' net (Z.to_nat (mt_height mt')) L' →
  (∀ n h, n ≠ net → net_stored t n h (Ls n) → net_stored t' n h (Ls n)) →
  forest t' bt' (upd Ls net L').
Proof.
  intros [Hwf Hf] (Hwf' & _ & _ & Hother) Ht' Hrep Hnet NS Hgrow. split; [done|].
  intros n mt Hn. destruct (decide (n = net)) as [->|Hne].
  - rewrite upd_eq. by simplify_eq.
  - rewrite upd_ne by done. rewrite Hother in Hn by done.
    destruct (Hf n mt Hn) as (? & ? & ?). split_and!; auto.
Qed.

(** ** The next deposit, in the storage *)

(** The row [sql_add_deposit] writes. *)
Definition stored_deposit (id : Z) (d : Deposit) : deposit_row :=
  mkDepositRow (mkDeposit id (dep_LeafType d) (dep_OriginalNetwork d) (dep_OriginalAddress d)
    (dep_Amount d) (dep_DestinationNetwork d) (dep_DestinationAddress d) (dep_DepositCount d)
    (dep_BlockID d) 0 (dep_NetworkID d) (dep_TxHash d) (dep_Metadata d) false zero_time
    zero_time (dep_DestContractAddress d)) None.

Lemma AddDepositXLayer_live d tx db :
  db_live tx db → dep_BlockID d < 2 ^ 63 → block_exists (dep_BlockID d) (view tx db) = true →
  (dep_NetworkID d, dep_DepositCount d) ∉ deposit_keys (view tx db) →
  let id := sq_deposit (db_seqs db) + 1 in
  ∃ db', AddDepositXLayer d tx db = (Ok id, db') ∧ db_live tx db' ∧
    view tx db' = set_deposit (t_deposit (view tx db) ++ [stored_deposit id d]) (view tx db).
Proof.
  intros Hlive Hb Hex Hkey id.
  assert (∃ q', sql_add_deposit d (view tx db, db_seqs db) = (Ok id,
    (set_deposit (t_deposit (view tx db) ++ [stored_deposit id d]) (view tx db), q'))) as [q' E].
  { unfold sql_add_deposit. destruct (existsb _ _) eqn:Ee.
    - exfalso. apply existsb_exists in Ee as (r & Hr%list_elem_of_In & [Hn Hc]%bool_decide_eq_true).
      apply Hkey, list_elem_of_fmap. exists r. split; [by rewrite Hn, Hc|done].
    - rewrite Hex. by eexists. }
  destruct (exec_live _ _ _ _ _ _ Hlive E) as [db' E'].
  destruct (exec_ok _ _ _ _ _ E') as (q'' & Hm & _ & _ & _ & _ & _ & Hl).
  exists db'. split_and!; [|auto|congruence].
  unfold AddDepositXLayer, int8_param. by rewrite bool_decide_true by done.
Qed.

Lemma exec_keeps_view (Q : tables → Prop) {A} (m : SQL A) :
  (∀ t q a t' q', m (t, q) = (Ok a, (t', q')) → Q t → Q t') →
  preserves (λ db, Q (view open_tx db)) (exec open_tx m).
Proof.
  intros Hm [tb otx q lk fs nw] r db' H. unfold exec, pop_fault, mbind, M_bind. cbn in H |- *.
  assert (∀ fs' m', (m' = m ∨ ∃ e, m' = throw e) →
    run_tx m' (mkDatabase tb otx q lk fs' nw) = (r, db') → Q (view open_tx db')) as Hrun.
  { intros fs' m' Hm'. unfold run_tx. cbn. destruct otx as [[t []]|]; [by intros [= _ <-]| |by intros [= _ <-]].
    destruct Hm' as [->|[e ->]]; [|by intros [= _ <-]].
    destruct (m (t, q)) as [[a|e|p] [t' q']] eqn:E; intros [= _ <-]; [|done|done].
    exact (Hm _ _ _ _ _ E H). }
  destruct fs as [|[c|] fs]; cbn; apply Hrun; eauto.
Qed.

(** What the two statements of a tree keep, a deposit keeps. *)
Section Keeps.
Context (P : database → Prop) (tx : Tx).
Context (Hroot : ∀ r d n, preserves P (SetRoot r d n tx)).
Context (Hbulk : ∀ rows, preserves P (BulkSet rows tx)).

Lemma pres_store {A} (m : M database A) :
  preserves P m → preserves (λ s : MerkleTree * database, P s.2) (on_store m).
Proof.
  intros Hm s r s' H. unfold on_store, zoom. destruct (m s.2) as [r1 db1] eqn:E1.
  intros [= <- <-]. exact (Hm _ _ _ H E1).
Qed.
Lemma pres_leaf depositID leaf n :
  preserves (λ s : MerkleTree * database, P s.2) (addLeaf depositID leaf n tx).
Proof.
  unfold addLeaf. repeat match goal with
  | |- preserves _ (update_mt _) => by apply pres_modify
  | |- preserves _ (on_store _) => apply pres_store; auto
  | |- preserves _ (_ ≫= _) => apply pres_bind; [|intros ?]
  | |- preserves _ (match ?x with _ => _ end) => destruct x
  | |- _ => solve [eauto with pres]
  end.
Qed.
Lemma pres_deposit d id bt db r bt' db' :
  P db → BridgeCtrl.AddDeposit d id tx (bt, db) = (r, (bt', db')) → P db'.
Proof.
  intros H. unfold BridgeCtrl.AddDeposit, mbind, M_bind, lift_res, gets. cbn.
  destruct (hashDeposit d); [|by intros [= _ _ <-]..].
  destruct (GetMerkleTreeID _ _); [|by intros [= _ _ <-]..].
  unfold on_tree. destruct (at_index _ _) as [mt| |]; [|by intros [= _ _ <-]..].
  destruct (addLeaf _ _ _ _ _) as [r1 [mt1 db1]] eqn:E1. intros [= _ _ <-].
  by eapply pres_leaf in E1.
Qed.
End Keeps.

(** The rows of the other tables are not touched by the trees. *)
Lemma AddDeposit_keeps_view D B d depositID bt db r bt' db' :
  t_deposit (view open_tx db) = D ∧ t_block (view open_tx db) = B →
  BridgeCtrl.AddDeposit d depositID open_tx (bt, db) = (r, (bt', db')) →
  t_deposit (view open_tx db') = D ∧ t_block (view open_tx db') = B.
Proof.
  set (Q := λ t : tables, t_deposit t = D ∧ t_block t = B).
  assert (∀ (c1 c2 : tables → bool) e1 e2 (f : tables → tables), (∀ t, Q t → Q (f t)) →
    preserves (λ db, Q (view open_tx db))
      (exec open_tx (t ← select id; require (c1 t) e1;; require (c2 t) e2;; change f))) as Hins.
  { intros c1 c2 e1 e2 f Hf. apply exec_keeps_view. intros t q a t' q'.
    unfold mbind, M_bind, select, gets, require, change, modify. cbn.
    destruct (c1 t); [|done]. destruct (c2 t); [|done]. cbn. intros [= _ <- _]. apply Hf. }
  apply (pres_deposit (λ db, Q (view open_tx db))); intros; apply Hins; by intros t [<- <-].
Qed.
Lemma AddDeposit_db_ok d id tx bt db r bt' db' :
  db_ok db → BridgeCtrl.AddDeposit d id tx (bt, db) = (r, (bt', db')) → db_ok db'.
Proof. apply pres_deposit; intros; [apply pres_SetRoot|apply pres_BulkSet]. Qed.

(** ** The next deposit, in the storage and in the tree *)

(** The keys of the nodes above the last leaf. *)
Definition path_keys (height : nat) (L : list bytes) : list bytes :=
  (λ n : node3, n.1.1) <$> path_nodes L height (length L - 1).

Lemma path_rows_fresh rows height L id :
  NoDup (rht_keys rows) → (∀ row, row ∈ rows → row.2 ≠ id) → NoDup (path_keys height L) →
  NoDup (rht_keys (rows ++ path_rows height L id)).
Proof.
  intros H1 H2 H3. unfold rht_keys. rewrite fmap_app. apply NoDup_app. split_and!; [done| |].
  - intros k (row & -> & Hrow)%list_elem_of_fmap (row' & He & Hrow')%list_elem_of_fmap.
    apply list_elem_of_fmap in Hrow' as (n & -> & _). apply (H2 row Hrow).
    by injection He.
  - unfold path_rows. rewrite <- list_fmap_compose.
    apply (NoDup_fmap_1 (λ p : bytes * Z, p.1)). rewrite <- list_fmap_compose.
    exact H3.
Qed.

(** A deposit with the next count of its network is stored with its root and
    its path, and becomes the last leaf of the tree in memory. *)
Lemma store_deposit_ok d leaf bt Ls mt db :
  let net := dep_NetworkID d in let L := Ls net in let h := Z.to_nat (mt_height mt) in
  forest (view open_tx db) bt Ls → db_ok db → db_live open_tx db →
  tree_of bt net = Some mt → fits mt L →
  hashDeposit d = Ok leaf → dep_DepositCount d = Z.of_nat (length L) →
  dep_BlockID d < 2 ^ 63 → block_exists (dep_BlockID d) (view open_tx db) = true →
  NoDup (path_keys h (L ++ [leaf])) →
  ∃ id bt' mt' db1 db', AddDepositXLayer d open_tx db = (Ok id, db1) ∧
    BridgeCtrl.AddDeposit d id open_tx (bt, db1) = (Ok tt, (bt', db')) ∧
    forest (view open_tx db') bt' (upd Ls net (L ++ [leaf])) ∧ db_live open_tx db' ∧ db_ok db' ∧
    tree_of bt' net = Some mt' ∧ mt_height mt' = mt_height mt ∧
    t_deposit (view open_tx db') = t_deposit (view open_tx db) ++ [stored_deposit id d] ∧
    t_block (view open_tx db') = t_block (view open_tx db) ∧
    Forall (λ d', dep_Id (dr_dep d') < id) (t_deposit (view open_tx db)).
Proof.
  intros net L h Hf Hok Hlive Ht Hfits Hleaf Hcount Hb Hex Hpath.
  assert (Hs : schema_ok (view open_tx db) (db_seqs db)).
  { destruct Hok as [_ Hok], Hlive as [_ [t E]]. unfold view. by rewrite E in Hok |- *. }
  destruct Hf as [Hwf Hf]. destruct (Hf net mt Ht) as (Hrep & Hnet & NS).
  assert (Hkey : (net, dep_DepositCount d) ∉ deposit_keys (view open_tx db)).
  { intros (d0 & [= Hn0 Hc0] & Hin)%list_elem_of_fmap.
    destruct (ns_deposit _ _ _ _ NS d0 Hin) as (k & ? & ? & _); [done|]. fold L in H0. lia. }
  destruct (AddDepositXLayer_live d open_tx db Hlive Hb Hex Hkey) as (db1 & E1 & Hl1 & Hv1).
  set (id := sq_deposit (db_seqs db) + 1) in *.
  assert (Hfresh : ∀ i, i ∈ deposit_ids (view open_tx db) → i ≠ id).
  { intros i Hi ->. pose proof (so_deposit_seq _ _ Hs) as Hq. rewrite Forall_forall in Hq.
    specialize (Hq _ Hi). lia. }
  assert (Hok1 := pres_AddDepositXLayer d open_tx _ _ _ Hok E1).
  assert (Hs1 : schema_ok (view open_tx db1) (db_seqs db1)).
  { destruct Hok1 as [_ Hok1], Hl1 as [_ [t E]]. unfold view. by rewrite E in Hok1 |- *. }
  assert (Hgrow : ∀ n hh, n ≠ net → net_stored (view open_tx db) n hh (Ls n) →
    net_stored (view open_tx db1) n hh (Ls n)).
  { intros n hh Hn NS'. eapply net_stored_grow; [exact NS'| | |]; rewrite Hv1; cbn; [|done|done].
    intros d0 Hd0. rewrite elem_of_app, list_elem_of_singleton. split; [|by left].
    by intros [?| ->]. }
  assert (Hinv : tree_inv open_tx mt db1 L).
  { split; [done|]. destruct (net_stored_tree open_tx db net h L Hs NS) as [TR1 TR2].
    rewrite Hnet. split; unfold roots, nodes, deposit_counts; cbn [pgStoreOk];
      unfold pg_roots, pg_nodes, pg_deposit_counts; rewrite Hv1; cbn [t_root t_rht t_deposit set_deposit].
    - intros r i c Hr. rewrite fmap_app, elem_of_app. intros [Hc|Hc]; [by eapply TR1|].
      apply list_elem_of_singleton in Hc as [= -> ->]. exfalso.
      destruct (ns_root _ _ _ _ NS _ _ Hr) as (d0 & Hd0 & Hid & _).
      apply (Hfresh (dep_Id (dr_dep d0))); [|done]. apply list_elem_of_fmap. by exists d0.
    - intros k Hk. destruct (TR2 k Hk) as (i & ? & ? & ?). exists i. split_and!; [done| |done].
      rewrite fmap_app, elem_of_app. by left. }
  destruct (AddDeposit_ok bt mt L d leaf id open_tx db1 Hwf Ht Hleaf Hcount Hinv Hfits Hl1)
    as (bt' & mt' & db' & E2 & Ht' & [Hrep' _] & Honly & Hl' & Hr' & Hn' & Hh').
  - unfold next_deposit, deposit_counts, roots. cbn [pgStoreOk]. unfold pg_deposit_counts, pg_roots.
    rewrite Hv1. cbn [t_deposit t_root set_deposit]. rewrite fmap_app. split_and!.
    + rewrite <- Hcount. apply elem_of_app. right. by constructor.
    + intros c [Hc|Hc]%elem_of_app.
      * apply list_elem_of_fmap in Hc as (d0 & [= Hid ->] & Hd0). exfalso.
        apply (Hfresh (dep_Id (dr_dep d0))); [|done]. apply list_elem_of_fmap. by exists d0.
      * apply list_elem_of_singleton in Hc as [= ->]. done.
    + intros r n Hr. pose proof (so_root_fk _ _ Hs) as Hfk. rewrite Forall_forall in Hfk.
      by apply (Hfresh id (Hfk _ Hr)).
  - unfold nodes. cbn [pgStoreOk]. unfold pg_nodes. rewrite Hv1. cbn [t_rht set_deposit].
    apply path_rows_fresh; [apply Hs| |done].
    intros row Hrow. apply Hfresh. pose proof (so_rht_fk _ _ Hs) as Hfk.
    rewrite Forall_forall in Hfk. by apply Hfk.
  - destruct (AddDeposit_keeps_view _ _ _ _ _ _ _ _ _ (conj eq_refl eq_refl) E2) as [Hd' Hb'].
    rewrite Hv1 in Hd', Hb'. cbn [t_deposit t_block set_deposit] in Hd', Hb'.
    assert (Hroots : t_root (view open_tx db') = t_root (view open_tx db) ++
      [(merkle_root h (L ++ [leaf]), id, net)]).
    { unfold roots in Hr'. cbn [pgStoreOk] in Hr'. unfold pg_roots in Hr'.
      rewrite Hr', Hv1, Hnet. done. }
    assert (Hnodes : t_rht (view open_tx db') = t_rht (view open_tx db) ++ path_rows h (L ++ [leaf]) id).
    { unfold nodes in Hn'. cbn [pgStoreOk] in Hn'. unfold pg_nodes in Hn'. by rewrite Hn', Hv1. }
    exists id, bt', mt', db1, db'.
    split_and!; [done|done| |done|by eapply AddDeposit_db_ok|done|done|done|done|].
    2: { pose proof (so_deposit_seq _ _ Hs) as Hq. rewrite Forall_forall in Hq. apply Forall_forall. intros d0 Hd0.
         assert (dep_Id (dr_dep d0) ≤ sq_deposit (db_seqs db)); [|lia]. apply Hq, list_elem_of_fmap. by exists d0. }
    eapply (forest_update (view open_tx db)); [by split|exact Honly|exact Ht'|done| | |].
    + destruct Honly as (Hwf' & _). by eapply tree_of_net.
    + rewrite Hh'. eapply (net_stored_snoc _ _ net h L leaf (stored_deposit id d)); done.
    + intros n hh Hn NS'. eapply net_stored_grow; [exact NS'| | |].
      * intros d0 Hd0. rewrite Hd', elem_of_app, list_elem_of_singleton.
        split; [|by left]. by intros [?| ->].
      * intros r i. rewrite Hroots, elem_of_app, list_elem_of_singleton.
        split; [|by left]. by intros [?|[= _ _ ->]].
      * intros row Hrow. rewrite Hnodes. apply elem_of_app. by left.
Qed.
End NetTrees.
