(* ===== verification/SyncFacts.v ===== *)
(** * What the synchronizer stores

    A block of deposits extends the exit tree of its network, in memory and in
    the committed tables; a deposit that is not the next one is refused. *)
From S2P Require Import Prelude Types Hashing MerkleStore MerkleTree MerkleSpec MerkleTreeFacts.
From S2P Require Import Tables Storage StorageFacts SchemaInv Transactions BridgeCtrl NetTrees.
From S2P Require Import MessageBridge Synchronizer SyncAtomic.

Lemma hashDeposit_ids `{Keccak} blockID net d : hashDeposit (set_dep_ids blockID net d) = hashDeposit d.
Proof. done. Qed.

Section SyncFacts.
Context {K : Keccak} {Abi : TokenAbi} {E : Type} {Env : Environment E} (cfg : Config).
Abbreviation St := (ClientSynchronizer E).
Abbreviation net := (cfg_networkID cfg).

(** ** Running a part of the state *)
Lemma on_db_run {A} (m : M database A) (s : St) r db' :
  m (ss_db s) = (r, db') → on_db m s = (r, set_db db' s).
Proof. unfold on_db, zoom. by intros ->. Qed.
Lemma on_ctrl_run {A} (m : M (BridgeController * database) A) (s : St) r p :
  m (ss_ctrl s, ss_db s) = (r, p) → on_ctrl m s = (r, set_ctrl_db p s).
Proof. unfold on_ctrl, zoom. by intros ->. Qed.
Lemma or_rollback_ok {A} tx (m : M St A) s a s' : m s = (Ok a, s') → or_rollback tx m s = (Ok a, s').
Proof. unfold or_rollback, mbind, M_bind, attempt. by intros ->. Qed.

(** A failed call is rolled back and returned. *)
Lemma or_rollback_err {A} (m : M St A) s e s' t :
  m s = (Err e, s') → db_tx (ss_db s') = Some t →
  or_rollback open_tx m s = (Err e, set_db (set_tx None (ss_db s')) s').
Proof.
  intros Em Et. unfold or_rollback, fail_rollback, mbind, M_bind, attempt. rewrite Em.
  unfold on_db, zoom, Rollback. by rewrite Et.
Qed.

(** ** Deposits *)

(** The state inside the transaction of a block: the trees are those of
    [Ls], and the row of the block is there. *)
Record in_block (Ls : Z → list bytes) (blockID : Z) (s : St) : Prop := {
  ib_forest : forest (view open_tx (ss_db s)) (ss_ctrl s) Ls;
  ib_ok : db_ok (ss_db s);
  ib_live : db_live open_tx (ss_db s);
  ib_block : block_exists blockID (view open_tx (ss_db s)) = true;
}.

(** The deposits follow the leaves [L] of a tree of the given height. *)
Fixpoint follow (height : nat) (L : list bytes) (ds : list Deposit) (leaves : list bytes) : Prop :=
  match ds, leaves with
  | [], [] => True
  | d :: ds, x :: leaves =>
      hashDeposit d = Ok x ∧ dep_DepositCount d = Z.of_nat (length L) ∧
      NoDup (path_keys height (L ++ [x])) ∧ follow height (L ++ [x]) ds leaves
  | _, _ => False
  end.

(** The row of a deposit of a block. *)
Definition stored_as (blockID : Z) (d : Deposit) (r : deposit_row) : Prop :=
  ∃ id, r = stored_deposit id (set_dep_ids blockID net d).

Lemma run_deposit Ls blockID s mt d x :
  in_block Ls blockID s → cfg_redis cfg = false → blockID < 2 ^ 63 →
  tree_of (ss_ctrl s) net = Some mt → fits mt (Ls net) →
  hashDeposit d = Ok x → dep_DepositCount d = Z.of_nat (length (Ls net)) →
  NoDup (path_keys (Z.to_nat (mt_height mt)) (Ls net ++ [x])) →
  ∃ s' mt', processDeposit cfg d blockID open_tx s = (Ok tt, s') ∧
    in_block (upd Ls net (Ls net ++ [x])) blockID s' ∧
    tree_of (ss_ctrl s') net = Some mt' ∧ mt_height mt' = mt_height mt ∧
    ss_sent s' = ss_sent s ∧ ss_env s' = ss_env s ∧
    db_committed (ss_db s') = db_committed (ss_db s) ∧
    (∃ r, stored_as blockID d r ∧ t_deposit (view open_tx (ss_db s')) = t_deposit (view open_tx (ss_db s)) ++ [r]) ∧
    ∀ n, id_order (view open_tx (ss_db s)) n → id_order (view open_tx (ss_db s')) n.
Proof.
  intros [Hf Hok Hl Hb] Hredis Hid Ht Hfits Hx Hc Hpath.
  set (d' := set_dep_ids blockID net d).
  destruct (store_deposit_ok d' x (ss_ctrl s) Ls mt (ss_db s) Hf Hok Hl Ht Hfits)
    as (id & bt' & mt' & db1 & db' & E1 & E2 & Hf' & Hl' & Hok' & Ht' & Hh & Hd' & Hb' & Hids); try done.
  exists (set_ctrl_db (bt', db') (set_db db1 s)), mt'. split.
  - unfold processDeposit. rewrite Hredis. fold d'.
    erewrite M_bind_ok by done. cbn zeta. fold d'.
    erewrite M_bind_ok by (apply or_rollback_ok, on_db_run, E1).
    erewrite M_bind_ok by (apply or_rollback_ok, on_ctrl_run, E2). done.
  - split_and!; try done; [split; try done| | |].
    + unfold block_exists. cbn [ss_db set_ctrl_db snd]. rewrite Hb'. exact Hb.
    + cbn [ss_db set_ctrl_db snd]. set (P := λ db, db_committed db = db_committed (ss_db s)).
      assert (P db1) as H1.
      { refine (pres_bind P _ _ (pres_int8 P _) _ _ _ _ eq_refl E1).
        intros _. apply exec_keeps_committed. }
      eapply (pres_deposit P open_tx); [..|exact H1|exact E2]; intros; apply exec_keeps_committed.
    + exists (stored_deposit id d'). split; [by exists id|exact Hd'].
    + intros n. destruct Hf as [_ Hf]. destruct (Hf net mt Ht) as (_ & _ & NS).
      by apply (id_order_snoc _ _ (Z.to_nat (mt_height mt)) (Ls net) (stored_deposit id d')).
Qed.

Lemma run_deposits block blockID ds : ∀ Ls s mt leaves pos flags,
  in_block Ls blockID s → cfg_redis cfg = false → blockID < 2 ^ 63 →
  tree_of (ss_ctrl s) net = Some mt →
  follow (Z.to_nat (mt_height mt)) (Ls net) ds leaves →
  (length (Ls net) + length ds ≤ 2 ^ Z.to_nat (mt_height mt))%nat →
  Z.of_nat (length (Ls net) + length ds) < 2 ^ 32 →
  drop pos (blk_Deposits block) = ds →
  ∃ s' Ls', processElements cfg block blockID open_tx
      ((λ i, mkOrder DepositsOrder (Z.of_nat i)) <$> seq pos (length ds)) flags s = (Ok flags, s') ∧
    in_block Ls' blockID s' ∧ Ls' net = Ls net ++ leaves ∧ (∀ n, n ≠ net → Ls' n = Ls n) ∧
    ss_sent s' = ss_sent s ∧ ss_env s' = ss_env s ∧
    db_committed (ss_db s') = db_committed (ss_db s) ∧
    (∃ mt', tree_of (ss_ctrl s') net = Some mt' ∧ mt_height mt' = mt_height mt) ∧
    (∃ rows, Forall2 (stored_as blockID) ds rows ∧
      t_deposit (view open_tx (ss_db s')) = t_deposit (view open_tx (ss_db s)) ++ rows) ∧
    ∀ n, id_order (view open_tx (ss_db s)) n → id_order (view open_tx (ss_db s')) n.
Proof.
  induction ds as [|d ds IH]; intros Ls s mt leaves pos flags Hin Hredis Hid Ht Hfo Hfit H32 Hpos.
  { destruct leaves; [|done]. exists s, Ls. rewrite app_nil_r. split_and!; try done; [by exists mt| ]. exists []. by rewrite app_nil_r. }
  destruct leaves as [|x leaves]; [done|]. destruct Hfo as (Hx & Hc & Hpath & Hfo).
  cbn [length] in Hfit, H32.
  destruct (run_deposit Ls blockID s mt d x) as (s1 & mt1 & E1 & Hin1 & Ht1 & Hh1 & Hs1 & He1 & Hc1 & (r & Hr & Hrow) & Ho1);
    try done.
  { split; lia. }
  assert (Hd : blk_Deposits block !! pos = Some d).
  { rewrite <- (Nat.add_0_r pos), <- lookup_drop, Hpos. done. }
  assert (Hlt := lookup_lt_Some _ _ _ Hd).
  destruct (IH _ s1 mt1 leaves (S pos) flags Hin1 Hredis Hid Ht1)
    as (s' & Ls' & E2 & Hin' & HL' & Hn' & Hs' & He' & Hc' & (mt2 & Ht2 & Hh2) & (rows & Hrows & Hall) & Ho).
  - by rewrite Hh1, upd_eq.
  - rewrite upd_eq, length_app, Hh1. cbn [length]. lia.
  - rewrite upd_eq, length_app. cbn [length]. lia.
  - replace (S pos) with (pos + 1)%nat by lia. by rewrite <- drop_drop, Hpos.
  - exists s', Ls'. split; [|split_and!].
    + cbn [length seq fmap list_fmap processElements].
      rewrite (M_bind_ok _ _ _ flags s1); [exact E2|].
      unfold processElement, ordered. cbn [ord_Name ord_Pos].
      rewrite bool_decide_false by lia. rewrite (M_bind_ok _ _ _ d s).
      * by erewrite M_bind_ok by exact E1.
      * unfold lift_res. by rewrite at_index_nat, Hd.
    + done.
    + by rewrite HL', upd_eq, <- app_assoc.
    + intros n Hn. by rewrite Hn', upd_ne.
    + congruence.
    + congruence.
    + congruence.
    + exists mt2. split; [done|congruence].
    + exists (r :: rows). split; [by constructor|]. by rewrite Hall, Hrow, <- app_assoc.
    + auto.
Qed.

(** ** Blocks *)

Lemma begin_live db : db_faults db = [] →
  ∃ db', BeginDBTransaction db = (Ok open_tx, db') ∧ db_live open_tx db' ∧
    view open_tx db' = db_committed db ∧ db_committed db' = db_committed db ∧ db_seqs db' = db_seqs db.
Proof.
  destruct db as [tb otx q lk fs nw]. cbn. intros ->. eexists. split; [done|].
  split_and!; [|done..]. split; [done|]. eexists. done.
Qed.
Lemma commit_live db : db_live open_tx db →
  ∃ db', Commit open_tx db = (Ok tt, db') ∧ db_committed db' = view open_tx db ∧
    db_tx db' = None ∧ db_faults db' = [].
Proof.
  destruct db as [tb otx q lk fs nw]. intros [Hfs [t Ht]]. cbn in Hfs, Ht. subst.
  eexists. split; [done|]. done.
Qed.

(** A block is found by its hash or added; the forest does not look at blocks. *)
Lemma AddBlock_live block db :
  db_live open_tx db → db_ok db → blk_BlockNumber block < 2 ^ 63 →
  ∃ id db', AddBlock block open_tx db = (Ok id, db') ∧ db_live open_tx db' ∧ db_ok db' ∧
    id ≤ sq_block (db_seqs db) + 1 ∧ block_exists id (view open_tx db') = true ∧
    db_committed db' = db_committed db ∧ t_deposit (view open_tx db') = t_deposit (view open_tx db) ∧
    (∀ bt Ls, forest (view open_tx db) bt Ls → forest (view open_tx db') bt Ls).
Proof.
  intros Hl Hok Hn. set (st := sql_add_block (blk_BlockNumber block) (blk_BlockHash block)
    (blk_NetworkID block) (blk_ReceivedAt block)).
  assert (∃ id t' q', st (view open_tx db, db_seqs db) = (Ok id, (t', q')) ∧
    id ≤ sq_block (db_seqs db) + 1 ∧ block_exists id t' = true ∧
    t_deposit t' = t_deposit (view open_tx db) ∧ t_root t' = t_root (view open_tx db) ∧
    t_rht t' = t_rht (view open_tx db)) as (id & t' & q' & Est & Hid & Hex & Hd & Hr & Hh).
  { assert (Hs : schema_ok (view open_tx db) (db_seqs db)).
    { destruct Hok as [_ Hok], Hl as [_ [t Et]]. unfold view. by rewrite Et in Hok |- *. }
    unfold st, sql_add_block. destruct (list_find _ _) as [[i b]|] eqn:Ef.
    - apply list_find_Some in Ef as (Hb & _ & _). apply list_elem_of_lookup_2 in Hb.
      eexists _, _, _. split; [done|]. split_and!; [|by apply block_exists_spec; eauto|done..].
      pose proof (so_block_seq _ _ Hs) as Hq. rewrite Forall_forall in Hq.
      specialize (Hq (b_id b)). unfold block_ids in Hq. rewrite list_elem_of_fmap in Hq.
      assert (b_id b ≤ sq_block (db_seqs db)) by eauto. lia.
    - eexists _, _, _. split; [done|]. split_and!; [lia| |done..].
      apply block_exists_spec. eexists. split; [apply elem_of_app; right; by constructor|done]. }
  destruct (exec_live _ _ _ _ _ _ Hl Est) as [db' Ex].
  destruct (exec_ok _ _ _ _ _ Ex) as (q'' & Hm & _ & Hopen & _ & _ & _ & Hl').
  assert (view open_tx db' = t') as Hv by congruence.
  destruct (Hopen eq_refl) as (_ & _ & _ & _ & Hcom).
  assert (Ea : AddBlock block open_tx db = (Ok id, db')).
  { unfold AddBlock, int8_param. by rewrite bool_decide_true by done. }
  exists id, db'. rewrite Hv. split_and!; [done|auto|by eapply pres_AddBlock|done|done|done|done|].
  intros bt Ls [Hwf Hf]. split; [done|]. intros n mt Hn'. destruct (Hf n mt Hn') as (? & ? & NS).
  split_and!; [done|done|]. eapply net_stored_grow; [exact NS|..]; rewrite ?Hd, ?Hr, ?Hh; done.
Qed.

(** The root of the last leaf is the one the storage finds. *)
Lemma forest_root Ls tx db bt n mt k :
  forest (view tx db) bt Ls → schema_ok (view tx db) (db_seqs db) → db_live tx db →
  tree_of bt n = Some mt → (k < length (Ls n))%nat →
  ∃ db', GetRoot (Z.of_nat k) n tx db =
    (Ok (merkle_root (Z.to_nat (mt_height mt)) (take (S k) (Ls n))), db').
Proof.
  intros [_ Hf] Hs Hl Ht Hk. destruct (Hf n mt Ht) as (_ & _ & NS).
  pose proof (net_stored_tree tx db n _ _ Hs NS) as [TR1 TR2].
  destruct (TR2 k Hk) as (d & Hr & Hc & _).
  destruct (pg_GetRoot_live (Z.of_nat k) n tx db _ d Hl Hr Hc) as (r' & db' & Eg).
  exists db'. rewrite Eg. destruct (pg_GetRoot_ok _ _ _ _ _ _ Eg) as ((d' & Hr' & Hc') & _).
  destruct (TR1 r' d' _ Hr' Hc') as (k' & Hk' & _ & ->). by assert (k' = k) as -> by lia.
Qed.

(** A deposit that is not the next one of its tree is rolled back. *)
Lemma deposit_refused blockID s mt d x :
  wf_controller (ss_ctrl s) → tree_of (ss_ctrl s) net = Some mt → cfg_redis cfg = false →
  db_live open_tx (ss_db s) → blockID < 2 ^ 63 → block_exists blockID (view open_tx (ss_db s)) = true →
  (net, dep_DepositCount d) ∉ deposit_keys (view open_tx (ss_db s)) →
  hashDeposit d = Ok x → dep_DepositCount d ≠ mt_count mt →
  ∃ s', processDeposit cfg d blockID open_tx s =
      (Err (Errorf "mismatched deposit count: %d, expected: %d" [dep_DepositCount d; mt_count mt]), s') ∧
    ss_ctrl s' = ss_ctrl s ∧ db_tx (ss_db s') = None ∧ db_faults (ss_db s') = [].
Proof.
  intros Hwf Ht Hredis Hl Hid Hb Hkey Hx Hc. set (d' := set_dep_ids blockID net d).
  destruct (AddDepositXLayer_live d' open_tx (ss_db s) Hl Hid Hb Hkey) as (db1 & E1 & Hl1 & _).
  destruct (Hl1) as [Hfa1 [t1 Htx1]].
  eexists. split; [|split; [|split]].
  - unfold processDeposit. rewrite Hredis. erewrite M_bind_ok by done. cbn zeta. fold d'.
    erewrite M_bind_ok by (apply or_rollback_ok, on_db_run, E1).
    apply M_bind_err. eapply or_rollback_err.
    + apply on_ctrl_run, (AddDeposit_mismatch _ mt d' x); done.
    + exact Htx1.
  - done.
  - done.
  - exact Hfa1.
Qed.

(** ** Properties *)

(** What processing such a block does. *)
Lemma processBlock_run block order flags s Ls mt leaves
  (Hf : forest (db_committed (ss_db s)) (ss_ctrl s) Ls) (Hok : db_ok (ss_db s))
  (Hlive : db_faults (ss_db s) = []) (Hredis : cfg_redis cfg = false)
  (Hn : blk_BlockNumber block < 2 ^ 63) (Hseq : sq_block (db_seqs (ss_db s)) + 1 < 2 ^ 63)
  (Ht : tree_of (ss_ctrl s) net = Some mt)
  (Hfo : follow (Z.to_nat (mt_height mt)) (Ls net) (blk_Deposits block) leaves)
  (Hfit : (length (Ls net) + length (blk_Deposits block) ≤ 2 ^ Z.to_nat (mt_height mt))%nat)
  (H32 : Z.of_nat (length (Ls net) + length (blk_Deposits block)) < 2 ^ 32)
  (Horder : order !! blk_BlockHash block =
     Some ((λ i, mkOrder DepositsOrder (Z.of_nat i)) <$> seq 0 (length (blk_Deposits block)))) :
  ∃ s' Ls', processBlock cfg block order flags s = (Ok flags, s') ∧
    forest (db_committed (ss_db s')) (ss_ctrl s') Ls' ∧
    Ls' net = Ls net ++ leaves ∧ (∀ n, n ≠ net → Ls' n = Ls n) ∧
    db_tx (ss_db s') = None ∧ db_ok (ss_db s') ∧ ss_sent s' = ss_sent s ∧ db_faults (ss_db s') = [] ∧
    (∃ mt', tree_of (ss_ctrl s') net = Some mt' ∧ mt_height mt' = mt_height mt) ∧
    (∃ id rows, Forall2 (stored_as id) (blk_Deposits block) rows ∧
      t_deposit (db_committed (ss_db s')) = t_deposit (db_committed (ss_db s)) ++ rows) ∧
    ∀ n, id_order (db_committed (ss_db s)) n → id_order (db_committed (ss_db s')) n.
Proof.
  destruct (begin_live (ss_db s) Hlive) as (db1 & E1 & Hl1 & Hv1 & Hc1 & Hq1).
  assert (Hok1 := pres_BeginDBTransaction _ _ _ Hok E1).
  set (block' := set_blk_NetworkID net block).
  destruct (AddBlock_live block' db1 Hl1 Hok1 Hn) as (id & db2 & E2 & Hl2 & Hok2 & Hid & Hex & Hc2 & Hd2 & Hf2).
  rewrite Hq1 in Hid. set (s2 := set_db db2 (set_db db1 s)).
  destruct (run_deposits block' id (blk_Deposits block') Ls s2 mt leaves 0 flags)
    as (s3 & Ls' & E3 & [Hf3 Hok3 Hl3 Hb3] & HL & Hother & Hsent & _ & _ & Hmt & (rows & Hrows & Hall) & Ho); try done.
  { split; [|done..]. apply Hf2. by rewrite Hv1. }
  { lia. }
  destruct (commit_live _ Hl3) as (db4 & E4 & Hc4 & Htx4 & Hfa4).
  assert (Hok4 := pres_Commit open_tx _ _ _ Hok3 E4).
  exists (set_db db4 s3), Ls'. split_and!; try done.
  - unfold processBlock. erewrite M_bind_ok by (apply on_db_run, E1). cbn zeta. fold block'.
    erewrite M_bind_ok by (apply or_rollback_ok, on_db_run, E2). fold s2.
    change (blk_BlockHash block') with (blk_BlockHash block). rewrite Horder. cbn [default].
    erewrite M_bind_ok by exact E3.
    by erewrite M_bind_ok by (apply or_rollback_ok, on_db_run, E4).
  - cbn. by rewrite Hc4.
  - exists id, rows. split; [exact Hrows|]. cbn [ss_db set_db]. rewrite Hc4, Hall. cbn [ss_db set_db s2]. by rewrite Hd2, Hv1.
  - intros n Hn0. cbn [ss_db set_db]. rewrite Hc4. apply Ho. revert Hn0. apply id_order_incl.
    intros d. cbn [ss_db set_db s2]. by rewrite Hd2, Hv1.
Qed.

(** C2. A block of deposits that follow the leaves of its network is stored, by a
    synchronizer without Redis and on a database that answers: processing it succeeds, and after the commit the tree in memory and the
    committed tables hold the old leaves and the new ones, the other networks
    are as before, and the root stored for every deposit of the network is the
    Merkle root of the leaves up to it. *)
Theorem processBlock_appends block order flags s Ls mt leaves
  (Hf : forest (db_committed (ss_db s)) (ss_ctrl s) Ls) (Hok : db_ok (ss_db s))
  (Hlive : db_faults (ss_db s) = []) (Hredis : cfg_redis cfg = false)
  (Hn : blk_BlockNumber block < 2 ^ 63) (Hseq : sq_block (db_seqs (ss_db s)) + 1 < 2 ^ 63)
  (Ht : tree_of (ss_ctrl s) net = Some mt)
  (Hfo : follow (Z.to_nat (mt_height mt)) (Ls net) (blk_Deposits block) leaves)
  (Hfit : (length (Ls net) + length (blk_Deposits block) ≤ 2 ^ Z.to_nat (mt_height mt))%nat)
  (H32 : Z.of_nat (length (Ls net) + length (blk_Deposits block)) < 2 ^ 32)
  (Horder : order !! blk_BlockHash block =
     Some ((λ i, mkOrder DepositsOrder (Z.of_nat i)) <$> seq 0 (length (blk_Deposits block)))) :
  ∃ s' Ls', processBlock cfg block order flags s = (Ok flags, s') ∧
    forest (db_committed (ss_db s')) (ss_ctrl s') Ls' ∧
    Ls' net = Ls net ++ leaves ∧ (∀ n, n ≠ net → Ls' n = Ls n) ∧
    db_tx (ss_db s') = None ∧ db_ok (ss_db s') ∧ ss_sent s' = ss_sent s ∧
    ∀ k mt', tree_of (ss_ctrl s') net = Some mt' → (k < length (Ls' net))%nat →
      ∃ db', GetRoot (Z.of_nat k) net nil_tx (ss_db s') =
        (Ok (merkle_root (Z.to_nat (mt_height mt')) (take (S k) (Ls net ++ leaves))), db').
Proof.
  destruct (processBlock_run block order flags s Ls mt leaves)
    as (s' & Ls' & Erun & Hf' & HL & Hother & Htx & Hok' & Hsent & Hfa & _); try done.
  exists s', Ls'. split_and!; try done. intros k mt' Ht' Hk. rewrite <- HL.
  apply (forest_root Ls' nil_tx (ss_db s') (ss_ctrl s')); try done. apply Hok'.
Qed.

(** A tree in memory that is not where the tables are never catches up:
    the block that brings the next deposit of the tables is refused with a
    mismatched deposit count, and leaves the tree and the tables as they are
    for the next attempt, which is refused in the same way. *)
Theorem behind_tree_refuses_block block order flags s mt d ds x os
  (Hwf : wf_controller (ss_ctrl s)) (Ht : tree_of (ss_ctrl s) net = Some mt)
  (Hredis : cfg_redis cfg = false) (Hok : db_ok (ss_db s)) (Hlive : db_faults (ss_db s) = [])
  (Hn : blk_BlockNumber block < 2 ^ 63) (Hseq : sq_block (db_seqs (ss_db s)) + 1 < 2 ^ 63)
  (Hkey : (net, dep_DepositCount d) ∉ deposit_keys (db_committed (ss_db s)))
  (Hx : hashDeposit d = Ok x) (Hc : dep_DepositCount d ≠ mt_count mt)
  (Hds : blk_Deposits block = d :: ds)
  (Horder : order !! blk_BlockHash block = Some (mkOrder DepositsOrder 0 :: os)) :
  ∃ s', processBlock cfg block order flags s =
      (Err (Errorf "mismatched deposit count: %d, expected: %d" [dep_DepositCount d; mt_count mt]), s') ∧
    ss_ctrl s' = ss_ctrl s ∧ db_committed (ss_db s') = db_committed (ss_db s) ∧
    db_tx (ss_db s') = None ∧ db_faults (ss_db s') = [].
Proof.
  destruct (begin_live (ss_db s) Hlive) as (db1 & E1 & Hl1 & Hv1 & Hc1 & Hq1).
  assert (Hok1 := pres_BeginDBTransaction _ _ _ Hok E1).
  set (block' := set_blk_NetworkID net block).
  destruct (AddBlock_live block' db1 Hl1 Hok1 Hn) as (id & db2 & E2 & Hl2 & Hok2 & Hid & Hex & Hc2 & Hd2 & Hf2).
  rewrite Hq1 in Hid. set (s2 := set_db db2 (set_db db1 s)).
  destruct (deposit_refused id s2 mt d x) as (s3 & E3 & Hctrl & Htx & Hfa); try done.
  { lia. }
  { cbn [s2 ss_db set_db]. unfold deposit_keys. by rewrite Hd2, Hv1. }
  assert (Ep : processBlock cfg block order flags s =
    (Err (Errorf "mismatched deposit count: %d, expected: %d" [dep_DepositCount d; mt_count mt]), s3)).
  { unfold processBlock. erewrite M_bind_ok by (apply on_db_run, E1). cbn zeta. fold block'.
    erewrite M_bind_ok by (apply or_rollback_ok, on_db_run, E2). fold s2.
    change (blk_BlockHash block') with (blk_BlockHash block). rewrite Horder. cbn [default].
    apply M_bind_err. cbn [processElements]. apply M_bind_err. unfold processElement, ordered.
    cbn [ord_Name ord_Pos]. change (blk_Deposits block') with (blk_Deposits block). rewrite Hds.
    rewrite bool_decide_false by (cbn [length]; lia).
    rewrite (M_bind_ok _ _ _ d s2) by done. by apply M_bind_err. }
  exists s3. split; [exact Ep|]. split_and!; [done| |done|done].
  exact (processBlock_keeps cfg _ block order flags s _ s3 eq_refl Ep eq_refl).
Qed.

(** A block whose events are out of order is refused, but the transaction
    that was begun for it is neither committed nor rolled back: it stays open,
    and the next block that begins leaves it behind. *)
Theorem messy_event_leaves_transaction block order flags s pos os
  (Hlive : db_faults (ss_db s) = []) (Hok : db_ok (ss_db s)) (Hn : blk_BlockNumber block < 2 ^ 63)
  (Horder : order !! blk_BlockHash block = Some (mkOrder DepositsOrder pos :: os))
  (Hpos : Z.of_nat (length (blk_Deposits block)) ≤ pos) :
  ∃ s', processBlock cfg block order flags s = (Err (ErrMessyEvents "deposits"), s') ∧
    db_tx (ss_db s') ≠ None ∧
    ∃ db'', BeginDBTransaction (ss_db s') = (Ok open_tx, db'') ∧
      db_leaked db'' = (db_leaked (ss_db s') + 1)%nat.
Proof.
  destruct (begin_live (ss_db s) Hlive) as (db1 & E1 & Hl1 & Hv1 & Hc1 & Hq1).
  assert (Hok1 := pres_BeginDBTransaction _ _ _ Hok E1).
  set (block' := set_blk_NetworkID net block).
  destruct (AddBlock_live block' db1 Hl1 Hok1 Hn) as (id & db2 & E2 & [Hfa2 [t2 Ht2]] & _).
  exists (set_db db2 (set_db db1 s)). split; [|split].
  - unfold processBlock. erewrite M_bind_ok by (apply on_db_run, E1). cbn zeta. fold block'.
    erewrite M_bind_ok by (apply or_rollback_ok, on_db_run, E2).
    change (blk_BlockHash block') with (blk_BlockHash block). rewrite Horder. cbn [default].
    apply M_bind_err. cbn [processElements]. apply M_bind_err. unfold processElement, ordered.
    cbn [ord_Name ord_Pos]. change (blk_Deposits block') with (blk_Deposits block).
    rewrite bool_decide_true by lia. by apply M_bind_err.
  - cbn. by rewrite Ht2.
  - cbn [ss_db set_db]. unfold BeginDBTransaction, pop_fault, mbind, M_bind. rewrite Hfa2.
    unfold modify, mret, M_ret. rewrite Ht2. eauto.
Qed.
End SyncFacts.
