(* ===== verification/SyncReorg.v ===== *)
(** * Finding and undoing a reorganisation

    [resetState] on a live database: the blocks above a number disappear with
    everything they brought, and the exit tree of the network, in memory and in
    the tables, is the tree of the deposits that are left.  [checkReorg] against a
    reference: the first stored block, from the latest one down, that is still on
    the chain. *)
From S2P Require Import Prelude Types Hashing MerkleStore MerkleTree MerkleSpec MerkleTreeFacts MerkleReset Tables.
From S2P Require Import Storage StorageFacts SchemaInv Transactions BridgeCtrl MessageBridge Synchronizer SyncAtomic.
From S2P Require Import NetTrees SyncFacts.
(** ** The highest value of a column *)
Lemma max_or_minus1_spec l :
  (∀ x, x ∈ l → x ≤ max_or_minus1 l) ∧ (max_or_minus1 l = -1 ∨ max_or_minus1 l ∈ l).
Proof.
  induction l as [|x l [IH1 IH2]]; [split; [by intros x ?%elem_of_nil|by left]|].
  unfold max_or_minus1 in *. cbn [foldr]. set (m := foldr Z.max (-1) l) in *. split.
  - intros y [->|Hy]%elem_of_cons; [lia|]. specialize (IH1 y Hy). lia.
  - destruct (Z.max_spec x m) as [[_ ->]|[_ ->]].
    + destruct IH2 as [?|?]; [by left|right; by right].
    + right. by left.
Qed.

(** ** Deposits and their blocks *)
Section Linked.
Definition block_num (t : tables) (d : deposit_row) : option Z := block_of d t ≫= b_num.

(** Every deposit is in a numbered block of its network, and the deposits of
    [net] are numbered in the order of the chain. *)
Record chain_order (t : tables) (net : Z) : Prop := {
  co_block d : d ∈ t_deposit t → is_Some (block_num t d);
  co_order d d' m m' : d ∈ t_deposit t → d' ∈ t_deposit t →
    dep_NetworkID (dr_dep d) = net → dep_NetworkID (dr_dep d') = net →
    dep_DepositCount (dr_dep d) ≤ dep_DepositCount (dr_dep d') →
    block_num t d = Some m → block_num t d' = Some m' → m ≤ m';
}.

Lemma block_id_inj t q b b' : schema_ok t q → b ∈ t_block t → b' ∈ t_block t →
  b_id b = b_id b' → b = b'.
Proof.
  intros Hs Hb Hb' He. apply list_elem_of_lookup in Hb as [i Hi].
  apply list_elem_of_lookup in Hb' as [j Hj]. assert (i = j) as ->; [|congruence].
  eapply (NoDup_lookup (block_ids t)); [apply Hs|unfold block_ids; rewrite list_lookup_fmap..].
  - by rewrite Hi.
  - rewrite Hj. cbn. by rewrite He.
Qed.
Lemma block_of_spec t q d b : schema_ok t q →
  block_of d t = Some b ↔ b ∈ t_block t ∧ b_id b = dep_BlockID (dr_dep d) ∧
                          b_net b = Some (dep_NetworkID (dr_dep d)).
Proof.
  intros Hs. unfold block_of. split.
  - intros [[? ?] ?]%head_Some_elem%list_elem_of_filter. done.
  - intros (Hb & Hid & Hnet).
    destruct (elem_head (filter (λ b, b_id b = dep_BlockID (dr_dep d) ∧
      b_net b = Some (dep_NetworkID (dr_dep d))) (t_block t)) b) as [b' Hb'].
    { by apply list_elem_of_filter. }
    rewrite Hb'. f_equal. apply head_Some_elem, list_elem_of_filter in Hb' as [[Hid' _] Hin'].
    eapply block_id_inj; [done..|congruence].
Qed.
Lemma block_num_spec t q d m : schema_ok t q →
  block_num t d = Some m ↔ ∃ b, b ∈ t_block t ∧ b_id b = dep_BlockID (dr_dep d) ∧
    b_net b = Some (dep_NetworkID (dr_dep d)) ∧ b_num b = Some m.
Proof.
  intros Hs. unfold block_num. rewrite bind_Some. setoid_rewrite (block_of_spec t q); [|done].
  split; [intros (b & (? & ? & ?) & ?)|intros (b & ? & ? & ? & ?)]; eauto 10.
Qed.

Lemma block_gone_spec n net b :
  block_gone n net b = true ↔ ∃ m, b_num b = Some m ∧ n < m ∧ b_net b = Some net.
Proof.
  unfold block_gone. destruct (b_num b) as [m|]; [|split; [done|by intros (? & ? & _)]].
  destruct (b_net b) as [k|]; [|split; [done|by intros (? & _ & _ & ?)]].
  rewrite andb_true_iff, !bool_decide_eq_true. split; [intros [? ->]; exists m; split_and!; (done || lia)|].
  intros (m' & [= <-] & ? & [= ->]). split; [lia|done].
Qed.

(** The deposits a reset keeps. *)
Lemma reset_deposit t q net n d : schema_ok t q → chain_order t net → d ∈ t_deposit t →
  d ∈ t_deposit (sql_reset n net t) ↔
    (dep_NetworkID (dr_dep d) = net → ∃ m, block_num t d = Some m ∧ m ≤ n).
Proof.
  intros Hs Hco Hd. destruct (co_block _ _ Hco d Hd) as [m Hm].
  pose proof Hm as (b & Hb & Hid & Hnet & Hnum)%(block_num_spec t q); [|done].
  unfold sql_reset. cbn [t_deposit]. rewrite list_elem_of_filter.
  assert (dep_BlockID (dr_dep d) ∈ gone_blocks n net t ↔ n < m ∧ dep_NetworkID (dr_dep d) = net) as ->.
  { unfold gone_blocks. rewrite list_elem_of_fmap. setoid_rewrite list_elem_of_filter.
    setoid_rewrite block_gone_spec. split.
    - intros (b' & Hid' & (m' & Hnum' & Hlt & Hnet') & Hb').
      assert (b' = b) as -> by (eapply block_id_inj; [done..|congruence]).
      rewrite Hnet in Hnet'. injection Hnet' as <-. split; [congruence|done].
    - intros [Hlt <-]. exists b. split; [done|]. split; [|done]. by exists m. }
  split.
  - intros [Hno _] Hn. exists m. split; [done|]. destruct (decide (n < m)); [|lia]. by destruct Hno.
  - intros Hle. split; [|done]. intros [Hlt Hn]. destruct (Hle Hn) as (m' & ? & ?).
    assert (m' = m) as -> by congruence. lia.
Qed.
Lemma reset_deposit_1 n net t d : d ∈ t_deposit (sql_reset n net t) → d ∈ t_deposit t.
Proof. unfold sql_reset. cbn [t_deposit]. by intros [_ ?]%list_elem_of_filter. Qed.

(** A deposit that stays is not among the deleted ones. *)
Lemma reset_not_gone t q n net d : schema_ok t q → d ∈ t_deposit (sql_reset n net t) →
  dep_Id (dr_dep d) ∉ gone_deposits (gone_blocks n net t) t.
Proof.
  intros Hs Hd (d' & He & [Hgone Hd']%list_elem_of_filter)%list_elem_of_fmap.
  assert (d = d') as <- by (eapply deposit_id_inj; [done|by eapply reset_deposit_1|done|done]).
  unfold sql_reset in Hd. cbn [t_deposit] in Hd. by apply list_elem_of_filter in Hd as [? _].
Qed.
Lemma reset_deposit_gone t n net d : d ∈ t_deposit t →
  dep_Id (dr_dep d) ∉ gone_deposits (gone_blocks n net t) t → d ∈ t_deposit (sql_reset n net t).
Proof.
  intros Hd Hno. unfold sql_reset. cbn [t_deposit]. apply list_elem_of_filter. split; [|done].
  intros Hg. apply Hno, list_elem_of_fmap. exists d. split; [done|]. by apply list_elem_of_filter.
Qed.
End Linked.

Section Reorg.
Context {K : Keccak}.

(** A network whose deposits from [c] on have gone. *)
Lemma net_stored_reset t q n net n' height L (c : nat) :
  schema_ok t q → net_stored t n' height L → (c ≤ length L)%nat →
  (∀ d, d ∈ t_deposit t → dep_NetworkID (dr_dep d) = n' →
    d ∈ t_deposit (sql_reset n net t) ↔ dep_DepositCount (dr_dep d) < Z.of_nat c) →
  net_stored (sql_reset n net t) n' height (take c L).
Proof.
  intros Hs NS Hc Hkeep. split.
  - intros d Hd Hnet. assert (Hd0 := reset_deposit_1 _ _ _ _ Hd).
    destruct (ns_deposit _ _ _ _ NS d Hd0 Hnet) as (k & Hk & Hlt & Hr & Hn).
    assert (Hcount := proj1 (Hkeep d Hd0 Hnet) Hd).
    assert (Hgone := reset_not_gone _ _ _ _ _ Hs Hd).
    exists k. rewrite length_take, take_take, (Nat.min_l (S k)) by lia.
    split_and!; [done|lia| |]; unfold sql_reset; cbn [t_root t_rht].
    + apply list_elem_of_filter. by split.
    + intros h Hh. apply list_elem_of_filter. split; [done|]. auto.
  - intros k. rewrite length_take. intros Hk.
    destruct (ns_all _ _ _ _ NS k) as (d & Hd & Hnet & Hcount); [lia|].
    exists d. split_and!; [|done|done]. apply Hkeep; [done..|]. lia.
  - intros r id Hr. unfold sql_reset in Hr. cbn [t_root] in Hr.
    apply list_elem_of_filter in Hr as [Hgone Hr]. cbn [fst snd] in Hgone.
    destruct (ns_root _ _ _ _ NS r id Hr) as (d & Hd & <- & Hnet).
    exists d. split_and!; [|done|done]. by apply reset_deposit_gone.
Qed.

(** The number of deposits left is the length of a prefix of the leaves. *)
Lemma reset_count t q n net height L :
  schema_ok t q → chain_order t net → net_stored t net height L → Z.of_nat (length L) < 2 ^ 32 →
  let t1 := sql_reset n net t in
  let top := max_or_minus1 (dep_DepositCount ∘ dr_dep <$>
      filter (λ d, dep_NetworkID (dr_dep d) = net ∧
                   block_num_upto n (block_of d t1) = true) (t_deposit t1)) in
  ∃ c : nat, wrap32 (top + 1) = Z.of_nat c ∧ (c ≤ length L)%nat ∧
    ∀ d, d ∈ t_deposit t → dep_NetworkID (dr_dep d) = net →
      d ∈ t_deposit t1 ↔ dep_DepositCount (dr_dep d) < Z.of_nat c.
Proof.
  intros Hs Hco NS H32 t1 top.
  assert (Hs1 : schema_ok t1 q) by (by apply schema_ok_reset).
  assert (Hin : ∀ x, x ∈ dep_DepositCount ∘ dr_dep <$>
      filter (λ d, dep_NetworkID (dr_dep d) = net ∧
                   block_num_upto n (block_of d t1) = true) (t_deposit t1) ↔
    ∃ d, d ∈ t_deposit t1 ∧ dep_NetworkID (dr_dep d) = net ∧ x = dep_DepositCount (dr_dep d)).
  { intros x. rewrite list_elem_of_fmap. setoid_rewrite list_elem_of_filter. split.
    - intros (d & -> & [[Hnet _] Hd]). eauto.
    - intros (d & Hd & Hnet & ->). exists d. split; [done|]. split; [|done]. split; [done|].
      assert (Hd0 := reset_deposit_1 _ _ _ _ Hd).
      destruct (proj1 (reset_deposit t q net n d Hs Hco Hd0) Hd Hnet) as (m & Hm1 & Hle).
      apply (block_num_spec t q) in Hm1 as (b & Hb & Hid & Hbnet & Hnum); [|done].
      assert (block_of d t1 = Some b) as ->.
      { apply (block_of_spec t1 q); [done|]. split_and!; [|done..].
        unfold t1, sql_reset. cbn [t_block]. apply list_elem_of_filter. split; [|done].
        apply not_true_iff_false. intros (m' & Hnum' & Hgt & _)%block_gone_spec.
        assert (m' = m) as -> by congruence. lia. }
      unfold block_num_upto. cbn. rewrite Hnum. by apply bool_decide_eq_true. }
  destruct (max_or_minus1_spec (dep_DepositCount ∘ dr_dep <$>
      filter (λ d, dep_NetworkID (dr_dep d) = net ∧
                   block_num_upto n (block_of d t1) = true) (t_deposit t1))) as [Hub Htop].
  fold top in Hub, Htop.
  assert (Hwrap : ∀ c : nat, top + 1 = Z.of_nat c → (c ≤ length L)%nat → wrap32 (top + 1) = Z.of_nat c).
  { intros c -> Hle. unfold wrap32. apply wrap_id. unfold in_width. lia. }
  destruct Htop as [Htop|(d & Hd & Hnet & Htop)%Hin].
  - exists 0%nat. split; [apply Hwrap; lia|]. split; [lia|]. intros d Hd Hnet. split.
    + intros Hd1. specialize (Hub (dep_DepositCount (dr_dep d))). rewrite Hin in Hub.
      assert (dep_DepositCount (dr_dep d) ≤ top) by eauto. lia.
    + destruct (ns_deposit _ _ _ _ NS d Hd Hnet) as (k & ? & _). lia.
  - assert (Hd0 := reset_deposit_1 _ _ _ _ Hd).
    destruct (ns_deposit _ _ _ _ NS d Hd0 Hnet) as (k & Hk & Hlt & _).
    exists (S k). split; [apply Hwrap; lia|]. split; [lia|]. intros d' Hd' Hnet'. split.
    + intros Hd1. specialize (Hub (dep_DepositCount (dr_dep d'))). rewrite Hin in Hub.
      assert (dep_DepositCount (dr_dep d') ≤ top) by eauto. lia.
    + intros Hlt'. apply (reset_deposit t q); [done..|]. intros _.
      destruct (proj1 (reset_deposit t q net n d Hs Hco Hd0) Hd Hnet) as (m & Hm1 & Hle).
      destruct (co_block _ _ Hco d' Hd') as [m' Hm'].
      exists m'. split; [done|].
      assert (m' ≤ m) by (eapply (co_order _ _ Hco d' d); (done || lia)). lia.
Qed.

(** What the two queries of a tree keep, a reorganisation keeps. *)
Section Keeps.
Context (P : database → Prop) (tx : Tx).
Context (Hget : ∀ k, preserves P (Get k tx)).
Context (Hroot : ∀ c n, preserves P (GetRoot c n tx)).

Lemma pres_initSiblings_loop hs : ∀ index cur left siblings,
  preserves P (initSiblings_loop hs index cur left siblings tx).
Proof.
  induction hs as [|h hs IH]; intros; cbn [initSiblings_loop]; [apply pres_ret|].
  apply pres_bind; [apply pres_map_err, Hget|intros value].
  apply pres_bind; [apply pres_lift|intros v0]. apply pres_bind; [apply pres_lift|intros cur'].
  apply IH.
Qed.
Lemma pres_resetLeaf c : preserves (λ s : MerkleTree * database, P s.2) (resetLeaf c tx).
Proof.
  unfold resetLeaf, initSiblings, getRoot. repeat match goal with
  | |- preserves _ (update_mt _) => by apply pres_modify
  | |- preserves _ (on_store _) => apply pres_store; first [apply pres_initSiblings_loop|apply Hroot]
  | |- preserves _ (attempt _) => apply pres_attempt
  | |- preserves _ (_ ≫= _) => apply pres_bind; [|intros ?]
  | |- preserves _ (match ?x with _ => _ end) => destruct x
  | |- _ => solve [eauto with pres]
  end.
Qed.
Lemma pres_reorg c net bt db r bt' db' :
  P db → ReorgMT c net tx (bt, db) = (r, (bt', db')) → P db'.
Proof.
  intros H. unfold ReorgMT, mbind, M_bind, lift_res, gets. cbn.
  destruct (GetMerkleTreeID _ _); [|by intros [= _ _ <-]..].
  unfold on_tree. destruct (at_index _ _) as [mt| |]; [|by intros [= _ _ <-]..].
  destruct (resetLeaf _ _ _) as [r1 [mt1 db1]] eqn:E1. intros [= _ _ <-].
  by eapply pres_resetLeaf in E1.
Qed.
End Keeps.

Lemma ReorgMT_reads V c net bt db r bt' db' :
  view open_tx db = V → ReorgMT c net open_tx (bt, db) = (r, (bt', db')) → view open_tx db' = V.
Proof.
  assert (∀ A (f : tables → option A), preserves (λ db, view open_tx db = V) (not_found (query_row open_tx f))) as Hq.
  { intros A f. apply pres_map_err. unfold query_row. apply pres_bind; [|intros; apply pres_scan].
    apply (exec_keeps_view (λ t, t = V)). by intros t q a t' q' [= _ <- _]. }
  apply (pres_reorg (λ db, view open_tx db = V)); intros; apply Hq.
Qed.
End Reorg.

Section ResetState.
Context {K : Keccak} {Abi : TokenAbi} {E : Type} {Env : Environment E} (cfg : Config).
Abbreviation St := (ClientSynchronizer E).
Abbreviation net := (cfg_networkID cfg).

Lemma Reset_live n db : db_live open_tx db → n < 2 ^ 63 →
  ∃ db', Reset n net open_tx db = (Ok tt, db') ∧ db_live open_tx db' ∧
    view open_tx db' = sql_reset n net (view open_tx db).
Proof.
  intros Hl Hn.
  destruct (exec_live open_tx (change (sql_reset n net)) db tt _ _ Hl eq_refl) as [db' Ex].
  destruct (exec_ok _ _ _ _ _ Ex) as (q' & Hm & _ & _ & _ & _ & _ & Hl').
  exists db'. split_and!; [|auto|by injection Hm].
  unfold Reset, int8_param. by rewrite bool_decide_true by done.
Qed.
Lemma GetNumberDeposits_live n db : db_live open_tx db → n < 2 ^ 63 →
  let t := view open_tx db in
  ∃ db', GetNumberDeposits net n open_tx db =
      (Ok (wrap32 (max_or_minus1 (dep_DepositCount ∘ dr_dep <$>
        filter (λ d, dep_NetworkID (dr_dep d) = net ∧
                     block_num_upto n (block_of d t) = true) (t_deposit t)) + 1)), db') ∧
    db_live open_tx db' ∧ view open_tx db' = t ∧ db_seqs db' = db_seqs db.
Proof.
  intros Hl Hn t. unfold GetNumberDeposits, int8_param. rewrite bool_decide_true by done.
  set (f := λ t : tables, max_or_minus1 _). destruct (select_live open_tx f db Hl) as [db' Ex].
  exists db'. destruct (select_ok _ _ _ _ _ Ex) as (_ & Hv & Hq & Hl').
  split; [|by auto]. erewrite M_bind_ok by done. by erewrite M_bind_ok by exact Ex.
Qed.

(** ** Properties *)

(** C3. Going back to a block: on a live database whose deposits are
    numbered in the order of the chain, [resetState] succeeds and commits.  The
    blocks of the network above the given one are gone, the tree of the network
    (in memory and in the tables) is the tree of exactly the deposits that were
    in the blocks up to it, and the other networks are as before. *)
Theorem resetState_prefix n (s : St) Ls mt
  (Hf : forest (db_committed (ss_db s)) (ss_ctrl s) Ls) (Hok : db_ok (ss_db s))
  (Hlive : db_faults (ss_db s) = []) (Hn : n < 2 ^ 63)
  (Ht : tree_of (ss_ctrl s) net = Some mt) (Hh : 1 ≤ mt_height mt)
  (Hfit : (length (Ls net) ≤ 2 ^ Z.to_nat (mt_height mt))%nat)
  (H32 : Z.of_nat (length (Ls net)) < 2 ^ 32)
  (Hco : chain_order (db_committed (ss_db s)) net)
  (Hnc : no_collision (t_rht (db_committed (ss_db s)))) :
  ∃ s' (c : nat), resetState cfg n s = (Ok tt, s') ∧ (c ≤ length (Ls net))%nat ∧
    (∀ d, d ∈ t_deposit (db_committed (ss_db s)) → dep_NetworkID (dr_dep d) = net →
      dep_DepositCount (dr_dep d) < Z.of_nat c ↔
      ∃ m, block_num (db_committed (ss_db s)) d = Some m ∧ m ≤ n) ∧
    forest (db_committed (ss_db s')) (ss_ctrl s') (upd Ls net (take c (Ls net))) ∧
    db_committed (ss_db s') = sql_reset n net (db_committed (ss_db s)) ∧
    db_tx (ss_db s') = None.
Proof.
  set (t := db_committed (ss_db s)) in *. destruct Hf as [Hwf Hf].
  destruct (Hf net mt Ht) as (Hrep & Hnet & NS). destruct (Hok) as [Hs _]. fold t in Hs.
  destruct (reset_count t _ n net _ _ Hs Hco NS H32) as (c & Hc & Hle & Hkeep). cbn zeta in Hc.
  destruct (begin_live (ss_db s) Hlive) as (db1 & E1 & Hl1 & Hv1 & Hc1 & Hq1). fold t in Hv1, Hc1.
  assert (Hok1 := pres_BeginDBTransaction _ _ _ Hok E1).
  destruct (Reset_live n db1 Hl1 Hn) as (db2 & E2 & Hl2 & Hv2). rewrite Hv1 in Hv2.
  assert (Hok2 := pres_Reset _ _ _ _ _ _ Hok1 E2).
  destruct (GetNumberDeposits_live n db2 Hl2 Hn) as (db3 & E3 & Hl3 & Hv3 & Hq3).
  rewrite Hv2, Hc in E3. rewrite Hv2 in Hv3.
  set (t1 := sql_reset n net t) in *. set (h := Z.to_nat (mt_height mt)) in *.
  assert (Hs3 : schema_ok (view open_tx db3) (db_seqs db3)).
  { rewrite Hq3, Hv3, <- Hv2. destruct Hok2 as [_ Hok2], Hl2 as [_ [t2 Et]]. unfold view.
    by rewrite Et in Hok2 |- *. }
  assert (NS1 : net_stored t1 net h (take c (Ls net))) by (by eapply net_stored_reset).
  destruct (ReorgMT_ok (ss_ctrl s) net mt (take c (Ls net)) c open_tx db3)
    as (bt' & mt' & db4 & E4 & Ht' & Hrep' & Honly & Hnet' & Hh' & Hl4 & _); try done.
  { rewrite length_take. lia. }
  { rewrite length_take. lia. }
  { destruct Hrep as (_ & ? & _). lia. }
  { destruct Hrep as (_ & _ & H32s & _). by apply Forall_take. }
  { rewrite length_take. fold h. lia. }
  { rewrite Hnet. apply net_stored_tree; [done|]. by rewrite Hv3. }
  { unfold nodes. cbn [pgStoreOk]. unfold pg_nodes. rewrite Hv3. intros k v v' d d' H1 H2.
    apply list_elem_of_filter in H1 as [_ H1]. apply list_elem_of_filter in H2 as [_ H2].
    by eapply Hnc. }
  assert (Hv4 := ReorgMT_reads t1 _ _ _ _ _ _ _ Hv3 E4).
  destruct (commit_live _ Hl4) as (db5 & E5 & Hc5 & Htx5 & _). rewrite Hv4 in Hc5.
  exists (set_db db5 (set_ctrl_db (bt', db4) (set_db db3 (set_db db2 (set_db db1 s))))), c.
  split; [|split_and!; [done| | |done|done]].
  - unfold resetState. erewrite M_bind_ok by (apply on_db_run, E1). cbn zeta.
    erewrite M_bind_ok by (apply or_rollback_ok, on_db_run, E2).
    erewrite M_bind_ok by (apply or_rollback_ok, on_db_run, E3).
    erewrite M_bind_ok by (apply or_rollback_ok, on_ctrl_run, E4).
    apply or_rollback_ok, on_db_run, E5.
  - intros d Hd Hdn. rewrite <- (Hkeep d Hd Hdn). unfold t1. rewrite (reset_deposit t _ net n d Hs Hco Hd). tauto.
  - cbn [ss_db set_db ss_ctrl set_ctrl_db fst]. rewrite Hc5.
    eapply (forest_update t); [by split|exact Honly|exact Ht'| | | |].
    + by rewrite take_take, Nat.min_id in Hrep'.
    + by rewrite Hnet'.
    + by rewrite Hh'.
    + intros n' h' Hne NS'. rewrite <- (take_ge (Ls n') (length (Ls n'))) by done.
      eapply net_stored_reset; [exact Hs|exact NS'|done|]. intros d Hd Hdn.
      rewrite (reset_deposit t _ net n d Hs Hco Hd). split; [|by intros _ Hdn'; congruence].
      destruct (ns_deposit _ _ _ _ NS' d Hd Hdn) as (k & -> & ? & _). lia.
Qed.
End ResetState.

Section CheckReorg.
Context {K : Keccak} {Abi : TokenAbi} {E : Type} {Env : Environment E} (cfg : Config).
Abbreviation St := (ClientSynchronizer E).
Abbreviation net := (cfg_networkID cfg).

(** A stored block as [GetPreviousBlock] returns it. *)
Definition prev_block (b : block_row) : Block :=
  mkBlock 0 (default 0 (b_num b)) (b_hash b) (default 0 (b_net b)) [] [] [] [] [] [] [] zero_time.

(** The client is connected to a chain: every block has a hash. *)
Definition on_chain (chain : Z → bytes) : Prop :=
  ∀ (e : E) n, HeaderByNumber (Some n) e = (Ok (n, chain n), e).

(** The search stops at a block of the chain, and at the genesis block. *)
Definition stops (chain : Z → bytes) (b : Block) : bool :=
  bool_decide (chain (blk_BlockNumber b) = blk_BlockHash b) ||
  negb (bool_decide (blk_BlockNumber b > cfg_genBlockNumber cfg)).

(** The first stored block, from [latest] down, where the search stops. *)
Definition common_block (chain : Z → bytes) (latest : Block) (stored : list Block) : option Block :=
  head (filter (λ b, stops chain b = true) (latest :: stored)).

(** The reference: nothing to undo when the latest block is on the chain. *)
Definition reorg_spec (chain : Z → bytes) (latest : Block) (stored : list Block) : option Block :=
  match common_block chain latest stored with
  | None => Some (mk_header (cfg_genBlockNumber cfg) zero_hash)
  | Some b => if bool_decide (blk_BlockHash latest ≠ blk_BlockHash b) then Some b else None
  end.

Lemma GetPreviousBlock_live d db : db_live nil_tx db → Z.of_nat d < 2 ^ 63 →
  ∃ db', db_live nil_tx db' ∧ db_committed db' = db_committed db ∧
    GetPreviousBlock net (Z.of_nat d) nil_tx db =
      (match blocks_desc net (db_committed db) !! d with
       | Some b => Ok (prev_block b) | None => Err ErrStorageNotFound end, db').
Proof.
  intros Hl Hd. unfold GetPreviousBlock, int8_param. rewrite bool_decide_true by done.
  rewrite Nat2Z.id. set (f := λ t, head (drop d (blocks_desc net t))).
  destruct (select_live nil_tx f db Hl) as [db' Ex].
  destruct (select_ok _ _ _ _ _ Ex) as (_ & Hv & _ & Hl'). exists db'. split_and!; [auto|exact Hv|].
  erewrite M_bind_ok by done. unfold not_found, query_row.
  assert (f (view nil_tx db) = blocks_desc net (db_committed db) !! d) as Hf.
  { unfold f. cbn [view]. rewrite <- (Nat.add_0_r d) at 2. rewrite <- lookup_drop.
    by destruct (drop d _). }
  rewrite Hf in Ex. unfold map_err, mbind, M_bind. rewrite Ex.
  by destruct (blocks_desc net (db_committed db) !! d).
Qed.

Lemma guard_stops chain b :
  negb (bool_decide (chain (blk_BlockNumber b) = blk_BlockHash b)) &&
    bool_decide (blk_BlockNumber b > cfg_genBlockNumber cfg) = negb (stops chain b).
Proof. unfold stops. by rewrite negb_orb, negb_involutive. Qed.

Lemma common_block_cons chain b l :
  common_block chain b l = if stops chain b then Some b else head (filter (λ b, stops chain b = true) l).
Proof.
  unfold common_block. cbn. destruct (stops chain b); [by rewrite decide_True|by rewrite decide_False].
Qed.

Lemma set_db_id (s : St) : set_db (ss_db s) s = s.
Proof. by destruct s. Qed.

Lemma checkReorg_loop_spec chain fuel : on_chain chain → ∀ (d : nat) reorged s,
  db_live nil_tx (ss_db s) →
  let stored := prev_block <$> blocks_desc net (db_committed (ss_db s)) in
  Z.of_nat (length stored) + 1 < 2 ^ 63 → (d ≤ length stored)%nat →
  (length stored < d + fuel)%nat →
  ∃ db', checkReorg_loop cfg fuel (Z.of_nat d) reorged None s =
    (Ok (match common_block chain reorged (drop (S d) stored) with
         | Some b => (b, false)
         | None => (mk_header (cfg_genBlockNumber cfg) zero_hash, true) end), set_db db' s) ∧
    db_committed db' = db_committed (ss_db s) ∧ db_live nil_tx db'.
Proof.
  intros Hch. induction fuel as [|fuel IH]; intros d reorged s Hl stored Hlen Hd Hfuel; [lia|].
  assert (Echain : chain_block cfg reorged None s =
    (Ok (mk_header (blk_BlockNumber reorged) (chain (blk_BlockNumber reorged))), s)).
  { unfold chain_block, on_env, zoom, mbind, M_bind. rewrite Hch. cbn.
    rewrite bool_decide_false by tauto. by destruct s. }
  cbn [checkReorg_loop]. erewrite M_bind_ok by exact Echain. cbn zeta.
  change (blk_BlockHash (mk_header ?n ?h)) with h. rewrite guard_stops, common_block_cons.
  destruct (stops chain reorged) eqn:Hs; cbn [negb].
  { exists (ss_db s). by rewrite set_db_id. }
  replace (Z.of_nat d + 1) with (Z.of_nat (S d)) by lia.
  destruct (GetPreviousBlock_live (S d) (ss_db s) Hl) as (db1 & Hl1 & Hc1 & E1); [lia|].
  assert (Hlk : stored !! S d = prev_block <$> blocks_desc net (db_committed (ss_db s)) !! S d)
    by apply list_lookup_fmap.
  unfold attempt at 1, mbind at 1, M_bind at 1. rewrite (on_db_run _ _ _ _ E1).
  destruct (blocks_desc net (db_committed (ss_db s)) !! S d) as [b|] eqn:Eb; cbn in Hlk |- *.
  - assert (Hlt := lookup_lt_Some _ _ _ Hlk).
    destruct (IH (S d) (prev_block b) (set_db db1 s) Hl1) as (db2 & E2 & Hc2 & Hl2);
      cbn [ss_db set_db]; rewrite ?Hc1; fold stored; [lia..|].
    cbn [ss_db set_db] in E2, Hc2. rewrite Hc1 in E2, Hc2. fold stored in E2. exists db2. split; [|by split; [congruence|]].
    rewrite E2. by rewrite (drop_S stored (prev_block b) (S d)) by done.
  - exists db1. split; [|done]. rewrite drop_ge; [done|]. by apply lookup_ge_None.
Qed.

(** ** Properties *)

(** C13. On a live database, with a client connected to a chain, enough fuel
    makes [checkReorg] answer, and the answer is the reference's: nothing when
    the latest stored block is on the chain; otherwise the first block, from
    there down the stored blocks of the network, that is on the chain or not
    above the genesis block, and the genesis block when there is none.  The
    fuel is one more than the number of stored blocks. *)
Theorem checkReorg_correct chain fuel latest s
  (Hch : on_chain chain) (Hl : db_live nil_tx (ss_db s))
  (Hlen : Z.of_nat (length (blocks_desc net (db_committed (ss_db s)))) + 1 < 2 ^ 63)
  (Hfuel : (length (blocks_desc net (db_committed (ss_db s))) < fuel)%nat) :
  ∃ s', checkReorg cfg fuel latest None s =
    (Ok (reorg_spec chain latest
           (prev_block <$> drop 1 (blocks_desc net (db_committed (ss_db s))))), s') ∧
    ss_ctrl s' = ss_ctrl s ∧ db_committed (ss_db s') = db_committed (ss_db s).
Proof.
  destruct (checkReorg_loop_spec chain fuel Hch 0 latest s Hl) as (db' & E1 & Hc & _);
    rewrite ?length_fmap; try lia.
  exists (set_db db' s). split; [|done]. unfold checkReorg, reorg_spec.
  rewrite fmap_drop. erewrite M_bind_ok by exact E1.
  destruct (common_block _ _ _) as [b|]; [|done]. by case_bool_decide.
Qed.
End CheckReorg.
