(* ===== verification/StorageProps.v ===== *)
(** * What the storage answers

    A deposit or a claim that was added is found again; a rollup's deposits
    become ready for claim exactly up to its local exit root; and the queries
    that can never answer. *)
From S2P Require Import Prelude Types Hashing MerkleStore MerkleTree MerkleSpec MerkleTreeFacts.
From S2P Require Import MonitoredTx Tables Storage StorageFacts SchemaInv NetTrees SyncReorg.

(** ** Lists *)
Lemma filter_none {A} (P : A → Prop) `{∀ x, Decision (P x)} l : (∀ x, x ∈ l → ¬ P x) → filter P l = [].
Proof.
  intros Hn. destruct (filter P l) as [|x l'] eqn:E; [done|]. exfalso.
  assert (x ∈ filter P l) as [HP Hx]%list_elem_of_filter by (rewrite E; by left). by apply (Hn x).
Qed.
Lemma filter_snoc_last {A} (P : A → Prop) `{∀ x, Decision (P x)} l x :
  (∀ y, y ∈ l → ¬ P y) → P x → filter P (l ++ [x]) = [x].
Proof. intros Hn HP. rewrite filter_app, filter_none by done. cbn. by rewrite decide_True. Qed.
Lemma NoDup_all_eq {A} (l : list A) a : NoDup l → (∀ x, x ∈ l → x = a) → a ∈ l → l = [a].
Proof.
  intros Hnd Hall Ha. destruct l as [|x [|y l]]; [by apply elem_of_nil in Ha|f_equal; apply Hall; by left|].
  exfalso. assert (x = a) as -> by (apply Hall; by left). assert (y = a) as -> by (apply Hall; right; by left).
  apply NoDup_cons in Hnd as [Hx _]. apply Hx. by left.
Qed.

(** ** A deposit and a claim, written and read back *)
Section Roundtrip.
(** A deposit that was added is the one found under its count and network,
    not ready for claim, with the number of its block. *)
Theorem AddDepositXLayer_GetDeposit d tx db b q
  (Hl : db_live tx db) (Hs : schema_ok (view tx db) q) (Hid : dep_BlockID d < 2 ^ 63)
  (Hb : b ∈ t_block (view tx db)) (Hbid : b_id b = dep_BlockID d) (Hbnet : b_net b = Some (dep_NetworkID d))
  (Hkey : (dep_NetworkID d, dep_DepositCount d) ∉ deposit_keys (view tx db)) :
  ∃ id db1 db2, AddDepositXLayer d tx db = (Ok id, db1) ∧
    GetDeposit (dep_DepositCount d) (dep_NetworkID d) tx db1 =
      (Ok (mkDeposit id (dep_LeafType d) (dep_OriginalNetwork d) (dep_OriginalAddress d)
             (dep_Amount d) (dep_DestinationNetwork d) (dep_DestinationAddress d) (dep_DepositCount d)
             (dep_BlockID d) (default 0 (b_num b)) (dep_NetworkID d) (dep_TxHash d) (dep_Metadata d)
             false zero_time zero_time zero_address), db2).
Proof.
  assert (Hex : block_exists (dep_BlockID d) (view tx db) = true) by (apply block_exists_spec; eauto).
  destruct (AddDepositXLayer_live d tx db Hl Hid Hex Hkey) as (db1 & E1 & Hl1 & Hv1).
  set (id := sq_deposit (db_seqs db) + 1) in *. set (row := stored_deposit id d).
  assert (Hblock : block_of row (view tx db1) = Some b).
  { rewrite Hv1. apply (block_of_spec (view tx db) q row b Hs). done. }
  set (f := λ t, head (omap (join_num t) (filter (λ r, dep_NetworkID (dr_dep r) = dep_NetworkID d ∧
                dep_DepositCount (dr_dep r) = dep_DepositCount d) (t_deposit t)))).
  assert (Hf : f (view tx db1) = Some (scan_deposit (default 0 (b_num b)) zero_time zero_address (dr_dep row))).
  { unfold f. rewrite Hv1 at 2. cbn [t_deposit set_deposit]. rewrite filter_snoc_last.
    - cbn [omap list_omap]. unfold join_num. fold row. by rewrite Hblock.
    - intros y Hy [Hn Hc]. apply Hkey, list_elem_of_fmap. exists y. by rewrite Hn, Hc.
    - done. }
  destruct (query_row_live tx f db1 _ Hl1 Hf) as [db2 E2].
  exists id, db1, db2. split; [done|]. by apply not_found_run.
Qed.

(** The origin a claim is looked up with. *)
Definition claim_origin (c : Claim) : Z := if clm_MainnetFlag c then 0 else clm_RollupIndex c + 1.

(** A claim that was added is the one found under its index, its origin
    and its network, when no earlier claim answers. *)
Theorem AddClaim_GetClaim c tx db
  (Hl : db_live tx db) (Hid : clm_BlockID c < 2 ^ 63)
  (Hb : block_exists (clm_BlockID c) (view tx db) = true) (Hr : 0 ≤ clm_RollupIndex c)
  (Hfresh : ∀ c', c' ∈ t_claim (view tx db) → clm_Index c' = clm_Index c → clm_NetworkID c' = clm_NetworkID c →
     claim_from (claim_origin c) c' = false) :
  ∃ db1 db2, AddClaim c tx db = (Ok tt, db1) ∧
    GetClaim (clm_Index c) (claim_origin c) (clm_NetworkID c) tx db1 =
      (Ok (mkClaim (clm_MainnetFlag c) (clm_RollupIndex c) (clm_Index c) (clm_OriginalNetwork c)
             (clm_OriginalAddress c) (clm_Amount c) (clm_DestinationAddress c) (clm_BlockID c) 0
             (clm_NetworkID c) (clm_TxHash c) zero_time), db2).
Proof.
  set (row := mkClaim (clm_MainnetFlag c) (clm_RollupIndex c) (clm_Index c) (clm_OriginalNetwork c)
             (clm_OriginalAddress c) (clm_Amount c) (clm_DestinationAddress c) (clm_BlockID c) 0
             (clm_NetworkID c) (clm_TxHash c) zero_time).
  assert (Hfrom : ∀ c', clm_MainnetFlag c' = clm_MainnetFlag c → clm_RollupIndex c' = clm_RollupIndex c →
    claim_from (claim_origin c) c' = true).
  { intros c' Hm Hri. unfold claim_from, claim_origin. destruct (clm_MainnetFlag c).
    - by rewrite bool_decide_true.
    - rewrite bool_decide_false, Hm, Hri by lia. cbn. by apply bool_decide_eq_true. }
  assert (∃ q', sql_add_claim c (view tx db, db_seqs db) =
    (Ok tt, (set_claim (t_claim (view tx db) ++ [row]) (view tx db), q'))) as [q' E].
  { unfold sql_add_claim. destruct (existsb _ _) eqn:Ee.
    - exfalso. apply existsb_exists in Ee as (c' & Hc'%list_elem_of_In & (Hi & Hri & Hn & Hm)%bool_decide_eq_true).
      specialize (Hfresh c' Hc' Hi Hn). rewrite Hfrom in Hfresh; done.
    - rewrite Hb. by eexists. }
  destruct (exec_live _ _ _ _ _ _ Hl E) as [db1 E1].
  destruct (exec_ok _ _ _ _ _ E1) as (q'' & Hm & _ & _ & _ & _ & _ & Hl1).
  assert (Hv1 : view tx db1 = set_claim (t_claim (view tx db) ++ [row]) (view tx db)) by congruence.
  set (f := λ t, head (filter (λ c', clm_Index c' = clm_Index c ∧ clm_NetworkID c' = clm_NetworkID c ∧
      claim_from (claim_origin c) c' = true) (t_claim t))).
  assert (Hf : f (view tx db1) = Some row).
  { unfold f. rewrite Hv1. cbn [t_claim set_claim]. rewrite filter_snoc_last; [done| |].
    - intros c' Hc' (Hi & Hn & Hc). specialize (Hfresh c' Hc' Hi Hn). congruence.
    - split_and!; [done|done|by apply Hfrom]. }
  destruct (query_row_live tx f db1 _ (Hl1 Hl) Hf) as [db2 E2].
  exists db1, db2. split.
  - unfold AddClaim, int8_param. by rewrite bool_decide_true by done.
  - unfold GetClaim. rewrite (M_bind_ok _ _ _ row db2) by (by apply not_found_run).
    unfold mret, M_ret. do 3 f_equal. unfold claim_origin. destruct (clm_MainnetFlag c); [done|].
    apply bool_decide_eq_false. lia.
Qed.
End Roundtrip.

(** ** Ready for claim *)
Section Ready.
Context {K : Keccak}.

(** The roots of the prefixes of the leaves are distinct. *)
Definition distinct_roots (height : nat) (L : list bytes) : Prop :=
  ∀ j k, (j < length L)%nat → (k < length L)%nat →
    merkle_root height (take (S j) L) = merkle_root height (take (S k) L) → j = k.

Lemma deposit_key_inj t q d d' : schema_ok t q → d ∈ t_deposit t → d' ∈ t_deposit t →
  dep_NetworkID (dr_dep d) = dep_NetworkID (dr_dep d') →
  dep_DepositCount (dr_dep d) = dep_DepositCount (dr_dep d') → d = d'.
Proof.
  intros Hs Hd Hd' Hn Hc. apply list_elem_of_lookup in Hd as [i Hi].
  apply list_elem_of_lookup in Hd' as [j Hj]. assert (i = j) as ->; [|congruence].
  eapply (NoDup_lookup (deposit_keys t)); [apply Hs|unfold deposit_keys; rewrite list_lookup_fmap..].
  - by rewrite Hi.
  - rewrite Hj. cbn. by rewrite Hn, Hc.
Qed.

Lemma NoDup_of_fmap {A B} (f : A → B) (l : list A) : NoDup (f <$> l) → NoDup l.
Proof. apply NoDup_fmap_1. Qed.

(** A root of the tree of a network belongs to one deposit, the last one it covers. *)
Lemma root_counts_unique t q net h L k :
  schema_ok t q → net_stored t net h L → distinct_roots h L → (k < length L)%nat →
  root_counts (merkle_root h (take (S k) L)) net t = [Z.of_nat k].
Proof.
  intros Hs NS Hdist Hk. set (R := merkle_root h (take (S k) L)).
  destruct (ns_all _ _ _ _ NS k Hk) as (d & Hd & Hdn & Hdc).
  destruct (ns_deposit _ _ _ _ NS d Hd Hdn) as (k' & Hk' & _ & Hr & _).
  assert (k' = k) as -> by lia. fold R in Hr.
  assert (Hroots : filter (λ r : root_row, r.1.1 = R ∧ r.2 = net) (t_root t) = [(R, dep_Id (dr_dep d), net)]).
  { apply NoDup_all_eq.
    - apply NoDup_filter. eapply NoDup_of_fmap, Hs.
    - intros [[r id] n] [[Hr1 Hr2] Hin]%list_elem_of_filter. cbn in Hr1, Hr2. subst r n.
      destruct (ns_root _ _ _ _ NS _ _ Hin) as (d' & Hd' & <- & Hn').
      destruct (ns_deposit _ _ _ _ NS d' Hd' Hn') as (j & Hj & Hlt & Hr' & _).
      destruct (root_id_inj _ _ _ _ _ _ _ Hs Hin Hr') as [Heq _].
      assert (k = j) as -> by (by apply Hdist).
      assert (d = d') as -> by (eapply deposit_key_inj; (done || congruence)). done.
    - by apply list_elem_of_filter. }
  assert (Hdeps : filter (λ d', dep_Id (dr_dep d') = dep_Id (dr_dep d)) (t_deposit t) = [d]).
  { apply NoDup_all_eq.
    - apply NoDup_filter. eapply NoDup_of_fmap, (so_deposit_id _ _ Hs).
    - intros d' [Hid Hin]%list_elem_of_filter. by eapply deposit_id_inj.
    - by apply list_elem_of_filter. }
  unfold root_counts. rewrite Hroots. cbn [mbind list_bind app fst snd]. rewrite Hdeps. cbn. by rewrite Hdc.
Qed.

(** A row after [ready_for_claim] is set for the deposits of [net] up to [k]. *)
Definition ready_upto (net k : Z) (d d' : deposit_row) : Prop :=
  dr_dep d' = set_dep_ready (dep_ReadyForClaim (dr_dep d) ||
    (bool_decide (dep_NetworkID (dr_dep d) = net) && bool_decide (dep_DepositCount (dr_dep d) ≤ k))) (dr_dep d).

Lemma set_dep_ready_id d : set_dep_ready (dep_ReadyForClaim d) d = d.
Proof. by destruct d. Qed.

(** When the exit root of the rollups holds a local exit root of a rollup,
    the update makes ready for claim exactly the deposits of the rollup that this
    local exit root covers; no other deposit changes, and the deposits it returns
    are the ones that became ready. *)
Theorem UpdateL2DepositsStatus_ready tx db root rollupID net h L k
  (Hl : db_live tx db) (Hs : schema_ok (view tx db) (db_seqs db))
  (NS : net_stored (view tx db) net h L) (Hdist : distinct_roots h L) (Hk : (k < length L)%nat)
  (Hleaf : rollup_leaves root rollupID (view tx db) = [merkle_root h (take (S k) L)]) :
  ∃ ds db', UpdateL2DepositsStatusXLayer root rollupID net tx db = (Ok ds, db') ∧
    Forall2 (ready_upto net (Z.of_nat k)) (t_deposit (view tx db)) (t_deposit (view tx db')) ∧
    Forall (λ d, dep_ReadyForClaim d = true ∧ dep_NetworkID d = net ∧ dep_DepositCount d ≤ Z.of_nat k) ds.
Proof.
  set (t := view tx db) in *. set (P := λ d, bool_decide (dep_DepositCount d ≤ Z.of_nat k) &&
    bool_decide (dep_NetworkID d = net) && negb (dep_ReadyForClaim d)).
  assert (Hc := root_counts_unique t _ net h L k Hs NS Hdist Hk).
  set (rows := (λ d, mkDepositRow (set_dep_ready true (dr_dep d)) (dr_ready_time d)) <$>
      filter (λ d, P (dr_dep d) = true) (t_deposit t)).
  set (t' := mark_ready P (Some (db_now db)) t).
  assert (Hm : (rows ← sql_update_l2_status root rollupID net (Some (db_now db));
         t ← select id;
         mret (drop_contract <$> omap (join_full t) rows)) (t, db_seqs db) =
    (Ok (drop_contract <$> omap (join_full t') rows), (t', db_seqs db))).
  { unfold sql_update_l2_status, mbind, M_bind, select, gets, id. cbn [fst snd]. rewrite Hleaf.
    unfold sql_update_status, mbind, M_bind, select, gets, id. cbn [fst snd].
    cbn [mbind list_bind app]. rewrite app_nil_r, Hc. done. }
  destruct (exec_live tx _ db _ _ _ Hl Hm) as [db' E].
  destruct (exec_ok _ _ _ _ _ E) as (q' & Hm' & _). fold t in Hm'. rewrite Hm in Hm'.
  injection Hm' as Hv _.
  exists (drop_contract <$> omap (join_full t') rows), db'. split_and!.
  - unfold UpdateL2DepositsStatusXLayer, now. rewrite (M_bind_ok _ _ _ (db_now db) db) by done. by apply query_run.
  - rewrite <- Hv. unfold t', mark_ready. cbn [t_deposit set_deposit].
    apply Forall2_fmap_r, Forall_Forall2_diag, Forall_forall. intros d _. unfold ready_upto, P, compose.
    destruct (dep_ReadyForClaim (dr_dep d)) eqn:Er; cbn [negb orb]; rewrite ?andb_false_r, ?andb_true_r.
    + by rewrite <- Er, set_dep_ready_id.
    + rewrite andb_comm. destruct (_ && _); cbn [dr_dep]; [done|]. by rewrite <- Er, set_dep_ready_id.
  - apply Forall_fmap, Forall_forall. intros x (row & Hrow & Hj)%list_elem_of_omap.
    apply list_elem_of_fmap in Hrow as (d & -> & [HP Hd]%list_elem_of_filter).
    unfold join_full in Hj. apply bind_Some in Hj as (b & _ & [= <-]). cbn.
    unfold P in HP. rewrite !andb_true_iff, !bool_decide_eq_true in HP. by destruct HP as [[? ?] _].
Qed.
End Ready.

(** ** A query that never answers *)

(** The query of [GetNotReadyTransactions] returns 15 columns where 16 are
    scanned: on a live database it answers only when it has nothing to say, and
    fails as soon as there is a deposit that is not ready. *)
Theorem GetNotReadyTransactions_fails limit offset rollup tx db (Hl : db_live tx db) :
  let found := page limit offset (list_full (λ _ d, negb (dep_ReadyForClaim (dr_dep d)) &&
    (bool_decide (dep_NetworkID (dr_dep d) = rollup) ||
     bool_decide (dep_DestinationNetwork (dr_dep d) = rollup))) (view tx db)) in
  (GetNotReadyTransactions limit offset rollup tx db).1 =
    if bool_decide (found = []) then Ok [] else Err (ErrScan 15).
Proof.
  intros found. unfold GetNotReadyTransactions, getDepositList.
  set (f := λ t, page limit offset _).
  destruct (query_select_live tx f db Hl) as [db' E]. erewrite M_bind_ok by exact E.
  change (f (view tx db)) with found. destruct found as [|d ds]; [done|].
  by rewrite (bool_decide_false (15 = 16)%nat), bool_decide_false by done.
Qed.
