(* ===== verification/Restart.v ===== *)
(** * A restart

    [NewBridgeController] of [bridgectrl/bridgectrl.go] on a database that was
    used before: the trees in memory are lost with the process, and are built
    again from the committed tables.  A block whose processing failed can leave a
    tree in memory ahead of its tables; after a restart the same block is stored. *)
From S2P Require Import Prelude Types Hashing MerkleStore MerkleTree MerkleSpec MerkleTreeFacts.
From S2P Require Import MerkleReset Tables Storage StorageFacts SchemaInv Transactions TableInv BridgeCtrl NetTrees.
From S2P Require Import MessageBridge Synchronizer SyncAtomic SyncFacts SyncReorg StorageProps.

(** What a new process finds: the committed tables and the sequences. *)
Definition restarted (faults : list (option fault)) (db : database) : database :=
  mkDatabase (db_committed db) None (db_seqs db) 0 faults (db_now db).

Section Restart.
Context {K : Keccak}.

(** The tables hold a tree of the given height for the network, which can be
    read back. *)
Record readable (t : tables) (height : Z) (Ls : Z → list bytes) (net : Z) : Prop := {
  rd_stored : net_stored t net (Z.to_nat height) (Ls net);
  rd_order : id_order t net;
  rd_hashes : hashes32 (Ls net);
  rd_fits : (length (Ls net) ≤ 2 ^ Z.to_nat height)%nat;
  rd_count : Z.of_nat (length (Ls net)) < 2 ^ 32;
}.

(** ** The last deposit of a network *)
Definition last_root (net : Z) (t : tables) : Z :=
  max_or_minus1 ((λ r : root_row, r.1.2) <$> filter (λ r : root_row, r.2 = net) (t_root t)).
Definition last_count (net : Z) (t : tables) : Z :=
  max_or_minus1 (dep_DepositCount ∘ dr_dep <$> filter (λ d, dep_Id (dr_dep d) = last_root net t) (t_deposit t)).

Lemma deposit_pos t q d : schema_ok t q → d ∈ t_deposit t → 0 < dep_Id (dr_dep d).
Proof.
  intros Hs Hd. pose proof (so_deposit_pos _ _ Hs) as Hp. rewrite Forall_forall in Hp.
  apply Hp, list_elem_of_fmap. by exists d.
Qed.
Lemma last_count_empty t q net height : schema_ok t q → net_stored t net height [] → last_count net t = -1.
Proof.
  intros Hs NS. unfold last_count.
  destruct (max_or_minus1_spec ((λ r : root_row, r.1.2) <$> filter (λ r : root_row, r.2 = net) (t_root t))) as [_ Hin].
  fold (last_root net t) in Hin. destruct Hin as [->|([[r id] n] & _ & [Hn Hr]%list_elem_of_filter)%list_elem_of_fmap].
  - destruct (max_or_minus1_spec (dep_DepositCount ∘ dr_dep <$> filter (λ d, dep_Id (dr_dep d) = -1) (t_deposit t))) as [_ [->|Hc]]; [done|].
    apply list_elem_of_fmap in Hc as (d & _ & [Hid Hd]%list_elem_of_filter). pose proof (deposit_pos _ _ _ Hs Hd). lia.
  - cbn in Hn. subst n. destruct (ns_root _ _ _ _ NS _ _ Hr) as (d & Hd & _ & Hn).
    destruct (ns_deposit _ _ _ _ NS d Hd Hn) as (j & _ & Hj & _). cbn in Hj. lia.
Qed.
Lemma last_root_spec t q net height L d : schema_ok t q → net_stored t net height L → id_order t net →
  d ∈ t_deposit t → dep_NetworkID (dr_dep d) = net → dep_DepositCount (dr_dep d) + 1 = Z.of_nat (length L) →
  last_root net t = dep_Id (dr_dep d).
Proof.
  intros Hs NS Ho Hd Hn Hc. destruct (ns_deposit _ _ _ _ NS d Hd Hn) as (j & Hj & _ & Hr & _).
  pose proof (max_or_minus1_spec ((λ r : root_row, r.1.2) <$> filter (λ r : root_row, r.2 = net) (t_root t))) as [Hub Hin].
  fold (last_root net t) in Hub, Hin.
  assert (dep_Id (dr_dep d) ≤ last_root net t) as Hle.
  { apply Hub, list_elem_of_fmap. eexists. split; [|apply list_elem_of_filter; split; [|exact Hr]]; done. }
  pose proof (deposit_pos _ _ _ Hs Hd). destruct Hin as [Hm|Hin]; [lia|].
  apply list_elem_of_fmap in Hin as ([[r id] n] & Hid & [Hn' Hr']%list_elem_of_filter). cbn in Hn', Hid. subst n.
  destruct (ns_root _ _ _ _ NS _ _ Hr') as (d' & Hd' & Hid' & Hn').
  destruct (ns_deposit _ _ _ _ NS d' Hd' Hn') as (j' & Hj' & Hlt & _).
  destruct (decide (j' = j)) as [->|Hne].
  - assert (d' = d) as -> by (eapply deposit_key_inj; [exact Hs|..]; congruence). congruence.
  - assert (dep_Id (dr_dep d') < dep_Id (dr_dep d)); [|lia]. apply Ho; try done. lia.
Qed.
Lemma last_count_spec t q net height L : schema_ok t q → net_stored t net height L → id_order t net →
  last_count net t = Z.of_nat (length L) - 1.
Proof.
  intros Hs NS Ho. destruct L as [|x L]; [by eapply last_count_empty|].
  destruct (ns_all _ _ _ _ NS (length L)) as (d & Hd & Hn & Hc); [cbn; lia|].
  pose proof (last_root_spec _ _ _ _ _ d Hs NS Ho Hd Hn ltac:(cbn; lia)) as Hlast.
  unfold last_count. rewrite Hlast.
  destruct (max_or_minus1_spec (dep_DepositCount ∘ dr_dep <$> filter (λ d', dep_Id (dr_dep d') = dep_Id (dr_dep d)) (t_deposit t))) as [Hub Hin].
  assert (dep_DepositCount (dr_dep d) ≤ max_or_minus1 (dep_DepositCount ∘ dr_dep <$> filter (λ d', dep_Id (dr_dep d') = dep_Id (dr_dep d)) (t_deposit t))) as Hle.
  { apply Hub, list_elem_of_fmap. exists d. split; [done|]. by apply list_elem_of_filter. }
  destruct Hin as [Hm|Hin]; [lia|]. apply list_elem_of_fmap in Hin as (d' & He & [Hid Hd']%list_elem_of_filter).
  assert (d' = d) as -> by (by eapply deposit_id_inj). rewrite He. cbn. rewrite Hc. lia.
Qed.

(** ** The tree of a network *)
(** A read outside a transaction: the tables, the sequences and the transaction
    are as before. *)
Definition same_rows (db0 db : database) : Prop :=
  db_committed db = db_committed db0 ∧ db_seqs db = db_seqs db0 ∧ db_tx db = db_tx db0.
#[global] Instance same_rows_preorder : PreOrder same_rows.
Proof. split; unfold same_rows; [done|]. intros db1 db2 db3 (? & ? & ?) (? & ? & ?). split_and!; congruence. Qed.
Lemma same_select db0 A (f : tables → A) : preserves (same_rows db0) (exec nil_tx (select f)).
Proof.
  intros [tb otx q0 lk fs nw] r db' H. unfold exec, pop_fault, mbind, M_bind.
  destruct fs as [|[c|] fs]; cbn; by intros [= _ <-].
Qed.
Lemma same_row db0 A (f : tables → option A) : preserves (same_rows db0) (not_found (query_row nil_tx f)).
Proof. apply pres_map_err. unfold query_row. apply pres_bind; [apply same_select|intros; apply pres_scan]. Qed.
Lemma same_Get db0 k : preserves (same_rows db0) (Get k nil_tx).
Proof. apply same_row. Qed.
Lemma same_GetRoot db0 c n : preserves (same_rows db0) (GetRoot c n nil_tx).
Proof. apply same_row. Qed.
Lemma same_initSiblings db0 : preserves (λ s : MerkleTree * database, same_rows db0 s.2) (initSiblings nil_tx).
Proof.
  unfold initSiblings, getRoot. apply pres_bind; [auto with pres|intros mt]. destruct (bool_decide _); [auto with pres|].
  apply pres_bind; [|intros root; cbv zeta].
  - apply pres_bind; [auto with pres|intros mt']. destruct (bool_decide _); [auto with pres|].
    apply (pres_store (same_rows db0)), same_GetRoot.
  - apply pres_bind; [|auto with pres]. apply (pres_store (same_rows db0)), pres_initSiblings_loop, same_Get.
Qed.

Lemma GetLastDepositCount_live net db : db_live nil_tx db → ∃ db',
  GetLastDepositCount net nil_tx db = ((if bool_decide (last_count net (db_committed db) < 0) then Err ErrStorageNotFound
                                        else Ok (wrap32 (last_count net (db_committed db)))), db') ∧
  db_live nil_tx db' ∧ same_rows db db'.
Proof.
  intros Hl. destruct (select_live nil_tx (last_count net) db Hl) as [db' E].
  destruct (select_ok _ _ _ _ _ E) as (_ & _ & _ & Hl').
  exists db'. split; [|split; [auto|by eapply same_select]]. unfold GetLastDepositCount. 
  change (exec nil_tx _) with (exec nil_tx (select (last_count net))).
  unfold mbind, M_bind, attempt. rewrite E. by change (view nil_tx db) with (db_committed db); case_bool_decide.
Qed.

(** Reading the siblings of the first [c] leaves. *)
Lemma siblings_read db height net c Ls :
  1 ≤ height ≤ 64 → db_live nil_tx db → schema_ok (db_committed db) (db_seqs db) →
  readable (db_committed db) height Ls net → no_collision (t_rht (db_committed db)) → (c ≤ length (Ls net))%nat →
  ∃ S db', with_receiver (mkMerkleTree net height (Z.of_nat c) []) (initSiblings nil_tx) db = (Ok S, db') ∧
    represents (set_siblings S (mkMerkleTree net height (Z.of_nat c) [])) (take c (Ls net)) ∧
    db_live nil_tx db' ∧ same_rows db db'.
Proof.
  intros Hh Hl Hs [NS Ho H32 Hfit Hcnt] Hnc Hle. set (mt := mkMerkleTree net height (Z.of_nat c) []).
  destruct (initSiblings_prefix nil_tx mt db (Ls net) c) as (S & db' & E & HS & Hl' & _); try done.
  { by apply net_stored_tree. }
  exists S, db'. split; [unfold with_receiver; by rewrite E|].
  pose proof (same_initSiblings db (mt, db) _ _ (reflexivity db) E) as Hsame.
  split; [|by split]. split_and!; [|cbn; lia..|by apply Forall_take|done].
  cbn. by rewrite length_take, Nat.min_l.
Qed.

Lemma NewMerkleTree_reads db height net Ls :
  1 ≤ height ≤ 64 → db_live nil_tx db → schema_ok (db_committed db) (db_seqs db) →
  readable (db_committed db) height Ls net → no_collision (t_rht (db_committed db)) →
  ∃ mt db', NewMerkleTree height net db = (Ok mt, db') ∧ represents mt (Ls net) ∧ mt_networkID mt = net ∧
    mt_height mt = height ∧ db_live nil_tx db' ∧ same_rows db db'.
Proof.
  intros Hh Hl Hs Hr Hnc. pose proof Hr as [NS Ho _ _ Hcnt].
  pose proof (last_count_spec _ _ _ _ _ Hs NS Ho) as Hlast.
  destruct (GetLastDepositCount_live net db Hl) as (db1 & E1 & Hl1 & Hsame1). pose proof Hsame1 as (Hc1 & Hq1 & _). rewrite Hlast in E1.
  rewrite <- Hc1, <- Hq1 in Hs. rewrite <- Hc1 in Hr, Hnc.
  destruct (siblings_read db1 height net (length (Ls net)) Ls Hh Hl1 Hs Hr Hnc) as (S & db2 & E2 & Hrep & Hl2 & Hsame2); [done|].
  rewrite take_ge in Hrep by done.
  eexists _, db2. split; [|split_and!; [exact Hrep|done|done|done|by etrans]].
  - unfold NewMerkleTree. cbn [st_GetLastDepositCount pgStore].
    assert (attempt (GetLastDepositCount net nil_tx) db =
      (Ok (if bool_decide (Z.of_nat (length (Ls net)) - 1 < 0) then inr ErrStorageNotFound
           else inl (wrap32 (Z.of_nat (length (Ls net)) - 1))), db1)) as Ea.
    { unfold attempt. rewrite E1. by case_bool_decide. }
    rewrite (M_bind_ok _ _ _ _ _ Ea).
    erewrite M_bind_ok with (a := Z.of_nat (length (Ls net))) (s' := db1).
    + by rewrite (M_bind_ok _ _ _ _ _ E2).
    + case_bool_decide as H0; cbn.
      * rewrite bool_decide_false by tauto. unfold mret, M_ret. do 2 f_equal. lia.
      * unfold mret, M_ret. do 2 f_equal. unfold wrap32. rewrite (wrap_id 32 (_ - 1)) by (unfold in_width; lia).
        rewrite wrap_id by (unfold in_width; lia). lia.
Qed.

(** ** The controller *)

(** The trees built so far: each registered network has its own. *)
Definition trees_built (t : tables) (height : Z) (Ls : Z → list bytes) (ids : gmap Z Z) (trees : list MerkleTree) : Prop :=
  ∀ net tID, ids !! net = Some tID → 0 ≤ tID ∧ ∃ mt, trees !! Z.to_nat tID = Some mt ∧
    mt_networkID mt = net ∧ mt_height mt = height ∧ represents mt (Ls net) ∧ net_stored t net (Z.to_nat height) (Ls net).

Lemma trees_built_snoc t height Ls ids trees mt net : trees_built t height Ls ids trees → Z.of_nat (length trees) < 256 →
  mt_networkID mt = net → mt_height mt = height → represents mt (Ls net) → net_stored t net (Z.to_nat height) (Ls net) →
  trees_built t height Ls (<[net := wrap8 (Z.of_nat (length trees))]> ids) (trees ++ [mt]).
Proof.
  intros Hb Hlt Hn Hh Hr NS n tID. unfold wrap8. rewrite wrap_id by (unfold in_width; lia).
  destruct (decide (n = net)) as [->|Hne].
  - rewrite lookup_insert_eq. intros [= <-]. split; [lia|]. exists mt. rewrite Nat2Z.id. split; [|done].
    by rewrite lookup_app_r, Nat.sub_diag by done.
  - rewrite lookup_insert_ne by done. intros H. destruct (Hb _ _ H) as (Hp & mt' & E & Hrest). split; [done|].
    exists mt'. split; [|done]. rewrite lookup_app_l; [done|]. by eapply lookup_lt_Some.
Qed.

Section Controller.
Context (height : Z) (Ls : Z → list bytes) (Hheight : 1 ≤ height ≤ 64).

Lemma newExitTrees_reads nets : ∀ db ids trees,
  db_live nil_tx db → schema_ok (db_committed db) (db_seqs db) → no_collision (t_rht (db_committed db)) →
  Forall (readable (db_committed db) height Ls) nets → Z.of_nat (length trees + length nets) ≤ 256 →
  trees_built (db_committed db) height Ls ids trees →
  ∃ ids' trees' db', newExitTrees height (Z.of_nat (length trees)) nets ids trees db = (Ok (ids', trees'), db') ∧
    trees_built (db_committed db) height Ls ids' trees' ∧ (∀ net, is_Some (ids' !! net) ↔ net ∈ nets ∨ is_Some (ids !! net)) ∧
    db_live nil_tx db' ∧ same_rows db db'.
Proof.
  induction nets as [|net nets IH]; intros db ids trees Hl Hs Hnc Hr Hlen Hb; cbn [newExitTrees].
  - exists ids, trees, db. split_and!; try done. intros net. split; [by right|]. intros [H|H]; [by apply not_elem_of_nil in H|done].
  - apply Forall_cons in Hr as [Hr Hrs]. cbn [length] in Hlen.
    destruct (NewMerkleTree_reads db height net Ls Hheight Hl Hs Hr Hnc) as (mt & db1 & E1 & Hrep & Hn & Hh & Hl1 & Hsame1).
    pose proof Hsame1 as (Hc1 & Hq1 & _). rewrite (M_bind_ok _ _ _ _ _ E1). replace (Z.of_nat (length trees) + 1) with (Z.of_nat (length (trees ++ [mt]))) by (rewrite length_app; cbn; lia).
    destruct (IH db1 (<[net := wrap8 (Z.of_nat (length trees))]> ids) (trees ++ [mt])) as (ids' & trees' & db' & E & Hb' & Hin & Hl' & Hsame');
      rewrite ?Hc1, ?Hq1; try done; [rewrite length_app; cbn; lia|apply trees_built_snoc; try done; [lia|apply Hr]|].
    exists ids', trees', db'. rewrite Hc1 in Hb'. split_and!; [done|done| |done|by etrans].
    intros n. rewrite Hin, elem_of_cons. destruct (decide (n = net)) as [->|Hne].
    + rewrite lookup_insert_eq. split; intros _; [left; by left|right; by eexists].
    + rewrite lookup_insert_ne by done. tauto.
Qed.

Lemma NewBridgeController_reads nets db
  (Hlive : db_live nil_tx db) (Hok : schema_ok (db_committed db) (db_seqs db))
  (Hnc : no_collision (t_rht (db_committed db))) (Hlen : Z.of_nat (length nets) ≤ 256)
  (Hread : Forall (readable (db_committed db) height Ls) (nets ++ [MaxInt32])) :
  ∃ bt db', NewBridgeController height nets db = (Ok bt, db') ∧
    forest (db_committed db') bt Ls ∧ represents (bt_rollupsTree bt) (Ls MaxInt32) ∧
    (∀ net, is_Some (tree_of bt net) ↔ net ∈ nets) ∧ (∀ net mt, tree_of bt net = Some mt → mt_height mt = height) ∧
    db_live nil_tx db' ∧ same_rows db db'.
Proof.
  apply Forall_app in Hread as [Hread [Hlast _]%Forall_cons].
  destruct (newExitTrees_reads nets db ∅ []) as (ids & trees & db1 & E1 & Hb & Hin & Hl1 & Hsame1); try done.
  pose proof Hsame1 as (Hc1 & Hq1 & _). rewrite <- Hc1 in Hlast, Hnc. rewrite <- Hc1, <- Hq1 in Hok.
  destruct (NewMerkleTree_reads db1 height MaxInt32 Ls Hheight Hl1 Hok Hlast Hnc) as (rt & db2 & E2 & Hrep & _ & _ & Hl2 & Hsame2).
  pose proof Hsame2 as (Hc2 & _).
  assert (∀ net mt, tree_of (mkBridgeController trees rt ids) net = Some mt →
    mt_networkID mt = net ∧ mt_height mt = height ∧ represents mt (Ls net) ∧ net_stored (db_committed db) net (Z.to_nat height) (Ls net)) as Htree.
  { intros net mt Ht. unfold tree_of in Ht. cbn in Ht. destruct (ids !! net) as [tID|] eqn:Ei; [|done]. cbn in Ht.
    destruct (Hb _ _ Ei) as (_ & mt' & Emt & Hrest). rewrite Ht in Emt. by injection Emt as <-. }
  exists (mkBridgeController trees rt ids), db2. split_and!; [| |done| | |done|by etrans].
  - unfold NewBridgeController. rewrite (M_bind_ok _ _ _ _ _ E1). by rewrite (M_bind_ok _ _ _ _ _ E2).
  - rewrite Hc2, Hc1. split.
    + intros net tID Ei. destruct (Hb _ _ Ei) as (Hp & mt & Emt & Hn & _). split; [done|]. by exists mt.
    + intros net mt Ht. destruct (Htree net mt Ht) as (Hn & Hh & Hr & NS). by rewrite Hh.
  - intros net. specialize (Hin net). rewrite lookup_empty in Hin. unfold tree_of. cbn.
    destruct (ids !! net) as [tID|] eqn:Ei; cbn.
    + destruct (Hb _ _ Ei) as (_ & mt & -> & _). split; [|by eauto]. intros _. destruct Hin as [Hin _]. destruct (Hin ltac:(eauto)) as [?|[? [=]]]. done.
    + split; [by intros [? [=]]|]. intros Hnet. destruct Hin as [_ Hin]. destruct (Hin (or_introl Hnet)) as [? [=]].
  - intros net mt Ht. by destruct (Htree net mt Ht) as (_ & Hh & _).
Qed.

(** C4. A restart loses nothing: on a live database whose committed tables hold
    the leaves of every network, [NewBridgeController] succeeds, and the trees it
    builds are again those of the stored deposits, one for each network of the
    configuration and the tree of the rollups; it changes no table. *)
Theorem NewBridgeController_rebuilds nets db
  (Hlive : db_live nil_tx db) (Hok : schema_ok (db_committed db) (db_seqs db))
  (Hnc : no_collision (t_rht (db_committed db))) (Hlen : Z.of_nat (length nets) ≤ 256)
  (Hread : Forall (readable (db_committed db) height Ls) (nets ++ [MaxInt32])) :
  ∃ bt db', NewBridgeController height nets db = (Ok bt, db') ∧
    forest (db_committed db') bt Ls ∧ represents (bt_rollupsTree bt) (Ls MaxInt32) ∧
    (∀ net, is_Some (tree_of bt net) ↔ net ∈ nets) ∧ (∀ net mt, tree_of bt net = Some mt → mt_height mt = height) ∧
    db_live nil_tx db' ∧ same_rows db db'.
Proof. by apply NewBridgeController_reads. Qed.

(** C5. A restart repairs what a failure left behind.  For a synchronizer without
    Redis and a block that holds deposits only: when the processing of the block
    failed, whatever the reason, a process that starts again on the same database,
    which now answers every query, builds its trees, and then stores the block: its
    deposits follow the leaves that were stored before, as if nothing had
    happened. *)
Theorem failed_block_stored_after_restart {Abi : TokenAbi} {E : Type} {Env : Environment E} (cfg : Config) nets
    block order flags (s s1 : ClientSynchronizer E) r leaves
  (Hfailed : processBlock cfg block order flags s = (r, s1)) (Hr : is_ok r = false)
  (Hok : schema_ok (db_committed (ss_db s)) (db_seqs (ss_db s1)))
  (Hnc : no_collision (t_rht (db_committed (ss_db s)))) (Hlen : Z.of_nat (length nets) ≤ 256)
  (Hread : Forall (readable (db_committed (ss_db s)) height Ls) (nets ++ [MaxInt32])) (Hnet : cfg_networkID cfg ∈ nets)
  (Hredis : cfg_redis cfg = false)
  (Hn : blk_BlockNumber block < 2 ^ 63) (Hseq : sq_block (db_seqs (ss_db s1)) + 1 < 2 ^ 63)
  (Hfo : follow (Z.to_nat height) (Ls (cfg_networkID cfg)) (blk_Deposits block) leaves)
  (Hfit : (length (Ls (cfg_networkID cfg)) + length (blk_Deposits block) ≤ 2 ^ Z.to_nat height)%nat)
  (H32 : Z.of_nat (length (Ls (cfg_networkID cfg)) + length (blk_Deposits block)) < 2 ^ 32)
  (Horder : order !! blk_BlockHash block =
     Some ((λ i, mkOrder DepositsOrder (Z.of_nat i)) <$> seq 0 (length (blk_Deposits block)))) :
  ∃ bt db, NewBridgeController height nets (restarted [] (ss_db s1)) = (Ok bt, db) ∧
    ∀ env synced l1 wait sent, ∃ s3 Ls',
      processBlock cfg block order flags (mkSync bt db env synced l1 wait sent) = (Ok flags, s3) ∧
      forest (db_committed (ss_db s3)) (ss_ctrl s3) Ls' ∧
      Ls' (cfg_networkID cfg) = Ls (cfg_networkID cfg) ++ leaves ∧ ∀ n, n ≠ cfg_networkID cfg → Ls' n = Ls n.
Proof.
  pose proof (processBlock_keeps cfg (db_committed (ss_db s)) block order flags s r s1 eq_refl Hfailed Hr) as Hc. unfold dbP in Hc.
  destruct (NewBridgeController_reads nets (restarted [] (ss_db s1))) as (bt & db & Eb & Hf & _ & Hin & Hh & [Hfa _] & (Hcd & Hqd & Htx));
    cbn [restarted db_committed db_seqs]; rewrite ?Hc; try done.
  cbn [restarted db_committed db_seqs db_tx] in Hcd, Hqd, Htx.
  exists bt, db. split; [done|]. intros env synced l1 wait sent.
  destruct (proj2 (Hin (cfg_networkID cfg)) Hnet) as [mt Hmt]. pose proof (Hh _ _ Hmt) as Hmh.
  destruct (processBlock_run cfg block order flags (mkSync bt db env synced l1 wait sent) Ls mt leaves)
    as (s3 & Ls' & E3 & Hf3 & HL & Hother & _); rewrite ?Hmh; try done.
  { split; cbn [ss_db]; [by rewrite Hcd, Hqd, Hc|by rewrite Htx]. }
  { cbn [ss_db]. by rewrite Hqd. }
  by exists s3, Ls'.
Qed.

(** No root is stored for a network without leaves. *)
Lemma first_root_missing db net : net_stored (db_committed db) net (Z.to_nat height) [] → db_live nil_tx db →
  ∃ db', GetRoot 0 net nil_tx db = (Err ErrStorageNotFound, db') ∧ same_rows db db'.
Proof.
  intros NS Hl. unfold GetRoot, query_row. set (f := λ t : tables, head _).
  destruct (select_live nil_tx f db Hl) as [db' E]. exists db'. split; [|by eapply same_select].
  unfold not_found, map_err. rewrite (M_bind_ok _ _ _ _ _ E).
  destruct (f (view nil_tx db)) as [x|] eqn:Ef; [|done]. exfalso. unfold f in Ef.
  apply head_Some_elem, list_elem_of_bind in Ef as ([[r id] n] & _ & [Hn Hr]%list_elem_of_filter). cbn in Hn. subst n.
  destruct (ns_root _ _ _ _ NS _ _ Hr) as (d & Hd & _ & Hn).
  destruct (ns_deposit _ _ _ _ NS d Hd Hn) as (j & _ & Hj & _). cbn in Hj. lia.
Qed.

(** C8. A failure that nobody notices: the tables are readable and hold the leaves
    [Ls net], and of the queries of the start-up only the one for the last deposit
    of the network fails.  The error is dropped and the count of the last deposit
    taken for zero.  For a network with leaves the tree is then built from the first
    leaf alone, with count 1, which is wrong as soon as there are more leaves; for a
    network without leaves the start-up fails, since the root of that first leaf is
    not found. *)
Theorem failed_count_query net db f
  (Hfault : db_faults db = [Some f]) (Hok : schema_ok (db_committed db) (db_seqs db))
  (Hread : readable (db_committed db) height Ls net) (Hnc : no_collision (t_rht (db_committed db))) :
  ∃ db', db_committed db' = db_committed db ∧
    match Ls net with
    | [] => NewMerkleTree height net db = (Err ErrStorageNotFound, db')
    | leaf :: leaves => ∃ mt, NewMerkleTree height net db = (Ok mt, db') ∧ mt_networkID mt = net ∧
        represents mt [leaf] ∧ mt_count mt = 1 ∧ (mt_count mt = Z.of_nat (length (Ls net)) ↔ leaves = [])
    end.
Proof.
  destruct db as [t otx q lk fs nw]. cbn in Hfault, Hok, Hread, Hnc. subst fs.
  set (db1 := mkDatabase t otx q lk [] nw).
  assert (Hcount : attempt (GetLastDepositCount net nil_tx) (mkDatabase t otx q lk [Some f] nw) = (Ok (inl 0), db1)) by reflexivity.
  unfold NewMerkleTree. cbn [st_GetLastDepositCount pgStore].
  rewrite (M_bind_ok _ _ _ _ _ Hcount). rewrite (M_bind_ok _ _ _ 1 db1) by reflexivity.
  destruct (Ls net) as [|leaf leaves] eqn:EL.
  - destruct (first_root_missing db1 net) as (db2 & E2 & Hc2 & _); [rewrite <- EL; apply Hread|done|].
    exists db2. split; [exact Hc2|]. unfold with_receiver, initSiblings, getRoot, on_store, zoom, gets.
    unfold mbind, M_bind. cbn [fst snd mt_count]. rewrite !bool_decide_false by done.
    cbn [fst snd mt_count mt_networkID st_GetRoot pgStore]. change (wrap32 (1 - 1)) with 0. by rewrite E2.
  - destruct (siblings_read db1 height net 1 Ls) as (S & db2 & E2 & Hrep & _ & (Hc2 & _));
      [done|done|done|done|done|rewrite EL; cbn; lia|].
    rewrite EL in Hrep. exists db2. split; [exact Hc2|]. exists (set_siblings S (mkMerkleTree net height 1 [])).
    cbv zeta. rewrite (M_bind_ok _ _ _ _ _ E2). split_and!; [done|done|exact Hrep|done|].
    cbn [mt_count set_siblings length]. destruct leaves; cbn; [done|]. split; [lia|done].
Qed.
End Controller.
End Restart.
