(* ===== verification/ChannelMonitor.v ===== *)
(** * Without a claim manager

    [cmd/run.go] and [cmd/xlayer_run.go]: the goroutine that passes the end of the
    synchronization of L1 on to every rollup, and [monitorChannel], which takes the
    place of the claim manager of a network when claims are not sent: a global exit
    root only makes deposits ready. *)
From S2P Require Import Prelude Types Hashing MerkleStore MerkleTree MerkleSpec Tables Storage StorageFacts SchemaInv.
From S2P Require Import MerkleReset NetTrees SyncFacts StorageProps.

(** [for _, ch := range chsSyncedL2 { ch <- netID }], for each message of L1: the
    messages of each channel, in their order. *)
Definition forward_synced (chsSyncedL2 : nat) (chSynced : list Z) : list (list Z) :=
  replicate chsSyncedL2 chSynced.

Inductive ChannelEvent : Type := ChGer (ger : GlobalExitRoot) | ChSynced (netID : Z) | ChDone.

(** An error of the rollback is only logged. *)
Definition rolled_back (dbTx : Tx) : M database unit := _ ← attempt (Rollback dbTx); mret tt.
Definition or_rolled_back {A} (dbTx : Tx) (m : M database A) (next : M database unit) : M database unit :=
  r ← attempt m;
  match r with inl _ => next | inr _ => rolled_back dbTx end.

(** One global exit root.  Without exit roots the loop goes on with the
    transaction still open. *)
Definition monitor_ger (networkID : Z) (ger : GlobalExitRoot) : M database unit :=
  r ← attempt BeginDBTransaction;
  match r with
  | inr _ => mret tt
  | inl dbTx =>
      let commit := or_rolled_back dbTx (Commit dbTx) (mret tt) in
      if bool_decide (ger_BlockID ger ≠ 0) && bool_decide (ger_NetworkID ger = 0) then
        if bool_decide (length (ger_ExitRoots ger) = 0%nat) then mret tt
        else
          root ← lift_res (at_index (ger_ExitRoots ger) 1);
          or_rolled_back dbTx (UpdateL2DepositsStatus root networkID networkID dbTx) commit
      else
        if bool_decide (length (ger_ExitRoots ger) = 0%nat) then mret tt
        else
          root ← lift_res (at_index (ger_ExitRoots ger) 0);
          or_rolled_back dbTx (UpdateL1DepositsStatus root networkID dbTx) commit
  end.
Fixpoint monitorChannel (networkID : Z) (events : list ChannelEvent) : M database unit :=
  match events with
  | [] | ChDone :: _ => mret tt
  | ChGer ger :: events => monitor_ger networkID ger;; monitorChannel networkID events
  | ChSynced _ :: events => monitorChannel networkID events
  end.

(** ** Properties *)
Section Facts.
Context {K : Keccak}.

(** A global exit root of L1, as its synchronizer sends it. *)
Definition from_l1 (ger : GlobalExitRoot) : bool :=
  bool_decide (ger_BlockID ger ≠ 0) && bool_decide (ger_NetworkID ger = 0).
(** A row after the deposits selected by [P] are made ready. *)
Definition ready_if (P : Deposit → bool) (d d' : deposit_row) : Prop :=
  dr_dep d' = set_dep_ready (dep_ReadyForClaim (dr_dep d) || P (dr_dep d)) (dr_dep d).

Lemma mark_ready_rows (P : Deposit → bool) t :
  Forall2 (ready_if P) (t_deposit t) (t_deposit (mark_ready (λ d, P d && negb (dep_ReadyForClaim d)) None t)).
Proof.
  unfold mark_ready. cbn [t_deposit set_deposit].
  apply Forall2_fmap_r, Forall_Forall2_diag, Forall_forall. intros d _. unfold ready_if, compose.
  destruct (dep_ReadyForClaim (dr_dep d)) eqn:Er; cbn [negb orb]; rewrite ?andb_false_r, ?andb_true_r.
  - by rewrite <- Er, set_dep_ready_id.
  - destruct (P _); cbn [dr_dep]; [done|]. by rewrite <- Er, set_dep_ready_id.
Qed.

(** An update that succeeds on the committed tables is committed. *)
Lemma update_committed {A B} (m : SQL A) (p : Tx → M database B) (b : B) db a t' :
  (∀ tx db1 db2, exec tx m db1 = (Ok a, db2) → p tx db1 = (Ok b, db2)) →
  db_faults db = [] → m (db_committed db, db_seqs db) = (Ok a, (t', db_seqs db)) →
  ∃ db', (r ← attempt BeginDBTransaction;
     match r with
     | inr _ => mret tt
     | inl dbTx => or_rolled_back dbTx (p dbTx) (or_rolled_back dbTx (Commit dbTx) (mret tt))
     end) db = (Ok tt, db') ∧ db_committed db' = t' ∧ db_tx db' = None ∧ db_faults db' = [].
Proof.
  intros Hp Hf Hm. destruct (begin_live db Hf) as (db1 & E1 & Hl1 & Hv1 & Hc1 & Hq1).
  rewrite <- Hv1, <- Hq1 in Hm. destruct (exec_live open_tx m db1 a _ _ Hl1 Hm) as [db2 E2].
  destruct (exec_ok _ _ _ _ _ E2) as (q' & Hm' & _ & _ & _ & _ & _ & Hl2). rewrite Hm in Hm'. injection Hm' as Ht _.
  destruct (commit_live db2 (Hl2 Hl1)) as (db3 & E3 & Hc3 & Htx3 & Hf3).
  exists db3. split_and!; [|by rewrite Ht|done..]. unfold or_rolled_back, mbind, M_bind, attempt.
  rewrite E1, (Hp _ _ _ E2). unfold mret, M_ret, mbind, M_bind, attempt. by rewrite E3.
Qed.

(** The tables after such an exit root. *)
Definition covered (networkID : Z) (l1 : bool) (k : nat) (d : Deposit) : bool :=
  bool_decide (dep_DepositCount d ≤ Z.of_nat k) &&
  if l1 then bool_decide (dep_NetworkID d = networkID)
  else bool_decide (dep_NetworkID d = 0) && bool_decide (dep_DestinationNetwork d = networkID).
Definition mark_covered (networkID : Z) (l1 : bool) (k : nat) (t : tables) : tables :=
  mark_ready (λ d, covered networkID l1 k d && negb (dep_ReadyForClaim d)) None t.

Section Exit.
Context (networkID : Z) (ger : GlobalExitRoot) (db : database) (h : nat) (L : list bytes) (k : nat).
Context (Hlive : db_faults db = []) (Hs : schema_ok (db_committed db) (db_seqs db)) (Hdist : distinct_roots h L).
Context (Hk : (k < length L)%nat).
Abbreviation t := (db_committed db).
Abbreviation root_k := (merkle_root h (take (S k) L)).

(** One of L1. *)
Lemma monitor_l1 r0 root rest : from_l1 ger = true → net_stored t networkID h L →
  ger_ExitRoots ger = r0 :: root :: rest → rollup_leaves root networkID t = [root_k] →
  ∃ db', monitor_ger networkID ger db = (Ok tt, db') ∧ db_committed db' = mark_covered networkID true k t ∧
    db_tx db' = None ∧ db_faults db' = [].
Proof.
  intros El NS Hg Hleaf. pose proof (root_counts_unique t _ _ h L k Hs NS Hdist Hk) as Hc.
  unfold monitor_ger. fold (from_l1 ger). rewrite El, Hg. cbn [length].
  rewrite bool_decide_false by done. rewrite at_index_1.
  refine (update_committed (sql_update_l2_status root networkID networkID None)
    (UpdateL2DepositsStatus root networkID networkID) tt db
    ((λ d, mkDepositRow (set_dep_ready true (dr_dep d)) (dr_ready_time d)) <$>
        filter (λ d, covered networkID true k (dr_dep d) && negb (dep_ReadyForClaim (dr_dep d)) = true) (t_deposit t))
    (mark_covered networkID true k t) _ Hlive _).
  { intros tx db1 db2 E. unfold UpdateL2DepositsStatus. by rewrite (M_bind_ok _ _ _ _ _ E). }
  unfold sql_update_l2_status, mbind, M_bind, select, gets, id. cbn [fst snd]. rewrite Hleaf.
  unfold sql_update_status, mbind, M_bind, select, gets, id. cbn [fst snd].
  cbn [mbind list_bind app]. rewrite app_nil_r, Hc. done.
Qed.

(** One of a rollup. *)
Lemma monitor_l2 rest : from_l1 ger = false → net_stored t 0 h L → ger_ExitRoots ger = root_k :: rest →
  ∃ db', monitor_ger networkID ger db = (Ok tt, db') ∧ db_committed db' = mark_covered networkID false k t ∧
    db_tx db' = None ∧ db_faults db' = [].
Proof.
  intros El NS Hg. pose proof (root_counts_unique t _ _ h L k Hs NS Hdist Hk) as Hc.
  unfold monitor_ger. fold (from_l1 ger). rewrite El, Hg. cbn [length].
  rewrite bool_decide_false by done. rewrite at_index_0.
  set (Q := λ d, bool_decide (dep_DepositCount d ≤ Z.of_nat k) && bool_decide (dep_NetworkID d = 0) &&
      negb (dep_ReadyForClaim d) && bool_decide (dep_DestinationNetwork d = networkID)).
  assert (mark_covered networkID false k t = mark_ready Q None t) as ->.
  { unfold mark_covered, mark_ready. f_equal. apply list_fmap_ext. intros i d _. unfold Q, covered.
    by destruct (bool_decide _), (bool_decide _), (bool_decide _), (negb _). }
  eapply (update_committed (sql_update_status (root_counts root_k 0)
      (λ n d, bool_decide (dep_DepositCount d ≤ n) && bool_decide (dep_NetworkID d = 0) &&
         negb (dep_ReadyForClaim d) && bool_decide (dep_DestinationNetwork d = networkID)) None)
    (UpdateL1DepositsStatus root_k networkID) _ db _ (mark_ready Q None t)); [|done|].
  { intros tx db1 db2 E%query_run. unfold UpdateL1DepositsStatus. by rewrite (M_bind_ok _ _ _ _ _ E). }
  unfold sql_update_status, mbind, M_bind, select, gets, id. cbn [fst snd]. rewrite Hc. reflexivity.
Qed.
End Exit.

(** C37. While the storage answers, a global exit root of L1 makes ready exactly
    the deposits of the rollup that the local exit root under it covers, one of a
    rollup exactly the deposits of L1 to this network that its mainnet exit root
    covers; the change is committed and the transaction closed. *)
Theorem monitor_ger_ready networkID ger db h L k
  (Hlive : db_faults db = []) (Hs : schema_ok (db_committed db) (db_seqs db)) (Hdist : distinct_roots h L)
  (Hk : (k < length L)%nat)
  (NS : net_stored (db_committed db) (if from_l1 ger then networkID else 0) h L)
  (Hroot : if from_l1 ger
    then ∃ r0 root rest, ger_ExitRoots ger = r0 :: root :: rest ∧
      rollup_leaves root networkID (db_committed db) = [merkle_root h (take (S k) L)]
    else ∃ rest, ger_ExitRoots ger = merkle_root h (take (S k) L) :: rest) :
  ∃ db', monitor_ger networkID ger db = (Ok tt, db') ∧ db_tx db' = None ∧
    Forall2 (ready_if (λ d, bool_decide (dep_DepositCount d ≤ Z.of_nat k) &&
        if from_l1 ger then bool_decide (dep_NetworkID d = networkID)
        else bool_decide (dep_NetworkID d = 0) && bool_decide (dep_DestinationNetwork d = networkID)))
      (t_deposit (db_committed db)) (t_deposit (db_committed db')).
Proof.
  assert (∀ db', db_committed db' = mark_covered networkID (from_l1 ger) k (db_committed db) →
    Forall2 (ready_if (covered networkID (from_l1 ger) k)) (t_deposit (db_committed db)) (t_deposit (db_committed db'))) as Hrows.
  { intros db' ->. apply mark_ready_rows. }
  destruct (from_l1 ger) eqn:El.
  - destruct Hroot as (r0 & root & rest & Hg & Hleaf).
    destruct (monitor_l1 networkID ger db h L k Hlive Hs Hdist Hk r0 root rest El NS Hg Hleaf) as (db' & E & Hc & Htx & _).
    exists db'. split_and!; [done|done|exact (Hrows db' Hc)].
  - destruct Hroot as (rest & Hg).
    destruct (monitor_l2 networkID ger db h L k Hlive Hs Hdist Hk rest El NS Hg) as (db' & E & Hc & Htx & _).
    exists db'. split_and!; [done|done|exact (Hrows db' Hc)].
Qed.

(** A global exit root without exit roots leaves its transaction open, and
    the next one leaves it behind for ever. *)
Theorem skipped_ger_leaves_transaction networkID ger db (Hlive : db_faults db = []) (Hskip : ger_ExitRoots ger = []) :
  ∃ db', monitor_ger networkID ger db = (Ok tt, db') ∧ db_tx db' ≠ None ∧
    ∃ db'', BeginDBTransaction db' = (Ok open_tx, db'') ∧ db_leaked db'' = (db_leaked db' + 1)%nat.
Proof.
  destruct db as [tb otx q lk fs nw]. cbn in Hlive. subst fs. unfold monitor_ger. rewrite Hskip.
  eexists. split; [by destruct (_ && _)|]. split; [done|]. by eexists.
Qed.
End Facts.
