(* ===== verification/Hex.v ===== *)
(** * Hexadecimal strings

    [hex/hex.go], with the parts of Go's [encoding/hex], [strings], [strconv],
    [fmt] and [math/big] it calls.  A Go string is a list of bytes. *)
From S2P Require Import Prelude.

Definition Base : Z := 16.
Definition prefix_0x : bytes := [x30; x78].
Definition BadNibble : Z := 2 ^ 64 - 1.
(** [encoding/hex.InvalidByteError] and [ErrLength]. *)
Definition ErrInvalidByte (b : byte) : error := Errorf "encoding/hex: invalid byte: %#U" [Z_of_byte b].
Definition ErrLength : error := Errorf "encoding/hex: odd length hex string" [].

(** The digits 0123456789abcdef. *)
Definition hex_digit (n : Z) : byte := byte_of_Z (if bool_decide (n < 10) then 48 + n else 87 + n).

Definition EncodeToString (str : bytes) : bytes :=
  concat ((λ b, [hex_digit (Z_of_byte b / 16); hex_digit (Z_of_byte b mod 16)]) <$> str).
Definition EncodeToHex (str : bytes) : bytes := prefix_0x ++ EncodeToString str.

Definition DecodeNibble (b : byte) : Z :=
  let c := Z_of_byte b in
  if bool_decide (48 ≤ c ≤ 57) then c - 48
  else if bool_decide (65 ≤ c ≤ 70) then c - 65 + 10
  else if bool_decide (97 ≤ c ≤ 102) then c - 97 + 10
  else BadNibble.
(** The table of [encoding/hex] has the same digits. *)
Definition hex_value (b : byte) : option Z :=
  let n := DecodeNibble b in if bool_decide (n = BadNibble) then None else Some n.

Fixpoint DecodeString (str : bytes) : res bytes :=
  match str with
  | [] => Ok []
  | [a] => match hex_value a with None => Err (ErrInvalidByte a) | Some _ => Err ErrLength end
  | a :: b :: str =>
      match hex_value a, hex_value b with
      | None, _ => Err (ErrInvalidByte a)
      | Some _, None => Err (ErrInvalidByte b)
      | Some h, Some l => rest ← DecodeString str; mret (byte_of_Z (h * 16 + l) :: rest)
      end
  end.

(** [strings.TrimPrefix(str, 0x)]. *)
Definition TrimPrefix (str : bytes) : bytes :=
  match str with x30 :: x78 :: rest => rest | _ => str end.

Definition DecodeHex (str : bytes) : res bytes :=
  let str := TrimPrefix str in
  let str := if bool_decide (Z.of_nat (length str) mod 2 ≠ 0) then x30 :: str else str in
  DecodeString str.

Definition MustDecodeHex (str : bytes) : res bytes :=
  match DecodeHex str with
  | Err _ => Panic "could not decode hex"
  | r => r
  end.

(** The digits of a number, without leading zeros; 0 is one digit. *)
Fixpoint digits (fuel : nat) (z : Z) : bytes :=
  match fuel with
  | O => []
  | S fuel => (if bool_decide (z < 16) then [] else digits fuel (z / 16)) ++ [hex_digit (z mod 16)]
  end.
Definition print_hex (z : Z) : bytes := digits (S (Z.to_nat (Z.log2 z / 4))) z.

Definition EncodeUint64 (i : Z) : bytes := prefix_0x ++ print_hex i.

(** [fmt.Sprintf] with the verb [%#x]: the sign is printed before the prefix. *)
Definition EncodeBig (bigint : Z) : bytes :=
  if bool_decide (bigint = 0) then prefix_0x ++ [x30]
  else (if bool_decide (bigint < 0) then [x2d] else []) ++ prefix_0x ++ print_hex (Z.abs bigint).

(** [SetString(str, 16)]: an optional sign and at least one digit. *)
Fixpoint parse_digits (str : bytes) (acc : Z) : option Z :=
  match str with
  | [] => Some acc
  | b :: str => d ← hex_value b; parse_digits str (acc * 16 + d)
  end.
Definition SetString (str : bytes) : option Z :=
  match str with
  | [] => None
  | x2d :: [] | x2b :: [] => None
  | x2d :: str => z ← parse_digits str 0; Some (- z)
  | x2b :: str => parse_digits str 0
  | _ => parse_digits str 0
  end.

Section Decode.
(** The value of a number whose [SetString] failed is undefined. *)
Context (undefined : bytes → Z).

Definition DecodeBig (hexNum : bytes) : Z :=
  let str := TrimPrefix hexNum in
  match SetString str with Some z => z | None => undefined str end.
(** [big.Int.Uint64]: the low 64 bits of the absolute value. *)
Definition DecodeUint64 (str : bytes) : Z := wrap64 (Z.abs (DecodeBig str)).
End Decode.

Definition valid_byte (b : byte) : bool :=
  let c := Z_of_byte b in
  bool_decide (48 ≤ c ≤ 57) || bool_decide (97 ≤ c ≤ 102) || bool_decide (65 ≤ c ≤ 70).
Definition IsValid (s : bytes) : bool := forallb valid_byte (TrimPrefix s).

(** ** Facts *)
Section Facts.
Lemma hex_digit_value n : 0 ≤ n < 16 → hex_value (hex_digit n) = Some n.
Proof.
  intros H. assert (n = 0 ∨ n = 1 ∨ n = 2 ∨ n = 3 ∨ n = 4 ∨ n = 5 ∨ n = 6 ∨ n = 7 ∨ n = 8 ∨ n = 9 ∨
    n = 10 ∨ n = 11 ∨ n = 12 ∨ n = 13 ∨ n = 14 ∨ n = 15) as Hn by lia.
  repeat (destruct Hn as [->|Hn]; [reflexivity|]). by subst.
Qed.
Lemma TrimPrefix_0x s : TrimPrefix (prefix_0x ++ s) = s.
Proof. done. Qed.
Lemma hex_value_valid b : valid_byte b = bool_decide (is_Some (hex_value b)).
Proof. by destruct b. Qed.

Lemma DecodeString_encode str : DecodeString (EncodeToString str) = Ok str.
Proof.
  induction str as [|b str IH]; [done|]. unfold EncodeToString in *. cbn [fmap list_fmap concat app].
  pose proof (Z_of_byte_range b) as [? Hb]. change (2 ^ 8) with 256 in Hb.
  cbn [DecodeString]. rewrite !hex_digit_value by (Z.to_euclidean_division_equations; lia).
  rewrite IH. cbn. do 2 f_equal. rewrite <- (byte_of_Z_of_byte b) at 3. f_equal.
  rewrite (Z.div_mod (Z_of_byte b) 16) at 3 by lia. lia.
Qed.
Lemma length_EncodeToString str : length (EncodeToString str) = (2 * length str)%nat.
Proof. induction str as [|b str IH]; [done|]. unfold EncodeToString in *. cbn. lia. Qed.

(** A string of digits of even length is decoded, and nothing else. *)
Lemma DecodeString_valid str : Nat.even (length str) = true →
  is_ok (DecodeString str) = forallb valid_byte str.
Proof.
  remember (length str) as n eqn:Hn. revert str Hn. induction n as [n IH] using lt_wf_ind.
  intros [|a [|b str]] -> He; [done|done|]. cbn [forallb DecodeString length] in *.
  rewrite !hex_value_valid. destruct (hex_value a), (hex_value b); try done.
  rewrite <- (IH (length str)) by (done || lia). by destruct (DecodeString str).
Qed.

Lemma parse_digits_app s1 s2 acc :
  parse_digits (s1 ++ s2) acc = parse_digits s1 acc ≫= parse_digits s2.
Proof.
  revert acc. induction s1 as [|b s1 IH]; intros acc; [done|]. cbn.
  destruct (hex_value b); [apply IH|done].
Qed.
Lemma parse_print_digits fuel z : 0 ≤ z < 16 ^ Z.of_nat fuel → (0 < fuel)%nat →
  parse_digits (digits fuel z) 0 = Some z.
Proof.
  revert z. induction fuel as [|fuel IH]; intros z Hz Hf; [lia|].
  rewrite Nat2Z.inj_succ, Z.pow_succ_r in Hz by lia. cbn [digits]. rewrite parse_digits_app.
  assert (0 ≤ z mod 16 < 16) by (Z.to_euclidean_division_equations; lia).
  case_bool_decide as Hlt; cbn [parse_digits mbind option_bind].
  - rewrite hex_digit_value by done. cbn. f_equal. rewrite Z.mod_small; lia.
  - destruct fuel as [|fuel]; [simpl in Hz; lia|].
    rewrite IH by (lia || (split; [|apply Z.div_lt_upper_bound]; Z.to_euclidean_division_equations; lia)).
    cbn. rewrite hex_digit_value by done. cbn. f_equal. rewrite (Z.div_mod z 16) at 3 by lia. lia.
Qed.
Lemma parse_print_hex z : 0 ≤ z → parse_digits (print_hex z) 0 = Some z.
Proof.
  intros Hz. apply parse_print_digits; [|lia]. split; [done|].
  destruct (decide (z = 0)) as [->|]; [done|].
  pose proof (Z.log2_spec z ltac:(lia)) as [_ Hlog]. pose proof (Z.log2_nonneg z).
  eapply Z.lt_le_trans; [exact Hlog|]. change 16 with (2 ^ 4). rewrite <- Z.pow_mul_r by lia.
  apply Z.pow_le_mono_r; [lia|]. rewrite Nat2Z.inj_succ, Z2Nat.id; Z.to_euclidean_division_equations; lia.
Qed.

(** Printed numbers have digits only. *)
Lemma print_hex_head z : 0 ≤ z → ∃ b s, print_hex z = b :: s ∧ is_Some (hex_value b).
Proof.
  intros Hz. pose proof (parse_print_hex z Hz) as Hp. unfold print_hex in *.
  destruct (digits _ z) as [|b s] eqn:Ed.
  - exfalso. cbn [digits] in Ed. by apply app_nil in Ed as [_ ?].
  - exists b, s. split; [done|]. cbn in Hp. destruct (hex_value b); [by eexists|done].
Qed.
Lemma SetString_print z : 0 ≤ z → SetString (print_hex z) = Some z.
Proof.
  intros Hz. pose proof (parse_print_hex z Hz) as Hp.
  destruct (print_hex_head z Hz) as (b & s & E & Hb). rewrite E in *.
  destruct b; try exact Hp; by destruct Hb.
Qed.

(** ** Properties *)

(** Decoding an encoded byte string gives it back, with or without the
    prefix. *)
Theorem DecodeHex_EncodeToHex str :
  DecodeHex (EncodeToHex str) = Ok str ∧ MustDecodeHex (EncodeToHex str) = Ok str ∧
  DecodeString (EncodeToString str) = Ok str.
Proof.
  assert (DecodeHex (EncodeToHex str) = Ok str) as Hd.
  { unfold DecodeHex, EncodeToHex. rewrite TrimPrefix_0x.
    rewrite bool_decide_false, DecodeString_encode; [done|].
    rewrite length_EncodeToString. Z.to_euclidean_division_equations. lia. }
  split_and!; [done|unfold MustDecodeHex; by rewrite Hd|apply DecodeString_encode].
Qed.

(** [IsValid] accepts exactly the strings [DecodeHex] decodes. *)
Theorem IsValid_DecodeHex s : IsValid s = is_ok (DecodeHex s).
Proof.
  unfold IsValid, DecodeHex. set (t := TrimPrefix s). case_bool_decide as Ho.
  - rewrite DecodeString_valid; [done|]. cbn [length].
    apply Nat.even_spec. exists (Z.to_nat ((Z.of_nat (length t) + 1) / 2)).
    Z.to_euclidean_division_equations. lia.
  - rewrite DecodeString_valid; [done|].
    apply Nat.even_spec. exists (Z.to_nat (Z.of_nat (length t) / 2)).
    Z.to_euclidean_division_equations. lia.
Qed.

(** Numbers are printed and read back, whatever reading an invalid
    string gives; a negative number is printed with its sign before the prefix. *)
Theorem numbers_roundtrip (undefined : bytes → Z) z (Hz : 0 ≤ z) :
  DecodeBig undefined (EncodeBig z) = z ∧
  (z < 2 ^ 64 → DecodeUint64 undefined (EncodeUint64 z) = z) ∧
  (0 < z → EncodeBig (- z) = x2d :: EncodeBig z).
Proof.
  split_and!.
  - unfold EncodeBig. case_bool_decide as H0; [by subst|]. rewrite bool_decide_false, Z.abs_eq by lia.
    unfold DecodeBig. change ([] ++ prefix_0x ++ ?s) with (prefix_0x ++ s). cbn zeta. rewrite TrimPrefix_0x. by rewrite SetString_print.
  - intros H. unfold DecodeUint64, DecodeBig, EncodeUint64. rewrite TrimPrefix_0x.
    rewrite SetString_print, Z.abs_eq by done. by apply wrap_id.
  - intros H. unfold EncodeBig. rewrite (bool_decide_false (- z = 0)), (bool_decide_false (z = 0)) by lia.
    rewrite (bool_decide_true (- z < 0)), (bool_decide_false (z < 0)) by lia.
    rewrite Z.abs_opp. reflexivity.
Qed.
End Facts.
