(* ===== verification/Http.v ===== *)
(** * HTTP

    What the program uses of [net/http] as a client: a request is built, which
    fails on a malformed address, and sent; the answer has a status and a body
    that is read to its end or fails.  The server and the network are an
    interface. *)
From Stdlib Require Import Strings.String.
From S2P Require Import Prelude.

Definition MethodGet : string := "GET".
Definition MethodPost : string := "POST".
Definition StatusOK : Z := 200.

(** The codes of the responses of the service itself. *)
Definition ERROR_OK : Z := 0.
Definition ERROR_DEFAULT : Z := 1000.
Definition ERROR_IP_RESTRICTED : Z := 1009.

Record http_Request := mk_http_Request {
  hq_Method : string;
  hq_URL : string;
  hq_Header : list (string * string);
  hq_Body : string;
}.
(** [io.ReadAll(res.Body)] is [hr_Body]. *)
Record http_Response := mk_http_Response { hr_StatusCode : Z; hr_Body : res string }.

(** [http.NewRequest] parses the address; [DefaultClient.Do] sends. *)
Class HttpClient (E : Type) : Type := {
  check_request : string → string → option error;
  http_Do : http_Request → M E http_Response;
}.

Section Http.
Context {E : Type} {Http : HttpClient E}.

Definition NewRequest (method url body : string) : res http_Request :=
  match check_request method url with
  | Some err => Err err
  | None => Ok (mk_http_Request method url [] body)
  end.
(** [Header.Add]. *)
Definition add_Header (name value : string) (r : http_Request) : http_Request :=
  mk_http_Request (hq_Method r) (hq_URL r) (hq_Header r ++ [(name, value)]) (hq_Body r).

(** A GET request, and its status and body as they are. *)
Definition http_Get (url : string) : M E http_Response :=
  req ← lift_res (NewRequest MethodGet url "");
  http_Do req.
End Http.
