(* ===== verification/BridgeService.v ===== *)
(** * The bridge service

    [server/service.go]: the proofs of a claim, built from the tree nodes in the
    database through a cache, and the endpoints of the REST interface.  The
    cache is [golang-lru], the printing of hashes and addresses is go-ethereum's. *)
From S2P Require Import Prelude Types GlobalIndex Hashing MerkleStore MerkleTree Tables Storage Hex.
From stdpp Require Import pretty.
#[local] Open Scope Z_scope.

(** [lru.Cache[string, [][]byte]]: a lookup changes the order of eviction. *)
Class LruCache (C : Type) : Type := {
  lru_New : Z → option C;
  lru_Get : bytes → C → option (list bytes) * C;
  lru_Add : bytes → list bytes → C → C;
}.

(** [common.Hash.String], [common.Address.Hex], [common.FromHex], [common.HexToAddress] and
    [common.HexToHash]. *)
Class Common : Type := {
  Hash_String : bytes → bytes;
  Address_Hex : bytes → bytes;
  FromHex : bytes → bytes;
  HexToAddress : bytes → bytes;
  HexToHash : bytes → bytes;
}.

Record bridgeService := mkBridgeService {
  bs_height : Z;
  bs_networkIDs : gmap Z Z;
  bs_defaultPageLimit : Z;
  bs_maxPageLimit : Z;
  bs_version : string;
}.

(** ** The messages of the interface *)
Record pb_Deposit := mk_pb_Deposit {
  pd_LeafType : Z; pd_OrigNet : Z; pd_OrigAddr : bytes; pd_Amount : string; pd_DestNet : Z;
  pd_DestAddr : bytes; pd_BlockNum : Z; pd_DepositCnt : Z; pd_NetworkId : Z; pd_TxHash : bytes;
  pd_ClaimTxHash : bytes; pd_Metadata : bytes; pd_ReadyForClaim : bool; pd_GlobalIndex : string;
}.
Record pb_Claim := mk_pb_Claim {
  pc_Index : Z; pc_OrigNet : Z; pc_OrigAddr : bytes; pc_Amount : string; pc_NetworkId : Z;
  pc_DestAddr : bytes; pc_BlockNum : Z; pc_TxHash : bytes; pc_RollupIndex : Z; pc_MainnetFlag : bool;
}.
Record pb_TokenWrapped := mk_pb_TokenWrapped {
  pt_OrigNet : Z; pt_OriginalTokenAddr : bytes; pt_WrappedTokenAddr : bytes; pt_NetworkId : Z;
  pt_Name : string; pt_Symbol : string; pt_Decimals : Z;
}.
Record pb_Proof := mk_pb_Proof {
  pp_RollupMerkleProof : list bytes; pp_MerkleProof : list bytes;
  pp_MainExitRoot : bytes; pp_RollupExitRoot : bytes;
}.

Section BridgeService.
Context {K : Keccak} {Abi : TokenAbi} {C : Type} {Lru : LruCache C} {Com : Common}.
Context (s : bridgeService).
(** The service reads its cache and the database. *)
Abbreviation Sv := (M (C * database)).

Definition on_storage {A} (m : M database A) : Sv A := zoom snd (λ db st, (st.1, db)) m.

(** The hash of a [[32]byte]: a shorter or longer slice is copied. *)
Definition hash_of (b : bytes) : bytes := go_copy zero_hash b.

Definition getNode (parentHash : bytes) (tx : Tx) : Sv (bytes * bytes) := λ '(c, db),
  let '(cached, c) := lru_Get parentHash c in
  let children (value : list bytes) : res (bytes * bytes) :=
    v0 ← at_index value 0; v1 ← at_index value 1; mret (hash_of v0, hash_of v1) in
  match cached with
  | Some value => (children value, (c, db))
  | None =>
      match Get parentHash tx db with
      | (Ok value, db) => (children value, (lru_Add parentHash value c, db))
      | (Err err, db) => (Err (ErrorfV "parentHash: %s, error: %v" err), (c, db))
      | (Panic p, db) => (Panic p, (c, db))
      end
  end.

Fixpoint getProof_loop (hs : list Z) (index : Z) (cur : bytes) (siblings : list bytes) (tx : Tx)
  : Sv (list bytes) :=
  match hs with
  | [] => mret siblings
  | h :: hs =>
      '(lft, rgt) ← map_err (ErrorfV "height: %d, cur: %s, error: %v") (getNode cur tx);
      if bit_set index h then getProof_loop hs index rgt (siblings ++ [lft]) tx
      else getProof_loop hs index lft (siblings ++ [rgt]) tx
  end.
Definition getProof (index : Z) (root : bytes) (tx : Tx) : Sv (list bytes) :=
  siblings ← getProof_loop (levels (bs_height s)) index root [] tx;
  mret (invert siblings).

Definition getRollupExitProof (rollupIndex : Z) (root : bytes) (tx : Tx) : Sv (list bytes * bytes) :=
  leaves ← map_err (ErrorfW "error getting leaves by ger: %s, error: %w")
             (on_storage (GetRollupExitLeavesByRoot root tx));
  let ls := hash_of ∘ rel_Leaf <$> leaves in
  '(siblings, r) ← lift_res (ComputeSiblings rollupIndex ls (bs_height s));
  if bool_decide (root ≠ r) then
    throw (Errorf "error checking calculated root: required:%s, calculated: %s" [])
  else if bool_decide (length siblings = 0%nat) || bool_decide (length ls = 0%nat) then
    throw (Errorf "no siblings found for root: %s" [])
  else if bool_decide (Z.of_nat (length ls) ≤ rollupIndex) then
    throw (Errorf "error getting rollupLeaf. Not synced yet" [])
  else
    leaf ← lift_res (at_index ls rollupIndex);
    mret (siblings, leaf).

Definition emptyProof : list bytes := replicate 32 zero_hash.

(** The two proofs of a deposit under a global exit root. *)
Definition claim_proofs (depositCnt networkID : Z) (globalExitRoot : GlobalExitRoot) (tx : Tx)
  : Sv (list bytes * list bytes) :=
  if bool_decide (networkID = 0) then
    root ← lift_res (at_index (ger_ExitRoots globalExitRoot) 0);
    merkleProof ← map_err (ErrorfV "getting the proof failed, error: %v, network: %d")
                    (getProof depositCnt root tx);
    mret (merkleProof, emptyProof)
  else
    root ← lift_res (at_index (ger_ExitRoots globalExitRoot) 1);
    '(rollupMerkleProof, rollupLeaf) ←
      map_err (ErrorfV "getting the rollup proof failed, error: %v, network: %d")
        (getRollupExitProof (wrap32 (networkID - 1)) root tx);
    merkleProof ← map_err (ErrorfV "getting the proof failed, error: %v, network: %d")
                    (getProof depositCnt rollupLeaf tx);
    mret (merkleProof, rollupMerkleProof).

Definition GetClaimProof (depositCnt networkID : Z) (tx : Tx)
  : Sv (GlobalExitRoot * list bytes * list bytes) :=
  deposit ← on_storage (GetDeposit depositCnt networkID tx);
  if negb (dep_ReadyForClaim deposit) then throw ErrDepositNotSynced
  else
    globalExitRoot ← on_storage (GetLatestExitRoot networkID (dep_DestinationNetwork deposit) tx);
    '(merkleProof, rollupMerkleProof) ← claim_proofs depositCnt networkID globalExitRoot tx;
    mret (globalExitRoot, merkleProof, rollupMerkleProof).

(** A deposit that is not ready is only logged. *)
Definition GetClaimProofbyGER (depositCnt networkID : Z) (GER : bytes) (tx : Tx)
  : Sv (GlobalExitRoot * list bytes * list bytes) :=
  when (bool_decide (tx = nil_tx))
    (_ ← map_err (ErrorfW "error getting deposit %d for network: %d. Err: %w")
           (on_storage (GetDeposit depositCnt networkID nil_tx));
     mret tt);;
  globalExitRoot ← map_err (ErrorfW "error getting GlobalExitRoot data for GER: %s. Err: %w")
                     (on_storage (GetL1ExitRootByGER GER tx));
  '(merkleProof, rollupMerkleProof) ← claim_proofs depositCnt networkID globalExitRoot tx;
  mret (globalExitRoot, merkleProof, rollupMerkleProof).

Definition GetClaimProofForCompressed (ger : bytes) (depositCnt networkID : Z) (tx : Tx)
  : Sv (GlobalExitRoot * list bytes * list bytes) :=
  when (bool_decide (tx = nil_tx))
    (deposit ← on_storage (GetDeposit depositCnt networkID nil_tx);
     when (negb (dep_ReadyForClaim deposit)) (throw ErrDepositNotSynced));;
  globalExitRoot ← on_storage (GetL1ExitRootByGER ger tx);
  '(merkleProof, rollupMerkleProof) ← claim_proofs depositCnt networkID globalExitRoot tx;
  mret (globalExitRoot, merkleProof, rollupMerkleProof).

(** The transaction of the claim of a deposit, or an empty string. *)
Definition GetDepositStatus (depositCount originNetworkID destNetworkID : Z) : Sv bytes :=
  r ← attempt (on_storage (GetClaim depositCount originNetworkID destNetworkID nil_tx));
  match r with
  | inl claim => mret (Hash_String (clm_TxHash claim))
  | inr err => if bool_decide (err ≠ ErrStorageNotFound) then throw err else mret []
  end.

Definition CheckAPI : Sv string := mret (bs_version s).

(** The page size of a request. *)
Definition page_limit (limit : Z) : Z :=
  let limit := if bool_decide (limit = 0) then bs_defaultPageLimit s else limit in
  if bool_decide (limit > bs_maxPageLimit s) then bs_maxPageLimit s else limit.

Definition to_pb_Deposit (deposit : Deposit) (claimTxHash : bytes) : res pb_Deposit :=
  let mainnetFlag := bool_decide (dep_NetworkID deposit = 0) in
  let rollupIndex := if mainnetFlag then 0 else wrap32 (dep_NetworkID deposit - 1) in
  globalIndex ← GenerateGlobalIndex mainnetFlag rollupIndex (dep_DepositCount deposit);
  mret (mk_pb_Deposit (dep_LeafType deposit) (dep_OriginalNetwork deposit)
    (Address_Hex (dep_OriginalAddress deposit)) (pretty (dep_Amount deposit))
    (dep_DestinationNetwork deposit) (Address_Hex (dep_DestinationAddress deposit))
    (dep_BlockNumber deposit) (dep_DepositCount deposit) (dep_NetworkID deposit)
    (Hash_String (dep_TxHash deposit)) claimTxHash
    (EncodeToHex (dep_Metadata deposit)) (dep_ReadyForClaim deposit) (pretty globalIndex)).

(** A loop over the rows of an answer. *)
Fixpoint each {A B} (f : A → Sv B) (l : list A) : Sv (list B) :=
  match l with
  | [] => mret []
  | x :: l => y ← f x; ys ← each f l; mret (y :: ys)
  end.

Definition deposit_with_status (deposit : Deposit) : Sv pb_Deposit :=
  claimTxHash ← GetDepositStatus (dep_DepositCount deposit) (dep_NetworkID deposit)
                  (dep_DestinationNetwork deposit);
  lift_res (to_pb_Deposit deposit claimTxHash).

Definition GetBridges (destAddr : bytes) (limit offset : Z) : Sv (list pb_Deposit * Z) :=
  totalCount ← on_storage (GetDepositCount (FromHex destAddr) nil_tx);
  deposits ← on_storage (GetDeposits (FromHex destAddr) (page_limit limit) offset nil_tx);
  pbDeposits ← each deposit_with_status deposits;
  mret (pbDeposits, totalCount).

Definition to_pb_Claim (claim : Claim) : pb_Claim :=
  mk_pb_Claim (clm_Index claim) (clm_OriginalNetwork claim) (Address_Hex (clm_OriginalAddress claim))
    (pretty (clm_Amount claim)) (clm_NetworkID claim) (Address_Hex (clm_DestinationAddress claim))
    (clm_BlockNumber claim) (Hash_String (clm_TxHash claim)) (clm_RollupIndex claim) (clm_MainnetFlag claim).

Definition GetClaims (destAddr : bytes) (limit offset : Z) : Sv (list pb_Claim * Z) :=
  totalCount ← on_storage (GetClaimCount (FromHex destAddr) nil_tx);
  claims ← on_storage (Storage.GetClaims (FromHex destAddr) (page_limit limit) offset nil_tx);
  mret (to_pb_Claim <$> claims, totalCount).

(** The answer built from two proofs: the lengths compared are those of the two
    strings still to be filled. *)
Fixpoint proof_strings (merkleProof rollupMerkleProof : list bytes) (i : Z) : res (list bytes * list bytes) :=
  match merkleProof with
  | [] => Ok ([], [])
  | m :: merkleProof =>
      r ← at_index rollupMerkleProof i;
      '(proof, rollupProof) ← proof_strings merkleProof rollupMerkleProof (i + 1);
      mret (EncodeToHex m :: proof, EncodeToHex r :: rollupProof)
  end.
Definition proof_response (globalExitRoot : GlobalExitRoot) (merkleProof rollupMerkleProof : list bytes)
  : res pb_Proof :=
  let proof : list bytes := [] in
  let rollupProof : list bytes := [] in
  if bool_decide (length proof ≠ length rollupProof) then
    Err (Errorf "proofs have different lengths. MerkleProof: %d. RollupMerkleProof: %d"
           [Z.of_nat (length merkleProof); Z.of_nat (length rollupMerkleProof)])
  else
    '(proof, rollupProof) ← proof_strings merkleProof rollupMerkleProof 0;
    main ← at_index (ger_ExitRoots globalExitRoot) 0;
    rollup ← at_index (ger_ExitRoots globalExitRoot) 1;
    mret (mk_pb_Proof rollupProof proof (Hash_String main) (Hash_String rollup)).

Definition GetProof (depositCnt netId : Z) : Sv pb_Proof :=
  '(globalExitRoot, merkleProof, rollupMerkleProof) ← GetClaimProof depositCnt netId nil_tx;
  lift_res (proof_response globalExitRoot merkleProof rollupMerkleProof).
Definition GetProofByGER (depositCnt netId : Z) (ger : bytes) : Sv pb_Proof :=
  '(globalExitRoot, merkleProof, rollupMerkleProof) ←
    GetClaimProofbyGER depositCnt netId (HexToHash ger) nil_tx;
  lift_res (proof_response globalExitRoot merkleProof rollupMerkleProof).
Definition GetProofV2 (depositCount networkId : Z) : Sv pb_Proof :=
  '(globalExitRoot, merkleProof, rollupMerkleProof) ← GetClaimProof depositCount networkId nil_tx;
  lift_res (proof_response globalExitRoot merkleProof rollupMerkleProof).

Definition GetBridge (depositCnt netId : Z) : Sv pb_Deposit :=
  deposit ← on_storage (GetDeposit depositCnt netId nil_tx);
  claimTxHash ← GetDepositStatus depositCnt (dep_NetworkID deposit) (dep_DestinationNetwork deposit);
  lift_res (to_pb_Deposit deposit claimTxHash).

Definition GetTokenWrapped (origNet : Z) (origTokenAddr : bytes) : Sv pb_TokenWrapped :=
  t ← on_storage (Storage.GetTokenWrapped origNet (HexToAddress origTokenAddr) nil_tx);
  mret (mk_pb_TokenWrapped (tw_OriginalNetwork t) (Address_Hex (tw_OriginalTokenAddress t))
    (Address_Hex (tw_WrappedTokenAddress t)) (tw_NetworkID t) (tm_Name (tw_TokenMetadata t))
    (tm_Symbol (tw_TokenMetadata t)) (tm_Decimals (tw_TokenMetadata t))).

Definition GetPendingBridgesToClaim (destAddr : bytes) (destNet leafType limit offset : Z)
  : Sv (list pb_Deposit * Z) :=
  '(deposits, totalDeposits) ←
    on_storage (GetPendingDepositsToClaim (HexToAddress destAddr) destNet leafType (page_limit limit) offset nil_tx);
  pbDeposits ← each (λ d, lift_res (to_pb_Deposit d [])) deposits;
  mret (pbDeposits, totalDeposits).
End BridgeService.

(** [NewBridgeService]: the position of every network, as a byte. *)
Fixpoint network_positions (i : Z) (networks : list Z) (ids : gmap Z Z) : gmap Z Z :=
  match networks with
  | [] => ids
  | network :: networks => network_positions (i + 1) networks (<[network := wrap8 i]> ids)
  end.
Definition NewBridgeService {C} `{LruCache C} (defaultPageLimit maxPageLimit cacheSize : Z)
    (version : string) (height : Z) (networks : list Z) : res (bridgeService * C) :=
  match lru_New cacheSize with
  | None => Panic "lru.New"
  | Some cache => Ok (mkBridgeService height (network_positions 0 networks ∅) defaultPageLimit maxPageLimit version, cache)
  end.
