(* ===== verification/RpcClient.v ===== *)
(** * The JSON-RPC client

    [jsonrpcclient/types] (codec.go, errors.go, types.go) and [jsonrpcclient]
    (client.go, zkevm.go): the text forms of the arguments, the requests and the
    answers, and the two calls of the synchronizer.  The texts of [encoding/json]
    are an interface, the transport is [HttpClient]. *)
From Stdlib Require Import Strings.String.
From S2P Require Import Prelude Types Hex Http BridgeService.
#[local] Open Scope Z_scope.

(** ** The text of arguments *)

(** An unmarshaller changes its receiver. *)
Abbreviation Recv A := (M A unit).

Definition ErrSyntax : error := Errorf "strconv.ParseUint: invalid syntax" [].
Definition ErrRange : error := Errorf "strconv.ParseUint: value out of range" [].

(** [strconv.ParseUint(s, 16, 64)]: the number is out of range once another digit
    would not fit. *)
Fixpoint ParseUint_loop (s : bytes) (n : Z) : res Z :=
  match s with
  | [] => Ok n
  | c :: s =>
      match hex_value c with
      | None => Err ErrSyntax
      | Some d => if bool_decide (2 ^ 60 ≤ n) then Err ErrRange else ParseUint_loop s (n * Base + d)
      end
  end.
Definition ParseUint (s : bytes) : res Z :=
  match s with [] => Err ErrSyntax | _ => ParseUint_loop s 0 end.

Definition ArgUint64_MarshalText (b : Z) : bytes := prefix_0x ++ print_hex b.
Definition ArgUint64_UnmarshalText (input : bytes) : Recv Z :=
  num ← lift_res (ParseUint (TrimPrefix input));
  put num.

Definition decodeToHex (b : bytes) : res bytes :=
  let str := TrimPrefix b in
  let str := if bool_decide (Z.of_nat (length str) mod 2 ≠ 0) then x30 :: str else str in
  DecodeString str.
Definition encodeToHex (b : bytes) : bytes :=
  let str := EncodeToString b in
  let str := if bool_decide (Z.of_nat (length str) mod 2 ≠ 0) then x30 :: str else str in
  prefix_0x ++ str.

Definition ArgBytes_MarshalText (b : bytes) : bytes := encodeToHex b.
(** An error of the decoding is not returned. *)
Definition ArgBytes_UnmarshalText (input : bytes) : Recv bytes :=
  r ← attempt (lift_res (decodeToHex input));
  match r with
  | inr _ => mret tt
  | inl hh => put (go_copy (replicate (length hh) x00) hh)
  end.

Definition ArgBig_UnmarshalText (input : bytes) : Recv Z :=
  buf ← lift_res (decodeToHex input);
  put (be_value buf).
(** [big.Int.Text(16)] prints the sign before the digits. *)
Definition ArgBig_MarshalText (a : Z) : bytes :=
  prefix_0x ++ (if bool_decide (a < 0) then x2d :: print_hex (Z.abs a) else print_hex a).

(** ** Errors, requests and responses *)
Definition DefaultErrorCode : Z := -32000.
Definition RevertedErrorCode : Z := 3.
Definition InvalidRequestErrorCode : Z := -32600.
Definition NotFoundErrorCode : Z := -32601.
Definition InvalidParamsErrorCode : Z := -32602.
Definition ParserErrorCode : Z := -32700.

(** [data] is a slice, which may be nil. *)
Record RPCError := mkRPCError { rpc_err : string; rpc_code : Z; rpc_data : option bytes }.
(** Without arguments the message is not formatted. *)
Definition NewRPCErrorWithData (code : Z) (err : string) (data : option bytes) : RPCError := mkRPCError err code data.
Definition NewRPCError (code : Z) (err : string) : RPCError := NewRPCErrorWithData code err None.

Record ErrorObject := mkErrorObject { eo_Code : Z; eo_Message : string; eo_Data : option bytes }.
Record Request := mkRequest { rq_JSONRPC : string; rq_ID : Z; rq_Method : string; rq_Params : string }.
Record RpcResponse := mkRpcResponse {
  rr_JSONRPC : string; rr_ID : Z; rr_Result : option string; rr_Error : option ErrorObject;
}.

Definition ErrorObject_RPCError (e : ErrorObject) : RPCError :=
  let data := match eo_Data e with None => None | Some d => Some d end in
  NewRPCErrorWithData (eo_Code e) (eo_Message e) data.

(** A nil error is [None]. *)
Definition NewResponse (req : Request) (reply : option string) (err : option RPCError) : RpcResponse :=
  let errorObj :=
    match err with
    | None => None
    | Some err => Some (mkErrorObject (rpc_code err) (rpc_err err)
                          (match rpc_data err with None => None | Some d => Some d end))
    end in
  mkRpcResponse (rq_JSONRPC req) (rq_ID req) reply errorObj.

(** [ExitRoots]. *)
Record ExitRoots := mkExitRoots {
  xr_BlockNumber : Z; xr_Timestamp : Z; xr_MainnetExitRoot : bytes; xr_RollupExitRoot : bytes;
}.

(** [json.Marshal] and [json.Unmarshal] of what is sent and received; the
    parameters of a call are strings and numbers. *)
Inductive RpcParam : Type := ParamString (s : string) | ParamNumber (z : Z).
Class RpcJson : Type := {
  Marshal_params : list RpcParam → res string;
  Marshal_Request : Request → res string;
  Unmarshal_Response : string → res RpcResponse;
  Unmarshal_ExitRoots : option string → res (option ExitRoots);
  Unmarshal_string : option string → res string;
}.

Definition jsonRPCVersion : string := "2.0".

Section Client.
Context {Com : Common} {RJ : RpcJson} {E : Type} {Http : HttpClient E}.

Definition sendJSONRPC_HTTPRequest (url : string) (payload : Request) : M E http_Response :=
  reqBody ← lift_res (Marshal_Request payload);
  httpReq ← lift_res (NewRequest MethodPost url reqBody);
  http_Do (add_Header "Content-type" "application/json" httpReq).

(** The body is read before the status is looked at. *)
Definition JSONRPCCall (url method : string) (parameters : list RpcParam) : M E RpcResponse :=
  params ← lift_res (Marshal_params parameters);
  let request := mkRequest jsonRPCVersion 1 method params in
  httpRes ← sendJSONRPC_HTTPRequest url request;
  resBody ← lift_res (hr_Body httpRes);
  if bool_decide (hr_StatusCode httpRes ≠ StatusOK) then throw (Errorf ("%v - " +:+ resBody) [hr_StatusCode httpRes])
  else lift_res (Unmarshal_Response resBody).

Definition rpc_error (e : RPCError) : error := Errorf (rpc_err e) [rpc_code e].

(** A response with an error gives that error; the result may be null. *)
Definition ExitRootsByGER (url : string) (globalExitRoot : bytes) : M E (option ExitRoots) :=
  response ← JSONRPCCall url "zkevm_getExitRootsByGER" [ParamString (string_of_list_byte (Hash_String globalExitRoot))];
  match rr_Error response with
  | Some e => throw (rpc_error (ErrorObject_RPCError e))
  | None => lift_res (Unmarshal_ExitRoots (rr_Result response))
  end.
Definition GetLatestGlobalExitRoot (url : string) : M E bytes :=
  response ← JSONRPCCall url "zkevm_getLatestGlobalExitRoot" [];
  match rr_Error response with
  | Some e => throw (rpc_error (ErrorObject_RPCError e))
  | None =>
      result ← lift_res (Unmarshal_string (rr_Result response));
      mret (HexToHash (list_byte_of_string result))
  end.
End Client.

(** ** Facts *)
Section Facts.
Lemma hex_value_range c d : hex_value c = Some d → 0 ≤ d < 16.
Proof. destruct c; vm_compute; intros H; by simplify_eq. Qed.
Lemma parse_digits_le s : ∀ n z, 0 ≤ n → parse_digits s n = Some z → n ≤ z.
Proof.
  induction s as [|c s IH]; intros n z Hn H; cbn in H; [injection H; lia|].
  destruct (hex_value c) as [d|] eqn:Ed; [|done]. apply hex_value_range in Ed. cbn in H. apply IH in H; lia.
Qed.
Lemma ParseUint_loop_parse s : ∀ n z, 0 ≤ n → parse_digits s n = Some z → z < 2 ^ 64 → ParseUint_loop s n = Ok z.
Proof.
  induction s as [|c s IH]; intros n z Hn H Hz; cbn in *; [congruence|].
  destruct (hex_value c) as [d|] eqn:Ed; [|done]. cbn in H.
  apply hex_value_range in Ed.
  apply parse_digits_le in H as Hle; [|lia]. rewrite bool_decide_false by lia. unfold Base. apply IH; [lia|done|done].
Qed.
Lemma ParseUint_print z : is_uint64 z → ParseUint (print_hex z) = Ok z.
Proof.
  intros [H0 H1]. destruct (print_hex_head z H0) as (b & s & E & _). unfold ParseUint.
  pose proof (ParseUint_loop_parse (print_hex z) 0 z ltac:(lia) (parse_print_hex z H0) H1) as H. by rewrite E in *.
Qed.

(** The bytes of a text of digits are its number. *)
Lemma DecodeString_value str : ∀ b acc, DecodeString str = Ok b →
  parse_digits str acc = Some (acc * 256 ^ Z.of_nat (length b) + be_value b).
Proof.
  remember (length str) as n eqn:Hn. revert str Hn. induction n as [n IH] using lt_wf_ind.
  intros [|a [|c str]] -> b acc H; cbn [DecodeString] in H.
  - injection H as <-. cbn. f_equal. unfold be_value. cbn. lia.
  - by destruct (hex_value a).
  - destruct (hex_value a) as [h|] eqn:Ea; [|done]. destruct (hex_value c) as [l|] eqn:Ec; [|done].
    destruct (DecodeString str) as [rest| |] eqn:Er; [|done..]. cbn in H. injection H as <-.
    cbn [parse_digits]. rewrite Ea, Ec. cbn [mbind option_bind].
    rewrite (IH (length str) ltac:(cbn; lia) str eq_refl rest) by done. f_equal.
    apply hex_value_range in Ea, Ec.
    change (byte_of_Z (h * 16 + l) :: rest) with ([byte_of_Z (h * 16 + l)] ++ rest).
    rewrite be_value_app, length_app, Nat2Z.inj_add, Z.pow_add_r by lia.
    replace (be_value [byte_of_Z (h * 16 + l)]) with (h * 16 + l).
    { cbn [length]. change (256 ^ Z.of_nat 1) with 256. ring. }
    unfold be_value. cbn [fold_left]. rewrite Z_of_byte_of_Z. unfold wrap8. rewrite wrap_id by (unfold in_width; lia). lia.
Qed.
Lemma print_hex_valid z : 0 ≤ z → forallb valid_byte (print_hex z) = true.
Proof.
  intros Hz. pose proof (parse_print_hex z Hz) as H. revert H. generalize (print_hex z) 0. intros s.
  induction s as [|c s IH]; intros n H; [done|]. cbn in *. rewrite hex_value_valid.
  destruct (hex_value c) as [d|]; [|done]. cbn in H. rewrite bool_decide_true by by eexists. by eapply IH.
Qed.
Lemma decodeToHex_print z : 0 ≤ z → ∃ b, decodeToHex (prefix_0x ++ print_hex z) = Ok b ∧ be_value b = z.
Proof.
  intros Hz. unfold decodeToHex. rewrite TrimPrefix_0x. cbn zeta.
  set (str := if bool_decide _ then _ else _).
  assert (Nat.even (length str) = true) as He.
  { unfold str. case_bool_decide as Ho; apply Nat.even_spec.
    - cbn [length]. exists (Z.to_nat ((Z.of_nat (length (print_hex z)) + 1) / 2)). Z.to_euclidean_division_equations. lia.
    - exists (Z.to_nat (Z.of_nat (length (print_hex z)) / 2)). Z.to_euclidean_division_equations. lia. }
  assert (forallb valid_byte str = true) as Hv by (unfold str; case_bool_decide; by apply print_hex_valid).
  pose proof (DecodeString_valid str He) as Hd. rewrite Hv in Hd. destruct (DecodeString str) as [b| |] eqn:Eb; [|done..].
  exists b. split; [done|]. apply (DecodeString_value _ _ 0) in Eb.
  assert (parse_digits str 0 = Some z) as Hp by (unfold str; case_bool_decide; by apply parse_print_hex).
  rewrite Hp in Eb. injection Eb. lia.
Qed.
Lemma decodeToHex_encode b : decodeToHex (encodeToHex b) = Ok b.
Proof.
  unfold encodeToHex. cbn zeta. rewrite (bool_decide_false (Z.of_nat (length (EncodeToString b)) mod 2 ≠ 0)).
  2:{ rewrite length_EncodeToString. Z.to_euclidean_division_equations. lia. }
  unfold decodeToHex. rewrite TrimPrefix_0x. cbn zeta. rewrite bool_decide_false, DecodeString_encode; [done|].
  rewrite length_EncodeToString. Z.to_euclidean_division_equations. lia.
Qed.
End Facts.

(** ** Properties *)

(** The text of an argument is read back, whatever the receiver held: 64-bit
    numbers, byte strings, and natural numbers of any size; a negative number is
    printed but not read. *)
Theorem arguments_roundtrip (z old : Z) (b oldb : bytes) :
  (is_uint64 z → ArgUint64_UnmarshalText (ArgUint64_MarshalText z) old = (Ok tt, z)) ∧
  ArgBytes_UnmarshalText (ArgBytes_MarshalText b) oldb = (Ok tt, b) ∧
  (0 ≤ z → ArgBig_UnmarshalText (ArgBig_MarshalText z) old = (Ok tt, z)) ∧
  (z < 0 → ∃ e, ArgBig_UnmarshalText (ArgBig_MarshalText z) old = (Err e, old)).
Proof.
  split_and!.
  - intros Hz. unfold ArgUint64_UnmarshalText, ArgUint64_MarshalText. rewrite TrimPrefix_0x, ParseUint_print by done. done.
  - unfold ArgBytes_UnmarshalText, ArgBytes_MarshalText. rewrite decodeToHex_encode.
    unfold mbind, M_bind, attempt, lift_res, put.
    by rewrite go_copy_full by (by rewrite length_replicate).
  - intros Hz. unfold ArgBig_MarshalText. rewrite bool_decide_false by lia.
    destruct (decodeToHex_print z Hz) as (buf & E & Hb). unfold ArgBig_UnmarshalText. rewrite E.
    unfold mbind, M_bind, lift_res, put. by rewrite Hb.
  - intros Hz. unfold ArgBig_MarshalText. rewrite bool_decide_true by lia. unfold ArgBig_UnmarshalText, decodeToHex.
    rewrite TrimPrefix_0x. cbn zeta. case_bool_decide; cbn [DecodeString].
    + change (hex_value x30) with (Some 0). change (hex_value x2d) with (@None Z). by eexists.
    + destruct (print_hex_head (Z.abs z) ltac:(lia)) as (c & s & -> & _). change (hex_value x2d) with (@None Z). by eexists.
Qed.

(** A text that is no hexadecimal string is accepted by [ArgBytes], and
    changes nothing. *)
Theorem ArgBytes_invalid_ignored input old (Hinvalid : IsValid input = false) :
  ArgBytes_UnmarshalText input old = (Ok tt, old).
Proof.
  unfold ArgBytes_UnmarshalText. pose proof (IsValid_DecodeHex input) as H. rewrite Hinvalid in H.
  change (DecodeHex input) with (decodeToHex input) in H. unfold mbind, M_bind, attempt, lift_res.
  destruct (decodeToHex input) as [|e|p] eqn:Ed; [done..|]. exfalso. clear H. unfold decodeToHex in Ed. cbn zeta in Ed.
  revert Ed. generalize (if bool_decide (Z.of_nat (length (TrimPrefix input)) mod 2 ≠ 0) then x30 :: TrimPrefix input else TrimPrefix input).
  intros s. remember (length s) as n eqn:Hn. revert s Hn. induction n as [n IH] using lt_wf_ind.
  intros [|a [|c s]] -> H; cbn [DecodeString] in H; [done|by destruct (hex_value a)|].
  destruct (hex_value a), (hex_value c); try done. destruct (DecodeString s) eqn:Es; try done.
  injection H as ->. eapply (IH (length s)); [cbn; lia|done|done].
Qed.

(** The error of a response is the error that was put into it, and a call
    without errors keeps its reply. *)
Theorem response_error_kept req reply err :
  ErrorObject_RPCError <$> rr_Error (NewResponse req reply err) = err ∧ rr_Result (NewResponse req reply err) = reply.
Proof. destruct err as [[m c [d|]]|]; done. Qed.
