(* ===== verification/AutoClaim.v ===== *)
(** * The auto claim service

    [autoclaimservice/autoclaim/autoclaim.go] and
    [autoclaimservice/blockchainmanager/manager.go]: a service apart that asks the
    REST interface for the deposits that wait on its network and for their
    proofs, and claims them one by one or in compressed groups.  The REST
    interface is reached over [HttpClient]; the bindings of the contracts and the
    JSON codec of the messages are interfaces. *)
From Stdlib Require Import Strings.String.
From stdpp Require Import pretty.
From S2P Require Import Prelude Types Hashing Hex Http BridgeService.
#[local] Open Scope Z_scope.

(** ** Numbers as text

    [big.Int.SetString(s, 0)]: a sign, a prefix that chooses the base, digits that
    underscores may separate; the whole string must be read. *)
Definition ch_dot : byte := x2e.
Definition ch_zero : byte := x30.
Definition ch_sep : byte := x5f.

(** The loop of [nat.scan]: [prev] is the last character, [.] at the start, [0]
    for any digit; [None] is a character that is not part of the number. *)
Fixpoint scan_digits (b : Z) (s : bytes) (prev : byte) (invalSep : bool) (count : Z) (z : Z)
  : option (byte * bool * Z * Z) :=
  match s with
  | [] => Some (prev, invalSep, count, z)
  | ch :: s =>
      if bool_decide (ch = ch_sep) then
        scan_digits b s ch_sep (invalSep || bool_decide (prev ≠ ch_zero)) count z
      else
        d1 ← hex_value ch;
        if bool_decide (b ≤ d1) then None
        else scan_digits b s ch_zero invalSep (count + 1) (z * b + d1)
  end.
(** What [nat.scan] does at the end of the string; [octal] is the prefix 0. *)
Definition scan_end (octal : bool) (r : option (byte * bool * Z * Z)) : option Z :=
  '(prev, invalSep, count, z) ← r;
  if invalSep || bool_decide (prev = ch_sep) then None
  else if bool_decide (count = 0) then (if octal then Some 0 else None)
  else Some z.
Definition scan_nat (s : bytes) : option Z :=
  match s with
  | x30 :: [] => Some 0
  | x30 :: (x62 | x42) :: s => scan_end false (scan_digits 2 s ch_zero false 0 0)
  | x30 :: (x6f | x4f) :: s => scan_end false (scan_digits 8 s ch_zero false 0 0)
  | x30 :: (x78 | x58) :: s => scan_end false (scan_digits 16 s ch_zero false 0 0)
  | x30 :: s => scan_end true (scan_digits 8 s ch_zero false 0 0)
  | _ => scan_end false (scan_digits 10 s ch_dot false 0 0)
  end.
(** [None] is the nil pointer of a string that is not a number. *)
Definition SetString0 (str : string) : option Z :=
  match list_byte_of_string str with
  | x2d :: s => Z.opp <$> scan_nat s
  | x2b :: s => scan_nat s
  | s => scan_nat s
  end.

(** ** The contracts *)
Definition MtHeight : nat := 32.

(** The arguments of [claimAsset] and [claimMessage]; the numbers are pointers. *)
Record auto_claim_args := mk_auto_claim_args {
  aa_smtProof : list bytes;
  aa_smtRollupProof : list bytes;
  aa_globalIndex : option Z;
  aa_mainnetExitRoot : bytes;
  aa_rollupExitRoot : bytes;
  aa_originNetwork : Z;
  aa_originAddress : bytes;
  aa_destinationNetwork : Z;
  aa_destinationAddress : bytes;
  aa_amount : option Z;
  aa_metadata : bytes;
}.
Record auto_ClaimCallData := mk_auto_ClaimCallData {
  ac_SmtProofLocalExitRoot : list bytes;
  ac_SmtProofRollupExitRoot : list bytes;
  ac_GlobalIndex : option Z;
  ac_OriginNetwork : Z;
  ac_OriginAddress : bytes;
  ac_DestinationAddress : bytes;
  ac_Amount : option Z;
  ac_Metadata : bytes;
  ac_IsMessage : bool;
}.
(** The bindings, given the [NoSend] of the options; a transaction is its hash. *)
Class ClaimContracts (E : Type) : Type := {
  bind_ClaimAsset : bool → auto_claim_args → M E bytes;
  bind_ClaimMessage : bool → auto_claim_args → M E bytes;
  bind_CompressClaimCall : bytes → bytes → list auto_ClaimCallData → M E bytes;
  bind_SendCompressedClaims : bytes → M E bytes;
}.
(** [protojson.Unmarshal] of the two answers; [Proof] is a pointer. *)
Class ProtoJson : Type := {
  Unmarshal_GetProofResponse : string → res (option pb_Proof);
  Unmarshal_GetBridgesResponse : string → res (list pb_Deposit * Z);
}.

Record AutoClaimConfig := mkAutoClaimConfig {
  au_AuthorizedClaimMessageAddresses : list bytes;
  au_MaxNumberOfClaimsPerGroup : Z;               (* int *)
  au_BridgeURL : string;
  au_NetworkID : Z;                               (* bm.NetworkID *)
  au_HasClaimCompressor : bool;                   (* bm.ClaimCompressor is not nil *)
}.

(** [arr[0:size]] and [arr[size:]] until nothing is left, on fuel: with a size of 0
    the loop never ends. *)
Fixpoint arraySplitter {A} (fuel : nat) (arr : list A) (size : Z) : option (res (list (list A))) :=
  match fuel with
  | O => None
  | S fuel =>
      match arr with
      | [] => Some (Ok [])
      | _ =>
          let size := if bool_decide (Z.of_nat (length arr) < size) then Z.of_nat (length arr) else size in
          if bool_decide (size < 0) then Some (Panic "slice bounds out of range")
          else
            chunks ← arraySplitter fuel (drop (Z.to_nat size) arr) size;
            Some (c ← chunks; Ok (take (Z.to_nat size) arr :: c))
      end
  end.

Section AutoClaim.
Context {K : Keccak} {Com : Common} {PJ : ProtoJson} {E : Type}.
Context {Http : HttpClient E} {Contracts : ClaimContracts E}.
Context (cfg : AutoClaimConfig).

(** Legacy Keccak-256 of the concatenation. *)
Definition hash (data : list bytes) : bytes := go_copy zero_hash (keccak256 (concat data)).

(** ** The manager of the blockchain *)
Definition nil_pointer {A} : M E A := gopanic "invalid memory address or nil pointer dereference".

Definition SendCompressedClaims (compressedTxData : bytes) : M E bytes :=
  bind_SendCompressedClaims compressedTxData.

(** An error of the contract is logged, and the empty slice returned without an
    error. *)
Definition CompressClaimCall (mainnetExitRoot rollupExitRoot : bytes) (claimData : list auto_ClaimCallData)
  : M E bytes :=
  r ← attempt (bind_CompressClaimCall mainnetExitRoot rollupExitRoot claimData);
  match r with inl compressedData => mret compressedData | inr _ => mret [] end.

(** A nil transaction and no error when the leaf is neither an asset nor a
    message. *)
Definition call_claim (noSend : bool) (leafType : Z) (args : auto_claim_args) : M E (option bytes) :=
  if bool_decide (leafType = LeafTypeAsset) then tx ← bind_ClaimAsset noSend args; mret (Some tx)
  else if bool_decide (leafType = LeafTypeMessage) then tx ← bind_ClaimMessage noSend args; mret (Some tx)
  else mret None.
Definition SendClaim (leafType : Z) (args : auto_claim_args) : M E (option bytes) :=
  call_claim false leafType args.
Definition EstimateGasClaim (leafType : Z) (args : auto_claim_args) : M E (option bytes) :=
  map_err (ErrorfV "failed to estimate gas tx, err: %v") (call_claim true leafType args).

(** ** The requests to the REST interface *)

(** [res.StatusCode == http.StatusOK] and [io.ReadAll]. *)
Definition read_OK (res : http_Response) (endpoint : string) : M E string :=
  if bool_decide (hr_StatusCode res = StatusOK) then lift_res (hr_Body res)
  else throw (Errorf ("error calling " +:+ endpoint +:+ " endpoint. Status Code: %d") [hr_StatusCode res]).

Definition text (b : bytes) : string := string_of_list_byte b.

Definition proof_url (bridge : pb_Deposit) : string :=
  au_BridgeURL cfg +:+ "/merkle-proof?net_id=" +:+ pretty (pd_NetworkId bridge) +:+
  "&deposit_cnt=" +:+ pretty (pd_DepositCnt bridge).
Definition getProof (bridge : pb_Deposit) : M E (option pb_Proof) :=
  res ← http_Get (proof_url bridge);
  bodyBytes ← read_OK res "/merkle-proof";
  lift_res (Unmarshal_GetProofResponse bodyBytes).

Definition proof_by_ger_url (bridge : pb_Deposit) (ger : bytes) : string :=
  au_BridgeURL cfg +:+ "/merkle-proof-by-ger?net_id=" +:+ pretty (pd_NetworkId bridge) +:+
  "&deposit_cnt=" +:+ pretty (pd_DepositCnt bridge) +:+ "&ger=" +:+ text (Hash_String ger).
Definition getProofByGER (bridge : pb_Deposit) (ger : bytes) : M E (option pb_Proof) :=
  res ← http_Get (proof_by_ger_url bridge ger);
  bodyBytes ← read_OK res "merkle-proof-by-ger";
  lift_res (Unmarshal_GetProofResponse bodyBytes).

Definition pending_url (leafType : Z) (destAddress : bytes) : string :=
  au_BridgeURL cfg +:+ "/pending-bridges?dest_net=" +:+ pretty (au_NetworkID cfg) +:+
  "&leaf_type=" +:+ pretty leafType +:+ "&dest_addr=" +:+ text (Address_Hex destAddress).
(** Another status is not an error here: an empty body is unmarshalled. *)
Definition getPendingBridges (leafType : Z) (destAddress : bytes) : M E (list pb_Deposit * Z) :=
  res ← http_Get (pending_url leafType destAddress);
  bodyBytes ← (if bool_decide (hr_StatusCode res = StatusOK) then lift_res (hr_Body res) else mret EmptyString);
  lift_res (Unmarshal_GetBridgesResponse bodyBytes).

Fixpoint authorized_bridges (addrs : list bytes) (bridges : list pb_Deposit) : M E (list pb_Deposit) :=
  match addrs with
  | [] => mret bridges
  | addr :: addrs =>
      '(authorizedBridges, _) ← getPendingBridges LeafTypeMessage addr;
      authorized_bridges addrs (bridges ++ authorizedBridges)
  end.
Definition getBridgesToClaim : M E (list pb_Deposit) :=
  '(bridges, _) ← getPendingBridges LeafTypeAsset zero_address;
  authorized_bridges (au_AuthorizedClaimMessageAddresses cfg) bridges.

(** ** The claims *)

(** The arrays filled from the strings of a proof; both are indexed by the length
    of the first. *)
Fixpoint fill_proofs (i : nat) (merkleProof rollupMerkleProof : list bytes) (smtProof smtRollupProof : list bytes)
  : res (list bytes * list bytes) :=
  match merkleProof with
  | [] => Ok (smtProof, smtRollupProof)
  | h :: merkleProof =>
      if bool_decide (MtHeight ≤ i)%nat then Panic "index out of range"
      else
        r ← at_index rollupMerkleProof (Z.of_nat i);
        fill_proofs (S i) merkleProof rollupMerkleProof (<[i := HexToHash h]> smtProof)
          (<[i := HexToHash r]> smtRollupProof)
  end.
Definition proof_arrays (p : pb_Proof) : res (list bytes * list bytes) :=
  fill_proofs 0 (pp_MerkleProof p) (pp_RollupMerkleProof p)
    (replicate MtHeight zero_hash) (replicate MtHeight zero_hash).

Definition the_proof (p : option pb_Proof) : res pb_Proof :=
  match p with Some p => Ok p | None => Panic "invalid memory address or nil pointer dereference" end.

(** The arguments of the claim of a bridge, given the two exit roots. *)
Definition bridge_args (b : pb_Deposit) (mainnetExitRoot rollupExitRoot : bytes) (p : pb_Proof)
  : res auto_claim_args :=
  '(smtProof, smtRollupProof) ← proof_arrays p;
  mret (mk_auto_claim_args smtProof smtRollupProof (SetString0 (pd_GlobalIndex b)) mainnetExitRoot rollupExitRoot
    (pd_OrigNet b) (HexToAddress (pd_OrigAddr b)) (pd_DestNet b) (HexToAddress (pd_DestAddr b))
    (SetString0 (pd_Amount b)) (FromHex (pd_Metadata b))).

(** One bridge: an error of its claim is only logged. *)
Definition claim_bridge (b : pb_Deposit) (proof : option pb_Proof) : M E unit :=
  p ← lift_res (the_proof proof);
  args ← lift_res (bridge_args b (HexToHash (pp_MainExitRoot p)) (HexToHash (pp_RollupExitRoot p)) p);
  r ← attempt (SendClaim (pd_LeafType b) args);
  match r with
  | inr _ => mret tt
  | inl (Some _) => mret tt
  | inl None => nil_pointer                       (* tx.Hash() *)
  end.

Fixpoint get_proofs (bridges : list pb_Deposit) : M E (list (option pb_Proof)) :=
  match bridges with
  | [] => mret []
  | b :: bridges => proof ← getProof b; proofs ← get_proofs bridges; mret (proof :: proofs)
  end.

Definition claimIndividually : M E unit :=
  bridges ← getBridgesToClaim;
  if bool_decide (length bridges = 0%nat) then mret tt
  else
    proofs ← get_proofs bridges;
    if bool_decide (length bridges ≠ length proofs) then
      throw (Errorf "error: bridges length and proofs length don't match in claimIndividually()" [])
    else for_each (zip bridges proofs) (λ bp, claim_bridge bp.1 bp.2).

Fixpoint get_proofs_by_ger (ger : bytes) (bridges : list pb_Deposit) : M E (list (option pb_Proof)) :=
  match bridges with
  | [] => mret []
  | b :: bridges => proof ← getProofByGER b ger; proofs ← get_proofs_by_ger ger bridges; mret (proof :: proofs)
  end.

(** The claims of a group that can be claimed: the others are skipped. *)
Fixpoint group_claims (mainnetExitRoot rollupExitRoot : bytes) (sb : list (pb_Deposit * option pb_Proof))
  : M E (list auto_ClaimCallData) :=
  match sb with
  | [] => mret []
  | (b, proof) :: sb =>
      p ← lift_res (the_proof proof);
      args ← lift_res (bridge_args b mainnetExitRoot rollupExitRoot p);
      r ← attempt (EstimateGasClaim (pd_LeafType b) args);
      match r with
      | inr _ => group_claims mainnetExitRoot rollupExitRoot sb
      | inl _ =>
          allClaimData ← group_claims mainnetExitRoot rollupExitRoot sb;
          mret (mk_auto_ClaimCallData (aa_smtProof args) (aa_smtRollupProof args) (aa_globalIndex args)
                  (aa_originNetwork args) (aa_originAddress args) (aa_destinationAddress args) (aa_amount args)
                  (aa_metadata args) (bool_decide (pd_LeafType b = LeafTypeMessage)) :: allClaimData)
      end
  end.

(** The groups in their order; [return nil] leaves the loop at a group without
    claims. *)
Fixpoint send_groups (mainnetExitRoot rollupExitRoot : bytes)
    (groups : list (list (pb_Deposit * option pb_Proof))) : M E unit :=
  match groups with
  | [] => mret tt
  | sb :: groups =>
      allClaimData ← group_claims mainnetExitRoot rollupExitRoot sb;
      if bool_decide (length allClaimData = 0%nat) then mret tt
      else
        compressedTxData ← CompressClaimCall mainnetExitRoot rollupExitRoot allClaimData;
        SendCompressedClaims compressedTxData;;
        send_groups mainnetExitRoot rollupExitRoot groups
  end.

Definition splitter {A} (arr : list A) : M E (list (list A)) :=
  match arraySplitter (S (length arr)) arr (au_MaxNumberOfClaimsPerGroup cfg) with
  | Some chunks => lift_res chunks
  | None => gopanic "arraySplitter does not end"
  end.

(** The first proof gives the global exit root the others are asked for. *)
Definition claimGrouped : M E unit :=
  bridges ← getBridgesToClaim;
  match bridges with
  | [] => mret tt
  | b :: rest =>
      proof ← getProof b;
      p ← lift_res (the_proof proof);
      let mainnetExitRoot := HexToHash (pp_MainExitRoot p) in
      let rollupExitRoot := HexToHash (pp_RollupExitRoot p) in
      let ger := hash [mainnetExitRoot; rollupExitRoot] in
      proofs ← get_proofs_by_ger ger rest;
      let proofs := proof :: proofs in
      if bool_decide (length bridges ≠ length proofs) then
        throw (Errorf "error: bridges length and proofs length don't match in claimGrouped()" [])
      else
        splittedBridges ← splitter bridges;
        splittedProofs ← splitter proofs;
        send_groups mainnetExitRoot rollupExitRoot (zip_with zip splittedBridges splittedProofs)
  end.

(** One tick of [Start]: the errors are logged. *)
Definition Start_tick : M E unit :=
  _ ← attempt (if bool_decide (au_MaxNumberOfClaimsPerGroup cfg = 0) || negb (au_HasClaimCompressor cfg)
               then claimIndividually else claimGrouped);
  mret tt.
End AutoClaim.
