(* ===== verification/Redis.v ===== *)
(** * The cache in Redis

    [xlayer/redisstorage/redisstorage.go]: what the service keeps in Redis, over
    the commands of the client, which are an interface with the laws of Redis'
    own documentation. *)
From Stdlib Require Import Strings.String Strings.Ascii.
From stdpp Require Import pretty.
From S2P Require Import Prelude Types EthClient.

(** ** Numbers as text

    [strconv.ParseInt(s, 10, 64)]; [FormatUint] and [%d] are [pretty]. *)
Definition digit_value (c : ascii) : option Z :=
  let n := Z.of_nat (nat_of_ascii c) in
  if bool_decide (48 ≤ n ≤ 57) then Some (n - 48) else None.
Fixpoint parse_digits (acc : Z) (s : string) : option Z :=
  match s with
  | EmptyString => Some acc
  | String c s => d ← digit_value c; parse_digits (acc * 10 + d) s
  end.
Definition parse_unsigned (s : string) : option Z :=
  match s with EmptyString => None | _ => parse_digits 0 s end.
Definition parse_signed (s : string) : option Z :=
  match s with
  | EmptyString => None
  | String c rest =>
      if bool_decide (c = "-"%char) then Z.opp <$> parse_unsigned rest
      else if bool_decide (c = "+"%char) then parse_unsigned rest
      else parse_unsigned s
  end.
Definition ParseInt (s : string) : option Z :=
  z ← parse_signed s; if bool_decide (- 2 ^ 63 ≤ z < 2 ^ 63) then Some z else None.

(** ** The client *)

(** A value given to a command: go-redis writes integers in decimal and [true] as 1. *)
Inductive RedisArg : Type := ArgString (s : string) | ArgInt (z : Z) | ArgBool (b : bool).
Definition arg_text (a : RedisArg) : string :=
  match a with ArgString s => s | ArgInt z => pretty z | ArgBool b => if b then "1" else "0" end.

Class RedisClient (E : Type) : Type := {
  redis_Set : string → RedisArg → Z → M E unit;        (* expiration, 0 for none *)
  redis_Get : string → M E string;
  redis_SetNX : string → RedisArg → Z → M E bool;
  redis_Del : string → M E unit;
  redis_HSet : string → list (string * RedisArg) → M E unit;
  redis_HMGet : string → list string → M E (list (option string));
  redis_HVals : string → M E (list string);
  redis_HDel : string → string → M E unit;
  redis_LPush : string → RedisArg → M E Z;
  redis_RPop : string → M E string;
  redis_LLen : string → M E Z;
  redis_LRange : string → Z → Z → M E (list string);
  redis_Expire : string → Z → M E bool;
}.

(** What a server holds, and what the commands that succeed do with it; nothing
    expires between two commands of one call. *)
Inductive RedisValue : Type :=
| RString (s : string) | RHash (h : gmap string string) | RList (l : list string).
Definition hash_at (k : string) (m : gmap string RedisValue) : gmap string string :=
  match m !! k with Some (RHash h) => h | _ => ∅ end.
Definition list_at (k : string) (m : gmap string RedisValue) : list string :=
  match m !! k with Some (RList l) => l | _ => [] end.
(** An empty hash or list is no key. *)
Definition put_hash (k : string) (h : gmap string string) (m : gmap string RedisValue) : gmap string RedisValue :=
  if bool_decide (h = ∅) then delete k m else <[k := RHash h]> m.
Definition put_list (k : string) (l : list string) (m : gmap string RedisValue) : gmap string RedisValue :=
  if bool_decide (l = []) then delete k m else <[k := RList l]> m.
Definition set_fields (fs : list (string * RedisArg)) (h : gmap string string) : gmap string string :=
  fold_left (λ h f, <[f.1 := arg_text f.2]> h) fs h.

Class RedisOk (E : Type) `{!RedisClient E} : Type := {
  kept : E → gmap string RedisValue;
  Set_ok k a t e e' : redis_Set k a t e = (Ok tt, e') → kept e' = <[k := RString (arg_text a)]> (kept e);
  Get_ok k e r e' : redis_Get k e = (r, e') →
    kept e' = kept e ∧ (∀ s, r = Ok s → kept e !! k = Some (RString s)) ∧ (r = Err ErrRedisNil → kept e !! k = None);
  SetNX_ok k a t e b e' : redis_SetNX k a t e = (Ok b, e') →
    if b then kept e !! k = None ∧ kept e' = <[k := RString (arg_text a)]> (kept e)
    else is_Some (kept e !! k) ∧ kept e' = kept e;
  Del_ok k e e' : redis_Del k e = (Ok tt, e') → kept e' = delete k (kept e);
  HSet_ok k fs e e' : redis_HSet k fs e = (Ok tt, e') →
    kept e' = put_hash k (set_fields fs (hash_at k (kept e))) (kept e);
  HMGet_ok k fs e r e' : redis_HMGet k fs e = (r, e') →
    kept e' = kept e ∧ (∀ l, r = Ok l → l = (λ f, hash_at k (kept e) !! f) <$> fs);
  HVals_ok k e r e' : redis_HVals k e = (r, e') →
    kept e' = kept e ∧ (∀ l, r = Ok l → l ≡ₚ (map_to_list (hash_at k (kept e))).*2);
  HDel_ok k f e e' : redis_HDel k f e = (Ok tt, e') →
    kept e' = put_hash k (delete f (hash_at k (kept e))) (kept e);
  LPush_ok k a e n e' : redis_LPush k a e = (Ok n, e') →
    kept e' = put_list k (arg_text a :: list_at k (kept e)) (kept e) ∧
    n = Z.of_nat (S (length (list_at k (kept e))));
  RPop_ok k e s e' : redis_RPop k e = (Ok s, e') →
    ∃ l, list_at k (kept e) = l ++ [s] ∧ kept e' = put_list k l (kept e);
  LLen_ok k e r e' : redis_LLen k e = (r, e') →
    kept e' = kept e ∧ (∀ n, r = Ok n → n = Z.of_nat (length (list_at k (kept e))));
  LRange_ok k e l e' : redis_LRange k 0 (-1) e = (Ok l, e') → kept e' = kept e ∧ l = list_at k (kept e);
  Expire_ok k t e r e' : 0 < t → redis_Expire k t e = (r, e') → kept e' = kept e;
}.

(** A server that answers every command of the locks, numbers and lists of the
    tasks. *)
Class RedisUp (E : Type) `{RedisOk E} : Prop := {
  Set_up k a t e : ∃ e', redis_Set k a t e = (Ok tt, e');
  Get_up k e : match kept e !! k with
               | Some (RString s) => ∃ e', redis_Get k e = (Ok s, e')
               | None => ∃ e', redis_Get k e = (Err ErrRedisNil, e')
               | _ => True
               end;
  SetNX_up k a t e : ∃ b e', redis_SetNX k a t e = (Ok b, e');
  Del_up k e : ∃ e', redis_Del k e = (Ok tt, e');
  HVals_up k e : (∀ v, kept e !! k = Some v → ∃ h, v = RHash h) → ∃ l e', redis_HVals k e = (Ok l, e');
}.

(** ** Prices, logos and large transactions

    The messages of the API; a price is kept as the bits of its float. *)
Record SymbolInfo := mkSymbolInfo { si_ChainId : Z; si_Address : string }.
Record SymbolPrice := mkSymbolPrice {
  sp_Symbol : string; sp_Price : Z; sp_Time : Z; sp_Address : string; sp_ChainId : Z;
}.
Record LargeTxInfo := mkLargeTxInfo {
  lti_ChainId : Z; lti_Symbol : string; lti_Amount : Z; lti_UsdAmount : Z; lti_Hash : string; lti_Address : string;
}.
Record LogoInfo := mkLogoInfo {
  li_LogoUrl : string; li_LogoOssUrl : string; li_ChainIdStr : string; li_TokenContractAddress : string;
  li_TokenSymbol : string; li_Unit : Z; li_TokenName : string;
}.
(** The encodings: of encoding/json and of protojson. *)
Class Codec (A : Type) : Type := { encode_text : A → option string; decode_text : string → option A }.
Class CodecOk (A : Type) `{!Codec A} : Prop := decode_encode_text a s : encode_text a = Some s → decode_text s = Some a.
Definition ErrEncoding : error := ErrExternal 3.
Definition marshal `{Codec A} (a : A) : res string :=
  match encode_text a with Some s => Ok s | None => Err ErrEncoding end.
Definition unmarshal `{Codec A} (s : string) : res A :=
  match decode_text s with Some a => Ok a | None => Err ErrEncoding end.

Record redisStorageImpl := mkRedisStorage {
  rs_client : bool;                   (* the client is not nil *)
  rs_enableCoinPriceCfg : bool;
  rs_keyPrefix : string;
}.

Definition minute : Z := 60 * 1000000000.
Definition lockExpire : Z := 1 * minute.
Definition durationFor48h : Z := 48 * 60 * minute.
Definition l1BlockDepositListExpiry : Z := 24 * 60 * minute.

Definition coinPriceHashKey : string := "bridge_coin_prices".
Definition l1BlockNumKey : string := "bridge_l1_block_num".
Definition latestCommitBatchNumKey : string := "bridge_latest_commit_batch_num".
Definition maxCommitBlockNumKey : string := "bridge_max_commit_block_num".
Definition avgCommitDurationKey : string := "bridge_avg_commit_duration".
Definition commitBatchTimeListKey : string := "bridge_commit_batch_simple_info".
Definition latestVerifyBatchNumKey : string := "bridge_latest_verify_batch_num".
Definition avgVerifyDurationKey : string := "bridge_avg_verify_duration".
Definition verifyBatchTimeListKey : string := "bridge_verify_batch_simple_info".
Definition l2BlockCommitTimeKey : string := "bridge_l2_block_commit_time_key_".
Definition tokenLogoInfoKey : string := "bridge_token_logo_info_".
Definition largeTxInfosKey : string := "bridge_large_tx_infos_".

(** [fmt.Sprintf("bridge_block_deposits_%d_%d", networkID, blockNum)]. *)
Definition getBlockDepositListKey (networkID blockNum : Z) : string :=
  "bridge_block_deposits_" +:+ pretty networkID +:+ "_" +:+ pretty blockNum.
(** [strings.ToLower], on ASCII. *)
Definition lower (c : ascii) : ascii :=
  let n := nat_of_ascii c in if bool_decide (65 ≤ n ≤ 90)%nat then ascii_of_nat (n + 32) else c.
Fixpoint ToLower (s : string) : string :=
  match s with EmptyString => EmptyString | String c s => String (lower c) (ToLower s) end.
Definition getCoinPriceKey (chainID : Z) (tokenAddr : string) : string :=
  let tokenAddr := if bool_decide (tokenAddr = "") then "null" else tokenAddr in
  ToLower (pretty chainID +:+ "_" +:+ tokenAddr).
Definition convertPricesToSymbols (prices : list SymbolPrice) : list SymbolInfo :=
  (λ p, mkSymbolInfo (sp_ChainId p) (sp_Address p)) <$> prices.

Section RedisStorage.
Context {E : Type} {Redis : RedisClient E} {Txt : Texts}.
Context {PriceCodec : Codec SymbolPrice} {DepositCodec : Codec Deposit} {LogoCodec : Codec LogoInfo}.
Context {LargeCodec : Codec LargeTxInfo}.
Context (s : redisStorageImpl).
Abbreviation R := (M E).

(** [errors.Wrap]: the wrapped error stays visible. *)
Definition Wrap {A} (msg : string) (m : R A) : R A := map_err (ErrorfW msg) m.
Definition addKeyPrefix (key : string) : string := rs_keyPrefix s +:+ key.
(** [if s == nil || s.client == nil]. *)
Definition with_client {A} (m : R A) : R A :=
  if rs_client s then m else throw (Errorf "redis client is nil" []).

(** ** The shared operations *)
Definition setFoundation (key : string) (value : RedisArg) (expiration : Z) : R unit :=
  with_client (Wrap "set for key: %v error" (redis_Set key value expiration)).
Definition delFoundation (key : string) : R unit :=
  with_client (Wrap "del for key: %v error" (redis_Del key)).
(** [uint64(num)] of the parsed number. *)
Definition getIntCacheFoundation (key : string) : R Z :=
  with_client
    (res ← Wrap "get redis cache for key: %v failed" (redis_Get key);
     match ParseInt res with
     | None => throw (ErrorfW "convert value for key: %v failed, value: %v" ErrEncoding)
     | Some num => mret (wrap64 num)
     end).
Definition lPushFoundation (key : string) (value : RedisArg) : R Z :=
  with_client (Wrap "lPush redis cache for key: %v failed" (redis_LPush key value)).
Definition LRangeFoundation (key : string) (start stop : Z) : R (list string) :=
  with_client (Wrap "lRange redis cache for key: %v failed" (redis_LRange key start stop)).
Definition lLenFoundation (key : string) : R Z :=
  with_client (Wrap "get redis list len for key: %v failed" (redis_LLen key)).
Definition rPopIntCacheFoundation (key : string) : R Z :=
  with_client
    (res ← Wrap "r-pop redis list item for key: %v, failed" (redis_RPop key);
     match ParseInt res with
     | None => throw (ErrorfW "convert redis list item value for key: %v failed, value: %v" ErrEncoding)
     | Some num => mret num
     end).
Definition expireKeyFoundation (key : string) (expiration : Z) : R bool := with_client (redis_Expire key expiration).

(** ** Prices *)
Definition empty_price (si : SymbolInfo) : SymbolPrice := mkSymbolPrice "" 0 0 (si_Address si) (si_ChainId si).
(** The answer for one symbol: nothing stored or nothing readable is an empty price. *)
Definition read_price (si : SymbolInfo) (stored : option string) : SymbolPrice :=
  match stored with
  | None => empty_price si
  | Some text => match unmarshal text with Ok price => price | _ => empty_price si end
  end.
Fixpoint read_prices (symbols : list SymbolInfo) (results : list (option string)) : res (list SymbolPrice) :=
  match results, symbols with
  | [], _ => Ok []
  | r :: results, si :: symbols => rest ← read_prices symbols results; mret (read_price si r :: rest)
  | _ :: _, [] => Panic "index out of range"
  end.
Definition getCoinPrice (symbols : list SymbolInfo) : R (list SymbolPrice) :=
  match symbols with
  | [] => mret []
  | _ =>
      with_client
        (let keyList := (λ si, getCoinPriceKey (si_ChainId si) (si_Address si)) <$> symbols in
         redisResult ← Wrap "getCoinPrice redis HMGet error" (redis_HMGet (addKeyPrefix coinPriceHashKey) keyList);
         lift_res (read_prices symbols redisResult))
  end.
Definition GetCoinPrice (symbols : list SymbolInfo) : R (list SymbolPrice) :=
  if rs_enableCoinPriceCfg s then getCoinPrice symbols else mret (empty_price <$> symbols).

(** The fields to write: a price older than the stored one is left out. *)
Fixpoint price_fields (prices currentPrices : list SymbolPrice) : res (list (string * RedisArg)) :=
  match prices, currentPrices with
  | [], _ => Ok []
  | _ :: _, [] => Panic "index out of range"
  | price :: prices, current :: currentPrices =>
      if bool_decide (sp_Time price < sp_Time current) then price_fields prices currentPrices
      else
        match marshal price with
        | Ok priceVal =>
            rest ← price_fields prices currentPrices;
            mret ((getCoinPriceKey (sp_ChainId price) (sp_Address price), ArgString priceVal) :: rest)
        | Err err => Err (ErrorfW "marshal price error" err)
        | Panic p => Panic p
        end
  end.
Definition SetCoinPrice (prices : list SymbolPrice) : R unit :=
  with_client
    (currentPrices ← Wrap "SetCoinPrice get current price error" (getCoinPrice (convertPricesToSymbols prices));
     valueList ← lift_res (price_fields prices currentPrices);
     match valueList with
     | [] => mret tt
     | _ => Wrap "SetCoinPrice redis HSet error" (redis_HSet (addKeyPrefix coinPriceHashKey) valueList)
     end).

(** ** The deposits of a block of L1 *)
Definition SetL1BlockNum (blockNum : Z) : R unit :=
  with_client (Wrap "SetL1BlockNum error" (redis_Set (addKeyPrefix l1BlockNumKey) (ArgInt blockNum) 0)).
Definition GetL1BlockNum : R Z :=
  with_client
    (res ← Wrap "GetL1BlockNum error" (redis_Get (addKeyPrefix l1BlockNumKey));
     match ParseInt res with
     | None => throw (ErrorfW "GetL1BlockNum convert error" ErrEncoding)
     | Some num => mret (wrap64 num)
     end).
Definition block_deposits_key (networkID blockNum : Z) : string :=
  addKeyPrefix (getBlockDepositListKey networkID blockNum).
Definition AddBlockDeposit (deposit : Deposit) : R unit :=
  with_client
    (val ← Wrap "json encode error" (lift_res (marshal deposit));
     let key := block_deposits_key (dep_NetworkID deposit) (dep_BlockNumber deposit) in
     Wrap "AddBlockDeposit HSet error" (redis_HSet key [(hash_text (dep_TxHash deposit), ArgString val)]);;
     _ ← attempt (redis_Expire key l1BlockDepositListExpiry);
     mret tt).
Definition DeleteBlockDeposit (deposit : Deposit) : R unit :=
  with_client
    (let key := block_deposits_key (dep_NetworkID deposit) (dep_BlockNumber deposit) in
     Wrap "DeleteBlockDeposit HDel error" (redis_HDel key (hash_text (dep_TxHash deposit)))).
Fixpoint decode_all {A} {C : Codec A} (texts : list string) : res (list A) :=
  match texts with
  | [] => Ok []
  | t :: texts => a ← unmarshal t; rest ← decode_all texts; mret (a :: rest)
  end.
Definition GetBlockDepositList (networkID blockNum : Z) : R (list Deposit) :=
  with_client
    (texts ← Wrap "GetBlockDeposits HVals error" (redis_HVals (block_deposits_key networkID blockNum));
     Wrap "GetBlockDeposits json decode error" (lift_res (decode_all texts))).

(** ** Locks *)
Definition TryLock (lockKey : string) : R bool :=
  with_client (Wrap "SetNX error" (redis_SetNX (addKeyPrefix lockKey) (ArgBool true) lockExpire)).
Definition ReleaseLock (lockKey : string) : R unit :=
  with_client (Wrap "ReleaseLock error" (redis_Del (addKeyPrefix lockKey))).

(** ** Batches *)
Definition SetCommitBatchNum (batchNum : Z) : R unit :=
  setFoundation (addKeyPrefix latestCommitBatchNumKey) (ArgInt batchNum) 0.
Definition GetCommitBatchNum : R Z := getIntCacheFoundation (addKeyPrefix latestCommitBatchNumKey).
Definition SetCommitMaxBlockNum (blockNum : Z) : R unit :=
  setFoundation (addKeyPrefix maxCommitBlockNumKey) (ArgInt blockNum) 0.
Definition GetCommitMaxBlockNum : R Z := getIntCacheFoundation (addKeyPrefix maxCommitBlockNumKey).
Definition SetAvgCommitDuration (duration : Z) : R unit :=
  setFoundation (addKeyPrefix avgCommitDurationKey) (ArgInt duration) 0.
Definition GetAvgCommitDuration_ : R Z := getIntCacheFoundation (addKeyPrefix avgCommitDurationKey).
Definition buildL2BlockCommitTimeCacheKey (blockNum : Z) : string := l2BlockCommitTimeKey +:+ pretty blockNum.
Definition SetL2BlockCommitTime (blockNum commitTimestamp : Z) : R unit :=
  setFoundation (addKeyPrefix (buildL2BlockCommitTimeCacheKey blockNum)) (ArgInt commitTimestamp) durationFor48h.
Definition GetL2BlockCommitTime (blockNum : Z) : R Z :=
  getIntCacheFoundation (addKeyPrefix (buildL2BlockCommitTimeCacheKey blockNum)).
Definition LPushCommitTime (commitTimeTimestamp : Z) : R unit :=
  _ ← lPushFoundation (addKeyPrefix commitBatchTimeListKey) (ArgInt commitTimeTimestamp); mret tt.
Definition LLenCommitTimeList : R Z := lLenFoundation (addKeyPrefix commitBatchTimeListKey).
Definition RPopCommitTime : R Z := rPopIntCacheFoundation (addKeyPrefix commitBatchTimeListKey).
Definition SetVerifyBatchNum (batchNum : Z) : R unit :=
  setFoundation (addKeyPrefix latestVerifyBatchNumKey) (ArgInt batchNum) 0.
Definition GetVerifyBatchNum : R Z := getIntCacheFoundation (addKeyPrefix latestVerifyBatchNumKey).
Definition SetAvgVerifyDuration (duration : Z) : R unit :=
  setFoundation (addKeyPrefix avgVerifyDurationKey) (ArgInt duration) 0.
Definition GetAvgVerifyDuration_ : R Z := getIntCacheFoundation (addKeyPrefix avgVerifyDurationKey).
Definition LPushVerifyTime (commitTimeTimestamp : Z) : R unit :=
  _ ← lPushFoundation (addKeyPrefix verifyBatchTimeListKey) (ArgInt commitTimeTimestamp); mret tt.
Definition LLenVerifyTimeList : R Z := lLenFoundation (addKeyPrefix verifyBatchTimeListKey).
Definition RPopVerifyTime : R Z := rPopIntCacheFoundation (addKeyPrefix verifyBatchTimeListKey).

(** ** Logos and large transactions *)
Definition getTokenInfoCacheKey (keySuffix : string) : string := tokenLogoInfoKey +:+ keySuffix.
Definition SetTokenLogoInfo (keySuffix : string) (logoInfo : LogoInfo) : R unit :=
  value ← Wrap "failed to convert logoInfo to string" (lift_res (marshal logoInfo));
  setFoundation (addKeyPrefix (getTokenInfoCacheKey keySuffix)) (ArgString value) durationFor48h.
Definition GetTokenLogoInfo (keySuffix : string) : R LogoInfo :=
  with_client
    (text ← Wrap "get redis cache for key: %v failed" (redis_Get (addKeyPrefix (getTokenInfoCacheKey keySuffix)));
     Wrap "failed convert logo info cache to struct, cache: %v" (lift_res (unmarshal text))).
Definition getLargeInfosCacheKey (keySuffix : string) : string := addKeyPrefix (largeTxInfosKey +:+ keySuffix).
Definition AddLargeTransaction (keySuffix : string) (largeTxInfo : LargeTxInfo) : R Z :=
  text ← Wrap "failed convert large tx info to str, hash: %v" (lift_res (marshal largeTxInfo));
  lPushFoundation (getLargeInfosCacheKey keySuffix) (ArgString text).
(** What cannot be read is left out. *)
Definition readable {A} {C : Codec A} (texts : list string) : list A :=
  omap (λ t, match unmarshal t with Ok a => Some a | _ => None end) texts.
Definition GetLargeTransactions (keySuffix : string) : R (list LargeTxInfo) :=
  cache ← Wrap "failed to get large tx cache for key: %v" (LRangeFoundation (getLargeInfosCacheKey keySuffix) 0 (-1));
  mret (readable cache).
Definition DelLargeTransactions (keySuffix : string) : R unit :=
  Wrap "failed to del large tx cache for key: %v" (delFoundation (getLargeInfosCacheKey keySuffix)).
Definition ExpireLargeTransactions (key : string) (expiration : Z) : R bool :=
  expireKeyFoundation (getLargeInfosCacheKey key) expiration.
End RedisStorage.
