(* ===== verification/RedisFacts.v ===== *)
(** * What the cache in Redis keeps, and its lock

    Numbers, keys, the deposits of a block and the prices, under the laws of
    Redis.  Several processes run the same task under [TryLock] and [ReleaseLock]
    of one key: as long as the lock does not expire while a process holds it, at
    most one is inside; once it expires, the process that was inside releases the
    lock of the next one. *)
From Stdlib Require Import Strings.String Strings.Ascii.
From stdpp Require Import pretty.
From stdpp Require Import gmap.
From S2P Require Import Prelude Types EthClient Redis.
(** ** Numbers as text *)
Lemma digit_value_char x : (x < 10)%N → digit_value (pretty_N_char x) = Some (Z.of_N x).
Proof.
  intros H. assert (x = 0 ∨ x = 1 ∨ x = 2 ∨ x = 3 ∨ x = 4 ∨ x = 5 ∨ x = 6 ∨ x = 7 ∨ x = 8 ∨ x = 9)%N as Hx by lia.
  by repeat (destruct Hx as [->|Hx]; [reflexivity|]); subst.
Qed.
Lemma parse_digits_go x : ∀ s, parse_digits 0 (pretty_N_go x s) = parse_digits (Z.of_N x) s.
Proof.
  induction (N.lt_wf_0 x) as [x _ IH]. intros s.
  destruct (decide (x = 0)%N) as [->|]; [by rewrite pretty_N_go_0|].
  rewrite pretty_N_go_step by lia. rewrite IH by (apply N.div_lt; lia). cbn [parse_digits].
  rewrite digit_value_char by (apply N.mod_lt; lia). cbn. f_equal.
  rewrite N2Z.inj_div, N2Z.inj_mod. change (Z.of_N 10) with 10. pose proof (Z.div_mod (Z.of_N x) 10 ltac:(lia)). lia.
Qed.
Lemma digit_value_last x : is_Some (digit_value (pretty_N_char (x `mod` 10))).
Proof. rewrite digit_value_char by (apply N.mod_lt; lia). by eexists. Qed.
Lemma pretty_N_go_cons x : ∀ c s, is_Some (digit_value c) →
  ∃ c' s', pretty_N_go x (String c s) = String c' s' ∧ is_Some (digit_value c').
Proof.
  induction (N.lt_wf_0 x) as [x _ IH]. intros c s Hc. destruct (decide (x = 0)%N) as [->|]; [by eexists _, _|].
  rewrite pretty_N_go_step by lia. apply IH; [apply N.div_lt; lia|apply digit_value_last].
Qed.
Lemma pretty_N_cons (x : N) : ∃ c s, pretty x = String c s ∧ is_Some (digit_value c).
Proof.
  unfold pretty, pretty_N. case_decide; [by eexists _, _|].
  rewrite pretty_N_go_step by lia. apply pretty_N_go_cons, digit_value_last.
Qed.
Lemma parse_digits_pretty (x : N) : parse_digits 0 (pretty x) = Some (Z.of_N x).
Proof.
  unfold pretty, pretty_N. case_decide; [by subst|]. by rewrite parse_digits_go.
Qed.
Lemma parse_unsigned_pretty (x : N) : parse_unsigned (pretty x) = Some (Z.of_N x).
Proof.
  pose proof (parse_digits_pretty x) as H. destruct (pretty_N_cons x) as (c & s & Hx & _). by rewrite Hx in *.
Qed.
Lemma parse_signed_pretty (z : Z) : parse_signed (pretty z) = Some z.
Proof.
  assert (Hp : ∀ p, pretty (Npos p) = pretty (Z.pos p)) by done. destruct z as [|p|p].
  - done.
  - pose proof (parse_unsigned_pretty (Npos p)) as H. destruct (pretty_N_cons (Npos p)) as (c & s & Hx & [d Hd]).
    rewrite <- Hp, Hx in *. unfold parse_signed.
    rewrite !bool_decide_false by (intros ->; discriminate Hd). by rewrite H.
  - change (pretty (Z.neg p)) with (String "-"%char (pretty (Npos p))). unfold parse_signed.
    rewrite bool_decide_true by done. by rewrite parse_unsigned_pretty.
Qed.
(** A number that is printed is read again when it has 64 bits with its sign. *)
Lemma ParseInt_pretty (z : Z) : ParseInt (pretty z) = if bool_decide (- 2 ^ 63 ≤ z < 2 ^ 63) then Some z else None.
Proof. unfold ParseInt. by rewrite parse_signed_pretty. Qed.

(** ** Keys *)
(** All the characters are digits. *)
Fixpoint all_digits (s : string) : bool :=
  match s with EmptyString => true | String c s => bool_decide (is_Some (digit_value c)) && all_digits s end.
Lemma all_digits_go x : ∀ s, all_digits s → all_digits (pretty_N_go x s).
Proof.
  induction (N.lt_wf_0 x) as [x _ IH]. intros s Hs. destruct (decide (x = 0)%N) as [->|]; [by rewrite pretty_N_go_0|].
  rewrite pretty_N_go_step by lia. apply IH; [apply N.div_lt; lia|]. cbn. apply andb_True. split; [|done].
  apply bool_decide_spec, digit_value_last.
Qed.
Lemma all_digits_pretty (z : Z) : 0 ≤ z → all_digits (pretty z).
Proof.
  intros Hz. destruct z as [|p|p]; [done| |lia]. change (pretty (Z.pos p)) with (pretty (Npos p)).
  unfold pretty, pretty_N. case_decide; [done|]. by apply all_digits_go.
Qed.
(** A separator that is no digit cuts a text of digits in one way. *)
Lemma digits_cut sep a b x y : digit_value sep = None → all_digits a → all_digits b →
  a +:+ String sep x = b +:+ String sep y → a = b ∧ x = y.
Proof.
  intros Hsep. revert b. induction a as [|c a IH]; intros [|d b]; cbn; intros Ha Hb H; simplify_eq.
  - done.
  - rewrite bool_decide_false in Hb; [done|]. rewrite Hsep. by intros [].
  - rewrite bool_decide_false in Ha; [done|]. rewrite Hsep. by intros [].
  - apply andb_True in Ha as [_ Ha], Hb as [_ Hb]. destruct (IH b Ha Hb) as [-> ->]; done.
Qed.

(** Two blocks of two networks never share a list of deposits. *)
Lemma getBlockDepositListKey_inj n b n' b' : 0 ≤ n → 0 ≤ n' →
  getBlockDepositListKey n b = getBlockDepositListKey n' b' → n = n' ∧ b = b'.
Proof.
  intros Hn Hn' H. unfold getBlockDepositListKey in H. apply (inj (String.append _)) in H.
  change ("_" +:+ pretty b) with (String "_"%char (pretty b)) in H.
  change ("_" +:+ pretty b') with (String "_"%char (pretty b')) in H.
  apply digits_cut in H as [H1 H2]; [|done|by apply all_digits_pretty..].
  by apply (inj pretty) in H1, H2.
Qed.

(** ** Values under the laws of Redis *)
Lemma hash_at_put_hash k h m : hash_at k (put_hash k h m) = h.
Proof.
  unfold hash_at, put_hash. case_bool_decide as Hh; [by rewrite lookup_delete_eq|by rewrite lookup_insert_eq].
Qed.
Lemma hash_at_put_hash_ne k k' h m : k ≠ k' → hash_at k' (put_hash k h m) = hash_at k' m.
Proof.
  intros Hk. unfold hash_at, put_hash. case_bool_decide; [by rewrite lookup_delete_ne|by rewrite lookup_insert_ne].
Qed.
Lemma list_at_put_list k l m : list_at k (put_list k l m) = l.
Proof.
  unfold list_at, put_list. case_bool_decide as Hl; [by rewrite lookup_delete_eq|by rewrite lookup_insert_eq].
Qed.
Lemma list_at_put_list_ne k k' l m : k ≠ k' → list_at k' (put_list k l m) = list_at k' m.
Proof.
  intros Hk. unfold list_at, put_list. case_bool_decide; [by rewrite lookup_delete_ne|by rewrite lookup_insert_ne].
Qed.

Section Facts.
Context {E : Type} {Redis : RedisClient E} {Ok : RedisOk E} {Txt : Texts}.
Context {PriceCodec : Codec SymbolPrice} {DepositCodec : Codec Deposit} {LogoCodec : Codec LogoInfo}.
Context {LargeCodec : Codec LargeTxInfo}.
Context (s : redisStorageImpl).

Lemma with_client_inv {A} (m : M E A) e a e' : with_client s m e = (Prelude.Ok a, e') → m e = (Prelude.Ok a, e').
Proof. unfold with_client. by destruct (rs_client s). Qed.
Lemma Wrap_inv {A} msg (m : M E A) e a e' : Wrap msg m e = (Prelude.Ok a, e') → m e = (Prelude.Ok a, e').
Proof. unfold Wrap, map_err. by destruct (m e) as [[]]. Qed.

(** A number that was stored is read back as an unsigned 64-bit number; one that
    does not fit a signed one is stored but can no longer be read. *)
Lemma stored_number key n t e e1 m e2 :
  setFoundation s key (ArgInt n) t e = (Prelude.Ok tt, e1) → getIntCacheFoundation s key e1 = (Prelude.Ok m, e2) →
  - 2 ^ 63 ≤ n < 2 ^ 63 ∧ m = wrap64 n.
Proof.
  intros H1%with_client_inv%Wrap_inv%Set_ok H2%with_client_inv. inv_bind H2. apply Wrap_inv, Get_ok in H as (_ & Hg & _).
  specialize (Hg _ eq_refl). rewrite H1, lookup_insert_eq in Hg. injection Hg as <-. cbn [arg_text] in H0.
  rewrite ParseInt_pretty in H0. case_bool_decide as Hn; [|done]. injection H0 as <- <-. done.
Qed.

(** ** The deposits of a block *)
Definition deposit_text (d : Deposit) : string := default "" (encode_text d).
Lemma AddBlockDeposit_kept d e e' : AddBlockDeposit s d e = (Prelude.Ok tt, e') →
  encode_text d = Some (deposit_text d) ∧
  let key := block_deposits_key s (dep_NetworkID d) (dep_BlockNumber d) in
  kept e' = put_hash key (<[hash_text (dep_TxHash d) := deposit_text d]> (hash_at key (kept e))) (kept e).
Proof.
  intros H%with_client_inv. inv_bind H. apply Wrap_inv in H0. unfold lift_res, marshal in H0.
  unfold deposit_text. destruct (encode_text d) as [val|]; [|done]. injection H0 as <- <-. cbn. split; [done|].
  inv_bind H1. apply Wrap_inv in H. destruct a. apply HSet_ok in H. inv_bind H0. injection H2 as <-.
  unfold attempt in H1. destruct (redis_Expire _ _ s0) as [r s3] eqn:He. apply Expire_ok in He; [|done].
  destruct r; simplify_eq; by rewrite He, H.
Qed.

Lemma fold_insert_last {A} (f g : A → string) l (k t : string) :
  fold_left (λ (h : gmap string string) a, <[f a := g a]> h) l ∅ !! k = Some t ↔
  ∃ l1 a l2, l = l1 ++ a :: l2 ∧ f a = k ∧ g a = t ∧ ∀ a', a' ∈ l2 → f a' ≠ k.
Proof.
  induction l as [|x l IH] using rev_ind.
  { cbn. rewrite lookup_empty. split; [done|]. by intros ([|] & ? & ? & ? & _). }
  rewrite fold_left_app. cbn. destruct (decide (f x = k)) as [Hx|Hx].
  - rewrite Hx, lookup_insert_eq. split.
    + intros [= <-]. exists l, x, []. split_and!; [done..|]. by intros ? ?%elem_of_nil.
    + intros (l1 & a & l2 & Hl & Ha & <- & Hl2). destruct l2 as [|y l2 _] using rev_ind.
      * by apply app_inj_tail in Hl as [_ ->].
      * rewrite app_comm_cons, app_assoc in Hl. apply app_inj_tail in Hl as [_ ->]. exfalso. apply (Hl2 y); [|done].
        apply elem_of_app. right. by apply list_elem_of_singleton.
  - rewrite lookup_insert_ne, IH by done. split.
    + intros (l1 & a & l2 & -> & Ha & Ht & Hl2). exists l1, a, (l2 ++ [x]). split_and!; [by rewrite <- app_assoc|done..|].
      intros a' [?|Ha'%list_elem_of_singleton]%elem_of_app; subst; auto.
    + intros (l1 & a & l2 & Hl & Ha & Ht & Hl2). destruct l2 as [|y l2 _] using rev_ind.
      * apply app_inj_tail in Hl as [_ ->]. congruence.
      * rewrite app_comm_cons, app_assoc in Hl. apply app_inj_tail in Hl as [-> ->]. exists l1, a, l2. split_and!; try done.
        intros a' Ha'. apply Hl2, elem_of_app. by left.
Qed.

Lemma AddBlockDeposits_kept ds net num : ∀ e e', Forall (λ d, dep_NetworkID d = net ∧ dep_BlockNumber d = num) ds →
  for_each ds (AddBlockDeposit s) e = (Prelude.Ok tt, e') →
  Forall (λ d, encode_text d = Some (deposit_text d)) ds ∧
  let key := block_deposits_key s net num in
  hash_at key (kept e') =
    fold_left (λ h d, <[hash_text (dep_TxHash d) := deposit_text d]> h) ds (hash_at key (kept e)).
Proof.
  induction ds as [|d ds IH]; intros e e' Hall; cbn [for_each]; [by intros [= <-]|]. intros H. inv_bind H. destruct a.
  apply Forall_cons in Hall as [[Hn Hb] Hall]. apply AddBlockDeposit_kept in H0 as [Ht Hk]. rewrite Hn, Hb in Hk.
  destruct (IH _ _ Hall H1) as [Hts Hks]. split; [by constructor|]. cbn in *. by rewrite Hks, Hk, hash_at_put_hash.
Qed.

Lemma decode_all_inv {A} {C : Codec A} texts : ∀ l : list A, decode_all texts = Prelude.Ok l →
  ∀ a, a ∈ l ↔ ∃ t, t ∈ texts ∧ decode_text t = Some a.
Proof.
  induction texts as [|t texts IH]; intros l; cbn.
  { intros [= <-] a. split; [by intros ?%elem_of_nil|by intros (t & ?%elem_of_nil & _)]. }
  unfold unmarshal. destruct (decode_text t) as [x|] eqn:Hx; [|done]. cbn. destruct (decode_all texts) as [rest| |]; [|done..].
  intros [= <-] a. rewrite elem_of_cons, (IH rest eq_refl). setoid_rewrite elem_of_cons.
  split; [intros [->|(t' & ? & ?)]; eauto|intros (t' & [->|?] & ?); [left; congruence|right; eauto]].
Qed.

(** What the list of a block gives back is, for every transaction, the last
    deposit that was added: the deposits of one transaction replace each other. *)
Theorem AddBlockDeposit_last_of_tx `{!CodecOk Deposit} ds net num e e1 l e2
  (Hall : Forall (λ d, dep_NetworkID d = net ∧ dep_BlockNumber d = num) ds)
  (Hempty : hash_at (block_deposits_key s net num) (kept e) = ∅)
  (Hadd : for_each ds (AddBlockDeposit s) e = (Prelude.Ok tt, e1))
  (Hget : GetBlockDepositList s net num e1 = (Prelude.Ok l, e2)) :
  ∀ d, d ∈ l ↔ ∃ ds1 ds2, ds = ds1 ++ d :: ds2 ∧
    ∀ d', d' ∈ ds2 → hash_text (dep_TxHash d') ≠ hash_text (dep_TxHash d).
Proof.
  intros d. destruct (AddBlockDeposits_kept _ _ _ _ _ Hall Hadd) as [Htexts Hk]. cbn in Hk. rewrite Hempty in Hk.
  apply with_client_inv in Hget. inv_bind Hget. apply Wrap_inv, HVals_ok in H as [_ Hv].
  apply Wrap_inv in H0. unfold lift_res in H0. injection H0 as Hd <-. specialize (Hv _ eq_refl). rewrite Hk in Hv.
  rewrite (decode_all_inv _ _ Hd d). setoid_rewrite Hv. setoid_rewrite list_elem_of_fmap.
  rewrite Forall_forall in Htexts. split.
  - intros (t & ([k t'] & -> & Hin) & Ht). apply elem_of_map_to_list, fold_insert_last in Hin as (l1 & a' & l2 & -> & <- & <- & Hl2).
    assert (a' = d) as ->; [|by exists l1, l2]. specialize (Htexts a' ltac:(set_solver)).
    apply decode_encode_text in Htexts. cbn in Ht. congruence.
  - intros (ds1 & ds2 & -> & Hl2). specialize (Htexts d ltac:(set_solver)). exists (deposit_text d).
    split; [|by apply decode_encode_text]. exists (hash_text (dep_TxHash d), deposit_text d). split; [done|].
    apply elem_of_map_to_list, fold_insert_last. by exists ds1, d, ds2.
Qed.

(** ** Prices *)
Lemma read_prices_inv symbols : ∀ results l, read_prices symbols results = Prelude.Ok l → length results = length symbols →
  l = zip_with read_price symbols results.
Proof.
  induction symbols as [|si symbols IH]; intros [|r results] l; cbn; try done; [by intros [= <-]|].
  destruct (read_prices symbols results) as [rest| |] eqn:Hr; [|done..]. intros [= <-] [= Hlen].
  by rewrite (IH _ _ Hr Hlen).
Qed.
Definition price_key (si : SymbolInfo) : string := getCoinPriceKey (si_ChainId si) (si_Address si).
Definition prices_in (e : E) : gmap string string := hash_at (addKeyPrefix s coinPriceHashKey) (kept e).
Lemma getCoinPrice_kept symbols e l e' : getCoinPrice s symbols e = (Prelude.Ok l, e') →
  kept e' = kept e ∧ l = (λ si, read_price si (prices_in e !! price_key si)) <$> symbols.
Proof.
  unfold getCoinPrice. destruct symbols as [|si symbols]; [by intros [= <- <-]|]. intros H%with_client_inv. inv_bind H.
  apply Wrap_inv, HMGet_ok in H0 as [Hk Hl]. specialize (Hl _ eq_refl). unfold lift_res in H1.
  assert (read_prices (si :: symbols) a = Prelude.Ok l ∧ s0 = e') as [Hr <-] by (split; congruence).
  split; [done|]. subst a. apply read_prices_inv in Hr; [|by rewrite !length_fmap]. subst l. clear.
  induction (si :: symbols) as [|x l IH]; cbn; [done|]. by rewrite IH.
Qed.

(** The time of the price a field holds; nothing readable has time 0. *)
Definition price_time (o : option string) : Z :=
  match o with Some t => match decode_text t with Some p => sp_Time p | None => 0 end | None => 0 end.
Lemma read_price_time si o : sp_Time (read_price si o) = price_time o.
Proof. destruct o as [t|]; [|done]. cbn. unfold unmarshal. by destruct (decode_text t). Qed.

Lemma price_fields_newer `{!CodecOk SymbolPrice} (h : gmap string string) prices : ∀ fs,
  price_fields prices ((λ si, read_price si (h !! price_key si)) <$> convertPricesToSymbols prices) = Prelude.Ok fs →
  Forall (λ f, price_time (h !! f.1) ≤ price_time (Some (arg_text f.2))) fs.
Proof.
  induction prices as [|p prices IH]; intros fs; cbn; [intros [= <-]; constructor|].
  case_bool_decide as Ht; [by apply IH|]. rewrite read_price_time in Ht.
  unfold marshal. destruct (encode_text p) as [text|] eqn:Htext; [|done].
  destruct (price_fields _ _) as [rest| |] eqn:Hr; [|done..]. intros [= <-]. constructor; [|by apply IH].
  cbn. apply decode_encode_text in Htext. rewrite Htext. by apply Z.nlt_ge in Ht.
Qed.
Lemma set_fields_newer fs : ∀ (h : gmap string string) k,
  Forall (λ f, price_time (h !! k) ≤ price_time (Some (arg_text f.2)) ∨ f.1 ≠ k) fs →
  price_time (h !! k) ≤ price_time (set_fields fs h !! k).
Proof.
  induction fs as [|f fs IH] using rev_ind; intros h k Hall; [done|].
  apply Forall_app in Hall as [Hall Hf]. inversion Hf as [|? ? Hx _]; subst. unfold set_fields. rewrite fold_left_app. cbn.
  destruct (decide (f.1 = k)) as [<-|Hne]; [rewrite lookup_insert_eq; by destruct Hx|rewrite lookup_insert_ne by done; by apply IH].
Qed.

(** The price that is kept for a token never goes back in time, whatever
    prices are set, in whatever order, for how many tokens at once. *)
Theorem SetCoinPrice_never_older `{!CodecOk SymbolPrice} prices e e1 si e0 p0 e2 p1
  (Hset : SetCoinPrice s prices e = (Prelude.Ok tt, e1))
  (Hbefore : getCoinPrice s [si] e = (Prelude.Ok [p0], e0)) (Hafter : getCoinPrice s [si] e1 = (Prelude.Ok [p1], e2)) :
  sp_Time p0 ≤ sp_Time p1.
Proof.
  apply getCoinPrice_kept in Hbefore as [_ [= ->]], Hafter as [_ [= ->]]. rewrite !read_price_time.
  apply with_client_inv in Hset. inv_bind Hset. apply Wrap_inv, getCoinPrice_kept in H as [Hk ->].
  inv_bind H0. unfold lift_res in H. injection H as Hfs <-.
  assert (Hp : ∀ e', kept e' = kept s0 → prices_in e' = prices_in e) by (intros e' He'; unfold prices_in; by rewrite He', Hk).
  destruct a as [|f fs]; [injection H1 as <-; by rewrite (Hp s0 eq_refl)|].
  apply Wrap_inv, HSet_ok in H1. apply price_fields_newer in Hfs.
  assert (prices_in e1 = set_fields (f :: fs) (prices_in e)) as ->.
  { unfold prices_in at 1. rewrite H1, hash_at_put_hash. f_equal. exact (Hp s0 eq_refl). }
  apply set_fields_newer. eapply Forall_impl; [exact Hfs|]. intros x Hx.
  destruct (decide (x.1 = price_key si)) as [He|]; [left; by rewrite <- He|by right].
Qed.
End Facts.

Section Lock.
Context {E : Type} {Redis : RedisClient E} {ROk : RedisOk E} {Txt : Texts}.
Context (s : redisStorageImpl) (lockKey : string).
Abbreviation key := (addKeyPrefix s lockKey).

(** The server, and the processes between [TryLock] and [ReleaseLock]. *)
Record Locking := mkLocking { lk_env : E; lk_inside : gset nat }.

Inductive process_step : Locking → Locking → Prop :=
| lock_acquire p e e' I : p ∉ I → TryLock s lockKey e = (Ok true, e') →
    process_step (mkLocking e I) (mkLocking e' ({[p]} ∪ I))
| lock_refused p e e' I : p ∉ I → TryLock s lockKey e = (Ok false, e') →
    process_step (mkLocking e I) (mkLocking e' I)
(* an error of the server: the key may have been set *)
| lock_error p e err e' I : p ∉ I → TryLock s lockKey e = (Err err, e') →
    (kept e' !! key = kept e !! key ∨ kept e' !! key = Some (RString "1")) →
    process_step (mkLocking e I) (mkLocking e' I)
| lock_release p e e' I : p ∈ I → ReleaseLock s lockKey e = (Ok tt, e') →
    process_step (mkLocking e I) (mkLocking e' (I ∖ {[p]}))
(* the process leaves also when the key cannot be deleted *)
| lock_release_error p e err e' I : p ∈ I → ReleaseLock s lockKey e = (Err err, e') →
    (kept e' !! key = kept e !! key ∨ kept e' !! key = None) →
    process_step (mkLocking e I) (mkLocking e' (I ∖ {[p]}))
(* the rest of a task, and the other users of the server *)
| lock_other e e' I : kept e' !! key = kept e !! key → process_step (mkLocking e I) (mkLocking e' I).
(** The minute of the lock is over. *)
Inductive lock_expire : Locking → Locking → Prop :=
| lock_expired e e' I : kept e' !! key = None → lock_expire (mkLocking e I) (mkLocking e' I).

(** All the steps, and those in which no process that is inside loses its lock. *)
Definition lock_step (a b : Locking) : Prop := process_step a b ∨ lock_expire a b.
Definition timely_step (a b : Locking) : Prop := process_step a b ∨ lock_expire a b ∧ lk_inside a = ∅.

Definition exclusive (a : Locking) : Prop :=
  (lk_inside a ≠ ∅ → is_Some (kept (lk_env a) !! key)) ∧ ∀ p q, p ∈ lk_inside a → q ∈ lk_inside a → p = q.

Lemma exclusive_step a b : exclusive a → timely_step a b → exclusive b.
Proof.
  intros [Hk He] [Hstep|[Hstep Hempty]].
  - destruct Hstep as [p e e' I Hp Ht|p e e' I Hp Ht|p e err e' I Hp Ht Hkey|p e e' I Hp Hr|p e err e' I Hp Hr Hkey|e e' I Hkey];
      unfold exclusive in *; cbn in *.
    + apply with_client_inv, Wrap_inv, SetNX_ok in Ht as [Hfree ->].
      assert (I = ∅) as ->. { destruct (decide (I = ∅)) as [|Hne]; [done|]. destruct (Hk Hne). congruence. }
      clear Hk He Hfree. split; [|set_solver]. intros _. rewrite lookup_insert_eq. by eexists.
    + apply with_client_inv, Wrap_inv, SetNX_ok in Ht as [_ ->]. done.
    + split; [|done]. intros Hne. destruct Hkey as [->| ->]; [by apply Hk|by eexists].
    + assert (I ∖ {[p]} = ∅) as -> by (apply set_eq; intros q; set_solver). split; [done|set_solver].
    + assert (I ∖ {[p]} = ∅) as -> by (apply set_eq; intros q; set_solver). split; [done|set_solver].
    + split; [|done]. intros Hne. rewrite Hkey. by apply Hk.
  - destruct Hstep; unfold exclusive in *; cbn in *. subst. split; [done|set_solver].
Qed.

(** C27. From no process inside, whatever the interleaving and the failures of the
    server, at most one process is inside while the lock does not expire. *)
Theorem lock_exclusive a b p q (Hstart : lk_inside a = ∅) (Hrun : rtc timely_step a b)
  (Hp : p ∈ lk_inside b) (Hq : q ∈ lk_inside b) : p = q.
Proof.
  assert (exclusive b) as [_ He]; [|by apply He]. clear Hp Hq.
  assert (Ha : exclusive a) by (split; rewrite Hstart; [done|set_solver]).
  clear Hstart. induction Hrun as [|x y z Hstep _ IH]; [done|]. apply IH. by eapply exclusive_step.
Qed.

(** Without that, an expired lock lets a second process in, and the first one
    then releases the lock of the second, so that a third one enters. *)
Theorem lock_expiry_breaks_exclusion e0 e1 e2 e3 e4 e5
  (H1 : TryLock s lockKey e0 = (Ok true, e1)) (Hexpire : kept e2 !! key = None)
  (H2 : TryLock s lockKey e2 = (Ok true, e3)) (H3 : ReleaseLock s lockKey e3 = (Ok tt, e4))
  (H4 : TryLock s lockKey e4 = (Ok true, e5)) :
  rtc lock_step (mkLocking e0 ∅) (mkLocking e3 {[2%nat; 1%nat]}) ∧
  rtc lock_step (mkLocking e0 ∅) (mkLocking e5 {[3%nat; 2%nat]}).
Proof.
  assert (Htwo : rtc lock_step (mkLocking e0 ∅) (mkLocking e3 {[2%nat; 1%nat]})).
  { eapply rtc_l; [left; apply (lock_acquire 1%nat); [set_solver|exact H1]|].
    eapply rtc_l; [right; apply (lock_expired _ e2); exact Hexpire|].
    eapply rtc_l; [left; apply (lock_acquire 2%nat); [set_solver|exact H2]|].
    assert ({[2%nat]} ∪ ({[1%nat]} ∪ ∅) = {[2%nat; 1%nat]} :> gset nat) as -> by set_solver. apply rtc_refl. }
  split; [done|]. etrans; [exact Htwo|].
  eapply rtc_l; [left; apply (lock_release 1%nat); [set_solver|exact H3]|].
  eapply rtc_l; [left; apply (lock_acquire 3%nat); [set_solver|exact H4]|].
  assert ({[3%nat]} ∪ ({[2%nat; 1%nat]} ∖ {[1%nat]}) = {[3%nat; 2%nat]} :> gset nat) as -> by set_solver. apply rtc_refl.
Qed.
End Lock.
