(* ===== verification/CoinMiddleware.v ===== *)
(** * The consumer of prices

    [xlayer/coinmiddleware/handler.go] and [types.go]: the messages of the coin
    middleware are read from Kafka, and their prices kept in Redis.  The session of
    sarama and the JSON decoding are interfaces. *)
From Stdlib Require Import Strings.String.
From S2P Require Import Prelude Types EthClient Redis RedisFacts.

Definition maxRetries : nat := 5.

(** [PriceInfo]; floats are kept as their bits. *)
Record PriceInfo := mkPriceInfo {
  pi_CoinID : Z; pi_ChainID : Z; pi_Symbol : string; pi_FullName : string; pi_Chain : string;
  pi_TokenAddress : string; pi_Price : Z; pi_PriceStatus : Z; pi_MaxPrice24H : Z; pi_MinPrice24H : Z;
  pi_MarketCap : Z; pi_Timestamp : Z; pi_Vol24H : Z; pi_CirculatingSupply : Z; pi_MaxSupply : Z;
  pi_TotalSupply : Z; pi_PriceChange24H : Z; pi_PriceChangeRate24H : Z; pi_DexVol24H : Z;
  pi_DexLiquidity : Z; pi_DexReserve : Z; pi_IsDexSource : bool; pi_QuoteLiquidity : Z;
}.
(** The elements of the list are pointers, and so is the data of the body. *)
Record MessageData := mkMessageData { md_ID : string; md_PriceList : list (option PriceInfo) }.
Record MessageBody := mkMessageBody { mb_Data : option MessageData; mb_Topic : string }.

Record ConsumerMessage := mkConsumerMessage {
  km_Topic : string; km_Partition : Z; km_Offset : Z; km_Value : string;
}.
(** What the loop can receive: a message, that the channel is closed, or the end of
    the session. *)
Inductive kafka_event : Type := KMessage (m : ConsumerMessage) | KClosed | KDone.

Class ConsumerSession (E : Type) : Type := MarkMessage : ConsumerMessage → M E unit.
Class MessageJson : Type := Unmarshal_MessageBody : string → res MessageBody.

Section Handler.
Context {E : Type} {Redis : RedisClient E} {Txt : Texts} {PriceCodec : Codec SymbolPrice}.
Context {Session : ConsumerSession E} {MJ : MessageJson}.
Context (storage : redisStorageImpl).

Fixpoint convertToPbPriceList (priceList : list (option PriceInfo)) : res (list SymbolPrice) :=
  match priceList with
  | [] => Ok []
  | None :: _ => Panic "invalid memory address or nil pointer dereference"
  | Some price :: priceList =>
      result ← convertToPbPriceList priceList;
      mret (mkSymbolPrice (pi_Symbol price) (pi_Price price) (wrap64 (pi_Timestamp price))
              (pi_TokenAddress price) (wrap64 (pi_ChainID price)) :: result)
  end.

Definition handleMessage (message : ConsumerMessage) : M E unit :=
  body ← map_err (ErrorfW "unmarshal message body error") (lift_res (Unmarshal_MessageBody (km_Value message)));
  match mb_Data body with
  | None => throw (Errorf "message data is nil" [])
  | Some data =>
      pbPriceList ← lift_res (convertToPbPriceList (md_PriceList data));
      SetCoinPrice storage pbPriceList
  end.

(** At most so many attempts, until one succeeds. *)
Fixpoint try_message (attempts : nat) (message : ConsumerMessage) : M E unit :=
  match attempts with
  | O => mret tt
  | S attempts =>
      r ← attempt (handleMessage message);
      match r with inl _ => mret tt | inr _ => try_message attempts message end
  end.
(** A message is marked whether or not it could be handled. *)
Fixpoint ConsumeClaim (events : list kafka_event) : M E unit :=
  match events with
  | [] => mret tt
  | KClosed :: _ | KDone :: _ => mret tt
  | KMessage message :: events =>
      try_message maxRetries message;;
      MarkMessage message;;
      ConsumeClaim events
  end.
End Handler.

(** ** Properties *)

(** A write that fails was applied or was not; the other commands keep their
    marks, and a mark keeps the cache. *)
Class ConsumerOk (E : Type) `{RedisOk E} `{!ConsumerSession E} (marks : E → list ConsumerMessage) : Prop := {
  HSet_fails k fs e err e' : redis_HSet k fs e = (Err err, e') →
    kept e' = kept e ∨ kept e' = put_hash k (set_fields fs (hash_at k (kept e))) (kept e);
  HMGet_marks k fs e r e' : redis_HMGet k fs e = (r, e') → marks e' = marks e;
  HSet_marks k fs e r e' : redis_HSet k fs e = (r, e') → marks e' = marks e;
  Mark_ok m e r e' : MarkMessage m e = (r, e') → r = Ok tt ∧ marks e' = marks e ++ [m] ∧ kept e' = kept e;
}.

Section Facts.
Context {E : Type} {Redis : RedisClient E} {ROk : RedisOk E} {Txt : Texts} {PriceCodec : Codec SymbolPrice} {CodecsOk : CodecOk SymbolPrice}.
Context {Session : ConsumerSession E} {MJ : MessageJson} (storage : redisStorageImpl).
Context (marks : E → list ConsumerMessage) {COk : ConsumerOk E marks}.

(** No price of a token goes back in time, and no message is marked. *)
Definition newer (e e' : E) : Prop :=
  (∀ k, price_time (prices_in storage e !! k) ≤ price_time (prices_in storage e' !! k)) ∧ marks e' = marks e.
#[local] Instance newer_preorder : PreOrder newer.
Proof.
  split; [done|]. intros e1 e2 e3 [H1 M1] [H2 M2]. split; [|congruence]. intros k. etrans; [apply H1|apply H2].
Qed.
Lemma newer_kept e e' : kept e' = kept e → marks e' = marks e → newer e e'.
Proof. intros Hk Hm. split; [|done]. intros k. unfold prices_in. by rewrite Hk. Qed.

Lemma getCoinPrice_any symbols e r e' : getCoinPrice storage symbols e = (r, e') → kept e' = kept e ∧ marks e' = marks e.
Proof.
  unfold getCoinPrice. destruct symbols as [|si symbols]; [by intros [= _ <-]|].
  unfold with_client. destruct (rs_client storage); [|by intros [= _ <-]].
  unfold Wrap, map_err, mbind, M_bind. destruct (redis_HMGet _ _ e) as [[l|err|p] e1] eqn:Em;
    intros [= _ <-]; split; by first [eapply HMGet_ok|eapply HMGet_marks].
Qed.
Lemma SetCoinPrice_any prices e r e' : SetCoinPrice storage prices e = (r, e') → (∀ p, r ≠ Panic p) → newer e e'.
Proof.
  intros H Hp. unfold SetCoinPrice, with_client in H. destruct (rs_client storage); [|by injection H as _ <-].
  unfold Wrap, map_err in H. unfold mbind, M_bind in H.
  destruct (getCoinPrice storage (convertPricesToSymbols prices) e) as [[current|err|p] e1] eqn:Eg;
    pose proof (getCoinPrice_any _ _ _ _ Eg) as [Hk Hm]; [|injection H as _ <-; by apply newer_kept..].
  etrans; [by apply newer_kept|]. apply getCoinPrice_kept in Eg as [_ ->]. unfold lift_res in H.
  destruct (price_fields _ _) as [fs|err|p] eqn:Ef; [|injection H as _ <-; done..].
  destruct fs as [|f fs]; [by injection H as _ <-|]. apply price_fields_newer in Ef.
  assert (∀ e2, kept e2 = put_hash (addKeyPrefix storage coinPriceHashKey)
            (set_fields (f :: fs) (hash_at (addKeyPrefix storage coinPriceHashKey) (kept e1))) (kept e1) →
          marks e2 = marks e1 → newer e1 e2) as Hset.
  { intros e2 Hk2 Hm2. split; [|done]. intros k. unfold prices_in at 2. rewrite Hk2, hash_at_put_hash.
    change (hash_at _ (kept e1)) with (prices_in storage e1).
    apply set_fields_newer. eapply Forall_impl; [exact Ef|]. intros x Hx.
    destruct (decide (x.1 = k)) as [<-|]; [left|by right]. unfold prices_in in *. by rewrite Hk. }
  destruct (redis_HSet _ _ e1) as [[[]|err|p] e2] eqn:Es; injection H as <- <-.
  - apply Hset; [by apply HSet_ok in Es|by eapply HSet_marks].
  - pose proof (HSet_marks _ _ _ _ _ Es). destruct (HSet_fails _ _ _ _ _ Es) as [Hk2|Hk2]; [by apply newer_kept|by apply Hset].
  - by destruct (Hp p).
Qed.

Lemma try_message_newer n m : ∀ e e', try_message storage n m e = (Ok tt, e') → newer e e'.
Proof.
  induction n as [|n IH]; intros e e' H; cbn [try_message] in H; [by injection H as <-|].
  apply M_bind_inv in H as (r & e1 & Ha & H). assert (newer e e1) as H1.
  { unfold attempt in Ha. destruct (handleMessage storage m e) as [x e2] eqn:Em. unfold handleMessage in Em.
    unfold mbind, M_bind, map_err, lift_res in Em.
    destruct (Unmarshal_MessageBody (km_Value m)) as [body|err|p]; [|injection Em as <- <-; by injection Ha as _ <-..].
    destruct (mb_Data body) as [data|]; [|injection Em as <- <-; by injection Ha as _ <-].
    destruct (convertToPbPriceList (md_PriceList data)) as [l|err|p]; [|injection Em as <- <-; by injection Ha as _ <-..].
    assert (e1 = e2) as -> by (destruct x; by injection Ha). eapply SetCoinPrice_any; [exact Em|]. by destruct x. }
  etrans; [exact H1|]. destruct r; [by injection H as <-|by apply IH].
Qed.

(** The messages that arrive before the session ends. *)
Fixpoint received (events : list kafka_event) : list ConsumerMessage :=
  match events with KMessage m :: events => m :: received events | _ => [] end.

(** Whatever messages arrive, are repeated or cannot be handled, and whatever
    Redis answers to the writes, a consumer that runs to its end has marked every
    message once, in their order, and no price that is kept has become older. *)
Theorem ConsumeClaim_never_older events : ∀ e e' (Hrun : ConsumeClaim storage events e = (Ok tt, e')),
  marks e' = marks e ++ received events ∧
  ∀ k, price_time (prices_in storage e !! k) ≤ price_time (prices_in storage e' !! k).
Proof.
  induction events as [|[m| |] events IH]; intros e e' H; cbn [ConsumeClaim received] in H |- *;
    [injection H as <-; by rewrite app_nil_r| |injection H as <-; by rewrite app_nil_r..].
  apply M_bind_inv in H as ([] & e1 & [H1 M1]%try_message_newer & H).
  apply M_bind_inv in H as ([] & e2 & H2 & H). apply Mark_ok in H2 as (_ & M2 & K2).
  destruct (IH _ _ H) as [M3 H3]. split.
  - rewrite M3, M2, M1, <- app_assoc. done.
  - intros k. etrans; [apply H1|]. etrans; [|apply H3]. unfold prices_in. by rewrite K2.
Qed.

(** A null in the list of prices makes the consumer panic. *)
Theorem null_price_panics m e body data before after : Unmarshal_MessageBody (km_Value m) = Ok body →
  mb_Data body = Some data → md_PriceList data = (Some <$> before) ++ None :: after →
  ∃ p, ConsumeClaim storage [KMessage m] e = (Panic p, e).
Proof.
  intros Hu Hd Hl. assert (∃ p, convertToPbPriceList (md_PriceList data) = Panic p) as [p Hp].
  { rewrite Hl. clear. induction before as [|x l [p IH]]; cbn; [by eexists|]. rewrite IH. by eexists. }
  exists p. cbn [ConsumeClaim try_message maxRetries]. unfold handleMessage, mbind, M_bind, attempt, map_err, lift_res.
  by rewrite Hu, Hd, Hp.
Qed.
End Facts.
