(* ===== verification/PushMessage.v ===== *)
(** * Messages to the front end

    [PushTransactionUpdate] of [xlayer/messagepush/kafkaproducer.go], the chain
    identifiers of [xlayer/utils], and the message about a deposit that changes
    its status.  The producer itself is an interface. *)
From stdpp Require Import pretty.
From S2P Require Import Prelude Types GlobalIndex Redis BridgeService.

(** [pb.TokenLogoInfo] and [pb.Transaction], the fields the service sets. *)
Record TokenLogoInfo := mkTokenLogoInfo {
  tl_Symbol : string; tl_TokenName : string; tl_LogoOssUrl : string; tl_Decimal : Z;
}.
Record Transaction := mkTransaction {
  tr_FromChain : Z; tr_ToChain : Z; tr_BridgeToken : bytes; tr_TokenAmount : string; tr_EstimateTime : Z;
  tr_Status : Z; tr_Time : Z; tr_TxHash : bytes; tr_ClaimTxHash : bytes; tr_ClaimTime : Z;
  tr_FromChainId : Z; tr_ToChainId : Z; tr_Id : Z; tr_Index : Z; tr_Metadata : bytes; tr_DestAddr : bytes;
  tr_LeafType : Z; tr_BlockNumber : Z; tr_GlobalIndex : string; tr_DestContractAddr : bytes;
  tr_LogoInfo : option TokenLogoInfo; tr_OriginalNetwork : Z;
}.
Definition TX_CREATED : Z := 0.
Definition TX_PENDING_USER_CLAIM : Z := 1.
Definition TX_CLAIMED : Z := 2.
Definition TX_PENDING_AUTO_CLAIM : Z := 3.
Definition TX_PENDING_VERIFICATION : Z := 4.

(** The producer, [None] a nil one: the address of the wallet, the transaction,
    and whether fields without a value are written. *)
Class KafkaProducer (E : Type) : Type := Produce : bytes → Transaction → bool → M E unit.

(** ** Chain identifiers *)
Record ChainIds := mkChainIds {
  standardIdKeyMapper : gmap Z Z;
  innerIdKeyMapper : gmap Z Z;
  chainIDs : gmap Z Z;               (* networkChainIdMapping *)
}.
(** The two loops over parallel slices; a shorter second slice is out of range. *)
Fixpoint pair_up (keys values : list Z) : res (list (Z * Z)) :=
  match keys, values with
  | [], _ => Ok []
  | _ :: _, [] => Panic "index out of range"
  | k :: keys, v :: values => rest ← pair_up keys values; mret ((k, v) :: rest)
  end.
Definition map_of (pairs : list (Z * Z)) : gmap Z Z := fold_left (λ m p, <[p.1 := p.2]> m) pairs ∅.
Definition InnitOkInnerChainIdMapper (StandardChainIds InnerChainIds : list Z) : res (gmap Z Z * gmap Z Z) :=
  pairs ← pair_up StandardChainIds InnerChainIds;
  mret (map_of pairs, map_of ((λ p, (p.2, p.1)) <$> pairs)).
Definition InitChainIdManager (networks chainIds : list Z) : res (gmap Z Z) :=
  pairs ← pair_up networks chainIds; mret (map_of ((λ p, (p.1, wrap32 p.2)) <$> pairs)).
Definition GetStandardChainIdByInnerId (ids : ChainIds) (innerChainId : Z) : Z :=
  default innerChainId (innerIdKeyMapper ids !! innerChainId).
Definition GetInnerChainIdByStandardId (ids : ChainIds) (chainId : Z) : Z :=
  default chainId (standardIdKeyMapper ids !! chainId).
(** The zero value when the network is not configured. *)
Definition GetChainIdByNetworkId (ids : ChainIds) (networkId : Z) : Z := default 0 (chainIDs ids !! networkId).

Definition set_tr_ChainIds (from to : Z) (t : Transaction) : Transaction :=
  mkTransaction (tr_FromChain t) (tr_ToChain t) (tr_BridgeToken t) (tr_TokenAmount t) (tr_EstimateTime t)
    (tr_Status t) (tr_Time t) (tr_TxHash t) (tr_ClaimTxHash t) (tr_ClaimTime t) from to (tr_Id t) (tr_Index t)
    (tr_Metadata t) (tr_DestAddr t) (tr_LeafType t) (tr_BlockNumber t) (tr_GlobalIndex t) (tr_DestContractAddr t)
    (tr_LogoInfo t) (tr_OriginalNetwork t).

Section PushMessage.
Context {E : Type} {Kafka : KafkaProducer E} {Com : Common}.
Context (ids : ChainIds).

Definition inner_chain_id (chainId : Z) : Z :=
  if bool_decide (chainId ≠ 0) then wrap32 (GetInnerChainIdByStandardId ids chainId) else chainId.
Definition PushTransactionUpdate (tx : Transaction) : M E unit :=
  let tx := set_tr_ChainIds (inner_chain_id (tr_FromChainId tx)) (inner_chain_id (tr_ToChainId tx)) tx in
  Produce (tr_DestAddr tx) tx (bool_decide (tr_Status tx = TX_CREATED)).

(** The message on a deposit whose status changed. *)
Definition status_message (mainnetFlag : bool) (rollupIndex status estimateTime : Z) (deposit : Deposit) : res Transaction :=
  globalIndex ← GenerateGlobalIndex mainnetFlag (wrap32 rollupIndex) (dep_DepositCount deposit);
  mret (mkTransaction (dep_NetworkID deposit) (dep_DestinationNetwork deposit) [] "" (wrap32 estimateTime)
    status 0 (Hash_String (dep_TxHash deposit)) [] 0 0 0 0 (dep_DepositCount deposit) []
    (Address_Hex (dep_DestinationAddress deposit)) 0 0 (pretty globalIndex) [] None 0).
End PushMessage.
