(* ===== verification/Producers.v ===== *)
(** * The producers of messages

    [xlayer/messagepush/kafkaproducer.go], [fakeproducer.go] and [helpers.go]: the
    producer that sends to Kafka through sarama, and the one that keeps the latest
    messages of each topic in memory for the endpoint that reads them.  The JSON
    texts and the random identifiers are interfaces. *)
From Stdlib Require Import Strings.String.
From S2P Require Import Prelude Types EthClient Http Redis BridgeService PushMessage.

Definition fakeMessageLimit : nat := 100.
Definition BizCodeBridgeOrder : string := "x1_bridge_order".

(** [PushMessage]. *)
Record PushMessage_t := mkPushMessage {
  pm_BizCode : string; pm_WalletAddress : bytes; pm_RequestID : string; pm_PushContent : string; pm_Time : Z;
}.
(** A message is a string or an object. *)
Inductive message : Type := MsgString (s : string) | MsgObject (o : PushMessage_t).

Record produceOptions := mkProduceOptions { po_topic : string; po_pushKey : string }.
Definition WithTopic (topic : string) (opts : produceOptions) : produceOptions := mkProduceOptions topic (po_pushKey opts).
Definition WithPushKey (key : string) (opts : produceOptions) : produceOptions := mkProduceOptions (po_topic opts) key.
Definition apply_options (optFns : list (produceOptions → produceOptions)) (opts : produceOptions) : produceOptions :=
  fold_left (λ o f, f o) optFns opts.

(** [json.Marshal] of a message and of a transaction, and [protojson] with the
    fields without a value; [GenerateTraceID] and the clock. *)
Class PushJson : Type := {
  Marshal_PushMessage : PushMessage_t → res string;
  Marshal_Transaction : Transaction → res string;
  Marshal_populated : Transaction → res string;
}.
Class TraceIds (E : Type) : Type := GenerateTraceID : M E string.
(** [producer.SendMessage]: topic, key and value. *)
Class SaramaProducer (E : Type) : Type := SendMessage : string → option string → string → M E unit.

Section Producers.
Context {Com : Common} {PJ : PushJson}.
Context (ids : ChainIds).

Definition convertMsgToString (msg : message) : res string :=
  match msg with
  | MsgString s => Ok s
  | MsgObject o =>
      match Marshal_PushMessage o with
      | Err err => Err (ErrorfW "kafka produce: JSON marshal error" err)
      | r => r
      end
  end.

(** The chain identifiers are replaced in the transaction, which the caller keeps;
    the text of its fields depends on its status. *)
Definition with_inner_ids (tx : Transaction) : Transaction :=
  set_tr_ChainIds (inner_chain_id ids (tr_FromChainId tx)) (inner_chain_id ids (tr_ToChainId tx)) tx.
Definition transaction_text (tx : Transaction) : res string :=
  match (if bool_decide (tr_Status tx = TX_CREATED) then Marshal_populated tx else Marshal_Transaction tx) with
  | Err err => Err (ErrorfW "json marshal error" err)
  | r => r
  end.
Definition push_message {E} `{Runtime E} `{TraceIds E} (bizCode : string) (tx : Transaction) : M E PushMessage_t :=
  b ← lift_res (transaction_text tx);
  requestID ← GenerateTraceID;
  now ← Now;
  mret (mkPushMessage bizCode (tr_DestAddr tx) requestID ("[" +:+ b +:+ "]") (now / 1000000)).

(** ** The producer of Kafka *)
Record kafkaProducerImpl := mkKafkaProducerImpl {
  kp_producer : bool;                 (* producer is not nil *)
  kp_defaultTopic : string; kp_defaultPushKey : string; kp_bizCode : string;
}.

Section Kafka.
Context {E : Type} {Run : Runtime E} {Trace : TraceIds E} {Sarama : SaramaProducer E}.

(** [None] is a nil receiver. *)
Definition kafka_Produce (p : option kafkaProducerImpl) (address : bytes) (msg : message)
    (optFns : list (produceOptions → produceOptions)) : M E unit :=
  match p with
  | None => mret tt
  | Some p =>
      if negb (kp_producer p) then mret tt
      else
        let opts := apply_options optFns (mkProduceOptions (kp_defaultTopic p) (kp_defaultPushKey p)) in
        msgString ← lift_res (convertMsgToString msg);
        let key := if bool_decide (po_pushKey opts = ""%string) then None
                   else Some (po_pushKey opts +:+ string_of_list_byte address) in
        map_err (ErrorfW "kafka SendMessage error") (SendMessage (po_topic opts) key msgString)
  end.
(** A nil transaction is no message; [p.bizCode] of a nil receiver panics. *)
Definition kafka_PushTransactionUpdate (p : option kafkaProducerImpl) (tx : option Transaction)
    (optFns : list (produceOptions → produceOptions)) : M E unit :=
  match tx with
  | None => mret tt
  | Some tx =>
      let tx := with_inner_ids tx in
      _ ← lift_res (transaction_text tx);
      match p with
      | None => gopanic "invalid memory address or nil pointer dereference"
      | Some p =>
          msg ← push_message (kp_bizCode p) tx;
          kafka_Produce (Some p) (tr_DestAddr tx) (MsgObject msg) optFns
      end
  end.
Definition kafka_GetFakeMessages : list string := [].
End Kafka.

(** ** The fake producer *)
Record fakeProducer := mkFakeProducer {
  fp_defaultTopic : string; fp_defaultPushKey : string;
  fp_messages : gmap string (list string);
}.
Definition newFakeProducer (topic pushKey : string) : fakeProducer := mkFakeProducer topic pushKey ∅.
Definition set_messages (m : gmap string (list string)) (p : fakeProducer) : fakeProducer :=
  mkFakeProducer (fp_defaultTopic p) (fp_defaultPushKey p) m.
(** [p.messages[topic]]: the nil slice when there is none. *)
Definition messages_of (topic : string) (p : fakeProducer) : list string := default [] (fp_messages p !! topic).

(** The slice without its first element is stored when it is too long. *)
Definition fake_Produce (address : bytes) (msg : message) (optFns : list (produceOptions → produceOptions))
  : M fakeProducer unit :=
  p ← get;
  let opts := apply_options optFns (mkProduceOptions (fp_defaultTopic p) (fp_defaultPushKey p)) in
  msgString ← lift_res (convertMsgToString msg);
  modify (λ p, set_messages (<[po_topic opts := messages_of (po_topic opts) p ++ [msgString]]> (fp_messages p)) p);;
  modify (λ p, if bool_decide (fakeMessageLimit < length (messages_of (po_topic opts) p))%nat
               then set_messages (<[po_topic opts := drop 1 (messages_of (po_topic opts) p)]> (fp_messages p)) p
               else p).
Definition GetFakeMessages (topic : string) : M fakeProducer (list string) :=
  allMsg ← gets (messages_of topic);
  modify (λ p, set_messages (<[topic := []]> (fp_messages p)) p);;
  mret allMsg.

(** Over the clock and the producer. *)
Definition fake_PushTransactionUpdate {E} `{Runtime E} `{TraceIds E} (tx : option Transaction)
    (optFns : list (produceOptions → produceOptions)) : M (E * fakeProducer) unit :=
  match tx with
  | None => mret tt
  | Some tx =>
      let tx := with_inner_ids tx in
      msg ← zoom fst (λ e s, (e, s.2)) (push_message BizCodeBridgeOrder tx);
      zoom snd (λ p s, (s.1, p)) (fake_Produce (tr_DestAddr tx) (MsgObject msg) optFns)
  end.

(** [GetFakePushMessages] of the service: code, text and data. *)
Definition GetFakePushMessages (topic : string) : M (option fakeProducer) (Z * string * list string) := λ o,
  match o with
  | None => (Ok (ERROR_DEFAULT, "producer is nil"%string, []), None)
  | Some p =>
      match GetFakeMessages topic p with
      | (Ok l, p) => (Ok (ERROR_OK, ""%string, l), Some p)
      | (Err e, p) => (Err e, Some p)
      | (Panic m, p) => (Panic m, Some p)
      end
  end.
End Producers.

(** ** Properties *)
Section Facts.
Context {Com : Common} {PJ : PushJson}.

(** The latest messages of a list. *)
Definition latest (l : list string) : list string := drop (length l - fakeMessageLimit) l.

Lemma messages_of_insert k k' l (p : fakeProducer) :
  messages_of k' (set_messages (<[k := l]> (fp_messages p)) p) = if decide (k = k') then l else messages_of k' p.
Proof.
  unfold messages_of, set_messages. cbn. case_decide as Hk; [subst; by rewrite lookup_insert_eq|by rewrite lookup_insert_ne].
Qed.
Lemma latest_snoc l x : (length l ≤ fakeMessageLimit)%nat →
  (if bool_decide (fakeMessageLimit < length (l ++ [x]))%nat then drop 1 (l ++ [x]) else l ++ [x]) = latest (l ++ [x]).
Proof.
  intros H. unfold latest. rewrite length_app. cbn [length]. case_bool_decide.
  - by replace (length l + 1 - fakeMessageLimit)%nat with 1%nat by lia.
  - by replace (length l + 1 - fakeMessageLimit)%nat with 0%nat by lia.
Qed.
Lemma latest_latest l x : latest (latest l ++ [x]) = latest (l ++ [x]).
Proof.
  unfold latest. rewrite !length_app, length_drop. cbn [length].
  replace (drop (length l - fakeMessageLimit) l ++ [x]) with (drop (length l - fakeMessageLimit) (l ++ [x])).
  2:{ rewrite drop_app_le by lia. done. }
  rewrite drop_drop. f_equal. lia.
Qed.
Lemma length_latest l : (length (latest l) ≤ fakeMessageLimit)%nat.
Proof. unfold latest. rewrite length_drop. lia. Qed.

Lemma fake_Produce_step address msg optFns p text :
  convertMsgToString msg = Ok text →
  let topic := po_topic (apply_options optFns (mkProduceOptions (fp_defaultTopic p) (fp_defaultPushKey p))) in
  (length (messages_of topic p) ≤ fakeMessageLimit)%nat →
  ∃ p', fake_Produce address msg optFns p = (Ok tt, p') ∧
    fp_defaultTopic p' = fp_defaultTopic p ∧ fp_defaultPushKey p' = fp_defaultPushKey p ∧
    ∀ k, messages_of k p' = if decide (topic = k) then latest (messages_of topic p ++ [text]) else messages_of k p.
Proof.
  intros Ht topic Hlen. eexists. split.
  { unfold fake_Produce, mbind, M_bind, get, lift_res, modify. rewrite Ht. fold topic. reflexivity. }
  cbv beta. set (p1 := set_messages _ _). assert (messages_of topic p1 = messages_of topic p ++ [text]) as E.
  { unfold p1. by rewrite messages_of_insert, decide_True. }
  rewrite E. pose proof (latest_snoc (messages_of topic p) text Hlen) as Hl. split_and!; [by case_bool_decide..|].
  intros k. revert Hl. case_bool_decide as Hb; intros Hl.
  - rewrite messages_of_insert. case_decide; [done|]. unfold p1. by rewrite messages_of_insert, decide_False.
  - case_decide as Hk; [rewrite <- Hk, E; exact Hl|]. unfold p1. by rewrite messages_of_insert, decide_False.
Qed.

(** The messages of one topic, produced one after the other. *)
Definition produce_all (address : bytes) (optFns : list (produceOptions → produceOptions)) (texts : list string)
  : M fakeProducer unit := for_each texts (λ t, fake_Produce address (MsgString t) optFns).

(** The endpoint for tests returns the latest hundred messages of a topic in
    the order they were produced, takes them away, and leaves the other topics as
    they are. *)
Theorem fake_messages_latest address optFns texts p :
  let topic := po_topic (apply_options optFns (mkProduceOptions (fp_defaultTopic p) (fp_defaultPushKey p))) in
  ∀ (Hlen : (length (messages_of topic p) ≤ fakeMessageLimit)%nat),
  ∃ p1 p2, produce_all address optFns texts p = (Ok tt, p1) ∧
    GetFakePushMessages topic (Some p1) = (Ok (ERROR_OK, "", latest (messages_of topic p ++ texts)), Some p2) ∧
    ∀ k, messages_of k p2 = if decide (topic = k) then [] else messages_of k p.
Proof.
  intros topic Hlen.
  assert (∃ p1, produce_all address optFns texts p = (Ok tt, p1) ∧ messages_of topic p1 = latest (messages_of topic p ++ texts) ∧
    ∀ k, topic ≠ k → messages_of k p1 = messages_of k p) as (p1 & E1 & Hm & Ho).
  { unfold topic in *. clear topic. revert p Hlen. induction texts as [|t texts IH]; intros p Hlen.
    - exists p. split_and!; [done| |done]. rewrite app_nil_r. unfold latest.
      by rewrite (proj2 (Nat.sub_0_le _ _) Hlen), drop_0.
    - destruct (fake_Produce_step address (MsgString t) optFns p t eq_refl Hlen) as (p1 & E1 & Ht & Hk & H1).
      specialize (IH p1). rewrite Ht, Hk in IH. destruct IH as (p2 & E2 & Hm & Ho).
      { rewrite H1, decide_True by done. apply length_latest. }
      exists p2. split_and!; [unfold produce_all in *; cbn [for_each]; by rewrite (M_bind_ok _ _ _ _ _ E1)| |].
      + rewrite Hm, H1, decide_True by done. set (l := messages_of _ p). clear.
        rewrite (cons_middle t l texts), app_assoc. generalize (l ++ [t]). clear l. intros l.
        unfold latest. rewrite !length_app, length_drop.
        replace (drop (length l - fakeMessageLimit) l ++ texts) with (drop (length l - fakeMessageLimit) (l ++ texts))
          by (by rewrite drop_app_le by lia).
        rewrite drop_drop. f_equal. lia.
      + intros k Hne. rewrite Ho, H1, decide_False by done. done. }
  eexists p1, _. split_and!; [done|unfold GetFakePushMessages, GetFakeMessages, mbind, M_bind, gets, modify; by rewrite Hm|]. intros k. rewrite messages_of_insert.
  case_decide; [done|by apply Ho].
Qed.
End Facts.

(** ** The interface of the other components *)
Section Interface.
Context {Com : Common} {PJ : PushJson} {E : Type} {Run : Runtime E} {Trace : TraceIds E} {Sarama : SaramaProducer E}.

(** The interface [Produce] of [PushMessage], implemented over sarama. *)
Definition sarama_Produce (p : kafkaProducerImpl) : KafkaProducer E := λ address tx populated,
  b ← lift_res (match (if populated then Marshal_populated tx else Marshal_Transaction tx) with
                | Err err => Err (ErrorfW "json marshal error" err)
                | r => r
                end);
  requestID ← GenerateTraceID;
  now ← Now;
  kafka_Produce (Some p) address
    (MsgObject (mkPushMessage (kp_bizCode p) address requestID ("[" +:+ b +:+ "]") (now / 1000000))) [].

(** What the other components push through the interface is what the producer
    of Kafka sends. *)
Theorem PushTransactionUpdate_sarama (ids : ChainIds) p tx e :
  PushTransactionUpdate (Kafka := sarama_Produce p) ids tx e = kafka_PushTransactionUpdate ids (Some p) (Some tx) [] e.
Proof.
  unfold PushTransactionUpdate, kafka_PushTransactionUpdate, sarama_Produce, push_message, Produce, with_inner_ids, transaction_text.
  cbn zeta. set (tx' := set_tr_ChainIds _ _ _). unfold mbind, M_bind, lift_res, mret, M_ret.
  destruct (if bool_decide (tr_Status tx' = TX_CREATED) then _ else _) as [b|err|m]; [|done..].
  destruct (GenerateTraceID e) as [[t|err|m] e1]; [|done..]. by destruct (Now e1) as [[n|err|m] e2].
Qed.
End Interface.
