(* ===== verification/GoFloat.v ===== *)
(** * Floating point numbers

    Go's [float64] as the IEEE 754 binary64 operations of [SpecFloat], and the
    durations and conversions the estimates use. *)
From Stdlib Require Import SpecFloat.
From S2P Require Import Prelude Redis.

Definition float64 : Type := spec_float.
Definition of_int (z : Z) : float64 := binary_normalize 53 1024 z 0 false.
Definition fadd : float64 → float64 → float64 := SFadd 53 1024.
Definition fdiv : float64 → float64 → float64 := SFdiv 53 1024.
Definition fmul : float64 → float64 → float64 := SFmul 53 1024.

(** The integer part of a finite number, toward zero. *)
Definition truncate (f : float64) : option Z :=
  match f with
  | S754_zero _ => Some 0
  | S754_finite s m e =>
      let a := if bool_decide (0 ≤ e) then Z.pos m * 2 ^ e else Z.pos m / 2 ^ (- e) in
      Some (if s then - a else a)
  | _ => None
  end.
(** [math.Ceil] as an integer. *)
Definition ceil (f : float64) : option Z :=
  match f with
  | S754_zero _ => Some 0
  | S754_finite s m e =>
      if bool_decide (0 ≤ e) then Some (if s then - (Z.pos m * 2 ^ e) else Z.pos m * 2 ^ e)
      else Some (if s then - (Z.pos m / 2 ^ (- e)) else - ((- Z.pos m) / 2 ^ (- e)))
  | _ => None
  end.

Section Conversions.
(** The conversion of a number that does not fit is implementation-specific. *)
Context (unspecified : float64 → Z).

Definition to_uint (w : Z) (f : float64) (z : option Z) : Z :=
  match z with
  | Some z => if bool_decide (0 ≤ z < 2 ^ w) then z else wrap w (unspecified f)
  | None => wrap w (unspecified f)
  end.
(** [uint64(f)] and [uint32(math.Ceil(f))]. *)
Definition uint64_of (f : float64) : Z := to_uint 64 f (truncate f).
Definition uint32_of_ceil (f : float64) : Z := to_uint 32 f (ceil f).
End Conversions.

(** [Duration.Minutes]. *)
Definition Minutes (d : Z) : float64 :=
  fadd (of_int (Z.quot d minute)) (fdiv (of_int (Z.rem d minute)) (of_int minute)).
(** [Time.Sub] saturates. *)
Definition maxDuration : Z := 2 ^ 63 - 1.
Definition minDuration : Z := - 2 ^ 63.
Definition Sub (t u : Z) : Z := Z.max minDuration (Z.min maxDuration (t - u)).

(** ** Text, bits and powers *)

(** The number that the digits of an integer denote, rounded to the nearest. *)
Definition parse_float (text : string) : option float64 := of_int <$> parse_signed text.
Definition infinity : float64 := S754_infinity false.
(** [math.Float64frombits] and [math.Float64bits]; a NaN has one pattern. *)
Definition Float64frombits (bits : Z) : float64 :=
  let s := Z.testbit bits 63 in
  let e := Z.land (Z.shiftr bits 52) (2 ^ 11 - 1) in
  let f := Z.land bits (2 ^ 52 - 1) in
  if bool_decide (e = 0) then match f with Zpos m => S754_finite s m (- 1074) | _ => S754_zero s end
  else if bool_decide (e = 2047) then if bool_decide (f = 0) then S754_infinity s else S754_nan
  else S754_finite s (Z.to_pos (2 ^ 52 + f)) (e - 1075).
Definition Float64bits (f : float64) : Z :=
  let sign (s : bool) := if s then 2 ^ 63 else 0 in
  match f with
  | S754_zero s => sign s
  | S754_infinity s => sign s + 2047 * 2 ^ 52
  | S754_nan => 2047 * 2 ^ 52 + 2 ^ 51 + 1
  | S754_finite s m e =>
      if bool_decide (Z.pos m < 2 ^ 52) then sign s + Z.pos m
      else sign s + (e + 1075) * 2 ^ 52 + (Z.pos m - 2 ^ 52)
  end.

(** [math.Pow10], from its two tables, and the loop of [math.Pow 10 y], both for
    an exponent that is not negative. *)
Definition Pow10 (n : Z) : float64 :=
  if bool_decide (0 ≤ n ≤ 308) then fmul (of_int (10 ^ (32 * (n / 32)))) (of_int (10 ^ (n mod 32)))
  else infinity.
Definition half : float64 := fdiv (of_int 1) (of_int 2).
(** The fraction, in [1/2, 1), and the exponent of ten. *)
Definition frexp_10 : float64 * Z := SFfrexp 53 1024 (of_int 10).
Fixpoint pow_loop (fuel : nat) (i : Z) (a1 : float64) (ae : Z) (x1 : float64) (xe : Z) : float64 * Z :=
  match fuel with
  | O => (a1, ae)
  | S fuel =>
      if bool_decide (i = 0) then (a1, ae)
      else if bool_decide (xe < - 2 ^ 12) || bool_decide (2 ^ 12 < xe) then (a1, ae + xe)
      else
        let '(a1, ae) := if Z.odd i then (fmul a1 x1, ae + xe) else (a1, ae) in
        let x1 := fmul x1 x1 in
        let xe := 2 * xe in
        let '(x1, xe) := if SFltb x1 half then (fadd x1 x1, xe - 1) else (x1, xe) in
        pow_loop fuel (i / 2) a1 ae x1 xe
  end.
Definition Pow_10 (y : Z) : float64 :=
  match truncate (of_int y) with
  | None => infinity
  | Some yi =>
      if bool_decide (yi = 0) then of_int 1
      else if bool_decide (yi = 1) then of_int 10
      else if bool_decide (2 ^ 63 ≤ yi) then infinity
      else let '(a1, ae) := pow_loop 64 yi (of_int 1) 0 frexp_10.1 frexp_10.2 in SFldexp 53 1024 a1 ae
  end.

(** ** [big.Float]

    A number with its own precision in bits; the exponent is a 32-bit integer. *)
Definition big_emax : Z := 2 ^ 31 - 1.
Record bigFloat := mkBigFloat { bf_prec : Z; bf_value : spec_float }.
(** [new(big.Float).SetPrec(prec).SetString(text)] of a decimal integer: a
    precision of 0 becomes 64. *)
Definition big_SetString (prec : Z) (text : string) : option bigFloat :=
  let p := if bool_decide (prec = 0) then 64 else prec in
  z ← parse_signed text; Some (mkBigFloat p (binary_normalize p big_emax z 0 false)).
Definition big_round (p : Z) (emax : Z) (f : spec_float) : spec_float :=
  match f with
  | S754_finite s m e => binary_round p emax s m e
  | f => f
  end.
(** [SetFloat64]: a precision of 0 becomes 53; a NaN panics. *)
Definition big_SetFloat64 (prec : Z) (f : float64) : res bigFloat :=
  let p := if bool_decide (prec = 0) then 53 else prec in
  match f with
  | S754_nan => Panic "Float.SetFloat64(NaN)"
  | f => Ok (mkBigFloat p (big_round p big_emax f))
  end.
(** [new(big.Float).Quo(x, y)]. *)
Definition big_Quo (x y : bigFloat) : res bigFloat :=
  let p := Z.max (bf_prec x) (bf_prec y) in
  match SFdiv p big_emax (bf_value x) (bf_value y) with
  | S754_nan => Panic "division of zero by zero or infinity by infinity"
  | q => Ok (mkBigFloat p q)
  end.
Definition big_Float64 (x : bigFloat) : float64 := big_round 53 1024 (bf_value x).

Example minutes_90s : truncate (Minutes 90000000000) = Some 1.
Proof. reflexivity. Qed.
Example ceil_90s : ceil (Minutes 90000000000) = Some 2.
Proof. reflexivity. Qed.
Example pow10_18 : Pow_10 18 = of_int (10 ^ 18) ∧ Pow10 18 = of_int (10 ^ 18).
Proof. by vm_compute. Qed.
Example bits_of_one : Float64frombits (1023 * 2 ^ 52) = of_int 1 ∧ Float64bits (of_int 1) = 1023 * 2 ^ 52.
Proof. by vm_compute. Qed.
