(* ===== verification/Gateway.v ===== *)
(** * What stands before the endpoints

    [xlayer/nacos] (nacos.go, util.go), [xlayer/iprestriction/client.go] and
    [server/xlayer_interceptors.go]: the addresses of other services, the check of
    the address of a client, and the chain of interceptors [runGRPCServer]
    (server/server.go) puts before every handler.  The client of Nacos, the parsing
    of addresses by [net/url], the JSON decoding, Sentinel with its interceptor and
    the metrics are interfaces. *)
From Stdlib Require Import Strings.String Strings.Ascii.
From stdpp Require Import pretty.
From S2P Require Import Prelude Types EthClient Http Redis GoFloat.
#[local] Open Scope Z_scope.

(** ** Texts, on ASCII *)

(** [strings.Split] by one character: there is always a first part. *)
Fixpoint Split (s : string) (sep : ascii) : string * list string :=
  match s with
  | EmptyString => (EmptyString, [])
  | String c s =>
      let '(part, parts) := Split s sep in
      if bool_decide (c = sep) then (EmptyString, part :: parts) else (String c part, parts)
  end.
Definition parts_of (s : string) (sep : ascii) : list string := (Split s sep).1 :: (Split s sep).2.

Definition is_space (c : ascii) : bool :=
  let n := nat_of_ascii c in bool_decide (n = 32)%nat || bool_decide (9 ≤ n ≤ 13)%nat.
Fixpoint TrimLeft (s : string) : string :=
  match s with String c rest => if is_space c then TrimLeft rest else s | EmptyString => s end.
Fixpoint TrimRight (s : string) : string :=
  match s with
  | EmptyString => EmptyString
  | String c rest =>
      let rest := TrimRight rest in
      if bool_decide (rest = EmptyString) && is_space c then EmptyString else String c rest
  end.
Definition TrimSpace (s : string) : string := TrimRight (TrimLeft s).

Definition part_at (parts : list string) (i : nat) : res string :=
  match parts !! i with Some p => Ok p | None => Panic "index out of range" end.
Definition Atoi (s : string) : res Z :=
  match ParseInt s with Some n => Ok n | None => Err (Errorf "strconv.Atoi: invalid syntax" []) end.

(** ** Nacos *)
Record ServerConfig := mkServerConfig { sc_IpAddr : string; sc_Port : Z }.
Record Instance := mkInstance { ins_Ip : string; ins_Port : Z }.

(** The client of Nacos, and [getLocalIP]. *)
Class NamingClient (E : Type) : Type := {
  CreateNamingClient : list ServerConfig → string → M E unit;
  RegisterInstance : string → Z → string → M E unit;
  SelectOneHealthyInstance : string → M E Instance;
  getLocalIP : M E string;
}.

Section Nacos.
Context {E : Type} {Naming : NamingClient E}.

(** An address without a colon is out of range, unless it is the local one. *)
Definition resolveIPAndPort (addr : string) : M E (string * Z) :=
  let laddr := parts_of addr ":" in
  ip ← lift_res (part_at laddr 0);
  if bool_decide (ip = "127.0.0.1") then
    localIP ← getLocalIP; mret (localIP, 26659)
  else
    port ← lift_res (p ← part_at laddr 1; Atoi p);
    mret (ip, port).

Fixpoint server_configs (urls : list string) : res (list ServerConfig) :=
  match urls with
  | [] => Ok []
  | url :: urls =>
      let laddr := parts_of url ":" in
      serverPort ← (p ← part_at laddr 1; Atoi p);
      ip ← part_at laddr 0;
      configs ← server_configs urls;
      mret (mkServerConfig ip (wrap64 serverPort) :: configs)
  end.
Definition getServerConfigs (urls : string) : res (list ServerConfig) := server_configs (parts_of urls ",").

(** Whether the package variable [client] is set afterwards: also when the
    registration fails. *)
Definition InitNacosClient (urls namespace name externalAddr : string) : M (E * bool) unit :=
  let on_env {A} (m : M E A) : M (E * bool) A := zoom fst (λ e s, (e, s.2)) m in
  '(ip, port) ← on_env (resolveIPAndPort externalAddr);
  serverConfigs ← lift_res (getServerConfigs urls);
  on_env (CreateNamingClient serverConfigs namespace);;
  modify (λ s, (s.1, true));;
  on_env (RegisterInstance ip (wrap64 port) name).

Definition GetOneInstance (client : bool) (serviceName : string) : M E Instance :=
  if negb client then throw (Errorf "nacos client is not initialized" [])
  else SelectOneHealthyInstance serviceName.
Definition GetOneURL (client : bool) (serviceName : string) : M E string :=
  instance ← GetOneInstance client serviceName;
  mret (ins_Ip instance +:+ ":" +:+ pretty (ins_Port instance)).
End Nacos.

(** ** The restriction of addresses *)
Definition queryTypeXLayerBridge : string := "64".
Definition endpointCheckCountryLimit : string := "/inner/v3/users/support/common/check-country-limit".
Definition siteCodeOKXGLobal : string := "OKX_GLOBAL".

Record IPConfig := mkIPConfig {
  ip_Enabled : bool; ip_UseNacos : bool; ip_Scheme : string; ip_Host : string; ip_IPBlocklist : list string;
}.
Record CheckResult := mkCheckResult { cr_Hidden : bool; cr_Limit : bool }.
(** [url.JoinPath], the address with its encoded query, and the decoded
    [Data.XLayerBridge] of the answer. *)
Class CountryApi : Type := {
  url_JoinPath : string → string → res string;
  url_with_query : string → list (string * string) → string;
  Unmarshal_CountryLimit : string → res (option CheckResult);
}.

(** The client that is configured: none when the check is disabled or has no host. *)
Definition InitClient (c : IPConfig) (client : option IPConfig) : option IPConfig :=
  if negb (ip_Enabled c) then client
  else if bool_decide (ip_Host c = "") then client
  else Some (mkIPConfig (ip_Enabled c) (ip_UseNacos c)
               (if bool_decide (ip_Scheme c = "") then "http" else ip_Scheme c) (ip_Host c) (ip_IPBlocklist c)).

Section IPRestriction.
Context {E : Type} {Http : HttpClient E} {Naming : NamingClient E} {Api : CountryApi}.
Context (nacos : bool).

(** The answer of the service about an address; each step that fails is an error here. *)
Definition ask_country (c : IPConfig) (ip : string) : M E (option CheckResult) :=
  host ← (if ip_UseNacos c then nacosUrl ← GetOneURL nacos (ip_Host c); mret (ip_Scheme c +:+ "://" +:+ nacosUrl)
          else mret (ip_Host c));
  fullPath ← lift_res (url_JoinPath host endpointCheckCountryLimit);
  req ← lift_res (NewRequest MethodGet fullPath "");
  let query := [("ip", ip); ("type", queryTypeXLayerBridge); ("siteCode", siteCodeOKXGLobal)]%string in
  resp ← http_Do (mk_http_Request MethodGet (url_with_query (hq_URL req) query) (hq_Header req) (hq_Body req));
  if bool_decide (hr_StatusCode resp ≠ StatusOK) then throw (Errorf "status code %d" [hr_StatusCode resp])
  else
    respBody ← lift_res (hr_Body resp);
    lift_res (Unmarshal_CountryLimit respBody).

(** Every error is logged and the address not restricted. *)
Definition CheckIPRestricted (client : option IPConfig) (ip : string) : M E bool :=
  match client with
  | None => mret false
  | Some c =>
      if negb (ip_Enabled c) then mret false
      else if existsb (λ blockedIP, bool_decide (ip = blockedIP)) (ip_IPBlocklist c) then mret true
      else
        r ← attempt (ask_country c ip);
        mret (match r with
              | inl (Some result) => cr_Hidden result || cr_Limit result
              | inl None | inr _ => false
              end)
  end.
End IPRestriction.

(** ** The interceptors *)
Definition ipRestrictionErrorMsg : string := "XLayer product isn't available in your region".

(** [metadata.MD]: [Get] looks the lower-case key up. *)
Abbreviation MD := (gmap string (list string)).
Definition md_Get (headers : MD) (k : string) : list string := default [] (headers !! ToLower k).
Definition ipHeaders : list string := ["x-real-ip"; "x-forwarded-for"; "Proxy-Client-IP"; "WL-Proxy-Client-IP"].

(** The first part of the first value of a header, if it is an address. *)
Definition header_ip (headers : MD) (h : string) : option string :=
  match md_Get headers h with
  | [] => None
  | val :: _ =>
      let ip := TrimSpace (Split val ",").1 in
      if bool_decide (ip ≠ "") && bool_decide (ToLower ip ≠ "unknown") then Some ip else None
  end.
Fixpoint first_header (headers : MD) (hs : list string) : string :=
  match hs with
  | [] => ""
  | h :: hs => match header_ip headers h with Some ip => ip | None => first_header headers hs end
  end.
Definition getIPAddrFromHeaders (headers : MD) : string := first_header headers ipHeaders.

(** A response as the reflection sees it: its fields [Code] and [Msg], and its
    content. *)
Record reply (R : Type) := mkReply { rp_Code : option Z; rp_Msg : option string; rp_body : R }.
Arguments mkReply {R}.
Arguments rp_Code {R}.
Arguments rp_Msg {R}.
Arguments rp_body {R}.

(** The metrics of prometheus and the text of an error. *)
Class Metrics (E : Type) : Type := {
  RecordRequest : string → Z → string → M E unit;
  RecordRequestLatency : string → Z → Z → M E unit;
}.
Class MetricsOk (E : Type) `{!Metrics E} : Type := {
  RecordRequest_ok method code msg e : ∃ e', RecordRequest method code msg e = (Ok tt, e');
  RecordRequestLatency_ok method latency code e : ∃ e', RecordRequestLatency method latency code e = (Ok tt, e');
}.
Class ErrorText : Type := Error_text : error → string.

(** Sentinel: [Entry] asks for a resource and gives the text of the block error when
    the flow rules refuse it; [NewUnaryServerInterceptor(WithUnaryServerBlockFallback)]
    of its adapter for gRPC takes the fallback, the method and the handler. *)
Class Sentinel (E : Type) : Type := {
  Entry : string → M E (option string);
  SentinelInterceptor {A} : (string → M E A) → string → M E A → M E A;
}.
(** What the adapter documents: a blocked request goes to the fallback; any other is
    handled once, after its entry, and its outcome is returned. *)
Class SentinelOk (E : Type) `{!Sentinel E} : Type := {
  Entry_ok method e : ∃ o e', Entry method e = (Ok o, e');
  Sentinel_blocks {A} (fallback : string → M E A) method handler e blockErr e1 :
    Entry method e = (Ok (Some blockErr), e1) → SentinelInterceptor fallback method handler e = fallback blockErr e1;
  Sentinel_passes {A} (fallback : string → M E A) method handler e e1 :
    Entry method e = (Ok None, e1) →
    SentinelInterceptor fallback method handler e = SentinelInterceptor fallback method (λ _, handler e1) e ∧
    (SentinelInterceptor fallback method handler e).1 = (handler e1).1;
}.
(** [status.Error]; [codes.ResourceExhausted]. *)
Definition status_Error (code : Z) (msg : string) : error := Errorf msg [code].
Definition ResourceExhausted : Z := 8.

Section Interceptors.
Context {E : Type} {Http : HttpClient E} {Naming : NamingClient E} {Api : CountryApi} {Met : Metrics E} {Txt : ErrorText}.
Context {Run : Runtime E} {Flow : Sentinel E}.
Context {R : Type}.
Context (nacos : bool) (client : option IPConfig) (restricted_body : R).
Abbreviation Handler := (M E (option (reply R))).

Definition getRespErrorInfo (r : (option (reply R) + error)%type) : Z * string :=
  match r with
  | inr err => (ERROR_DEFAULT, Error_text err)
  | inl None => (ERROR_OK, ""%string)
  | inl (Some resp) => (int64 (default 0 (rp_Code resp)), default ""%string (rp_Msg resp))
  end.

(** The handler is run and its outcome returned as it is. *)
Definition NewRequestMetricsInterceptor (methodName : string) (handler : Handler) : Handler :=
  startTime ← Now;
  r ← attempt handler;
  endTime ← Now;
  let '(code, msg) := getRespErrorInfo r in
  RecordRequest methodName code msg;;
  RecordRequestLatency methodName (Sub endTime startTime) code;;
  match r with inl resp => mret resp | inr err => throw err end.
(** The same for the line of the log, which is not observed. *)
Definition NewRequestLogInterceptor (handler : Handler) : Handler :=
  _ ← Now;
  r ← attempt handler;
  _ ← Now;
  match r with inl resp => mret resp | inr err => throw err end.

(** [None]: the request carries no headers. *)
Definition NewIPCheckInterceptor (headers : option MD) (handler : Handler) : Handler :=
  match headers with
  | None => handler
  | Some headers =>
      let ip := getIPAddrFromHeaders headers in
      restricted ← (if bool_decide (ip ≠ "") then CheckIPRestricted nacos client ip else mret false);
      if (restricted : bool) then
        mret (Some (mkReply (Some ERROR_IP_RESTRICTED) (Some ipRestrictionErrorMsg) restricted_body))
      else handler
  end.
(** What the server answers to a request Sentinel has blocked. *)
Definition blockErrFallbackFn (blockErr : string) : Handler := throw (status_Error ResourceExhausted blockErr).
(** The chain of the server. *)
Definition intercepted (methodName : string) (headers : option MD) (handler : Handler) : Handler :=
  NewRequestMetricsInterceptor methodName
    (SentinelInterceptor blockErrFallbackFn methodName
      (NewRequestLogInterceptor (NewIPCheckInterceptor headers handler))).
End Interceptors.

(** ** Properties *)
Section Facts.
Context {E : Type} {Http : HttpClient E} {Naming : NamingClient E} {Api : CountryApi} {Met : Metrics E} {Txt : ErrorText}.
Context {Run : Runtime E} {RunOk : RuntimeOk E} {Flow : Sentinel E} {FlowOk : SentinelOk E} {MetOk : MetricsOk E}.
Context {R : Type} (nacos : bool) (client : option IPConfig) (restricted_body : R).

(** Why an address is restricted: it is in the list, or the service said so. *)
Definition known_restricted (ip : string) (e : E) : Prop :=
  ∃ c, client = Some c ∧ ip_Enabled c = true ∧
    (ip ∈ ip_IPBlocklist c ∨
     ∃ result e', ask_country nacos c ip e = (Ok (Some result), e') ∧ cr_Hidden result || cr_Limit result = true).

Lemma CheckIPRestricted_known ip e b e' : CheckIPRestricted nacos client ip e = (Ok b, e') →
  b = true ↔ known_restricted ip e.
Proof.
  unfold CheckIPRestricted, known_restricted. destruct client as [c|]; [|intros [= <- <-]; split; [done|by intros (? & ? & _)]].
  destruct (ip_Enabled c) eqn:Een; cbn [negb]; [|intros [= <- <-]; split; [done|intros (c' & [= <-] & H & _); congruence]].
  destruct (existsb _ _) eqn:Eb.
  - intros [= <- <-]. apply existsb_exists in Eb as (x & Hx & ->%bool_decide_eq_true).
    split; [|done]. intros _. exists c. split_and!; [done|done|left]. by apply list_elem_of_In.
  - assert (ip ∉ ip_IPBlocklist c) as Hn.
    { intros Hin. apply not_true_iff_false in Eb. apply Eb, existsb_exists. exists ip. split; [by apply list_elem_of_In|].
      by apply bool_decide_eq_true. }
    unfold mbind, M_bind, attempt. destruct (ask_country nacos c ip e) as [[[r|]|err|p] e1] eqn:Ea; intros [= <- <-].
    + split; [intros Hr; exists c; split_and!; [done|done|right; by eexists _, _]|].
      intros (c' & [= <-] & _ & [Hin|(r' & e2 & H & Hr)]); [done|]. rewrite Ea in H. by injection H as <- _.
    + split; [done|]. intros (c' & [= <-] & _ & [Hin|(r' & e2 & H & _)]); [done|congruence].
    + split; [done|]. intros (c' & [= <-] & _ & [Hin|(r' & e2 & H & _)]); [done|congruence].
Qed.

Lemma CheckIPRestricted_total ip e : (∀ c s p s', ask_country nacos c ip s ≠ (Panic p, s')) →
  ∃ b e', CheckIPRestricted nacos client ip e = (Ok b, e').
Proof.
  intros Hask. unfold CheckIPRestricted. destruct client as [c|]; [|by eexists _, _].
  destruct (negb _); [by eexists _, _|]. destruct (existsb _ _); [by eexists _, _|].
  unfold mbind, M_bind, attempt. destruct (ask_country nacos c ip e) as [[o|err|p] e1] eqn:Ea; [by eexists _, _..|].
  by destruct (Hask c e p e1).
Qed.

(** ** Interceptors that forward

    The rest of the chain is run once, at a state that does not depend on it, and
    its outcome is returned. *)
Abbreviation Handler := (M E (option (reply R))).
Definition forwards (c : Handler → Handler) (e e1 : E) : Prop :=
  ∀ h, c h e = c (λ _, h e1) e ∧ (c h e).1 = (h e1).1.
Lemma forwards_compose c c' e e1 e2 : forwards c e e1 → forwards c' e1 e2 → forwards (λ h, c (c' h)) e e2.
Proof.
  intros Hc Hc' h. destruct (Hc (c' h)) as [Heq Hout], (Hc' h) as [Heq' Hout'].
  split; [|congruence]. rewrite Heq, Heq'. destruct (Hc (c' (λ _, h e2))) as [-> _]. done.
Qed.
(** The state after the clock was read. *)
Definition after_clock (e : E) : E := (Now e).2.
Lemma clock_read e : ∃ t, Now e = (Ok t, after_clock e).
Proof. unfold after_clock. destruct (Now_ok e) as (t & e' & ->). by exists t. Qed.

Lemma metrics_forwards methodName e : forwards (NewRequestMetricsInterceptor methodName) e (after_clock e).
Proof.
  intros h. unfold NewRequestMetricsInterceptor, mbind, M_bind, attempt. destruct (clock_read e) as [t ->].
  split; [done|]. destruct (h (after_clock e)) as [[a|err|p] s1]; [..|done];
    destruct (clock_read s1) as [t1 ->]; destruct (getRespErrorInfo _) as [code msg];
    destruct (RecordRequest_ok methodName code msg (after_clock s1)) as [s2 ->];
    by destruct (RecordRequestLatency_ok methodName (Sub t1 t) code s2) as [s3 ->].
Qed.
Lemma log_forwards e : forwards NewRequestLogInterceptor e (after_clock e).
Proof.
  intros h. unfold NewRequestLogInterceptor, mbind, M_bind, attempt. destruct (clock_read e) as [t ->].
  split; [done|]. destruct (h (after_clock e)) as [[a|err|p] s1]; [..|done]; by destruct (clock_read s1) as [t1 ->].
Qed.

(** What Sentinel lets through reaches the check of the address. *)
Lemma passed_forwards methodName e e1 : Entry methodName (after_clock e) = (Ok None, e1) →
  forwards (λ h, NewRequestMetricsInterceptor methodName
    (SentinelInterceptor blockErrFallbackFn methodName (NewRequestLogInterceptor h))) e (after_clock e1).
Proof.
  intros Hpass.
  apply (forwards_compose (NewRequestMetricsInterceptor methodName) (λ h, SentinelInterceptor blockErrFallbackFn methodName
    (NewRequestLogInterceptor h)) _ (after_clock e)); [apply metrics_forwards|].
  apply (forwards_compose (SentinelInterceptor blockErrFallbackFn methodName) NewRequestLogInterceptor _ e1);
    [|apply log_forwards]. intros h. by apply Sentinel_passes.
Qed.

(** The check of the address, run after the entry. *)
Definition refused (headers : option MD) (e : E) : Prop :=
  ∃ h, headers = Some h ∧ getIPAddrFromHeaders h ≠ "" ∧ known_restricted (getIPAddrFromHeaders h) e.
Abbreviation refusal := (Ok (Some (mkReply (Some ERROR_IP_RESTRICTED) (Some ipRestrictionErrorMsg) restricted_body))).
Lemma check_decides headers handler e (Hask : ∀ c ip s p s', ask_country nacos c ip s ≠ (Panic p, s')) :
  (refused headers e → ∃ e1, ∀ handler', NewIPCheckInterceptor nacos client restricted_body headers handler' e = (refusal, e1)) ∧
  (¬ refused headers e → ∃ e1, (e1 = e ∨ ∃ ip, CheckIPRestricted nacos client ip e = (Ok false, e1)) ∧
     NewIPCheckInterceptor nacos client restricted_body headers handler e = handler e1).
Proof.
  unfold NewIPCheckInterceptor, refused. destruct headers as [h|]; cbn zeta.
  2: { split; [by intros (? & ? & _)|]. intros _. exists e. split; [by left|done]. }
  case_bool_decide as Hip; [|split; [by intros (? & [= <-] & ? & _)|]; intros _; exists e; by split; [left|]].
  destruct (CheckIPRestricted_total (getIPAddrFromHeaders h) e) as (b & e1 & Ec); [by intros; apply Hask|].
  pose proof (CheckIPRestricted_known _ _ _ _ Ec) as Hb. unfold mbind, M_bind. rewrite Ec. split.
  - intros (h' & [= <-] & _ & Hk). apply Hb in Hk as ->. by exists e1.
  - intros Hn. destruct b; [destruct Hn; exists h; split_and!; [done|done|by apply Hb]|]. exists e1. split; [|done].
    right. by eexists.
Qed.

(** C38. When Sentinel blocks a request, the answer is ResourceExhausted with its
    text and no handler has a part in what happens.  Otherwise the request is refused,
    again whatever its handler, exactly when the address in its headers is known to be
    restricted; and when there is no address, no client, or the check fails in any
    way, the handler runs after the check alone, and the interceptors return its
    outcome as it is. *)
Theorem intercepted_decides methodName headers handler e r e'
  (Hcheck : ∀ c ip s p s', ask_country nacos c ip s ≠ (Panic p, s'))
  (Hrun : intercepted nacos client restricted_body methodName headers handler e = (r, e')) :
  match Entry methodName (after_clock e) with
  | (Ok (Some blockErr), _) =>
      r = Err (status_Error ResourceExhausted blockErr) ∧
      ∀ handler', intercepted nacos client restricted_body methodName headers handler' e = (r, e')
  | (_, e1) =>
      (refused headers (after_clock e1) → r = refusal ∧
         ∀ handler', intercepted nacos client restricted_body methodName headers handler' e = (r, e')) ∧
      (¬ refused headers (after_clock e1) → ∃ e2 e3,
         (e2 = after_clock e1 ∨ ∃ ip, CheckIPRestricted nacos client ip (after_clock e1) = (Ok false, e2)) ∧
         handler e2 = (r, e3))
  end.
Proof.
  unfold intercepted in *. destruct (Entry_ok methodName (after_clock e)) as (o & e1 & Eo). rewrite Eo.
  destruct o as [blockErr|].
  - assert (∀ h, NewRequestMetricsInterceptor methodName (SentinelInterceptor blockErrFallbackFn methodName h) e =
      NewRequestMetricsInterceptor (R := R) methodName (λ _, blockErrFallbackFn blockErr e1) e) as Hall.
    { intros h. rewrite (proj1 (metrics_forwards methodName e _)). by rewrite (Sentinel_blocks _ _ _ _ _ _ Eo). }
    pose proof (proj2 (metrics_forwards methodName e (λ _, blockErrFallbackFn blockErr e1))) as Hr.
    rewrite <- (Hall (NewRequestLogInterceptor (NewIPCheckInterceptor nacos client restricted_body headers handler))), Hrun in Hr.
    split; [done|]. intros handler'. by rewrite Hall, <- (Hall (NewRequestLogInterceptor
      (NewIPCheckInterceptor nacos client restricted_body headers handler))).
  - pose proof (passed_forwards methodName e e1 Eo) as Hf.
    pose proof (Hf (NewIPCheckInterceptor nacos client restricted_body headers handler)) as [_ Hr]. rewrite Hrun in Hr. cbn in Hr.
    destruct (check_decides headers handler (after_clock e1) Hcheck) as [Href Hpass]. split.
    + intros H. destruct (Href H) as [e2 H2]. split; [by rewrite Hr, H2|]. intros handler'. rewrite <- Hrun.
      rewrite (proj1 (Hf (NewIPCheckInterceptor nacos client restricted_body headers handler'))).
      rewrite (proj1 (Hf (NewIPCheckInterceptor nacos client restricted_body headers handler))). by rewrite !H2.
    + intros H. destruct (Hpass H) as (e2 & H2 & H3). exists e2, (handler e2).2. split; [done|].
      rewrite Hr, H3. apply surjective_pairing.
Qed.
End Facts.
