(* ===== verification/PushTask.v ===== *)
(** * The periodic tasks

    [xlayer/pushtask]: three tasks that follow the blocks of L1, the committed
    and the verified batches, keep their numbers and average durations in Redis
    and tell the front end which deposits changed their status. *)
From Stdlib Require Import Strings.String.
From S2P Require Import Prelude Types GlobalIndex Hashing MerkleStore Tables Storage MessageBridge EthClient Hex BridgeService.
From S2P Require Import Redis PushMessage GoFloat.

(** [types.Response] of a JSON RPC call: the code of its error, or its result. *)
Record Response := mkResponse { resp_Error : option Z; resp_Result : string }.
(** [BatchInfo]. *)
Record BatchInfo := mkBatchInfo { bi_Number : string; bi_Blocks : list string }.
(** [JSONRPCCall], and the client of go-ethereum. *)
Class BatchNode (E : Type) : Type := {
  JSONRPCCall : string → list Z → M E Response;
  BlockByHash_Number : bytes → M E Z;
  BlockNumber : M E Z;
}.

Definition secondsPreMinute : Z := 60.
Definition l2NetWorkId : Z := 1.
Definition l1PendingDepositQueryLimit : Z := 100.
Definition syncL1CommittedBatchLockKey : string := "sync_l1_committed_batch_lock".
Definition syncL1VerifiedBatchLockKey : string := "sync_l1_verified_batch_lock".
Definition l1BlockNumTaskLockKey : string := "bridge_l1_block_num_lock".
Definition minCommitDuration : Z := 2.
Definition defaultCommitDuration : Z := 10.
Definition commitDurationListLen : Z := 5.
Definition minVerifyDuration : Z := 2.
Definition defaultVerifyDuration : Z := 10.
Definition maxVerifyDuration : Z := 60.
Definition verifyDurationListLen : Z := 5.

Record TaskConfig := mkTaskConfig {
  pt_redis : redisStorageImpl;
  pt_ids : ChainIds;
  pt_producer : bool;               (* messagePushProducer != nil *)
  pt_rollupID : Z;
  pt_processors : processors;
  pt_confirmations : Z;             (* L1TargetBlockConfirmations *)
}.

(** The goroutines a task starts. *)
Inductive spawned : Type :=
| SpawnVerification (deposit : Deposit) (l2AvgVerifyDuration : Z)
| SpawnAutoClaim (deposit : Deposit).

Record Task (E : Type) := mkTask { tk_env : E; tk_db : database; tk_spawned : list spawned }.
Arguments mkTask {E}.
Arguments tk_env {E}.
Arguments tk_db {E}.
Arguments tk_spawned {E}.

(** ** Averages *)

(** The average of the minutes between the times of a full list, rounded up. *)
Definition avg_minutes (timestampDiff listLen : Z) : Z :=
  let q := Z.quot timestampDiff (listLen - 1) in
  let newAvgDuration := Z.quot q secondsPreMinute in
  if bool_decide (Z.rem q secondsPreMinute > 0) then newAvgDuration + 1 else newAvgDuration.
Definition checkCommitDurationLegal (avgDuration : Z) : bool :=
  bool_decide (minCommitDuration < avgDuration) && bool_decide (avgDuration < defaultCommitDuration).
Definition checkVerifyDurationLegal (avgDuration : Z) : bool :=
  bool_decide (minVerifyDuration < avgDuration) && bool_decide (avgDuration < maxVerifyDuration).

Section PushTask.
Context {E : Type} {Redis : RedisClient E} {Node : BatchNode E} {Run : Runtime E} {Kafka : KafkaProducer E}.
Context {Txt : Texts} {Com : Common} {DepositCodec : Codec Deposit}.
Context {TextCodec : Codec string} {BatchCodec : Codec BatchInfo}.
Context (undefined : bytes → Z) (unspecified : float64 → Z).
Context (cfg : TaskConfig).
Abbreviation T := (M (Task E)).
Abbreviation rs := (pt_redis cfg).

Definition task_env {A} (m : M E A) : T A := zoom tk_env (λ e s, mkTask e (tk_db s) (tk_spawned s)) m.
Definition task_db {A} (m : M database A) : T A := zoom tk_db (λ db s, mkTask (tk_env s) db (tk_spawned s)) m.
Definition go (p : spawned) : T unit := modify (λ s, mkTask (tk_env s) (tk_db s) (tk_spawned s ++ [p])).
(** [defer d()]: it runs also after an error or a panic. *)
Definition deferred {A} (d : T unit) (m : T A) : T A := λ s,
  let '(r, s) := m s in
  match d s with (Panic p, s) => (Panic p, s) | (_, s) => (r, s) end.
(** An error is logged and the function returns. *)
Definition logged {A} (m : T A) : T unit := _ ← attempt m; mret tt.

(** ** The goroutines *)
Definition push_status (mainnetFlag : bool) (status estimateTime : Z) (deposit : Deposit) : M E unit :=
  if negb (pt_producer cfg) then mret tt
  else if bool_decide (dep_LeafType deposit ≠ LeafTypeAsset) &&
          negb (IsAllowedContractAddress (dep_OriginalAddress deposit) (pt_processors cfg)) then mret tt
  else
    msg ← lift_res (status_message mainnetFlag (pt_rollupID cfg - 1) status estimateTime deposit);
    _ ← attempt (PushTransactionUpdate (pt_ids cfg) msg); mret tt.
Definition run_spawned (p : spawned) : M E unit :=
  match p with
  | SpawnVerification deposit l2AvgVerifyDuration =>
      push_status false TX_PENDING_VERIFICATION l2AvgVerifyDuration deposit
  | SpawnAutoClaim deposit => push_status true TX_PENDING_AUTO_CLAIM 0 deposit
  end.

(** ** Questions to the node *)
Definition queryLatestBatchNum (methodName : string) : M E Z :=
  response ← map_err (ErrorfW "query %v error") (JSONRPCCall methodName []);
  match resp_Error response with
  | Some _ => throw (Errorf "query %v failed" [])
  | None =>
      result ← map_err (ErrorfW "query %v, parse json error") (lift_res (unmarshal (A := string) (resp_Result response)));
      mret (wrap64 (Z.abs (DecodeBig undefined (list_byte_of_string result))))
  end.
Definition QueryLatestCommitBatch : M E Z := queryLatestBatchNum "zkevm_virtualBatchNumber".
Definition QueryLatestVerifyBatch : M E Z := queryLatestBatchNum "zkevm_verifiedBatchNumber".
Definition queryBlockHashListByBatchNum (batchNum : Z) : M E (list string) :=
  response ← map_err (ErrorfW "query zkevm_getBatchByNumber error") (JSONRPCCall "zkevm_getBatchByNumber" [batchNum]);
  match resp_Error response with
  | Some _ => throw (Errorf "query zkevm_getBatchByNumber failed" [])
  | None =>
      result ← map_err (ErrorfW "query zkevm_getBatchByNumber, parse json error")
                 (lift_res (unmarshal (A := BatchInfo) (resp_Result response)));
      mret (bi_Blocks result)
  end.
(** The empty hash when the batch has no blocks. *)
Definition QueryMaxBlockHashByBatchNum (batchNum : Z) : M E string :=
  blocks ← queryBlockHashListByBatchNum batchNum; mret (default ""%string (last blocks)).
Definition QueryBlockNumByBlockHash (blockHash : string) : M E Z :=
  map_err (ErrorfW "query blockByHash error") (BlockByHash_Number (HexToHash (list_byte_of_string blockHash))).
Definition getMaxBlockNumByBatchNum (batchNum : Z) : M E Z :=
  maxBlockHash ← QueryMaxBlockHashByBatchNum batchNum;
  if bool_decide (maxBlockHash = ""%string) then mret 0 else QueryBlockNumByBlockHash maxBlockHash.

(** [if err != nil && !errors.Is(err, redis.Nil)]: a missing key is 0. *)
Definition or_zero (m : M E Z) : M E Z :=
  r ← attempt m;
  match r with inl z => mret z | inr err => if errors_Is err ErrRedisNil then mret 0 else throw err end.

(** ** Average durations *)
Definition fresh_average (push : Z → M E unit) (len : M E Z) (pop : M E Z) (legal : Z → bool) (set : Z → M E unit)
    (limit currTimestamp : Z) : M E unit :=
  push currTimestamp;;
  listLen ← len;
  if bool_decide (listLen ≤ limit) then mret tt
  else
    fistTimestamp ← pop;
    let newAvgDuration := avg_minutes (int64 (currTimestamp - fistTimestamp)) listLen in
    if negb (legal newAvgDuration) then mret tt else set newAvgDuration.
Definition freshCommitDuration (currTimestamp : Z) : M E unit :=
  fresh_average (LPushCommitTime rs) (LLenCommitTimeList rs) (RPopCommitTime rs) checkCommitDurationLegal
    (SetAvgCommitDuration rs) commitDurationListLen currTimestamp.
Definition freshVerifyDuration (currTimestamp : Z) : M E unit :=
  fresh_average (LPushVerifyTime rs) (LLenVerifyTimeList rs) (RPopVerifyTime rs) checkVerifyDurationLegal
    (SetAvgVerifyDuration rs) verifyDurationListLen currTimestamp.
Definition average_or (default_ : Z) (m : M E Z) : M E Z :=
  r ← attempt m;
  match r with
  | inl avgDuration => mret (if bool_decide (avgDuration = 0) then default_ else avgDuration)
  | inr _ => mret default_
  end.
Definition GetAvgCommitDuration : M E Z := average_or defaultCommitDuration (GetAvgCommitDuration_ rs).
Definition GetAvgVerifyDuration : M E Z := average_or defaultVerifyDuration (GetAvgVerifyDuration_ rs).

(** [int(a - uint64(d.Minutes()))]: the difference wraps around and is read as
    a signed number. *)
Definition minutes_left (avgDuration d : Z) : Z :=
  int64 (wrap64 (avgDuration - uint64_of unspecified (Minutes d))).
Definition GetLeftCommitTime (depositCreateTime l2AvgCommitDuration currentTime : Z) : Z :=
  minutes_left l2AvgCommitDuration (Sub currentTime depositCreateTime).
Definition GetLeftVerifyTime (blockNumber depositCreateTime l2AvgCommitDuration l2AvgVerifyDuration currentTime : Z) : M E Z :=
  r ← attempt (GetL2BlockCommitTime rs blockNumber);
  let commitTimeSecond := match r with inl z => z | inr _ => 0 end in
  let blockCommitTime :=
    if bool_decide (commitTimeSecond = 0) then depositCreateTime + int64 (minute * int64 l2AvgCommitDuration)
    else int64 commitTimeSecond * 1000000000 in
  mret (minutes_left l2AvgVerifyDuration (Sub currentTime blockCommitTime)).

(** ** Locks *)

(** [TryLock], the work, and the deferred [ReleaseLock]. *)
Definition locked (key : string) (work : T unit) : T unit :=
  r ← attempt (task_env (TryLock rs key));
  match r with
  | inr _ => mret tt
  | inl false => mret tt
  | inl true => deferred (logged (task_env (ReleaseLock rs key))) (logged work)
  end.

(** ** Verified batches *)
Definition checkLatestBatchLegal (stored : M E Z) (msg : string) (latestBatchNum : Z) : M E bool :=
  oldBatchNum ← map_err (ErrorfW msg) (or_zero stored);
  mret (negb (bool_decide (latestBatchNum ≤ oldBatchNum))).
Definition freshRedisCacheForVerifyDuration (latestBatchNum currentTimestamp : Z) : M E unit :=
  SetVerifyBatchNum rs latestBatchNum;; freshVerifyDuration currentTimestamp.
Definition processSyncVerifyBatchTask : T unit :=
  locked syncL1VerifiedBatchLockKey
    (now ← task_env Now;
     latestBatchNum ← task_env QueryLatestVerifyBatch;
     isBatchLegal ← task_env (checkLatestBatchLegal (GetVerifyBatchNum rs) "failed to get verify batch num from redis"
                                latestBatchNum);
     when isBatchLegal (task_env (freshRedisCacheForVerifyDuration latestBatchNum (now / 1000000000)))).

(** ** Committed batches *)
Definition freshRedisForMaxCommitBlockNum (latestBatchNum : Z) : M E (Z * Z) :=
  oldMaxBlockNum ← or_zero (GetCommitMaxBlockNum rs);
  maxBlockNum ← getMaxBlockNumByBatchNum latestBatchNum;
  if bool_decide (maxBlockNum = 0) then mret (0, 0)
  else SetCommitMaxBlockNum rs maxBlockNum;; mret (oldMaxBlockNum, maxBlockNum).
(** [for i := lo + 1; i <= hi; i++]. *)
Definition blocks_between (lo hi : Z) : list Z := seqZ (lo + 1) (hi - lo).
Definition cacheEveryLockCommitTimeForBatch (oldMaxBlockNum maxBlockNum currTimestamp : Z) : M E unit :=
  for_each (blocks_between oldMaxBlockNum maxBlockNum)
    (λ i, _ ← attempt (SetL2BlockCommitTime rs i currTimestamp); mret tt).
Definition freshRedisByLatestBatch (latestBatchNum currTimestamp : Z) : M E (Z * Z) :=
  SetCommitBatchNum rs latestBatchNum;;
  freshCommitDuration currTimestamp;;
  '(oldMaxBlockNum, maxBlockNum) ← freshRedisForMaxCommitBlockNum latestBatchNum;
  if bool_decide (maxBlockNum = 0) then mret (0, 0)
  else
    cacheEveryLockCommitTimeForBatch oldMaxBlockNum maxBlockNum currTimestamp;;
    mret (oldMaxBlockNum, maxBlockNum).

(** The pages of the deposits of the new blocks; [fuel] bounds the number of
    pages, and an error of the storage ends the loop without an error. *)
Fixpoint push_pages (fuel : nat) (lo hi offset l2AvgVerifyDuration : Z) : T bool :=
  match fuel with
  | O => mret false
  | S fuel =>
      r ← attempt (task_db (GetNotReadyTransactionsWithBlockRange l2NetWorkId lo hi l1PendingDepositQueryLimit offset nil_tx));
      match r with
      | inr _ => mret true
      | inl deposits =>
          for_each deposits (λ d, go (SpawnVerification d l2AvgVerifyDuration));;
          if bool_decide (Z.of_nat (length deposits) < l1PendingDepositQueryLimit) then mret true
          else push_pages fuel lo hi (wrap64 (offset + l1PendingDepositQueryLimit)) l2AvgVerifyDuration
      end
  end.
Definition pushStatusChangedMsg (fuel : nat) (oldMaxBlockNum maxBlockNum : Z) : T bool :=
  if bool_decide (maxBlockNum ≤ oldMaxBlockNum) then mret true
  else
    l2AvgVerifyDuration ← task_env GetAvgVerifyDuration;
    push_pages fuel (wrap64 (oldMaxBlockNum + 1)) maxBlockNum 0 l2AvgVerifyDuration.
Definition processSyncCommitBatchTask (fuel : nat) : T unit :=
  locked syncL1CommittedBatchLockKey
    (latestBatchNum ← task_env QueryLatestCommitBatch;
     now ← task_env Now;
     isBatchLegal ← task_env (checkLatestBatchLegal (GetCommitBatchNum rs) "failed to get batch num from redis"
                                latestBatchNum);
     when isBatchLegal
       ('(oldMaxBlockNum, maxBlockNum) ← task_env (freshRedisByLatestBatch latestBatchNum (now / 1000000000));
        _ ← pushStatusChangedMsg fuel oldMaxBlockNum maxBlockNum; mret tt)).

(** ** Blocks of L1 *)

(** [n - min(L1TargetBlockConfirmations, n)]. *)
Definition confirmed (n : Z) : Z := n - Z.min (pt_confirmations cfg) n.
(** The deposits of a block; when they cannot be read the task returns. *)
Definition notify_block (block : Z) : T unit :=
  deposits ← task_env (GetBlockDepositList rs 0 block);
  for_each deposits (λ d, go (SpawnAutoClaim d)).
Definition notify_new_blocks : T unit :=
  blockNum ← task_env BlockNumber;
  oldBlockNum ← task_env (or_zero (GetL1BlockNum rs));
  if bool_decide (blockNum ≤ oldBlockNum) then mret tt
  else
    deferred (logged (task_env (SetL1BlockNum rs blockNum)))
      (if bool_decide (confirmed blockNum ≤ confirmed oldBlockNum) then mret tt
       else for_each (blocks_between (confirmed oldBlockNum) (confirmed blockNum)) notify_block).
Definition doTask : T unit := locked l1BlockNumTaskLockKey notify_new_blocks.
End PushTask.
