(* ===== verification/PushTaskFacts.v ===== *)
(** * What the periodic tasks tell the front end

    Every confirmed block of L1 is notified exactly once while Redis and the node
    answer, and lost when they do not; the pages of a batch are all visited; the
    averages stay in their range. *)
From Stdlib Require Import Strings.String.
From stdpp Require Import pretty.
From S2P Require Import Prelude Types GlobalIndex Hashing MerkleStore Tables Storage MessageBridge EthClient Hex BridgeService.
From S2P Require Import Redis RedisFacts PushMessage GoFloat PushTask.

(** ** Averages *)
Lemma commit_legal_range z : checkCommitDurationLegal z = true → 3 ≤ z ≤ 9.
Proof.
  unfold checkCommitDurationLegal, minCommitDuration, defaultCommitDuration.
  intros [H1%bool_decide_eq_true H2%bool_decide_eq_true]%andb_true_iff. lia.
Qed.
Lemma verify_legal_range z : checkVerifyDurationLegal z = true → 3 ≤ z ≤ 59.
Proof.
  unfold checkVerifyDurationLegal, minVerifyDuration, maxVerifyDuration.
  intros [H1%bool_decide_eq_true H2%bool_decide_eq_true]%andb_true_iff. lia.
Qed.

Section PushTaskFacts.
Context {E : Type} {Redis : RedisClient E} {ROk : RedisOk E} {Node : BatchNode E} {Run : Runtime E} {Kafka : KafkaProducer E}.
Context {Txt : Texts} {Com : Common} {DepositCodec : Codec Deposit}.
Context {TextCodec : Codec string} {BatchCodec : Codec BatchInfo}.
Context (undefined : bytes → Z) (unspecified : float64 → Z).
Context (cfg : TaskConfig).
Abbreviation T := (M (Task E)).
Abbreviation rs := (pt_redis cfg).

(** ** Goroutines *)
Lemma for_each_go {A} (f : A → spawned) l : ∀ s : Task E,
  for_each l (λ a, go (f a)) s = (Ok tt, mkTask (tk_env s) (tk_db s) (tk_spawned s ++ (f <$> l))).
Proof.
  induction l as [|a l IH]; intros s; cbn [for_each]; [by destruct s; cbn; rewrite app_nil_r|].
  unfold mbind, M_bind, go, modify. rewrite IH. cbn. by rewrite <- app_assoc.
Qed.

(** ** The pages of a batch *)
Definition not_ready_between (lo hi : Z) (t : tables) : list Deposit :=
  list_full (λ t d, bool_decide (dep_NetworkID (dr_dep d) = l2NetWorkId) && negb (dep_ReadyForClaim (dr_dep d)) &&
    block_in lo hi (block_of d t)) t.
Lemma read_page lo hi limit offset db : db_faults db = [] → lo < 2 ^ 63 → hi < 2 ^ 63 →
  GetNotReadyTransactionsWithBlockRange l2NetWorkId lo hi limit offset nil_tx db =
  (Ok (page limit offset (not_ready_between lo hi (db_committed db))), db).
Proof.
  intros Hf Hlo Hhi. unfold GetNotReadyTransactionsWithBlockRange, int8_param. rewrite !bool_decide_true by done.
  destruct db as [c tx q lk fs nw]. cbn in Hf. by subst.
Qed.

Lemma push_pages_all lo hi avg fuel : ∀ offset (s : Task E), db_faults (tk_db s) = [] → lo < 2 ^ 63 → hi < 2 ^ 63 →
  let L := not_ready_between lo hi (db_committed (tk_db s)) in
  0 ≤ offset → Z.of_nat (length L) < 2 ^ 63 → offset ≤ Z.of_nat (length L) →
  Z.of_nat (length L) - offset < 100 * Z.of_nat fuel →
  push_pages fuel lo hi offset avg s =
  (Ok true, mkTask (tk_env s) (tk_db s) (tk_spawned s ++ ((λ d, SpawnVerification d avg) <$> drop (Z.to_nat offset) L))).
Proof.
  induction fuel as [|fuel IH]; intros offset s Hf Hlo Hhi L Hoff HL Hle Hfuel; [lia|].
  cbn [push_pages]. unfold mbind at 1, M_bind at 1. unfold task_db, attempt, zoom. rewrite read_page by done. fold L.
  cbn [fst snd]. unfold mbind, M_bind. rewrite for_each_go. unfold page, l1PendingDepositQueryLimit.
  case_bool_decide as Hshort; cbn [tk_env tk_db tk_spawned].
  - rewrite length_take, length_drop in Hshort. by rewrite take_ge by (rewrite length_drop; lia).
  - rewrite length_take, length_drop in Hshort.
    assert (wrap64 (offset + 100) = offset + 100) as -> by (apply wrap_id; unfold in_width; lia).
    rewrite IH; cbn [tk_env tk_db tk_spawned]; try done; fold L; [|lia..].
    do 2 f_equal. rewrite <- app_assoc, <- fmap_app. do 2 f_equal.
    replace (Z.to_nat (offset + 100)) with (Z.to_nat offset + Z.to_nat 100)%nat by lia.
    by rewrite <- drop_drop, take_drop.
Qed.

(** C25. While the database answers and with fuel for every page, the loop over the
    pages ends and has started one message for each deposit of the new blocks that is
    not ready, in the order of the pages. *)
Theorem pushStatusChangedMsg_complete fuel lo hi avg (s : Task E) e1
  (Hfaults : db_faults (tk_db s) = []) (Hrange : 0 ≤ lo < hi) (Hhi : hi < 2 ^ 63)
  (Hsize : Z.of_nat (length (not_ready_between (lo + 1) hi (db_committed (tk_db s)))) < 2 ^ 63)
  (Hfuel : Z.of_nat (length (not_ready_between (lo + 1) hi (db_committed (tk_db s)))) < 100 * Z.of_nat fuel)
  (Havg : GetAvgVerifyDuration cfg (tk_env s) = (Ok avg, e1)) :
  pushStatusChangedMsg cfg fuel lo hi s =
  (Ok true, mkTask e1 (tk_db s)
     (tk_spawned s ++ ((λ d, SpawnVerification d avg) <$> not_ready_between (lo + 1) hi (db_committed (tk_db s))))).
Proof.
  unfold pushStatusChangedMsg. rewrite bool_decide_false by lia.
  erewrite M_bind_ok by (unfold task_env, zoom; by rewrite Havg).
  assert (wrap64 (lo + 1) = lo + 1) as -> by (apply wrap_id; unfold in_width; lia).
  rewrite push_pages_all; cbn [tk_env tk_db tk_spawned]; try done; lia.
Qed.

(** ** The average of the commits *)
Abbreviation times_key := (addKeyPrefix rs commitBatchTimeListKey).
Abbreviation avg_key := (addKeyPrefix rs avgCommitDurationKey).
Definition average_ok (m : gmap string RedisValue) : Prop :=
  m !! avg_key = None ∨ ∃ z, m !! avg_key = Some (RString (pretty z)) ∧ 3 ≤ z ≤ 9.
Lemma times_avg_ne : times_key ≠ avg_key.
Proof. intros H. unfold addKeyPrefix in H. apply (inj (String.append _)) in H. discriminate. Qed.
Lemma put_list_ne k k' l m : k ≠ k' → put_list k l m !! k' = m !! k'.
Proof. intros Hk. unfold put_list. case_bool_decide; [by rewrite lookup_delete_ne|by rewrite lookup_insert_ne]. Qed.
Lemma list_at_insert_ne k k' v m : k ≠ k' → list_at k' (<[k := v]> m) = list_at k' m.
Proof. intros Hk. unfold list_at. by rewrite lookup_insert_ne. Qed.

Lemma average_ok_read e z e' : average_ok (kept e) → GetAvgCommitDuration cfg e = (Ok z, e') → 3 ≤ z ≤ 10.
Proof.
  intros Hok. unfold GetAvgCommitDuration, average_or, defaultCommitDuration. intros H. inv_bind H. unfold attempt in H0.
  destruct (GetAvgCommitDuration_ rs e) as [[x|err|p] e1] eqn:Hg; [|by simplify_eq; injection H1 as <- _|done].
  injection H0 as <- <-. injection H1 as <- _. apply with_client_inv in Hg. inv_bind Hg.
  apply Wrap_inv, Get_ok in H as (_ & Hs & _). specialize (Hs _ eq_refl).
  destruct Hok as [Hok|(y & Hok & Hy)]; rewrite Hok in Hs; [done|]. injection Hs as <-.
  rewrite ParseInt_pretty, bool_decide_true in H0 by lia. injection H0 as <- _.
  assert (wrap64 y = y) as -> by (apply wrap_id; unfold in_width; lia). rewrite bool_decide_false by lia. lia.
Qed.

(** A new commit keeps at most five times and an average between three and nine
    minutes, and the average that is read is never over ten. *)
Theorem freshCommitDuration_bounds now e e1
  (Hok : average_ok (kept e)) (Hlen : Z.of_nat (length (list_at times_key (kept e))) ≤ commitDurationListLen)
  (E1 : freshCommitDuration cfg now e = (Ok tt, e1)) :
  average_ok (kept e1) ∧ Z.of_nat (length (list_at times_key (kept e1))) ≤ commitDurationListLen ∧
  ∀ z e2, GetAvgCommitDuration cfg e1 = (Ok z, e2) → 3 ≤ z ≤ 10.
Proof.
  assert (Hboth : average_ok (kept e1) ∧ Z.of_nat (length (list_at times_key (kept e1))) ≤ commitDurationListLen).
  2: { destruct Hboth as [Ha Hl]. split_and!; [done|done|]. intros z e2. by apply average_ok_read. }
  unfold freshCommitDuration, fresh_average in E1. inv_bind E1. destruct a.
  unfold LPushCommitTime in H. inv_bind H. injection H2 as ->. apply with_client_inv, Wrap_inv, LPush_ok in H1 as [Hk1 _].
  inv_bind H0. apply with_client_inv, Wrap_inv, LLen_ok in H as [Hk2 Hn]. specialize (Hn _ eq_refl).
  assert (Hlist : list_at times_key (kept s0) = arg_text (ArgInt now) :: list_at times_key (kept e)).
  { by rewrite Hk2, Hk1, list_at_put_list. }
  assert (Havg : average_ok (kept s0)).
  { unfold average_ok. by rewrite Hk2, Hk1, !(put_list_ne _ _ _ _ times_avg_ne). }
  rewrite <- Hk2, Hlist in Hn. case_bool_decide as Hle.
  { injection H1 as <-. split; [done|]. rewrite Hlist. lia. }
  inv_bind H1. apply with_client_inv in H. inv_bind H. apply Wrap_inv, RPop_ok in H1 as (l & Hl & Hk3).
  assert (s1 = s2) as -> by (destruct (ParseInt a2); [by injection H2 as _ <-|done]).
  assert (Hlen3 : Z.of_nat (length (list_at times_key (kept s2))) ≤ commitDurationListLen).
  { rewrite Hk3, list_at_put_list. rewrite Hlist in Hl. apply (f_equal length) in Hl. rewrite length_app in Hl. cbn in Hl. lia. }
  assert (Havg3 : average_ok (kept s2)).
  { unfold average_ok. by rewrite Hk3, !(put_list_ne _ _ _ _ times_avg_ne). }
  destruct (checkCommitDurationLegal _) eqn:Hlegal; cbn [negb] in H0; [|by injection H0 as <-].
  apply with_client_inv, Wrap_inv, Set_ok in H0 as ->. apply commit_legal_range in Hlegal. split.
  - right. eexists. rewrite lookup_insert_eq. by split.
  - rewrite list_at_insert_ne by (apply not_eq_sym, times_avg_ne). done.
Qed.

(** ** Blocks of L1 *)
Abbreviation lock_key := (addKeyPrefix rs l1BlockNumTaskLockKey).
Abbreviation num_key := (addKeyPrefix rs l1BlockNumKey).
(** The number stored for L1, 0 when there is none. *)
Definition stored_num (n : Z) (m : gmap string RedisValue) : Prop :=
  0 ≤ n < 2 ^ 63 ∧ (m !! num_key = Some (RString (pretty n)) ∨ m !! num_key = None ∧ n = 0).
(** The deposits of a block that can be read. *)
Definition deposits_at (m : gmap string RedisValue) (block : Z) : list Deposit :=
  omap decode_text (map_to_list (hash_at (block_deposits_key rs 0 block) m)).*2.
Definition readable_at (m : gmap string RedisValue) (block : Z) : Prop :=
  (∀ v, m !! block_deposits_key rs 0 block = Some v → ∃ h, v = RHash h) ∧
  map_Forall (λ _ t, is_Some (decode_text (A := Deposit) t)) (hash_at (block_deposits_key rs 0 block) m).

Lemma block_key_ne n b k : (∀ rest, "bridge_b" +:+ rest ≠ k) → block_deposits_key rs n b ≠ addKeyPrefix rs k.
Proof.
  intros Hk H. unfold block_deposits_key, addKeyPrefix in H. apply (inj (String.append _)) in H.
  eapply Hk. rewrite <- H. unfold getBlockDepositListKey. reflexivity.
Qed.
Lemma block_key_lock n b : block_deposits_key rs n b ≠ lock_key.
Proof. apply block_key_ne. discriminate. Qed.
Lemma block_key_num n b : block_deposits_key rs n b ≠ num_key.
Proof. apply block_key_ne. discriminate. Qed.
Lemma lock_num_ne : lock_key ≠ num_key.
Proof. intros H. unfold addKeyPrefix in H. apply (inj (String.append _)) in H. discriminate. Qed.

(** The part of the cache the task reads. *)
Definition same_deposits (m m' : gmap string RedisValue) : Prop :=
  ∀ b, m !! block_deposits_key rs 0 b = m' !! block_deposits_key rs 0 b.
Lemma deposits_at_same m m' b : same_deposits m m' → deposits_at m b = deposits_at m' b.
Proof. intros H. unfold deposits_at, hash_at. by rewrite H. Qed.
Lemma readable_at_same m m' b : same_deposits m m' → readable_at m b → readable_at m' b.
Proof. intros H. unfold readable_at, hash_at. by rewrite H. Qed.

Lemma decode_all_omap {A} {C : Codec A} (texts : list string) :
  Forall (λ t, is_Some (decode_text (A := A) t)) texts → decode_all texts = Ok (omap decode_text texts).
Proof.
  induction 1 as [|t texts [a Ha] _ IH]; cbn; [done|]. unfold unmarshal. rewrite Ha. cbn. by rewrite IH.
Qed.
(** The messages of blocks, block after block; within a block they come in the order
    Redis lists the deposits, which it leaves open. *)
Definition told (m : gmap string RedisValue) (blocks : list Z) (ps : list spawned) : Prop :=
  ∃ pss, ps = concat pss ∧ Forall2 (λ b l, l ≡ₚ SpawnAutoClaim <$> deposits_at m b) blocks pss.
Lemma told_nil m : told m [] [].
Proof. by exists []. Qed.
Lemma told_app m bs bs' ps ps' : told m bs ps → told m bs' ps' → told m (bs ++ bs') (ps ++ ps').
Proof.
  intros (l & -> & H) (l' & -> & H'). exists (l ++ l'). split; [by rewrite concat_app|by apply Forall2_app].
Qed.
Lemma told_block m b ds : ds ≡ₚ deposits_at m b → told m [b] (SpawnAutoClaim <$> ds).
Proof. intros H. exists [SpawnAutoClaim <$> ds]. split; [by cbn; rewrite app_nil_r|]. repeat constructor. by rewrite H. Qed.
Lemma told_same m m' bs ps : same_deposits m m' → told m bs ps → told m' bs ps.
Proof.
  intros Hs (l & -> & H). exists l. split; [done|]. eapply Forall2_impl; [exact H|]. intros b x. cbn. by rewrite (deposits_at_same m m').
Qed.
Lemma omap_perm {A B} (f : A → option B) l l' : l ≡ₚ l' → omap f l ≡ₚ omap f l'.
Proof. by intros ->. Qed.

Context {Up : RedisUp E} (Hclient : rs_client rs = true).

Lemma notify_block_up b s : readable_at (kept (tk_env s)) b → ∃ e' ds,
  notify_block cfg b s = (Ok tt, mkTask e' (tk_db s) (tk_spawned s ++ (SpawnAutoClaim <$> ds))) ∧
  kept e' = kept (tk_env s) ∧ ds ≡ₚ deposits_at (kept (tk_env s)) b.
Proof.
  intros [Hh Hr]. destruct (HVals_up (block_deposits_key rs 0 b) (tk_env s) Hh) as (l & e' & Hv).
  destruct (HVals_ok _ _ _ _ Hv) as [Hk Hl]. specialize (Hl l eq_refl).
  assert (Hdec : decode_all (A := Deposit) l = Ok (omap decode_text l)).
  { apply decode_all_omap. rewrite Hl. apply Forall_fmap, Forall_forall. intros [k t] Hin.
    apply elem_of_map_to_list in Hin. by apply (Hr k t). }
  exists e', (omap decode_text l). split_and!; [|done|by rewrite Hl].
  unfold notify_block, task_env, GetBlockDepositList, with_client, Wrap. rewrite Hclient.
  unfold mbind at 1, M_bind at 1, zoom. unfold mbind at 1, M_bind at 1, map_err. rewrite Hv.
  unfold lift_res. rewrite Hdec. exact (for_each_go _ _ (mkTask e' (tk_db s) (tk_spawned s))).
Qed.
Lemma notify_blocks_up bs : ∀ s, Forall (readable_at (kept (tk_env s))) bs → ∃ e' ps,
  for_each bs (notify_block cfg) s = (Ok tt, mkTask e' (tk_db s) (tk_spawned s ++ ps)) ∧
  kept e' = kept (tk_env s) ∧ told (kept (tk_env s)) bs ps.
Proof.
  induction bs as [|b bs IH]; intros s Hall.
  { exists (tk_env s), []. rewrite app_nil_r. destruct s. by split_and!; [| |apply told_nil]. }
  apply Forall_cons in Hall as [Hb Hall]. destruct (notify_block_up b s Hb) as (e1 & ds & H1 & Hk1 & Hp1).
  destruct (IH (mkTask e1 (tk_db s) (tk_spawned s ++ (SpawnAutoClaim <$> ds)))) as (e2 & ps & H2 & Hk2 & Hp2).
  { cbn. by rewrite Hk1. }
  exists e2, ((SpawnAutoClaim <$> ds) ++ ps). cbn [tk_env tk_db tk_spawned] in *. split_and!; [|congruence|].
  - cbn [for_each]. erewrite M_bind_ok by exact H1. rewrite H2. by rewrite <- app_assoc.
  - rewrite Hk1 in Hp2. apply (told_app _ [b] bs); [by apply told_block|done].
Qed.

(** The node answers, with a head that has reached block [h]. *)
Definition head_answers (h : Z) : Prop :=
  ∀ e, ∃ n e', BlockNumber e = (Ok n, e') ∧ kept e' = kept e ∧ 0 ≤ n < 2 ^ 63 ∧ h ≤ n.
Context (h : Z) (Hhead : head_answers h).

Lemma TryLock_up key e : kept e !! addKeyPrefix rs key = None →
  ∃ e', TryLock rs key e = (Ok true, e') ∧ kept e' = <[addKeyPrefix rs key := RString "1"]> (kept e).
Proof.
  intros Hfree. destruct (SetNX_up (addKeyPrefix rs key) (ArgBool true) lockExpire e) as (b & e' & H).
  pose proof (SetNX_ok _ _ _ _ _ _ H) as Hb. destruct b; [|destruct Hb as [[? ?] _]; congruence].
  exists e'. unfold TryLock, with_client, Wrap, map_err. rewrite Hclient, H. split; [done|apply Hb].
Qed.
Lemma ReleaseLock_up key e : ∃ e', ReleaseLock rs key e = (Ok tt, e') ∧ kept e' = delete (addKeyPrefix rs key) (kept e).
Proof.
  destruct (Del_up (addKeyPrefix rs key) e) as (e' & H). exists e'.
  unfold ReleaseLock, with_client, Wrap, map_err. rewrite Hclient, H. split; [done|by apply Del_ok].
Qed.
Lemma SetL1BlockNum_up n e : ∃ e', SetL1BlockNum rs n e = (Ok tt, e') ∧ kept e' = <[num_key := RString (pretty n)]> (kept e).
Proof.
  destruct (Set_up num_key (ArgInt n) 0 e) as (e' & H). exists e'.
  unfold SetL1BlockNum, with_client, Wrap, map_err. rewrite Hclient, H. split; [done|by apply Set_ok in H].
Qed.
Lemma GetL1BlockNum_up o e : stored_num o (kept e) → ∃ e', or_zero (GetL1BlockNum rs) e = (Ok o, e') ∧ kept e' = kept e.
Proof.
  intros [Hr Hs]. pose proof (Get_up num_key e) as Hg. destruct Hs as [Hs|[Hs ->]]; rewrite Hs in Hg; destruct Hg as (e' & Hg);
    pose proof (Get_ok _ _ _ _ Hg) as [Hk _]; exists e'; (split; [|done]);
    unfold or_zero, attempt, GetL1BlockNum, with_client, Wrap; unfold mbind, M_bind, map_err; rewrite Hclient, Hg; [|done].
  rewrite ParseInt_pretty, bool_decide_true by lia. unfold mret, M_ret, wrap64. by rewrite wrap_id by (unfold in_width; lia).
Qed.

(** A run of the work under the lock. *)
Lemma locked_up key (work : T unit) (P : Task E → Prop) (s : Task E) :
  kept (tk_env s) !! addKeyPrefix rs key = None →
  (∀ e, kept e = <[addKeyPrefix rs key := RString "1"]> (kept (tk_env s)) →
     ∃ s2, work (mkTask e (tk_db s) (tk_spawned s)) = (Ok tt, s2) ∧ P s2) →
  ∃ s2 e', P s2 ∧ locked cfg key work s = (Ok tt, mkTask e' (tk_db s2) (tk_spawned s2)) ∧
    kept e' = delete (addKeyPrefix rs key) (kept (tk_env s2)).
Proof.
  intros Hfree Hwork. destruct (TryLock_up key (tk_env s) Hfree) as (e & Hl & Hk).
  destruct (Hwork e Hk) as (s2 & Hw & HP). destruct (ReleaseLock_up key (tk_env s2)) as (e' & Hrel & Hk').
  exists s2, e'. split_and!; [done| |done].
  unfold locked, mbind at 1, M_bind at 1, task_env, attempt, zoom. rewrite Hl.
  unfold deferred, logged, attempt, mbind, M_bind. rewrite Hw. unfold zoom. cbn. by rewrite Hrel.
Qed.

Lemma confirmed_mono o n : o ≤ n → confirmed cfg o ≤ confirmed cfg n.
Proof. unfold confirmed. lia. Qed.
Lemma confirmed_blocks o n m : o ≤ n → n ≤ m →
  blocks_between (confirmed cfg o) (confirmed cfg n) ++ blocks_between (confirmed cfg n) (confirmed cfg m) =
  blocks_between (confirmed cfg o) (confirmed cfg m).
Proof.
  intros Hon Hnm. pose proof (confirmed_mono o n Hon). pose proof (confirmed_mono n m Hnm). unfold blocks_between.
  replace (confirmed cfg m - confirmed cfg o)
    with ((confirmed cfg n - confirmed cfg o) + (confirmed cfg m - confirmed cfg n)) by lia.
  rewrite seqZ_app by lia. f_equal. f_equal. lia.
Qed.

(** The state between two runs: the lock is free and the blocks are readable. *)
Definition between_runs (o : Z) (m : gmap string RedisValue) : Prop :=
  stored_num o m ∧ m !! lock_key = None ∧ ∀ b, readable_at m b.
Lemma between_runs_set o n m m' : between_runs o m → 0 ≤ n < 2 ^ 63 →
  m' = delete lock_key (<[num_key := RString (pretty n)]> (<[lock_key := RString "1"]> m)) →
  between_runs n m' ∧ same_deposits m m'.
Proof.
  intros (Hs & Hl & Hr) Hn ->. assert (Hsame : same_deposits m
    (delete lock_key (<[num_key := RString (pretty n)]> (<[lock_key := RString "1"]> m)))).
  { intros b. by rewrite lookup_delete_ne, !lookup_insert_ne by (apply not_eq_sym, block_key_lock || apply not_eq_sym, block_key_num). }
  split; [|done]. split_and!.
  - split; [done|]. left. rewrite lookup_delete_ne by apply lock_num_ne. by rewrite lookup_insert_eq.
  - by rewrite lookup_delete_eq.
  - intros b. by apply (readable_at_same m).
Qed.

Lemma notify_range o n s : Forall (readable_at (kept (tk_env s))) (blocks_between (confirmed cfg o) (confirmed cfg n)) →
  ∃ e' ps,
    (if bool_decide (confirmed cfg n ≤ confirmed cfg o) then mret tt
     else for_each (blocks_between (confirmed cfg o) (confirmed cfg n)) (notify_block cfg)) s =
    (Ok tt, mkTask e' (tk_db s) (tk_spawned s ++ ps)) ∧ kept e' = kept (tk_env s) ∧
    told (kept (tk_env s)) (blocks_between (confirmed cfg o) (confirmed cfg n)) ps.
Proof.
  intros Hall. destruct (notify_blocks_up _ s Hall) as (e' & ps & H & ?). exists e', ps. split; [|done].
  case_bool_decide as Hle; [|done]. rewrite <- H. unfold blocks_between. by rewrite seqZ_nil by lia.
Qed.

(** What a run has done: the number stored afterwards, and the goroutines. *)
Definition ran (s s' : Task E) (o o' : Z) : Prop := o ≤ o' ∧
  between_runs o' (kept (tk_env s')) ∧ same_deposits (kept (tk_env s)) (kept (tk_env s')) ∧
  ∃ ps, tk_spawned s' = tk_spawned s ++ ps ∧
    told (kept (tk_env s)) (blocks_between (confirmed cfg o) (confirmed cfg o')) ps.

Lemma doTask_run o (s : Task E) : between_runs o (kept (tk_env s)) →
  ∃ s' o', doTask cfg s = (Ok tt, s') ∧ ran s s' o o' ∧ h ≤ o'.
Proof.
  intros Hrun. pose proof Hrun as (Hs & Hl & Hr). set (m := kept (tk_env s)) in *. set (m1 := <[lock_key := RString "1"]> m).
  assert (Hsame1 : same_deposits m m1).
  { intros b. unfold m1. by rewrite lookup_insert_ne by (apply not_eq_sym, block_key_lock). }
  assert (Hs1 : stored_num o m1).
  { destruct Hs as [Ho Hs]. split; [done|]. unfold m1. by rewrite !lookup_insert_ne by apply lock_num_ne. }
  destruct (locked_up l1BlockNumTaskLockKey (notify_new_blocks cfg) (λ s2, ∃ o' ps, (o ≤ o' ∧ h ≤ o') ∧ 0 ≤ o' < 2 ^ 63 ∧
    (kept (tk_env s2) = m1 ∧ o' = o ∨ kept (tk_env s2) = <[num_key := RString (pretty o')]> m1) ∧
    tk_spawned s2 = tk_spawned s ++ ps ∧
    told m (blocks_between (confirmed cfg o) (confirmed cfg o')) ps)
    s Hl) as (s2 & e' & HP & Hdo & Hk).
  2: { destruct HP as (o' & ps & [Hle Hh] & Ho' & Hm & Hsp & Hps). eexists _, o'. split; [exact Hdo|]. split; [|done].
       unfold ran. cbn [tk_env tk_spawned]. split; [done|]. rewrite Hk.
       destruct Hm as [[-> ->]| ->].
       - unfold m1. rewrite delete_insert_id by done. split_and!; [done|done|]. by exists ps.
       - edestruct (between_runs_set o o' m) as [Hb Hsm]; [done|done|reflexivity|]. split_and!; [done|done|]. by exists ps. }
  intros e He. change (kept (tk_env s)) with m in He. fold m1 in He.
  destruct (Hhead e) as (n & e2 & Hn & Hk2 & Hnr & Hnh).
  destruct (GetL1BlockNum_up o e2) as (e3 & Ho & Hk3); [by rewrite Hk2, He|].
  assert (Hm3 : kept e3 = m1) by congruence.
  unfold notify_new_blocks. unfold mbind at 1, M_bind at 1, task_env, zoom. cbn [tk_env]. rewrite Hn.
  unfold mbind, M_bind. cbn [tk_env tk_db tk_spawned]. rewrite Ho.
  case_bool_decide as Hle.
  - eexists. split; [done|]. exists o, []. cbn. rewrite app_nil_r. destruct Hs. split_and!; [lia|lia|lia|lia|by left|done|].
    unfold blocks_between. rewrite seqZ_nil by lia. apply told_nil.
  - destruct (notify_range o n (mkTask e3 (tk_db s) (tk_spawned s))) as (e4 & ps & H4 & Hk4 & Hps).
    { apply Forall_forall. intros b _. cbn. rewrite Hm3. by apply (readable_at_same m). }
    cbn [tk_env tk_db tk_spawned] in *.
    destruct (SetL1BlockNum_up n e4) as (e5 & H5 & Hk5).
    eexists. split.
    + unfold deferred. rewrite H4. unfold logged, attempt, mbind, M_bind, zoom. cbn [tk_env]. rewrite H5. done.
    + exists n, ps. cbn. split_and!; [lia|lia|lia|lia|right; congruence|done|].
      rewrite Hm3 in Hps. apply (told_same m1); [intros b; by rewrite Hsame1|done].
Qed.

Fixpoint run_times (k : nat) (m : T unit) : T unit :=
  match k with O => mret tt | S k => m;; run_times k m end.
Lemma ran_trans s s1 s2 o o1 o2 : ran s s1 o o1 → ran s1 s2 o1 o2 → ran s s2 o o2.
Proof.
  intros (Hle1 & Hb1 & Hs1 & ps1 & Hsp1 & Hp1) (Hle2 & Hb2 & Hs2 & ps2 & Hsp2 & Hp2). split_and!; [lia|done| |].
  - intros b. by rewrite Hs1.
  - exists (ps1 ++ ps2). split; [by rewrite Hsp2, Hsp1, app_assoc|].
    rewrite <- (confirmed_blocks o o1 o2) by done. apply told_app; [done|]. apply (told_same (kept (tk_env s1))); [intros b; by rewrite Hs1|done].
Qed.

Lemma runs_of k : ∀ o (s : Task E), between_runs o (kept (tk_env s)) →
  ∃ s' o', run_times k (doTask cfg) s = (Ok tt, s') ∧ ran s s' o o' ∧ ((0 < k)%nat → h ≤ o').
Proof.
  induction k as [|k IH]; intros o s Hrun.
  - exists s, o. split; [done|]. split; [|lia]. split_and!; [lia|done|by intros b|]. exists []. rewrite app_nil_r.
    split; [done|]. unfold blocks_between. rewrite seqZ_nil by lia. apply told_nil.
  - destruct (doTask_run o s Hrun) as (s1 & o1 & H1 & Hran1 & Hh1).
    destruct (IH o1 s1) as (s2 & o2 & H2 & Hran2 & _); [apply Hran1|].
    exists s2, o2. split_and!; [cbn [run_times]; by erewrite M_bind_ok by exact H1|by eapply ran_trans|].
    intros _. destruct Hran2. lia.
Qed.

(** C26. While Redis and the node answer, any number of runs succeed.  Together they
    start the messages of the blocks that have become confirmed since the stored
    number, up to the head they store: the blocks in their order, each once, with
    one message for every deposit of the block.  Once a run has been made, the stored
    number has reached any head [h] the node had reached. *)
Theorem doTask_every_block_once k o (s : Task E) (Hrun : between_runs o (kept (tk_env s))) :
  ∃ s' o' ps, run_times k (doTask cfg) s = (Ok tt, s') ∧ o ≤ o' ∧ ((0 < k)%nat → h ≤ o') ∧
    between_runs o' (kept (tk_env s')) ∧ tk_spawned s' = tk_spawned s ++ ps ∧
    told (kept (tk_env s)) (blocks_between (confirmed cfg o) (confirmed cfg o')) ps.
Proof.
  destruct (runs_of k o s Hrun) as (s' & o' & H & (Hle & Hb & _ & ps & Hsp & Hps) & Hh).
  exists s', o', ps. by split_and!.
Qed.
End PushTaskFacts.

(** When the deposits of the first new block cannot be read, the whole range is
    skipped for ever: the new number is stored all the same, and no message of any
    of its blocks is started. *)
Theorem doTask_skips_unreadable `{RedisOk E, BatchNode E, Texts, Codec Deposit} cfg (s : Task E) n o err e1 e2 e3 e4 e5 e6
  (Hlock : TryLock (pt_redis cfg) l1BlockNumTaskLockKey (tk_env s) = (Ok true, e1))
  (Hhead : BlockNumber e1 = (Ok n, e2))
  (Hold : or_zero (GetL1BlockNum (pt_redis cfg)) e2 = (Ok o, e3))
  (Hnew : confirmed cfg o < confirmed cfg n)
  (Hfail : GetBlockDepositList (pt_redis cfg) 0 (confirmed cfg o + 1) e3 = (Err err, e4))
  (Hset : SetL1BlockNum (pt_redis cfg) n e4 = (Ok tt, e5))
  (Hrelease : ReleaseLock (pt_redis cfg) l1BlockNumTaskLockKey e5 = (Ok tt, e6)) :
  doTask cfg s = (Ok tt, mkTask e6 (tk_db s) (tk_spawned s)) ∧
  kept e5 !! addKeyPrefix (pt_redis cfg) l1BlockNumKey = Some (RString (pretty n)).
Proof.
  split.
  - unfold doTask, locked, mbind at 1, M_bind at 1, task_env, attempt, zoom. rewrite Hlock.
    assert (Hwork : notify_new_blocks cfg (mkTask e1 (tk_db s) (tk_spawned s)) =
              (Err err, mkTask e5 (tk_db s) (tk_spawned s))).
    { unfold notify_new_blocks. unfold mbind at 1, M_bind at 1, task_env, zoom. cbn [tk_env]. rewrite Hhead.
      unfold mbind at 1, M_bind at 1. cbn [tk_env tk_db tk_spawned]. rewrite Hold.
      rewrite !bool_decide_false by (first [lia|unfold confirmed in Hnew; lia]).
      assert (blocks_between (confirmed cfg o) (confirmed cfg n) =
        (confirmed cfg o + 1) :: seqZ (Z.succ (confirmed cfg o + 1)) (Z.pred (confirmed cfg n - confirmed cfg o))) as ->.
      { unfold blocks_between. by rewrite seqZ_cons by lia. }
      unfold deferred, logged, attempt. cbn [for_each]. unfold mbind, M_bind, notify_block, task_env, zoom. cbn [tk_env].
      unfold mbind, M_bind. cbn [tk_env tk_db tk_spawned]. rewrite Hfail. cbn. by rewrite Hset. }
    unfold deferred, logged, attempt, mbind, M_bind. rewrite Hwork. cbn. by rewrite Hrelease.
  - unfold SetL1BlockNum in Hset. by apply with_client_inv, Wrap_inv, Set_ok in Hset as ->; rewrite lookup_insert_eq.
Qed.
