(* ===== verification/EstimateTime.v ===== *)
(** * The estimate of the time of a deposit

    [xlayer/estimatetime/estimatetime.go]: the average of the minutes the last
    ready deposits of a network took, never above a default. *)
From S2P Require Import Prelude Types MerkleStore Tables Storage StorageFacts Redis GoFloat.

Definition estTimeSize : nat := 2.
Definition defaultL1EstimateTime : Z := 15.
Definition defaultL2EstimateTime : Z := 60.
Definition defaultSampleLimit : Z := 10.
Definition defaultEstTimeConfig : list Z := [defaultL1EstimateTime; defaultL2EstimateTime].

(** [calculatorImpl], with the storage it reads. *)
Record calculatorImpl := mkCalculator { ca_storage : database; ca_estimateTime : list Z }.

Section EstimateTime.
Context (unspecified : float64 → Z).
Abbreviation Ca := (M calculatorImpl).

Definition ca_db {A} (m : M database A) : Ca A := zoom ca_storage (λ db c, mkCalculator db (ca_estimateTime c)) m.

(** [deposit.Time.IsZero() || deposit.ReadyTime.IsZero() || deposit.Time.After(deposit.ReadyTime)]. *)
Definition invalid_times (d : Deposit) : bool :=
  bool_decide (dep_Time d = zero_time) || bool_decide (dep_ReadyTime d = zero_time) ||
  bool_decide (dep_Time d > dep_ReadyTime d).
Definition deposit_minutes (deposits : list Deposit) : list float64 :=
  (λ d, Minutes (Sub (dep_ReadyTime d) (dep_Time d))) <$> filter (λ d, invalid_times d = false) deposits.
Definition average (fMinutes : list float64) : float64 :=
  fdiv (fold_left fadd fMinutes (of_int 0)) (of_int (Z.of_nat (length fMinutes))).

Definition set_estimate (networkID newTime : Z) : Ca unit := λ c,
  match at_index (ca_estimateTime c) networkID with
  | Ok _ => (Ok tt, mkCalculator (ca_storage c) (<[Z.to_nat networkID := newTime]> (ca_estimateTime c)))
  | Err e => (Err e, c)
  | Panic p => (Panic p, c)
  end.
Definition refresh (networkID : Z) : Ca unit :=
  if bool_decide (networkID > 1) then throw (Errorf "invalid networkID %v" [networkID])
  else
    deposits ← ca_db (GetLatestReadyDeposits networkID defaultSampleLimit nil_tx);
    match deposit_minutes deposits with
    | [] => mret tt
    | fMinutes =>
        let newTime := uint32_of_ceil unspecified (average fMinutes) in
        defaultTime ← lift_res (at_index defaultEstTimeConfig networkID);
        set_estimate networkID (if bool_decide (newTime > defaultTime) then defaultTime else newTime)
    end.
(** Errors are logged. *)
Definition refreshAll : Ca unit :=
  for_each [0; 1] (λ i, _ ← attempt (refresh i); mret tt).
Definition NewCalculator (storage : database) : res unit * calculatorImpl :=
  refreshAll (mkCalculator storage defaultEstTimeConfig).
Definition Get_estimate (c : calculatorImpl) (networkID : Z) : res Z :=
  at_index (ca_estimateTime c) (if bool_decide (networkID = 0) then networkID else 1).

(** ** Bounds *)
Definition estimates_ok (c : calculatorImpl) : Prop :=
  Forall2 (λ t d, 0 ≤ t ≤ d) (ca_estimateTime c) defaultEstTimeConfig.
Lemma uint32_of_ceil_range f : 0 ≤ uint32_of_ceil unspecified f.
Proof.
  unfold uint32_of_ceil, to_uint. destruct (ceil f) as [z|]; [case_bool_decide; [lia|]|];
    apply (wrap_range 32); lia.
Qed.
Lemma set_estimate_ok i t c : estimates_ok c → 0 ≤ t →
  ∀ d, at_index defaultEstTimeConfig i = Ok d →
  ∃ c', set_estimate i (if bool_decide (t > d) then d else t) c = (Ok tt, c') ∧ estimates_ok c'.
Proof.
  intros Hc Ht d Hd. unfold set_estimate, at_index in *. case_bool_decide as Hi; [|done].
  destruct (defaultEstTimeConfig !! Z.to_nat i) as [x|] eqn:Hx; [|done]. injection Hd as ->.
  destruct (Forall2_lookup_r _ _ _ _ _ Hc Hx) as (y & Hy & Hyd). rewrite Hy.
  eexists. split; [done|]. unfold estimates_ok. cbn [ca_estimateTime].
  rewrite <- (list_insert_id _ _ _ Hx) at 1. apply Forall2_insert; [done|]. case_bool_decide; lia.
Qed.
Lemma refresh_ok i c : estimates_ok c → 0 ≤ i →
  ∃ r c', refresh i c = (r, c') ∧ estimates_ok c' ∧ ∀ p, r ≠ Panic p.
Proof.
  intros Hc Hi. unfold refresh. case_bool_decide as H1; [by eexists _, _|].
  unfold mbind, M_bind, ca_db, zoom.
  destruct (GetLatestReadyDeposits i defaultSampleLimit nil_tx (ca_storage c)) as [[deposits|err|p] db] eqn:Hg;
    [|by eexists _, _|].
  2: by apply query_no_panic in Hg.
  destruct (deposit_minutes deposits) as [|f fs]; [by eexists _, _|].
  set (c1 := mkCalculator db (ca_estimateTime c)). assert (Hc1 : estimates_ok c1) by done.
  assert (∃ d, at_index defaultEstTimeConfig i = Ok d) as [d Hd].
  { assert (i = 0 ∨ i = 1) as [-> | ->] by lia; by eexists. }
  unfold lift_res. rewrite Hd.
  destruct (set_estimate_ok i (uint32_of_ceil unspecified (average (f :: fs))) c1 Hc1 (uint32_of_ceil_range _) d Hd)
    as (c' & H & Hc'). rewrite H. by eexists _, _.
Qed.

Lemma refreshAll_ok c : estimates_ok c → ∃ c', refreshAll c = (Ok tt, c') ∧ estimates_ok c'.
Proof.
  intros Hc. destruct (refresh_ok 0 c Hc ltac:(lia)) as (r0 & c0 & H0 & Hc0 & Hp0).
  destruct (refresh_ok 1 c0 Hc0 ltac:(lia)) as (r1 & c1 & H1 & Hc1 & Hp1). exists c1. split; [|done].
  unfold refreshAll. cbn [for_each]. unfold mbind, M_bind, attempt. rewrite H0.
  destruct r0 as [| |p0]; [| |by destruct (Hp0 p0)]; cbn; rewrite H1;
    (destruct r1 as [| |p1]; [| |by destruct (Hp1 p1)]); reflexivity.
Qed.
Fixpoint refresh_times (k : nat) : Ca unit := match k with O => mret tt | S k => refreshAll;; refresh_times k end.

(** However often the estimates are refreshed, and whatever the deposits and the
    failures of the storage, they stay between zero and the default of their
    network, and asking for one never panics. *)
Theorem refreshAll_bounds k c (Hc : estimates_ok c) :
  ∃ c', refresh_times k c = (Ok tt, c') ∧ estimates_ok c' ∧
    ∀ net, 0 ≤ net → ∃ t, Get_estimate c' net = Ok t ∧ 0 ≤ t ≤ defaultL2EstimateTime.
Proof.
  assert (Hall : ∃ c', refresh_times k c = (Ok tt, c') ∧ estimates_ok c').
  { revert c Hc. induction k as [|k IH]; intros c Hc; [by exists c|]. cbn [refresh_times].
    destruct (refreshAll_ok c Hc) as (c1 & H1 & Hc1). destruct (IH c1 Hc1) as (c' & H & Hc'). exists c'. split; [|done].
    by rewrite (M_bind_ok _ _ _ _ _ H1). }
  destruct Hall as (c' & H & Hc'). exists c'. split_and!; [done|done|]. intros net Hnet.
  unfold estimates_ok, defaultEstTimeConfig in Hc'.
  destruct (Forall2_cons_inv_r _ _ _ _ Hc') as (t0 & l & Ht0 & Hl & Heq).
  destruct (Forall2_cons_inv_r _ _ _ _ Hl) as (t1 & l' & Ht1 & _ & ->).
  unfold Get_estimate. rewrite Heq. unfold defaultL1EstimateTime, defaultL2EstimateTime in *.
  case_bool_decide as Hn; [subst; exists t0|exists t1]; (split; [done|lia]).
Qed.
End EstimateTime.
