(* ===== verification/ClaimTxManager.v ===== *)
(** * The claim transaction manager

    [claimtxman/claimtxman.go] and [BuildSendClaim] of [utils/client.go]: when a
    global exit root arrives, the deposits it covers are made ready for claim, and
    those of the network the manager claims on get a claim transaction, with their
    proofs, in the same transaction of the storage. *)
From S2P Require Import Prelude Types GlobalIndex Hashing MonitoredTx MerkleStore MerkleTree Tables Storage.
From S2P Require Import EthClient TxMonitor BridgeService.

(** The arguments of [claimAsset] and [claimMessage]. *)
Record claim_args := mk_claim_args {
  ca_smtProof : list bytes;
  ca_smtRollupProof : list bytes;
  ca_globalIndex : Z;
  ca_mainnetExitRoot : bytes;
  ca_rollupExitRoot : bytes;
  ca_originNetwork : Z;
  ca_originAddress : bytes;
  ca_destinationNetwork : Z;
  ca_destinationAddress : bytes;
  ca_amount : Z;
  ca_metadata : bytes;
}.
(** The binding of the bridge contract, with [NoSend]: the address and the data of
    the transaction. *)
Class BridgeContract (E : Type) : Type := {
  ClaimAsset : claim_args → M E (option bytes * bytes);
  ClaimMessage : claim_args → M E (option bytes * bytes);
}.

Record ManagerConfig := mkManagerConfig {
  tm_txs : TxConfig;
  tm_l2NetworkID : Z;
  tm_From : bytes;                              (* auth.From *)
  tm_AuthorizedClaimMessageAddresses : list bytes;
  tm_AreClaimsBetweenL2sEnabled : bool;
}.
Definition mtHeight : nat := 32.

(** The claimer, and the cache of the bridge service. *)
Record ClaimTxManager (E C L : Type) := mkClaimTxManager {
  tm_claimer : Claimer E C;
  tm_lru : L;
}.
Arguments mkClaimTxManager {E C L}.
Arguments tm_claimer {E C L}.
Arguments tm_lru {E C L}.

Section Manager.
Context {K : Keccak} {Abi : TokenAbi} {Com : Common} {Txt : Texts} {E C L : Type} {Node : EthNode E}.
Context {Bridge : BridgeContract E} {NLru : NonceLru C} {Lru : LruCache L}.
Context (cfg : ManagerConfig) (service : bridgeService).
Abbreviation TM := (M (ClaimTxManager E C L)).

Definition on_claimer {A} (m : M (Claimer E C) A) : TM A :=
  zoom tm_claimer (λ c s, mkClaimTxManager c (tm_lru s)) m.
Definition on_store {A} (m : M database A) : TM A := on_claimer (store m).
Definition on_node {A} (m : M E A) : TM A := on_claimer (node m).
Definition on_service {A} (m : M (L * database) A) : TM A :=
  zoom (λ s, (tm_lru s, cl_db (tm_claimer s)))
    (λ p s, mkClaimTxManager (mkClaimer (cl_env (tm_claimer s)) (cl_nonces (tm_claimer s)) p.2) p.1) m.
Abbreviation rollupID := (tcf_rollupID (tm_txs cfg)).

(** No transaction and no error when the leaf is neither an asset nor a
    message. *)
Definition BuildSendClaim (deposit : Deposit) (smtProof smtRollupProof : list bytes)
    (mainnetExitRoot rollupExitRoot : bytes) : M E (option (option bytes * bytes)) :=
  let mainnetFlag := bool_decide (dep_NetworkID deposit = 0) in
  let rollupIndex := if mainnetFlag then 0 else wrap32 (dep_NetworkID deposit - 1) in
  globalIndex ← lift_res (GenerateGlobalIndex mainnetFlag rollupIndex (dep_DepositCount deposit));
  let args := mk_claim_args smtProof smtRollupProof globalIndex mainnetExitRoot rollupExitRoot
    (dep_OriginalNetwork deposit) (dep_OriginalAddress deposit) (dep_DestinationNetwork deposit)
    (dep_DestinationAddress deposit) (dep_Amount deposit) (dep_Metadata deposit) in
  let failed := ErrorfV "failed to build SendClaim tx, err: %v" in
  if bool_decide (dep_LeafType deposit = LeafTypeAsset) then map_err failed (claim ← ClaimAsset args; mret (Some claim))
  else if bool_decide (dep_LeafType deposit = LeafTypeMessage) then map_err failed (claim ← ClaimMessage args; mret (Some claim))
  else mret None.

Definition isDepositMessageAllowed (deposit : Deposit) : bool :=
  existsb (λ addr, bool_decide (dep_OriginalAddress deposit = addr)) (tm_AuthorizedClaimMessageAddresses cfg).

(** A claim whose gas cannot be estimated is dropped without an error. *)
Definition addClaimTx (depositID : Z) (from : bytes) (to : option bytes) (value : option Z) (data ger : bytes)
    (tx : Tx) : TM unit :=
  r ← on_claimer (estimate (tm_txs cfg) (mkCallMsg from to value data));
  match r with
  | inr _ => mret tt
  | inl gas =>
      nonce ← map_err (ErrorfV "rollupID: %d, failed to get current nonce: %v") (on_claimer (GetNextNonce from));
      map_err (ErrorfV "rollupID: %d, failed to add tx to get monitored: %v")
        (on_store (AddClaimTx (mkMonitoredTx depositID from to nonce value data gas None
           MonitoredTxStatusCreated ∅ zero_time zero_time None ger) tx))
  end.

(** [for i := 0; i < mtHeight; i++ { mtProof[i] = proof[i] }]. *)
Fixpoint proof_array (n : nat) (i : Z) (proof : list bytes) : res (list bytes) :=
  match n with
  | O => Ok []
  | S n => x ← at_index proof i; rest ← proof_array n (i + 1) proof; mret (x :: rest)
  end.

(** ** The deposits a global exit root makes ready *)
Definition trusted_ger (deposit : Deposit) (tx : Tx) : M database bytes :=
  GetLatestTrustedGERByDeposit (dep_DepositCount deposit) (dep_NetworkID deposit)
    (dep_DestinationNetwork deposit) tx.

Definition ready_deposits (ger : GlobalExitRoot) (tx : Tx) : M database (list Deposit * bytes) :=
  if bool_decide (ger_BlockID ger ≠ 0) && bool_decide (ger_NetworkID ger = 0) then
    root ← lift_res (at_index (ger_ExitRoots ger) 1);
    UpdateL2DepositsStatus root rollupID (tm_l2NetworkID cfg) tx;;
    if negb (tm_AreClaimsBetweenL2sEnabled cfg) then mret ([], ger_GlobalExitRoot ger)
    else
      deposits ← GetDepositsFromOtherL2ToClaim (tm_l2NetworkID cfg) tx;
      match deposits with
      | [] => mret ([], ger_GlobalExitRoot ger)
      | d :: _ =>
          r ← attempt (trusted_ger d tx);
          match r with
          | inl globalExitRoot => mret (deposits, globalExitRoot)
          | inr err =>
              if negb (errors_Is err ErrStorageNotFound) then throw err
              else
                r ← attempt (trusted_ger d tx);
                match r with
                | inl globalExitRoot => mret (deposits, globalExitRoot)
                | inr err => if errors_Is err ErrStorageNotFound then mret (deposits, zero_hash) else throw err
                end
          end
      end
  else
    root ← lift_res (at_index (ger_ExitRoots ger) 0);
    deposits ← UpdateL1DepositsStatus root (tm_l2NetworkID cfg) tx;
    mret (deposits, ger_GlobalExitRoot ger).

(** One ready deposit: ignored, or its claim is built and stored. *)
Definition claim_deposit (globalExitRoot : bytes) (tx : Tx) (deposit : Deposit) : TM unit :=
  if bool_decide (tm_l2NetworkID cfg ≠ dep_DestinationNetwork deposit) then mret tt
  else
    claimHash ← on_service (GetDepositStatus (dep_DepositCount deposit) (dep_NetworkID deposit)
                              (dep_DestinationNetwork deposit));
    if bool_decide (0 < length claimHash)%nat ||
       (bool_decide (dep_LeafType deposit = LeafTypeMessage) && negb (isDepositMessageAllowed deposit))
    then mret tt
    else
      '(g, proof, rollupProof) ← on_service (GetClaimProofForCompressed service globalExitRoot
                                   (dep_DepositCount deposit) (dep_NetworkID deposit) tx);
      mtProof ← lift_res (proof_array mtHeight 0 proof);
      mtRollupProof ← lift_res (proof_array mtHeight 0 rollupProof);
      root0 ← lift_res (at_index (ger_ExitRoots g) 0);
      root1 ← lift_res (at_index (ger_ExitRoots g) 1);
      claim ← on_node (BuildSendClaim deposit mtProof mtRollupProof root0 root1);
      match claim with
      | None => gopanic "invalid memory address or nil pointer dereference"
      | Some (to, data) =>
          addClaimTx (dep_Id deposit) (tm_From cfg) to None data (ger_GlobalExitRoot g) tx
      end.

Definition processDepositStatus (ger : GlobalExitRoot) (tx : Tx) : TM unit :=
  '(deposits, globalExitRoot) ← on_store (ready_deposits ger tx);
  for_each deposits (claim_deposit globalExitRoot tx).

Definition updateDepositsStatus (ger : GlobalExitRoot) : TM unit :=
  tx ← on_store BeginDBTransaction;
  r ← attempt (processDepositStatus ger tx);
  match r with
  | inr err => on_claimer (rollback_with tx err)
  | inl _ =>
      r ← attempt (on_store (Commit tx));
      match r with inl _ => mret tt | inr err => on_claimer (rollback_with tx err) end
  end.
End Manager.
