(* ===== verification/XLayerClaimTxManager.v ===== *)
(** * The claim transaction manager of X Layer

    [claimtxman/xlayer_claimtxman.go], [xlayer_claimtxman_helpers.go] and
    [utils/xlayer_client.go]: the deposits a global exit root makes ready, one
    transaction of the storage for all of them or one for each; the pass over the
    claims that were sent; and the messages to the front end, which are sent by
    goroutines. *)
From Stdlib Require Import Strings.String.
From S2P Require Import Prelude Types GlobalIndex Hashing MonitoredTx MerkleStore MerkleTree Tables Storage.
From S2P Require Import EthClient TxMonitor BridgeService Redis PushMessage PushTask ClaimTxManager.

Record XLayerConfig := mkXLayerConfig {
  xl_tm : ManagerConfig;
  xl_freeGas : bool;
  xl_optClaim : bool;
  xl_monitorTxsLimit : Z;
  xl_push : TaskConfig;       (* redisStorage, messagePushProducer *)
}.

(** The goroutines that are started: [pushTransactionUpdate] of a deposit, and
    the one that reads the deposit of a claim that failed first. *)
Inductive xspawned : Type :=
| PushUpdate (deposit : Deposit) (status : Z)
| PushFailedClaim (depositID : Z).

Record XLayerManager (E C L : Type) := mkXLayer {
  xm_tm : ClaimTxManager E C L;
  xm_spawned : list xspawned;
}.
Arguments mkXLayer {E C L}.
Arguments xm_tm {E C L}.
Arguments xm_spawned {E C L}.

Section XLayer.
Context {K : Keccak} {Abi : TokenAbi} {Com : Common} {Txt : Texts} {E C L : Type} {Node : EthNode E} {Run : Runtime E}.
Context {Bridge : BridgeContract E} {NLru : NonceLru C} {Lru : LruCache L}.
Context {Redis : RedisClient E} {Kafka : KafkaProducer E}.
Context (cfg : XLayerConfig) (service : bridgeService).
Abbreviation XM := (M (XLayerManager E C L)).
Abbreviation tm := (xl_tm cfg).
Abbreviation rollupID := (tcf_rollupID (tm_txs (xl_tm cfg))).

Definition on_tm {A} (m : M (ClaimTxManager E C L) A) : XM A := zoom xm_tm (λ t s, mkXLayer t (xm_spawned s)) m.
Definition x_store {A} (m : M database A) : XM A := on_tm (on_store m).
Definition x_node {A} (m : M E A) : XM A := on_tm (on_node m).
Definition x_claimer {A} (m : M (Claimer E C) A) : XM A := on_tm (on_claimer m).
Definition x_service {A} (m : M (L * database) A) : XM A := on_tm (on_service m).
Definition spawn (p : xspawned) : XM unit := modify (λ s, mkXLayer (xm_tm s) (xm_spawned s ++ [p])).

(** ** Messages *)
Definition pushTransactionUpdate (deposit : Deposit) (status : Z) : M E unit :=
  if negb (pt_producer (xl_push cfg)) then mret tt
  else if bool_decide (dep_LeafType deposit ≠ LeafTypeAsset) && negb (isDepositMessageAllowed tm deposit) then mret tt
  else
    estimateTime ← (if bool_decide (dep_NetworkID deposit ≠ 0) then GetAvgVerifyDuration (xl_push cfg) else mret 0);
    msg ← lift_res (status_message false (rollupID - 1) status estimateTime deposit);
    _ ← attempt (PushTransactionUpdate (pt_ids (xl_push cfg)) msg); mret tt.
Definition run_xspawned (p : xspawned) : XM unit :=
  match p with
  | PushUpdate deposit status => x_node (pushTransactionUpdate deposit status)
  | PushFailedClaim depositID =>
      r ← attempt (x_store (GetDeposit (wrap32 depositID) 0 nil_tx));
      match r with
      | inr _ => mret tt
      | inl deposit => x_node (pushTransactionUpdate deposit TX_PENDING_USER_CLAIM)
      end
  end.

(** ** Building a claim *)

(** The index of the rollup is the manager's own, also for a deposit of L1. *)
Definition BuildSendClaimXLayer (deposit : Deposit) (smtProof smtRollupProof : list bytes)
    (mainnetExitRoot rollupExitRoot : bytes) : M E (option (option bytes * bytes)) :=
  globalIndex ← lift_res (GenerateGlobalIndex (bool_decide (dep_NetworkID deposit = 0)) (wrap32 (rollupID - 1))
                            (dep_DepositCount deposit));
  let args destAddr := mk_claim_args smtProof smtRollupProof globalIndex mainnetExitRoot rollupExitRoot
    (dep_OriginalNetwork deposit) (dep_OriginalAddress deposit) (dep_DestinationNetwork deposit)
    destAddr (dep_Amount deposit) (dep_Metadata deposit) in
  let failed := ErrorfV "failed to build SendClaim tx, err: %v" in
  if bool_decide (dep_LeafType deposit = LeafTypeAsset) then
    map_err failed (claim ← ClaimAsset (args (dep_DestinationAddress deposit)); mret (Some claim))
  else if bool_decide (dep_LeafType deposit = LeafTypeMessage) then
    let destAddr := if bool_decide (dep_DestContractAddress deposit ≠ zero_address) then dep_DestContractAddress deposit
                    else dep_DestinationAddress deposit in
    map_err failed (claim ← ClaimMessage (args destAddr); mret (Some claim))
  else mret None.

(** A claim whose gas cannot be estimated is dropped without an error; the nonce
    is set when it is sent. *)
Definition addClaimTxXLayer (depositCount : Z) (from : bytes) (to : option bytes) (value : option Z) (data : bytes)
    (tx : Tx) : XM unit :=
  r ← x_claimer (estimate (tm_txs tm) (mkCallMsg from to value data));
  match r with
  | inr _ => mret tt
  | inl gas =>
      map_err (ErrorfV "failed to add tx to get monitored: %v")
        (x_store (AddClaimTx (mkMonitoredTx depositCount from to 0 value data gas None
           MonitoredTxStatusCreated ∅ zero_time zero_time None zero_hash) tx))
  end.

(** [Ignoring deposit]: another network, claimed already, or a message that is not
    allowed. *)
Definition ignored_deposit (deposit : Deposit) : XM bool :=
  if bool_decide (tm_l2NetworkID tm ≠ dep_DestinationNetwork deposit) then mret true
  else
    claimHash ← x_service (GetDepositStatus (dep_DepositCount deposit) (dep_NetworkID deposit)
                             (dep_DestinationNetwork deposit));
    mret (bool_decide (0 < length claimHash)%nat ||
          (bool_decide (dep_LeafType deposit = LeafTypeMessage) && negb (isDepositMessageAllowed tm deposit))).
Definition create_claim (deposit : Deposit) (tx : Tx) : XM unit :=
  '(g, proof, rollupProof) ← x_service (GetClaimProof service (dep_DepositCount deposit) (dep_NetworkID deposit) tx);
  mtProof ← lift_res (proof_array mtHeight 0 proof);
  mtRollupProof ← lift_res (proof_array mtHeight 0 rollupProof);
  root0 ← lift_res (at_index (ger_ExitRoots g) 0);
  root1 ← lift_res (at_index (ger_ExitRoots g) 1);
  claim ← x_node (BuildSendClaimXLayer deposit mtProof mtRollupProof root0 root1);
  match claim with
  | None => gopanic "invalid memory address or nil pointer dereference"
  | Some (to, data) =>
      addClaimTxXLayer (dep_DepositCount deposit) (tm_From tm) to None data tx;;
      x_node (DeleteBlockDeposit (pt_redis (xl_push cfg)) deposit)
  end.

(** ** The deposits a global exit root makes ready *)

(** When the commit fails the process ends: [log.Fatalf]. *)
Definition commit_or_exit (tx : Tx) : XM unit :=
  r ← attempt (x_store (Commit tx));
  match r with
  | inl _ => mret tt
  | inr _ => _ ← attempt (x_store (Rollback tx)); gopanic "log.Fatalf"
  end.
Definition x_rollback_with {A} (tx : Tx) (err : error) : XM A := x_claimer (rollback_with tx err).
(** [rollbackStore]: an error of the rollback is only logged. *)
Definition rollbackStore (tx : Tx) : XM unit := _ ← attempt (x_store (Rollback tx)); mret tt.

Definition processDepositStatusL2 (ger : GlobalExitRoot) : XM unit :=
  tx ← x_store BeginDBTransaction;
  root ← lift_res (at_index (ger_ExitRoots ger) 1);
  r ← attempt (x_store (UpdateL2DepositsStatusXLayer root rollupID (tm_l2NetworkID tm) tx));
  match r with
  | inr err => x_rollback_with tx err
  | inl deposits =>
      commit_or_exit tx;;
      for_each deposits (λ d, spawn (PushUpdate d TX_PENDING_USER_CLAIM))
  end.

Definition getDeposits (ger : GlobalExitRoot) : XM (list Deposit) :=
  root ← lift_res (at_index (ger_ExitRoots ger) 0); x_store (GetL1Deposits root nil_tx).
(** The work on one deposit in its transaction: whether it is ignored. *)
Definition claim_l1_deposit (deposit : Deposit) (tx : Tx) : XM bool :=
  x_store (UpdateL1DepositStatus (dep_DepositCount deposit) tx);;
  ignore ← ignored_deposit deposit;
  when (negb ignore) (create_claim deposit tx);;
  mret ignore.
Definition process_l1_deposit (deposit : Deposit) : XM unit :=
  tx ← x_store BeginDBTransaction;
  r ← attempt (claim_l1_deposit deposit tx);
  match r with
  | inr err => rollbackStore tx;; throw err
  | inl ignore =>
      commit_or_exit tx;;
      when (negb ignore) (spawn (PushUpdate deposit TX_PENDING_AUTO_CLAIM))
  end.
Definition processDepositStatusL1 (newGer : GlobalExitRoot) : XM unit :=
  deposits ← getDeposits newGer; for_each deposits process_l1_deposit.

Definition claim_ready_deposit (tx : Tx) (deposit : Deposit) : XM unit :=
  ignore ← ignored_deposit deposit;
  when (negb ignore)
    (create_claim deposit tx;; spawn (PushUpdate deposit TX_PENDING_AUTO_CLAIM)).
Definition processDepositStatusXLayer (ger : GlobalExitRoot) (tx : Tx) : XM unit :=
  if bool_decide (ger_BlockID ger ≠ 0) then
    root ← lift_res (at_index (ger_ExitRoots ger) 1);
    deposits ← x_store (UpdateL2DepositsStatusXLayer root rollupID (tm_l2NetworkID tm) tx);
    for_each deposits (λ d, spawn (PushUpdate d TX_PENDING_USER_CLAIM))
  else
    root ← lift_res (at_index (ger_ExitRoots ger) 0);
    deposits ← x_store (UpdateL1DepositsStatusXLayer root tx);
    for_each deposits (claim_ready_deposit tx).

Definition updateDepositsStatusXLayer (ger : GlobalExitRoot) : XM unit :=
  if xl_optClaim cfg then
    if bool_decide (ger_BlockID ger ≠ 0) then processDepositStatusL2 ger else processDepositStatusL1 ger
  else
    tx ← x_store BeginDBTransaction;
    r ← attempt (processDepositStatusXLayer ger tx);
    match r with
    | inr err => x_rollback_with tx err
    | inl _ => commit_or_exit tx
    end.

(** ** The pass over the claims *)

Definition setTxNonce (mTx : MonitoredTx) : XM MonitoredTx :=
  nonce ← map_err (ErrorfV "getNextNonce failed = %v") (x_claimer (GetNextNonce (mtx_From mTx)));
  mret (set_mtx_Nonce nonce mTx).
(** The gas may only grow; the nonce is not reviewed. *)
Definition ReviewMonitoredTxXLayer (mTx : MonitoredTx) : XM (MonitoredTx * option error) :=
  x_claimer (ReviewMonitoredTx (tm_txs tm) mTx false).

Definition is_nonce_error (err : error) : bool :=
  bool_decide (error_text err = "nonce too low"%string) || bool_decide (error_text err = "nonce too high"%string).
Definition x_update_logged (mTx : MonitoredTx) (tx : Tx) : XM unit := x_claimer (update_logged mTx tx).

(** When the network refuses the transaction its nonce goes back, and the
    transaction leaves the history. *)
Definition x_send_signed (h : bytes) (mTx : MonitoredTx) (isResetNonce : bool) : XM (MonitoredTx * bool) :=
  found ← attempt (x_node (TransactionByHash h));
  match found with
  | inl _ => mret (mTx, isResetNonce)
  | inr err =>
      if negb (errors_Is err ErrNotFound) then mret (mTx, isResetNonce)
      else
        sent ← attempt (x_node (SendTransaction h));
        match sent with
        | inl _ => mret (mTx, isResetNonce)
        | inr err =>
            let reset := is_nonce_error err && negb isResetNonce in
            when reset (x_claimer (Remove (mtx_From mTx)));;
            x_claimer (decr (mtx_From mTx));;
            '(mTx, _) ← ReviewMonitoredTxXLayer (RemoveHistory h mTx);
            mret (mTx, isResetNonce || reset)
        end
  end.

Definition x_resend (mTx : MonitoredTx) (hasFailedReceipts isResetNonce : bool) (tx : Tx) : XM bool :=
  '(mTx, reviewed) ← (if hasFailedReceipts then ReviewMonitoredTxXLayer mTx else mret (mTx, None));
  match reviewed with
  | Some _ => mret isResetNonce
  | None =>
      r ← attempt (if xl_freeGas cfg then mret 0 else x_node SuggestGasPrice);
      match r with
      | inr _ => mret isResetNonce
      | inl gasPrice =>
          r ← attempt (setTxNonce (set_mtx_GasPrice (Some (gasPrice * 10)) mTx));
          match r with
          | inr _ => mret isResetNonce
          | inl mTx =>
              r ← attempt (x_node (Signer (mtx_From mTx) (MonitoredTx_Tx mTx)));
              match r with
              | inr _ => mret isResetNonce
              | inl signedTx =>
                  '(mTx, isResetNonce) ← x_send_signed signedTx (add_history signedTx mTx) isResetNonce;
                  x_update_logged mTx tx;;
                  mret isResetNonce
              end
          end
      end
  end.

(** A claim that is in the table of claims already is confirmed; any other error
    of that query ends the pass. *)
Definition x_monitor_tx (mTx : MonitoredTx) (isResetNonce : bool) (tx : Tx) : XM bool :=
  r ← attempt (x_store (GetClaim (wrap32 (mtx_DepositID mTx)) 0 (tm_l2NetworkID tm) tx));
  match r with
  | inl _ => x_update_logged (set_mtx_Status MonitoredTxStatusConfirmed mTx) tx;; mret isResetNonce
  | inr err =>
      if bool_decide (err ≠ ErrStorageNotFound) then throw err
      else
        '(hasFailedReceipts, allHistoryTxMined, receiptSuccessful) ← x_claimer (checkTxHistory (tm_txs tm) mTx);
        if (receiptSuccessful : bool) then
          x_update_logged (set_mtx_Status MonitoredTxStatusConfirmed mTx) tx;; mret isResetNonce
        else if allHistoryTxMined && bool_decide (maxHistorySize ≤ size (mtx_History mTx))%nat then
          x_update_logged (set_mtx_Status MonitoredTxStatusFailed mTx) tx;;
          spawn (PushFailedClaim (mtx_DepositID mTx));;
          mret isResetNonce
        else if (allHistoryTxMined : bool) then x_resend mTx hasFailedReceipts isResetNonce tx
        else mret isResetNonce
  end.
Fixpoint x_monitor_all (mTxs : list MonitoredTx) (isResetNonce : bool) (tx : Tx) : XM unit :=
  match mTxs with
  | [] => mret tt
  | mTx :: mTxs => isResetNonce ← x_monitor_tx mTx isResetNonce tx; x_monitor_all mTxs isResetNonce tx
  end.

(** The errors that end the loop return with the transaction still open. *)
Definition monitorTxsXLayer : XM unit :=
  tx ← x_store BeginDBTransaction;
  r ← attempt (x_store (GetClaimTxsByStatusWithLimit [MonitoredTxStatusCreated] (xl_monitorTxsLimit cfg) 0 tx));
  match r with
  | inr err => x_rollback_with tx (ErrorfV "failed to get created monitored txs: %v" err)
  | inl mTxs =>
      x_monitor_all mTxs false tx;;
      r ← attempt (x_store (Commit tx));
      match r with inl _ => mret tt | inr err => x_rollback_with tx err end
  end.
End XLayer.
