(* ===== verification/ManagerLoop.v ===== *)
(** * The loop of a claim manager

    [Start] of [claimtxman/claimtxman.go] and [StartXLayer] of
    [claimtxman/xlayer_claimtxman.go]: the manager waits for the networks to be
    synced, takes the global exit roots from its channel and processes each one in
    a goroutine.  The goroutine reads the variable [ger] of the loop when it runs,
    not when it is started.  A goroutine runs in one step, in its own transaction
    of the storage. *)
From S2P Require Import Prelude Types Hashing MonitoredTx MerkleStore MerkleTree Tables Storage EthClient PendingTxs.
From S2P Require Import TxMonitor BridgeService Redis PushTask ClaimTxManager XLayerClaimTxManager.

(** What the [select] of the loop receives. *)
Inductive LoopEvent : Type :=
| SyncedEvent (netID : Z)            (* <-tm.chSynced *)
| GerEvent (g : GlobalExitRoot)      (* ger = <-tm.chExitRootEvent *)
| CompressorTick
| MonitorTick.
Inductive LoopLabel : Type := Receives (ev : LoopEvent) | Goroutine.

(** The manager, the variables of the loop, the goroutines that did not run yet,
    and the global exit roots [updateDepositsStatus] was called with. *)
Record LoopState (S : Type) := mkLoop {
  lp_manager : S;
  lp_l1Synced : bool;
  lp_l2Synced : bool;
  lp_ger : GlobalExitRoot;
  lp_latestProcessedGer : bytes;
  lp_pending : nat;
  lp_processed : list GlobalExitRoot;
}.
Arguments mkLoop {S}.
Arguments lp_manager {S}.
Arguments lp_l1Synced {S}.
Arguments lp_l2Synced {S}.
Arguments lp_ger {S}.
Arguments lp_latestProcessedGer {S}.
Arguments lp_pending {S}.
Arguments lp_processed {S}.

Definition empty_ger : GlobalExitRoot := mkGlobalExitRoot 0 0 [] zero_hash 0 0 zero_time.
Definition loop_start {S} (m : S) : LoopState S := mkLoop m false false empty_ger zero_hash 0 [].

Section Loop.
Context {S : Type} (l2NetworkID : Z) (groupingEnabled : bool).
Context (update : GlobalExitRoot → M S unit) (monitor : M S unit).
Abbreviation L := (M (LoopState S)).

Definition set_synced (netID : Z) (s : LoopState S) : LoopState S :=
  mkLoop (lp_manager s) (lp_l1Synced s || bool_decide (netID = 0)) (lp_l2Synced s || bool_decide (netID = l2NetworkID))
    (lp_ger s) (lp_latestProcessedGer s) (lp_pending s) (lp_processed s).
Definition set_ger (g : GlobalExitRoot) (s : LoopState S) : LoopState S :=
  mkLoop (lp_manager s) (lp_l1Synced s) (lp_l2Synced s) g (lp_latestProcessedGer s) (lp_pending s) (lp_processed s).
Definition set_latest (h : bytes) (s : LoopState S) : LoopState S :=
  mkLoop (lp_manager s) (lp_l1Synced s) (lp_l2Synced s) (lp_ger s) h (lp_pending s) (lp_processed s).
(** [go func() { ... }()]. *)
Definition start_goroutine (s : LoopState S) : LoopState S :=
  mkLoop (lp_manager s) (lp_l1Synced s) (lp_l2Synced s) (lp_ger s) (lp_latestProcessedGer s)
    (Datatypes.S (lp_pending s)) (lp_processed s).
Definition on_manager {A} (m : M S A) : L A :=
  zoom lp_manager (λ m s, mkLoop m (lp_l1Synced s) (lp_l2Synced s) (lp_ger s) (lp_latestProcessedGer s)
                            (lp_pending s) (lp_processed s)) m.

Definition on_event (ev : LoopEvent) : L unit :=
  match ev with
  | SyncedEvent netID => modify (set_synced netID)
  | GerEvent g =>
      modify (set_ger g);;
      s ← get;
      if lp_l2Synced s && lp_l1Synced s then
        if groupingEnabled then mret tt else modify start_goroutine
      else mret tt
  | CompressorTick =>
      s ← get;
      if lp_l2Synced s && lp_l1Synced s && groupingEnabled &&
         bool_decide (ger_GlobalExitRoot (lp_ger s) ≠ lp_latestProcessedGer s)
      then modify start_goroutine;; modify (set_latest (ger_GlobalExitRoot (lp_ger s)))
      else mret tt
  | MonitorTick => _ ← attempt (on_manager monitor); mret tt
  end.
(** The body of a goroutine: the call reads [ger] now; its error is logged. *)
Definition run_goroutine : L unit :=
  s ← get;
  match lp_pending s with
  | O => mret tt
  | Datatypes.S n =>
      modify (λ s, mkLoop (lp_manager s) (lp_l1Synced s) (lp_l2Synced s) (lp_ger s) (lp_latestProcessedGer s) n
                     (lp_processed s ++ [lp_ger s]));;
      _ ← attempt (on_manager (update (lp_ger s))); mret tt
  end.
Definition run_label (l : LoopLabel) : L unit :=
  match l with Receives ev => on_event ev | Goroutine => run_goroutine end.

(** ** Nothing is processed before the networks are synced *)
Section Inv.
Context (labels : list LoopLabel).
Definition received (g : GlobalExitRoot) : Prop := Receives (GerEvent g) ∈ labels.
Record loop_inv (s : LoopState S) : Prop := {
  li_l1 : lp_l1Synced s = true → Receives (SyncedEvent 0) ∈ labels;
  li_l2 : lp_l2Synced s = true → Receives (SyncedEvent l2NetworkID) ∈ labels;
  li_ger : received (lp_ger s) ∨ ger_GlobalExitRoot (lp_ger s) = lp_latestProcessedGer s ∧ lp_pending s = 0%nat;
  li_active : lp_pending s ≠ 0%nat ∨ lp_processed s ≠ [] → lp_l1Synced s = true ∧ lp_l2Synced s = true;
  li_processed : Forall received (lp_processed s);
}.

Lemma on_manager_loop {A} (m : M S A) s r s' : on_manager m s = (r, s') → ∃ x,
  s' = mkLoop x (lp_l1Synced s) (lp_l2Synced s) (lp_ger s) (lp_latestProcessedGer s) (lp_pending s) (lp_processed s).
Proof. unfold on_manager, zoom. destruct (m (lp_manager s)) as [r1 x]. intros [= _ <-]. by exists x. Qed.
Lemma logged_manager {A} (m : M S A) s r s' : (_ ← attempt (on_manager m); mret tt) s = (r, s') → ∃ x,
  s' = mkLoop x (lp_l1Synced s) (lp_l2Synced s) (lp_ger s) (lp_latestProcessedGer s) (lp_pending s) (lp_processed s).
Proof.
  unfold mbind, M_bind, attempt. destruct (on_manager m s) as [[a|e|p] s1] eqn:E1; intros [= _ <-];
    exact (on_manager_loop _ _ _ _ E1).
Qed.

Lemma inv_label l s r s' : l ∈ labels → loop_inv s → run_label l s = (r, s') → loop_inv s'.
Proof.
  intros Hl [H1 H2 Hg Ha Hp]. destruct l as [[netID|g| |]|]; cbn [run_label on_event].
  - intros [= _ <-]. constructor; cbn; [..|done].
    + intros [H|H]%orb_true_iff; [by apply H1|]. apply bool_decide_eq_true in H as ->. done.
    + intros [H|H]%orb_true_iff; [by apply H2|]. apply bool_decide_eq_true in H as ->. done.
    + done.
    + intros [-> ->]%Ha. done.
  - unfold mbind, M_bind, modify, get. cbn.
    destruct (lp_l2Synced s) eqn:E2, (lp_l1Synced s) eqn:E1; cbn; (destruct groupingEnabled; cbn);
      intros [= _ <-]; constructor; cbn; rewrite ?E1, ?E2; eauto; by left.
  - unfold mbind, M_bind, modify, get. cbn.
    destruct (lp_l2Synced s) eqn:E2, (lp_l1Synced s) eqn:E1, groupingEnabled; cbn; try (by intros [= _ <-]; constructor; rewrite ?E1, ?E2).
    case_bool_decide as Hne; cbn; intros [= _ <-]; constructor; cbn; rewrite ?E1, ?E2; eauto.
    left. destruct Hg as [Hg|[Hg _]]; [done|by destruct Hne].
  - intros [x ->]%logged_manager. by constructor.
  - unfold run_goroutine, mbind at 1, M_bind at 1, get. cbn. destruct (lp_pending s) as [|n] eqn:En; [by intros [= _ <-]; constructor; rewrite ?En|].
    unfold mbind at 1, M_bind at 1, modify. cbn. intros [x ->]%logged_manager.
    assert (Hrec : received (lp_ger s)) by (by destruct Hg as [Hg|[_ ?]]). constructor; cbn; [done|done|by left|intros _; apply Ha; by left|].
    apply Forall_app. split; [done|]. by constructor.
Qed.
Lemma inv_labels ls s r s' : (∀ l, l ∈ ls → l ∈ labels) → loop_inv s → for_each ls run_label s = (r, s') → loop_inv s'.
Proof.
  revert s. induction ls as [|l ls IH]; intros s Hsub Hs; cbn; [by intros [= _ <-]|].
  unfold mbind, M_bind. destruct (run_label l s) as [[u|e|p] s1] eqn:El;
    assert (H1 : loop_inv s1) by (eapply inv_label; [|exact Hs|exact El]; apply Hsub; by left);
    [|by intros [= _ <-]..]. apply IH; [|done]. intros l' Hl'. apply Hsub. by right.
Qed.
End Inv.

(** C31. Whatever the order of the events and of the goroutines, and whatever the
    processing answers: a global exit root that is processed was received from the
    channel, and by then both networks had told that they are synced. *)
Theorem nothing_before_synced labels m r s'
  (E1 : for_each labels run_label (loop_start m) = (r, s')) :
  Forall (received labels) (lp_processed s') ∧
  (lp_processed s' ≠ [] → Receives (SyncedEvent 0) ∈ labels ∧ Receives (SyncedEvent l2NetworkID) ∈ labels).
Proof.
  assert (Hi : loop_inv labels s').
  { refine (inv_labels labels labels _ _ _ (λ _ H, H) _ E1). constructor; cbn; [done|done|by right|by intros [?|?]|done]. }
  split; [by destruct Hi|]. intros Hne. destruct Hi as [H1 H2 _ Ha _]. destruct Ha as [? ?]; [by right|]. auto.
Qed.

(** ** One event after the other *)

(** The goroutines run before the next event is received. *)
Definition run_in_turn (ev : LoopEvent) : L unit := on_event ev;; run_goroutine.
(** The global exit roots that arrive when both networks are synced. *)
Fixpoint gers_after_sync (l1 l2 : bool) (evs : list LoopEvent) : list GlobalExitRoot :=
  match evs with
  | [] => []
  | SyncedEvent n :: evs => gers_after_sync (l1 || bool_decide (n = 0)) (l2 || bool_decide (n = l2NetworkID)) evs
  | GerEvent g :: evs => if l2 && l1 then g :: gers_after_sync l1 l2 evs else gers_after_sync l1 l2 evs
  | _ :: evs => gers_after_sync l1 l2 evs
  end.

Lemma logged_ok {A} (m : M S A) s : (∀ x p x', m x ≠ (Panic p, x')) →
  ∃ x, (_ ← attempt (on_manager m); mret tt) s =
    (Ok tt, mkLoop x (lp_l1Synced s) (lp_l2Synced s) (lp_ger s) (lp_latestProcessedGer s) (lp_pending s) (lp_processed s)).
Proof.
  intros Hm. unfold mbind, M_bind, attempt, on_manager, zoom. destruct (m (lp_manager s)) as [[a|e|p] x] eqn:E1;
    [by exists x..|by destruct (Hm (lp_manager s) p x)].
Qed.

Context (Hupdate : ∀ g x p x', update g x ≠ (Panic p, x')) (Hmonitor : ∀ x p x', monitor x ≠ (Panic p, x')).

Lemma run_in_turn_ok ev s : groupingEnabled = false → lp_pending s = 0%nat → ∃ s', run_in_turn ev s = (Ok tt, s') ∧
  lp_pending s' = 0%nat ∧ lp_l1Synced s' = (lp_l1Synced s || match ev with SyncedEvent n => bool_decide (n = 0) | _ => false end) ∧
  lp_l2Synced s' = (lp_l2Synced s || match ev with SyncedEvent n => bool_decide (n = l2NetworkID) | _ => false end) ∧
  lp_processed s' = lp_processed s ++ gers_after_sync (lp_l1Synced s) (lp_l2Synced s) [ev].
Proof.
  intros Hg Hp. unfold run_in_turn. destruct ev as [n|g| |].
  - eexists. cbn. unfold mbind, M_bind, run_goroutine, mbind, M_bind, get. cbn. rewrite Hp. cbn. split; [done|]. by rewrite app_nil_r.
  - cbn [on_event gers_after_sync]. rewrite Hg, !orb_false_r. unfold mbind at 1, M_bind at 1. unfold mbind at 1, M_bind at 1, modify at 1.
    unfold mbind at 1, M_bind at 1, get at 1. cbn -[run_goroutine].
    destruct (lp_l2Synced s) eqn:E2, (lp_l1Synced s) eqn:E1; cbn -[run_goroutine].
    { unfold run_goroutine, mbind at 1, M_bind at 1, get. cbn. rewrite Hp. unfold mbind at 1, M_bind at 1, modify. cbn.
      destruct (logged_ok (update g) (mkLoop (lp_manager s) (lp_l1Synced s) (lp_l2Synced s) g (lp_latestProcessedGer s) 0 (lp_processed s ++ [g])) (Hupdate g)) as [x Hx].
      cbn in Hx. rewrite Hx. eexists. split; [done|]. cbn. done. }
    all: unfold run_goroutine, mbind, M_bind, get; cbn; rewrite Hp; eexists; split; [reflexivity|]; cbn; by rewrite app_nil_r.
  - assert (Hev : on_event CompressorTick s = (Ok tt, s)).
    { cbn [on_event]. unfold mbind, M_bind, get. by rewrite Hg, andb_false_r. }
    unfold mbind at 1, M_bind at 1. rewrite Hev. unfold run_goroutine, mbind, M_bind, get. cbn. rewrite Hp.
    eexists. split; [reflexivity|]. cbn. by rewrite !orb_false_r, app_nil_r.
  - cbn [on_event]. destruct (logged_ok monitor s Hmonitor) as [x Hx]. unfold mbind at 1, M_bind at 1. rewrite Hx.
    unfold run_goroutine, mbind, M_bind, get. cbn. rewrite Hp. eexists. split; [reflexivity|]. cbn. by rewrite !orb_false_r, app_nil_r.
Qed.

(** When the goroutines keep up with the channel, the global exit roots that are
    processed are those that arrive after both networks are synced, each one once
    and in order; those that arrive before are dropped. *)
Theorem gers_processed_in_turn evs m (Hg : groupingEnabled = false) :
  ∃ s', for_each evs run_in_turn (loop_start m) = (Ok tt, s') ∧ lp_processed s' = gers_after_sync false false evs.
Proof.
  assert (∀ s, lp_pending s = 0%nat → ∃ s', for_each evs run_in_turn s = (Ok tt, s') ∧
    lp_processed s' = lp_processed s ++ gers_after_sync (lp_l1Synced s) (lp_l2Synced s) evs) as Hall.
  { induction evs as [|ev evs IH]; intros s Hp; [exists s; by rewrite app_nil_r|].
    destruct (run_in_turn_ok ev s Hg Hp) as (s1 & E1 & Hp1 & H1 & H2 & Hproc). destruct (IH s1 Hp1) as (s2 & E2 & Hs2).
    exists s2. cbn [for_each]. split; [unfold mbind, M_bind; by rewrite E1|].
    rewrite Hs2, Hproc, <- app_assoc, H1, H2. f_equal. destruct ev; cbn; rewrite ?orb_false_r; try done. by destruct (_ && _). }
  destruct (Hall (loop_start m) eq_refl) as (s' & E1 & Hs'). by exists s'.
Qed.

(** When two global exit roots arrive before the goroutine of the first one runs,
    the second one is processed twice and the first one never. *)
Theorem captured_ger_is_lost g1 g2 s (Hg : groupingEnabled = false) (Hp : lp_pending s = 0%nat)
  (H1 : lp_l1Synced s = true) (H2 : lp_l2Synced s = true) :
  ∃ s', for_each [Receives (GerEvent g1); Receives (GerEvent g2); Goroutine; Goroutine] run_label s = (Ok tt, s') ∧
    lp_pending s' = 0%nat ∧ lp_processed s' = lp_processed s ++ [g2; g2].
Proof.
  destruct s as [x l1 l2 g lg n pr]. cbn in *. subst l1 l2 n.
  assert (Hrecv : ∀ g x g' k, run_label (Receives (GerEvent g)) (mkLoop x true true g' lg k pr) =
    (Ok tt, mkLoop x true true g lg (Datatypes.S k) pr)).
  { intros. cbn [run_label on_event]. unfold mbind, M_bind, modify, get. cbn. by rewrite Hg. }
  assert (Hrun : ∀ x k pr, ∃ x', run_label Goroutine (mkLoop x true true g2 lg (Datatypes.S k) pr) =
    (Ok tt, mkLoop x' true true g2 lg k (pr ++ [g2]))).
  { intros x0 k pr0. cbn [run_label]. unfold run_goroutine, mbind at 1, M_bind at 1, get. cbn.
    unfold mbind at 1, M_bind at 1, modify. cbn. 
    destruct (logged_ok (update g2) (mkLoop x0 true true g2 lg k (pr0 ++ [g2])) (Hupdate g2)) as [x' Hx'].
    exists x'. exact Hx'. }
  destruct (Hrun x 1%nat pr) as [x1 H1]. destruct (Hrun x1 0%nat (pr ++ [g2])) as [x2 H2].
  exists (mkLoop x2 true true g2 lg 0 ((pr ++ [g2]) ++ [g2])).
  split; [|split; [done|cbn; by rewrite <- app_assoc]]. cbn [for_each].
  erewrite M_bind_ok by apply Hrecv. erewrite M_bind_ok by apply Hrecv. erewrite M_bind_ok by exact H1.
  erewrite M_bind_ok by exact H2. reflexivity.
Qed.
End Loop.

(** ** The two managers *)
Section Managers.
Context {K : Keccak} {Abi : TokenAbi} {Com : Common} {Txt : Texts} {E C L : Type} {Node : EthNode E} {Run : Runtime E}.
Context {Bridge : BridgeContract E} {NLru : NonceLru C} {Lru : LruCache L} {Redis : RedisClient E}.

(** [Start], with the monitor the manager was made with, and [StartXLayer], whose
    monitor has a goroutine of its own. *)
Definition Start (cfg : ManagerConfig) (groupingEnabled : bool) (service : bridgeService)
    (monitorTxs : M (ClaimTxManager E C L) unit) (l : LoopLabel) : M (LoopState (ClaimTxManager E C L)) unit :=
  run_label (tm_l2NetworkID cfg) groupingEnabled (updateDepositsStatus cfg service) monitorTxs l.
Definition StartXLayer (cfg : XLayerConfig) (groupingEnabled : bool) (service : bridgeService) (l : LoopLabel) :
    M (LoopState (XLayerManager E C L)) unit :=
  run_label (tm_l2NetworkID (xl_tm cfg)) groupingEnabled (updateDepositsStatusXLayer cfg service) (monitorTxsXLayer cfg) l.
End Managers.
