(* ===== verification/TokenLogo.v ===== *)
(** * Logos of tokens

    [xlayer/tokenlogoinfo]: the transactions of an answer get the logos of their
    tokens from Redis, or from the logo service, whose answer is kept in Redis.
    The map from keys to pointers of transactions is the list of the transactions
    with the key of each one. *)
From Stdlib Require Import Strings.String.
From stdpp Require Import pretty.
From S2P Require Import Prelude Types EthClient Redis PushMessage.

Record QueryLogoParam := mkQueryLogoParam { ql_ChainId : Z; ql_TokenContractAddress : string }.
(** The HTTP request: the list [Data] of the answer. *)
Class LogoService (E : Type) : Type := getLogoInfoBatch : list QueryLogoParam → M E (list LogoInfo).

Definition ChainNativeTokenAddr : string := "0x0000000000000000000000000000000000000000".
Definition GetTokenLogoMapKey (tokenAddr : string) (chainId : Z) : string :=
  let tokenAddr := if bool_decide (tokenAddr = ChainNativeTokenAddr) then ""%string else tokenAddr in
  (ToLower tokenAddr +:+ "_" +:+ pretty chainId)%string.

Section Logos.
Context {E : Type} {Redis : RedisClient E} {Run : Runtime E} {Logos : LogoService E} {LogoCodec : Codec LogoInfo}.
Context (rs : redisStorageImpl) (ids : ChainIds) (enabled : bool).

Definition bridge_token (tx : Transaction) : string := string_of_list_byte (tr_BridgeToken tx).
Definition chain_of (tx : Transaction) : Z := GetChainIdByNetworkId ids (tr_OriginalNetwork tx).
Definition logo_key (tx : Transaction) : string := GetTokenLogoMapKey (bridge_token tx) (chain_of tx).

Definition fillOneTxLogoInfo (logoInfo : LogoInfo) (t : Transaction) : Transaction :=
  mkTransaction (tr_FromChain t) (tr_ToChain t) (tr_BridgeToken t) (tr_TokenAmount t) (tr_EstimateTime t)
    (tr_Status t) (tr_Time t) (tr_TxHash t) (tr_ClaimTxHash t) (tr_ClaimTime t) (tr_FromChainId t) (tr_ToChainId t)
    (tr_Id t) (tr_Index t) (tr_Metadata t) (tr_DestAddr t) (tr_LeafType t) (tr_BlockNumber t) (tr_GlobalIndex t)
    (tr_DestContractAddr t)
    (Some (mkTokenLogoInfo (li_TokenSymbol logoInfo) (li_TokenName logoInfo) (li_LogoOssUrl logoInfo) (li_Unit logoInfo)))
    (tr_OriginalNetwork t).
(** [for _, tx := range transactionMap[k] { fillOneTxLogoInfo(tx, v) }]. *)
Definition fill_key (k : string) (v : LogoInfo) (txs : list Transaction) : list Transaction :=
  (λ tx, if bool_decide (logo_key tx = k) then fillOneTxLogoInfo v tx else tx) <$> txs.
Definition with_key (k : string) (txs : list Transaction) : list Transaction := filter (λ tx, logo_key tx = k) txs.

Definition buildQueryLogoParams (noCacheTokenMap : gmap Z (list string)) : M E (list QueryLogoParam) :=
  chains ← MapRange (fst <$> map_to_list noCacheTokenMap);
  mret (mjoin ((λ k, (λ addr,
    mkQueryLogoParam k (if bool_decide (addr = ChainNativeTokenAddr) then ""%string else addr)) <$>
    default [] (noCacheTokenMap !! k)) <$> chains)).
(** A row whose chain is not a number is left out. *)
Definition logo_map (data : list LogoInfo) : gmap string LogoInfo :=
  fold_left (λ m v, match ParseInt (li_ChainIdStr v) with
                    | Some chainId => <[GetTokenLogoMapKey (li_TokenContractAddress v) (wrap32 chainId) := v]> m
                    | None => m
                    end) data ∅.
Definition GetTokenLogoInfos (params : list QueryLogoParam) : M E (gmap string LogoInfo) :=
  if negb enabled then mret ∅ else data ← getLogoInfoBatch params; mret (logo_map data).

(** The keys, with what is in Redis and what has to be asked for. *)
Fixpoint cached_logos (keys : list string) (txs : list Transaction) (noCacheTokenMap : gmap Z (list string))
    : M E (list Transaction * gmap Z (list string)) :=
  match keys with
  | [] => mret (txs, noCacheTokenMap)
  | k :: keys =>
      r ← attempt (GetTokenLogoInfo rs k);
      match r, with_key k txs with
      | inl logoInfo, _ => cached_logos keys (fill_key k logoInfo txs) noCacheTokenMap
      | inr _, first :: _ =>
          let chainId := chain_of first in
          cached_logos keys txs
            (<[chainId := default [] (noCacheTokenMap !! chainId) ++ [bridge_token first]]> noCacheTokenMap)
      | inr _, [] => gopanic "index out of range"
      end
  end.
Fixpoint asked_logos (keys : list string) (tokenLogoMap : gmap string LogoInfo) (txs : list Transaction)
    : M E (list Transaction) :=
  match keys with
  | [] => mret txs
  | k :: keys =>
      match tokenLogoMap !! k with
      | None => asked_logos keys tokenLogoMap txs
      | Some v => _ ← attempt (SetTokenLogoInfo rs k v); asked_logos keys tokenLogoMap (fill_key k v txs)
      end
  end.
Definition FillLogoInfos (txs : list Transaction) : M E (list Transaction) :=
  keys ← MapRange (remove_dups (logo_key <$> txs));
  '(txs, noCacheTokenMap) ← cached_logos keys txs ∅;
  if bool_decide (noCacheTokenMap = ∅) then mret txs
  else
    logoParams ← buildQueryLogoParams noCacheTokenMap;
    r ← attempt (GetTokenLogoInfos logoParams);
    match r with
    | inr _ => mret txs
    | inl tokenLogoMap =>
        keys ← MapRange (fst <$> map_to_list tokenLogoMap);
        asked_logos keys tokenLogoMap txs
    end.
End Logos.
