(* ===== verification/LocalCache.v ===== *)
(** * The cache of the main coins

    [xlayer/localcache/maincoinscache.go], [GetAllMainCoins] of
    [db/pgstorage/xlayer_pgstorage.go] and the endpoint [GetMainCoins] of
    [server/xlayer_service.go]: the coins are read in pages into a map by network,
    and the endpoint changes the coins of the map it answers with. *)
From S2P Require Import Prelude Types MerkleStore Tables Hex BridgeService Redis PushMessage.

Record CoinInfo := mkCoinInfo {
  coin_Symbol : string; coin_Name : string; coin_Decimals : Z; coin_ChainId : Z; coin_NetworkId : Z;
  coin_LogoLink : string; coin_Address : bytes;
}.
(** [common.main_coins], in the order of the ids; the address is the raw one. *)
Record main_coin_row := mkMainCoinRow { mc_coin : CoinInfo; mc_is_deleted : bool }.
(** The table and the failures of the connection. *)
Record CoinStorage := mkCoinStorage { cs_rows : list main_coin_row; cs_faults : list (option fault) }.

Definition queryLimit : Z := 100.
Definition maxRetries : Z := 5.

Definition set_coin_Address (address : bytes) (c : CoinInfo) : CoinInfo :=
  mkCoinInfo (coin_Symbol c) (coin_Name c) (coin_Decimals c) (coin_ChainId c) (coin_NetworkId c) (coin_LogoLink c) address.
Definition set_coin_ChainId (chainId : Z) (c : CoinInfo) : CoinInfo :=
  mkCoinInfo (coin_Symbol c) (coin_Name c) (coin_Decimals c) chainId (coin_NetworkId c) (coin_LogoLink c) (coin_Address c).
Definition scan_coin (r : main_coin_row) : CoinInfo :=
  set_coin_Address (if bool_decide (coin_Address (mc_coin r) = []) then [] else EncodeToHex (coin_Address (mc_coin r))) (mc_coin r).
Definition all_coins (rows : list main_coin_row) : list CoinInfo := scan_coin <$> filter (λ r, mc_is_deleted r = false) rows.
(** As in the other readers, a read that breaks off gives the rows before. *)
Definition GetAllMainCoins (limit offset : Z) : M CoinStorage (list CoinInfo) := λ s,
  let rows := page limit offset (all_coins (cs_rows s)) in
  (match cs_faults s with
   | Some (Refused code) :: _ => Err (ErrExternal code)
   | Some (Broken n _) :: _ => Ok (take n rows)
   | _ => Ok rows
   end, mkCoinStorage (cs_rows s) (tail (cs_faults s))).

(** networkID to coins. *)
Abbreviation coins_by_network := (gmap Z (list CoinInfo)).
Record mainCoinsCacheImpl := mkMainCoinsCache { mcc_data : coins_by_network; mcc_storage : CoinStorage }.

Definition add_coin (newData : coins_by_network) (coin : CoinInfo) : coins_by_network :=
  <[coin_NetworkId coin := default [] (newData !! coin_NetworkId coin) ++ [coin]]> newData.
(** The loop; [None] when the fuel is used up. *)
Fixpoint refresh_loop (fuel : nat) (offset retryCnt : Z) (newData : coins_by_network) : M CoinStorage (option coins_by_network) :=
  match fuel with
  | O => mret None
  | S fuel =>
      r ← attempt (GetAllMainCoins queryLimit offset);
      match r with
      | inr err => if bool_decide (maxRetries ≤ retryCnt) then throw err else refresh_loop fuel offset (retryCnt + 1) newData
      | inl coins =>
          let newData := fold_left add_coin coins newData in
          if bool_decide (Z.of_nat (length coins) < queryLimit) then mret (Some newData)
          else refresh_loop fuel offset 0 newData
      end
  end.
Definition doRefresh (fuel : nat) : M mainCoinsCacheImpl bool :=
  r ← zoom mcc_storage (λ st c, mkMainCoinsCache (mcc_data c) st) (refresh_loop fuel 0 0 ∅);
  match r with
  | None => mret false
  | Some newData => modify (λ c, mkMainCoinsCache newData (mcc_storage c));; mret true
  end.
Definition GetMainCoinsByNetwork (networkID : Z) : M mainCoinsCacheImpl (list CoinInfo) :=
  gets (λ c, default [] (mcc_data c !! networkID)).
Definition GetCoinInfoByAddress `{Common} (networkID : Z) (address : bytes) : M mainCoinsCacheImpl CoinInfo :=
  coins ← GetMainCoinsByNetwork networkID;
  match filter (λ coin, HexToAddress (coin_Address coin) = address) coins with
  | coin :: _ => mret coin
  | [] => throw ErrStorageNotFound
  end.

(** The coins of the answer are those of the cache: the endpoint writes the inner
    chain id into them. *)
Definition inner_coin (ids : ChainIds) (coin : CoinInfo) : CoinInfo :=
  set_coin_ChainId (GetInnerChainIdByStandardId ids (coin_ChainId coin)) coin.
Definition GetMainCoins (ids : ChainIds) (networkID : Z) : M mainCoinsCacheImpl (list CoinInfo) :=
  coins ← GetMainCoinsByNetwork networkID;
  let coins := inner_coin ids <$> coins in
  when (negb (bool_decide (coins = [])))
    (modify (λ c, mkMainCoinsCache (<[networkID := coins]> (mcc_data c)) (mcc_storage c)));;
  mret coins.

(** ** What the cache holds *)

Definition coins_of (networkID : Z) (coins : list CoinInfo) : list CoinInfo :=
  filter (λ c, coin_NetworkId c = networkID) coins.
Lemma add_coins_lookup coins data networkID :
  default [] (fold_left add_coin coins data !! networkID) = default [] (data !! networkID) ++ coins_of networkID coins.
Proof.
  revert data. induction coins as [|c coins IH]; intros data; cbn [fold_left]; [by rewrite app_nil_r|].
  rewrite IH. unfold add_coin, coins_of. rewrite filter_cons. case_decide as Hc.
  - subst. rewrite lookup_insert_eq. cbn. by rewrite <- app_assoc.
  - by rewrite lookup_insert_ne by done.
Qed.

(** Failures that come one after the other at the start of a refresh: the statement
    is refused. *)
Definition refused (f : option fault) : Prop := ∃ code, f = Some (Refused code).
Lemma refresh_loop_small fuel fails rows rest retryCnt data :
  (length fails < fuel)%nat → Forall refused fails → retryCnt + Z.of_nat (length fails) ≤ maxRetries →
  head rest = None ∨ head rest = Some None →
  Z.of_nat (length (all_coins rows)) < queryLimit →
  refresh_loop fuel 0 retryCnt data (mkCoinStorage rows (fails ++ rest)) =
    (Ok (Some (fold_left add_coin (all_coins rows) data)), mkCoinStorage rows (tail rest)).
Proof.
  revert retryCnt data fuel. induction fails as [|f fails IH]; intros retryCnt data fuel Hfuel Hall Hretry Hrest Hsize;
    (destruct fuel as [|fuel]; [lia|]); cbn [refresh_loop]; unfold mbind, M_bind, attempt, GetAllMainCoins; cbn -[page].
  - assert (page queryLimit 0 (all_coins rows) = all_coins rows) as Hpage.
    { unfold page. rewrite drop_0. apply take_ge. unfold queryLimit in *. lia. }
    destruct rest as [|[c|] rest]; cbn in Hrest; [|by destruct Hrest as [?|?]|];
      cbn -[page]; fold (all_coins rows); by rewrite Hpage, bool_decide_true by done.
  - inversion Hall as [|? ? [c ->] Hall']; subst. cbn -[page]. rewrite bool_decide_false by (cbn in Hretry; lia).
    apply IH; [cbn in Hfuel; lia|done|cbn in Hretry; lia|done|done].
Qed.

(** Fewer than a hundred coins: after at most five refused statements in a row the
    refresh ends, and every network has its coins in the order of the table. *)
Theorem doRefresh_small fuel fails rest rows data
  (Hfuel : (length fails < fuel)%nat) (Hfails : Forall refused fails) (Hretry : Z.of_nat (length fails) ≤ maxRetries)
  (Hrest : head rest = None ∨ head rest = Some None) (Hsize : Z.of_nat (length (all_coins rows)) < queryLimit) :
  ∃ c, doRefresh fuel (mkMainCoinsCache data (mkCoinStorage rows (fails ++ rest))) = (Ok true, c) ∧
    ∀ networkID, GetMainCoinsByNetwork networkID c = (Ok (coins_of networkID (all_coins rows)), c).
Proof.
  unfold doRefresh, mbind, M_bind, zoom. cbn [mcc_storage].
  rewrite (refresh_loop_small fuel fails rows rest 0 ∅ Hfuel Hfails) by (done || lia). cbn.
  eexists. split; [reflexivity|]. intros networkID. unfold GetMainCoinsByNetwork, gets. cbn. by rewrite add_coins_lookup, lookup_empty.
Qed.

Lemma refresh_loop_full fuel rows newData : queryLimit ≤ Z.of_nat (length (all_coins rows)) →
  refresh_loop fuel 0 0 newData (mkCoinStorage rows []) = (Ok None, mkCoinStorage rows []).
Proof.
  intros Hsize. revert newData. induction fuel as [|fuel IH]; intros newData; [done|]. cbn [refresh_loop]. unfold mbind, M_bind, attempt, GetAllMainCoins. cbn -[page].
  rewrite bool_decide_false; [apply IH|]. fold (all_coins rows). unfold page. rewrite drop_0, length_take. unfold queryLimit in *. lia.
Qed.
Lemma doRefresh_full fuel data rows : queryLimit ≤ Z.of_nat (length (all_coins rows)) →
  doRefresh fuel (mkMainCoinsCache data (mkCoinStorage rows [])) = (Ok false, mkMainCoinsCache data (mkCoinStorage rows [])).
Proof. intros Hsize. unfold doRefresh, mbind, M_bind, zoom. cbn [mcc_storage]. by rewrite refresh_loop_full. Qed.

(** From a hundred coins on, the refresh reads the first page for ever: no number
    of iterations ends it while the connection works, and the cache keeps what it had. *)
Theorem doRefresh_never_ends fuel data rows (Hsize : queryLimit ≤ Z.of_nat (length (all_coins rows))) :
  doRefresh fuel (mkMainCoinsCache data (mkCoinStorage rows [])) =
    (Ok false, mkMainCoinsCache data (mkCoinStorage rows [])).
Proof. by apply doRefresh_full. Qed.

(** The requests to the endpoint, one after the other. *)
Fixpoint ask_times (ids : ChainIds) (networkID : Z) (k : nat) : M mainCoinsCacheImpl (list CoinInfo) :=
  match k with O => GetMainCoinsByNetwork networkID | S k => _ ← GetMainCoins ids networkID; ask_times ids networkID k end.
(** Every request maps the chain ids in the cache once more: the [k]-th answer has
    been mapped [k] times. *)
Theorem GetMainCoins_maps_again ids networkID k c :
  ∃ c', ask_times ids networkID k c = (Ok (Nat.iter k (fmap (inner_coin ids)) (default [] (mcc_data c !! networkID))), c').
Proof.
  revert c. induction k as [|k IH]; intros c; [by eexists|]. cbn [ask_times].
  set (coins := default [] (mcc_data c !! networkID)).
  assert (∃ c1, GetMainCoins ids networkID c = (Ok (inner_coin ids <$> coins), c1) ∧
    default [] (mcc_data c1 !! networkID) = inner_coin ids <$> coins) as (c1 & E1 & Hc1).
  { unfold GetMainCoins, GetMainCoinsByNetwork, gets, mbind, M_bind, when. cbn. fold coins. case_bool_decide as Hnil; cbn.
    - eexists. split; [done|]. fold coins. rewrite Hnil. by apply fmap_nil_inv in Hnil as ->.
    - eexists. split; [done|]. cbn. by rewrite lookup_insert_eq. }
  unfold mbind, M_bind. rewrite E1. destruct (IH c1) as [c' E2]. exists c'. rewrite E2, Hc1.
  by rewrite Nat.iter_succ_r.
Qed.
