(* ===== verification/XLayerService.v ===== *)
(** * The endpoints of X Layer

    [server/xlayer_service.go], [xlayer_helpers.go], [utils/xlayer_client.go]
    ([SendClaimXLayer]), [utils/xlayer_largetxcachekeyhelper.go] and
    [xlayer/utils/helpers.go]: the transactions of an account with their status,
    the claim that a user asks for, and the prices and large transactions kept in
    Redis.  An endpoint always answers: with data, or with a code and a text. *)
From Stdlib Require Import Strings.String.
From stdpp Require Import pretty.
From S2P Require Import Prelude Types GlobalIndex Hashing MonitoredTx MerkleStore MerkleTree Tables Storage MessageBridge.
From S2P Require Import EthClient Hex BridgeService Redis PushMessage GoFloat PushTask EstimateTime TxMonitor ClaimTxManager TokenLogo.

(** Code and Msg of an answer without data. *)
Inductive response (A : Type) : Type := Answer (data : A) | Failed (msg : string).
Arguments Answer {A} data.
Arguments Failed {A} msg.

Record pb_MonitoredTx := mk_pb_MonitoredTx {
  pm_Id : Z; pm_From : bytes; pm_To : bytes; pm_Nonce : Z; pm_Value : string; pm_Data : bytes; pm_Gas : Z;
  pm_GasPrice : string; pm_Status : MonitoredTxStatus; pm_CreatedAt : Z; pm_UpdatedAt : Z; pm_History : list bytes;
}.
Record ProofDetail := mkProofDetail {
  pfd_SmtProof : list bytes; pfd_RollupSmtProof : list bytes; pfd_MainnetExitRoot : bytes; pfd_RollupExitRoot : bytes;
}.

(** The contract binding of a node client that sends the transaction, and its
    hash. *)
Class BridgeSender (E : Type) : Type := {
  SendClaimAsset : Z → claim_args → M E bytes;
  SendClaimMessage : Z → claim_args → M E bytes;
}.
(** The local calendar: year, month, day and hour of a time. *)
Class Calendar : Type := { Date : Z → Z * Z * Z; Hour : Z → Z }.

Definition defaultMinDuration : Z := 1.
Definition minReadyTimeLimitForWaitClaimSeconds : Z := 24 * 60 * 1000.

Record XService (E C : Type) := mkXService { xv_env : E; xv_cache : C; xv_db : database }.
Arguments mkXService {E C}.
Arguments xv_env {E C}.
Arguments xv_cache {E C}.
Arguments xv_db {E C}.

(** [UnixMilli]; the zero time is the year 1. *)
Definition UnixMilli (t : Z) : Z := if bool_decide (t = zero_time) then -62135596800000 else t / 1000000.

Section Endpoints.
Context {K : Keccak} {Abi : TokenAbi} {Com : Common} {Txt : Texts} {Cal : Calendar} {E C : Type} {Lru : LruCache C}.
Context {Redis : RedisClient E} {Run : Runtime E} {Logos : LogoService E} {Sender : BridgeSender E}.
Context {LogoCodec : Codec LogoInfo} {PriceCodec : Codec SymbolPrice} {LargeCodec : Codec LargeTxInfo}.
Context (unspecified : float64 → Z).
Context (service : bridgeService) (task : TaskConfig) (rollup : Z) (logosEnabled : bool).
(** [nodeClientsMap]: the networks with a client; and the estimates. *)
Context (clients : gset Z) (calculator : calculatorImpl).
Abbreviation XS := (M (XService E C)).
Abbreviation rs := (pt_redis task).
Abbreviation ids := (pt_ids task).

Definition xv_node {A} (m : M E A) : XS A := zoom xv_env (λ e s, mkXService e (xv_cache s) (xv_db s)) m.
Definition xv_store {A} (m : M database A) : XS A := zoom xv_db (λ db s, mkXService (xv_env s) (xv_cache s) db) m.
Definition xv_service {A} (m : M (C * database) A) : XS A :=
  zoom (λ s, (xv_cache s, xv_db s)) (λ p s, mkXService (xv_env s) p.1 p.2) m.

(** ** Transactions *)

Definition getGlobalIndex (deposit : Deposit) : res Z :=
  GenerateGlobalIndex (bool_decide (dep_NetworkID deposit = 0)) (wrap32 (dep_NetworkID deposit - 1)) (dep_DepositCount deposit).
Definition EthermanDepositToPbTransaction (d : Deposit) : Transaction :=
  mkTransaction (dep_NetworkID d) (dep_DestinationNetwork d) (Address_Hex (dep_OriginalAddress d)) (pretty (dep_Amount d))
    0 0 (wrap64 (UnixMilli (dep_Time d))) (Hash_String (dep_TxHash d)) [] 0
    (GetChainIdByNetworkId ids (dep_NetworkID d)) (GetChainIdByNetworkId ids (dep_DestinationNetwork d))
    (dep_Id d) (dep_DepositCount d) (EncodeToHex (dep_Metadata d)) (Address_Hex (dep_DestinationAddress d))
    (dep_LeafType d) (dep_BlockNumber d) "" (Address_Hex (dep_DestContractAddress d)) None (dep_OriginalNetwork d).

Definition set_tr_estimate (estimate status : Z) (globalIndex : string) (t : Transaction) : Transaction :=
  mkTransaction (tr_FromChain t) (tr_ToChain t) (tr_BridgeToken t) (tr_TokenAmount t) estimate
    status (tr_Time t) (tr_TxHash t) (tr_ClaimTxHash t) (tr_ClaimTime t) (tr_FromChainId t) (tr_ToChainId t) (tr_Id t) (tr_Index t)
    (tr_Metadata t) (tr_DestAddr t) (tr_LeafType t) (tr_BlockNumber t) globalIndex (tr_DestContractAddr t)
    (tr_LogoInfo t) (tr_OriginalNetwork t).
Definition set_tr_Status (status : Z) (t : Transaction) : Transaction :=
  set_tr_estimate (tr_EstimateTime t) status (tr_GlobalIndex t) t.
Definition set_tr_EstimateTime (estimate : Z) (t : Transaction) : Transaction :=
  set_tr_estimate estimate (tr_Status t) (tr_GlobalIndex t) t.
Definition set_tr_Claim (hash : bytes) (time : Z) (t : Transaction) : Transaction :=
  mkTransaction (tr_FromChain t) (tr_ToChain t) (tr_BridgeToken t) (tr_TokenAmount t) (tr_EstimateTime t)
    (tr_Status t) (tr_Time t) (tr_TxHash t) hash time (tr_FromChainId t) (tr_ToChainId t) (tr_Id t) (tr_Index t)
    (tr_Metadata t) (tr_DestAddr t) (tr_LeafType t) (tr_BlockNumber t) (tr_GlobalIndex t) (tr_DestContractAddr t)
    (tr_LogoInfo t) (tr_OriginalNetwork t).
(** A deposit with its estimate, its global index and a first status. *)
Definition listed (status : Z) (deposit : Deposit) : res Transaction :=
  estimate ← Get_estimate calculator (dep_NetworkID deposit);
  globalIndex ← getGlobalIndex deposit;
  mret (set_tr_estimate estimate status (pretty globalIndex) (EthermanDepositToPbTransaction deposit)).

(** What an answer reads once: the numbers in Redis, 0 when they cannot be read,
    the averages and the time. *)
Record Heads := mkHeads {
  hd_l1BlockNum : Z; hd_l2CommitBlockNum : Z; hd_l2AvgCommitDuration : Z; hd_l2AvgVerifyDuration : Z; hd_currTime : Z;
}.
Definition or_default (m : M E Z) : M E Z := r ← attempt m; mret (match r with inl z => z | inr _ => 0 end).
Definition read_heads : M E Heads :=
  l1BlockNum ← or_default (GetL1BlockNum rs);
  l2CommitBlockNum ← or_default (GetCommitMaxBlockNum rs);
  l2AvgCommitDuration ← GetAvgCommitDuration task;
  l2AvgVerifyDuration ← GetAvgVerifyDuration task;
  currTime ← Now;
  mret (mkHeads l1BlockNum l2CommitBlockNum l2AvgCommitDuration l2AvgVerifyDuration currTime).

Definition setDurationForL2Deposit (h : Heads) (tx : Transaction) (depositCreateTime : Z) : M E Transaction :=
  duration ←
    (if bool_decide (tr_Status tx = TX_CREATED)
     then mret (GetLeftCommitTime unspecified depositCreateTime (hd_l2AvgCommitDuration h) (hd_currTime h))
     else GetLeftVerifyTime unspecified task (tr_BlockNumber tx) depositCreateTime (hd_l2AvgCommitDuration h)
            (hd_l2AvgVerifyDuration h) (hd_currTime h));
  mret (set_tr_EstimateTime (if bool_decide (duration ≤ 0) then defaultMinDuration else wrap32 duration) tx).

(** A deposit that is not ready. *)
Definition waiting_status (h : Heads) (deposit : Deposit) : Z :=
  if bool_decide (dep_NetworkID deposit = 0) then
    if bool_decide (pt_confirmations task ≤ wrap64 (hd_l1BlockNum h - dep_BlockNumber deposit))
    then TX_PENDING_AUTO_CLAIM else TX_CREATED
  else if bool_decide (dep_BlockNumber deposit ≤ hd_l2CommitBlockNum h) then TX_PENDING_VERIFICATION else TX_CREATED.
Definition waiting (h : Heads) (deposit : Deposit) (tx : Transaction) : M E Transaction :=
  let tx := set_tr_Status (waiting_status h deposit) tx in
  if bool_decide (dep_NetworkID deposit = 0) then mret tx else setDurationForL2Deposit h tx (dep_Time deposit).
(** A ready deposit without a claim: the manager may be claiming it. *)
Definition ready_status (deposit : Deposit) : M database Z :=
  if bool_decide (dep_NetworkID deposit = 0) then
    r ← attempt (GetClaimTxById (dep_DepositCount deposit) nil_tx);
    mret (match r with
          | inl mTx => if bool_decide (mtx_Status mTx ≠ MonitoredTxStatusFailed) then TX_PENDING_AUTO_CLAIM else TX_PENDING_USER_CLAIM
          | inr _ => TX_PENDING_USER_CLAIM
          end)
  else mret TX_PENDING_USER_CLAIM.
Definition inner_ids (tx : Transaction) : Transaction :=
  set_tr_ChainIds (inner_chain_id ids (tr_FromChainId tx)) (inner_chain_id ids (tr_ToChainId tx)) tx.

Definition pending_transaction (h : Heads) (deposit : Deposit) : XS Transaction :=
  deposit ← lift_res (ReplaceDepositInfo (pt_processors task) false deposit);
  tx ← lift_res (listed TX_CREATED deposit);
  tx ← (if dep_ReadyForClaim deposit then status ← xv_store (ready_status deposit); mret (set_tr_Status status tx)
        else xv_node (waiting h deposit tx));
  mret (inner_ids tx).
(** The claim of a deposit: an error of the storage is the answer of the endpoint. *)
Definition any_transaction (h : Heads) (deposit : Deposit) : XS (response Transaction) :=
  deposit ← lift_res (ReplaceDepositInfo (pt_processors task) false deposit);
  tx ← lift_res (listed TX_CREATED deposit);
  if dep_ReadyForClaim deposit then
    claim ← attempt (xv_store (GetClaim (dep_DepositCount deposit) (dep_NetworkID deposit) (dep_DestinationNetwork deposit) nil_tx));
    match claim with
    | inl claim =>
        mret (Answer (inner_ids (set_tr_Claim (Hash_String (clm_TxHash claim)) (wrap64 (UnixMilli (clm_Time claim)))
                                   (set_tr_Status TX_CLAIMED tx))))
    | inr err =>
        if negb (errors_Is err ErrStorageNotFound) then mret (Failed (error_text (ErrorfW "load claim error" err)))
        else status ← xv_store (ready_status deposit); mret (Answer (inner_ids (set_tr_Status status tx)))
    end
  else tx ← xv_node (waiting h deposit tx); mret (Answer (inner_ids tx)).

Fixpoint each_x {A B} (f : A → XS B) (l : list A) : XS (list B) :=
  match l with [] => mret [] | x :: l => y ← f x; ys ← each_x f l; mret (y :: ys) end.
Fixpoint each_response {A B} (f : A → XS (response B)) (l : list A) : XS (response (list B)) :=
  match l with
  | [] => mret (Answer [])
  | x :: l =>
      y ← f x;
      match y with
      | Failed msg => mret (Failed msg)
      | Answer y => ys ← each_response f l; mret (match ys with Answer ys => Answer (y :: ys) | Failed msg => Failed msg end)
      end
  end.

(** One more row than the page is read, to know whether there are more. *)
Definition page_of {A} (limit : Z) (rows : list A) : bool * list A :=
  let hasNext := bool_decide (limit < Z.of_nat (length rows)) in
  (hasNext, if hasNext then take (Z.to_nat limit) rows else rows).

Definition GetPendingTransactions (destAddr : bytes) (limit offset : Z) : XS (response (bool * list Transaction)) :=
  let limit := page_limit service limit in
  deposits ← attempt (xv_store (Storage.GetPendingTransactions (FromHex destAddr) (wrap32 (limit + 1)) offset
                                  (GetContractAddressList (pt_processors task)) rollup nil_tx));
  match deposits with
  | inr _ => mret (Failed (error_text ErrInternalErrorForRpcCall))
  | inl deposits =>
      let '(hasNext, deposits) := page_of limit deposits in
      h ← xv_node read_heads;
      txs ← each_x (pending_transaction h) deposits;
      txs ← xv_node (FillLogoInfos rs ids logosEnabled txs);
      mret (Answer (hasNext, txs))
  end.
Definition GetAllTransactions (destAddr : bytes) (limit offset : Z) : XS (response (bool * list Transaction)) :=
  let limit := page_limit service limit in
  deposits ← attempt (xv_store (GetDepositsXLayer (FromHex destAddr) (wrap32 (limit + 1)) offset
                                  (GetContractAddressList (pt_processors task)) rollup nil_tx));
  match deposits with
  | inr _ => mret (Failed (error_text ErrInternalErrorForRpcCall))
  | inl deposits =>
      let '(hasNext, deposits) := page_of limit deposits in
      h ← xv_node read_heads;
      txs ← each_response (any_transaction h) deposits;
      match txs with
      | Failed msg => mret (Failed msg)
      | Answer txs => txs ← xv_node (FillLogoInfos rs ids logosEnabled txs); mret (Answer (hasNext, txs))
      end
  end.
Definition GetNotReadyTransactions (limit offset : Z) : XS (response (bool * list Transaction)) :=
  let limit := page_limit service limit in
  deposits ← attempt (xv_store (Storage.GetNotReadyTransactions (wrap32 (limit + 1)) offset rollup nil_tx));
  match deposits with
  | inr err => mret (Failed (error_text err))
  | inl deposits =>
      let '(hasNext, deposits) := page_of limit deposits in
      txs ← each_x (λ d, lift_res (listed TX_CREATED d)) deposits;
      mret (Answer (hasNext, txs))
  end.
Definition GetReadyPendingTransactions (networkId limit offset : Z) : XS (response (bool * list Transaction)) :=
  let limit := page_limit service limit in
  now ← xv_node Now;
  let minReadyTime := now - minReadyTimeLimitForWaitClaimSeconds * 1000000000 in
  deposits ← attempt (xv_store (Storage.GetReadyPendingTransactions networkId (wrap32 (limit + 1)) offset minReadyTime rollup nil_tx));
  match deposits with
  | inr _ => mret (Failed "")
  | inl deposits =>
      let '(hasNext, deposits) := page_of limit deposits in
      txs ← each_x (λ d, lift_res (listed TX_PENDING_USER_CLAIM d)) deposits;
      mret (Answer (hasNext, txs))
  end.

(** [String] of a nil [big.Int] is "<nil>". *)
Definition big_String (z : option Z) : string := match z with Some z => pretty z | None => "<nil>" end.
Definition to_pb_MonitoredTx (mTx : MonitoredTx) : M E pb_MonitoredTx :=
  match mtx_To mTx with
  | None => gopanic "invalid memory address or nil pointer dereference"
  | Some to =>
      history ← MapRange (elements (mtx_History mTx));
      mret (mk_pb_MonitoredTx (mtx_DepositID mTx) (Address_Hex (mtx_From mTx)) (Address_Hex to) (mtx_Nonce mTx)
        (big_String (mtx_Value mTx)) (EncodeToHex (mtx_Data mTx)) (mtx_Gas mTx) (big_String (mtx_GasPrice mTx))
        (mtx_Status mTx) (wrap64 (UnixMilli (mtx_CreatedAt mTx))) (wrap64 (UnixMilli (mtx_UpdatedAt mTx)))
        (Hash_String <$> history))
  end.
Definition GetMonitoredTxsByStatus (status : MonitoredTxStatus) (limit offset : Z) : XS (response (bool * list pb_MonitoredTx)) :=
  let limit := page_limit service limit in
  mTxs ← attempt (xv_store (GetClaimTxsByStatusWithLimit [status] (wrap32 (limit + 1)) offset nil_tx));
  match mTxs with
  | inr err => mret (Failed (error_text err))
  | inl mTxs =>
      let '(hasNext, mTxs) := page_of limit mTxs in
      txs ← each_x (λ m, xv_node (to_pb_MonitoredTx m)) mTxs;
      mret (Answer (hasNext, txs))
  end.
Definition GetEstimateTime : res (response (list Z)) :=
  l1 ← Get_estimate calculator 0; l2 ← Get_estimate calculator 1; mret (Answer [l1; l2]).

(** ** Proofs and claims *)

(** An error is read also when the only fault is that the lengths differ. *)
Definition GetSmtProof (index fromChain : Z) : XS (response ProofDetail) :=
  r ← attempt (xv_service (GetClaimProof service (wrap32 index) fromChain nil_tx));
  match r with
  | inr err => mret (Failed (error_text err))
  | inl (globalExitRoot, merkleProof, rollupMerkleProof) =>
      if bool_decide (length merkleProof ≠ length rollupMerkleProof)
      then gopanic "invalid memory address or nil pointer dereference"
      else
        root0 ← lift_res (at_index (ger_ExitRoots globalExitRoot) 0);
        root1 ← lift_res (at_index (ger_ExitRoots globalExitRoot) 1);
        mret (Answer (mkProofDetail (EncodeToHex <$> merkleProof) (EncodeToHex <$> rollupMerkleProof)
                        (Hash_String root0) (Hash_String root1)))
  end.

Definition SendClaimXLayer (client : Z) (deposit : Deposit) (smtProof rollupSmtProof : list bytes)
    (globalExitRoot : GlobalExitRoot) (rollupID : Z) : M E (option bytes) :=
  globalIndex ← lift_res (GenerateGlobalIndex (bool_decide (dep_NetworkID deposit = 0)) (wrap32 (rollupID - 1))
                            (dep_DepositCount deposit));
  root0 ← lift_res (at_index (ger_ExitRoots globalExitRoot) 0);
  root1 ← lift_res (at_index (ger_ExitRoots globalExitRoot) 1);
  let args destAddr := mk_claim_args smtProof rollupSmtProof globalIndex root0 root1
    (dep_OriginalNetwork deposit) (dep_OriginalAddress deposit) (dep_DestinationNetwork deposit)
    destAddr (dep_Amount deposit) (dep_Metadata deposit) in
  if bool_decide (dep_LeafType deposit = LeafTypeAsset) then
    hash ← SendClaimAsset client (args (dep_DestinationAddress deposit)); mret (Some hash)
  else if bool_decide (dep_LeafType deposit = LeafTypeMessage) then
    let destAddr := if bool_decide (dep_DestContractAddress deposit ≠ zero_address) then dep_DestContractAddress deposit
                    else dep_DestinationAddress deposit in
    hash ← SendClaimMessage client (args destAddr); mret (Some hash)
  else mret None.

(** When the proof cannot be made the error is logged and the empty proof is used. *)
Definition ManualClaim (fromChain : Z) (destAddr depositTxHash : bytes) : XS (response bytes) :=
  if bool_decide (fromChain ≠ 0) then mret (Failed "only allow L1->L2 claim")
  else
    r ← attempt (xv_store (GetDepositByHash (HexToAddress destAddr) fromChain (HexToHash depositTxHash) nil_tx));
    match r with
    | inr _ => mret (Failed "failed to get deposit info")
    | inl deposit =>
        if negb (dep_ReadyForClaim deposit) then mret (Failed "transaction is not ready for claim")
        else
          claim ← attempt (xv_store (GetClaim (dep_DepositCount deposit) (dep_NetworkID deposit)
                                       (dep_DestinationNetwork deposit) nil_tx));
          match claim with
          | inl _ => mret (Failed "transaction has already been claimed")
          | inr err =>
              if negb (errors_Is err ErrStorageNotFound) then mret (Failed "")
              else if bool_decide (dep_DestinationNetwork deposit ∉ clients) then mret (Failed "")
              else
                proof ← attempt (xv_service (GetClaimProof service (dep_DepositCount deposit) (dep_NetworkID deposit) nil_tx));
                let '(ger, proves, rollupProves) :=
                  match proof with inl p => p | inr _ => (mkGlobalExitRoot 0 0 [] zero_hash 0 0 zero_time, [], []) end in
                mtProves ← lift_res (proof_array mtHeight 0 proves);
                mtRollupProves ← lift_res (proof_array mtHeight 0 rollupProves);
                tx ← attempt (xv_node (SendClaimXLayer (dep_DestinationNetwork deposit) deposit mtProves mtRollupProves ger
                                         (dep_NetworkID deposit)));
                match tx with
                | inr _ => mret (Failed "failed to send claim transaction")
                | inl None => gopanic "invalid memory address or nil pointer dereference"
                | inl (Some hash) => mret (Answer (Hash_String hash))
                end
          end
    end.

(** ** Prices, balances and large transactions *)

Definition set_si_ChainId (chainId : Z) (s : SymbolInfo) : SymbolInfo := mkSymbolInfo chainId (si_Address s).
Definition set_sp_ChainId (chainId : Z) (p : SymbolPrice) : SymbolPrice :=
  mkSymbolPrice (sp_Symbol p) (sp_Price p) (sp_Time p) (sp_Address p) chainId.
Definition GetCoinPrice (symbols : list SymbolInfo) : M E (response (list SymbolPrice)) :=
  let symbols := (λ s, set_si_ChainId (GetStandardChainIdByInnerId ids (si_ChainId s)) s) <$> symbols in
  r ← attempt (Redis.GetCoinPrice rs symbols);
  match r with
  | inr _ => mret (Failed (error_text ErrInternalErrorForRpcCall))
  | inl prices => mret (Answer ((λ p, set_sp_ChainId (GetInnerChainIdByStandardId ids (sp_ChainId p)) p) <$> prices))
  end.

Definition largeTxCacheHourLimit : Z := 19.
Definition durationForDay : Z := 24 * 60 * minute.
Definition GetLargeTxCacheExpireDuration : Z := 2 * durationForDay.
Inductive OpType : Type := OpRead | OpWrite | OpDel.
Definition getCacheDate (opType : OpType) (now : Z) : Z * Z * Z :=
  let date := if bool_decide (Hour now < largeTxCacheHourLimit) then now else now + durationForDay in
  match opType with
  | OpRead => Date now
  | OpWrite => Date date
  | OpDel => Date (date + GetLargeTxCacheExpireDuration)
  end.
(** ["%02d"] of a month or a day. *)
Definition pad2 (z : Z) : string := if bool_decide (z < 10) then "0" +:+ pretty z else pretty z.
Definition GetLargeTxRedisKeySuffix (toNetworkId : Z) (opType : OpType) (now : Z) : string :=
  let '(year, month, day) := getCacheDate opType now in
  (if bool_decide (toNetworkId = 0) then "toL1" else "toL2") +:+ "-" +:+ pretty year +:+ "-" +:+ pad2 month +:+ "-" +:+ pad2 day.
Definition GetLargeTransactionInfos (networkId : Z) : M E (response (list LargeTxInfo)) :=
  now ← Now;
  r ← attempt (GetLargeTransactions rs (GetLargeTxRedisKeySuffix networkId OpRead now));
  match r with
  | inl txInfos => mret (Answer txInfos)
  | inr err => if negb (errors_Is err ErrRedisNil) then mret (Failed "failed to get cache") else mret (Answer [])
  end.

Definition GetWstEthTokenNotWithdrawn : XS (response (list string)) :=
  match GetProcessorByType WstETH (pt_processors task) with
  | None => mret (Failed "internal: wstETH processor is not inited")
  | Some processor =>
      tokenAddr ← lift_res (at_index (p_tokenAddressList processor) 0);
      valueL1 ← attempt (xv_store (GetBridgeBalance tokenAddr 0 false nil_tx));
      valueL2 ← attempt (xv_store (GetBridgeBalance tokenAddr rollup false nil_tx));
      match valueL1, valueL2 with
      | inl valueL1, inl valueL2 => mret (Answer [pretty valueL1; pretty valueL2])
      | _, _ => mret (Failed "failed to get from DB")
      end
  end.
End Endpoints.
