(* ===== verification/DepositMessages.v ===== *)
(** * Messages about new deposits and claims

    The goroutines of [synchronizer/xlayer_synchronizer.go]: a stored deposit
    is announced to the front end and, when it is worth enough, listed among the
    large transactions of the day; a claim is announced with its deposit. *)
From Stdlib Require Import Strings.String SpecFloat.
From stdpp Require Import pretty.
From S2P Require Import Prelude Types GlobalIndex Hashing MonitoredTx MerkleStore Tables Storage MessageBridge.
From S2P Require Import EthClient Hex BridgeService Redis PushMessage GoFloat PushTask EstimateTime TokenLogo XLayerService RedisFacts.

Section Amounts.
(** The amount of a token from the text of its smallest unit: the number of
    decimals is also the precision of the big floats. *)
Definition token_amount (decimal : Z) (text : string) : res (option float64) :=
  match big_SetString decimal text with
  | None => mret None
  | Some originNum =>
      tokenDecimal ← big_SetFloat64 decimal (Pow10 decimal);
      q ← big_Quo originNum tokenDecimal;
      mret (Some (big_Float64 q))
  end.
Definition usd_amount (price tokenAmount : float64) : float64 := fmul price tokenAmount.
(** [usdAmount < float64(largeTxUsdLimit)]. *)
Definition below_limit (limit : Z) (usdAmount : float64) : bool := SFltb usdAmount (of_int limit).
End Amounts.

Section DepositMessages.
Context {K : Keccak} {Com : Common} {Txt : Texts} {Cal : Calendar} {E : Type}.
Context {Redis : RedisClient E} {Run : Runtime E} {Logos : LogoService E} {Kafka : KafkaProducer E}.
Context {LogoCodec : Codec LogoInfo} {PriceCodec : Codec SymbolPrice} {LargeCodec : Codec LargeTxInfo}.
Context (task : TaskConfig) (rollup : Z) (logosEnabled : bool) (calculator : calculatorImpl) (largeTxUsdLimit : Z).
Abbreviation rs := (pt_redis task).
Abbreviation ids := (pt_ids task).

(** The global index of the messages. *)
Definition sync_getGlobalIndex (deposit : Deposit) : res Z :=
  let isMainnet := bool_decide (dep_NetworkID deposit = 0) in
  let rollupIndex := wrap64 (pt_rollupID task - 1) in
  GenerateGlobalIndex isMainnet (wrap32 rollupIndex) (dep_DepositCount deposit).

Definition getEstimateTimeForDepositCreated (networkId : Z) : M E Z :=
  if bool_decide (networkId = 0) then lift_res (Get_estimate calculator networkId)
  else d ← GetAvgCommitDuration task; mret (wrap32 d).

(** ** Large transactions *)
Definition large_info (transaction : Transaction) (logo : TokenLogoInfo) (chainId : Z)
    (tokenAmount usdAmount : float64) : LargeTxInfo :=
  mkLargeTxInfo chainId (tl_Symbol logo) (Float64bits tokenAmount) (Float64bits usdAmount)
    (string_of_list_byte (tr_TxHash transaction)) (string_of_list_byte (tr_DestAddr transaction)).
Definition freshLargeTxCache (transaction : Transaction) (logo : TokenLogoInfo) (chainId : Z)
    (tokenAmount usdAmount : float64) : M E unit :=
  let largeTxInfo := large_info transaction logo chainId tokenAmount usdAmount in
  now ← Now;
  let key := GetLargeTxRedisKeySuffix (tr_ToChain transaction) OpWrite now in
  r ← attempt (AddLargeTransaction rs key largeTxInfo);
  let size := match r with inl size => size | inr _ => 0 end in
  when (bool_decide (size = 1))
    (_ ← attempt (ExpireLargeTransactions rs key GetLargeTxCacheExpireDuration); mret tt).

Definition filterLargeTransaction (transaction : Transaction) (chainId : Z) : M E unit :=
  match tr_LogoInfo transaction with
  | None => mret tt
  | Some logo =>
      let symbolInfo := mkSymbolInfo chainId (bridge_token transaction) in
      r ← attempt (Redis.GetCoinPrice rs [symbolInfo]);
      match r with
      | inr _ | inl [] => mret tt
      | inl (priceInfo :: _) =>
          amount ← lift_res (token_amount (tl_Decimal logo) (tr_TokenAmount transaction));
          match amount with
          | None => mret tt
          | Some tokenAmount =>
              let usdAmount := usd_amount (Float64frombits (sp_Price priceInfo)) tokenAmount in
              if below_limit largeTxUsdLimit usdAmount then mret tt
              else freshLargeTxCache transaction logo chainId tokenAmount usdAmount
          end
      end
  end.

(** ** The goroutine of [afterProcessDeposit]

    The original address is that of the event; the deposit has the token of its
    message bridge already. *)
Definition created_message (deposit : Deposit) (depositID estimateTime globalIndex : Z) : Transaction :=
  mkTransaction (dep_NetworkID deposit) (dep_DestinationNetwork deposit) (Address_Hex (dep_OriginalAddress deposit))
    (pretty (dep_Amount deposit)) estimateTime TX_CREATED (wrap64 (UnixMilli (dep_Time deposit)))
    (Hash_String (dep_TxHash deposit)) [] 0 (GetChainIdByNetworkId ids (dep_NetworkID deposit))
    (GetChainIdByNetworkId ids (dep_DestinationNetwork deposit)) depositID (dep_DepositCount deposit) []
    (Address_Hex (dep_DestinationAddress deposit)) (dep_LeafType deposit) (dep_BlockNumber deposit)
    (pretty globalIndex) [] None (dep_OriginalNetwork deposit).
Definition announced (origAddress : bytes) (deposit : Deposit) : bool :=
  pt_producer task &&
  (bool_decide (dep_LeafType deposit = LeafTypeAsset) || IsAllowedContractAddress origAddress (pt_processors task)).
Definition concerns_rollup (deposit : Deposit) : bool :=
  bool_decide (dep_NetworkID deposit = rollup) || bool_decide (dep_DestinationNetwork deposit = rollup).
Definition notify_deposit (origAddress : bytes) (deposit : Deposit) (depositID : Z) : M E unit :=
  if negb (announced origAddress deposit) then mret tt
  else if negb (concerns_rollup deposit) then mret tt
  else
    estimateTime ← getEstimateTimeForDepositCreated (dep_NetworkID deposit);
    globalIndex ← lift_res (sync_getGlobalIndex deposit);
    let transaction := created_message deposit depositID estimateTime globalIndex in
    let chainId := GetChainIdByNetworkId ids (dep_OriginalNetwork deposit) in
    transactions ← FillLogoInfos rs ids logosEnabled [transaction];
    for_each transactions (λ transaction,
      _ ← attempt (PushTransactionUpdate ids transaction);
      filterLargeTransaction transaction chainId).

(** ** The goroutine of [afterProcessClaim] *)
Definition claimed_message (deposit : Deposit) (claim : Claim) (globalIndex : Z) : Transaction :=
  mkTransaction (dep_NetworkID deposit) (dep_DestinationNetwork deposit) [] "" 0 TX_CLAIMED 0
    (Hash_String (dep_TxHash deposit)) (Hash_String (clm_TxHash claim)) (wrap64 (UnixMilli (clm_Time claim))) 0 0 0
    (dep_DepositCount deposit) [] (Address_Hex (dep_DestinationAddress deposit)) 0 0 (pretty globalIndex) [] None 0.
Definition notify_claim (deposit : Deposit) (claim : Claim) : M E unit :=
  if negb (announced (dep_OriginalAddress deposit) deposit) then mret tt
  else
    globalIndex ← lift_res (sync_getGlobalIndex deposit);
    _ ← attempt (PushTransactionUpdate ids (claimed_message deposit claim globalIndex)); mret tt.
End DepositMessages.

(** ** What the front end sees *)

(** The index in the messages is the one in the lists of the service for a
    deposit of L1 and of the rollup of the synchronizer. *)
Lemma message_index_listed task d :
  dep_NetworkID d = 0 ∨ dep_NetworkID d = pt_rollupID task → is_uint32 (dep_NetworkID d) →
  sync_getGlobalIndex task d = getGlobalIndex d.
Proof.
  intros Hnet [H0 H32]. unfold sync_getGlobalIndex, getGlobalIndex. destruct Hnet as [Hnet|Hnet].
  - rewrite Hnet. unfold GenerateGlobalIndex. by rewrite bool_decide_true.
  - by rewrite wrap32_wrap64, <- Hnet.
Qed.

Section Listed.
Context {Com : Common} {Txt : Texts} {Cal : Calendar} {E : Type}.
Context {Redis : RedisClient E} {ROk : RedisOk E} {Run : Runtime E}.
Context {PriceCodec : Codec SymbolPrice} {LargeCodec : Codec LargeTxInfo} {LargeOk : CodecOk LargeTxInfo}.
Context (task : TaskConfig) (limit : Z).
(** Reading the clock leaves Redis alone. *)
Context (Hclock : ∀ e t e', Now e = (Prelude.Ok t, e') → kept e' = kept e).

Lemma AddLargeTransaction_kept key info e n e' : AddLargeTransaction (pt_redis task) key info e = (Prelude.Ok n, e') →
  let k := getLargeInfosCacheKey (pt_redis task) key in
  ∃ text, encode_text info = Some text ∧ kept e' = put_list k (text :: list_at k (kept e)) (kept e).
Proof.
  intros H. unfold AddLargeTransaction in H. inv_bind H. apply Wrap_inv, lift_res_inv in H0 as [H0 ->].
  unfold marshal in H0. destruct (encode_text info) as [text|]; [|done]. injection H0 as <-. exists text. split; [done|].
  unfold lPushFoundation in H1. by apply with_client_inv, Wrap_inv, LPush_ok in H1 as [-> _].
Qed.
Lemma GetLargeTransactions_kept key e l e' : GetLargeTransactions (pt_redis task) key e = (Prelude.Ok l, e') →
  l = readable (list_at (getLargeInfosCacheKey (pt_redis task) key) (kept e)).
Proof.
  intros H. unfold GetLargeTransactions in H. inv_bind H. apply Wrap_inv, with_client_inv, Wrap_inv, LRange_ok in H0 as [_ ->].
  by injection H1 as <- _.
Qed.
Lemma ExpireLargeTransactions_kept key e r e' :
  ExpireLargeTransactions (pt_redis task) key GetLargeTxCacheExpireDuration e = (r, e') → kept e' = kept e.
Proof.
  unfold ExpireLargeTransactions, expireKeyFoundation, with_client. destruct (rs_client _); [|by intros [= _ <-]].
  by apply Expire_ok.
Qed.
Lemma GetCoinPrice_kept symbols e l e' : Redis.GetCoinPrice (pt_redis task) symbols e = (Prelude.Ok l, e') → kept e' = kept e.
Proof.
  unfold Redis.GetCoinPrice, getCoinPrice. destruct (rs_enableCoinPriceCfg _); [|by intros [= _ <-]].
  destruct symbols; [by intros [= _ <-]|]. intros H%with_client_inv. inv_bind H. apply Wrap_inv, HMGet_ok in H0 as [Hk _].
  by apply lift_res_inv in H1 as [_ ->].
Qed.

Lemma freshLargeTxCache_kept transaction logo chainId tokenAmount usdAmount e now e1 n e2 r e' :
  let info := large_info transaction logo chainId tokenAmount usdAmount in
  let key := GetLargeTxRedisKeySuffix (tr_ToChain transaction) OpWrite now in
  let k := getLargeInfosCacheKey (pt_redis task) key in
  Now e = (Prelude.Ok now, e1) → AddLargeTransaction (pt_redis task) key info e1 = (Prelude.Ok n, e2) →
  freshLargeTxCache task transaction logo chainId tokenAmount usdAmount e = (r, e') →
  ∃ text, decode_text text = Some info ∧ kept e' = put_list k (text :: list_at k (kept e)) (kept e).
Proof.
  cbv zeta. intros Hnow Hadd Hrun.
  destruct (AddLargeTransaction_kept _ _ _ _ _ Hadd) as (text & Ht & Hk). rewrite (Hclock _ _ _ Hnow) in Hk.
  exists text. split; [by apply decode_encode_text|]. transitivity (kept e2); [|exact Hk]. clear Hk. revert Hrun. unfold freshLargeTxCache.
  erewrite M_bind_ok by exact Hnow. cbv zeta. erewrite M_bind_ok by (unfold attempt; by rewrite Hadd). cbn beta iota.
  unfold when. case_bool_decide; [|by intros [= _ <-]]. unfold attempt, mbind, M_bind.
  destruct (ExpireLargeTransactions _ _ _ e2) as [x e3] eqn:Hx. apply ExpireLargeTransactions_kept in Hx as <-.
  destruct x; by intros [= _ <-].
Qed.

(** C39. The amount of a deposit in whole tokens is the quotient of its text by the power
    of ten of its decimals, as Go's big floats round both with as many bits as the
    token has decimals; its value in USD is the float64 product with the stored price.
    Until 19 o'clock the deposit is the first of the large transactions that the
    endpoint lists on that day for the network it goes to, with that amount and
    value, before those that were there - unless the value compares below the limit,
    when the list stays as it is.  (How far the rounded value can be from the exact
    one: [large_amount_imprecise].) *)
Theorem large_transaction_listed transaction logo chainId price rest originNum tokenDecimal quotient e e1 now e2 r e' f infos f'
  (Hlogo : tr_LogoInfo transaction = Some logo)
  (Hprice : Redis.GetCoinPrice (pt_redis task) [mkSymbolInfo chainId (bridge_token transaction)] e = (Prelude.Ok (price :: rest), e1))
  (Horigin : big_SetString (tl_Decimal logo) (tr_TokenAmount transaction) = Some originNum)
  (Hdecimal : big_SetFloat64 (tl_Decimal logo) (Pow10 (tl_Decimal logo)) = Prelude.Ok tokenDecimal)
  (Hquotient : big_Quo originNum tokenDecimal = Prelude.Ok quotient) :
  let tokenAmount := big_Float64 quotient in
  let usdAmount := fmul (Float64frombits (sp_Price price)) tokenAmount in
  let info := mkLargeTxInfo chainId (tl_Symbol logo) (Float64bits tokenAmount) (Float64bits usdAmount)
    (string_of_list_byte (tr_TxHash transaction)) (string_of_list_byte (tr_DestAddr transaction)) in
  ∀ (Hnow : Now e1 = (Prelude.Ok now, e2)) (Hhour : Hour now < largeTxCacheHourLimit)
    (Hadd : ∃ n e3, AddLargeTransaction (pt_redis task) (GetLargeTxRedisKeySuffix (tr_ToChain transaction) OpWrite now)
                      info e2 = (Prelude.Ok n, e3))
    (Hrun : filterLargeTransaction task limit transaction chainId e = (r, e'))
    (Hlater : kept f = kept e' ∧ ∃ now' f1, Now f = (Prelude.Ok now', f1) ∧ Date now' = Date now)
    (Hread : GetLargeTransactionInfos task (tr_ToChain transaction) f = (Prelude.Ok (Answer infos), f'))
    (Hup : ∀ key g, is_ok (GetLargeTransactions (pt_redis task) key g).1 = true),
  infos = (if SFltb usdAmount (of_int limit) then [] else [info]) ++
    readable (list_at (getLargeInfosCacheKey (pt_redis task) (GetLargeTxRedisKeySuffix (tr_ToChain transaction) OpRead now)) (kept e)).
Proof.
  intros tokenAmount usdAmount info ???????. set (k := getLargeInfosCacheKey _ _). destruct Hadd as (n & e3 & Hadd).
  assert (GetLargeTxRedisKeySuffix (tr_ToChain transaction) OpWrite now =
    GetLargeTxRedisKeySuffix (tr_ToChain transaction) OpRead now) as Hkey.
  { unfold GetLargeTxRedisKeySuffix, getCacheDate. by rewrite bool_decide_true. }
  destruct Hlater as (Hf & now' & f1 & Hnow' & Hdate).
  assert (infos = readable (list_at k (kept e'))) as ->.
  { revert Hread. unfold GetLargeTransactionInfos. erewrite M_bind_ok by exact Hnow'.
    replace (GetLargeTxRedisKeySuffix _ OpRead now') with (GetLargeTxRedisKeySuffix (tr_ToChain transaction) OpRead now)
      by (unfold GetLargeTxRedisKeySuffix, getCacheDate; by rewrite Hdate).
    specialize (Hup (GetLargeTxRedisKeySuffix (tr_ToChain transaction) OpRead now) f1).
    destruct (GetLargeTransactions _ _ f1) as [[l| |] f2] eqn:Hg; [|done..].
    erewrite M_bind_ok by (unfold attempt; by rewrite Hg). intros [= <- _].
    rewrite (GetLargeTransactions_kept _ _ _ _ Hg). by rewrite (Hclock _ _ _ Hnow'), Hf. }
  revert Hrun. unfold filterLargeTransaction. rewrite Hlogo. cbv zeta.
  erewrite M_bind_ok by (unfold attempt; by rewrite Hprice). cbn beta iota.
  assert (token_amount (tl_Decimal logo) (tr_TokenAmount transaction) = Prelude.Ok (Some tokenAmount)) as ->.
  { unfold token_amount. rewrite Horigin. unfold mbind, res_bind. by rewrite Hdecimal, Hquotient. }
  erewrite M_bind_ok by done. cbn beta iota. rewrite <- (GetCoinPrice_kept _ _ _ _ Hprice).
  unfold below_limit, usd_amount. fold usdAmount. destruct (SFltb usdAmount _) eqn:Hb; cbn [app]; [by intros [= _ <-]|]. intros Hrun.
  destruct (freshLargeTxCache_kept _ _ _ _ _ _ _ _ _ _ _ _ Hnow Hadd Hrun) as (text & Ht & ->).
  rewrite Hkey. fold k. rewrite list_at_put_list. unfold readable, unmarshal. cbn. by rewrite Ht.
Qed.
End Listed.

(** The number of decimals is also the precision in bits: with six decimals
    99,900 coins worth a dollar each count as 100,352 dollars. *)
Theorem large_amount_imprecise :
  token_amount 6 "99900000000" = Prelude.Ok (Some (of_int 100352)) ∧
  below_limit 100000 (usd_amount (of_int 1) (of_int 100352)) = false.
Proof. by vm_compute. Qed.
