(* ===== verification/Metrics.v ===== *)
(** * Metrics

    [metrics/prometheus.go]: the registry of the metrics of the program, over
    the collectors of Prometheus, which are an interface; and the metrics of the
    packages [etherman], [server] and [synchronizer], each with the function that
    registers them and one function for each thing that is recorded. *)
From Stdlib Require Import Strings.String SpecFloat.
From stdpp Require Import pretty.
From S2P Require Import Prelude Redis GoFloat.

(** ** Collectors *)
Inductive metric_kind : Type := KGauge | KGaugeVec | KCounter | KCounterVec | KHistogram | KHistogramVec | KSummary.
#[global] Instance metric_kind_eq_dec : EqDecision metric_kind.
Proof. solve_decision. Defined.
#[global] Instance metric_kind_countable : Countable metric_kind.
Proof.
  refine (inj_countable
    (λ k, match k with KGauge => 0 | KCounter => 1 | KCounterVec => 2 | KHistogram => 3 | KHistogramVec => 4 | KSummary => 5
                | KGaugeVec => 6 end%nat)
    (λ n, match n with 0 => Some KGauge | 1 => Some KCounter | 2 => Some KCounterVec | 3 => Some KHistogram
                     | 4 => Some KHistogramVec | 5 => Some KSummary | 6 => Some KGaugeVec | _ => None end%nat) _).
  by intros [].
Defined.

(** [prometheus.GaugeOpts] and its likes. *)
Record Opts := mkOpts { op_Name : string; op_Help : string; op_ConstLabels : list (string * string); op_Buckets : list float64 }.
(** [CounterVecOpts] and [HistogramVecOpts]. *)
Record VecOpts := mkVecOpts { vo_Opts : Opts; vo_Labels : list string }.
Definition plain_opts (name help : string) : Opts := mkOpts name help [] [].
Record collector := mkCollector { cl_kind : metric_kind; cl_opts : Opts; cl_labels : list string }.

(** The labels of one series, by position or by name. *)
Inductive label_values : Type := Positions (values : list string) | Names (values : list (string * string)).
Inductive update : Type := USet (v : float64) | UInc | UDec | UAdd (v : float64) | UObserve (v : float64).
(** The registerer and the series of the collectors. *)
Class Prometheus (E : Type) : Type := {
  prom_Register : collector → M E unit;
  prom_Unregister : collector → M E bool;
  prom_Update : collector → label_values → update → M E unit;
}.
Definition MustRegister {E} `{Prometheus E} (c : collector) : M E unit :=
  r ← attempt (prom_Register c);
  match r with inl _ => mret tt | inr _ => gopanic "metrics: registration failed" end.

(** One value for each label of the collector, and no decrease of a counter. *)
Definition labels_fit (c : collector) (values : label_values) : Prop :=
  match values with
  | Positions vs => length vs = length (cl_labels c)
  | Names vs => NoDup vs.*1 ∧ vs.*1 ≡ₚ cl_labels c
  end.
Definition values_of (values : label_values) : list string :=
  match values with Positions vs => vs | Names vs => vs.*2 end.
Definition update_fits (c : collector) (u : update) : bool :=
  match cl_kind c, u with
  | (KGauge | KGaugeVec), (USet _ | UInc | UDec | UAdd _) => true
  | (KCounter | KCounterVec), UInc => true
  | (KCounter | KCounterVec), UAdd v => negb (SFltb v (of_int 0))
  | (KHistogram | KHistogramVec | KSummary), UObserve _ => true
  | _, _ => false
  end.
(** What the documentation promises: a collector is registered until it is
    unregistered, and the series of a collector is updated when the labels fit and
    their values are text; otherwise the call may panic. *)
Class PrometheusOk (E : Type) `{!Prometheus E} : Type := {
  registered : E → collector → Prop;
  is_text : string → Prop;
  Register_ok c e r e' : prom_Register c e = (r, e') →
    (∀ p, r ≠ Panic p) ∧ ∀ c', registered e' c' ↔ (c' = c ∧ r = Ok tt) ∨ registered e c';
  Unregister_ok c e r e' : prom_Unregister c e = (r, e') →
    ∃ b, r = Ok b ∧ ∀ c', registered e' c' ↔ registered e c' ∧ ¬ (c' = c ∧ b = true);
  Update_ok c values u e r e' : prom_Update c values u e = (r, e') →
    (∀ c', registered e' c' ↔ registered e c') ∧
    (labels_fit c values → Forall is_text (values_of values) → update_fits c u = true → r = Ok tt);
}.

(** ** The registry

    The package's six maps are one map by kind and name; [Init] runs once.  The
    prefixes are the variables of the packages [etherman] and [synchronizer]. *)
Record Metrics (E : Type) := mkMetrics {
  mt_prom : E;
  mt_initialized : bool;
  mt_collectors : gmap (metric_kind * string) collector;
  mt_etherman_Prefix : string;
  mt_sync_Prefix : string;
}.
Arguments mkMetrics {E}.
Arguments mt_prom {E}.
Arguments mt_initialized {E}.
Arguments mt_collectors {E}.
Arguments mt_etherman_Prefix {E}.
Arguments mt_sync_Prefix {E}.
Definition set_prom {E : Type} (e : E) (s : Metrics E) : Metrics E :=
  mkMetrics e (mt_initialized s) (mt_collectors s) (mt_etherman_Prefix s) (mt_sync_Prefix s).
Definition set_collectors {E : Type} (f : gmap (metric_kind * string) collector → gmap (metric_kind * string) collector) (s : Metrics E)
  : Metrics E := mkMetrics (mt_prom s) (mt_initialized s) (f (mt_collectors s)) (mt_etherman_Prefix s) (mt_sync_Prefix s).

(** ** Names *)
Definition ReadAndProcessAllEventsTimeName : string := "read_and_process_all_event_time".
Definition ProcessAllEventTimeName : string := "process_all_event_time".
Definition ProcessSingleEventTimeName : string := "process_single_event_time".
Definition GetEventsTimeName : string := "get_events_time".
Definition EventCounterName : string := "processed_events_counter".
Definition CheckAPILatencyName : string := "api_check_api_latency".
Definition GetBridgesLatencyName : string := "api_get_bridges_latency".
Definition GetClaimsLatencyName : string := "api_get_claims_latency".
Definition GetProofLatencyName : string := "api_get_proof_latency".
Definition GetBridgeLatencyName : string := "api_get_bridge_latency".
Definition GetTokenWrappedLatencyName : string := "api_get_wrapped_token_latency".
Definition GetProofByGERLatencyName : string := "api_get_proof_by_ger_latency".
Definition GetPendingBridgesToClaimLatencyName : string := "api_get_pending_bridges_to_claim_latency".
Definition CheckAPICounterName : string := "api_check_api_counter".
Definition GetBridgesCounterName : string := "api_get_bridges_counter".
Definition GetClaimsCounterName : string := "api_get_claims_counter".
Definition GetProofCounterName : string := "api_get_proof_counter".
Definition GetBridgeCounterName : string := "api_get_bridge_counter".
Definition GetTokenWrappedCounterName : string := "api_get_wrapped_token_counter".
Definition GetProofByGERCounterName : string := "api_get_proof_by_ger_counter".
Definition GetPendingBridgesToClaimCounterName : string := "api_get_pending_bridges_to_claim_counter".
Definition InitializationTimeName : string := "initialization_time".
Definition FullTrustedSyncTimeName : string := "full_trusted_sync_time".
Definition FullL1SyncTimeName : string := "full_L1_sync_time".
Definition FullSyncIterationTimeName : string := "full_L1_sync_time".
Definition ReadL1DataTimeName : string := "read_L1_data_time".
Definition ProcessL1DataTimeName : string := "process_L1_data_time".
Definition GetTrustedGerTimeName : string := "get_trusted_ger_time".
Definition GetTrustedExitRootsTimeName : string := "get_trusted_exitroots_time".
Definition DepositAmountName : string := "deposit_amount".
Definition ClaimAmountName : string := "claim_amount".
Definition DepositCounterName : string := "processed_deposit_counter".
Definition L1GERCounterName : string := "processed_L1GER_counter".
Definition L2GERCounterName : string := "processed_L2GER_counter".
Definition RemoveL2GERCounterName : string := "processed_remove_L2GER_counter".
Definition VerifyBatchCounterName : string := "processed_verifyBatch_counter".
Definition ClaimCounterName : string := "processed_claim_counter".
Definition ReorgCounterName : string := "reorg_counter".
Definition ReorgedBlockCounterName : string := "reorged_block_counter".
Definition WrappedTokensCounterName : string := "processed_wrapped_tokens_counter".
Definition CurrentPendingBridgesToClaimName : string := "current_pending_bridges_to_claim".
Definition LatestBlockSyncedName : string := "latest_block_synced".
(** [float64(d) / float64(time.Second)]. *)
Definition seconds (d : Z) : float64 := fdiv (of_int d) (of_int 1000000000).
Definition etherman_prefix (networkID : Z) : string := "etherman_networkID_" +:+ pretty networkID +:+ "_".
Definition sync_prefix (networkID : Z) : string := "synchronizer_networkID_" +:+ pretty networkID +:+ "_".

(** The metrics of each package, with the texts of their help. *)
Definition etherman_counters (Prefix : string) : list Opts := [
  plain_opts (Prefix +:+ EventCounterName) "[ETHERMAN] count processed events"].
Definition etherman_histograms (Prefix : string) : list Opts := [
  plain_opts (Prefix +:+ ReadAndProcessAllEventsTimeName) "[ETHERMAN] read and process all event time";
  plain_opts (Prefix +:+ ProcessAllEventTimeName) "[ETHERMAN] process all event time";
  plain_opts (Prefix +:+ ProcessSingleEventTimeName) "[ETHERMAN] process single event time";
  plain_opts (Prefix +:+ GetEventsTimeName) "[ETHERMAN] get L1 events time"].
Definition api_counters : list Opts := [
  plain_opts CheckAPICounterName "[API] count the number of requests to CheckAPI endpoint";
  plain_opts GetBridgesCounterName "[API] count the number of requests to GetBridges endpoint";
  plain_opts GetClaimsCounterName "[API] count the number of requests to GetClaims endpoint";
  plain_opts GetProofCounterName "[API] count the number of requests to GetProof endpoint";
  plain_opts GetBridgeCounterName "[API] count the number of requests to GetBridge endpoint";
  plain_opts GetTokenWrappedCounterName "[API] count the number of requests to GetTokenWrapped endpoint";
  plain_opts GetProofByGERCounterName "[API] count the number of requests to GetProofByGER endpoint";
  plain_opts GetPendingBridgesToClaimCounterName "[API] count the number of requests to GetPendingBridgesToClaim endpoint"].
Definition api_histograms : list Opts := [
  plain_opts CheckAPILatencyName "[API] measures the latency of the CheckAPI endpoint";
  plain_opts GetBridgesLatencyName "[API] measures the latency of the GetBridges endpoint";
  plain_opts GetClaimsLatencyName "[API] measures the latency of the GetClaims endpoint";
  plain_opts GetProofLatencyName "[API] measures the latency of the GetProof endpoint";
  plain_opts GetBridgeLatencyName "[API] measures the latency of the GetBridge endpoint";
  plain_opts GetTokenWrappedLatencyName "[API] measures the latency of the GetTokenWrapped endpoint";
  plain_opts GetProofByGERLatencyName "[API] measures the latency of the GetProofByGER endpoint";
  plain_opts GetPendingBridgesToClaimLatencyName "[API] measures the latency of the GetPendingBridgesToClaim endpoint"].
Definition sync_gauges (Prefix : string) : list Opts := [
  plain_opts (Prefix +:+ CurrentPendingBridgesToClaimName) "[SYNCHRONIZER] current pending deposits to claim";
  plain_opts (Prefix +:+ LatestBlockSyncedName) "[SYNCHRONIZER] latest block synced"].
Definition sync_counters (Prefix : string) : list Opts := [
  plain_opts (Prefix +:+ DepositCounterName) "[SYNCHRONIZER] count processed deposit events";
  plain_opts (Prefix +:+ L1GERCounterName) "[SYNCHRONIZER] count processed L1 GER events";
  plain_opts (Prefix +:+ L2GERCounterName) "[SYNCHRONIZER] count processed L2 GER events";
  plain_opts (Prefix +:+ RemoveL2GERCounterName) "[SYNCHRONIZER] count processed remove L2 GER events";
  plain_opts (Prefix +:+ VerifyBatchCounterName) "[SYNCHRONIZER] count processed verify batch events";
  plain_opts (Prefix +:+ ClaimCounterName) "[SYNCHRONIZER] count processed claim events";
  plain_opts (Prefix +:+ ReorgCounterName) "[SYNCHRONIZER] count the number of reorgs";
  plain_opts (Prefix +:+ ReorgedBlockCounterName) "[SYNCHRONIZER] count the reorged blocks";
  plain_opts (Prefix +:+ WrappedTokensCounterName) "[SYNCHRONIZER] count the wrapped tokens"].
Definition sync_histograms (Prefix : string) : list Opts := [
  plain_opts (Prefix +:+ InitializationTimeName) "[SYNCHRONIZER] initialization time";
  plain_opts (Prefix +:+ FullTrustedSyncTimeName) "[SYNCHRONIZER] full trusted state synchronization time";
  plain_opts (Prefix +:+ FullL1SyncTimeName) "[SYNCHRONIZER] full L1 synchronization time";
  plain_opts (Prefix +:+ FullSyncIterationTimeName) "[SYNCHRONIZER] full synchronization iteration time";
  plain_opts (Prefix +:+ ReadL1DataTimeName) "[SYNCHRONIZER] read L1 data time";
  plain_opts (Prefix +:+ ProcessL1DataTimeName) "[SYNCHRONIZER] process L1 data time";
  plain_opts (Prefix +:+ GetTrustedGerTimeName) "[SYNCHRONIZER] get trusted GER time";
  plain_opts (Prefix +:+ GetTrustedExitRootsTimeName) "[SYNCHRONIZER] get trusted ExitRoots time";
  plain_opts (Prefix +:+ DepositAmountName) "[SYNCHRONIZER] deposit amount";
  plain_opts (Prefix +:+ ClaimAmountName) "[SYNCHRONIZER] claim amount"].

Section Registry.
Context {E : Type} {Prom : Prometheus E}.
Abbreviation Mt := (M (Metrics E)).

Definition on_prom {A} (m : M E A) : Mt A := zoom mt_prom set_prom m.
Definition if_initialized (m : Mt unit) : Mt unit := λ s, if mt_initialized s then m s else (Ok tt, s).
Definition Init : Mt unit :=
  modify (λ s, if mt_initialized s then s else mkMetrics (mt_prom s) true ∅ (mt_etherman_Prefix s) (mt_sync_Prefix s)).

(** *** The shape of the operations on each of the maps *)
Definition register_if_not_exists (kind : metric_kind) (opts : Opts) (labels : list string) : Mt unit :=
  collectors ← gets mt_collectors;
  match collectors !! (kind, op_Name opts) with
  | Some _ => mret tt
  | None =>
      let c := mkCollector kind opts labels in
      on_prom (MustRegister c);;
      modify (set_collectors <[(kind, op_Name opts) := c]>)
  end.
Definition unregister_if_exists (kind : metric_kind) (name : string) : Mt unit :=
  collectors ← gets mt_collectors;
  match collectors !! (kind, name) with
  | None => mret tt
  | Some c =>
      ok ← on_prom (prom_Unregister c);
      when ok (modify (set_collectors (delete (kind, name))))
  end.
Definition lookup_collector (kind : metric_kind) (name : string) : Mt (option collector) :=
  gets (λ s, if mt_initialized s then mt_collectors s !! (kind, name) else None).
(** [if c, ok := Gauge(name); ok { c.Set(value) }]. *)
Definition on_collector (find : Mt (option collector)) (values : label_values) (u : update) : Mt unit :=
  if_initialized
    (o ← find;
     match o with Some c => on_prom (prom_Update c values u) | None => mret tt end).

(** *** Gauges, counters, histograms and summaries *)
Definition registerGaugeIfNotExists : Opts → Mt unit := λ o, register_if_not_exists KGauge o [].
Definition RegisterGauges (opts : list Opts) : Mt unit := if_initialized (for_each opts registerGaugeIfNotExists).
Definition unregisterGaugeIfExists : string → Mt unit := unregister_if_exists KGauge.
Definition UnregisterGauges (names : list string) : Mt unit :=
  if_initialized (for_each names unregisterGaugeIfExists).
Definition Gauge (name : string) : Mt (option collector) := lookup_collector KGauge name.
Definition registerCounterIfNotExists : Opts → Mt unit := λ o, register_if_not_exists KCounter o [].
Definition RegisterCounters (opts : list Opts) : Mt unit := if_initialized (for_each opts registerCounterIfNotExists).
Definition unregisterCounterIfExists : string → Mt unit := unregister_if_exists KCounter.
Definition UnregisterCounters (names : list string) : Mt unit :=
  if_initialized (for_each names unregisterCounterIfExists).
Definition Counter (name : string) : Mt (option collector) := lookup_collector KCounter name.
Definition registerCounterVecIfNotExists : VecOpts → Mt unit :=
  λ o, register_if_not_exists KCounterVec (vo_Opts o) (vo_Labels o).
Definition RegisterCounterVecs (opts : list VecOpts) : Mt unit :=
  if_initialized (for_each opts registerCounterVecIfNotExists).
Definition unregisterCounterVecIfExists : string → Mt unit := unregister_if_exists KCounterVec.
Definition UnregisterCounterVecs (names : list string) : Mt unit :=
  if_initialized (for_each names unregisterCounterVecIfExists).
Definition CounterVec (name : string) : Mt (option collector) := lookup_collector KCounterVec name.
Definition registerHistogramIfNotExists : Opts → Mt unit := λ o, register_if_not_exists KHistogram o [].
Definition RegisterHistograms (opts : list Opts) : Mt unit :=
  if_initialized (for_each opts registerHistogramIfNotExists).
Definition unregisterHistogramIfExists : string → Mt unit := unregister_if_exists KHistogram.
Definition UnregisterHistogram (names : list string) : Mt unit :=
  if_initialized (for_each names unregisterHistogramIfExists).
Definition Histogram (name : string) : Mt (option collector) := lookup_collector KHistogram name.
Definition registerHistogramVecIfNotExists : VecOpts → Mt unit :=
  λ o, register_if_not_exists KHistogramVec (vo_Opts o) (vo_Labels o).
Definition RegisterHistogramVecs (opts : list VecOpts) : Mt unit :=
  if_initialized (for_each opts registerHistogramVecIfNotExists).
Definition unregisterHistogramVecIfExists : string → Mt unit := unregister_if_exists KHistogramVec.
Definition UnregisterHistogramVecs (names : list string) : Mt unit :=
  if_initialized (for_each names unregisterHistogramVecIfExists).
Definition HistogramVec (name : string) : Mt (option collector) := lookup_collector KHistogramVec name.
Definition registerSummaryIfNotExists : Opts → Mt unit := λ o, register_if_not_exists KSummary o [].
Definition RegisterSummaries (opts : list Opts) : Mt unit :=
  if_initialized (for_each opts registerSummaryIfNotExists).
Definition unregisterSummaryIfExists : string → Mt unit := unregister_if_exists KSummary.
Definition UnregisterSummaries (names : list string) : Mt unit :=
  if_initialized (for_each names unregisterSummaryIfExists).
Definition Summary (name : string) : Mt (option collector) := lookup_collector KSummary name.
Definition GaugeSet (name : string) (value : float64) : Mt unit :=
  on_collector (Gauge name) (Positions []) (USet value).
Definition GaugeInc (name : string) : Mt unit := on_collector (Gauge name) (Positions []) UInc.
Definition GaugeDec (name : string) : Mt unit := on_collector (Gauge name) (Positions []) UDec.
Definition CounterInc (name : string) : Mt unit := on_collector (Counter name) (Positions []) UInc.
Definition CounterAdd (name : string) (value : float64) : Mt unit :=
  on_collector (Counter name) (Positions []) (UAdd value).
Definition CounterVecInc (name label : string) : Mt unit := on_collector (CounterVec name) (Positions [label]) UInc.
Definition CounterVecAdd (name label : string) (value : float64) : Mt unit :=
  on_collector (CounterVec name) (Positions [label]) (UAdd value).
Definition HistogramObserve (name : string) (value : float64) : Mt unit :=
  on_collector (Histogram name) (Positions []) (UObserve value).
Definition HistogramVecObserve (name label : string) (value : float64) : Mt unit :=
  on_collector (HistogramVec name) (Positions [label]) (UObserve value).

(** ** The packages *)

(** [Register] of the package [etherman]. *)
Definition etherman_Register (networkID : Z) : Mt unit :=
  modify (λ s, mkMetrics (mt_prom s) (mt_initialized s) (mt_collectors s) (etherman_prefix networkID) (mt_sync_Prefix s));;
  pre ← gets mt_etherman_Prefix;
  RegisterCounters (etherman_counters pre);;
  RegisterHistograms (etherman_histograms pre).
Definition with_ethermanPrefix (f : string → Mt unit) : Mt unit := pre ← gets mt_etherman_Prefix; f pre.
Definition ReadAndProcessAllEventsTime (lastProcessTime : Z) : Mt unit :=
  with_ethermanPrefix (λ pre, HistogramObserve (pre +:+ ReadAndProcessAllEventsTimeName) (seconds lastProcessTime)).
Definition ProcessAllEventTime (lastProcessTime : Z) : Mt unit :=
  with_ethermanPrefix (λ pre, HistogramObserve (pre +:+ ProcessAllEventTimeName) (seconds lastProcessTime)).
Definition ProcessSingleEventTime (lastProcessTime : Z) : Mt unit :=
  with_ethermanPrefix (λ pre, HistogramObserve (pre +:+ ProcessSingleEventTimeName) (seconds lastProcessTime)).
Definition GetEventsTime (lastProcessTime : Z) : Mt unit :=
  with_ethermanPrefix (λ pre, HistogramObserve (pre +:+ GetEventsTimeName) (seconds lastProcessTime)).
Definition EventCounter : Mt unit := with_ethermanPrefix (λ pre, CounterInc (pre +:+ EventCounterName)).

(** [Register] of the package [server]; the network is not used. *)
Definition api_Register (networkID : Z) : Mt unit :=
  RegisterCounters api_counters;; RegisterHistograms api_histograms.
Definition CheckAPILatency (lastProcessTime : Z) : Mt unit :=
  HistogramObserve CheckAPILatencyName (seconds lastProcessTime).
Definition GetBridgesLatency (lastProcessTime : Z) : Mt unit :=
  HistogramObserve GetBridgesLatencyName (seconds lastProcessTime).
Definition GetClaimsLatency (lastProcessTime : Z) : Mt unit :=
  HistogramObserve GetClaimsLatencyName (seconds lastProcessTime).
Definition GetProofLatency (lastProcessTime : Z) : Mt unit :=
  HistogramObserve GetProofLatencyName (seconds lastProcessTime).
Definition GetBridgeLatency (lastProcessTime : Z) : Mt unit :=
  HistogramObserve GetBridgeLatencyName (seconds lastProcessTime).
Definition GetTokenWrappedLatency (lastProcessTime : Z) : Mt unit :=
  HistogramObserve GetTokenWrappedLatencyName (seconds lastProcessTime).
Definition GetProofByGERLatency (lastProcessTime : Z) : Mt unit :=
  HistogramObserve GetProofByGERLatencyName (seconds lastProcessTime).
Definition GetPendingBridgesToClaimLatency (lastProcessTime : Z) : Mt unit :=
  HistogramObserve GetPendingBridgesToClaimLatencyName (seconds lastProcessTime).
Definition CheckAPICounter : Mt unit := CounterInc CheckAPICounterName.
Definition GetBridgesCounter : Mt unit := CounterInc GetBridgesCounterName.
Definition GetClaimsCounter : Mt unit := CounterInc GetClaimsCounterName.
Definition GetProofCounter : Mt unit := CounterInc GetProofCounterName.
Definition GetBridgeCounter : Mt unit := CounterInc GetBridgeCounterName.
Definition GetTokenWrappedCounter : Mt unit := CounterInc GetTokenWrappedCounterName.
Definition GetProofByGERCounter : Mt unit := CounterInc GetProofByGERCounterName.
Definition GetPendingBridgesToClaimCounter : Mt unit := CounterInc GetPendingBridgesToClaimCounterName.

(** [Register] of the package [synchronizer]. *)
Definition sync_Register (networkID : Z) : Mt unit :=
  modify (λ s, mkMetrics (mt_prom s) (mt_initialized s) (mt_collectors s) (mt_etherman_Prefix s) (sync_prefix networkID));;
  pre ← gets mt_sync_Prefix;
  RegisterHistograms (sync_histograms pre);;
  RegisterCounters (sync_counters pre);;
  RegisterGauges (sync_gauges pre).
Definition with_syncPrefix (f : string → Mt unit) : Mt unit := pre ← gets mt_sync_Prefix; f pre.
Definition LatestBlockSynced (blockNumber : Z) : Mt unit :=
  with_syncPrefix (λ pre, GaugeSet (pre +:+ LatestBlockSyncedName) (of_int blockNumber)).
Definition IncrementsPendingBridgesToClaim (destNetwork : Z) : Mt unit :=
  GaugeInc (sync_prefix destNetwork +:+ CurrentPendingBridgesToClaimName).
Definition DecrementsPendingBridgesToClaim : Mt unit :=
  with_syncPrefix (λ pre, GaugeDec (pre +:+ CurrentPendingBridgesToClaimName)).
Definition DepositAmount (amount : Z) : Mt unit :=
  with_syncPrefix (λ pre, HistogramObserve (pre +:+ DepositAmountName) (of_int amount)).
Definition ClaimAmount (amount : Z) : Mt unit :=
  with_syncPrefix (λ pre, HistogramObserve (pre +:+ ClaimAmountName) (of_int amount)).
Definition InitializationTime (lastProcessTime : Z) : Mt unit :=
  with_syncPrefix (λ pre, HistogramObserve (pre +:+ InitializationTimeName) (seconds lastProcessTime)).
Definition FullTrustedSyncTime (lastProcessTime : Z) : Mt unit :=
  with_syncPrefix (λ pre, HistogramObserve (pre +:+ FullTrustedSyncTimeName) (seconds lastProcessTime)).
Definition FullL1SyncTime (lastProcessTime : Z) : Mt unit :=
  with_syncPrefix (λ pre, HistogramObserve (pre +:+ FullL1SyncTimeName) (seconds lastProcessTime)).
Definition FullSyncIterationTime (lastProcessTime : Z) : Mt unit :=
  with_syncPrefix (λ pre, HistogramObserve (pre +:+ FullSyncIterationTimeName) (seconds lastProcessTime)).
Definition ReadL1DataTime (lastProcessTime : Z) : Mt unit :=
  with_syncPrefix (λ pre, HistogramObserve (pre +:+ ReadL1DataTimeName) (seconds lastProcessTime)).
Definition ProcessL1DataTime (lastProcessTime : Z) : Mt unit :=
  with_syncPrefix (λ pre, HistogramObserve (pre +:+ ProcessL1DataTimeName) (seconds lastProcessTime)).
Definition GetTrustedGerTime (lastProcessTime : Z) : Mt unit :=
  with_syncPrefix (λ pre, HistogramObserve (pre +:+ GetTrustedGerTimeName) (seconds lastProcessTime)).
Definition GetTrustedExitRootsTime (lastProcessTime : Z) : Mt unit :=
  with_syncPrefix (λ pre, HistogramObserve (pre +:+ GetTrustedExitRootsTimeName) (seconds lastProcessTime)).
Definition DepositCounter : Mt unit := with_syncPrefix (λ pre, CounterInc (pre +:+ DepositCounterName)).
Definition ClaimCounter : Mt unit := with_syncPrefix (λ pre, CounterInc (pre +:+ ClaimCounterName)).
Definition VerifyBatchCounter : Mt unit := with_syncPrefix (λ pre, CounterInc (pre +:+ VerifyBatchCounterName)).
Definition RemoveL2GERCounter : Mt unit := with_syncPrefix (λ pre, CounterInc (pre +:+ RemoveL2GERCounterName)).
Definition L2GERCounter : Mt unit := with_syncPrefix (λ pre, CounterInc (pre +:+ L2GERCounterName)).
Definition L1GERCounter : Mt unit := with_syncPrefix (λ pre, CounterInc (pre +:+ L1GERCounterName)).
Definition ReorgCounter : Mt unit := with_syncPrefix (λ pre, CounterInc (pre +:+ ReorgCounterName)).
Definition ReorgedBlocksCounter : Mt unit := with_syncPrefix (λ pre, CounterInc (pre +:+ ReorgedBlockCounterName)).
Definition WrappedTokensCounter : Mt unit := with_syncPrefix (λ pre, CounterInc (pre +:+ WrappedTokensCounterName)).
End Registry.
