(* ===== verification/XMetrics.v ===== *)
(** * Metrics of X Layer

    [xlayer/metrics]: vectors of gauges, counters and histograms with labels,
    registered by the goroutine that starts the server of the metrics.  Recording
    with labels that do not fit panics, so what is registered and what is recorded
    have to agree; and recorders look the maps up without the mutex under which the
    goroutine writes them, so the steps of both interleave. *)
From Stdlib Require Import Strings.String SpecFloat.
From stdpp Require Import pretty.
From S2P Require Import Prelude Types EthClient Hex BridgeService Redis PushMessage GoFloat StorageFacts LocalCache Metrics.

(** ** Names and labels *)
Definition labelEnv : string := "env".
Definition metricRequestCount : string := "xlayer_bridge_request_count".
Definition metricRequestLatency : string := "xlayer_bridge_request_latency_ms".
Definition labelMethod : string := "method".
Definition labelCode : string := "code".
Definition labelErrMessage : string := "msg".
Definition metricOrderCount : string := "xlayer_bridge_order_count".
Definition metricOrderTotalAmount : string := "xlayer_bridge_order_total_amount".
Definition metricOrderWaitTime : string := "xlayer_bridge_order_wait_time_sec".
Definition labelNetworkID : string := "network_id".
Definition labelLeafType : string := "leaf_type".
Definition labelToken : string := "token".
Definition labelTokenAddress : string := "token_address".
Definition labelTokenOriginNetwork : string := "token_origin_network".
Definition labelDestNet : string := "dest_net".
Definition metricMonitoredTxsPendingCount : string := "xlayer_bridge_monitored_txs_pending_count".
Definition metricMonitoredTxsResultCount : string := "xlayer_bridge_monitored_txs_result_count".
Definition metricMonitoredTxsDuration : string := "xlayer_bridge_monitored_txs_duration_sec".
Definition labelStatus : string := "status".
Definition metricSynchronizerEventCount : string := "xlayer_bridge_synchronizer_event_count".
Definition metricLastSyncedBlockNum : string := "xlayer_bridge_synchronizer_last_synced_block_num".
Definition metricLatestBlockNum : string := "xlayer_bridge_synchronizer_latest_block_num".
Definition labelEventType : string := "type".
Abbreviation order_label_names := [labelNetworkID; labelLeafType; labelToken; labelTokenAddress; labelTokenOriginNetwork; labelDestNet].

Record XMetrics (E : Type) := mkXMetrics {
  xm_prom : E;
  xm_initialized : bool;
  xm_gauges : gmap string collector;
  xm_counters : gmap string collector;
  xm_histograms : gmap string collector;
}.
Arguments mkXMetrics {E}.
Arguments xm_prom {E}.
Arguments xm_initialized {E}.
Arguments xm_gauges {E}.
Arguments xm_counters {E}.
Arguments xm_histograms {E}.

Section XMetrics.
Context {E : Type} {Prom : Prometheus E} {Com : Common}.
Abbreviation X := (M (XMetrics E)).

Definition x_prom {A} (m : M E A) : X A :=
  zoom xm_prom (λ e s, mkXMetrics e (xm_initialized s) (xm_gauges s) (xm_counters s) (xm_histograms s)) m.
Definition put_gauge (name : string) (c : collector) (s : XMetrics E) : XMetrics E :=
  mkXMetrics (xm_prom s) (xm_initialized s) (<[name := c]> (xm_gauges s)) (xm_counters s) (xm_histograms s).
Definition put_counter (name : string) (c : collector) (s : XMetrics E) : XMetrics E :=
  mkXMetrics (xm_prom s) (xm_initialized s) (xm_gauges s) (<[name := c]> (xm_counters s)) (xm_histograms s).
Definition put_histogram (name : string) (c : collector) (s : XMetrics E) : XMetrics E :=
  mkXMetrics (xm_prom s) (xm_initialized s) (xm_gauges s) (xm_counters s) (<[name := c]> (xm_histograms s)).

(** ** The three kinds

    All three functions look for the name among the gauges. *)
(** The function up to the write of the map, and whether it gets there. *)
Definition x_registering (c : collector) : X bool :=
  s ← get;
  if negb (xm_initialized s) then mret false
  else match xm_gauges s !! op_Name (cl_opts c) with
       | Some _ => mret false
       | None => r ← attempt (x_prom (prom_Register c)); mret (match r with inl _ => true | inr _ => false end)
       end.
Definition x_register (put : string → collector → XMetrics E → XMetrics E) (c : collector) : X unit :=
  written ← x_registering c;
  when written (modify (put (op_Name (cl_opts c)) c)).
Definition registerGauge (opt : Opts) (labelNames : list string) : X unit :=
  x_register put_gauge (mkCollector KGaugeVec opt labelNames).
Definition registerCounter (opt : Opts) (labelNames : list string) : X unit :=
  x_register put_counter (mkCollector KCounterVec opt labelNames).
Definition registerHistogram (opt : Opts) (labelNames : list string) : X unit :=
  x_register put_histogram (mkCollector KHistogramVec opt labelNames).

Definition x_update (collectors : XMetrics E → gmap string collector) (name : string) (labelValues : list (string * string))
    (u : update) : X unit :=
  s ← get;
  if negb (xm_initialized s) then mret tt
  else match collectors s !! name with
       | None => mret tt
       | Some c => x_prom (prom_Update c (Names labelValues) u)
       end.
Definition gaugeSet (name : string) (value : float64) (labelValues : list (string * string)) : X unit :=
  x_update xm_gauges name labelValues (USet value).
Definition counterInc (name : string) (labelValues : list (string * string)) : X unit :=
  x_update xm_counters name labelValues UInc.
Definition counterAdd (name : string) (value : float64) (labelValues : list (string * string)) : X unit :=
  x_update xm_counters name labelValues (UAdd value).
Definition histogramObserve (name : string) (value : float64) (labelValues : list (string * string)) : X unit :=
  x_update xm_histograms name labelValues (UObserve value).

(** ** Registration *)
Definition requestBuckets : list float64 := of_int <$> [1; 10; 25; 50; 100; 250; 500; 750; 1000; 2500; 5000; 10000].
Definition waitBuckets : list float64 := of_int <$> [300; 700; 900; 1000; 1200; 1800; 3000; 3300; 3600; 3900; 5000; 7000].
Definition durationBuckets : list float64 :=
  [half; of_int 1; fdiv (of_int 5) (of_int 2)] ++ (of_int <$> [5; 10; 20; 30; 60; 100; 500; 1000]).
Definition init_maps (s : XMetrics E) : XMetrics E :=
  if xm_initialized s then s else mkXMetrics (xm_prom s) true ∅ ∅ ∅.
(** The collectors in the order of their registration; the kind tells the function. *)
Definition registrations (env : string) : list collector :=
  let constLabels := [(labelEnv, env)] in
  let opts name := mkOpts name "" constLabels [] in [
  mkCollector KCounterVec (opts metricRequestCount) [labelMethod; labelCode; labelErrMessage];
  mkCollector KHistogramVec (mkOpts metricRequestLatency "" constLabels requestBuckets) [labelMethod; labelCode];
  mkCollector KCounterVec (opts metricOrderCount) order_label_names;
  mkCollector KCounterVec (opts metricOrderTotalAmount) order_label_names;
  mkCollector KHistogramVec (mkOpts metricOrderWaitTime "" constLabels waitBuckets) [labelNetworkID; labelDestNet];
  mkCollector KGaugeVec (opts metricMonitoredTxsPendingCount) [];
  mkCollector KCounterVec (opts metricMonitoredTxsResultCount) [labelStatus];
  mkCollector KHistogramVec (mkOpts metricMonitoredTxsDuration "" constLabels durationBuckets) [];
  mkCollector KCounterVec (opts metricSynchronizerEventCount) [labelNetworkID; labelEventType];
  mkCollector KGaugeVec (opts metricLastSyncedBlockNum) [labelNetworkID];
  mkCollector KGaugeVec (opts metricLatestBlockNum) [labelNetworkID]].
Definition register_kind (c : collector) : X unit :=
  match cl_kind c with
  | KGaugeVec => registerGauge (cl_opts c) (cl_labels c)
  | KCounterVec => registerCounter (cl_opts c) (cl_labels c)
  | _ => registerHistogram (cl_opts c) (cl_labels c)
  end.
Definition initMetrics (env : string) : X unit :=
  modify init_maps;; for_each (registrations env) register_kind.

(** ** Recording *)
Definition RecordRequest (method : string) (code : Z) (msg : string) : X unit :=
  counterInc metricRequestCount [(labelMethod, method); (labelCode, pretty code); (labelErrMessage, msg)].
Definition RecordRequestLatency (method : string) (latency code : Z) : X unit :=
  histogramObserve metricRequestLatency (fdiv (of_int latency) (of_int 1000000))
    [(labelMethod, method); (labelCode, pretty code)].
(** The symbol and the decimals of a token the cache knows. *)
Definition order_token (coinsCache : option mainCoinsCacheImpl) (tokenOriginNetwork : Z) (tokenAddress : bytes) : string * Z :=
  match coinsCache with
  | None => ("unknown"%string, 0)
  | Some c => match (GetCoinInfoByAddress tokenOriginNetwork tokenAddress c).1 with
              | Ok coinInfo => (coin_Symbol coinInfo, coin_Decimals coinInfo)
              | _ => ("unknown"%string, 0)
              end
  end.
Definition order_amount (decimals amount : Z) : float64 :=
  let floatAmount := default (of_int 0) (parse_float (pretty amount)) in
  if bool_decide (decimals ≠ 0) then fdiv floatAmount (Pow_10 decimals) else floatAmount.
Definition order_labels (networkID destNet leafType tokenOriginNetwork : Z) (tokenAddress : bytes) (tokenSymbol : string)
  : list (string * string) :=
  [(labelNetworkID, pretty networkID); (labelDestNet, pretty destNet); (labelLeafType, pretty leafType);
   (labelToken, tokenSymbol); (labelTokenAddress, string_of_list_byte (Address_Hex tokenAddress));
   (labelTokenOriginNetwork, pretty tokenOriginNetwork)].
Definition RecordOrder (coinsCache : option mainCoinsCacheImpl) (networkID destNet leafType tokenOriginNetwork : Z)
    (tokenAddress : bytes) (amount : Z) : X unit :=
  let '(tokenSymbol, decimals) := order_token coinsCache tokenOriginNetwork tokenAddress in
  let labels := order_labels networkID destNet leafType tokenOriginNetwork tokenAddress tokenSymbol in
  counterInc metricOrderCount labels;;
  counterAdd metricOrderTotalAmount (order_amount decimals amount) labels.
Definition RecordOrderWaitTime (networkID destNet dur : Z) : X unit :=
  histogramObserve metricOrderWaitTime (seconds dur) [(labelNetworkID, pretty networkID); (labelDestNet, pretty destNet)].
Definition RecordPendingMonitoredTxsCount (count : Z) : X unit := gaugeSet metricMonitoredTxsPendingCount (of_int count) [].
Definition RecordMonitoredTxsResult (status : string) : X unit := counterInc metricMonitoredTxsResultCount [(labelStatus, status)].
Definition RecordAutoClaimDuration (dur : Z) : X unit := histogramObserve metricMonitoredTxsDuration (seconds dur) [].
Definition RecordSynchronizerEvent (networkID : Z) (eventType : string) : X unit :=
  counterInc metricSynchronizerEventCount [(labelNetworkID, pretty networkID); (labelEventType, eventType)].
Definition RecordLastSyncedBlockNum (networkID blockNum : Z) : X unit :=
  gaugeSet metricLastSyncedBlockNum (of_int blockNum) [(labelNetworkID, pretty networkID)].
Definition RecordLatestBlockNum (networkID blockNum : Z) : X unit :=
  gaugeSet metricLatestBlockNum (of_int blockNum) [(labelNetworkID, pretty networkID)].
(** One tick of [ClientSynchronizer.RecordLatestBlockNum]. *)
Definition record_latest_tick (networkID : Z) (HeaderByNumber : M E Z) : X unit :=
  r ← attempt (x_prom HeaderByNumber);
  match r with inr _ => mret tt | inl header_Number => RecordLatestBlockNum networkID header_Number end.

(** ** The goroutine of the metrics, and the recorders

    [go enableMetrics(c)] runs [initMetrics] next to everything that records.  A step
    of the goroutine makes the maps ([initialized] is set last, and before that nobody
    looks at them), or registers a collector and begins to write its map, or ends
    that write; a step of a recorder is one update.  To read a map that is being
    written is a fatal error of Go, which no [recover] stops. *)
Record recording := mkRecording { rec_kind : metric_kind; rec_name : string; rec_labels : list (string * string); rec_update : update }.
Definition collectors_of (k : metric_kind) : XMetrics E → gmap string collector :=
  match k with KGaugeVec => xm_gauges | KCounterVec => xm_counters | _ => xm_histograms end.
Definition put_kind (k : metric_kind) : string → collector → XMetrics E → XMetrics E :=
  match k with KGaugeVec => put_gauge | KCounterVec => put_counter | _ => put_histogram end.
Definition run_recording (u : recording) : X unit :=
  x_update (collectors_of (rec_kind u)) (rec_name u) (rec_labels u) (rec_update u).

Inductive init_step : Type := MakeMaps | Register (c : collector).
Record MetricsProcess := mkProcess {
  mp_metrics : XMetrics E;
  mp_todo : list init_step;            (* what the goroutine has still to do *)
  mp_writing : option collector;       (* the collector it is putting in its map *)
}.
Definition enableMetrics_steps (env : string) : list init_step := MakeMaps :: (Register <$> registrations env).

Definition on_x {A} (m : X A) : M MetricsProcess A :=
  zoom mp_metrics (λ x s, mkProcess x (mp_todo s) (mp_writing s)) m.
Definition goroutine_step : M MetricsProcess unit :=
  s ← get;
  match mp_writing s, mp_todo s with
  | Some c, _ =>
      on_x (modify (put_kind (cl_kind c) (op_Name (cl_opts c)) c));;
      modify (λ s, mkProcess (mp_metrics s) (mp_todo s) None)
  | None, [] => mret tt
  | None, MakeMaps :: todo =>
      on_x (modify init_maps);; modify (λ s, mkProcess (mp_metrics s) todo None)
  | None, Register c :: todo =>
      written ← on_x (x_registering c);
      modify (λ s, mkProcess (mp_metrics s) todo (if written : bool then Some c else None))
  end.
Definition fatal_race : string := "fatal error: concurrent map read and map write".
Definition races (u : recording) (s : MetricsProcess) : bool :=
  match mp_writing s with Some c => bool_decide (cl_kind c = rec_kind u) | None => false end.
Definition recorder_step (u : recording) : M MetricsProcess unit :=
  s ← get;
  if xm_initialized (mp_metrics s) && races u s then gopanic fatal_race else on_x (run_recording u).

(** An interleaving: [None] is the next step of the goroutine. *)
Definition run_interleaved (schedule : list (option recording)) : M MetricsProcess unit :=
  for_each schedule (λ o, match o with None => goroutine_step | Some u => recorder_step u end).
End XMetrics.
