(* ===== verification/MetricsFacts.v ===== *)
(** * What is registered and what is recorded

    What the registry holds is registered with Prometheus; every metric of the
    synchronizer is recorded where its registration put it; and the calls that
    record the metrics of X Layer, interleaved with the goroutine that registers
    them, fail only when they read a map that is being written. *)
From Stdlib Require Import Strings.String SpecFloat.
From stdpp Require Import pretty.
From S2P Require Import Prelude Types EthClient Hex BridgeService Redis GoFloat StorageFacts LocalCache Metrics XMetrics RedisFacts.

(** ** Numbers without a sign *)
Definition unsigned (f : float64) : Prop :=
  match f with S754_zero true | S754_infinity true | S754_finite true _ _ => False | _ => True end.
Lemma unsigned_not_below f : unsigned f → SFltb f (of_int 0) = false.
Proof. by destruct f as [[]|[]| |[] ??]. Qed.
(** Rounding keeps the sign, and so do products and quotients. *)
Lemma round_aux_unsigned m e l : unsigned (binary_round_aux 53 1024 false m e l).
Proof.
  unfold binary_round_aux. destruct (shr_fexp _ _ _ _ _) as [? ?], (shr_fexp _ _ _ _ _) as [r ?].
  destruct (shr_m r); [done| |done]. by destruct (_ <=? _).
Qed.
Lemma round_unsigned m e : unsigned (binary_round 53 1024 false m e).
Proof. unfold binary_round. destruct (shl_align _ _ _). apply round_aux_unsigned. Qed.
Lemma of_int_unsigned z : 0 ≤ z → unsigned (of_int z).
Proof. destruct z; [done|intros _; apply round_unsigned|lia]. Qed.
Lemma fmul_unsigned x y : unsigned x → unsigned y → unsigned (fmul x y).
Proof. destruct x as [[]|[]| |[] ??], y as [[]|[]| |[] ??]; try done. intros _ _. apply round_aux_unsigned. Qed.
Lemma fdiv_unsigned x y : unsigned x → unsigned y → unsigned (fdiv x y).
Proof.
  destruct x as [[]|[]| |[] ??], y as [[]|[]| |[] ??]; try done. intros _ _. unfold fdiv, SFdiv.
  destruct (SFdiv_core_binary _ _ _ _ _ _) as [[? ?] ?]. apply round_aux_unsigned.
Qed.
Lemma fadd_self_unsigned x : unsigned x → unsigned (fadd x x).
Proof.
  destruct x as [[]|[]| |[] m e]; try done. intros _. unfold fadd, SFadd, cond_Zopp.
  set (a := fst (shl_align m e _)). replace (Z.pos a + Z.pos a) with (Z.pos (a + a)) by lia. apply round_unsigned.
Qed.
Lemma pow_loop_unsigned fuel : ∀ i a1 ae x1 xe, unsigned a1 → unsigned x1 → unsigned (pow_loop fuel i a1 ae x1 xe).1.
Proof.
  induction fuel as [|fuel IH]; intros i a1 ae x1 xe Ha Hx; cbn [pow_loop]; [done|].
  case_bool_decide; [done|]. case_match; [done|]. destruct (Z.odd i); (destruct (SFltb _ half); apply IH);
    eauto using fmul_unsigned, fadd_self_unsigned.
Qed.
Lemma Pow_10_unsigned y : unsigned (Pow_10 y).
Proof.
  unfold Pow_10. destruct (truncate _) as [yi|]; [|done].
  case_bool_decide; [exact I|]. case_bool_decide; [exact I|]. case_bool_decide; [exact I|].
  pose proof (pow_loop_unsigned 64 yi (of_int 1) 0 frexp_10.1 frexp_10.2 I I) as Hpow.
  destruct (pow_loop _ _ _ _ _ _) as [a ae]. cbn [fst] in Hpow. destruct a as [[]|[]| |[] m e]; try done. apply round_unsigned.
Qed.
Lemma order_amount_unsigned decimals amount : 0 ≤ amount → unsigned (order_amount decimals amount).
Proof.
  intros Ha. unfold order_amount, parse_float. rewrite parse_signed_pretty. cbn [fmap option_fmap option_map default].
  case_bool_decide; [|by apply of_int_unsigned]. apply fdiv_unsigned; [by apply of_int_unsigned|apply Pow_10_unsigned].
Qed.

(** ** The registry *)
Section Registry.
Context {E : Type} {Prom : Prometheus E} {POk : PrometheusOk E}.
Abbreviation Mt := (M (Metrics E)).

Definition is_vec (k : metric_kind) : bool := match k with KGaugeVec | KCounterVec | KHistogramVec => true | _ => false end.
(** What the maps hold is registered, under its own name and kind; only vectors
    have labels. *)
Definition registry_ok (s : Metrics E) : Prop :=
  ∀ k n c, mt_collectors s !! (k, n) = Some c →
    cl_kind c = k ∧ op_Name (cl_opts c) = n ∧ (is_vec k = false → cl_labels c = []) ∧ registered (mt_prom s) c.

Lemma registry_ok_env s e : registry_ok s → (∀ c, registered (mt_prom s) c → registered e c) → registry_ok (set_prom e s).
Proof. intros Hs He k n c Hc. destruct (Hs _ _ _ Hc) as (? & ? & ? & ?). split_and!; auto. Qed.
Lemma MustRegister_inv c e r e' : MustRegister c e = (r, e') →
  ∀ c', registered e' c' ↔ (c' = c ∧ r = Ok tt) ∨ registered e c'.
Proof.
  unfold MustRegister, attempt, mbind, M_bind.
  destruct (prom_Register c e) as [[[]|err|p] e1] eqn:H; intros [= <- <-] c'; apply Register_ok in H as [Hp H]; rewrite H;
    [done|by split; [intros [[_ ?]|]|intros [[_ ?]|]]; auto|by destruct (Hp p)].
Qed.
Lemma register_pres k o ls : (is_vec k = false → ls = []) → preserves registry_ok (register_if_not_exists k o ls : Mt unit).
Proof.
  intros Hls s r s' Hs. unfold register_if_not_exists, on_prom. unfold_M. cbn.
  destruct (mt_collectors s !! (k, op_Name o)) eqn:Hl; [by intros [= _ <-]|].
  destruct (MustRegister _ (mt_prom s)) as [r1 e] eqn:Hm. assert (Hreg := MustRegister_inv _ _ _ _ Hm).
  assert (He : registry_ok (set_prom e s)) by (apply registry_ok_env; [done|intros c Hc; apply Hreg; by right]).
  destruct r1 as [[]|err|p]; intros [= _ <-]; [|done..].
  intros k' n' c'. cbn. destruct (decide ((k, op_Name o) = (k', n'))) as [Hk|Hk].
  - rewrite Hk, lookup_insert_eq. intros [= <-]. injection Hk as -> <-. split_and!; [done..|]. apply Hreg. by left.
  - rewrite lookup_insert_ne by done. apply He.
Qed.
Lemma unregister_pres k n : preserves registry_ok (unregister_if_exists k n : Mt unit).
Proof.
  intros s r s' Hs. unfold unregister_if_exists, on_prom. unfold_M. cbn.
  destruct (mt_collectors s !! (k, n)) as [c|] eqn:Hl; [|by intros [= _ <-]].
  destruct (prom_Unregister c (mt_prom s)) as [r1 e] eqn:Hu. apply Unregister_ok in Hu as ([] & -> & Hu); cbn.
  - intros [= _ <-] k' n' c'. cbn. rewrite lookup_delete_Some. intros [Hk Hc]. apply Hs in Hc as (Hk' & Hn' & ? & ?).
    apply Hs in Hl as (? & ? & _). split_and!; [done..|]. apply Hu. split; [done|]. intros [-> _]. congruence.
  - intros [= _ <-]. apply registry_ok_env; [done|]. intros c' Hc. apply Hu. split; [done|]. by intros [_ ?].
Qed.
Lemma on_collector_pres find values u : (∀ s, (find s).2 = s) → preserves registry_ok (on_collector find values u : Mt unit).
Proof.
  intros Hf s r s' Hs. unfold on_collector, if_initialized. destruct (mt_initialized s); [|by intros [= _ <-]].
  unfold mbind, M_bind. specialize (Hf s). destruct (find s) as [[[c|]|err|p] s1]; cbn in Hf; subst; try by intros [= _ <-].
  unfold on_prom, zoom. destruct (prom_Update c values u (mt_prom s)) as [r1 e] eqn:Hu. intros [= _ <-].
  apply registry_ok_env; [done|]. intros c'. apply (Update_ok _ _ _ _ _ _ Hu).
Qed.
Lemma if_initialized_pres m : preserves registry_ok m → preserves registry_ok (if_initialized m : Mt unit).
Proof. intros Hm s r s' Hs. unfold if_initialized. destruct (mt_initialized s); [by apply Hm|by intros [= _ <-]]. Qed.
Lemma plain_pres k (opts : list Opts) :
  preserves registry_ok (if_initialized (for_each opts (λ o, register_if_not_exists k o [])) : Mt unit).
Proof. apply if_initialized_pres, pres_for_each. intros o. by apply register_pres. Qed.
Lemma vec_pres k (opts : list VecOpts) : is_vec k = true →
  preserves registry_ok (if_initialized (for_each opts (λ o, register_if_not_exists k (vo_Opts o) (vo_Labels o))) : Mt unit).
Proof. intros Hk. apply if_initialized_pres, pres_for_each. intros o. apply register_pres. congruence. Qed.
Lemma unregisters_pres k names : preserves registry_ok (if_initialized (for_each names (unregister_if_exists k)) : Mt unit).
Proof. apply if_initialized_pres, pres_for_each. intros n. apply unregister_pres. Qed.
Lemma Init_pres : preserves registry_ok (Init : Mt unit).
Proof. apply pres_modify. intros s Hs. destruct (mt_initialized s); [done|]. by intros k n c. Qed.

(** The calls of the package and of the packages that use it. *)
Inductive registry_op : Type :=
| OpInit
| OpRegister (kind : metric_kind) (opts : list Opts)
| OpRegisterVec (kind : metric_kind) (opts : list VecOpts)
| OpUnregister (kind : metric_kind) (names : list string)
| OpRecord (kind : metric_kind) (name : string) (label : option string) (u : update)
| OpPackages (networkID : Z).
Definition run_op (op : registry_op) : Mt unit :=
  match op with
  | OpInit => Init
  | OpRegister KGauge opts => RegisterGauges opts
  | OpRegister KCounter opts => RegisterCounters opts
  | OpRegister KHistogram opts => RegisterHistograms opts
  | OpRegister KSummary opts => RegisterSummaries opts
  | OpRegisterVec KCounterVec opts => RegisterCounterVecs opts
  | OpRegisterVec KHistogramVec opts => RegisterHistogramVecs opts
  | OpUnregister KGauge names => UnregisterGauges names
  | OpUnregister KCounter names => UnregisterCounters names
  | OpUnregister KCounterVec names => UnregisterCounterVecs names
  | OpUnregister KHistogram names => UnregisterHistogram names
  | OpUnregister KHistogramVec names => UnregisterHistogramVecs names
  | OpUnregister KSummary names => UnregisterSummaries names
  | OpRecord KGauge name _ (USet v) => GaugeSet name v
  | OpRecord KGauge name _ UInc => GaugeInc name
  | OpRecord KGauge name _ UDec => GaugeDec name
  | OpRecord KCounter name _ UInc => CounterInc name
  | OpRecord KCounter name _ (UAdd v) => CounterAdd name v
  | OpRecord KCounterVec name (Some label) UInc => CounterVecInc name label
  | OpRecord KCounterVec name (Some label) (UAdd v) => CounterVecAdd name label v
  | OpRecord KHistogram name _ (UObserve v) => HistogramObserve name v
  | OpRecord KHistogramVec name (Some label) (UObserve v) => HistogramVecObserve name label v
  | OpPackages networkID => etherman_Register networkID;; api_Register networkID;; sync_Register networkID
  | _ => mret tt
  end.
Lemma run_op_pres op : preserves registry_ok (run_op op).
Proof.
  destruct op as [|k opts|k opts|k names|k name label u|net]; cbn [run_op].
  - apply Init_pres.
  - destruct k; try apply pres_ret; apply plain_pres.
  - destruct k; try apply pres_ret; by apply vec_pres.
  - destruct k; try apply pres_ret; apply unregisters_pres.
  - destruct k, u, label; first [apply pres_ret|by apply on_collector_pres].
  - unfold etherman_Register, api_Register, sync_Register.
    repeat first [apply plain_pres | apply pres_gets | apply pres_modify; intros s Hs; exact Hs | apply pres_bind; [|intros ?]].
Qed.

(** Whatever is registered, unregistered, recorded or refused, in whatever
    order, a collector the maps hold is registered with Prometheus, stands under
    its own name and kind, and has labels only when it is a vector: recording a
    plain metric never panics. *)
Theorem registry_consistent ops e r s'
  (Hrun : for_each ops run_op (mkMetrics e false ∅ "" "") = (r, s')) :
  registry_ok s' ∧
  ∀ k name u r1 s1, is_vec k = false → update_fits (mkCollector k (plain_opts name "") []) u = true →
    on_collector (lookup_collector k name) (Positions []) u s' = (r1, s1) → r1 = Ok tt.
Proof.
  assert (Hok : registry_ok s').
  { eapply (pres_for_each registry_ok ops run_op); [intros ?; apply run_op_pres| |exact Hrun]. by intros k n c. }
  split; [done|]. intros k name u r1 s1 Hk Hu. unfold on_collector, if_initialized. destruct (mt_initialized s') eqn:Hi; [|by intros [= <- _]].
  unfold_M. unfold lookup_collector, on_prom. unfold_M. rewrite Hi. destruct (mt_collectors s' !! (k, name)) as [c|] eqn:Hl; [|by intros [= <- _]].
  destruct (Hok _ _ _ Hl) as (Hk' & _ & Hls & _).
  destruct (prom_Update c (Positions []) u (mt_prom s')) as [r2 e2] eqn:He. intros [= <- _].
  apply (proj2 (Update_ok _ _ _ _ _ _ He)); [cbn; by rewrite Hls|constructor|]. revert Hu. unfold update_fits. by rewrite Hk'.
Qed.

(** *** The metrics of the synchronizer *)
Definition grown (s s' : Metrics E) : Prop :=
  mt_initialized s' = mt_initialized s ∧ mt_sync_Prefix s' = mt_sync_Prefix s ∧ mt_collectors s ⊆ mt_collectors s'.
#[local] Instance grown_preorder : PreOrder grown.
Proof.
  split; [by intros s|]. intros s1 s2 s3 (H1 & H2 & H3) (H4 & H5 & H6).
  split_and!; [congruence|congruence|by transitivity (mt_collectors s2)].
Qed.
Definition has (k : metric_kind) (name : string) (s : Metrics E) : Prop := is_Some (mt_collectors s !! (k, name)).
Lemma has_grown k name s s' : grown s s' → has k name s → has k name s'.
Proof. intros (_ & _ & Hs) [c Hc]. exists c. by eapply lookup_weaken. Qed.
Lemma register_grown k o ls s s' : register_if_not_exists k o ls s = (Ok tt, s') → grown s s' ∧ has k (op_Name o) s'.
Proof.
  unfold register_if_not_exists, on_prom, has. unfold_M. cbn.
  destruct (mt_collectors s !! (k, op_Name o)) eqn:Hl; [by intros [= <-]; split; [reflexivity|eexists]|].
  destruct (MustRegister _ _) as [[[]| |] e]; [|done..]. intros [= <-]. cbn. split; [|rewrite lookup_insert_eq; by eexists].
  split_and!; [done..|]. cbn. by apply insert_subseteq.
Qed.
Lemma registers_grown k opts : ∀ s s', for_each opts (λ o, register_if_not_exists k o []) s = (Ok tt, s') →
  grown s s' ∧ ∀ o, o ∈ opts → has k (op_Name o) s'.
Proof.
  induction opts as [|o opts IH]; intros s s'; cbn [for_each]; [by intros [= <-]; split; [reflexivity|intros ? ?%elem_of_nil]|].
  intros H. inv_bind H. destruct a. apply register_grown in H0 as [Hg Ho]. apply IH in H1 as [Hg' Hos].
  split; [by transitivity s0|]. intros o' [->|?]%elem_of_cons; [by eapply has_grown|by apply Hos].
Qed.
(** A recorder that updates one registered collector of its network, and nothing
    else, without a panic. *)
Definition records (pre : string) (s : Metrics E) (m : Mt unit) : Prop :=
  ∃ k name c u, mt_collectors s !! (k, pre +:+ name) = Some c ∧ registered (mt_prom s) c ∧
    m s = (Ok tt, set_prom (prom_Update c (Positions []) u (mt_prom s)).2 s).
Lemma on_collector_records k name u pre s : registry_ok s → mt_initialized s = true → has k (pre +:+ name) s →
  is_vec k = false → update_fits (mkCollector k (plain_opts name "") []) u = true →
  records pre s (on_collector (lookup_collector k (pre +:+ name)) (Positions []) u).
Proof.
  intros Hok Hi [c Hc] Hk Hu. exists k, name, c, u. destruct (Hok _ _ _ Hc) as (Hk' & _ & Hls & Hr). split_and!; [done..|].
  unfold on_collector, if_initialized, lookup_collector, on_prom. unfold_M. rewrite Hi, Hc.
  destruct (prom_Update c (Positions []) u (mt_prom s)) as [r e] eqn:He. cbn. f_equal.
  apply (proj2 (Update_ok _ _ _ _ _ _ He)); [cbn; by rewrite Hls|constructor|]. revert Hu. unfold update_fits. by rewrite Hk'.
Qed.
Lemma with_syncPrefix_records pre s f : mt_sync_Prefix s = pre → records pre s (f pre) → records pre s (with_syncPrefix f).
Proof. by intros <-. Qed.

Lemma sync_Register_registers networkID s s' :
  mt_initialized s = true → sync_Register networkID s = (Ok tt, s') →
  let pre := sync_prefix networkID in
  mt_initialized s' = true ∧ mt_sync_Prefix s' = pre ∧
  (∀ o, o ∈ sync_histograms pre → has KHistogram (op_Name o) s') ∧
  (∀ o, o ∈ sync_counters pre → has KCounter (op_Name o) s') ∧ (∀ o, o ∈ sync_gauges pre → has KGauge (op_Name o) s').
Proof.
  intros Hinit Hrun. unfold sync_Register in Hrun. apply M_bind_inv in Hrun as ([] & s1 & Hm & Hrun). injection Hm as <-.
  apply M_bind_inv in Hrun as (pre & s1 & [= <- <-] & Hrun). inv_bind Hrun. inv_bind H0. destruct a, a0. cbn [mt_sync_Prefix] in *.
  unfold RegisterHistograms, RegisterCounters, RegisterGauges, if_initialized in *. cbn [mt_initialized] in *. rewrite Hinit in *.
  apply registers_grown in H as [Hg1 Hh]. destruct (Hg1) as (Hi1 & Hp1 & _). cbn in Hi1, Hp1. rewrite Hi1 in H1.
  apply registers_grown in H1 as [Hg2 Hc]. destruct (Hg2) as (Hi2 & Hp2 & _). rewrite Hi2, Hi1 in H2.
  apply registers_grown in H2 as [Hg3 Hg]. destruct (Hg3) as (Hi3 & Hp3 & _). split_and!; [congruence..| | |exact Hg].
  - intros o Ho. eapply has_grown; [exact Hg3|]. eapply has_grown; eauto.
  - intros o Ho. eapply has_grown; eauto.
Qed.

(** Everything the synchronizer records finds its metric registered, under the
    network of the last synchronizer that was created. *)
Theorem sync_metrics_recorded networkID s s' b amount d
  (Hinit : mt_initialized s = true) (Hok : registry_ok s) (Hrun : sync_Register networkID s = (Ok tt, s')) :
  Forall (records (sync_prefix networkID) s')
    [LatestBlockSynced b; IncrementsPendingBridgesToClaim networkID; DecrementsPendingBridgesToClaim; DepositAmount amount;
     ClaimAmount amount; InitializationTime d; FullTrustedSyncTime d; FullL1SyncTime d; FullSyncIterationTime d; ReadL1DataTime d;
     ProcessL1DataTime d; GetTrustedGerTime d; GetTrustedExitRootsTime d; DepositCounter; ClaimCounter; VerifyBatchCounter;
     RemoveL2GERCounter; L2GERCounter; L1GERCounter; ReorgCounter; ReorgedBlocksCounter; WrappedTokensCounter].
Proof.
  assert (Hok' : registry_ok s').
  { assert (Hpres : preserves registry_ok (sync_Register networkID : Mt unit)) by
      (unfold sync_Register;
       repeat first [apply plain_pres | apply pres_gets | apply pres_modify; intros ? Hs; exact Hs | apply pres_bind; [|intros ?]]).
    by eapply Hpres. }
  destruct (sync_Register_registers _ _ _ Hinit Hrun) as (Hi & Hp & Hh & Hc & Hg).
  unfold sync_counters in Hc. unfold sync_histograms in Hh. unfold sync_gauges in Hg.
  rewrite <- !Forall_forall, !Forall_cons in *. cbn [plain_opts op_Name] in *. destruct_and!.
  split_and!; try apply Forall_nil_2;
    first [apply with_syncPrefix_records; [done|]|idtac]; by apply on_collector_records.
Qed.

(** There is one prefix for all synchronizers: once the second one is created,
    the deposits of the first count as those of the second. *)
Theorem synchronizers_share_prefix net1 net2 s s1 s2
  (Hinit : mt_initialized s = true) (H1 : sync_Register net1 s = (Ok tt, s1)) (H2 : sync_Register net2 s1 = (Ok tt, s2)) :
  DepositCounter s2 = CounterInc (sync_prefix net2 +:+ DepositCounterName) s2.
Proof.
  destruct (sync_Register_registers _ _ _ Hinit H1) as (Hi & _).
  destruct (sync_Register_registers _ _ _ Hi H2) as (_ & Hp & _).
  unfold DepositCounter, with_syncPrefix. unfold_M. by rewrite Hp.
Qed.
End Registry.

(** ** X Layer *)
Section XFacts.
Context {E : Type} {Prom : Prometheus E} {POk : PrometheusOk E} {Com : Common}.
Abbreviation X := (M (XMetrics E)).

(** The labels each metric is registered with. *)
Definition gauge_labels : gmap string (list string) := list_to_map
  [(metricMonitoredTxsPendingCount, []); (metricLastSyncedBlockNum, [labelNetworkID]); (metricLatestBlockNum, [labelNetworkID])].
Definition counter_labels : gmap string (list string) := list_to_map
  [(metricRequestCount, [labelMethod; labelCode; labelErrMessage]); (metricOrderCount, order_label_names);
   (metricOrderTotalAmount, order_label_names); (metricMonitoredTxsResultCount, [labelStatus]);
   (metricSynchronizerEventCount, [labelNetworkID; labelEventType])].
Definition histogram_labels : gmap string (list string) := list_to_map
  [(metricRequestLatency, [labelMethod; labelCode]); (metricOrderWaitTime, [labelNetworkID; labelDestNet]);
   (metricMonitoredTxsDuration, [])].
Definition table_ok (kind : metric_kind) (table : gmap string (list string)) (collectors : gmap string collector) : Prop :=
  ∀ n c, collectors !! n = Some c → cl_kind c = kind ∧ table !! n = Some (cl_labels c).
Definition x_ok (s : XMetrics E) : Prop :=
  table_ok KGaugeVec gauge_labels (xm_gauges s) ∧ table_ok KCounterVec counter_labels (xm_counters s) ∧
  table_ok KHistogramVec histogram_labels (xm_histograms s).
Lemma table_ok_insert kind table collectors n c :
  table_ok kind table collectors → cl_kind c = kind → table !! n = Some (cl_labels c) →
  table_ok kind table (<[n := c]> collectors).
Proof. intros Ht Hk Hl n' c'. destruct (decide (n = n')) as [->|]; [rewrite lookup_insert_eq; by intros [= <-]|rewrite lookup_insert_ne by done; apply Ht]. Qed.

(** A call never fails, and keeps the labels. *)
Definition fine (m : X unit) : Prop := ∀ s r s', x_ok s → m s = (r, s') → r = Ok tt ∧ x_ok s'.
Lemma fine_bind m (f : unit → X unit) : fine m → fine (f tt) → fine (m ≫= f).
Proof.
  intros Hm Hf s r s' Hs. unfold mbind, M_bind. destruct (m s) as [r1 s1] eqn:H. apply Hm in H as [-> H1]; [|done]. by apply Hf.
Qed.
Lemma x_registering_ok c s r s' : x_ok s → x_registering c s = (r, s') → x_ok s' ∧ ∃ b, r = Ok b.
Proof.
  intros Hs. unfold x_registering, x_prom. unfold_M. destruct (negb _); [intros [= <- <-]; split; [done|by eexists]|].
  destruct (xm_gauges s !! op_Name (cl_opts c)); [intros [= <- <-]; split; [done|by eexists]|].
  destruct (prom_Register c (xm_prom s)) as [r1 e] eqn:Hr. apply Register_ok in Hr as [Hp _].
  destruct r1 as [[]|err|p]; cbn; [intros [= <- <-]; split; [done|by eexists]..|by destruct (Hp p)].
Qed.
(** The collectors the package registers: each under the labels of its table. *)
Definition in_table (c : collector) : Prop :=
  match cl_kind c with
  | KGaugeVec => gauge_labels !! op_Name (cl_opts c) = Some (cl_labels c)
  | KCounterVec => counter_labels !! op_Name (cl_opts c) = Some (cl_labels c)
  | KHistogramVec => histogram_labels !! op_Name (cl_opts c) = Some (cl_labels c)
  | _ => False
  end.
Lemma registrations_in_table env : Forall in_table (registrations env).
Proof. by repeat constructor. Qed.
Lemma put_kind_ok c s : in_table c → x_ok s → x_ok (put_kind (E := E) (cl_kind c) (op_Name (cl_opts c)) c s).
Proof.
  unfold in_table. intros Hc (Hg & Hct & Hh). destruct (cl_kind c) eqn:Hk; try done; cbn; split_and!; try done; by apply table_ok_insert.
Qed.
Lemma init_maps_ok s : x_ok s → x_ok (init_maps (E := E) s).
Proof. intros Hs. unfold init_maps. by destruct (xm_initialized s). Qed.

Lemma x_update_fine (collectors : XMetrics E → gmap string collector) kind table name labels u ls :
  (∀ s, x_ok s → table_ok kind table (collectors s)) → table !! name = Some ls →
  NoDup labels.*1 → labels.*1 ≡ₚ ls → Forall is_text labels.*2 → update_fits (mkCollector kind (plain_opts "" "") []) u = true →
  fine (x_update collectors name labels u).
Proof.
  intros Hcol Hl Hnd Hp Ht Hu s r s' Hs. unfold x_update, x_prom. unfold_M. destruct (negb _); [by intros [= <- <-]|].
  destruct (collectors s !! name) as [c|] eqn:Hc; [|by intros [= <- <-]]. apply (Hcol s Hs) in Hc as [Hk Hc]. rewrite Hl in Hc.
  injection Hc as ->. destruct (prom_Update c (Names labels) u (xm_prom s)) as [r1 e] eqn:He. intros [= <- <-]. split; [|done].
  apply (proj2 (Update_ok _ _ _ _ _ _ He)); [by split|done|]. revert Hu. unfold update_fits. by rewrite Hk.
Qed.

(** *** The calls of the package *)
Inductive x_action : Type :=
| XRequest (method : string) (code : Z) (msg : string)
| XRequestLatency (method : string) (latency code : Z)
| XOrder (coinsCache : option mainCoinsCacheImpl) (networkID destNet leafType tokenOriginNetwork : Z) (tokenAddress : bytes) (amount : Z)
| XOrderWaitTime (networkID destNet dur : Z)
| XPendingMonitoredTxsCount (count : Z)
| XMonitoredTxsResult (status : string)
| XAutoClaimDuration (dur : Z)
| XSynchronizerEvent (networkID : Z) (eventType : string)
| XLastSyncedBlockNum (networkID blockNum : Z)
| XLatestBlockNum (networkID blockNum : Z).
Definition run_x_action (a : x_action) : X unit :=
  match a with
  | XRequest method code msg => RecordRequest method code msg
  | XRequestLatency method latency code => RecordRequestLatency method latency code
  | XOrder cache net dest leaf orig address amount => RecordOrder cache net dest leaf orig address amount
  | XOrderWaitTime net dest dur => RecordOrderWaitTime net dest dur
  | XPendingMonitoredTxsCount count => RecordPendingMonitoredTxsCount count
  | XMonitoredTxsResult status => RecordMonitoredTxsResult status
  | XAutoClaimDuration dur => RecordAutoClaimDuration dur
  | XSynchronizerEvent net eventType => RecordSynchronizerEvent net eventType
  | XLastSyncedBlockNum net n => RecordLastSyncedBlockNum net n
  | XLatestBlockNum net n => RecordLatestBlockNum net n
  end.
(** The values of the labels, and the amount of an order. *)
Definition action_values (a : x_action) : list string :=
  match a with
  | XRequest method code msg => [method; pretty code; msg]
  | XRequestLatency method latency code => [method; pretty code]
  | XOrder cache net dest leaf orig address amount =>
      (order_labels net dest leaf orig address (order_token cache orig address).1).*2
  | XOrderWaitTime net dest dur => [pretty net; pretty dest]
  | XMonitoredTxsResult status => [status]
  | XSynchronizerEvent net eventType => [pretty net; eventType]
  | XLastSyncedBlockNum net _ | XLatestBlockNum net _ => [pretty net]
  | _ => []
  end.
Definition action_amount (a : x_action) : Z := match a with XOrder _ _ _ _ _ _ amount => amount | _ => 0 end.

Lemma counter_fine name labels u ls : counter_labels !! name = Some ls → NoDup labels.*1 → labels.*1 ≡ₚ ls →
  Forall is_text labels.*2 → update_fits (mkCollector KCounterVec (plain_opts "" "") []) u = true →
  fine (x_update xm_counters name labels u).
Proof. apply x_update_fine. by intros s (_ & ? & _). Qed.
Lemma histogram_fine name v labels ls : histogram_labels !! name = Some ls → NoDup labels.*1 → labels.*1 ≡ₚ ls →
  Forall is_text labels.*2 → fine (histogramObserve name v labels).
Proof. intros Hl Hn Hp Ht. apply (x_update_fine _ KHistogramVec histogram_labels _ _ _ ls); try done. by intros s (_ & _ & ?). Qed.
Lemma gauge_fine name v labels ls : gauge_labels !! name = Some ls → NoDup labels.*1 → labels.*1 ≡ₚ ls →
  Forall is_text labels.*2 → fine (gaugeSet name v labels).
Proof. intros Hl Hn Hp Ht. apply (x_update_fine _ KGaugeVec gauge_labels _ _ _ ls); try done. by intros s (? & _). Qed.
(** The updates a call makes, in order. *)
Definition action_updates (a : x_action) : list recording :=
  match a with
  | XRequest method code msg =>
      [mkRecording KCounterVec metricRequestCount [(labelMethod, method); (labelCode, pretty code); (labelErrMessage, msg)] UInc]
  | XRequestLatency method latency code =>
      [mkRecording KHistogramVec metricRequestLatency [(labelMethod, method); (labelCode, pretty code)]
         (UObserve (fdiv (of_int latency) (of_int 1000000)))]
  | XOrder cache net dest leaf orig address amount =>
      let labels := order_labels net dest leaf orig address (order_token cache orig address).1 in
      [mkRecording KCounterVec metricOrderCount labels UInc;
       mkRecording KCounterVec metricOrderTotalAmount labels (UAdd (order_amount (order_token cache orig address).2 amount))]
  | XOrderWaitTime net dest dur =>
      [mkRecording KHistogramVec metricOrderWaitTime [(labelNetworkID, pretty net); (labelDestNet, pretty dest)] (UObserve (seconds dur))]
  | XPendingMonitoredTxsCount count => [mkRecording KGaugeVec metricMonitoredTxsPendingCount [] (USet (of_int count))]
  | XMonitoredTxsResult status => [mkRecording KCounterVec metricMonitoredTxsResultCount [(labelStatus, status)] UInc]
  | XAutoClaimDuration dur => [mkRecording KHistogramVec metricMonitoredTxsDuration [] (UObserve (seconds dur))]
  | XSynchronizerEvent net eventType =>
      [mkRecording KCounterVec metricSynchronizerEventCount [(labelNetworkID, pretty net); (labelEventType, eventType)] UInc]
  | XLastSyncedBlockNum net n => [mkRecording KGaugeVec metricLastSyncedBlockNum [(labelNetworkID, pretty net)] (USet (of_int n))]
  | XLatestBlockNum net n => [mkRecording KGaugeVec metricLatestBlockNum [(labelNetworkID, pretty net)] (USet (of_int n))]
  end.
Lemma action_updates_run a s : run_x_action a s = for_each (action_updates a) run_recording s.
Proof.
  assert (Hone : ∀ (m : X unit), m s = (_ ← m; mret tt) s).
  { intros m. unfold_M. by destruct (m s) as [[[]|err|p] s1]. }
  destruct a; cbn [run_x_action action_updates for_each]; try apply Hone.
  unfold RecordOrder. destruct (order_token _ _ _) as [symbol decimals]. cbn [fst snd].
  unfold mbind, M_bind. unfold run_recording, counterInc, counterAdd. cbn [rec_kind rec_name rec_labels rec_update collectors_of].
  destruct (x_update _ _ _ UInc s) as [[[]|err|p] s1]; [|done..]. by destruct (x_update _ _ _ _ s1) as [[[]|err|p] s2].
Qed.
(** The values of the labels are text, and orders are not negative. *)
Definition recordable (u : recording) : Prop :=
  ∃ a, u ∈ action_updates a ∧ Forall is_text (action_values a) ∧ 0 ≤ action_amount a.
Lemma run_recording_fine u : recordable u → fine (run_recording u).
Proof.
  intros (a & Hu & Ht & Ha). unfold run_recording.
  destruct a; cbn [action_updates action_values action_amount] in *;
    try (apply list_elem_of_singleton in Hu as ->; cbn [rec_kind rec_name rec_labels rec_update collectors_of];
      first [eapply counter_fine; [reflexivity|decided|decided|done|done]
            | eapply histogram_fine; [reflexivity|decided|decided|done] | eapply gauge_fine; [reflexivity|decided|decided|done]]).
  set (symbol := (order_token _ _ _).1) in *.
  assert (Hp : (order_labels networkID destNet leafType tokenOriginNetwork tokenAddress symbol).*1 ≡ₚ order_label_names) by decided.
  assert (Hn : NoDup (order_labels networkID destNet leafType tokenOriginNetwork tokenAddress symbol).*1) by decided.
  apply elem_of_cons in Hu as [-> | ->%list_elem_of_singleton]; cbn [rec_kind rec_name rec_labels rec_update collectors_of];
    (eapply counter_fine; [reflexivity|done..|]); [done|].
  cbn. by rewrite unsigned_not_below by by apply order_amount_unsigned.
Qed.

(** *** The goroutine and the recorders *)
Abbreviation process := (MetricsProcess (E := E)).
Definition step_ok (i : init_step) : Prop := match i with MakeMaps => True | Register c => in_table c end.
Record process_ok (s : process) : Prop := {
  po_metrics : x_ok (mp_metrics s);
  po_todo : Forall step_ok (mp_todo s);
  po_writing : ∀ c, mp_writing s = Some c → in_table c;
}.
Lemma goroutine_step_ok s r s' : process_ok s → goroutine_step s = (r, s') → r = Ok tt ∧ process_ok s'.
Proof.
  intros [Hx Htodo Hw]. destruct s as [x todo w]. cbn in Hx, Htodo, Hw. unfold goroutine_step, on_x. unfold_M. cbn.
  destruct w as [c|].
  - intros [= <- <-]. split; [done|]. split; cbn; [by apply put_kind_ok; [apply Hw|]|done|done].
  - destruct todo as [|[|c] todo]; cbn.
    + intros [= <- <-]. done.
    + intros [= <- <-]. split; [done|]. split; cbn; [by apply init_maps_ok|by apply Forall_cons in Htodo as [_ ?]|done].
    + apply Forall_cons in Htodo as [Hc Htodo]. destruct (x_registering c x) as [r1 x1] eqn:H1.
      apply x_registering_ok in H1 as [Hx1 [b ->]]; [|done]. intros [= <- <-]. split; [done|]. split; cbn; [done|done|].
      destruct b; by intros c' [= <-].
Qed.
(** An update that meets no write is made, and nothing else changes. *)
Lemma recorder_step_ok u s r s' : process_ok s → recordable u → recorder_step u s = (r, s') →
  (r = Ok tt ∧ process_ok s') ∨ ∃ c, mp_writing s = Some c ∧ cl_kind c = rec_kind u ∧ r = Panic fatal_race.
Proof.
  intros [Hx Htodo Hw] Hu. destruct s as [x todo w]. cbn in Hx, Htodo, Hw. unfold recorder_step, on_x, races. unfold_M. cbn.
  destruct (xm_initialized x && _) eqn:Hrace; cbn.
  - intros [= <- <-]. right. apply andb_true_iff in Hrace as [_ Hrace]. destruct w as [c|]; [|done].
    exists c. by apply bool_decide_eq_true in Hrace.
  - destruct (run_recording u x) as [r1 x1] eqn:H1. apply run_recording_fine in H1 as [-> Hx1]; [|done|done].
    intros [= <- <-]. left. split; [done|]. by split.
Qed.
(** The process when [run] has just started its goroutine. *)
Definition started (env : string) (e : E) : process := mkProcess (mkXMetrics e false ∅ ∅ ∅) (enableMetrics_steps env) None.
Lemma started_ok env e : process_ok (started env e).
Proof.
  split; cbn; [by split_and!| |done]. constructor; [done|]. apply Forall_fmap. apply registrations_in_table.
Qed.
Lemma interleaved_ok schedule : ∀ s r s', process_ok s → Forall (λ o, ∀ u, o = Some u → recordable u) schedule →
  run_interleaved schedule s = (r, s') →
  (r = Ok tt ∧ process_ok s') ∨ ∃ pre u post s1 c, schedule = pre ++ Some u :: post ∧
    run_interleaved pre s = (Ok tt, s1) ∧ mp_writing s1 = Some c ∧ cl_kind c = rec_kind u ∧ r = Panic fatal_race.
Proof.
  unfold run_interleaved. induction schedule as [|o schedule IH]; intros s r s' Hs Hall; cbn [for_each].
  { intros [= <- <-]. by left. }
  apply Forall_cons in Hall as [Ho Hall]. unfold mbind at 1, M_bind at 1.
  destruct (match o with None => goroutine_step | Some u => recorder_step u end s) as [r1 s1] eqn:H1.
  assert (Hstep : (r1 = Ok tt ∧ process_ok s1) ∨ ∃ u c, o = Some u ∧ mp_writing s = Some c ∧ cl_kind c = rec_kind u ∧ r1 = Panic fatal_race).
  { destruct o as [u|]; [|by apply goroutine_step_ok in H1; [left|]].
    apply recorder_step_ok in H1 as [?|(c & ? & ? & ?)]; [by left| |done|by apply Ho]. right. by exists u, c. }
  destruct Hstep as [[-> Hs1]|(u & c & -> & Hw & Hk & ->)].
  - intros H. destruct (IH s1 r s' Hs1 Hall H) as [?|(pre & u & post & s2 & c & -> & Hpre & ?)]; [by left|].
    right. exists (o :: pre), u, post, s2, c. split; [done|]. split; [|done]. cbn [for_each].
    unfold mbind at 1, M_bind at 1. by rewrite H1.
  - intros [= <- <-]. right. by exists [], u, schedule, s, c.
Qed.

(** On its own, the goroutine does what [initMetrics] does. *)
Lemma register_kind_eq c : in_table c → register_kind c = x_register (put_kind (E := E) (cl_kind c)) c.
Proof. destruct c as [k o l]. by destruct k. Qed.
Lemma run_interleaved_app l l' s s1 : run_interleaved l s = (Ok tt, s1) →
  run_interleaved (l ++ l') s = run_interleaved l' (s1 : process).
Proof.
  revert s. unfold run_interleaved. induction l as [|o l IH]; intros s; cbn [for_each app]; [by intros [= <-]|].
  unfold mbind, M_bind. case_match eqn:Ho. destruct r as [[]|err|p]; [apply IH|done..].
Qed.
Lemma goroutine_registering c x b x1 todo : x_registering c x = (Ok b, x1) →
  goroutine_step (mkProcess x (Register c :: todo) None) = (Ok tt, mkProcess x1 todo (if b then Some c else None)).
Proof. intros H. unfold goroutine_step, on_x. unfold_M. cbn. by rewrite H. Qed.
Lemma goroutine_register c x todo : in_table c → x_ok x → ∃ n x', x_ok x' ∧ register_kind c x = (Ok tt, x') ∧
  run_interleaved (replicate n None) (mkProcess x (Register c :: todo) None) = (Ok tt, mkProcess x' todo None).
Proof.
  intros Hc Hx. rewrite register_kind_eq by done. unfold x_register. destruct (x_registering c x) as [r x1] eqn:H1.
  destruct (x_registering_ok _ _ _ _ Hx H1) as [Hx1 [b ->]]. pose proof (goroutine_registering c x b x1 todo H1) as Hstep.
  rewrite (M_bind_ok _ _ _ _ _ H1). unfold run_interleaved. destruct b.
  - exists 2%nat, (put_kind (cl_kind c) (op_Name (cl_opts c)) c x1). split; [by apply put_kind_ok|]. split; [done|].
    cbn [replicate for_each]. by rewrite (M_bind_ok _ _ _ _ _ Hstep).
  - exists 1%nat, x1. split; [done|]. split; [done|]. cbn [replicate for_each]. by rewrite (M_bind_ok _ _ _ _ _ Hstep).
Qed.
Lemma goroutine_registers cs : ∀ x, Forall in_table cs → x_ok x → ∃ n x', for_each cs register_kind x = (Ok tt, x') ∧
  run_interleaved (replicate n None) (mkProcess x (Register <$> cs) None) = (Ok tt, mkProcess x' [] None).
Proof.
  induction cs as [|c cs IH]; intros x Hcs Hx; [by exists 0%nat, x|]. apply Forall_cons in Hcs as [Hc Hcs].
  destruct (goroutine_register c x (Register <$> cs) Hc Hx) as (n & x1 & Hx1 & Hr & Hg).
  destruct (IH x1 Hcs Hx1) as (n' & x2 & Hr' & Hg'). exists (n + n')%nat, x2. split.
  - cbn [for_each]. by rewrite (M_bind_ok _ _ _ _ _ Hr).
  - rewrite replicate_add. cbn [fmap list_fmap]. by rewrite (run_interleaved_app _ _ _ _ Hg).
Qed.
Theorem goroutine_alone env e : ∃ n x, initMetrics env (mkXMetrics e false ∅ ∅ ∅) = (Ok tt, x) ∧
  run_interleaved (replicate n None) (started env e) = (Ok tt, mkProcess x [] None).
Proof.
  destruct (goroutine_registers (registrations env) (init_maps (mkXMetrics e false ∅ ∅ ∅))) as (n & x & Hr & Hg);
    [apply registrations_in_table|by split_and!|]. exists (S n), x. split; [exact Hr|]. exact Hg.
Qed.

(** C40. The goroutine that registers the metrics and the calls that record run in any
    interleaving of their steps, with any outcome of the registrations.  As long as
    the values of all labels are valid UTF-8 (the text of an error is one of them, and
    nothing checks it) and the amounts of orders are not negative, every step
    succeeds: the labels of every call are those its metric was registered with.
    The one exception is a recorder that looks a metric up in the map the goroutine is
    writing at that moment; Go ends the process then. *)
Theorem recording_never_panics env e schedule r s'
  (Hrecord : Forall (λ o, ∀ u, o = Some u → recordable u) schedule)
  (Hrun : run_interleaved schedule (started env e) = (r, s')) :
  r = Ok tt ∨ ∃ pre u post s1 c, schedule = pre ++ Some u :: post ∧
    run_interleaved pre (started env e) = (Ok tt, s1) ∧ mp_writing s1 = Some c ∧ cl_kind c = rec_kind u ∧
    r = Panic fatal_race.
Proof.
  destruct (interleaved_ok schedule _ _ _ (started_ok env e) Hrecord Hrun) as [[? _]|?]; [by left|by right].
Qed.

(** All three kinds look for their name among the gauges: a counter is registered
    a second time, and refused, and one with the name of a gauge never is. *)
Theorem counter_hidden_by_gauge opt labels c s
  (Hgauge : xm_gauges s !! op_Name opt = Some c) : registerCounter opt labels s = (Ok tt, s).
Proof.
  unfold registerCounter, x_register, x_registering, when. unfold_M. destruct (xm_initialized s) eqn:Hi; [|done]. cbn.
  by rewrite Hgauge.
Qed.
End XFacts.
