(* ===== verification/Configuration.v ===== *)
(** * The configuration

    [config/config.go], [config/network.go], [config/xlayer_config.go], the
    configuration records of the packages, and [cmd/xlayer_helpers.go] up to the
    password of the database ([xlayer/kms/kms.go]).  The file, the environment
    and their decoding are viper's, which is an interface: a decoder keeps the
    fields that nothing sets. *)
From Stdlib Require Import Strings.String Strings.Ascii.
From S2P Require Import Prelude Types Hashing Redis Gateway TokenLogo.
#[local] Open Scope Z_scope.

(** ** Records *)
Record DBConfig := mkDBConfig {
  dc_Database : string; dc_Name : string; dc_User : string; dc_Password : string; dc_Host : string; dc_Port : string;
  dc_MaxConns : Z;
}.
Record KeystoreFileConfig := mkKeystoreFileConfig { ks_Path : string; ks_Password : string }.
(** The durations are in nanoseconds. *)
Record GroupingConfig := mkGroupingConfig {
  gcf_Enabled : bool; gcf_FrequencyToProcessCompressedClaims : Z; gcf_TriggerNumberOfClaims : Z;
  gcf_MaxNumberOfClaimsPerGroup : Z; gcf_TriggerRetainedClaimPeriod : Z; gcf_MaxRetries : Z;
  gcf_RetryInterval : Z; gcf_RetryTimeout : Z; gcf_GasOffset : Z;
}.
Record ClaimTxConfig := mkClaimTxConfig {
  ctc_Enabled : bool; ctc_FrequencyToMonitorTxs : Z; ctc_PrivateKey : KeystoreFileConfig; ctc_RetryInterval : Z;
  ctc_RetryNumber : Z; ctc_AuthorizedClaimMessageAddresses : list bytes; ctc_AreClaimsBetweenL2sEnabled : bool;
  ctc_GroupingClaims : GroupingConfig;
}.
Record EthermanConfig := mkEthermanConfig { etc_L1URL : string; etc_L2URLs : list string }.
Record SyncConfig := mkSyncConfig { syc_SyncInterval : Z; syc_SyncChunkSize : Z; syc_ForceL2SyncChunk : bool }.
Record BridgeCtrlConfig := mkBridgeCtrlConfig { bcc_Store : string; bcc_Height : Z }.
Record BridgeServerConfig := mkBridgeServerConfig {
  bsc_GRPCPort : string; bsc_HTTPPort : string; bsc_CacheSize : Z; bsc_DefaultPageLimit : Z; bsc_MaxPageLimit : Z;
  bsc_BridgeVersion : string; bsc_DB : DBConfig;
}.
Record MetricsConfig := mkMetricsConfig { mec_Host : string; mec_Port : Z; mec_Enabled : bool }.
Record NetworkConfig := mkNetworkConfig {
  nc_GenBlockNumber : Z;
  nc_PolygonBridgeAddress : bytes;
  nc_PolygonZkEVMGlobalExitRootAddress : bytes;
  nc_PolygonRollupManagerAddress : bytes;
  nc_L2ClaimCompressorAddress : bytes;
  nc_L2PolygonBridgeAddresses : list bytes;
  nc_RequireSovereignChainSmcs : list bool;
  nc_L2PolygonZkEVMGlobalExitRootAddresses : list bytes;
}.
(** [config.Config]; the configuration of the log is left out. *)
Record BaseConfig := mkBaseConfig {
  uc_SyncDB : DBConfig;
  uc_ClaimTxManager : ClaimTxConfig;
  uc_Etherman : EthermanConfig;
  uc_Synchronizer : SyncConfig;
  uc_BridgeController : BridgeCtrlConfig;
  uc_BridgeServer : BridgeServerConfig;
  uc_Metrics : MetricsConfig;
  uc_NetworkConfig : NetworkConfig;
}.

Record RedisConfig := mkRedisConfig {
  rdc_IsClusterMode : bool; rdc_Addrs : list string; rdc_Username : string; rdc_Password : string; rdc_DB : Z;
  rdc_EnablePrice : bool; rdc_KeyPrefix : string;
}.
Record ProducerConfig := mkProducerConfig {
  prc_Enabled : bool; prc_UseFakeProducer : bool; prc_Brokers : list string; prc_Topic : string; prc_PushKey : string;
  prc_Username : string; prc_Password : string; prc_RootCAPath : string; prc_BizCode : string;
}.
Record ConsumerConfig := mkConsumerConfig {
  coc_Brokers : list string; coc_Topics : list string; coc_ConsumerGroupID : string; coc_InitialOffset : Z;
  coc_Username : string; coc_Password : string; coc_RootCAPath : string;
}.
Record NacosConfig := mkNacosConfig {
  nac_NacosUrls : string; nac_NamespaceId : string; nac_ApplicationName : string; nac_ExternalListenAddr : string;
}.
Record BusinessConfig := mkBusinessConfig {
  buc_StandardChainIds : list Z; buc_InnerChainIds : list Z;
  buc_USDCContractAddresses : list bytes; buc_USDCTokenAddresses : list bytes;
  buc_WstETHContractAddresses : list bytes; buc_WstETHTokenAddresses : list bytes;
  buc_EURCContractAddresses : list bytes; buc_EURCTokenAddresses : list bytes;
}.
(** [config.XLayerConfig]: [xc_Base] is the embedded pointer [UpstreamCfg]. *)
Record XLayerCfg := mkXLayerCfg {
  xc_Base : BaseConfig;
  xc_L1ChainId : Z;
  xc_L2ChainIds : list Z;
  xc_SentinelConfigFilePath : string;
  xc_Redis : RedisConfig;
  xc_Env : string;
  xc_FreeGas : bool;
  xc_OptClaim : bool;
  xc_MonitorTxsLimit : Z;
  xc_LargeTxUsdLimit : Z;
  xc_L1TargetBlockConfirmations : Z;
  xc_Nacos : NacosConfig;
  xc_Business : BusinessConfig;
  xc_IPRestriction : IPConfig;
  xc_CoinKafkaConsumer : ConsumerConfig;
  xc_MessagePushProducer : ProducerConfig;
}.

Definition set_uc_NetworkConfig (n : NetworkConfig) (c : BaseConfig) : BaseConfig :=
  mkBaseConfig (uc_SyncDB c) (uc_ClaimTxManager c) (uc_Etherman c) (uc_Synchronizer c) (uc_BridgeController c)
    (uc_BridgeServer c) (uc_Metrics c) n.
Definition set_dc_Password (p : string) (d : DBConfig) : DBConfig :=
  mkDBConfig (dc_Database d) (dc_Name d) (dc_User d) p (dc_Host d) (dc_Port d) (dc_MaxConns d).
Definition set_bsc_DB (d : DBConfig) (b : BridgeServerConfig) : BridgeServerConfig :=
  mkBridgeServerConfig (bsc_GRPCPort b) (bsc_HTTPPort b) (bsc_CacheSize b) (bsc_DefaultPageLimit b) (bsc_MaxPageLimit b)
    (bsc_BridgeVersion b) d.
Definition set_passwords (server sync : string) (c : BaseConfig) : BaseConfig :=
  mkBaseConfig (set_dc_Password sync (uc_SyncDB c)) (uc_ClaimTxManager c) (uc_Etherman c) (uc_Synchronizer c)
    (uc_BridgeController c) (set_bsc_DB (set_dc_Password server (bsc_DB (uc_BridgeServer c))) (uc_BridgeServer c))
    (uc_Metrics c) (uc_NetworkConfig c).
Definition set_BridgeVersion (v : string) (b : BridgeServerConfig) : BridgeServerConfig :=
  mkBridgeServerConfig (bsc_GRPCPort b) (bsc_HTTPPort b) (bsc_CacheSize b) (bsc_DefaultPageLimit b) (bsc_MaxPageLimit b) v (bsc_DB b).

Definition set_xc_Base (b : BaseConfig) (c : XLayerCfg) : XLayerCfg :=
  mkXLayerCfg b (xc_L1ChainId c) (xc_L2ChainIds c) (xc_SentinelConfigFilePath c) (xc_Redis c) (xc_Env c) (xc_FreeGas c) (xc_OptClaim c)
    (xc_MonitorTxsLimit c) (xc_LargeTxUsdLimit c) (xc_L1TargetBlockConfirmations c) (xc_Nacos c) (xc_Business c) (xc_IPRestriction c)
    (xc_CoinKafkaConsumer c) (xc_MessagePushProducer c).

(** ** The networks that are known by name *)
Definition defaultNetwork : string := "mainnet".
Definition addr_hex (z : Z) : bytes := be_bytes 20 z.
Definition networkConfigs : list (string * NetworkConfig) := [
  (defaultNetwork, mkNetworkConfig 16896718
    (addr_hex 0x2a3DD3EB832aF982ec71669E178424b10Dca2EDe) (addr_hex 0x580bda1e7A0CFAe92Fa7F6c20A3794F169CE3CFb)
    zero_address zero_address [addr_hex 0x2a3DD3EB832aF982ec71669E178424b10Dca2EDe] [false] [zero_address]);
  ("testnet"%string, mkNetworkConfig 8572995
    (addr_hex 0xF6BEEeBB578e214CA9E23B0e9683454Ff88Ed2A7) (addr_hex 0x4d9427DCA0406358445bC0a8F88C26b704004f74)
    zero_address zero_address [addr_hex 0xF6BEEeBB578e214CA9E23B0e9683454Ff88Ed2A7] [false] [zero_address]);
  ("internaltestnet"%string, mkNetworkConfig 7674349
    (addr_hex 0x47c1090bc966280000Fe4356a501f1D0887Ce840) (addr_hex 0xA379Dd55Eb12e8FCdb467A814A15DE2b29677066)
    zero_address zero_address [addr_hex 0xfC5b0c5F677a3f3E29DB2e98c9eD455c7ACfCf03] [false] [zero_address]);
  ("local"%string, mkNetworkConfig 1
    (addr_hex 0xFe12ABaa190Ef0c8638Ee0ba9F828BF41368Ca0E) (addr_hex 0x8A791620dd6260079BF849Dc5567aDC3F2FdC318)
    (addr_hex 0xB7f8BC63BbcaD18155201308C8f3540b07f84F5e) (addr_hex 0x2279B7A0a67DB372996a5FaB50D91eAA73d2eBe6)
    [addr_hex 0xFe12ABaa190Ef0c8638Ee0ba9F828BF41368Ca0E] [false] [addr_hex 0xa40d5f56745a118d0906a34e69aec8c0db1cb8fa])].
Definition networks_by_name : gmap string NetworkConfig := list_to_map networkConfigs.
(** A missing key of the map is the zero value. *)
Definition zero_NetworkConfig : NetworkConfig := mkNetworkConfig 0 zero_address zero_address zero_address zero_address [] [] [].
Definition loadNetworkConfig (network : string) (cfg : BaseConfig) : BaseConfig :=
  match networks_by_name !! network with
  | Some networkConfig => set_uc_NetworkConfig networkConfig cfg
  | None => set_uc_NetworkConfig (default zero_NetworkConfig (networks_by_name !! defaultNetwork)) cfg
  end.

(** ** Files and viper *)

(** [filepath.Split] and [filepath.Ext]: up to the last separator, and from the
    last dot. *)
Fixpoint Split_path (s : string) : string * string :=
  match s with
  | EmptyString => ("", "")%string
  | String c rest =>
      let (dir, file) := Split_path rest in
      if bool_decide (dir = "" ∧ c ≠ "/"%char)%string then ("", String c file)%string else (String c dir, file)
  end.
Fixpoint Ext (s : string) : string :=
  match s with
  | EmptyString => ""%string
  | String c rest =>
      if bool_decide (Ext rest = "" ∧ c = "."%char)%string then s else Ext rest
  end.
Definition TrimPrefix (s prefix : string) : string :=
  if String.prefix prefix s then String.substring (String.length prefix) (String.length s - String.length prefix) s else s.
Definition TrimSuffix (s suffix : string) : string :=
  let n := (String.length s - String.length suffix)%nat in
  if (String.length suffix <=? String.length s)%nat && bool_decide (String.substring n (String.length suffix) s = suffix)
  then String.substring 0 n s else s.

(** The name of the configuration file in three parts. *)
Definition config_file (path : string) : string * string * string :=
  let '(dirName, fileName) := Split_path path in
  let fileExtension := TrimPrefix (Ext fileName) "." in
  (dirName, TrimSuffix fileName ("." +:+ fileExtension), fileExtension).

Definition ErrNetworkTwice : error := Errorf "network details are provided in the config file (the [NetworkConfig] section) and as a flag (the --network or -n). Configure it only once and try again please" [].
Definition ErrNetworkMissing : error := Errorf "network details are not provided. Please configure the [NetworkConfig] section in your config file, or provide a --network flag" [].
Definition ErrLengths : error := Errorf "the length of RequireSovereignChainSmcs, L2PolygonZkEVMGlobalExitRootAddresses, L2PolygonBridgeAddresses and L2URLs must be the same" [].

(** [DefaultValues] of [config/default.go]; what it does not name is zero.  The
    durations are in nanoseconds. *)
Definition secs (n : Z) : Z := n * 10 ^ 9.
Definition DefaultDB : DBConfig := mkDBConfig "postgres" "test_db" "test_user" "test_password" "zkevm-bridge-db" "5432" 20.
Definition DefaultGrouping : GroupingConfig :=
  mkGroupingConfig false (secs 600) 10 10 (secs 30) 2 (secs 10) (secs 30) 0.
Definition DefaultValues : BaseConfig := mkBaseConfig DefaultDB
  (mkClaimTxConfig false (secs 1) (mkKeystoreFileConfig "./test/test.keystore" "testonly") (secs 1) 10 [] false DefaultGrouping)
  (mkEthermanConfig "http://localhost:8545" [""%string]) (mkSyncConfig (secs 2) 100 false) (mkBridgeCtrlConfig "postgres" 32)
  (mkBridgeServerConfig "9090" "8080" 100000 25 100 "" DefaultDB) (mkMetricsConfig "0.0.0.0" 8090 false) zero_NetworkConfig.

(** Viper: [viper_ReadConfig] reads the text of the default values, from which
    they are decoded; [viper_Unmarshal] decodes over a value.  A file that is not
    found is not an error of [viper_ReadInConfig]: the answer is [false]. *)
Class Viper (V : Type) : Type := {
  viper_ReadConfig : M V unit;
  viper_SetConfig : string → string → string → M V unit;
  viper_SetEnvPrefix : string → M V unit;
  viper_ReadInConfig : M V bool;
  viper_Unmarshal : BaseConfig → M V BaseConfig;
  viper_UnmarshalXLayer : M V XLayerCfg;
  viper_IsSet : string → V → bool;
}.
(** [kms.GetAwsSecretValue], after [kms.Init]. *)
Class Kms (V : Type) : Type := {
  kms_Init : M V unit;
  kms_GetAwsSecretValue : string → M V string;
}.

(** The checks that end [Load]. *)
Definition lengths_agree (c : BaseConfig) : bool :=
  let n := uc_NetworkConfig c in
  bool_decide (length (nc_L2PolygonZkEVMGlobalExitRootAddresses n) = length (nc_RequireSovereignChainSmcs n)) &&
  bool_decide (length (nc_RequireSovereignChainSmcs n) = length (nc_L2PolygonBridgeAddresses n)) &&
  bool_decide (length (nc_L2PolygonBridgeAddresses n) = length (etc_L2URLs (uc_Etherman c))).

Section Load.
Context {V : Type} {Vip : Viper V} {KMS : Kms V}.

Definition Default : M V BaseConfig := viper_ReadConfig;; mret DefaultValues.
Definition Load (configFilePath network : string) : M V BaseConfig :=
  cfg ← Default;
  when (bool_decide (configFilePath ≠ ""%string))
    (let '(dirName, name, ext) := config_file configFilePath in viper_SetConfig dirName name ext);;
  viper_SetEnvPrefix "ZKEVM_BRIDGE";;
  _ ← viper_ReadInConfig;
  cfg ← viper_Unmarshal cfg;
  isSet ← gets (viper_IsSet "NetworkConfig");
  if isSet && bool_decide (network ≠ ""%string) then throw ErrNetworkTwice
  else if negb isSet && bool_decide (network = ""%string) then throw ErrNetworkMissing
  else
    let cfg := if negb isSet then loadNetworkConfig network cfg else cfg in
    if negb (lengths_agree cfg) then throw ErrLengths else mret cfg.

Definition encryptedPrefix : string := "{encrypt}".
Definition GetDBPassword (dbPassword : string) : M V string :=
  if String.prefix encryptedPrefix dbPassword then
    map_err (ErrorfW "failed to init KMS: %w") kms_Init;;
    map_err (ErrorfW "failed to fetch DB pass from KMS: %w") (kms_GetAwsSecretValue (TrimPrefix dbPassword encryptedPrefix))
  else mret dbPassword.

(** [log.Fatal] ends the process. *)
Definition fatal {S A} : M S A := gopanic "log.Fatal".
Definition or_fatal {S A} (m : M S A) : M S A :=
  r ← attempt m; match r with inl a => mret a | inr _ => fatal end.
Definition loadKmsPasswords (c : BaseConfig) : M V BaseConfig :=
  server ← or_fatal (GetDBPassword (dc_Password (bsc_DB (uc_BridgeServer c))));
  sync ← or_fatal (GetDBPassword (dc_Password (uc_SyncDB c)));
  mret (set_passwords server sync c).

(** The error is returned after the result was used: the field of a nil pointer. *)
Definition LoadXLayerCfg (upstreamCfg : BaseConfig) : M V XLayerCfg :=
  cfg ← viper_UnmarshalXLayer; mret (set_xc_Base upstreamCfg cfg).
Definition load_config (configFilePath network : string) : M V XLayerCfg :=
  cfg ← Load configFilePath network;
  cfg ← loadKmsPasswords cfg;
  r ← attempt (LoadXLayerCfg cfg);
  match r with inl c => mret c | inr _ => gopanic "nil pointer dereference" end.
End Load.

(** ** Properties *)
Lemma networks_lengths name n : networks_by_name !! name = Some n →
  length (nc_L2PolygonZkEVMGlobalExitRootAddresses n) = 1%nat ∧ length (nc_RequireSovereignChainSmcs n) = 1%nat ∧
  length (nc_L2PolygonBridgeAddresses n) = 1%nat.
Proof.
  intros H%elem_of_list_to_map_2. cbn in H.
  repeat (apply elem_of_cons in H as [[= -> ->]|H]; [done|]). by apply elem_of_nil in H.
Qed.
(** An unknown name is the main network. *)
Lemma loadNetworkConfig_known network cfg : ∃ name n, networks_by_name !! name = Some n ∧
  (is_Some (networks_by_name !! network) → name = network) ∧ (networks_by_name !! network = None → name = defaultNetwork) ∧
  loadNetworkConfig network cfg = set_uc_NetworkConfig n cfg.
Proof.
  unfold loadNetworkConfig. destruct (networks_by_name !! network) as [n|] eqn:E.
  - exists network, n. by split_and!.
  - destruct (networks_by_name !! defaultNetwork) as [n|] eqn:Ed; [|by vm_compute in Ed].
    exists defaultNetwork, n. split_and!; [done| |done|done]. by intros [? ?].
Qed.

(** A configuration that is loaded names its network once, in the file or with
    the flag, and has an exit root address, a kind and a bridge address for every
    URL of a rollup; with the flag it is one of the known networks and there is one
    rollup. *)
Theorem Load_ok {V} {Vip : Viper V} path network (v : V) cfg v'
  (H : Load path network v = (Ok cfg, v')) :
  let n := uc_NetworkConfig cfg in
  length (nc_L2PolygonZkEVMGlobalExitRootAddresses n) = length (etc_L2URLs (uc_Etherman cfg)) ∧
  length (nc_RequireSovereignChainSmcs n) = length (etc_L2URLs (uc_Etherman cfg)) ∧
  length (nc_L2PolygonBridgeAddresses n) = length (etc_L2URLs (uc_Etherman cfg)) ∧
  if viper_IsSet "NetworkConfig" v' then network = ""%string
  else network ≠ ""%string ∧ length (etc_L2URLs (uc_Etherman cfg)) = 1%nat ∧ ∃ name, networks_by_name !! name = Some n.
Proof.
  unfold Load in H. do 5 (apply M_bind_inv in H as (? & ? & _ & H)). apply M_bind_inv in H as (isSet & v5 & Hs & H).
  injection Hs as <- <-. set (b := viper_IsSet _ _) in H.
  destruct (b && bool_decide (network ≠ ""%string)) eqn:E1; [done|].
  destruct (negb b && bool_decide (network = ""%string)) eqn:E2; [done|].
  destruct (negb (lengths_agree _)) eqn:E3; [done|]. injection H as <- <-. fold b. cbn zeta.
  apply negb_false_iff in E3. unfold lengths_agree in E3. rewrite !andb_true_iff, !bool_decide_eq_true in E3.
  destruct E3 as [[H1 H2] H3]. split_and!; [congruence..|]. destruct b; cbn in *.
  - apply bool_decide_eq_false in E1. by destruct (decide (network = ""%string)).
  - apply bool_decide_eq_false in E2. split; [done|].
    match type of H3 with context [loadNetworkConfig network ?c] => destruct (loadNetworkConfig_known network c) as (name & n & Hn & _ & _ & El) end.
    rewrite El in *. cbn in *. destruct (networks_lengths _ _ Hn) as (_ & _ & Hb). split; [congruence|]. by exists name.
Qed.

(** Without a file the default values are loaded with the network of the flag; a name
    that is not known is taken for the main network. *)
Lemma Load_defaults {V} {Vip : Viper V} network (v v1 v2 v3 v4 : V)
  (H1 : viper_ReadConfig v = (Ok tt, v1)) (H2 : viper_SetEnvPrefix "ZKEVM_BRIDGE" v1 = (Ok tt, v2))
  (H3 : viper_ReadInConfig v2 = (Ok false, v3)) (H4 : viper_Unmarshal DefaultValues v3 = (Ok DefaultValues, v4))
  (Hset : viper_IsSet "NetworkConfig" v4 = false) (Hname : network ≠ ""%string) :
  ∃ name n, networks_by_name !! name = Some n ∧ (is_Some (networks_by_name !! network) → name = network) ∧
    (networks_by_name !! network = None → name = defaultNetwork) ∧
    Load "" network v = (Ok (set_uc_NetworkConfig n DefaultValues), v4).
Proof.
  destruct (loadNetworkConfig_known network DefaultValues) as (name & n & Hn & Hk & Hu & El). exists name, n. split_and!; [done..|].
  unfold Load. erewrite M_bind_ok; [|unfold Default; by erewrite M_bind_ok by exact H1].
  erewrite M_bind_ok by reflexivity. erewrite !M_bind_ok by eassumption. erewrite M_bind_ok by reflexivity. rewrite Hset. cbn [negb andb].
  rewrite bool_decide_false by done. cbn zeta. rewrite El. unfold lengths_agree. destruct (networks_lengths _ _ Hn) as (E1 & E2 & E3).
  cbn [uc_NetworkConfig uc_Etherman set_uc_NetworkConfig DefaultValues etc_L2URLs length]. by rewrite E1, E2, E3.
Qed.
