(* ===== verification/Connections.v ===== *)
(** * Connections

    The constructors that connect the program to what it talks to: the clients of
    the nodes ([etherman/etherman.go], [utils/client.go],
    [autoclaimservice/blockchainmanager/manager.go]), the storage
    ([db/storage.go], [db/pgstorage]), Redis
    ([xlayer/redisstorage/redisstorage.go]) and Kafka
    ([xlayer/messagepush/kafkaproducer.go],
    [xlayer/coinmiddleware/kafkaconsumer.go]). *)
From Stdlib Require Import Strings.String.
From stdpp Require Import pretty.
From S2P Require Import Prelude Types Hashing Etherman Redis Producers Metrics Configuration.
#[local] Open Scope Z_scope.

(** What is outside the program.  A node is known by its URL and a contract by its
    address there; the key of a keystore and the address of a signer are bytes. *)
Record sasl := mkSasl { sa_User : string; sa_Password : string; sa_rootCA : string }.
Record redis_options := mkRedisOptions {
  ro_cluster : bool; ro_Addrs : list string; ro_Username : string; ro_Password : string; ro_DB : Z;
}.
Class Outside (W : Type) : Type := {
  ethclient_Dial : string → M W unit;
  contract_New : string → bytes → string → M W unit;        (* the binding, the address, the node *)
  Bridge_NetworkID : bytes → string → M W Z;
  RollupAddressToID : bytes → string → bytes → M W Z;
  os_ReadFile : string → M W string;                        (* of the cleaned path *)
  keystore_DecryptKey : string → string → M W bytes;
  node_ChainID : string → M W Z;
  bind_NewKeyedTransactorWithChainID : bytes → Z → M W bytes;
  lru_New_ok : Z → M W unit;
  Bridge_GetAbi : M W unit;                                 (* with both claim methods *)
  pgxpool_Connect : string → M W unit;                      (* ParseConfig and ConnectConfig *)
  migrate_Exec : string → M W unit;                         (* pgx.ParseConfig and migrate.Exec *)
  redis_Ping : redis_options → M W unit;
  AppendCertsFromPEM : string → bool;
  sarama_NewSyncProducer : list string → option sasl → M W unit;
  sarama_NewConsumerGroup : list string → string → Z → option sasl → M W unit;
  nacos_InitNacosClient : NacosConfig → M W unit;
  sentinel_Initialize : string → M W unit;                  (* source.Initialize *)
}.

(** [etherman.Client]: the node, the contracts it is bound to, and what the reader
    of the events uses. *)
Record EthermanClient := mkEthermanClient {
  em_url : string; em_bridge : bytes; em_rollupManager : option bytes; em_claimCompressor : option bytes;
  em_client : Client;
}.
Definition GetNetworkID (c : EthermanClient) : Z := ec_NetworkID (em_client c).
(** [utils.Client]; [None] is a nil binding. *)
Record UtilsClient := mkUtilsClient { ut_Bridge : option bytes; ut_BridgeSCAddr : bytes; ut_NodeURL : string }.

Section Connections.
Context {W P : Type} {Out : Outside W} {Prom : Prometheus P}.
Abbreviation Cn := (M (W * Metrics P)).
Definition on_outside {A} (m : M W A) : Cn A := zoom fst (λ w s, (w, s.2)) m.
Definition on_metrics {A} (m : M (Metrics P) A) : Cn A := zoom snd (λ x s, (s.1, x)) m.

(** ** Nodes *)
Definition etherman_NewClient (cfg : EthermanConfig) (polygonBridgeAddr gerAddress rollupManagerAddress : bytes)
  : Cn EthermanClient :=
  let url := etc_L1URL cfg in
  on_outside (ethclient_Dial url;;
    contract_New "polygonzkevmbridgev2" polygonBridgeAddr url;;
    contract_New "oldpolygonzkevmbridge" polygonBridgeAddr url;;
    contract_New "polygonzkevmglobalexitroot" gerAddress url;;
    contract_New "polygonrollupmanager" rollupManagerAddress url);;
  on_metrics (etherman_Register 0);;
  mret (mkEthermanClient url polygonBridgeAddr (Some rollupManagerAddress) None
    (mkClient [gerAddress; polygonBridgeAddr; rollupManagerAddress] true false 0)).

(** The compressor is bound when it has an address. *)
Definition bind_compressor (claimCompressorAddress : bytes) (url : string) : M W (option bytes) :=
  if bool_decide (claimCompressorAddress = zero_address) then mret None
  else contract_New "claimcompressor" claimCompressorAddress url;; mret (Some claimCompressorAddress).
Definition NewL2Client (url : string) (polygonBridgeAddress claimCompressorAddress gerAddress : bytes)
    (sovereignChain : bool) : Cn EthermanClient :=
  '(claimCompressor, networkID) ← on_outside (
    ethclient_Dial url;;
    contract_New "polygonzkevmbridgev2" polygonBridgeAddress url;;
    contract_New "oldpolygonzkevmbridge" polygonBridgeAddress url;;
    claimCompressor ← bind_compressor claimCompressorAddress url;
    networkID ← Bridge_NetworkID polygonBridgeAddress url;
    when sovereignChain
      (contract_New "oldglobalexitrootmanagerl2sovereignchain" gerAddress url;;
       contract_New "globalexitrootmanagerl2sovereignchain" gerAddress url);;
    mret (claimCompressor, networkID));
  on_metrics (etherman_Register networkID);;
  mret (mkEthermanClient url polygonBridgeAddress None claimCompressor
    (mkClient (polygonBridgeAddress :: (if sovereignChain then [gerAddress] else [])) false sovereignChain networkID)).

(** The client is returned with the error of the binding; its callers look at the
    error first. *)
Definition utils_NewClient (nodeURL : string) (bridgeSCAddr : bytes) : M W UtilsClient :=
  ethclient_Dial nodeURL;;
  if bool_decide (bridgeSCAddr = zero_address) then mret (mkUtilsClient None bridgeSCAddr nodeURL)
  else contract_New "polygonzkevmbridgev2" bridgeSCAddr nodeURL;; mret (mkUtilsClient (Some bridgeSCAddr) bridgeSCAddr nodeURL).
(** The signer: the address it signs for. *)
Definition GetSignerFromKeystore (nodeURL : string) (ks : KeystoreFileConfig) : M W bytes :=
  keystoreEncrypted ← os_ReadFile (ks_Path ks);
  key ← keystore_DecryptKey keystoreEncrypted (ks_Password ks);
  chainID ← node_ChainID nodeURL;
  bind_NewKeyedTransactorWithChainID key chainID.
Definition GetKeyFromKeystore (nodeURL : string) (ks : KeystoreFileConfig) : M W (bytes * Z) :=
  keystoreEncrypted ← os_ReadFile (ks_Path ks);
  key ← keystore_DecryptKey keystoreEncrypted (ks_Password ks);
  chainID ← node_ChainID nodeURL;
  mret (key, chainID).
Definition nonceCacheSize : Z := 1000.
Definition NewNonceCache : M W unit := lru_New_ok nonceCacheSize.

(** *** The client of the auto claim service *)
Record BlockchainConfig := mkBlockchainConfig {
  bmc_L2RPC : string; bmc_PrivateKey : KeystoreFileConfig; bmc_PolygonBridgeAddress : bytes; bmc_ClaimCompressorAddress : bytes;
}.
Record BlockchainClient := mkBlockchainClient {
  bm_cfg : BlockchainConfig; bm_ClaimCompressor : option bytes; bm_NetworkID : Z; bm_auth : bytes;
}.
Definition blockchainmanager_NewClient (cfg : BlockchainConfig) : M W BlockchainClient :=
  let url := bmc_L2RPC cfg in
  ethclient_Dial url;;
  contract_New "polygonzkevmbridgev2" (bmc_PolygonBridgeAddress cfg) url;;
  claimCompressor ← bind_compressor (bmc_ClaimCompressorAddress cfg) url;
  networkID ← Bridge_NetworkID (bmc_PolygonBridgeAddress cfg) url;
  auth ← GetSignerFromKeystore url (bmc_PrivateKey cfg);
  mret (mkBlockchainClient cfg claimCompressor networkID auth).

(** ** The storage *)
Definition dsn (cfg : DBConfig) : string :=
  "postgres://" +:+ dc_User cfg +:+ ":" +:+ dc_Password cfg +:+ "@" +:+ dc_Host cfg +:+ ":" +:+ dc_Port cfg +:+ "/" +:+ dc_Name cfg.
Definition NewPostgresStorage (cfg : DBConfig) : M W unit :=
  pgxpool_Connect (dsn cfg +:+ "?pool_max_conns=" +:+ pretty (dc_MaxConns cfg)).
Definition NewStorage (cfg : DBConfig) : M W unit :=
  if bool_decide (dc_Database cfg = "postgres"%string) then NewPostgresStorage cfg else throw ErrStorageNotRegister.
Definition RunMigrations (cfg : DBConfig) : M W unit := migrate_Exec (dsn cfg).

(** ** Redis *)
Definition ErrRedisAddress : error := Errorf "redis address is empty" [].
Definition NewRedisStorage (cfg : RedisConfig) : M W redisStorageImpl :=
  match rdc_Addrs cfg with
  | [] => throw ErrRedisAddress
  | addr :: _ =>
      map_err (ErrorfW "cannot connect to redis server") (redis_Ping
        (if rdc_IsClusterMode cfg then mkRedisOptions true (rdc_Addrs cfg) (rdc_Username cfg) (rdc_Password cfg) 0
         else mkRedisOptions false [addr] (rdc_Username cfg) (rdc_Password cfg) (rdc_DB cfg)));;
      mret (mkRedisStorage true (rdc_EnablePrice cfg) (rdc_KeyPrefix cfg))
  end.

(** ** Kafka *)

(** Authentication is used when all three are configured. *)
Definition sasl_config (errRead errCerts username password rootCAPath : string) : M W (option sasl) :=
  if bool_decide (username ≠ "" ∧ password ≠ "" ∧ rootCAPath ≠ "")%string then
    rootCA ← map_err (ErrorfW errRead) (os_ReadFile rootCAPath);
    if AppendCertsFromPEM rootCA then mret (Some (mkSasl username password rootCA)) else throw (Errorf errCerts [])
  else mret None.
Inductive Producer : Type := RealProducer (p : kafkaProducerImpl) | FakeProducer (p : fakeProducer).
Definition NewKafkaProducer (cfg : ProducerConfig) : M W Producer :=
  if prc_UseFakeProducer cfg then mret (FakeProducer (newFakeProducer (prc_Topic cfg) (prc_PushKey cfg)))
  else
    auth ← sasl_config "NewKafkaProducer read root CA cert fail" "NewKafkaProducer caCertPool.AppendCertsFromPEM"
      (prc_Username cfg) (prc_Password cfg) (prc_RootCAPath cfg);
    map_err (ErrorfW "NewKafkaProducer: NewSyncProducer error") (sarama_NewSyncProducer (prc_Brokers cfg) auth);;
    mret (RealProducer (mkKafkaProducerImpl true (prc_Topic cfg) (prc_PushKey cfg) (prc_BizCode cfg))).
(** [setupKafkaProducer]: [None] is a nil producer. *)
Definition setupKafkaProducer (cfg : ProducerConfig) : M W (option Producer) :=
  if prc_Enabled cfg then p ← NewKafkaProducer cfg; mret (Some p) else mret None.
(** The topics of the consumer. *)
Definition NewKafkaConsumer (cfg : ConsumerConfig) : M W (list string) :=
  auth ← sasl_config "Kafka consumer: read root CA cert fail" "NewKafkaConsumer caCertPool.AppendCertsFromPEM"
    (coc_Username cfg) (coc_Password cfg) (coc_RootCAPath cfg);
  map_err (ErrorfW "kafka consumer group init error")
    (sarama_NewConsumerGroup (coc_Brokers cfg) (coc_ConsumerGroupID cfg) (coc_InitialOffset cfg) auth);;
  mret (coc_Topics cfg).

(** [registerNacos]: the error is only logged. *)
Definition registerNacos (cfg : NacosConfig) : M W unit :=
  when (bool_decide (nac_NacosUrls cfg ≠ ""%string)) (_ ← attempt (nacos_InitNacosClient cfg); mret tt).
(** [sentinel.InitFileDataSource]: the logger is nil until [initSentinel] sets it. *)
Definition InitFileDataSource (filePath : string) : M W unit :=
  if bool_decide (filePath = ""%string) then gopanic "nil pointer dereference"
  else map_err (ErrorfW "init sentinel data source err") (sentinel_Initialize filePath).

(** ** Facts *)
Lemma zoom_inv {S T A} (proj : S → T) (upd : T → S → S) (m : M T A) s r s' :
  zoom proj upd m s = (r, s') → ∃ t, m (proj s) = (r, t) ∧ s' = upd t s.
Proof. unfold zoom. destruct (m (proj s)) as [r1 t]. intros [= <- <-]. eauto. Qed.
Lemma NewStorage_known cfg w w' : NewStorage cfg w = (Ok tt, w') → dc_Database cfg = "postgres"%string.
Proof. unfold NewStorage. case_bool_decide; [done|]. by intros [=]. Qed.
Lemma NewL2Client_fields url bridge compressor ger sovereign s c s' : NewL2Client url bridge compressor ger sovereign s = (Ok c, s') →
  em_url c = url ∧ em_bridge c = bridge ∧ ec_sovereign (em_client c) = sovereign ∧ ec_L1 (em_client c) = false ∧
  em_claimCompressor c = (if bool_decide (compressor = zero_address) then None else Some compressor).
Proof.
  unfold NewL2Client. intros H. apply M_bind_inv in H as ([o n] & s1 & H1 & H). apply M_bind_inv in H as (? & s2 & H2 & [= <- <-]).
  cbn. split_and!; try done. apply zoom_inv in H1 as (w & E & ->).
  do 3 apply M_bind_inv in E as (? & ? & _ & E). apply M_bind_inv in E as (o' & ? & E1 & E).
  do 2 apply M_bind_inv in E as (? & ? & _ & E). injection E as -> _ _.
  unfold bind_compressor in E1. case_bool_decide; [by injection E1 as <- _|].
  by apply M_bind_inv in E1 as (? & ? & _ & [= <- _]).
Qed.
End Connections.
