(* ===== verification/ClaimTxManagerFacts.v ===== *)
(** * The monitor of single claims, the nonces and the claim manager

    Histories never exceed their limit; nonces are not given twice; what a node
    that does not answer makes of a transaction; failures leave the tables.  A
    global exit root is processed atomically, and which deposits never get a claim
    from the manager. *)
From S2P Require Import Prelude Types Hashing MerkleStore MerkleTree MonitoredTx Tables Storage StorageFacts.
From S2P Require Import Transactions EthClient TxMonitor SyncAtomic TableInv BridgeService ClaimTxManager.
Section Monitor.
Context {E C : Type} {Run : Runtime E} {Node : EthNode E} {Lru : NonceLru C} {Txt : Texts}.
Context (cfg : TxConfig).
Abbreviation CM := (M (Claimer E C)).

(** ** Lifting *)
Section Lift.
Context (P : database → Prop).
Definition db_of (s : Claimer E C) : Prop := P (cl_db s).
Lemma pres_cl_store {A} (m : M database A) : preserves P m → preserves db_of (store m : CM A).
Proof.
  intros Hm s r s' H. unfold store, zoom. destruct (m (cl_db s)) as [r1 db1] eqn:E1. intros [= <- <-].
  by eapply Hm.
Qed.
Lemma pres_node {A} (m : M E A) : preserves db_of (node m : CM A).
Proof. intros s r s' H. unfold node, zoom. destruct (m (cl_env s)). by intros [= <- <-]. Qed.
Lemma pres_nonces {A} (m : M C A) : preserves db_of (nonces m : CM A).
Proof. intros s r s' H. unfold nonces, zoom. destruct (m (cl_nonces s)). by intros [= <- <-]. Qed.
Lemma yields_store {A} (m : M database A) Q : yields P m Q → yields db_of (store m : CM A) Q.
Proof.
  intros Hm s a s' H. unfold store, zoom. destruct (m (cl_db s)) as [r1 db1] eqn:E1. intros [= -> <-].
  by eapply Hm.
Qed.
Hint Resolve pres_cl_store pres_node pres_nonces : pres.

Lemma pres_GetNextNonce from : preserves db_of (GetNextNonce from).
Proof. unfold GetNextNonce. solve_preserves. Qed.
Hint Resolve pres_GetNextNonce : pres.
Lemma pres_estimate msg : preserves db_of (estimate cfg msg).
Proof.
  unfold estimate. apply pres_bind; [solve_preserves|]. intros r. generalize (Z.to_nat (tcf_RetryNumber cfg - 1)).
  intros n. revert r. induction n as [|n IH]; intros [z|err]; cbn; try apply pres_ret.
  destruct (is_reverted err); [apply pres_ret|]. apply pres_bind; [solve_preserves|]. intros r. apply IH.
Qed.
Hint Resolve pres_estimate : pres.
Lemma pres_Review mTx b : preserves db_of (ReviewMonitoredTx cfg mTx b).
Proof. unfold ReviewMonitoredTx. solve_preserves. Qed.
Lemma pres_find_in_pool n h r : preserves db_of (find_in_pool n h r).
Proof.
  revert r. induction n as [|n IH]; intros [u|err]; cbn; try apply pres_ret.
  apply pres_bind; [solve_preserves|]. intros r. apply IH.
Qed.
Hint Resolve pres_Review pres_find_in_pool : pres.
Lemma pres_checkTxHistory mTx : preserves db_of (checkTxHistory cfg mTx).
Proof.
  unfold checkTxHistory. apply pres_bind; [solve_preserves|]. intros hs.
  generalize false, true. induction hs as [|h hs IH]; intros a b; cbn [checkTxHistory_loop]; [apply pres_ret|].
  solve_preserves; apply IH.
Qed.
Lemma pres_send_signed h mTx b : preserves db_of (send_signed cfg h mTx b).
Proof. unfold send_signed, Remove. solve_preserves. Qed.
Hint Resolve pres_checkTxHistory pres_send_signed : pres.

(** The updates of a pass keep [P] when they write transactions with [Q]. *)
Context (Q : MonitoredTx → Prop) (tx : Tx).
Context (Hupd : ∀ mTx, Q mTx → preserves P (UpdateClaimTx mTx tx)).
Lemma pres_update_logged mTx : Q mTx → preserves db_of (update_logged mTx tx : CM unit).
Proof. intros H. unfold update_logged. solve_preserves. Qed.
End Lift.
#[local] Hint Resolve pres_cl_store pres_node pres_nonces pres_GetNextNonce pres_estimate pres_Review
  pres_find_in_pool pres_checkTxHistory pres_send_signed : pres.

(** ** The limit of the histories *)

Definition full (mTx : MonitoredTx) : Prop := (size (mtx_History mTx) ≤ maxHistorySize)%nat.
Definition histories_bounded (t : tables) : Prop := Forall full (t_monitored t).

Lemma Review_history mTx b : returns (ReviewMonitoredTx cfg mTx b : CM _) (λ r, mtx_History r.1 = mtx_History mTx).
Proof.
  unfold ReviewMonitoredTx. apply returns_seq. intros [gas|err]; [|by apply yields_ret].
  destruct (negb b); [apply yields_ret; by case_bool_decide|].
  apply returns_seq. intros [nonce|err]; apply yields_ret; repeat case_bool_decide; done.
Qed.
Lemma send_signed_history h mTx b :
  returns (send_signed cfg h mTx b : CM _) (λ r, mtx_History r.1 ⊆ mtx_History mTx).
Proof.
  unfold send_signed. apply returns_seq. intros [u|err]; [by apply yields_ret|].
  destruct (negb _); [by apply yields_ret|]. apply returns_seq. intros [u|err2]; [by apply yields_ret|].
  apply returns_seq. intros _. eapply returns_bind; [apply Review_history|]. intros [m o] Hm.
  apply yields_ret. cbn in *. rewrite Hm. apply subseteq_difference_l. done.
Qed.
Lemma add_history_size h mTx : (size (mtx_History mTx) < maxHistorySize)%nat → full (add_history h mTx).
Proof.
  intros H. unfold add_history, AddHistory, full. case_bool_decide as Hin; [lia|]. cbn.
  rewrite size_union by set_solver. rewrite size_singleton. lia.
Qed.

Lemma bounded_Update mTx tx : full mTx → preserves (db_all histories_bounded) (UpdateClaimTx mTx tx).
Proof.
  intros H. unfold UpdateClaimTx, mtx_params. solve_preserves. apply db_all_exec, keeps_change.
  intros t Ht. apply Forall_fmap. eapply Forall_impl; [exact Ht|]. intros m Hm. unfold compose.
  by case_bool_decide.
Qed.

Abbreviation bounded := (db_of (db_all histories_bounded)).
Lemma bounded_log mTx tx : full mTx → preserves bounded (update_logged mTx tx : CM unit).
Proof. intros H. apply (pres_update_logged _ full); [|done]. intros m Hm. by apply bounded_Update. Qed.

Lemma bounded_resend mTx failed reset tx : (size (mtx_History mTx) < maxHistorySize)%nat →
  preserves bounded (resend cfg mTx failed reset tx).
Proof.
  intros Hsize. unfold resend.
  eapply (pres_bind_yields _ _ _ (λ r, mtx_History r.1 = mtx_History mTx)).
  { destruct failed; solve_preserves. }
  { destruct failed; [|by apply yields_ret]. intros s a s' _. by apply (Review_history mTx true s a s' I). }
  intros [m o] Hm. cbn in Hm. destruct o; [apply pres_ret|].
  apply pres_bind; [solve_preserves|]. intros [price|]; [|apply pres_ret].
  apply pres_bind; [solve_preserves|]. intros [signed|]; [|apply pres_ret].
  eapply (pres_bind_yields _ _ _ (λ r : MonitoredTx * bool, full r.1)).
  - solve_preserves.
  - intros s a s' _ E1. pose proof (send_signed_history _ _ _ s a s' I E1) as Hsub.
    apply subseteq_size in Hsub. pose proof (add_history_size signed (set_mtx_GasPrice (Some (price * 10)) m)) as Ha.
    unfold full in *. cbn [set_mtx_GasPrice mtx_History] in Ha. rewrite Hm in Ha. specialize (Ha Hsize). lia.
  - intros [m' reset'] Hm'. apply pres_bind; [by apply bounded_log|]. intros _. apply pres_ret.
Qed.
Lemma bounded_monitor_tx mTx reset tx : full mTx → preserves bounded (monitor_tx cfg mTx reset tx).
Proof.
  intros Hfull. unfold monitor_tx. apply pres_bind; [solve_preserves|]. intros [[f a] r].
  destruct r; [apply pres_bind; [by apply bounded_log|intros; apply pres_ret]|].
  destruct a; cbn [andb]; [|apply pres_ret].
  case_bool_decide as Hsize; [apply pres_bind; [by apply bounded_log|intros; apply pres_ret]|].
  apply bounded_resend. lia.
Qed.
Lemma bounded_monitor_all mTxs reset tx : Forall full mTxs → preserves bounded (monitor_all cfg mTxs reset tx).
Proof.
  intros H. revert reset. induction H as [|m mTxs Hm _ IH]; intros reset; [apply pres_ret|].
  apply pres_bind; [by apply bounded_monitor_tx|]. intros r. apply IH.
Qed.
Lemma yields_created tx : yields (db_all histories_bounded)
  (GetClaimTxsByStatus [MonitoredTxStatusCreated] (tcf_rollupID cfg) tx) (Forall full).
Proof.
  apply yields_query; [by constructor|]. intros t Ht. apply Forall_forall. intros m.
  unfold order_asc. rewrite merge_sort_Permutation. intros [_ Hin]%list_elem_of_filter.
  by eapply Forall_forall in Hin; [|exact Ht].
Qed.
Lemma pres_rollback_with {A} P tx err : (∀ tx, preserves P (Rollback tx)) →
  preserves (db_of P) (rollback_with tx err : CM A).
Proof. intros H. unfold rollback_with. solve_preserves. Qed.

(** C17. Whatever the node answers, a pass of the monitor keeps every history of
    sent transactions within its limit. *)
Theorem MonitorTxs_history_bounded s r s'
  (Hb : db_all histories_bounded (cl_db s)) (E1 : MonitorTxs cfg s = (r, s')) :
  db_all histories_bounded (cl_db s').
Proof.
  assert (Hp : preserves bounded (MonitorTxs cfg)); [|exact (Hp s r s' Hb E1)].
  unfold MonitorTxs. apply pres_bind; [solve_preserves|]. intros tx.
  eapply (pres_bind_yields _ _ _ (λ r, match r with inl mTxs => Forall full mTxs | inr _ => True end)).
  - unfold GetClaimTxsByStatus. solve_preserves.
  - intros s0 a s1 H0. unfold attempt.
    destruct (store _ s0) as [[l|e|p] s2] eqn:E2; intros [= <- <-]; [|done].
    exact (yields_store _ _ _ (yields_created tx) _ _ _ H0 E2).
  - intros [mTxs|err] H; [|apply pres_rollback_with, db_all_Rollback].
    apply pres_bind; [by apply bounded_monitor_all|]. intros _.
    apply pres_bind; [solve_preserves|]. intros [u|err]; [apply pres_ret|].
    apply pres_rollback_with, db_all_Rollback.
Qed.
End Monitor.

(** ** A node that does not answer *)
Section Unreachable.
Context {E C : Type} {Run : Runtime E} {ROk : RuntimeOk E} {Node : EthNode E} {Lru : NonceLru C} {Txt : Texts}.
Context (cfg : TxConfig).

(** No receipt can be read, for another reason than its absence. *)
Definition receipts_fail : Prop := ∀ h (e : E), ∃ err e', TransactionReceipt h e = (Err err, e') ∧
  errors_Is err ErrNotFound = false.

Lemma checkTxHistory_loop_down hs a b (s : Claimer E C) : receipts_fail →
  ∃ e', checkTxHistory_loop cfg hs a b s = (Ok (a, b, false), mkClaimer e' (cl_nonces s) (cl_db s)).
Proof.
  intros Hdown. revert s. induction hs as [|h hs IH]; intros s; cbn [checkTxHistory_loop].
  { exists (cl_env s). by destruct s. }
  destruct (Hdown h (cl_env s)) as (err & e1 & E1 & Hnf).
  erewrite M_bind_ok; [|by unfold attempt, node, zoom, CheckTxWasMined, mbind, M_bind, attempt; rewrite E1, Hnf].
  apply (IH (mkClaimer e1 (cl_nonces s) (cl_db s))).
Qed.

(** The receipts that cannot be read count as those of mined transactions: a
    claim with a full history fails for good while the node does not answer,
    whatever became of the transactions that were sent. *)
Theorem unreachable_node_fails_tx mTx reset tx (s : Claimer E C) db'
  (Hdown : receipts_fail) (Hfull : (maxHistorySize ≤ size (mtx_History mTx))%nat)
  (Hupd : UpdateClaimTx (set_mtx_Status MonitoredTxStatusFailed mTx) tx (cl_db s) = (Ok tt, db')) :
  ∃ e', monitor_tx cfg mTx reset tx s = (Ok reset, mkClaimer e' (cl_nonces s) db').
Proof.
  destruct (MapRange (elements (mtx_History mTx)) (cl_env s)) as [r e1] eqn:E1.
  destruct (MapRange_ok _ _ _ _ E1) as (ids & -> & _).
  set (s1 := mkClaimer e1 (cl_nonces s) (cl_db s)).
  destruct (checkTxHistory_loop_down ids false true s1 Hdown) as [e2 E2].
  exists e2. unfold monitor_tx. erewrite M_bind_ok.
  2:{ unfold checkTxHistory. erewrite M_bind_ok; [exact E2|]. unfold node, zoom. by rewrite E1. }
  rewrite bool_decide_true by done. cbn [andb].
  erewrite M_bind_ok; [reflexivity|]. unfold update_logged. erewrite M_bind_ok; [reflexivity|].
  unfold attempt, store, zoom. cbn [cl_db cl_env cl_nonces s1]. by rewrite Hupd.
Qed.
End Unreachable.

(** ** Nonces *)
Section Nonces.
Context {E C : Type} {Node : EthNode E} {Lru : NonceLru C} {LOk : NonceLruOk C}.

(** Calls for one account, between which the node and the storage may change. *)
Inductive nonce_calls (from : bytes) : Claimer E C → list Z → Prop :=
| nonce_calls_nil s : nonce_calls from s []
| nonce_calls_cons s n s1 s2 ns : GetNextNonce from s = (Ok n, s1) → cl_nonces s2 = cl_nonces s1 →
    nonce_calls from s2 ns → nonce_calls from s (n :: ns).

Lemma GetNextNonce_holds from (s : Claimer E C) n s' :
  GetNextNonce from s = (Ok n, s') → nonce_holds (cl_nonces s') from n.
Proof.
  unfold GetNextNonce. intros E1. inv_bind E1. inv_bind H0. unfold nonces, zoom, modify in H2. cbn in H2.
  injection H2 as <- <-. apply nonce_Add_ok.
Qed.
Lemma GetNextNonce_above from (s : Claimer E C) n0 n s' :
  0 ≤ n0 < 2 ^ 64 - 1 → nonce_holds (cl_nonces s) from n0 → GetNextNonce from s = (Ok n, s') → n0 < n.
Proof.
  intros Hr Hh. unfold GetNextNonce. intros E1. inv_bind E1. inv_bind H0.
  unfold node, zoom in H. destruct (NonceAt from (cl_env s)) as [r e1]. injection H as -> <-.
  unfold nonces, zoom in H1. cbn in H1. destruct (nonce_Get from (cl_nonces s)) as [o c1] eqn:E2.
  injection H1 as <- <-. destruct (nonce_Get_ok _ _ _ _ E2) as [Ho _].
  apply Ho in Hh as ->. injection H2 as <- _. unfold wrap64.
  rewrite wrap_id by (unfold in_width; lia). case_bool_decide; lia.
Qed.

(** The nonces given to one account strictly increase, whatever the node
    answers, as long as the cache keeps the account: no two of its transactions
    get the same one. *)
Theorem GetNextNonce_increasing from (s : Claimer E C) ns
  (Hcalls : nonce_calls from s ns) (Hrange : Forall (λ n, 0 ≤ n < 2 ^ 64 - 1) ns) :
  StronglySorted Z.lt ns.
Proof.
  apply Sorted_StronglySorted; [intros ???; lia|]. induction Hcalls as [|s n s1 s2 ns E1 Hc Hcalls IH]; [constructor|].
  apply Forall_cons in Hrange as [Hn Hrange]. constructor; [by apply IH|].
  apply GetNextNonce_holds in E1. rewrite <- Hc in E1.
  destruct Hcalls as [|s2 n' s3 s4 ns' E2]; constructor. exact (GetNextNonce_above from s2 n n' s3 Hn E1 E2).
Qed.
End Nonces.

Section Manager.
Context {K : Keccak} {Abi : TokenAbi} {Com : Common} {Txt : Texts} {E C L : Type} {Node : EthNode E}.
Context {Bridge : BridgeContract E} {NLru : NonceLru C} {Lru : LruCache L}.
Context (cfg : ManagerConfig) (service : bridgeService).
Abbreviation TM := (M (ClaimTxManager E C L)).

(** A claim the manager adds for a deposit: it goes to the network the manager
    claims on, a message comes from an authorised address, and the transaction
    is one of the manager's account, not sent and in no group. *)
Record claim_row (d : Deposit) (row : MonitoredTx) : Prop := {
  cr_destination : dep_DestinationNetwork d = tm_l2NetworkID cfg;
  cr_message : dep_LeafType d = LeafTypeMessage → isDepositMessageAllowed cfg d = true;
  cr_deposit : mtx_DepositID row = dep_Id d;
  cr_from : mtx_From row = tm_From cfg;
  cr_status : mtx_Status row = MonitoredTxStatusCreated;
  cr_history : mtx_History row = ∅;
  cr_group : mtx_GroupID row = None;
}.

(** ** Lifting a property of the storage *)
Section Lift.
Context (P : database → Prop).
Definition tm_db_of (s : ClaimTxManager E C L) : Prop := P (cl_db (tm_claimer s)).
Definition sv_db_of (s : L * database) : Prop := P s.2.

Lemma pres_on_claimer {A} (m : M (Claimer E C) A) : preserves (db_of P) m → preserves tm_db_of (on_claimer m : TM A).
Proof.
  intros Hm s r s' H. unfold on_claimer, zoom. destruct (m (tm_claimer s)) as [r1 c1] eqn:E1. intros [= <- <-].
  exact (Hm _ _ _ H E1).
Qed.
Lemma pres_tm_store {A} (m : M database A) : preserves P m → preserves tm_db_of (on_store m : TM A).
Proof. intros H. by apply pres_on_claimer, pres_cl_store. Qed.
Lemma pres_tm_node {A} (m : M E A) : preserves tm_db_of (on_node m : TM A).
Proof. apply pres_on_claimer, pres_node. Qed.
Lemma pres_on_service {A} (m : M (L * database) A) : preserves sv_db_of m → preserves tm_db_of (on_service m : TM A).
Proof.
  intros Hm s r s' H. unfold on_service, zoom.
  destruct (m (tm_lru s, cl_db (tm_claimer s))) as [r1 p1] eqn:E1. intros [= <- <-]. exact (Hm (_, _) _ _ H E1).
Qed.
Lemma yields_on_service {A} (m : M (L * database) A) Q : yields sv_db_of m Q → yields tm_db_of (on_service m : TM A) Q.
Proof.
  intros Hm s a s' H. unfold on_service, zoom.
  destruct (m (tm_lru s, cl_db (tm_claimer s))) as [r1 p1] eqn:E1. intros [= -> <-]. exact (Hm (_, _) _ _ H E1).
Qed.
Lemma pres_on_storage {A} (m : M database A) : preserves P m → preserves sv_db_of (on_storage m : M (L * database) A).
Proof.
  intros Hm s r s' H. unfold on_storage, zoom. destruct (m s.2) as [r1 db1] eqn:E1. intros [= <- <-]. exact (Hm _ _ _ H E1).
Qed.

(** What reads keep is kept by the proofs and by the review of the deposits. *)
Context (Hselect : ∀ tx A (f : tables → A), preserves P (exec tx (select f))).
Hint Resolve Hselect pres_on_storage : pres.
Lemma pres_query_row_tx {A} tx (f : tables → option A) : preserves P (query_row tx f).
Proof. unfold query_row. solve_preserves. Qed.
Hint Resolve pres_query_row_tx : pres.
Lemma pres_getNode h tx : preserves sv_db_of (getNode h tx : M (L * database) (bytes * bytes)).
Proof.
  intros [c db] r s' H. unfold getNode. destruct (lru_Get h c) as [[v|] c1].
  - by intros [= <- <-].
  - assert (Hg : preserves P (Get h tx)) by (unfold Get; solve_preserves).
    destruct (Get h tx db) as [[v|e|p] db1] eqn:E1; pose proof (Hg _ _ _ H E1); by intros [= <- <-].
Qed.
Hint Resolve pres_getNode : pres.
Lemma pres_getProof i root tx : preserves sv_db_of (getProof service i root tx : M (L * database) (list bytes)).
Proof.
  unfold getProof. apply pres_bind; [|intros; solve_preserves].
  generalize root, (@nil bytes). induction (levels (bs_height service)) as [|h hs IH]; intros cur sib; cbn [getProof_loop];
    [solve_preserves|]. solve_preserves; apply IH.
Qed.
Hint Resolve pres_getProof : pres.
Lemma pres_claim_proofs cnt net g tx :
  preserves sv_db_of (claim_proofs service cnt net g tx : M (L * database) (list bytes * list bytes)).
Proof.
  unfold claim_proofs, getRollupExitProof. solve_preserves; apply pres_on_storage;
    unfold GetRollupExitLeavesByRoot; solve_preserves.
Qed.
Hint Resolve pres_claim_proofs : pres.
Lemma pres_GetClaimProof ger cnt net tx :
  preserves sv_db_of (GetClaimProofForCompressed service ger cnt net tx : M (L * database) _).
Proof.
  unfold GetClaimProofForCompressed. solve_preserves; apply pres_on_storage;
    unfold GetDeposit, GetL1ExitRootByGER, l1_root; solve_preserves.
Qed.
Lemma pres_GetDepositStatus cnt o d : preserves sv_db_of (GetDepositStatus cnt o d : M (L * database) _).
Proof.
  unfold GetDepositStatus. solve_preserves. apply pres_on_storage. unfold GetClaim. solve_preserves.
Qed.
Hint Resolve pres_GetClaimProof pres_GetDepositStatus pres_on_claimer pres_on_service pres_tm_store pres_tm_node
  pres_estimate pres_GetNextNonce : pres.

Context (tx : Tx).
(** What one deposit does, when the claims it may add are kept; [U] is what an
    empty status says of a deposit. *)
Context (U : Deposit → Prop).
Context (HU : ∀ d, yields sv_db_of (GetDepositStatus (dep_DepositCount d) (dep_NetworkID d) (dep_DestinationNetwork d))
  (λ h, h = [] → U d)).
Lemma pres_claim_deposit g d :
  (∀ row, U d → claim_row d row → preserves P (AddClaimTx row tx)) →
  preserves tm_db_of (claim_deposit cfg service g tx d : TM unit).
Proof.
  intros Hadd. unfold claim_deposit. case_bool_decide as Hdest; [apply pres_ret|].
  eapply pres_bind_yields; [solve_preserves|apply yields_on_service, HU|]. intros claimHash Hun.
  case_bool_decide as Hlen; cbn [orb]; [apply pres_ret|].
  assert (Hu : U d) by (apply Hun; destruct claimHash; [done|cbn in Hlen; lia]).
  destruct (bool_decide _ && negb _) eqn:Hmsg; [apply pres_ret|].
  assert (Hok : dep_LeafType d = LeafTypeMessage → isDepositMessageAllowed cfg d = true).
  { intros Ht. rewrite bool_decide_true in Hmsg by done. by destruct (isDepositMessageAllowed cfg d). }
  unfold addClaimTx. solve_preserves. by apply pres_tm_store, Hadd.
Qed.

Context (HL1 : ∀ root n, preserves P (UpdateL1DepositsStatus root n tx)).
Context (HL2 : ∀ root r n, preserves P (UpdateL2DepositsStatus root r n tx)).
Hint Resolve HL1 HL2 : pres.
Lemma pres_ready_deposits ger : preserves P (ready_deposits cfg ger tx).
Proof.
  unfold ready_deposits, trusted_ger, GetDepositsFromOtherL2ToClaim, GetLatestTrustedGERByDeposit.
  solve_preserves.
Qed.
Hint Resolve pres_ready_deposits : pres.
Context (Hadd : ∀ d row, U d → claim_row d row → preserves P (AddClaimTx row tx)).
Lemma pres_process ger : preserves tm_db_of (processDepositStatus cfg service ger tx : TM unit).
Proof.
  unfold processDepositStatus. apply pres_bind; [solve_preserves|]. intros [ds g].
  apply pres_for_each. intros d. apply pres_claim_deposit. intros row. apply Hadd.
Qed.
End Lift.

(** ** A failure leaves the committed tables *)
Section Atomic.
Context (t0 : tables).
Abbreviation kept := (tm_db_of (committed_is t0)).

Lemma kept_select tx A (f : tables → A) : preserves (committed_is t0) (exec tx (select f)).
Proof. destruct tx; [apply committed_select|apply committed_exec]. Qed.
Lemma kept_process ger : preserves kept (processDepositStatus cfg service ger open_tx : TM unit).
Proof.
  apply (pres_process _ (kept_select) _ (λ _, True)); [done|..].
  - intros. unfold UpdateL1DepositsStatus. solve_preserves.
  - intros. unfold UpdateL2DepositsStatus. solve_preserves.
  - intros. unfold AddClaimTx, mtx_params. solve_preserves.
Qed.

Lemma kept_rollback_with {A} err : preserves kept (on_claimer (rollback_with open_tx err) : TM A).
Proof. apply pres_on_claimer, pres_rollback_with. intros tx. apply committed_Rollback. Qed.
Lemma on_store_inv {A} (m : M database A) (s : ClaimTxManager E C L) r s' :
  on_store m s = (r, s') → ∃ db', m (cl_db (tm_claimer s)) = (r, db') ∧ cl_db (tm_claimer s') = db'.
Proof.
  unfold on_store, on_claimer, store, zoom. destruct (m (cl_db (tm_claimer s))) as [r1 db1]. intros [= <- <-]. eauto.
Qed.

Lemma update_keeps ger : keeps_on_failure kept (updateDepositsStatus cfg service ger : TM unit).
Proof.
  intros s r s' H. unfold updateDepositsStatus. unfold mbind at 1, M_bind at 1.
  destruct (on_store BeginDBTransaction s) as [[tx|e|p] s1] eqn:E1;
    pose proof (pres_tm_store _ _ (committed_Begin t0) _ _ _ H E1) as H1; [|by intros [= <- <-]..].
  apply on_store_inv in E1 as (db1 & ->%begin_open & _).
  revert s1 r s' H1. apply keeps_bind; [apply pres_attempt, kept_process|]. intros [u|err].
  - intros s1 r s' H1. unfold mbind at 1, M_bind at 1, attempt.
    destruct (on_store (Commit open_tx) s1) as [[v|e|p] s2] eqn:E2; apply on_store_inv in E2 as (db2 & E2 & Hs2).
    + by intros [= <- <-].
    + intros E3 _. apply (kept_rollback_with e s2 r s'); [|exact E3]. unfold tm_db_of, committed_is in *.
      rewrite Hs2, <- H1. by eapply commit_err_keeps_committed.
    + intros [= <- <-] _. unfold tm_db_of, committed_is in *. rewrite Hs2, <- H1. by eapply commit_err_keeps_committed.
  - intros s1 r s' H1 E2 _. exact (kept_rollback_with err s1 r s' H1 E2).
Qed.
End Atomic.

Lemma updateDepositsStatus_keeps ger (s : ClaimTxManager E C L) r s' : updateDepositsStatus cfg service ger s = (r, s') →
  is_ok r = false → db_committed (cl_db (tm_claimer s')) = db_committed (cl_db (tm_claimer s)).
Proof. intros E1 Hfail. exact (update_keeps _ ger s r s' eq_refl E1 Hfail). Qed.
Lemma rollback_with_not_ok {A} tx err (s : ClaimTxManager E C L) (a : A) s' :
  on_claimer (rollback_with tx err) s ≠ (Ok a, s').
Proof.
  unfold on_claimer, zoom. intros E1. destruct (rollback_with tx err (tm_claimer s)) as [r1 c1] eqn:E2. injection E1 as -> _.
  unfold rollback_with in E2. apply M_bind_inv in E2 as ([x|x] & c2 & _ & E2); done.
Qed.

(** C19. When a global exit root cannot be processed, for whatever reason, the
    committed tables stay as they were: no deposit becomes ready and no claim
    is added for a part of the deposits. *)
Theorem updateDepositsStatus_atomic ger (s : ClaimTxManager E C L) r s'
  (E1 : updateDepositsStatus cfg service ger s = (r, s')) (Hfail : is_ok r = false) :
  db_committed (cl_db (tm_claimer s')) = db_committed (cl_db (tm_claimer s)).
Proof. by eapply updateDepositsStatus_keeps. Qed.

(** ** The claims that are added *)
Section Added.
Context (t0 : tables).
(** The text of a hash is not empty. *)
Context (Htext : ∀ h, Hash_String h ≠ []).

(** No claim of the deposit is stored in the tables the pass began with. *)
Definition unclaimed (d : Deposit) : Prop := Forall (λ c, ¬ (clm_Index c = dep_DepositCount d ∧
  clm_NetworkID c = dep_DestinationNetwork d ∧ claim_from (dep_NetworkID d) c = true)) (t_claim t0).
(** The claim of a deposit that is stored in [t], ready for claim. *)
Definition added_claim (t : tables) (row : MonitoredTx) : Prop := ∃ dr, dr ∈ t_deposit t ∧
  dep_ReadyForClaim (dr_dep dr) = true ∧ claim_row (dr_dep dr) row ∧ unclaimed (dr_dep dr).
Definition only_claims (t : tables) : Prop :=
  ∃ new, t_monitored t = t_monitored t0 ++ new ∧ Forall (added_claim t) new.

(** A deposit as the queries of the pass return it. *)
Definition ready_stored (t : tables) (d : Deposit) : Prop :=
  ∃ dr, dr ∈ t_deposit t ∧ dep_ReadyForClaim (dr_dep dr) = true ∧ d = scan_plain dr.
Definition claims_for (ds : list Deposit) (t : tables) : Prop := only_claims t ∧ Forall (ready_stored t) ds.

(** Making deposits ready changes nothing else. *)
Lemma claim_row_ready b d row : claim_row d row → claim_row (set_dep_ready b d) row.
Proof. by intros []. Qed.
Lemma mark_ready_in (f : Deposit → bool) time t dr : dr ∈ t_deposit t → dep_ReadyForClaim (dr_dep dr) = true →
  ∃ dr', dr' ∈ t_deposit (mark_ready f time t) ∧ dep_ReadyForClaim (dr_dep dr') = true ∧ dr_dep dr' = dr_dep dr.
Proof.
  intros Hin Hr. unfold mark_ready. cbn [t_deposit set_deposit]. case_eq (f (dr_dep dr)); intros Hf.
  - eexists. split; [apply list_elem_of_fmap; exists dr; split; [|done]; by rewrite Hf|]. cbn.
    split; [done|]. rewrite <- Hr. by destruct (dr_dep dr).
  - exists dr. split_and!; [|done..]. apply list_elem_of_fmap. exists dr. by rewrite Hf.
Qed.
Lemma claims_for_mark ds f time t : claims_for ds t → claims_for ds (mark_ready f time t).
Proof.
  intros [(new & Heq & Hnew) Hds]. split.
  - exists new. split; [exact Heq|]. eapply Forall_impl; [exact Hnew|]. intros row (dr & Hin & Hr & Hc & Hu).
    destruct (mark_ready_in f time t dr Hin Hr) as (dr' & Hin' & Hr' & E'). exists dr'. by rewrite E' in *.
  - eapply Forall_impl; [exact Hds|]. intros d (dr & Hin & Hr & ->).
    destruct (mark_ready_in f time t dr Hin Hr) as (dr' & Hin' & Hr' & E'). exists dr'. unfold scan_plain. by rewrite E' in *.
Qed.
Lemma claims_for_status ds counts f time : sql_keeps (claims_for ds) (sql_update_status counts f time).
Proof.
  unfold sql_update_status. apply keeps_seq; [apply keeps_select|]. intros t.
  apply keeps_seq; [by intros t1 q1 a t2 q2 H [= _ <- _]|]. intros sel.
  apply keeps_seq; [apply keeps_change, claims_for_mark|]. by intros _ t1 q1 a t2 q2 H [= _ <- _].
Qed.
Lemma claims_for_l2 ds root r n time : sql_keeps (claims_for ds) (sql_update_l2_status root r n time).
Proof.
  unfold sql_update_l2_status. apply keeps_seq; [apply keeps_select|]. intros t.
  destruct (rollup_leaves root r t) as [|l [|l' ls]]; [apply claims_for_status..|]. by intros t1 q1 a t2 q2 H [=].
Qed.

(** The state of a pass that has found the deposits [ds]. *)
Definition pass (ds : list Deposit) (db : database) : Prop := committed_is t0 db ∧ tx_live (claims_for ds) db.
Lemma pass_exec ds A (m : SQL A) : sql_keeps (claims_for ds) m → preserves (pass ds) (exec open_tx m).
Proof. intros Hm db r db' [Hc Hl] Ex. split; [by eapply committed_exec|by eapply tx_live_exec]. Qed.
Lemma pass_select ds tx A (f : tables → A) : preserves (pass ds) (exec tx (select f)).
Proof. intros db r db' [Hc Hl] Ex. split; [by eapply kept_select|by eapply tx_live_select]. Qed.
Lemma pass_add ds d row : d ∈ ds → unclaimed d → claim_row d row → preserves (pass ds) (AddClaimTx row open_tx).
Proof.
  intros Hd Hu Hrow. unfold AddClaimTx, mtx_params. solve_preserves. apply pass_exec.
  apply keeps_seq; [apply keeps_select|]. intros t. apply keeps_seq; [apply keeps_require|]. intros _.
  apply keeps_change. intros t1 [(new & Heq & Hnew) Hds]. split; [|exact Hds].
  eexists (new ++ [_]). cbn. rewrite Heq, app_assoc. split; [done|]. apply Forall_app. split; [exact Hnew|].
  constructor; [|done]. rewrite Forall_forall in Hds. destruct (Hds d Hd) as (dr & Hin & Hr & ->).
  exists dr. split_and!; [done|done| |exact Hu]. by destruct Hrow.
Qed.

(** A status that is empty was read in the committed tables. *)
Lemma pass_status ds d : yields (sv_db_of (pass ds))
  (GetDepositStatus (dep_DepositCount d) (dep_NetworkID d) (dep_DestinationNetwork d) : M (L * database) _)
  (λ h, h = [] → unclaimed d).
Proof.
  intros [c db] h s' [Hc _] Es ->. unfold GetDepositStatus in Es. apply M_bind_inv in Es as (r & [c1 db1] & Ea & Es).
  destruct r as [cl|err]; [injection Es as Es _; by destruct (Htext (clm_TxHash cl))|]. revert Es. case_bool_decide as He; [done|]. intros _.
  subst err. revert Ea. unfold attempt, on_storage, zoom. cbn [fst snd].
  unfold GetClaim. set (f := λ t : tables, head _).
  destruct (not_found (query_row nil_tx f) db) as [[x|e|p] db2] eqn:E1.
  - by rewrite (M_bind_ok _ _ _ _ _ E1).
  - rewrite (M_bind_err _ _ _ _ _ E1). intros [= -> _ _]. apply not_found_row in E1. rewrite Hc in E1.
    apply Forall_forall. intros c' Hin Hm. apply head_None in E1. apply (not_elem_of_nil c'). rewrite <- E1.
    by apply list_elem_of_filter.
  - by rewrite (M_bind_panic _ _ _ _ _ E1).
Qed.

(** The deposits the pass finds. *)
Lemma pass_UpdateL1 ds root n : preserves (pass ds) (UpdateL1DepositsStatus root n open_tx).
Proof. unfold UpdateL1DepositsStatus. solve_preserves. apply pass_exec, claims_for_status. Qed.
Lemma pass_UpdateL2 ds root r n : preserves (pass ds) (UpdateL2DepositsStatus root r n open_tx).
Proof. unfold UpdateL2DepositsStatus. solve_preserves. apply pass_exec, claims_for_l2. Qed.
Lemma pass_found {A} ds (f : A → Deposit) (m : SQL (list A)) db l db' :
  (∀ t q t' q', claims_for [] t → m (t, q) = (Ok l, (t', q')) → Forall (ready_stored t') (f <$> l)) →
  preserves (pass []) (query open_tx m) → pass [] db → ds = f <$> l → query open_tx m db = (Ok l, db') → pass ds db'.
Proof.
  intros Hm Hp H -> Eq. destruct (Hp _ _ _ H Eq) as [Hc Hl]. split; [exact Hc|].
  destruct (query_open_ok _ _ _ _ Eq) as [Hab|(t & q & t' & q' & Htx & Htx' & Em)]; [by apply tx_live_poisoned|].
  destruct H as [_ H]. unfold tx_live in *. rewrite Htx in H. rewrite Htx' in Hl |- *. cbn in *. intros _.
  split; [by apply Hl|]. eapply Hm; [by apply H|exact Em].
Qed.
Lemma pass_UpdateL1_found root n db ds db' : pass [] db → UpdateL1DepositsStatus root n open_tx db = (Ok ds, db') → pass ds db'.
Proof.
  intros H E1. unfold UpdateL1DepositsStatus in E1. apply M_bind_inv in E1 as (rows & db1 & Eq & [= <- <-]).
  eapply (pass_found _ scan_plain); [|apply pres_query, pass_exec, claims_for_status|exact H|done|exact Eq].
  intros t q t' q' _. unfold sql_update_status, mbind, M_bind, select, gets. cbn [fst snd id].
  set (sel0 := upto_subquery _ _). destruct sel0 as [sel|e|p]; cbn [lift_res]; [|done..].
  unfold change, modify. intros [= <- <- _]. apply Forall_fmap, Forall_fmap, Forall_forall.
  intros dr [Hs Hin]%list_elem_of_filter. eexists. split; [|split; [|reflexivity]; done].
  apply list_elem_of_fmap. exists dr. by rewrite Hs.
Qed.
Lemma pass_OtherL2_found n db ds db' : pass [] db → GetDepositsFromOtherL2ToClaim n open_tx db = (Ok ds, db') → pass ds db'.
Proof.
  intros H Eq. eapply (pass_found _ id); [|apply pres_query, pass_select|exact H|symmetry; apply list_fmap_id|exact Eq].
  intros t q t' q' _ [= <- <- _]. rewrite list_fmap_id. apply Forall_forall. intros d Hd.
  unfold order_desc in Hd. rewrite merge_sort_Permutation in Hd.
  apply list_elem_of_fmap in Hd as (dr & -> & [(_ & _ & _ & Hr) Hin]%list_elem_of_filter). by exists dr.
Qed.
Lemma pass_trusted ds d : preserves (pass ds) (trusted_ger d open_tx).
Proof. unfold trusted_ger, GetLatestTrustedGERByDeposit, query_row. assert (Hs := pass_select ds). solve_preserves. Qed.
Lemma pass_none ds db : pass ds db → pass [] db.
Proof. intros [Hc Hl]. split; [done|]. unfold tx_live in *. destruct (db_tx db); [|done]. intros Ha. by destruct (Hl Ha). Qed.
Lemma pass_ready ger db ds g db' : pass [] db → ready_deposits cfg ger open_tx db = (Ok (ds, g), db') → pass ds db'.
Proof.
  intros H. unfold ready_deposits. destruct (_ && _).
  - intros (root & db1 & [_ ->]%lift_res_inv & E1)%M_bind_inv.
    apply M_bind_inv in E1 as (u & db2 & E2 & E1). pose proof (pass_UpdateL2 _ _ _ _ _ _ _ H E2) as H2.
    destruct (negb _); [by injection E1 as <- _ <-|]. apply M_bind_inv in E1 as (ds' & db3 & E3 & E1).
    pose proof (pass_OtherL2_found _ _ _ _ H2 E3) as H3. destruct ds' as [|d ds']; [by injection E1 as <- _ <-|].
    apply M_bind_inv in E1 as (r & db4 & E4 & E1).
    pose proof (pres_attempt _ _ (pass_trusted _ d) _ _ _ H3 E4) as H4.
    destruct r as [g4|err]; [by injection E1 as <- _ <-|]. destruct (negb _); [done|].
    apply M_bind_inv in E1 as (r & db5 & E5 & E1).
    pose proof (pres_attempt _ _ (pass_trusted _ d) _ _ _ H4 E5) as H5.
    destruct r as [g5|err5]; [by injection E1 as <- _ <-|]. destruct (errors_Is _ _); [by injection E1 as <- _ <-|done].
  - intros (root & db1 & [_ ->]%lift_res_inv & E1)%M_bind_inv. apply M_bind_inv in E1 as (ds' & db2 & E2 & [= <- _ <-]).
    by eapply pass_UpdateL1_found.
Qed.

Abbreviation passing ds := (tm_db_of (pass ds)).
Lemma pass_process ger (s : ClaimTxManager E C L) r s' : passing [] s →
  processDepositStatus cfg service ger open_tx s = (r, s') → passing [] s'.
Proof.
  intros H. unfold processDepositStatus. unfold mbind at 1, M_bind at 1.
  destruct (on_store (ready_deposits cfg ger open_tx) s) as [rd s1] eqn:E1. apply on_store_inv in E1 as (db1 & E1 & Hs1).
  destruct rd as [[ds g]|e|p].
  - apply (pass_ready _ _ _ _ _ H) in E1. rewrite <- Hs1 in E1. intros E2. eapply pass_none.
    assert (Hloop : preserves (passing ds) (for_each ds (claim_deposit cfg service g open_tx) : TM unit)).
    { apply pres_for_each_in. intros d Hd. apply (pres_claim_deposit _ (pass_select ds) _ unclaimed); [by apply pass_status|].
      intros row. by apply pass_add. }
    exact (Hloop _ _ _ E1 E2).
  - intros [= _ <-]. unfold tm_db_of. rewrite Hs1.
    exact (pres_ready_deposits _ (pass_select []) _ (λ root n, pass_UpdateL1 [] root n) (λ root n k, pass_UpdateL2 [] root n k) ger _ _ _ H E1).
  - intros [= _ <-]. unfold tm_db_of. rewrite Hs1.
    exact (pres_ready_deposits _ (pass_select []) _ (λ root n, pass_UpdateL1 [] root n) (λ root n k, pass_UpdateL2 [] root n k) ger _ _ _ H E1).
Qed.
End Added.

(** C18. Whatever the network and the storage answer, processing a global exit root
    leaves the claims that were monitored as they are and only adds new ones, each
    the claim of a deposit that is then stored and ready for claim: the deposit goes
    to the manager's network, comes from an authorised address when it is a message,
    and no claim of it was stored before. *)
Theorem updateDepositsStatus_only_claims ger (s : ClaimTxManager E C L) r s'
  (Htext : ∀ h, Hash_String h ≠ []) (E1 : updateDepositsStatus cfg service ger s = (r, s')) :
  only_claims (db_committed (cl_db (tm_claimer s))) (db_committed (cl_db (tm_claimer s'))).
Proof.
  set (t0 := db_committed (cl_db (tm_claimer s))).
  assert (Hnone : only_claims t0 t0) by (exists []; by rewrite app_nil_r).
  destruct r as [u|e|p]; [|by rewrite (updateDepositsStatus_keeps _ _ _ _ E1)..].
  unfold updateDepositsStatus in E1. apply M_bind_inv in E1 as (tx & s1 & Eb & E1).
  apply on_store_inv in Eb as (db1 & (-> & Hc1 & Htx1)%begin_ok & Hs1).
  assert (H1 : tm_db_of (pass t0 []) s1).
  { unfold tm_db_of. rewrite Hs1. split; [exact Hc1|]. unfold tx_live. by rewrite Htx1. }
  apply M_bind_inv in E1 as (rp & s2 & Ep & E1). unfold attempt in Ep.
  destruct (processDepositStatus cfg service ger open_tx s1) as [rp1 s2'] eqn:Ep1.
  pose proof (pass_process t0 Htext ger _ _ _ H1 Ep1) as [_ H2].
  destruct rp1 as [u1|e1|p1]; [|injection Ep as <- <-|done].
  2: { by apply rollback_with_not_ok in E1. }
  injection Ep as <- <-. apply M_bind_inv in E1 as (rc & s3 & Ec & E1). unfold attempt in Ec.
  destruct (on_store (Commit open_tx) s2') as [[v|e2|p2] s3'] eqn:Ec1; [|injection Ec as <- <-|done].
  2: { by apply rollback_with_not_ok in E1. }
  injection Ec as <- <-. injection E1 as _ <-. apply on_store_inv in Ec1 as (db3 & Ec1 & ->).
  apply (commit_live_publishes _ _ _ _ H2 Ec1).
Qed.
End Manager.
