(* ===== verification/XLayerFacts.v ===== *)
(** * The claim transaction manager of X Layer is safe

    A global exit root that cannot be processed leaves the tables, in the mode of
    one transaction; in the mode of one transaction for each deposit the front end
    only hears of deposits whose readiness is committed.

    The life of a claim: what a pass of a monitor makes of a claim that was sent,
    and of one that is finished. *)
From stdpp Require Import pretty.
From S2P Require Import Prelude Types GlobalIndex Hashing MerkleStore MerkleTree MonitoredTx Tables Storage.
From S2P Require Import StorageFacts Transactions EthClient TxMonitor SchemaInv SyncAtomic TableInv BridgeService.
From S2P Require Import Redis PushMessage PushTask ClaimTxManager XLayerClaimTxManager ClaimTxManagerFacts.

Section Facts.
Context {K : Keccak} {Abi : TokenAbi} {Com : Common} {Txt : Texts} {E C L : Type} {Node : EthNode E} {Run : Runtime E}.
Context {Bridge : BridgeContract E} {NLru : NonceLru C} {Lru : LruCache L}.
Context {Redis : RedisClient E} {Kafka : KafkaProducer E}.
Context (cfg : XLayerConfig) (service : bridgeService).
Abbreviation XM := (M (XLayerManager E C L)).

(** ** Lifting a property of the storage *)
Section Lift.
Context (P : database → Prop).
Definition x_db_of (s : XLayerManager E C L) : Prop := P (cl_db (tm_claimer (xm_tm s))).

Lemma pres_on_tm {A} (m : M (ClaimTxManager E C L) A) : preserves (tm_db_of P) m → preserves x_db_of (on_tm m : XM A).
Proof.
  intros Hm s r s' H. unfold on_tm, zoom. destruct (m (xm_tm s)) as [r1 t1] eqn:E1. intros [= <- <-]. exact (Hm _ _ _ H E1).
Qed.
Lemma pres_x_store {A} (m : M database A) : preserves P m → preserves x_db_of (x_store m : XM A).
Proof. intros H. by apply pres_on_tm, pres_tm_store. Qed.
Lemma pres_x_node {A} (m : M E A) : preserves x_db_of (x_node m : XM A).
Proof. apply pres_on_tm, pres_tm_node. Qed.
Lemma pres_x_claimer {A} (m : M (Claimer E C) A) : preserves (db_of P) m → preserves x_db_of (x_claimer m : XM A).
Proof. intros H. by apply pres_on_tm, pres_on_claimer. Qed.
Lemma pres_x_service {A} (m : M (L * database) A) : preserves (sv_db_of P) m → preserves x_db_of (x_service m : XM A).
Proof. intros H. by apply pres_on_tm, pres_on_service. Qed.
Lemma pres_spawn p : preserves x_db_of (spawn p : XM unit).
Proof. by intros s r s' H [= <- <-]. Qed.
Hint Resolve pres_x_node pres_spawn : pres.

Context (Hselect : ∀ tx A (f : tables → A), preserves P (exec tx (select f))).
Hint Resolve Hselect pres_on_storage : pres.
Lemma pres_ignored_deposit d : preserves x_db_of (ignored_deposit cfg d : XM bool).
Proof. unfold ignored_deposit. solve_preserves. by apply pres_x_service, pres_GetDepositStatus. Qed.
Lemma pres_full_proof cnt net tx : preserves (sv_db_of P) (GetClaimProof service cnt net tx : M (L * database) _).
Proof.
  unfold GetClaimProof. assert (Hq := @pres_query_row_tx P Hselect). assert (Hc := pres_claim_proofs service P Hselect (L := L)).
  solve_preserves; apply pres_on_storage; unfold GetDeposit, GetLatestExitRoot, GetLatestL1SyncedExitRoot,
    GetLatestTrustedExitRoot, GetL1ExitRootByGER, l1_root; solve_preserves.
Qed.
Context (tx : Tx) (Hadd : ∀ row, preserves P (AddClaimTx row tx)).
Lemma pres_create_claim d : preserves x_db_of (create_claim cfg service d tx : XM unit).
Proof.
  unfold create_claim, addClaimTxXLayer. solve_preserves;
    first [apply pres_x_service, pres_full_proof|apply pres_x_claimer, pres_estimate|by apply pres_x_store].
Qed.
Lemma pres_claim_ready d : preserves x_db_of (claim_ready_deposit cfg service tx d : XM unit).
Proof.
  assert (Hi := pres_ignored_deposit). assert (Hc := pres_create_claim). unfold claim_ready_deposit. solve_preserves.
Qed.
Lemma pres_process_x ger :
  (∀ root, preserves P (UpdateL1DepositsStatusXLayer root tx)) →
  (∀ root r n, preserves P (UpdateL2DepositsStatusXLayer root r n tx)) →
  preserves x_db_of (processDepositStatusXLayer cfg service ger tx : XM unit).
Proof.
  intros H1 H2. assert (Hc := pres_claim_ready). assert (Hs := @pres_x_store). unfold processDepositStatusXLayer. solve_preserves.
Qed.
Lemma pres_x_rollback {A} err : (∀ tx, preserves P (Rollback tx)) → preserves x_db_of (x_rollback_with tx err : XM A).
Proof. intros H. by apply pres_x_claimer, pres_rollback_with. Qed.
End Lift.

(** ** A failure leaves the committed tables *)
Section Atomic.
Context (t0 : tables).
Abbreviation kept := (x_db_of (committed_is t0)).

Lemma x_store_inv {A} (m : M database A) (s : XLayerManager E C L) r s' :
  x_store m s = (r, s') → ∃ db', m (cl_db (tm_claimer (xm_tm s))) = (r, db') ∧ cl_db (tm_claimer (xm_tm s')) = db'.
Proof.
  unfold x_store, on_tm, zoom. destruct (on_store m (xm_tm s)) as [r1 t1] eqn:E1. intros [= <- <-].
  by apply on_store_inv in E1.
Qed.
Lemma x_begin (s : XLayerManager E C L) tx s' : x_store BeginDBTransaction s = (Ok tx, s') → tx = open_tx.
Proof. intros (db & E1 & _)%x_store_inv. by apply begin_open in E1. Qed.

Lemma kept_commit_or_exit : keeps_on_failure kept (commit_or_exit open_tx : XM unit).
Proof.
  intros s r s' H. unfold commit_or_exit. unfold mbind at 1, M_bind at 1, attempt at 1.
  destruct (x_store (Commit open_tx) s) as [[v|e|p] s1] eqn:E1; apply x_store_inv in E1 as (db1 & E1 & Hs1).
  - by intros [= <- <-].
  - assert (H1 : kept s1). { unfold x_db_of, committed_is in *. rewrite Hs1, <- H. by eapply commit_err_keeps_committed. }
    intros E2 _. revert E2. apply pres_bind; [|intros; apply pres_panic|done].
    apply pres_attempt, pres_x_store, committed_Rollback.
  - intros [= <- <-] _. unfold x_db_of, committed_is in *. rewrite Hs1, <- H. by eapply commit_err_keeps_committed.
Qed.
(** After the commit only messages are started. *)
Lemma kept_commit_then (l : list Deposit) status :
  keeps_on_failure kept (commit_or_exit open_tx;; for_each l (λ d, spawn (PushUpdate d status)) : XM unit).
Proof.
  intros s r s' H. unfold mbind, M_bind.
  destruct (commit_or_exit open_tx s) as [[u|e|p] s1] eqn:E1;
    [|intros [= <- <-]; by apply (kept_commit_or_exit s _ s1 H E1)..].
  assert (Hl : ∀ s2, ∃ s3, for_each l (λ d, spawn (PushUpdate d status) : XM unit) s2 = (Ok tt, s3)).
  { induction l as [|d l IH]; intros s2; [by eexists|]. cbn. unfold mbind, M_bind. cbn. apply IH. }
  destruct (Hl s1) as [s2 ->]. by intros [= <- <-].
Qed.
Lemma kept_select_x tx A (f : tables → A) : preserves (committed_is t0) (exec tx (select f)).
Proof. apply kept_select. Qed.

Lemma x_update_keeps ger : (xl_optClaim cfg = true → ger_BlockID ger ≠ 0) →
  keeps_on_failure kept (updateDepositsStatusXLayer cfg service ger : XM unit).
Proof.
  intros Hmode s r s' H. unfold updateDepositsStatusXLayer.
  assert (Hbegin : ∀ (f : Tx → XM unit), keeps_on_failure kept (f open_tx) → keeps_on_failure kept (x_store BeginDBTransaction ≫= f)).
  { intros f Hf s0 r0 s1 H0. unfold mbind, M_bind.
    destruct (x_store BeginDBTransaction s0) as [[tx|e|p] s2] eqn:E1;
      pose proof (pres_x_store _ _ (committed_Begin t0) _ _ _ H0 E1) as H2; [|by intros [= <- <-]..].
    apply x_begin in E1 as ->. by apply Hf. }
  assert (H1 : ∀ root, preserves (committed_is t0) (UpdateL1DepositsStatusXLayer root open_tx)).
  { intros. unfold UpdateL1DepositsStatusXLayer. solve_preserves. }
  assert (H2 : ∀ root r n, preserves (committed_is t0) (UpdateL2DepositsStatusXLayer root r n open_tx)).
  { intros. unfold UpdateL2DepositsStatusXLayer. solve_preserves. }
  assert (Hroll : ∀ err, keeps_on_failure kept (x_rollback_with open_tx err : XM unit)).
  { intros err s0 r0 s1 H0 E1 _. by apply (pres_x_rollback _ open_tx err (committed_Rollback t0) s0 r0 s1 H0). }
  revert s r s' H. destruct (xl_optClaim cfg).
  - rewrite bool_decide_true by auto. unfold processDepositStatusL2. apply Hbegin, keeps_bind; [apply pres_lift|].
    intros root. apply keeps_bind; [apply pres_attempt, pres_x_store, H2|]. intros [ds|err]; [apply kept_commit_then|apply Hroll].
  - apply Hbegin, keeps_bind.
    + apply pres_attempt, pres_process_x; [apply kept_select| |exact H1|exact H2].
      intros. unfold AddClaimTx, mtx_params. solve_preserves.
    + intros [u|err]; [apply kept_commit_or_exit|apply Hroll].
Qed.
End Atomic.

(** When a global exit root cannot be processed, the committed tables stay as they
    were, in the mode of one transaction and for the exit roots of the rollups. *)
Theorem updateDepositsStatusXLayer_atomic ger (s : XLayerManager E C L) r s'
  (Hmode : xl_optClaim cfg = true → ger_BlockID ger ≠ 0)
  (E1 : updateDepositsStatusXLayer cfg service ger s = (r, s')) (Hfail : is_ok r = false) :
  db_committed (cl_db (tm_claimer (xm_tm s'))) = db_committed (cl_db (tm_claimer (xm_tm s))).
Proof. exact (x_update_keeps _ ger Hmode s r s' eq_refl E1 Hfail). Qed.

(** ** The front end hears of committed deposits only *)

(** Every deposit of L1 with this count is ready. *)
Definition ready_l1 (count : Z) (t : tables) : Prop :=
  Forall (λ r, dep_NetworkID (dr_dep r) = 0 → dep_DepositCount (dr_dep r) = count → dep_ReadyForClaim (dr_dep r) = true)
    (t_deposit t).
(** A message of a claim that was created for a deposit. *)
Definition claim_message (d : Deposit) (p : xspawned) : Prop :=
  p = PushUpdate d TX_PENDING_AUTO_CLAIM ∧ dep_DestinationNetwork d = tm_l2NetworkID (xl_tm cfg) ∧
  (dep_LeafType d = LeafTypeMessage → isDepositMessageAllowed (xl_tm cfg) d = true).

Lemma ready_l1_mark count sel time t : ready_l1 count t → ready_l1 count (mark_ready sel time t).
Proof.
  intros H. unfold ready_l1, mark_ready in *. cbn. apply Forall_fmap. eapply Forall_impl; [exact H|].
  intros r Hr. unfold compose. by case_match.
Qed.
Lemma ready_l1_marked count time t :
  ready_l1 count (mark_ready (λ d, bool_decide (dep_DepositCount d = count) && bool_decide (dep_NetworkID d = 0)) time t).
Proof.
  unfold ready_l1, mark_ready. cbn. apply Forall_fmap, Forall_forall. intros r _. unfold compose.
  destruct (bool_decide _ && bool_decide _) eqn:Hsel; [done|]. intros H0 Hc. by rewrite !bool_decide_true in Hsel.
Qed.
Lemma ready_keeps_UpdateL1 c count : preserves (db_all (ready_l1 c)) (UpdateL1DepositStatus count open_tx).
Proof. unfold UpdateL1DepositStatus. solve_preserves. apply db_all_exec, keeps_change. intros t. apply ready_l1_mark. Qed.
Lemma ready_keeps_AddClaimTx c row tx : preserves (db_all (ready_l1 c)) (AddClaimTx row tx).
Proof.
  unfold AddClaimTx, mtx_params. solve_preserves. apply db_all_exec.
  apply keeps_seq; [apply keeps_select|]. intros t. apply keeps_seq; [apply keeps_require|]. intros _. by apply keeps_change.
Qed.

Lemma ready_keeps_claim c d : preserves (x_db_of (db_all (ready_l1 c))) (claim_l1_deposit cfg service d open_tx : XM bool).
Proof.
  assert (Hu := ready_keeps_UpdateL1 c). assert (Hs := @pres_x_store (db_all (ready_l1 c))).
  assert (Hi := pres_ignored_deposit _ (λ tx A f, db_all_select (ready_l1 c) tx f)).
  assert (Hc := pres_create_claim _ (λ tx A f, db_all_select (ready_l1 c) tx f) open_tx (λ row, ready_keeps_AddClaimTx c row open_tx)).
  unfold claim_l1_deposit. solve_preserves.
Qed.

(** After the work on a deposit its row is ready in the transaction. *)
Lemma claim_l1_ready d (s : XLayerManager E C L) ignore s' :
  claim_l1_deposit cfg service d open_tx s = (Ok ignore, s') →
  x_db_of (tx_all (ready_l1 (dep_DepositCount d))) s' ∧ (ignore = false → claim_message d (PushUpdate d TX_PENDING_AUTO_CLAIM)).
Proof.
  unfold claim_l1_deposit. intros H. apply M_bind_inv in H as (u & s1 & Hu & H).
  apply M_bind_inv in H as (ign & s2 & Hi & H). apply M_bind_inv in H as (u2 & s3 & Hc & H). injection H as -> <-.
  set (T := ready_l1 (dep_DepositCount d)).
  assert (Hsel : ∀ tx A (f : tables → A), preserves (tx_all T) (exec tx (select f))) by (intros; apply tx_all_select).
  assert (Hadd : ∀ row, preserves (tx_all T) (AddClaimTx row open_tx)).
  { intros row. unfold AddClaimTx, mtx_params. solve_preserves. apply tx_all_exec.
    apply keeps_seq; [apply keeps_select|]. intros t. apply keeps_seq; [apply keeps_require|]. intros _. by apply keeps_change. }
  assert (H1 : x_db_of (tx_all T) s1).
  { apply x_store_inv in Hu as (db' & Hu & Hdb). unfold x_db_of. rewrite Hdb. unfold UpdateL1DepositStatus in Hu.
    apply M_bind_inv in Hu as (t & db1 & _ & Hu). revert Hu. apply tx_all_change. intros t'. apply ready_l1_marked. }
  assert (H2 : x_db_of (tx_all T) s2) by (by eapply (pres_ignored_deposit _ Hsel)).
  split.
  - revert Hc. apply (pres_when (x_db_of (tx_all T))); [|done]. by apply pres_create_claim.
  - intros ->. split; [done|]. unfold ignored_deposit in Hi. case_bool_decide as Hdest; [by injection Hi|].
    split; [done|]. intros Htype. apply M_bind_inv in Hi as (h & s4 & _ & Hi).
    injection Hi as Hb _. rewrite orb_false_iff in Hb. destruct Hb as [_ Hb]. rewrite bool_decide_true in Hb by done.
    by destruct (isDepositMessageAllowed _ _).
Qed.

(** ** The front end hears of committed deposits only *)

(** The messages started since [sp0] are about deposits that are ready in the
    committed tables, and stay so. *)
Definition told (sp0 : list xspawned) (s : XLayerManager E C L) : Prop :=
  ∃ new, xm_spawned s = sp0 ++ new ∧
    Forall (λ p, ∃ d, claim_message d p ∧ x_db_of (db_all (ready_l1 (dep_DepositCount d))) s) new.

(** No message is started. *)
Abbreviation quiet m := (∀ sp, preserves (λ s : XLayerManager E C L, xm_spawned s = sp) m).
Lemma quiet_on_tm {A} (m : M (ClaimTxManager E C L) A) : quiet (on_tm m : XM A).
Proof. intros sp s r s' <-. unfold on_tm, zoom. destruct (m (xm_tm s)). by intros [= _ <-]. Qed.
Lemma quiet_claim d tx : quiet (claim_l1_deposit cfg service d tx : XM bool).
Proof.
  intros sp. assert (Hq := λ A (m : M (ClaimTxManager E C L) A), quiet_on_tm m sp).
  unfold claim_l1_deposit, ignored_deposit, create_claim, addClaimTxXLayer, x_store, x_node, x_claimer, x_service.
  solve_preserves.
Qed.

Lemma told_quiet sp0 {A} (m : XM A) :
  quiet m → (∀ c, preserves (x_db_of (db_all (ready_l1 c))) m) → preserves (told sp0) m.
Proof.
  intros Hq Hm s r s' (new & Hsp & Hall) E1. exists new. rewrite (Hq _ s r s' eq_refl E1). split; [done|].
  eapply Forall_impl; [exact Hall|]. intros p (d & Hd & Hready). exists d. split; [done|]. by eapply Hm.
Qed.
Lemma told_store sp0 {A} (m : M database A) :
  (∀ c, preserves (db_all (ready_l1 c)) m) → preserves (told sp0) (x_store m : XM A).
Proof. intros Hm. apply told_quiet; [apply quiet_on_tm|]. intros c. by apply pres_x_store. Qed.
Lemma told_claim sp0 d : preserves (told sp0) (claim_l1_deposit cfg service d open_tx : XM bool).
Proof. apply told_quiet; [apply quiet_claim|]. intros c. apply ready_keeps_claim. Qed.

Lemma commit_or_exit_ok (s : XLayerManager E C L) u s' :
  commit_or_exit open_tx s = (Ok u, s') → x_store (Commit open_tx) s = (Ok tt, s').
Proof.
  unfold commit_or_exit. intros H. apply M_bind_inv in H as ([[]|err] & s1 & Hc & H).
  - injection H as _ <-. unfold attempt in Hc. destruct (x_store (Commit open_tx) s) as [[[]|e|p] s2];
      [|done..]. by injection Hc as <-.
  - apply M_bind_inv in H as (v & s2 & _ & [=]).
Qed.
Lemma told_commit_or_exit sp0 : preserves (told sp0) (commit_or_exit open_tx : XM unit).
Proof.
  unfold commit_or_exit. apply pres_bind; [apply pres_attempt, told_store; intros c; apply db_all_Commit|].
  intros [u|err]; [apply pres_ret|]. apply pres_bind; [|intros; apply pres_panic].
  apply pres_attempt, told_store. intros c. apply db_all_Rollback.
Qed.
Lemma told_commit sp0 d ignore (s : XLayerManager E C L) r s' : told sp0 s →
  x_db_of (tx_all (ready_l1 (dep_DepositCount d))) s → (ignore = false → claim_message d (PushUpdate d TX_PENDING_AUTO_CLAIM)) →
  (commit_or_exit open_tx;; when (negb ignore) (spawn (PushUpdate d TX_PENDING_AUTO_CLAIM)) : XM unit) s = (r, s') →
  told sp0 s'.
Proof.
  intros Ht Htx Hmsg. unfold mbind, M_bind.
  destruct (commit_or_exit open_tx s) as [[[]|e|p] s1] eqn:E1; pose proof (told_commit_or_exit sp0 _ _ _ Ht E1) as Ht1;
    [|by intros [= _ <-]..].
  apply commit_or_exit_ok, x_store_inv in E1 as (db1 & E1 & Hdb). apply (commit_publishes _ _ _ _ Htx) in E1.
  rewrite <- Hdb in E1. destruct ignore; [by intros [= _ <-]|]. intros [= _ <-]. destruct Ht1 as (new & Hsp & Hall).
  exists (new ++ [PushUpdate d TX_PENDING_AUTO_CLAIM]). cbn. rewrite Hsp, app_assoc. split; [done|].
  apply Forall_app. split; [exact Hall|]. constructor; [|done]. exists d. split; [by apply Hmsg|exact E1].
Qed.

Lemma told_deposit sp0 d : preserves (told sp0) (process_l1_deposit cfg service d : XM unit).
Proof.
  intros s r s' Ht. unfold process_l1_deposit. unfold mbind at 1, M_bind at 1.
  destruct (x_store BeginDBTransaction s) as [[tx|e|p] s1] eqn:E1;
    pose proof (told_store sp0 _ (λ c, db_all_Begin _) _ _ _ Ht E1) as Ht1; [|by intros [= _ <-]..].
  apply x_begin in E1 as ->. unfold mbind at 1, M_bind at 1, attempt at 1.
  destruct (claim_l1_deposit cfg service d open_tx s1) as [[ignore|err|p] s2] eqn:E2;
    pose proof (told_claim sp0 d _ _ _ Ht1 E2) as Ht2; [| |by intros [= _ <-]].
  - apply claim_l1_ready in E2 as [Hready Hmsg]. by apply told_commit.
  - apply (pres_bind (told sp0)); [|intros; apply pres_throw|done]. unfold rollbackStore.
    apply (pres_bind (told sp0)); [|intros; apply pres_ret]. apply pres_attempt, told_store. intros c. apply db_all_Rollback.
Qed.
(** C28. In the mode of one transaction for each deposit, whatever fails on the way, a
    message that a claim is on its way is only started for a deposit that goes to
    the network of the manager, that may be claimed, and that is ready in the
    committed tables. *)
Theorem processDepositStatusL1_tells_committed ger (s : XLayerManager E C L) r s'
  (E1 : processDepositStatusL1 cfg service ger s = (r, s')) :
  ∃ new, xm_spawned s' = xm_spawned s ++ new ∧
    Forall (λ p, ∃ d, claim_message d p ∧
      ready_l1 (dep_DepositCount d) (db_committed (cl_db (tm_claimer (xm_tm s'))))) new.
Proof.
  assert (Ht : told (xm_spawned s) s) by (exists []; by rewrite app_nil_r).
  assert (Hp : preserves (told (xm_spawned s)) (processDepositStatusL1 cfg service ger)).
  { unfold processDepositStatusL1, getDeposits. apply pres_bind.
    - apply pres_bind; [apply pres_lift|]. intros root. apply told_store. intros c. unfold GetL1Deposits. apply pres_query, db_all_exec.
      apply keeps_seq; [apply keeps_select|]. intros t. apply keeps_seq; [|intros sel]; by intros t1 q a t2 q2 Ht1 [= _ <- _].
    - intros ds. apply pres_for_each. intros d. apply told_deposit. }
  destruct (Hp s r s' Ht E1) as (new & Hsp & Hall). exists new. split; [done|].
  eapply Forall_impl; [exact Hall|]. intros p (d & Hd & [Hready _]). by exists d.
Qed.

(** ** The claim that is built *)

Lemma index_l1 k k' n : is_uint32 k → is_uint32 k' → is_uint32 n → GenerateGlobalIndex true k n = GenerateGlobalIndex true k' n.
Proof. intros. by rewrite !GenerateGlobalIndex_value. Qed.
(** For a deposit of L1 without a contract behind its destination the two managers
    build the same claim, whatever the rollup of the X Layer manager. *)
Theorem BuildSendClaimXLayer_same d smtProof smtRollupProof mainnetExitRoot rollupExitRoot
  (Hnet : dep_NetworkID d = 0) (Hcount : is_uint32 (dep_DepositCount d)) (Hdest : dep_DestContractAddress d = zero_address) :
  BuildSendClaimXLayer cfg d smtProof smtRollupProof mainnetExitRoot rollupExitRoot =
    BuildSendClaim d smtProof smtRollupProof mainnetExitRoot rollupExitRoot.
Proof.
  unfold BuildSendClaimXLayer, BuildSendClaim. rewrite Hnet, Hdest, (bool_decide_true (0 = 0)) by done. cbv zeta.
  rewrite (index_l1 _ 0) by (first [done|apply wrap_range; lia|unfold in_width; lia]). by rewrite (bool_decide_false (zero_address ≠ _)) by auto.
Qed.

Abbreviation rollup := (tcf_rollupID (tm_txs (xl_tm cfg))).
(** The messages of the manager carry another global index than the claim of a
    deposit of L1 has. *)
Theorem pushed_index_differs status estimateTime d msg z
  (Hnet : dep_NetworkID d = 0) (Hcount : is_uint32 (dep_DepositCount d))
  (Hmsg : status_message false (rollup - 1) status estimateTime d = Ok msg)
  (Hclaim : GenerateGlobalIndex (bool_decide (dep_NetworkID d = 0)) (wrap32 (rollup - 1)) (dep_DepositCount d) = Ok z) :
  tr_GlobalIndex msg ≠ pretty z.
Proof.
  pose proof (wrap_range 32 (rollup - 1) ltac:(lia)) as Hw. fold (wrap32 (rollup - 1)) in Hw.
  unfold status_message in Hmsg. rewrite Hnet, bool_decide_true in Hclaim by done.
  rewrite GenerateGlobalIndex_value in Hmsg, Hclaim by done. injection Hclaim as <-. injection Hmsg as <-. cbn [tr_GlobalIndex].
  intros Heq%(inj pretty). unfold in_width in *. lia.
Qed.
End Facts.

#[local] Hint Resolve pres_cl_store pres_node pres_nonces pres_GetNextNonce pres_estimate pres_Review
  pres_find_in_pool pres_checkTxHistory pres_send_signed : pres.

(** ** A pass only writes the rows it read *)
Section Monitor.
Context {E C : Type} {Run : Runtime E} {Node : EthNode E} {Lru : NonceLru C} {Txt : Texts}.
Context (cfg : TxConfig).
Abbreviation CM := (M (Claimer E C)).
Abbreviation id_of := mtx_DepositID.

Lemma Review_id mTx b : returns (ReviewMonitoredTx cfg mTx b : CM _) (λ r, id_of r.1 = id_of mTx).
Proof.
  unfold ReviewMonitoredTx. apply returns_seq. intros [gas|err]; [|by apply yields_ret].
  destruct (negb b); [apply yields_ret; by case_bool_decide|].
  apply returns_seq. intros [nonce|err]; apply yields_ret; repeat case_bool_decide; done.
Qed.
Lemma add_history_id h mTx : id_of (add_history h mTx) = id_of mTx.
Proof. unfold add_history, AddHistory. by case_bool_decide. Qed.
Lemma send_signed_id h mTx b : returns (send_signed cfg h mTx b : CM _) (λ r, id_of r.1 = id_of mTx).
Proof.
  unfold send_signed. apply returns_seq. intros [u|err]; [by apply yields_ret|].
  destruct (negb _); [by apply yields_ret|]. apply returns_seq. intros [u|err2]; [by apply yields_ret|].
  apply returns_seq. intros _. eapply returns_bind; [apply Review_id|]. intros [m o] Hm. by apply yields_ret.
Qed.

Section Rows.
Context (P : database → Prop) (Q : Z → Prop) (tx : Tx).
Context (Hupd : ∀ mTx, Q (id_of mTx) → preserves P (UpdateClaimTx mTx tx)).

Lemma pres_log_id mTx : Q (id_of mTx) → preserves (db_of P) (update_logged mTx tx : CM unit).
Proof. intros H. by apply (pres_update_logged P (λ m, Q (id_of m))). Qed.
Lemma pres_resend_id mTx failed reset : Q (id_of mTx) → preserves (db_of P) (resend cfg mTx failed reset tx).
Proof.
  intros HQ. unfold resend. eapply (pres_bind_yields _ _ _ (λ r, id_of r.1 = id_of mTx)).
  { destruct failed; solve_preserves. }
  { destruct failed; [|by apply yields_ret]. intros s a s' _. by apply (Review_id mTx true s a s' I). }
  intros [m o] Hm. cbn in Hm. destruct o; [apply pres_ret|].
  apply pres_bind; [solve_preserves|]. intros [price|]; [|apply pres_ret].
  apply pres_bind; [solve_preserves|]. intros [signed|]; [|apply pres_ret].
  eapply (pres_bind_yields _ _ _ (λ r : MonitoredTx * bool, id_of r.1 = id_of mTx)).
  - solve_preserves.
  - intros s a s' _ E1. rewrite (send_signed_id _ _ _ s a s' I E1), add_history_id. exact Hm.
  - intros [m' reset'] Hm'. apply pres_bind; [apply pres_log_id; cbn in Hm'; by rewrite Hm'|]. intros _. apply pres_ret.
Qed.
Lemma pres_monitor_tx_id mTx reset : Q (id_of mTx) → preserves (db_of P) (monitor_tx cfg mTx reset tx).
Proof.
  intros HQ. unfold monitor_tx. apply pres_bind; [solve_preserves|]. intros [[f a] r].
  destruct r; [apply pres_bind; [by apply pres_log_id|intros; apply pres_ret]|].
  destruct (a && _); [apply pres_bind; [by apply pres_log_id|intros; apply pres_ret]|].
  destruct a; [by apply pres_resend_id|apply pres_ret].
Qed.
Lemma pres_monitor_all_id mTxs reset : Forall (λ m, Q (id_of m)) mTxs → preserves (db_of P) (monitor_all cfg mTxs reset tx).
Proof.
  intros H. revert reset. induction H as [|m mTxs Hm _ IH]; intros reset; [apply pres_ret|].
  apply pres_bind; [by apply pres_monitor_tx_id|]. intros r. apply IH.
Qed.
End Rows.
End Monitor.

(** ** Final states *)
Section Final.
Context (final : list MonitoredTx) (Hfinal : Forall (λ m, mtx_Status m ≠ MonitoredTxStatusCreated) final).

(** The keys are unique and the final rows are there. *)
Definition final_kept (t : tables) : Prop :=
  NoDup (mtx_DepositID <$> t_monitored t) ∧ ∀ m, m ∈ final → m ∈ t_monitored t.
Definition not_final (i : Z) : Prop := i ∉ mtx_DepositID <$> final.

Lemma final_Update mTx tx : not_final (mtx_DepositID mTx) → preserves (db_all final_kept) (UpdateClaimTx mTx tx).
Proof.
  intros HQ. unfold UpdateClaimTx, mtx_params. solve_preserves. apply db_all_exec, keeps_change.
  intros t [Hnd Hin]. split; cbn.
  - rewrite <- list_fmap_compose. erewrite list_fmap_ext; [exact Hnd|]. intros i r _. cbn. by case_bool_decide.
  - intros m Hm. apply list_elem_of_fmap. exists m. split; [|by apply Hin].
    rewrite bool_decide_false; [done|]. intros Heq. apply HQ. rewrite <- Heq. by apply list_elem_of_fmap_2.
Qed.
Lemma created_not_final t m : final_kept t → m ∈ t_monitored t → mtx_Status m = MonitoredTxStatusCreated →
  not_final (mtx_DepositID m).
Proof.
  intros [Hnd Hin] Hm Hst (f & Heq & Hf)%list_elem_of_fmap. rewrite Forall_forall in Hfinal.
  apply (Hfinal f Hf). enough (m = f) as <- by done. revert Hnd. generalize (Hin f Hf) Hm.
  rewrite !list_elem_of_lookup. intros [j Hj] [i Hi] Hnd.
  assert (i = j) as ->; [|congruence].
  eapply (NoDup_lookup _ _ _ (mtx_DepositID m) Hnd); rewrite list_lookup_fmap; [by rewrite Hi|by rewrite Hj; cbn; congruence].
Qed.
End Final.

(** ** The passes *)
Section Passes.
Context {E C : Type} {Run : Runtime E} {Node : EthNode E} {Lru : NonceLru C} {Txt : Texts}.
Abbreviation CM := (M (Claimer E C)).

(** The states of the claims that are not created any more. *)
Definition finished (t : tables) : list MonitoredTx :=
  filter (λ m, mtx_Status m ≠ MonitoredTxStatusCreated) (t_monitored t).
Lemma finished_all t : Forall (λ m, mtx_Status m ≠ MonitoredTxStatusCreated) (finished t).
Proof. apply Forall_forall. by intros m [Hm _]%list_elem_of_filter. Qed.

Lemma yields_attempt {S A} (P : S → Prop) (m : M S A) Q :
  yields P m Q → yields P (attempt m) (λ r, match r with inl a => Q a | inr _ => True end).
Proof.
  intros H s a s' Hs. unfold attempt. destruct (m s) as [[x|e|p] s1] eqn:E1; intros [= <- <-]; [by eapply H|done].
Qed.

(** What a pass reads, and what it keeps. *)
Section Pass.
Context (t0 : tables).
Abbreviation kept := (db_all (final_kept (finished t0))).
Abbreviation selected := (Forall (λ m, not_final (finished t0) (mtx_DepositID m))).

Lemma selected_status tx : tx = open_tx → ∀ rollupID, yields kept
  (GetClaimTxsByStatus [MonitoredTxStatusCreated] rollupID tx) selected.
Proof.
  intros -> rollupID. apply yields_query_open. intros t Ht. apply Forall_forall. intros m.
  unfold order_asc. rewrite merge_sort_Permutation. intros [[Hst _] Hin]%list_elem_of_filter.
  apply list_elem_of_singleton in Hst. by eapply created_not_final; [apply finished_all|..].
Qed.
Lemma selected_limit tx : tx = open_tx → ∀ limit offset, yields kept
  (GetClaimTxsByStatusWithLimit [MonitoredTxStatusCreated] limit offset tx) selected.
Proof.
  intros -> limit offset. apply yields_query_open. intros t Ht. apply Forall_fmap, Forall_forall. intros m Hm.
  apply elem_of_page in Hm. unfold order_desc in Hm. rewrite merge_sort_Permutation in Hm.
  apply list_elem_of_filter in Hm as [Hst Hin]. apply list_elem_of_singleton in Hst.
  by eapply (created_not_final _ (finished_all _) t m).
Qed.
Lemma kept_start (db : database) : db_tx db = None → t0 = db_committed db →
  NoDup (mtx_DepositID <$> t_monitored (db_committed db)) → kept db.
Proof.
  intros Hno -> Hnd. unfold db_all. rewrite Hno. split; [|done]. split; [done|]. by intros m [_ Hm]%list_elem_of_filter.
Qed.

Context (cfg : TxConfig).
Lemma kept_MonitorTxs : preserves (db_of kept) (MonitorTxs cfg : CM unit).
Proof.
  unfold MonitorTxs. eapply (pres_bind_yields _ _ _ (λ tx, tx = open_tx)).
  { apply pres_cl_store, db_all_Begin. }
  { apply yields_store. intros db tx db' _ H. by apply begin_open in H. }
  intros tx Htx. eapply (pres_bind_yields _ _ _ (λ r, match r with inl mTxs => selected mTxs | inr _ => True end)).
  - apply pres_attempt, pres_cl_store. unfold GetClaimTxsByStatus. solve_preserves.
  - apply yields_attempt, yields_store. by apply selected_status.
  - intros [mTxs|err] H; [|apply pres_rollback_with, db_all_Rollback].
    apply pres_bind; [eapply pres_monitor_all_id; [intros; by apply final_Update|done]|]. intros _.
    apply pres_bind; [apply pres_attempt, pres_cl_store, db_all_Commit|]. intros [u|err]; [apply pres_ret|].
    apply pres_rollback_with, db_all_Rollback.
Qed.
End Pass.

(** A pass of the monitor leaves every confirmed and every failed claim as it is,
    whatever the node and the storage answer. *)
Theorem MonitorTxs_final_statuses cfg (s : Claimer E C) r s' m
  (Hno : db_tx (cl_db s) = None) (Hkeys : NoDup (mtx_DepositID <$> t_monitored (db_committed (cl_db s))))
  (E1 : MonitorTxs cfg s = (r, s')) (Hm : m ∈ t_monitored (db_committed (cl_db s))) (Hst : mtx_Status m ≠ MonitoredTxStatusCreated) :
  m ∈ t_monitored (db_committed (cl_db s')).
Proof.
  destruct (kept_MonitorTxs _ cfg s r s' (kept_start _ _ Hno eq_refl Hkeys) E1) as [[_ Hin] _].
  apply Hin. by apply list_elem_of_filter.
Qed.
End Passes.

(** ** A mined claim is confirmed *)
Section Confirm.
Context {E C : Type} {Run : Runtime E} {ROk : RuntimeOk E} {Node : EthNode E} {Lru : NonceLru C} {Txt : Texts}.
Context (cfg : TxConfig).
Abbreviation CM := (M (Claimer E C)).

(** The node has a receipt of success for the transaction. *)
Definition mined (h : bytes) : Prop := ∀ e : E, ∃ rc e', TransactionReceipt h e = (Ok rc, e') ∧
  rc_Status rc = ReceiptStatusSuccessful.
Definition params_ok (m : MonitoredTx) : Prop :=
  mtx_DepositID m < 2 ^ 63 ∧ mtx_Nonce m < 2 ^ 63 ∧ mtx_Gas m < 2 ^ 63 ∧ default 0 (mtx_GroupID m) < 2 ^ 63.

Lemma check_loop_mined h hs a b (s : Claimer E C) x y r s' : mined h → h ∈ hs →
  checkTxHistory_loop cfg hs a b s = (Ok (x, y, r), s') → r = true.
Proof.
  intros Hm. revert a b s. induction hs as [|g hs IH]; intros a b s Hin; [by apply elem_of_nil in Hin|].
  cbn [checkTxHistory_loop]. intros H. apply M_bind_inv in H as (q & s1 & H1 & H).
  destruct (decide (g = h)) as [->|Hne].
  - destruct (Hm (cl_env s)) as (rc & e' & Hrc & Hst).
    unfold attempt, node, zoom, CheckTxWasMined, mbind, M_bind, attempt in H1. rewrite Hrc in H1. injection H1 as <- _.
    rewrite bool_decide_true in H by done. by injection H as _ _ <- _.
  - apply elem_of_cons in Hin as [?|Hin]; [done|]. destruct q as [[rc|]|err].
    + case_bool_decide; [by injection H as _ _ <- _|]. by eapply IH.
    + apply M_bind_inv in H as (q & s2 & _ & H). apply M_bind_inv in H as (q2 & s3 & _ & H).
      destruct q2; by eapply IH.
    + by eapply IH.
Qed.
Lemma check_mined h mTx (s : Claimer E C) x y r s' : mined h → h ∈ mtx_History mTx →
  checkTxHistory cfg mTx s = (Ok (x, y, r), s') → r = true.
Proof.
  intros Hm Hin H. unfold checkTxHistory in H. apply M_bind_inv in H as (hs & s1 & H1 & H).
  eapply check_loop_mined; [exact Hm| |exact H]. unfold node, zoom in H1.
  destruct (MapRange (elements (mtx_History mTx)) (cl_env s)) as [q e1] eqn:E1.
  destruct (MapRange_ok _ _ _ _ E1) as (ids & -> & Hp). injection H1 as <- _. rewrite Hp. by apply elem_of_elements.
Qed.

(** The rows of one claim. *)
Section Row.
Context (i : Z).
Definition present (t : tables) : Prop := ∃ r, r ∈ t_monitored t ∧ mtx_DepositID r = i.
Definition confirmed_row (t : tables) : Prop :=
  present t ∧ ∀ r, r ∈ t_monitored t → mtx_DepositID r = i → mtx_Status r = MonitoredTxStatusConfirmed.
(** Confirmed in the transaction, or the transaction cannot commit any more. *)
Definition settled (db : database) : Prop := poisoned db ∨ tx_all confirmed_row db.

Abbreviation updated m time := (λ r, if bool_decide (mtx_DepositID r = mtx_DepositID m)
    then mkMonitoredTx (mtx_DepositID r) (mtx_From m) (mtx_To m) (mtx_Nonce m) (mtx_Value m)
           (mtx_Data m) (mtx_Gas m) None (mtx_Status m) (mtx_History m) (mtx_CreatedAt r) time
           (mtx_GroupID m) (mtx_GlobalExitRoot r)
    else r).
Lemma present_updated m time t : present t → present (set_monitored (updated m time <$> t_monitored t) t).
Proof.
  intros (r & Hr & Hi). eexists. split; [apply list_elem_of_fmap; exists r; split; [reflexivity|exact Hr]|].
  cbn. by case_bool_decide.
Qed.
Lemma present_Update m : preserves (tx_all present) (UpdateClaimTx m open_tx).
Proof. unfold UpdateClaimTx, mtx_params. solve_preserves. apply tx_all_exec, keeps_change. intros t. apply present_updated. Qed.
Lemma settled_Update m : mtx_DepositID m ≠ i → preserves settled (UpdateClaimTx m open_tx).
Proof.
  intros Hne. unfold UpdateClaimTx, mtx_params. solve_preserves. intros db r db' [Hp|Ht] E1.
  - left. by eapply exec_keeps_poisoned.
  - right. eapply tx_all_exec; [|exact Ht|exact E1]. apply keeps_change. intros t [Hpre Hall].
    split; [by apply present_updated|]. cbn. intros r' (q & -> & Hq)%list_elem_of_fmap. case_bool_decide as Hid; cbn.
    + intros Hi. congruence.
    + by apply Hall.
Qed.
Lemma confirm_settles m db r db' : mtx_DepositID m = i → mtx_Status m = MonitoredTxStatusConfirmed → params_ok m →
  tx_all present db → UpdateClaimTx m open_tx db = (r, db') → (∀ p, r ≠ Panic p) → settled db'.
Proof.
  intros Hi Hst (H1 & H2 & H3 & H4) Hpre. unfold UpdateClaimTx, mtx_params, int8_param. rewrite !bool_decide_true by done.
  unfold now, gets, mbind, M_bind. cbn.
  intros E1 Hnp. destruct r as [u|e|p]; [|left; by eapply exec_err_poisons|by destruct (Hnp p)].
  right. apply exec_ok in E1 as (q' & Hm & _ & Hopen & _). destruct (Hopen eq_refl) as (t & t' & Htx & Htx' & _).
  unfold view in Hm. rewrite Htx, Htx' in Hm. injection Hm as _ <- _. unfold tx_all in *. rewrite Htx in Hpre. rewrite Htx'.
  split; [by apply present_updated|]. cbn. intros x (q & -> & Hq)%list_elem_of_fmap. case_bool_decide as Hid; cbn; [done|congruence].
Qed.

Lemma monitor_tx_settles h m reset (s : Claimer E C) b s' : mtx_DepositID m = i → params_ok m → mined h →
  h ∈ mtx_History m → db_of (tx_all present) s → monitor_tx cfg m reset open_tx s = (Ok b, s') → db_of settled s'.
Proof.
  intros Hi Hok Hm Hin Hpre H. unfold monitor_tx in H. apply M_bind_inv in H as ([[x y] r] & s1 & H1 & H).
  assert (r = true) as -> by (by eapply check_mined). apply M_bind_inv in H as (u & s2 & H2 & H). injection H as <- <-.
  assert (Hpre1 : db_of (tx_all present) s1) by (by eapply pres_checkTxHistory).
  unfold update_logged in H2. apply M_bind_inv in H2 as (v & s3 & H2 & H3). injection H3 as _ <-.
  unfold attempt, store, zoom in H2. destruct (UpdateClaimTx _ open_tx (cl_db s1)) as [r db'] eqn:E1.
  assert (settled db') by (eapply confirm_settles; [..|exact E1|]; [exact Hi|done|exact Hok|exact Hpre1|by destruct r]).
  destruct r; [by injection H2 as _ <-..|done].
Qed.
Lemma monitor_all_settles h m mTxs reset (s : Claimer E C) u s' : m ∈ mTxs → NoDup (mtx_DepositID <$> mTxs) →
  mtx_DepositID m = i → params_ok m → mined h → h ∈ mtx_History m → db_of (tx_all present) s →
  monitor_all cfg mTxs reset open_tx s = (Ok u, s') → db_of settled s'.
Proof.
  intros Hin Hnd Hi Hok Hm Hh. revert reset s. induction mTxs as [|q mTxs IH]; intros reset s Hpre H; [by apply elem_of_nil in Hin|].
  cbn in Hnd. apply NoDup_cons in Hnd as [Hq Hnd]. cbn in H. apply M_bind_inv in H as (b & s1 & H1 & H).
  apply elem_of_cons in Hin as [<-|Hin].
  - eapply (pres_monitor_all_id cfg settled (λ j, j ≠ i)); [| |by eapply monitor_tx_settles|exact H].
    + intros m'. apply settled_Update.
    + apply Forall_forall. intros m' Hm' Heq. apply Hq. rewrite Hi, <- Heq. by apply list_elem_of_fmap_2.
  - eapply (IH Hin Hnd); [|exact H]. eapply (pres_monitor_tx_id cfg (tx_all present) (λ _, True)); [|done|exact Hpre|exact H1].
    intros m' _. apply present_Update.
Qed.
End Row.

Lemma poisoned_Update m : preserves poisoned (UpdateClaimTx m open_tx).
Proof. assert (Hp := exec_keeps_poisoned). unfold UpdateClaimTx, mtx_params. solve_preserves. Qed.
Lemma poisoned_monitor_all mTxs reset : preserves (db_of poisoned) (monitor_all cfg mTxs reset open_tx : CM unit).
Proof.
  apply (pres_monitor_all_id _ _ (λ _, True)); [|by apply Forall_forall]. intros m _. apply poisoned_Update.
Qed.

Lemma Begin_view db tx db' : BeginDBTransaction db = (Ok tx, db') → db_tx db' = Some (Tables.mkTransaction (db_committed db) false).
Proof.
  unfold BeginDBTransaction, pop_fault, mbind, M_bind. destruct (db_faults db) as [|[c|] fs]; cbn; by intros [= _ <-].
Qed.

(** C29. A created claim one of whose transactions the node reports as mined with
    success is confirmed by the next pass that does not fail, whatever the other
    claims, the order of its hashes and the rest of the node. *)
Theorem MonitorTxs_confirms_mined (s : Claimer E C) s' m h
  (Hkeys : NoDup (mtx_DepositID <$> t_monitored (db_committed (cl_db s))))
  (Hm : m ∈ t_monitored (db_committed (cl_db s))) (Hst : mtx_Status m = MonitoredTxStatusCreated)
  (Hdest : deposit_dest (mtx_DepositID m) (tcf_rollupID cfg) (db_committed (cl_db s)) = true) (Hok : params_ok m)
  (Hh : h ∈ mtx_History m) (Hmined : mined h) (E1 : MonitorTxs cfg s = (Ok tt, s')) :
  confirmed_row (mtx_DepositID m) (db_committed (cl_db s')).
Proof.
  unfold MonitorTxs in E1. apply M_bind_inv in E1 as (tx & s1 & Hb & E1). unfold store, zoom in Hb.
  destruct (BeginDBTransaction (cl_db s)) as [r db1] eqn:Hbegin. injection Hb as -> <-.
  pose proof (Begin_view _ _ _ Hbegin) as Htx. apply begin_open in Hbegin as ->.
  apply M_bind_inv in E1 as (r & s2 & Hsel & E1). unfold attempt, store, zoom in Hsel. cbn in Hsel.
  destruct (GetClaimTxsByStatus _ _ open_tx db1) as [[mTxs|err|p] db2] eqn:Hget; [| |done];
    injection Hsel as <- <-.
  2: { exfalso. unfold rollback_with in E1. apply M_bind_inv in E1 as ([v|v] & s3 & _ & [=]). }
  apply M_bind_inv in E1 as (u & s3 & Hall & E1).
  apply M_bind_inv in E1 as (r & s4 & Hc & E1). unfold attempt, store, zoom in Hc.
  destruct (Commit open_tx (cl_db s3)) as [[[]|err|p] db4] eqn:Hcommit; [| |done]; injection Hc as <- <-.
  2: { exfalso. unfold rollback_with in E1. apply M_bind_inv in E1 as ([v|v] & s5 & _ & [=]). }
  injection E1 as <-. cbn [cl_db].
  apply query_open_ok in Hget as [Hp|(t & q & t' & q' & Ht & Ht' & Hv)].
  { apply poisoned_monitor_all in Hall; [|exact Hp]. by destruct (commit_poisoned _ _ _ Hall Hcommit). }
  rewrite Htx in Ht. injection Ht as <-. injection Hv as <- <- _.
  eapply (monitor_all_settles (mtx_DepositID m) h m) in Hall; [|..|exact Hh|].
  - destruct Hall as [Hp|Htxall].
    + by destruct (commit_poisoned _ _ _ Hp Hcommit).
    + by destruct (commit_publishes _ _ _ _ Htxall Hcommit).
  - unfold order_asc. rewrite merge_sort_Permutation. apply list_elem_of_filter. split; [|done]. split; [|done].
    rewrite Hst. by apply list_elem_of_singleton.
  - unfold order_asc. rewrite merge_sort_Permutation. by apply NoDup_fmap_filter.
  - done.
  - exact Hok.
  - exact Hmined.
  - unfold db_of, tx_all. cbn. rewrite Ht'. by exists m.
Qed.
End Confirm.

(** ** The pass of X Layer *)
Section XLayer.
Context {Com : Common} {Txt : Texts} {E C L : Type} {Node : EthNode E} {Run : Runtime E} {NLru : NonceLru C}.
Context (cfg : XLayerConfig).
Abbreviation XM := (M (XLayerManager E C L)).

Section Rows.
Context (P : database → Prop) (Q : Z → Prop) (tx : Tx).
Context (Hselect : ∀ tx A (f : tables → A), preserves P (exec tx (select f))).
Context (Hupd : ∀ mTx, Q (mtx_DepositID mTx) → preserves P (UpdateClaimTx mTx tx)).

Lemma pres_x_log mTx : Q (mtx_DepositID mTx) → preserves (x_db_of P) (x_update_logged mTx tx : XM unit).
Proof. intros H. by eapply pres_x_claimer, pres_log_id. Qed.
Lemma pres_x_review mTx : preserves (x_db_of P) (ReviewMonitoredTxXLayer cfg mTx : XM (MonitoredTx * option error)).
Proof. apply pres_x_claimer, pres_Review. Qed.
Lemma x_review_id mTx : returns (ReviewMonitoredTxXLayer cfg mTx : XM _) (λ r, mtx_DepositID r.1 = mtx_DepositID mTx).
Proof.
  intros s a s' _. unfold ReviewMonitoredTxXLayer, x_claimer, on_tm, on_claimer, zoom.
  destruct (ReviewMonitoredTx (tm_txs (xl_tm cfg)) mTx false (tm_claimer (xm_tm s))) as [r c] eqn:E1. intros [= -> _].
  exact (Review_id _ _ _ _ _ _ I E1).
Qed.
Lemma pres_x_nonce mTx : preserves (x_db_of P) (setTxNonce mTx : XM MonitoredTx).
Proof. unfold setTxNonce. solve_preserves. apply pres_x_claimer, pres_GetNextNonce. Qed.
Lemma x_nonce_id mTx : returns (setTxNonce mTx : XM _) (λ m, mtx_DepositID m = mtx_DepositID mTx).
Proof. unfold setTxNonce. apply returns_seq. intros n. by apply yields_ret. Qed.

Lemma pres_x_send h mTx b : preserves (x_db_of P) (x_send_signed cfg h mTx b : XM (MonitoredTx * bool)).
Proof.
  assert (Hn := @pres_x_node E C L P). assert (Hr := pres_x_review). assert (Hc := @pres_x_claimer E C L P).
  unfold x_send_signed. solve_preserves; apply Hc; unfold Remove, decr; solve_preserves.
Qed.
Lemma x_send_id h mTx b : returns (x_send_signed cfg h mTx b : XM _) (λ r, mtx_DepositID r.1 = mtx_DepositID mTx).
Proof.
  unfold x_send_signed. apply returns_seq. intros [u|err]; [by apply yields_ret|].
  destruct (negb _); [by apply yields_ret|]. apply returns_seq. intros [u|err2]; [by apply yields_ret|].
  apply returns_seq. intros _. apply returns_seq. intros _.
  eapply returns_bind; [apply x_review_id|]. intros [m o] Hm. by apply yields_ret.
Qed.
Lemma pres_x_resend mTx failed reset : Q (mtx_DepositID mTx) →
  preserves (x_db_of P) (x_resend cfg mTx failed reset tx : XM bool).
Proof.
  intros HQ. assert (Hn := @pres_x_node E C L P). unfold x_resend.
  eapply (pres_bind_yields _ _ _ (λ r, mtx_DepositID r.1 = mtx_DepositID mTx)).
  { destruct failed; [apply pres_x_review|apply pres_ret]. }
  { destruct failed; [|by apply yields_ret]. intros s a s' _. by apply (x_review_id mTx s a s' I). }
  intros [m o] Hm. cbn in Hm. destruct o; [apply pres_ret|].
  apply pres_bind; [solve_preserves|]. intros [price|]; [|apply pres_ret].
  eapply (pres_bind_yields _ _ _ (λ r, match r with inl m' => mtx_DepositID m' = mtx_DepositID mTx | inr _ => True end)).
  { apply pres_attempt, pres_x_nonce. }
  { apply yields_attempt. intros s a s' _ E1. by rewrite (x_nonce_id _ s a s' I E1). }
  intros [m'|] Hm'; [|apply pres_ret]. apply pres_bind; [solve_preserves|]. intros [signed|]; [|apply pres_ret].
  eapply (pres_bind_yields _ _ _ (λ r : MonitoredTx * bool, mtx_DepositID r.1 = mtx_DepositID mTx)).
  - apply pres_x_send.
  - intros s a s' _ E1. by rewrite (x_send_id _ _ _ s a s' I E1), add_history_id.
  - intros [m2 reset'] Hm2. apply pres_bind; [apply pres_x_log; cbn in Hm2; by rewrite Hm2|]. intros _. apply pres_ret.
Qed.
Lemma pres_x_monitor_tx mTx reset : Q (mtx_DepositID mTx) →
  preserves (x_db_of P) (x_monitor_tx cfg mTx reset tx : XM bool).
Proof.
  intros HQ. assert (Hl : ∀ m, mtx_DepositID m = mtx_DepositID mTx → preserves (x_db_of P) (x_update_logged m tx : XM unit)).
  { intros m Hm. apply pres_x_log. by rewrite Hm. }
  unfold x_monitor_tx. apply pres_bind.
  { apply pres_attempt, pres_x_store. unfold GetClaim. assert (Hq := @pres_query_row_tx P Hselect). solve_preserves. }
  intros [claim|err]; [apply pres_bind; [by apply Hl|intros; apply pres_ret]|].
  case_bool_decide; [apply pres_throw|]. apply pres_bind; [apply pres_x_claimer, pres_checkTxHistory|]. intros [[f a] r].
  destruct r; [apply pres_bind; [by apply Hl|intros; apply pres_ret]|].
  destruct (a && _).
  { apply pres_bind; [by apply Hl|]. intros _. apply pres_bind; [apply pres_spawn|intros; apply pres_ret]. }
  destruct a; [by apply pres_x_resend|apply pres_ret].
Qed.
Lemma pres_x_monitor_all mTxs reset : Forall (λ m, Q (mtx_DepositID m)) mTxs →
  preserves (x_db_of P) (x_monitor_all cfg mTxs reset tx : XM unit).
Proof.
  intros H. revert reset. induction H as [|m mTxs Hm _ IH]; intros reset; [apply pres_ret|].
  apply pres_bind; [by apply pres_x_monitor_tx|]. intros r. apply IH.
Qed.
End Rows.

Lemma yields_x_store (P : database → Prop) {A} (m : M database A) Q :
  yields P m Q → yields (x_db_of P) (x_store m : XM A) Q.
Proof. intros H s a s' Hs (db & E1 & _)%x_store_inv. by eapply H. Qed.

Lemma kept_x_pass t0 : preserves (x_db_of (db_all (final_kept (finished t0)))) (monitorTxsXLayer cfg : XM unit).
Proof.
  set (kept := db_all (final_kept (finished t0))).
  assert (Hr : ∀ tx err, preserves (x_db_of kept) (x_rollback_with tx err : XM unit)).
  { intros tx err. apply pres_x_rollback, db_all_Rollback. }
  unfold monitorTxsXLayer. eapply (pres_bind_yields _ _ _ (λ tx, tx = open_tx)).
  { apply pres_x_store, db_all_Begin. }
  { apply yields_x_store. intros db tx db' _ H. by apply begin_open in H. }
  intros tx Htx.
  eapply (pres_bind_yields _ _ _ (λ r, match r with
    | inl mTxs => Forall (λ m, not_final (finished t0) (mtx_DepositID m)) mTxs | inr _ => True end)).
  - apply pres_attempt, pres_x_store. unfold GetClaimTxsByStatusWithLimit. apply pres_query, db_all_select.
  - apply yields_attempt, yields_x_store. by apply selected_limit.
  - intros [mTxs|err] H; [|apply Hr].
    apply pres_bind; [eapply pres_x_monitor_all; [intros; apply db_all_select|intros; by apply final_Update|done]|]. intros _.
    apply pres_bind; [apply pres_attempt, pres_x_store, db_all_Commit|]. intros [u|err]; [apply pres_ret|apply Hr].
Qed.

(** C30. A pass over the claims of X Layer leaves every confirmed and every failed claim
    as it is, whatever the node and the storage answer. *)
Theorem monitorTxsXLayer_final_statuses (s : XLayerManager E C L) r s' m
  (Hno : db_tx (cl_db (tm_claimer (xm_tm s))) = None)
  (Hkeys : NoDup (mtx_DepositID <$> t_monitored (db_committed (cl_db (tm_claimer (xm_tm s))))))
  (E1 : monitorTxsXLayer cfg s = (r, s')) (Hm : m ∈ t_monitored (db_committed (cl_db (tm_claimer (xm_tm s)))))
  (Hst : mtx_Status m ≠ MonitoredTxStatusCreated) :
  m ∈ t_monitored (db_committed (cl_db (tm_claimer (xm_tm s')))).
Proof.
  destruct (kept_x_pass _ s r s' (kept_start _ _ Hno eq_refl Hkeys) E1) as [[_ Hin] _].
  apply Hin. by apply list_elem_of_filter.
Qed.
End XLayer.
