(* ===== verification/XLayerServiceFacts.v ===== *)
(** * What the endpoints of X Layer answer

    The transactions of an account with their status, and the claims a user may
    send: the endpoints read the committed tables and never change them. *)
From Stdlib Require Import Strings.String.
From stdpp Require Import pretty.
From S2P Require Import Prelude Types GlobalIndex Hashing MonitoredTx MerkleStore MerkleTree Tables Storage StorageFacts MessageBridge.
From S2P Require Import EthClient Hex BridgeService Redis PushMessage GoFloat PushTask EstimateTime TxMonitor ClaimTxManager TokenLogo.
From S2P Require Import TableInv ClaimTxManagerFacts XLayerService.

(** An operation on a component of the state whose error is looked at. *)
Lemma bind_attempt_zoom {S T A B} (proj : S → T) (upd : T → S → S) (m : M T A) (f : A + error → M S B) s r s' :
  (attempt (zoom proj upd m) ≫= f) s = (r, s') → ∃ r0 t, m (proj s) = (r0, t) ∧
  match r0 with
  | Ok a => f (inl a) (upd t s) = (r, s')
  | Err e => f (inr e) (upd t s) = (r, s')
  | Panic p => r = Panic p ∧ s' = upd t s
  end.
Proof.
  unfold mbind, M_bind, attempt, zoom. destruct (m (proj s)) as [[a|e|p] t] eqn:E1; [by eexists _, _..|].
  intros [= <- <-]. by eexists _, _.
Qed.

(** ** Logos change nothing else *)
Definition without_logo (t : Transaction) : Transaction :=
  mkTransaction (tr_FromChain t) (tr_ToChain t) (tr_BridgeToken t) (tr_TokenAmount t) (tr_EstimateTime t)
    (tr_Status t) (tr_Time t) (tr_TxHash t) (tr_ClaimTxHash t) (tr_ClaimTime t) (tr_FromChainId t) (tr_ToChainId t)
    (tr_Id t) (tr_Index t) (tr_Metadata t) (tr_DestAddr t) (tr_LeafType t) (tr_BlockNumber t) (tr_GlobalIndex t)
    (tr_DestContractAddr t) None (tr_OriginalNetwork t).

Section Logo.
Context {E : Type} {Redis : RedisClient E} {Run : Runtime E} {Logos : LogoService E} {LogoCodec : Codec LogoInfo}.
Context (rs : redisStorageImpl) (ids : ChainIds) (enabled : bool).
Abbreviation plain txs := (without_logo <$> txs).

Lemma fill_key_plain k v txs : plain (fill_key ids k v txs) = plain txs.
Proof. unfold fill_key. rewrite <- list_fmap_compose. apply list_fmap_ext. intros ? tx _. cbn. by case_bool_decide. Qed.
Lemma cached_logos_plain keys : ∀ txs m e txs' m' e',
  cached_logos rs ids keys txs m e = (Ok (txs', m'), e') → plain txs' = plain txs.
Proof.
  induction keys as [|k keys IH]; intros txs m e txs' m' e' H; cbn [cached_logos] in H; [by injection H as <- _ _|].
  inv_bind H. destruct a as [v|err]; [by rewrite (IH _ _ _ _ _ _ H1), fill_key_plain|].
  destruct (with_key ids k txs) as [|first rest]; [done|]. exact (IH _ _ _ _ _ _ H1).
Qed.
Lemma asked_logos_plain keys m : ∀ txs e txs' e', asked_logos rs ids keys m txs e = (Ok txs', e') → plain txs' = plain txs.
Proof.
  induction keys as [|k keys IH]; intros txs e txs' e' H; cbn [asked_logos] in H; [by injection H as <- _|].
  destruct (m !! k) as [v|]; [|exact (IH _ _ _ _ H)]. inv_bind H. by rewrite (IH _ _ _ _ H1), fill_key_plain.
Qed.
Lemma FillLogoInfos_plain txs e txs' e' : FillLogoInfos rs ids enabled txs e = (Ok txs', e') → plain txs' = plain txs.
Proof.
  unfold FillLogoInfos. intros (keys & e1 & _ & H)%M_bind_inv.
  apply M_bind_inv in H as ([txs1 m] & e2 & H1 & H). apply cached_logos_plain in H1 as <-.
  case_bool_decide; [by injection H as <- _|]. apply M_bind_inv in H as (params & e3 & _ & H).
  apply M_bind_inv in H as ([lm|err] & e4 & _ & H); [|by injection H as <- _].
  apply M_bind_inv in H as (keys' & e5 & _ & H). by apply asked_logos_plain in H.
Qed.
End Logo.

(** ** The answer on the transactions of an account *)
Definition deposit_is_claimed (t : tables) (d : Deposit) : Prop :=
  ∃ c, c ∈ t_claim t ∧ clm_Index c = dep_DepositCount d ∧ clm_NetworkID c = dep_DestinationNetwork d ∧
    claim_from (dep_NetworkID d) c = true.
(** The transaction tells of the deposit and of its claim. *)
Record shows (t : tables) (d : Deposit) (tx : Transaction) : Prop := {
  sh_index : tr_Index tx = dep_DepositCount d;
  sh_from : tr_FromChain tx = dep_NetworkID d;
  sh_to : tr_ToChain tx = dep_DestinationNetwork d;
  sh_claimed : tr_Status tx = TX_CLAIMED ↔ dep_ReadyForClaim d = true ∧ deposit_is_claimed t d;
}.
Lemma shows_plain t d tx tx' : without_logo tx' = without_logo tx → shows t d tx → shows t d tx'.
Proof.
  intros Heq [H1 H2 H3 H4]. constructor.
  - exact (eq_trans (f_equal tr_Index Heq) H1).
  - exact (eq_trans (f_equal tr_FromChain Heq) H2).
  - exact (eq_trans (f_equal tr_ToChain Heq) H3).
  - rewrite <- H4. by rewrite (f_equal tr_Status Heq : tr_Status tx' = tr_Status tx).
Qed.
Lemma shows_all_plain t ds txs txs' :
  without_logo <$> txs' = without_logo <$> txs → Forall2 (shows t) ds txs → Forall2 (shows t) ds txs'.
Proof.
  intros Heq Hall. revert txs' Heq. induction Hall as [|d tx ds txs Hd Hall IH]; intros [|tx' txs'] Heq; try done.
  rewrite !fmap_cons in Heq. constructor;
    [exact (shows_plain t d tx tx' (f_equal (hd tx') Heq) Hd)|apply IH; exact (f_equal (@tl _) Heq)].
Qed.

Lemma replaced_deposit ps b d d' : ReplaceDepositInfo ps b d = Ok d' →
  dep_DepositCount d' = dep_DepositCount d ∧ dep_NetworkID d' = dep_NetworkID d ∧ dep_BlockNumber d' = dep_BlockNumber d ∧
  dep_DestinationNetwork d' = dep_DestinationNetwork d ∧ dep_ReadyForClaim d' = dep_ReadyForClaim d.
Proof.
  unfold ReplaceDepositInfo. destruct (getProcessor _ _) as [p|]; [|by intros [= <-]].
  destruct (GetTokenFromContract _ _); [|by intros [= <-]].
  destruct (DecodeMetadata _) as [[user amount]|e|m]; [|done|done]. cbn. by intros [= <-].
Qed.

(** The claim that is read, or that there is none. *)
Lemma GetClaim_reads n o d db r db' : GetClaim n o d nil_tx db = (r, db') →
  let claimed := ∃ c, c ∈ t_claim (db_committed db) ∧ clm_Index c = n ∧ clm_NetworkID c = d ∧ claim_from o c = true in
  match r with Ok _ => claimed | Err e => errors_Is e ErrStorageNotFound = true → ¬ claimed | Panic _ => False end.
Proof.
  unfold GetClaim. set (P := λ c, clm_Index c = n ∧ clm_NetworkID c = d ∧ claim_from o c = true).
  set (f := λ t, head (filter _ (t_claim t))). destruct db as [tb otx q lk fs nw].
  unfold query_row, exec, select, pop_fault, not_found, map_err, mbind, M_bind. cbn.
  assert (Hmain : ∀ fs', match (match f tb with Some a => (Ok a, mkDatabase tb otx q lk fs' nw)
      | None => (Err ErrNoRows, mkDatabase tb otx q lk fs' nw) end : res Claim * database) with
    | (Ok c, _) => ∃ c, c ∈ t_claim tb ∧ P c | (Err e, _) => e = ErrNoRows ∧ ¬ ∃ c, c ∈ t_claim tb ∧ P c | _ => False end).
  { intros fs'. destruct (f tb) as [c|] eqn:Hf.
    - apply head_Some_elem, list_elem_of_filter in Hf as [? ?]. by exists c.
    - split; [done|]. intros (c & Hin & HP). destruct (elem_head (filter P (t_claim tb)) c) as [y Hy].
      + by apply list_elem_of_filter.
      + unfold f in Hf. cbn in Hf. congruence. }
  unfold scan. destruct fs as [|[[code|k code]|] fs]; cbn; [specialize (Hmain [])|by intros [= <- _]..|specialize (Hmain fs)];
    (destruct (f tb) as [c|]; cbn in Hmain |- *; intros [= <- _]; [done|by destruct Hmain]).
Qed.

Section Answers.
Context {K : Keccak} {Abi : TokenAbi} {Com : Common} {Txt : Texts} {E C : Type} {Lru : LruCache C}.
Context {Redis : RedisClient E} {Run : Runtime E} {Logos : LogoService E} {Sender : BridgeSender E}.
Context {LogoCodec : Codec LogoInfo} (unspecified : float64 → Z).
Context (service : bridgeService) (task : TaskConfig) (rollup : Z) (logosEnabled : bool).
Context (clients : gset Z) (calculator : calculatorImpl).
Abbreviation XS := (M (XService E C)).

(** *** The tables are only read *)
Definition xv_tables (s : XService E C) : tables := db_committed (xv_db s).
Abbreviation reads t0 m := (preserves (λ s, xv_tables s = t0) m).
Section Reads.
Context (t0 : tables).
Lemma reads_node {A} (m : M E A) : reads t0 (xv_node m : XS A).
Proof. intros s r s' H. unfold xv_node, zoom. destruct (m (xv_env s)). by intros [= _ <-]. Qed.
Lemma reads_store {A} (m : M database A) : preserves (committed_is t0) m → reads t0 (xv_store m : XS A).
Proof.
  intros Hm s r s' H. unfold xv_store, zoom. destruct (m (xv_db s)) as [r1 db1] eqn:E1. intros [= _ <-]. exact (Hm _ _ _ H E1).
Qed.
Lemma reads_GetClaim n o d : preserves (committed_is t0) (GetClaim n o d nil_tx).
Proof. unfold GetClaim, query_row. solve_preserves. Qed.
Lemma reads_ready d : preserves (committed_is t0) (ready_status d).
Proof. unfold ready_status, GetClaimTxById, query_row. solve_preserves. Qed.
Lemma reads_any h d : reads t0 (any_transaction unspecified task calculator h d : XS _).
Proof.
  unfold any_transaction. solve_preserves; first [apply reads_node|apply reads_store, reads_GetClaim|apply reads_store, reads_ready].
Qed.

(** *** One transaction *)
Lemma listed_fields status d tx : listed task calculator status d = Ok tx →
  tr_Index tx = dep_DepositCount d ∧ tr_FromChain tx = dep_NetworkID d ∧ tr_ToChain tx = dep_DestinationNetwork d.
Proof.
  unfold listed. destruct (Get_estimate _ _); [|done|done]. cbn. destruct (getGlobalIndex d); [|done|done]. cbn. by intros [= <-].
Qed.
Lemma ready_status_open d db status db' : ready_status d db = (Ok status, db') → status ≠ TX_CLAIMED.
Proof.
  unfold ready_status. case_bool_decide; [|by intros [= <- _]].
  intros (r & db1 & _ & H1)%M_bind_inv. injection H1 as <- _. destruct r as [mTx|e]; [|done]. by case_bool_decide.
Qed.
Lemma waiting_open h d tx e tx' e' : waiting unspecified task h d tx e = (Ok tx', e') →
  tr_Status tx' ≠ TX_CLAIMED ∧ tr_Index tx' = tr_Index tx ∧ tr_FromChain tx' = tr_FromChain tx ∧ tr_ToChain tx' = tr_ToChain tx.
Proof.
  assert (Hs : waiting_status task h d ≠ TX_CLAIMED) by (unfold waiting_status; repeat case_bool_decide; done).
  unfold waiting. case_bool_decide; [by intros [= <- _]|].
  unfold setDurationForL2Deposit. intros (z & e1 & _ & H1)%M_bind_inv. by injection H1 as <- _.
Qed.

Lemma any_transaction_shows h d (s : XService E C) tx s' :
  any_transaction unspecified task calculator h d s = (Ok (Answer tx), s') → shows (xv_tables s) d tx.
Proof.
  unfold any_transaction. intros H. apply M_bind_inv in H as (d' & s1 & Hd & H). injection Hd as Hd <-.
  apply M_bind_inv in H as (tx1 & s1 & Htx & H). injection Htx as Htx <-.
  destruct (replaced_deposit _ _ _ _ Hd) as (Hn & Hnet & _ & Hdest & Hready).
  destruct (listed_fields _ _ _ Htx) as (Hi & Hf & Ht). rewrite Hn in Hi. rewrite Hnet in Hf. rewrite Hdest in Ht.
  rewrite Hready in H. destruct (dep_ReadyForClaim d) eqn:Hr.
  - apply M_bind_inv in H as (claim & s2 & Hc & H). unfold attempt, xv_store, zoom in Hc.
    destruct (GetClaim _ _ _ _ _) as [r db] eqn:Hg. apply GetClaim_reads in Hg. rewrite Hn, Hnet, Hdest in Hg.
    destruct r as [c|err|p]; [| |done]; injection Hc as <- <-.
    + injection H as <- _. by constructor.
    + destruct (errors_Is err ErrStorageNotFound) eqn:He; cbn in H; [|done].
      apply M_bind_inv in H as (status & s2 & Hst & H). unfold xv_store, zoom in Hst.
      destruct (ready_status _ _) as [r1 db1] eqn:Hrs. injection Hst as -> _. apply ready_status_open in Hrs.
      injection H as <- _. constructor; [done..|]. cbn. split; [done|]. intros [_ ?]. by destruct Hg.
  - apply M_bind_inv in H as (tx2 & s2 & Hw & H). injection H as <- _. unfold xv_node, zoom in Hw.
    destruct (waiting _ _ _ _ _ _) as [r1 e1] eqn:Hwe. injection Hw as -> _.
    apply waiting_open in Hwe as (Hne & H1 & H2 & H3). constructor; unfold inner_ids; cbn; [congruence..|]. split; [by intros ?%Hne|by intros [? _]; congruence].
Qed.
Lemma each_any h ds : ∀ (s : XService E C) txs s', each_response (any_transaction unspecified task calculator h) ds s = (Ok (Answer txs), s') →
  xv_tables s = t0 → Forall2 (shows t0) ds txs.
Proof.
  induction ds as [|d ds IH]; intros s txs s' H Hs; cbn [each_response] in H; [by injection H as <- _|].
  apply M_bind_inv in H as (y & s1 & Hy & H). destruct y as [tx|msg]; [|done].
  apply M_bind_inv in H as (ys & s2 & Hys & H). destruct ys as [ys|msg]; [|done]. injection H as <- _.
  pose proof (reads_any _ _ _ _ _ Hs Hy) as H1. apply any_transaction_shows in Hy. rewrite Hs in Hy. constructor; [done|by eapply IH].
Qed.
End Reads.

(** *** The page *)
(** How many rows of a page arrive: all of them, unless the statement is accepted
    and then breaks off. *)
Definition arrived {A} (faults : list (option fault)) (l : list A) : list A :=
  match head faults with Some (Some (Broken n _)) => take n l | _ => l end.
Lemma getDepositList_reads f db rows db' : getDepositList 16 f nil_tx db = (Ok rows, db') →
  rows = arrived (db_faults db) (f (db_committed db)) ∧ db_committed db' = db_committed db.
Proof.
  unfold getDepositList. intros (l & db1 & Hq & H)%M_bind_inv.
  assert (rows = l ∧ db' = db1) as [-> ->] by (destruct l; by injection H as <- <-). clear H.
  split; [|by destruct (query_exec _ _ _ _ _ Hq) as (r0 & He & _); eapply (committed_select (db_committed db)) in He].
  revert Hq. destruct db as [tb otx q lk fs nw]. unfold query, received, exec, pop_fault, run_auto, mbind, M_bind.
  destruct fs as [|[[code|n code]|] fs]; cbn; try done; by intros [= <- _].
Qed.
(** One row more than the page is asked for. *)
Lemma page_of_page {A} limit offset faults (l : list A) : 0 ≤ limit < 2 ^ 32 - 1 → 0 ≤ offset →
  let '(more, rows) := page_of limit (arrived faults (page (wrap32 (limit + 1)) offset l)) in
  rows = arrived faults (page limit offset l) ∧
  (more = true ↔ offset + limit < Z.of_nat (length l) ∧ limit < Z.of_nat (length (arrived faults (page (limit + 1) offset l)))).
Proof.
  intros Hl Ho. unfold page_of, wrap32. rewrite wrap_id by (unfold in_width; lia).
  set (rows := page (limit + 1) offset l).
  assert (Hlen : Z.of_nat (length rows) = Z.max 0 (Z.min (limit + 1) (Z.of_nat (length l) - offset))).
  { unfold rows, page. rewrite length_take, length_drop. lia. }
  assert (Hrows : take (Z.to_nat limit) rows = page limit offset l).
  { unfold rows, page. rewrite take_take. f_equal. lia. }
  assert (Harr : take (Z.to_nat limit) (arrived faults rows) = arrived faults (page limit offset l)).
  { unfold arrived. destruct (head faults) as [[[code|n code]|]|]; try done. rewrite <- Hrows, !take_take. f_equal. lia. }
  assert (Hle : (length (arrived faults rows) ≤ length rows)%nat).
  { unfold arrived. destruct (head faults) as [[[code|n code]|]|]; try done. rewrite length_take. lia. }
  case_bool_decide as H1; (split; [|split; [|try done]]); [done|intros _; lia| |done|lia].
  rewrite <- Harr. symmetry. apply take_ge. lia.
Qed.

(** C32. The transactions of an account: an answer is the page of its deposits,
    newest first, each one with the status that its claim in the tables gives it,
    and says whether there are more deposits after the page.  That the page is
    complete holds when the statement is not broken off: its loop over the rows
    ends at an error as at the last row, so when the read breaks off after [n] rows
    the answer, without an error, is the first [n] deposits of the page, and there
    are more only if the row after the page was among them. *)
Theorem GetAllTransactions_answer destAddr limit offset (s : XService E C) more txs s'
  (Hlimit : 0 ≤ page_limit service limit < 2 ^ 32 - 1) (Hoffset : 0 ≤ offset)
  (E1 : GetAllTransactions unspecified service task rollup logosEnabled calculator destAddr limit offset s
        = (Ok (Answer (more, txs)), s')) :
  let t := db_committed (xv_db s) in let size := page_limit service limit in
  let deposits := list_full (λ _ d, user_deposits (FromHex destAddr) (GetContractAddressList (pt_processors task)) rollup (dr_dep d)) t in
  match head (db_faults (xv_db s)) with
  | Some (Some (Broken n _)) =>
      Forall2 (shows t) (take n (page size offset deposits)) txs ∧
      (more = true ↔ offset + size < Z.of_nat (length deposits) ∧ size < Z.of_nat n)
  | _ => Forall2 (shows t) (page size offset deposits) txs ∧
      (more = true ↔ offset + size < Z.of_nat (length deposits))
  end.
Proof.
  cbn zeta. set (deposits := list_full _ _). unfold GetAllTransactions in E1.
  apply M_bind_inv in E1 as (r & s1 & Hr & E1). unfold attempt, xv_store, zoom in Hr.
  destruct (GetDepositsXLayer _ _ _ _ _ _ _) as [r1 db1] eqn:Hg. destruct r1 as [rows|e|p]; [injection Hr as <- <-|injection Hr as <- <-; done|done].
  unfold GetDepositsXLayer in Hg. apply getDepositList_reads in Hg as [-> Hdb]. fold deposits in E1.
  pose proof (page_of_page (page_limit service limit) offset (db_faults (xv_db s)) deposits Hlimit Hoffset) as Hpage.
  destruct (page_of _ _) as [hasNext rows]. destruct Hpage as [-> Hmore]. apply M_bind_inv in E1 as (h & s2 & Hh & E1).
  apply (reads_node (db_committed (xv_db s))) in Hh; [|exact Hdb].
  apply M_bind_inv in E1 as (ts & s3 & Ht & E1). destruct ts as [ts|msg]; [|done].
  apply M_bind_inv in E1 as (filled & s4 & Hfill & E1). injection E1 as <- <- _.
  assert (Hall : Forall2 (shows (db_committed (xv_db s))) (arrived (db_faults (xv_db s)) (page (page_limit service limit) offset deposits)) filled).
  { unfold xv_node, zoom in Hfill. destruct (FillLogoInfos _ _ _ _ _) as [r1 e1] eqn:Hf. injection Hfill as -> _.
    eapply shows_all_plain; [by eapply FillLogoInfos_plain|]. by eapply (each_any (db_committed (xv_db s))). }
  clear -Hall Hmore Hlimit Hoffset. revert Hall Hmore. unfold arrived, page. destruct (head _) as [[[code|n code]|]|];
    intros Hall ->; (split; [exact Hall|]); rewrite ?length_take, ?length_drop; lia.
Qed.

(** A deposit of L1 that is not ready and whose block is above the L1 block number
    in Redis, which is 0 when it cannot be read, is shown as being claimed: the
    number of confirmations wraps around. *)
Theorem stale_head_shows_auto_claim h d (s : XService E C) tx s'
  (Hnet : dep_NetworkID d = 0) (Hready : dep_ReadyForClaim d = false)
  (Hstale : 0 ≤ hd_l1BlockNum h < dep_BlockNumber d) (Hblock : dep_BlockNumber d < 2 ^ 63) (Hconf : pt_confirmations task ≤ 2 ^ 63)
  (E1 : pending_transaction unspecified task calculator h d s = (Ok tx, s')) :
  tr_Status tx = TX_PENDING_AUTO_CLAIM.
Proof.
  unfold pending_transaction in E1. apply M_bind_inv in E1 as (d' & s1 & Hd & E1). injection Hd as Hd <-.
  destruct (replaced_deposit _ _ _ _ Hd) as (_ & Hn & Hb & _ & Hr). apply M_bind_inv in E1 as (tx1 & s1 & _ & E1).
  rewrite Hready in Hr. rewrite Hr in E1. apply M_bind_inv in E1 as (tx2 & s2 & Hw & E1). injection E1 as <- _.
  unfold xv_node, zoom, waiting in Hw. rewrite Hn, Hnet in Hw. cbn in Hw. injection Hw as <- _. cbn.
  unfold waiting_status. rewrite Hn, Hnet, Hb. rewrite bool_decide_true by done. rewrite bool_decide_true; [done|].
  unfold wrap64, wrap. rewrite <- (Z.mod_unique _ _ (-1) (hd_l1BlockNum h - dep_BlockNumber d + 2 ^ 64)) by lia. lia.
Qed.

(** *** Claims that a user asks for *)
Lemma GetDepositByHash_reads destAddr net hash db d db' : GetDepositByHash destAddr net hash nil_tx db = (Ok d, db') →
  db_committed db' = db_committed db ∧ ∃ row, row ∈ t_deposit (db_committed db) ∧
    dep_DestinationAddress (dr_dep row) = destAddr ∧ dep_NetworkID (dr_dep row) = net ∧ dep_TxHash (dr_dep row) = hash ∧
    (set_dep_Id 0 ∘ set_dep_Time zero_time <$> join_full (db_committed db) row = Some d).
Proof.
  unfold GetDepositByHash. intros (d0 & db1 & Hd%not_found_ok & H)%M_bind_inv. injection H as <- <-.
  apply query_row_ok in Hd as (Hf & Hv & _). cbn in Hv, Hf. split; [done|].
  apply head_Some_elem, list_elem_of_omap in Hf as (row & (HP & Hin)%list_elem_of_filter & Hj).
  destruct HP as (? & ? & ?). exists row. split_and!; [done..|]. by rewrite Hj.
Qed.
Lemma proof_array_nil : proof_array mtHeight 0 [] = Panic "index out of range".
Proof. reflexivity. Qed.
Lemma bind_lift {A B} (m : res A) (f : A → XS B) s r s' : (lift_res m ≫= f) s = (r, s') →
  s' = s ∨ ∃ a, m = Ok a ∧ f a s = (r, s').
Proof. unfold mbind, M_bind, lift_res. destruct m as [a|e|p]; [by eauto|intros [= _ <-]; by left..]. Qed.
Lemma join_full_fields t row d : join_full t row = Some d →
  dep_DepositCount d = dep_DepositCount (dr_dep row) ∧ dep_NetworkID d = dep_NetworkID (dr_dep row) ∧
  dep_DestinationNetwork d = dep_DestinationNetwork (dr_dep row) ∧ dep_ReadyForClaim d = dep_ReadyForClaim (dr_dep row).
Proof. unfold join_full. destruct (block_of row t); cbn; by intros [= <-]. Qed.

(** C33. Nothing is sent to a node, unless the request is for network 0 and the tables
    hold a deposit of that transaction to that address which is ready, has no
    claim and goes to a network with a client; what is sent is the claim of this
    deposit with the proof of the service. *)
Theorem ManualClaim_sends_claimable fromChain destAddr hash (s : XService E C) r s'
  (E1 : ManualClaim service clients fromChain destAddr hash s = (r, s')) (Hsent : xv_env s' ≠ xv_env s) :
  fromChain = 0 ∧ ∃ row d, row ∈ t_deposit (xv_tables s) ∧ join_full (xv_tables s) row = Some d ∧
    dep_NetworkID (dr_dep row) = 0 ∧ dep_DestinationAddress (dr_dep row) = HexToAddress destAddr ∧
    dep_TxHash (dr_dep row) = HexToHash hash ∧ dep_ReadyForClaim (dr_dep row) = true ∧
    ¬ deposit_is_claimed (xv_tables s) (dr_dep row) ∧ dep_DestinationNetwork (dr_dep row) ∈ clients ∧
    ∃ ger proof rollupProof mtProof mtRollupProof db c' db' sent,
      db_committed db = xv_tables s ∧
      GetClaimProof service (dep_DepositCount d) 0 nil_tx (xv_cache s, db) = (Ok (ger, proof, rollupProof), (c', db')) ∧
      proof_array mtHeight 0 proof = Ok mtProof ∧ proof_array mtHeight 0 rollupProof = Ok mtRollupProof ∧
      SendClaimXLayer (dep_DestinationNetwork d) (set_dep_Id 0 (set_dep_Time zero_time d)) mtProof mtRollupProof ger 0
        (xv_env s) = (sent, xv_env s').
Proof.
  unfold ManualClaim in E1. case_bool_decide as Hc; [by injection E1 as _ <-|]. subst fromChain. split; [done|].
  apply bind_attempt_zoom in E1 as ([d0|e|p] & db1 & Hd & E1); [|by injection E1 as _ <-|by destruct E1 as [_ ->]].
  apply GetDepositByHash_reads in Hd as (Hdb1 & row & Hrow & Hdest & Hnet & Hhash & Hj).
  destruct (join_full _ row) as [d|] eqn:Hjoin; [|done]. injection Hj as <-.
  destruct (join_full_fields _ _ _ Hjoin) as (Hn & Hne & Hde & Hre).
  cbn [set_dep_Id set_dep_Time dep_ReadyForClaim dep_DepositCount dep_NetworkID dep_DestinationNetwork] in E1.
  destruct (dep_ReadyForClaim d) eqn:Hready; cbn [negb] in E1; [|by injection E1 as _ <-].
  apply bind_attempt_zoom in E1 as ([c|e|p] & db2 & Hg & E1); [by injection E1 as _ <-| |by destruct E1 as [_ ->]].
  pose proof (reads_GetClaim _ _ _ _ _ _ _ (eq_trans Hdb1 eq_refl) Hg) as Hdb2. apply GetClaim_reads in Hg. cbn in Hg, Hdb2.
  destruct (errors_Is e ErrStorageNotFound) eqn:He; cbn [negb] in E1; [|by injection E1 as _ <-].
  case_bool_decide as Hcl; [by injection E1 as _ <-|].
  apply bind_attempt_zoom in E1 as (rp & [c3 db3] & Hp & E1). cbn in Hp.
  exists row, d. unfold xv_tables, deposit_is_claimed. rewrite <- Hn, <- Hde, <- Hne, <- Hre.
  rewrite Hdb1 in Hg. assert (Hnet0 : dep_NetworkID d = 0) by congruence.
  split_and!; try done; [by apply Hg|].
  destruct rp as [[[ger proof] rollupProof]|err|p].
  - apply bind_lift in E1 as [->|(mtProof & H1 & E1)]; [done|]. apply bind_lift in E1 as [->|(mtRollupProof & H2 & E1)]; [done|].
    apply bind_attempt_zoom in E1 as (sent & e4 & Hsend & E1). cbn in Hsend.
    exists ger, proof, rollupProof, mtProof, mtRollupProof, db2, c3, db3, sent. split_and!; try done; [congruence..|].
    rewrite Hnet0 in *. assert (xv_env s' = e4) as ->; [|done].
    destruct sent as [[h|]|e1|p1]; [injection E1 as _ <-|injection E1 as _ <-|injection E1 as _ <-|destruct E1 as [_ ->]]; done.
  - rewrite proof_array_nil in E1. by injection E1 as _ <-.
  - by destruct E1 as [_ ->].
Qed.

(** When the proof of a deposit that can be claimed cannot be made, for example
    because no exit root of the other network is stored, the error is only
    logged: the endpoint reads the missing proof and panics. *)
Theorem ManualClaim_without_proof_panics destAddr hash (s : XService E C) d db1 e db2 err c3 db3
  (Hd : GetDepositByHash (HexToAddress destAddr) 0 (HexToHash hash) nil_tx (xv_db s) = (Ok d, db1))
  (Hready : dep_ReadyForClaim d = true) (Hclient : dep_DestinationNetwork d ∈ clients)
  (Hc : GetClaim (dep_DepositCount d) (dep_NetworkID d) (dep_DestinationNetwork d) nil_tx db1 = (Err e, db2))
  (Hnone : errors_Is e ErrStorageNotFound = true)
  (Hp : GetClaimProof service (dep_DepositCount d) (dep_NetworkID d) nil_tx (xv_cache s, db2) = (Err err, (c3, db3))) :
  ManualClaim service clients 0 destAddr hash s = (Panic "index out of range", mkXService (xv_env s) c3 db3).
Proof.
  unfold ManualClaim. rewrite bool_decide_false by (intros H; by apply H).
  unfold mbind at 1, M_bind at 1, attempt at 1, xv_store at 1, zoom at 1. rewrite Hd, Hready. cbn [negb].
  unfold mbind at 1, M_bind at 1, attempt at 1, xv_store at 1, zoom at 1. cbn [xv_db]. rewrite Hc, Hnone. cbn [negb].
  rewrite bool_decide_false by (intros H; by apply H).
  unfold mbind at 1, M_bind at 1, attempt at 1, xv_service at 1, zoom at 1. cbn [xv_cache xv_db]. rewrite Hp.
  rewrite proof_array_nil. reflexivity.
Qed.
End Answers.
