(* ===== verification/BridgeServiceFacts.v ===== *)
(** * The proofs of the bridge service

    The proof built from the stored nodes and the cache is the Merkle proof of
    the leaf, under every root the tree has had since the leaf was appended. *)
From S2P Require Import Prelude Types GlobalIndex Hashing MerkleStore MerkleTree MerkleSpec.
From S2P Require Import MerkleTreeFacts MerkleDense MerkleReset Tables Storage StorageFacts Hex.
From S2P Require Import BridgeService.

(** What the service relies on: the cache returns what was added under the key. *)
Class LruCacheOk (C : Type) `{LruCache C} : Type := {
  holds : C → bytes → list bytes → Prop;
  lru_New_ok n c k v : lru_New n = Some c → ¬ holds c k v;
  lru_Get_ok k c o c' : lru_Get k c = (o, c') →
    (∀ v, o = Some v → holds c k v) ∧ (∀ k' v', holds c' k' v' → holds c k' v');
  lru_Add_ok k v c k' v' : holds (lru_Add k v c) k' v' → (k' = k ∧ v' = v) ∨ holds c k' v';
}.

Section Paths.
Context {K : Keccak}.

(** The nodes above leaf [i] in the tree of the first leaves are those above
    the last leaf of some shorter prefix. *)
Lemma path_node_prefix L i k h : (i ≤ k)%nat →
  ∃ k', (i ≤ k' ≤ k)%nat ∧ path_node (take (S k) L) i h = path_node (take (S k') L) k' h.
Proof.
  intros Hik. set (p := (i / 2 ^ S h)%nat). set (k' := Nat.min k ((p + 1) * 2 ^ S h - 1)).
  pose proof (div_pow_lower i (S h)) as Hlo. pose proof (div_pow_upper i (S h)) as Hup.
  fold p in Hlo, Hup. assert (Hk' : (i ≤ k' ≤ k)%nat) by (unfold k'; lia).
  exists k'. split; [done|].
  assert (Hp : (k' / 2 ^ S h)%nat = p).
  { symmetry. apply (Nat.div_unique _ _ _ (k' - 2 ^ S h * p)).
    - unfold k'. lia.
    - lia. }
  assert (Hext : ∀ j, (p * 2 ^ S h ≤ j < (p + 1) * 2 ^ S h)%nat → take (S k) L !! j = take (S k') L !! j).
  { intros j Hj. destruct (decide (k' = k)) as [->|Hne]; [done|].
    assert (k' = (p + 1) * 2 ^ S h - 1)%nat as E by (unfold k' in *; lia).
    rewrite !lookup_take_lt by lia. done. }
  unfold path_node. cbn zeta. rewrite Hp. fold p.
  rewrite Nat.pow_succ_r' in Hext.
  rewrite (node_ext (take (S k) L) (take (S k') L) (S h) p) by (intros j Hj; apply Hext; rewrite Nat.pow_succ_r' in Hj; lia).
  rewrite (node_ext (take (S k) L) (take (S k') L) h (2 * p)) by (intros j Hj; apply Hext; lia).
  rewrite (node_ext (take (S k) L) (take (S k') L) h (2 * p + 1)) by (intros j Hj; apply Hext; lia).
  done.
Qed.

Lemma path_stored {DB} `{merkleTreeStoreOk DB} tx db net height L i k h :
  tree_stored tx db net height L → (i ≤ k)%nat → (k < length L)%nat → (h < height)%nat →
  ∃ d, node3_row d (path_node (take (S k) L) i h) ∈ nodes tx db.
Proof.
  intros TS Hik Hk Hh. destruct (path_node_prefix L i k h Hik) as (k' & ? & ->).
  apply (ts_nodes tx db net height L k' h TS); lia.
Qed.
End Paths.

Section Service.
Context {K : Keccak} {C : Type} {Lru : LruCache C} {LruOk : LruCacheOk C} (s : bridgeService).

(** The cache agrees with the stored nodes. *)
Definition coherent (c : C) (rows : list node_row) : Prop :=
  ∀ k v v' d, holds c k v → (k, v', d) ∈ rows → v = v'.

Lemma getNode_ok tx c db k v0 v1 d :
  db_live tx db → no_collision (pg_nodes tx db) → coherent c (pg_nodes tx db) →
  (k, [v0; v1], d) ∈ pg_nodes tx db → length v0 = 32%nat → length v1 = 32%nat →
  ∃ c' db', getNode k tx (c, db) = (Ok (v0, v1), (c', db')) ∧
    db_live tx db' ∧ view tx db' = view tx db ∧ coherent c' (pg_nodes tx db).
Proof.
  intros Hl Hnc Hco Hin H0 H1. unfold getNode. destruct (lru_Get k c) as [o c1] eqn:Eg.
  destruct (lru_Get_ok _ _ _ _ Eg) as [Hv Hsub].
  assert (Hco1 : coherent c1 (pg_nodes tx db)) by (intros k' v v' d' Hh; eapply Hco; auto).
  assert (Hch : ∀ value, value = [v0; v1] →
    (x0 ← at_index value 0; x1 ← at_index value 1; mret (hash_of x0, hash_of x1)) = Ok (v0, v1)).
  { intros ? ->. rewrite at_index_0, at_index_1. cbn [mbind res_bind]. unfold hash_of.
    by rewrite !go_copy_full by done. }
  destruct o as [value|].
  - exists c1, db. split_and!; [|done..]. rewrite Hch; [done|]. by eapply Hco; [apply Hv|].
  - destruct (pg_Get_live k tx db _ d Hl Hin) as (v' & db' & E).
    destruct (pg_Get_ok _ _ _ _ _ E) as ((d' & Hin') & Hview & Hl').
    assert (v' = [v0; v1]) as -> by (by eapply Hnc).
    exists (lru_Add k [v0; v1] c1), db'. rewrite E, Hch by done. split_and!; [done|auto|done|].
    intros k' v v' d'' Hh Hr. apply lru_Add_ok in Hh as [[-> ->]|Hh]; [by eapply Hnc|by eapply Hco1].
Qed.

Lemma getProof_loop_ok tx L i (h : nat) : ∀ acc c db,
  hashes32 L → Z.of_nat i < 2 ^ 32 → db_live tx db → no_collision (pg_nodes tx db) →
  coherent c (pg_nodes tx db) →
  (∀ j, (j < h)%nat → ∃ d, node3_row d (path_node L i j) ∈ pg_nodes tx db) →
  ∃ c' db', getProof_loop (Z.of_nat <$> rev (seq 0 h)) (Z.of_nat i) (node L h (i / 2 ^ h)) acc tx (c, db)
      = (Ok (acc ++ (path_sibling L i <$> rev (seq 0 h))), (c', db')) ∧
    db_live tx db' ∧ view tx db' = view tx db ∧ coherent c' (pg_nodes tx db).
Proof.
  induction h as [|h IH]; intros acc c db HL Hi Hl Hnc Hco Hrows.
  { exists c, db. cbn. by rewrite app_nil_r. }
  rewrite rev_seq_S. cbn [fmap list_fmap getProof_loop].
  destruct (Hrows h ltac:(lia)) as [d Hd]. unfold node3_row, path_node in Hd. cbn [fst snd] in Hd.
  destruct (getNode_ok tx c db _ _ _ d Hl Hnc Hco Hd) as (c1 & db1 & E1 & Hl1 & Hv1 & Hco1);
    [by apply length_node..|].
  unfold mbind at 1, M_bind at 1, map_err. rewrite E1, bit_set_spec by done.
  destruct (IH (acc ++ [path_sibling L i h]) c1 db1) as (c2 & db2 & E2 & Hl2 & Hv2 & Hco2); try done;
    unfold pg_nodes; rewrite ?Hv1; try done.
  { intros j Hj. apply Hrows. lia. }
  exists c2, db2. split_and!; [|done|congruence|by unfold pg_nodes in Hco2; rewrite Hv1 in Hco2].
  rewrite <- app_assoc in E2. cbn [app] in E2. rewrite <- E2. clear E2.
  pose proof (child_of_path L i h) as Hcur. unfold path_sibling. cbn zeta. rewrite div_pow_succ in *.
  destruct (Nat.odd (i / 2 ^ h)) eqn:Ho; rewrite Hcur.
  - assert (2 * (i / 2 ^ h / 2) = i / 2 ^ h - 1)%nat as -> by (pose proof (odd_div2 _ Ho); lia). done.
  - assert (2 * (i / 2 ^ h / 2) = i / 2 ^ h)%nat as -> by (pose proof (even_div2 _ Ho); lia). done.
Qed.

(** The proof of leaf [i] under the root of the first [k + 1] leaves. *)
Lemma getProof_ok tx c db net L i k :
  let h := Z.to_nat (bs_height s) in
  1 ≤ bs_height s ≤ 64 → hashes32 L → tree_stored tx db net h L →
  db_live tx db → no_collision (pg_nodes tx db) → coherent c (pg_nodes tx db) →
  (i ≤ k)%nat → (k < length L)%nat → Z.of_nat i < 2 ^ 32 → (i < 2 ^ h)%nat →
  ∃ c' db', getProof s (Z.of_nat i) (merkle_root h (take (S k) L)) tx (c, db) =
      (Ok (path_siblings (take (S k) L) h i), (c', db')) ∧
    db_live tx db' ∧ view tx db' = view tx db ∧ coherent c' (pg_nodes tx db).
Proof.
  intros h Hh HL TS Hl Hnc Hco Hik Hk Hi Hfit.
  destruct (getProof_loop_ok tx (take (S k) L) i h [] c db) as (c' & db' & E & H'); try done.
  { by apply Forall_take. }
  { intros j Hj. by eapply (path_stored tx db net h L i k j TS). }
  exists c', db'. split; [|done]. unfold getProof. rewrite levels_spec by done. fold h.
  rewrite (Nat.div_small i (2 ^ h)) in E by done.
  erewrite M_bind_ok by exact E. unfold mret, M_ret. do 2 f_equal.
  rewrite app_nil_l, invert_rev, list_fmap_rev, rev_involutive. done.
Qed.

Lemma proof_verifies L i k x :
  let h := Z.to_nat (bs_height s) in
  1 ≤ bs_height s ≤ 64 → hashes32 L → (i ≤ k)%nat → (i < 2 ^ h)%nat → L !! i = Some x →
  calculateRoot x (path_siblings (take (S k) L) h i) (Z.of_nat i) (bs_height s) =
    Ok (merkle_root h (take (S k) L)).
Proof.
  intros h Hh HL Hik Hfit Hx.
  rewrite calculateRoot_eq; [|by eapply (Forall_lookup_1 _ _ _ _ HL)|lia]. fold h.
  assert (length (path_siblings (take (S k) L) h i) = h) as Hlen
    by (unfold path_siblings; by rewrite length_fmap, length_seq).
  rewrite Hlen, bool_decide_true, take_ge by lia. f_equal.
  rewrite <- (fold_proof_root (take (S k) L) h i) by done.
  rewrite lookup_take_lt by lia. by rewrite Hx.
Qed.
End Service.

Section Properties.
Context {K : Keccak} {C : Type} {Lru : LruCache C} {LruOk : LruCacheOk C} (s : bridgeService).

(** C10. The proof the service returns for a leaf is a valid one: on a live
    database that stores the tree of the leaves, with a cache that agrees with
    it, [getProof] succeeds for every leaf under every root the tree has had
    since that leaf, and its answer is the list of siblings that leads from the
    leaf to that root. *)
Theorem getProof_correct tx c db net L i k x
  (Hh : 1 ≤ bs_height s ≤ 64) (HL : hashes32 L)
  (TS : tree_stored tx db net (Z.to_nat (bs_height s)) L) (Hl : db_live tx db)
  (Hnc : no_collision (pg_nodes tx db)) (Hco : coherent c (pg_nodes tx db))
  (Hik : (i ≤ k < length L)%nat) (Hi : Z.of_nat i < 2 ^ 32)
  (Hfit : (i < 2 ^ Z.to_nat (bs_height s))%nat) (Hx : L !! i = Some x) :
  let root := merkle_root (Z.to_nat (bs_height s)) (take (S k) L) in
  ∃ proof c' db', getProof s (Z.of_nat i) root tx (c, db) = (Ok proof, (c', db')) ∧
    calculateRoot x proof (Z.of_nat i) (bs_height s) = Ok root ∧
    length proof = Z.to_nat (bs_height s) ∧ coherent c' (pg_nodes tx db').
Proof.
  intros root. destruct Hik as [Hik Hk].
  destruct (getProof_ok s tx c db net L i k Hh HL TS Hl Hnc Hco Hik Hk Hi Hfit)
    as (c' & db' & E & _ & Hv & Hco').
  exists (path_siblings (take (S k) L) (Z.to_nat (bs_height s)) i), c', db'. split_and!.
  - exact E.
  - by apply proof_verifies.
  - unfold path_siblings. by rewrite length_fmap, length_seq.
  - unfold pg_nodes in *. by rewrite Hv.
Qed.

(** The leaves of the rollups stored under a root. *)
Definition exit_leaves (root : bytes) (t : tables) : list bytes :=
  hash_of ∘ rel_Leaf <$> order_asc rel_RollupId (filter (λ l, rel_Root l = root) (t_rollup_exit t)).

Lemma hashes32_exit_leaves root t : hashes32 (exit_leaves root t).
Proof.
  apply Forall_fmap, Forall_forall. intros l _. unfold compose, hash_of. by rewrite length_go_copy.
Qed.

Lemma getRollupExitProof_ok tx (c : C) db root (i : nat) leaf :
  1 ≤ bs_height s ≤ 64 → db_live tx db → Z.of_nat i < 2 ^ 32 - 1 →
  let ls := exit_leaves root (view tx db) in let h := Z.to_nat (bs_height s) in
  (length ls ≤ 2 ^ h)%nat → root = merkle_root h ls → ls !! i = Some leaf →
  ∃ db', getRollupExitProof s (Z.of_nat i) root tx (c, db) =
      (Ok (path_siblings ls h i, leaf), (c, db')) ∧
    db_live tx db' ∧ view tx db' = view tx db.
Proof.
  intros Hh Hl Hi ls h Hfit Hroot Hleaf.
  set (f := λ t : tables, order_asc rel_RollupId (filter (λ l, rel_Root l = root) (t_rollup_exit t))).
  destruct (query_select_live tx f db Hl) as [db' E].
  destruct (query_ok _ _ _ _ _ Hl E) as (_ & Hv & _ & Hl').
  exists db'. split; [|by auto]. unfold getRollupExitProof.
  rewrite (M_bind_ok _ _ _ (f (view tx db)) (c, db')).
  2:{ unfold map_err, on_storage, zoom, GetRollupExitLeavesByRoot. cbn [snd fst].
    pose proof E as E'. unfold f in E'. by rewrite E'. }
  change (hash_of ∘ rel_Leaf <$> f (view tx db)) with ls. cbn zeta.
  pose proof (lookup_lt_Some _ _ _ Hleaf) as Hlt.
  pose proof (half_up_spec (Nat.max 1 (length ls))).
  erewrite M_bind_ok.
  2:{ unfold lift_res. rewrite ComputeSiblings_eq, bool_decide_true by (done || lia). done. }
  cbn iota beta. rewrite Nat2Z.id. fold h. rewrite <- Hroot. rewrite bool_decide_false by tauto.
  rewrite (bool_decide_false (length (path_siblings ls h i) = 0%nat))
    by (unfold path_siblings; rewrite length_fmap, length_seq; unfold h; lia).
  rewrite !bool_decide_false by lia. cbn [orb].
  erewrite M_bind_ok; [done|]. unfold lift_res. by rewrite at_index_nat, Hleaf.
Qed.

(** C11. The two proofs of a deposit made on a rollup: when the exit root
    stored for the rollups is the root of their leaves, and the leaf of the
    rollup is a root its own tree has had since the deposit, both proofs are
    found; the first leads from the deposit to the leaf of the rollup and the
    second from there to the exit root. *)
Theorem claim_proofs_rollup tx c db g net L (i k n : nat) x root
  (Hh : 1 ≤ bs_height s ≤ 64) (HL : hashes32 L)
  (TS : tree_stored tx db net (Z.to_nat (bs_height s)) L) (Hl : db_live tx db)
  (Hnc : no_collision (pg_nodes tx db)) (Hco : coherent c (pg_nodes tx db))
  (Hik : (i ≤ k < length L)%nat) (Hi : Z.of_nat i < 2 ^ 32)
  (Hfit : (i < 2 ^ Z.to_nat (bs_height s))%nat) (Hx : L !! i = Some x)
  (Hg : ger_ExitRoots g !! 1%nat = Some root)
  (Hroot : root = merkle_root (Z.to_nat (bs_height s)) (exit_leaves root (view tx db)))
  (Hrollups : (length (exit_leaves root (view tx db)) ≤ 2 ^ Z.to_nat (bs_height s))%nat)
  (Hn : Z.of_nat n < 2 ^ 32 - 1)
  (Hleaf : exit_leaves root (view tx db) !! n =
    Some (merkle_root (Z.to_nat (bs_height s)) (take (S k) L))) :
  ∃ proof rollupProof c' db',
    claim_proofs s (Z.of_nat i) (Z.of_nat n + 1) g tx (c, db) = (Ok (proof, rollupProof), (c', db')) ∧
    calculateRoot x proof (Z.of_nat i) (bs_height s) =
      Ok (merkle_root (Z.to_nat (bs_height s)) (take (S k) L)) ∧
    calculateRoot (merkle_root (Z.to_nat (bs_height s)) (take (S k) L)) rollupProof (Z.of_nat n)
      (bs_height s) = Ok root.
Proof.
  destruct Hik as [Hik Hk].
  destruct (getRollupExitProof_ok tx c db root n _ Hh Hl Hn Hrollups Hroot Hleaf) as (db1 & E1 & Hl1 & Hv1).
  assert (TS1 : tree_stored tx db1 net (Z.to_nat (bs_height s)) L).
  { destruct TS as [T1 T2]. unfold roots, deposit_counts, nodes in T1, T2. cbn [pgStoreOk] in T1, T2.
    unfold pg_roots, pg_deposit_counts, pg_nodes in T1, T2. rewrite <- Hv1 in T1, T2. by split. }
  assert (Hp : pg_nodes tx db1 = pg_nodes tx db) by (unfold pg_nodes; by rewrite Hv1).
  rewrite <- Hp in Hnc, Hco.
  destruct (getProof_ok s tx c db1 net L i k Hh HL TS1 Hl1 Hnc Hco Hik Hk Hi Hfit) as (c2 & db2 & E2 & _).
  eexists _, _, c2, db2. split_and!.
  - unfold claim_proofs. rewrite bool_decide_false by lia.
    rewrite (M_bind_ok _ _ _ root (c, db)) by (unfold lift_res; change 1 with (Z.of_nat 1);
      by rewrite at_index_nat, Hg).
    replace (wrap32 (Z.of_nat n + 1 - 1)) with (Z.of_nat n)
      by (unfold wrap32; rewrite wrap_id; unfold in_width; lia).
    erewrite M_bind_ok by (unfold map_err; rewrite E1; done). cbn iota beta.
    erewrite M_bind_ok by (unfold map_err; rewrite E2; done). done.
  - by apply proof_verifies.
  - set (ls := exit_leaves root (view tx db)) in *. set (h := Z.to_nat (bs_height s)) in *.
    pose proof (lookup_lt_Some _ _ _ Hleaf) as Hlt.
    assert (Hn1 : (n ≤ length ls - 1)%nat) by lia. assert (Hn2 : (n < 2 ^ h)%nat) by lia.
    pose proof (proof_verifies s ls n (length ls - 1) (merkle_root h (take (S k) L)) Hh
      (hashes32_exit_leaves _ _) Hn1 Hn2 Hleaf) as Hv.
    fold h in Hv. rewrite (take_ge ls) in Hv by lia. by rewrite Hv, <- Hroot.
Qed.

(** A rollup that is not yet under the exit root: instead of the error that
    says so, the search for its proof panics, because the siblings are computed
    before the index of the rollup is compared with the number of leaves. *)
Theorem getRollupExitProof_unsynced_panics tx (c : C) db root (i : Z)
  (Hh : 1 ≤ bs_height s ≤ 64) (Hl : db_live tx db) (Hi : 0 ≤ i < 2 ^ 32 - 1)
  (Hfit : (length (exit_leaves root (view tx db)) ≤ 2 ^ Z.to_nat (bs_height s))%nat)
  (Hmore : 2 * Z.of_nat (half_up (Nat.max 1 (length (exit_leaves root (view tx db))))) ≤ i) :
  (getRollupExitProof s i root tx (c, db)).1 = Panic "index out of range".
Proof.
  set (f := λ t : tables, order_asc rel_RollupId (filter (λ l, rel_Root l = root) (t_rollup_exit t))).
  destruct (query_select_live tx f db Hl) as [db' E]. unfold getRollupExitProof.
  rewrite (M_bind_ok _ _ _ (f (view tx db)) (c, db')).
  2:{ unfold map_err, on_storage, zoom, GetRollupExitLeavesByRoot. cbn [snd fst].
      pose proof E as E'. unfold f in E'. by rewrite E'. }
  change (hash_of ∘ rel_Leaf <$> f (view tx db)) with (exit_leaves root (view tx db)). cbn zeta.
  erewrite M_bind_panic; [done|].
  unfold lift_res. rewrite ComputeSiblings_eq, bool_decide_false by (done || lia). done.
Qed.

(** The lengths that are compared before an answer is built are those of two
    lists that are still empty: a rollup proof shorter than the other one is not
    refused with the error written for it, it makes the endpoint panic. *)
Theorem proof_response_lengths `{Common} g merkleProof rollupMerkleProof
  (Hlen : (length rollupMerkleProof < length merkleProof)%nat) :
  proof_response g merkleProof rollupMerkleProof = Panic "index out of range".
Proof.
  assert (∀ m (i : nat), (length rollupMerkleProof < i + length m)%nat → (i ≤ length rollupMerkleProof)%nat →
    proof_strings m rollupMerkleProof (Z.of_nat i) = Panic "index out of range") as Hp.
  { induction m as [|x m IH]; intros i Hi Hle; [cbn [length] in Hi; lia|]. cbn [proof_strings length] in *.
    rewrite at_index_nat. destruct (rollupMerkleProof !! i) as [r|] eqn:Er; [|done]. cbn [mbind res_bind].
    apply lookup_lt_Some in Er. replace (Z.of_nat i + 1) with (Z.of_nat (S i)) by lia.
    rewrite IH by lia. done. }
  unfold proof_response. rewrite bool_decide_false by (cbn; lia).
  assert (Hi : (length rollupMerkleProof < 0 + length merkleProof)%nat) by lia.
  pose proof (Hp merkleProof 0%nat Hi ltac:(lia)) as H0. change (Z.of_nat 0) with 0 in H0. by rewrite H0.
Qed.
End Properties.
