(* ===== verification/EndToEnd.v ===== *)
(** * A deposit, from its block to its proof

    The components together: the synchronizer of L1 stores the block of a
    deposit, the synchronizer of a rollup learns of a global exit root from its
    node and sends it on, the monitor of the rollup makes the deposits it covers
    ready, and the bridge service answers with a proof that the contract of the
    rollup accepts.  They share one database. *)
From S2P Require Import Prelude Types Hashing MerkleStore MerkleTree MerkleSpec MerkleTreeFacts MerkleDense MerkleReset.
From S2P Require Import Tables Storage StorageFacts SchemaInv BridgeCtrl NetTrees MessageBridge Synchronizer SyncFacts SyncReorg StorageProps.
From S2P Require Import ChannelMonitor BridgeService BridgeServiceFacts.

Section Tables.
Context {K : Keccak}.

(** What is asked of the tables before a trusted global exit root arrives: the
    genesis block, the blocks of the deposits, the numbers of the sequence, and
    that the network does not have this exit root yet. *)
Record awaits_ger (t : tables) (q : sequences) (ger : bytes) (net : Z) : Prop := {
  aw_genesis : block_exists 0 t = true;
  aw_blocks d : d ∈ t_deposit t → is_Some (block_of d t);
  aw_ids r : r ∈ t_exit_root t → ger_ID (er_ger r) ≤ sq_exit_root q;
  aw_fresh r : r ∈ t_exit_root t →
    ¬ (ger_BlockID (er_ger r) = 0 ∧ ger_GlobalExitRoot (er_ger r) = ger ∧ ger_NetworkID (er_ger r) = net);
  aw_nodes : no_collision (t_rht t);
}.
Definition trusted_row (q : sequences) (ger main rollup : bytes) (net : Z) : exit_root_row :=
  mkExitRootRow (mkGlobalExitRoot 0 0 [main; rollup] ger net (sq_exit_root q + 1) zero_time) true.
Definition with_trusted (t : tables) (q : sequences) (ger main rollup : bytes) (net : Z) : tables :=
  set_exit_root (t_exit_root t ++ [trusted_row q ger main rollup net]) t.

Lemma AddTrusted_stored db ger main rollup net time : db_faults db = [] →
  awaits_ger (db_committed db) (db_seqs db) ger net →
  ∃ db', AddTrustedGlobalExitRoot (mkGlobalExitRoot 0 0 [main; rollup] ger net 0 time) nil_tx db = (Ok true, db') ∧
    db_committed db' = with_trusted (db_committed db) (db_seqs db) ger main rollup net ∧ db_faults db' = [].
Proof.
  intros Hl Haw. set (t := db_committed db) in *. set (q := db_seqs db) in *.
  assert (existsb (λ r, bool_decide (ger_BlockID (er_ger r) = 0 ∧ ger_GlobalExitRoot (er_ger r) = ger ∧
                               ger_NetworkID (er_ger r) = net)) (t_exit_root t) = false) as Hnew.
  { apply not_true_iff_false. intros (r & Hr & He)%existsb_exists. apply list_elem_of_In in Hr.
    by apply bool_decide_eq_true, (aw_fresh _ _ _ _ Haw r Hr) in He. }
  set (m := λ '(t, q), match sql_add_exit_root 0 ger [main; rollup] net (t, q) with
                       | (Err ErrUniqueViolation, s) => (Ok false, s)
                       | (Ok _, s) => (Ok true, s)
                       | (Err e, s) => (Err e, s)
                       | (Panic p, s) => (Panic p, s)
                       end).
  assert (∃ q', m (t, q) = (Ok true, (with_trusted t q ger main rollup net, q'))) as [q' Hm].
  { unfold m, sql_add_exit_root. rewrite Hnew, (aw_genesis _ _ _ _ Haw). by eexists. }
  destruct (exec_live nil_tx m db true _ _ ltac:(done) Hm) as [db' E].
  destruct (exec_ok _ _ _ _ _ E) as (q2 & Hm2 & _ & _ & _ & _ & _ & Hl2). change (view nil_tx db, db_seqs db) with (t, q) in Hm2. rewrite Hm in Hm2. injection Hm2 as Ht _.
  exists db'. split_and!; [|done|by apply Hl2]. unfold AddTrustedGlobalExitRoot, mbind, M_bind, lift_res, two_roots.
  cbn [ger_ExitRoots ger_GlobalExitRoot ger_NetworkID]. rewrite at_index_0, at_index_1. cbn [mbind res_bind].
  unfold mret, M_ret, res_ret. fold m. by rewrite E.
Qed.

Lemma order_desc_head {A} (key : A → Z) l x : x ∈ l → (∀ y, y ∈ l → y = x ∨ key y < key x) →
  head (order_desc key l) = Some x.
Proof.
  intros Hx Hmax. unfold order_desc.
  assert (Transitive (desc key)) by (intros a b c; unfold desc; lia).
  assert (Total (desc key)) by (intros a b; unfold desc; lia).
  assert (merge_sort (desc key) l ≡ₚ l) as Hp by apply merge_sort_Permutation.
  assert (StronglySorted (desc key) (merge_sort (desc key) l)) as Hs by (apply StronglySorted_merge_sort; apply _).
  destruct (merge_sort (desc key) l) as [|y m]; [apply Permutation_nil_l in Hp as <-; by apply not_elem_of_nil in Hx|].
  assert (y ∈ l) as Hy by (rewrite <- Hp; by left). destruct (Hmax y Hy) as [->|Hlt]; [done|]. exfalso.
  assert (x ∈ y :: m) as Hin by (by rewrite Hp). apply elem_of_cons in Hin as [->|Hin]; [lia|].
  apply StronglySorted_inv in Hs as [_ Hs]. rewrite Forall_forall in Hs. specialize (Hs x Hin). unfold desc in Hs. lia.
Qed.

(** The tables after both steps. *)
Context (t : tables) (q : sequences) (ger main rollup : bytes) (net : Z) (k : nat).
Context (Haw : awaits_ger t q ger net) (Hs : schema_ok t q).
Abbreviation t2 := (mark_covered net false k (with_trusted t q ger main rollup net)).

Lemma trusted_read db : db_faults db = [] → db_committed db = t2 → length main = 32%nat → length rollup = 32%nat →
  ∃ g db', GetLatestTrustedExitRoot net nil_tx db = (Ok g, db') ∧ ger_ExitRoots g = [main; rollup] ∧
    ger_GlobalExitRoot g = ger ∧ db_faults db' = [] ∧ view nil_tx db' = t2.
Proof.
  intros Hf Hc Hm Hr. set (row := trusted_row q ger main rollup net).
  assert (head (allowed_roots (λ g, bool_decide (ger_NetworkID g = net)) t2) = Some (er_ger row)) as Hhead.
  { unfold allowed_roots. assert (∀ l, head (er_ger <$> l) = er_ger <$> head l) as -> by (by intros []).
    rewrite (order_desc_head _ _ row); [done| |].
    - apply list_elem_of_filter. split; [split; [done|by apply bool_decide_eq_true]|]. apply elem_of_app. right. by left.
    - intros y [_ Hy]%list_elem_of_filter. apply elem_of_app in Hy as [Hy|Hy%list_elem_of_singleton]; [right|by left].
      apply (aw_ids _ _ _ _ Haw) in Hy. cbn. lia. }
  destruct (query_row_live nil_tx (λ t, head (allowed_roots (λ g, bool_decide (ger_NetworkID g = net)) t)) db (er_ger row))
    as [db' E]; [done|by change (view nil_tx db) with (db_committed db); rewrite Hc|].
  destruct (query_row_ok _ _ _ _ _ E) as (_ & Hv & _ & Hl). change (view nil_tx db) with (db_committed db) in Hv.
  eexists _, db'. split; [|split; [|split; [|split; [by apply Hl|by rewrite Hv]]]].
  - unfold GetLatestTrustedExitRoot. erewrite M_bind_ok by (unfold not_found, map_err; rewrite E; reflexivity).
    cbv zeta. cbn [ger_ExitRoots er_ger row trusted_row length]. rewrite bool_decide_true by done.
    unfold scan_roots. cbn [ger_ExitRoots]. rewrite at_index_0, at_index_1. reflexivity.
  - cbn. by rewrite !BytesToHash_32.
  - done.
Qed.

(** A deposit that is covered is read as ready. *)
Lemma deposit_read db d (i : nat) : db_faults db = [] → db_committed db = t2 →
  d ∈ t_deposit t → dep_NetworkID (dr_dep d) = 0 → dep_DepositCount (dr_dep d) = Z.of_nat i → (i ≤ k)%nat →
  dep_DestinationNetwork (dr_dep d) = net →
  ∃ x db', GetDeposit (Z.of_nat i) 0 nil_tx db = (Ok x, db') ∧ dep_ReadyForClaim x = true ∧ dep_DestinationNetwork x = net ∧
    db_faults db' = [] ∧ db_committed db' = t2.
Proof.
  intros Hf Hc Hd Hn Hi Hik Hdest.
  set (f := λ t, head (omap (join_num t) (filter (λ d, dep_NetworkID (dr_dep d) = 0 ∧
                  dep_DepositCount (dr_dep d) = Z.of_nat i) (t_deposit t)))).
  assert (∃ x, f t2 = Some x ∧ dep_ReadyForClaim x = true ∧ dep_DestinationNetwork x = net) as (x & Hx & Hrx & Hdx).
  { set (mark := λ d, if covered net false k (dr_dep d) && negb (dep_ReadyForClaim (dr_dep d))
                     then mkDepositRow (set_dep_ready true (dr_dep d)) (dr_ready_time d) else d).
    assert (t_deposit t2 = mark <$> t_deposit t) as Hrows by done.
    assert (∀ r, dep_NetworkID (dr_dep (mark r)) = dep_NetworkID (dr_dep r) ∧
        dep_DepositCount (dr_dep (mark r)) = dep_DepositCount (dr_dep r) ∧ dep_BlockID (dr_dep (mark r)) = dep_BlockID (dr_dep r) ∧
        dep_DestinationNetwork (dr_dep (mark r)) = dep_DestinationNetwork (dr_dep r)) as Hmark.
    { intros r. unfold mark. by destruct (_ && _). }
    unfold f. rewrite Hrows. set (P := λ d, dep_NetworkID (dr_dep d) = 0 ∧ dep_DepositCount (dr_dep d) = Z.of_nat i).
    destruct (filter P (mark <$> t_deposit t)) as [|r rest] eqn:Ef.
    { exfalso. assert (mark d ∈ filter P (mark <$> t_deposit t)) as Hin.
      { apply list_elem_of_filter. destruct (Hmark d) as (H1 & H2 & _). split; [split; congruence|]. by apply list_elem_of_fmap_2. }
      rewrite Ef in Hin. by apply not_elem_of_nil in Hin. }
    assert (r ∈ filter P (mark <$> t_deposit t)) as [[Hrn Hri] Hr]%list_elem_of_filter by (rewrite Ef; by left).
    apply list_elem_of_fmap in Hr as (r0 & -> & Hr0). destruct (Hmark r0) as (M1 & M2 & M3 & M4).
    assert (r0 = d) as -> by (eapply deposit_key_inj; [exact Hs|..]; congruence).
    destruct (aw_blocks _ _ _ _ Haw d Hd) as [b Hb].
    assert (block_of (mark d) t2 = Some b) as Hb2 by (unfold block_of; rewrite M1, M3; exact Hb).
    cbn [omap list_omap]. unfold join_num at 1. rewrite Hb2. cbn. eexists. split; [done|]. cbn. split; [|by rewrite M4].
    unfold mark, covered. rewrite Hn, Hi, Hdest, !bool_decide_true by (done || lia). cbn.
    by destruct (dep_ReadyForClaim (dr_dep d)) eqn:Er. }
  destruct (query_row_live nil_tx f db x) as [db' E]; [done|by change (view nil_tx db) with (db_committed db); rewrite Hc|].
  destruct (query_row_ok _ _ _ _ _ E) as (_ & Hv & _ & Hl).
  exists x, db'. split; [unfold GetDeposit, not_found, map_err; fold f; by rewrite E|].
  split_and!; [done|done|by apply Hl|]. change (view nil_tx db' = t2). by rewrite Hv.
Qed.
End Tables.

(** The tree is still stored. *)
Lemma marked_tree_stored `{Keccak} t q net k ger main rollup h L db : schema_ok t q → net_stored t 0 h L →
  db_committed db = mark_covered net false k (with_trusted t q ger main rollup net) → tree_stored nil_tx db 0 h L.
Proof.
  intros Hs NS Hc. pose proof (net_stored_tree nil_tx (mkDatabase t None q 0 [] 0) 0 h L Hs NS) as [TR1 TR2].
  assert (pg_deposit_counts nil_tx db = pg_deposit_counts nil_tx (mkDatabase t None q 0 [] 0)) as Hcounts.
  { unfold pg_deposit_counts. change (view nil_tx db) with (db_committed db). rewrite Hc. cbn.
    rewrite <- list_fmap_compose. apply list_fmap_ext. intros i d _. unfold compose. by destruct (_ && _). }
  split; unfold roots, nodes, deposit_counts in *; cbn [pgStoreOk] in *; rewrite Hcounts; unfold pg_roots, pg_nodes in *;
    change (view nil_tx db) with (db_committed db); rewrite Hc; [exact TR1|exact TR2].
Qed.
Lemma follow_lookup `{Keccak} h ds : ∀ L leaves (j : nat) d, follow h L ds leaves → ds !! j = Some d →
  ∃ x, (L ++ leaves) !! (length L + j)%nat = Some x ∧ hashDeposit d = Ok x ∧ dep_DepositCount d = Z.of_nat (length L + j).
Proof.
  induction ds as [|d0 ds IH]; intros L [|x leaves] j d Hfo Hj; [by destruct j..|done|].
  destruct Hfo as (Hx & Hc & _ & Hfo). destruct j as [|j].
  - injection Hj as <-. exists x. rewrite Nat.add_0_r. split_and!; [|done|done]. by rewrite list_lookup_middle.
  - destruct (IH _ _ j d Hfo Hj) as (y & Hy & Hh & Hcount). exists y. rewrite <- app_assoc, length_app in Hy. cbn [app length] in Hy.
    rewrite length_app in Hcount. cbn [length] in Hcount.
    replace (length L + S j)%nat with (length L + 1 + j)%nat by lia. done.
Qed.

Section EndToEnd.
Context {K : Keccak} {Abi : TokenAbi} {E : Type} {Env : Environment E}.
Context {C : Type} {Lru : LruCache C} {LruOk : LruCacheOk C} (sv : bridgeService).

(** The proof of a covered deposit, read from tables that hold the tree and the
    exit root. *)
Lemma covered_proof t q net ger main rollup k h L db d (i : nat) x c :
  h = Z.to_nat (bs_height sv) → 1 ≤ bs_height sv ≤ 64 → hashes32 L → (length L ≤ 2 ^ h)%nat → Z.of_nat (length L) < 2 ^ 32 →
  schema_ok t q → awaits_ger t q ger net → net_stored t 0 h L → (k < length L)%nat →
  main = merkle_root h (take (S k) L) → length rollup = 32%nat →
  db_faults db = [] → db_committed db = mark_covered net false k (with_trusted t q ger main rollup net) →
  d ∈ t_deposit t → dep_NetworkID (dr_dep d) = 0 → dep_DepositCount (dr_dep d) = Z.of_nat i → (i ≤ k)%nat →
  dep_DestinationNetwork (dr_dep d) = net → L !! i = Some x → coherent c (t_rht t) →
  ∃ g proof c' db', GetClaimProof sv (Z.of_nat i) 0 nil_tx (c, db) = (Ok (g, proof, emptyProof), (c', db')) ∧
    ger_GlobalExitRoot g = ger ∧ ger_ExitRoots g = [main; rollup] ∧
    calculateRoot x proof (Z.of_nat i) (bs_height sv) = Ok main.
Proof.
  intros -> Hh HL Hfit H32 Hs Haw NS Hk Hm Hr Hf Hc Hd Hn Hi Hik Hdest Hx Hco.
  destruct (deposit_read t q ger main rollup net k Haw Hs db d i Hf Hc Hd Hn Hi Hik Hdest)
    as (y & db1 & E1 & Hry & Hdy & Hf1 & Hc1).
  destruct (trusted_read t q ger main rollup net k Haw db1 Hf1 Hc1) as (g & db2 & E2 & Hroots & Hger & Hf2 & Hc2);
    [subst main; apply merkle_root_32; lia|done|]. change (db_committed db2 = mark_covered net false k (with_trusted t q ger main rollup net)) in Hc2.
  pose proof (marked_tree_stored t q net k ger main rollup _ L db2 Hs NS Hc2) as TS.
  assert (pg_nodes nil_tx db2 = t_rht t) as Hnodes.
  { unfold pg_nodes. change (view nil_tx db2) with (db_committed db2). by rewrite Hc2. }
  destruct (getProof_ok sv nil_tx c db2 0 L i k Hh HL TS) as (c' & db3 & E3 & _); try done; [by rewrite Hnodes; apply Haw|by rewrite Hnodes|lia|lia|].
  exists g, (path_siblings (take (S k) L) (Z.to_nat (bs_height sv)) i), c', db3. split_and!; [|done|done|].
  - unfold GetClaimProof. erewrite M_bind_ok by (unfold on_storage, zoom; cbn [snd]; rewrite E1; reflexivity).
    rewrite Hry. cbn [negb fst]. unfold GetLatestExitRoot. rewrite Hdy, bool_decide_true by done.
    erewrite M_bind_ok by (unfold on_storage, zoom; cbn [snd]; rewrite E2; reflexivity). cbn [fst].
    rewrite (M_bind_ok _ _ _ (path_siblings (take (S k) L) (Z.to_nat (bs_height sv)) i, emptyProof) (c', db3)); [reflexivity|].
    unfold claim_proofs. rewrite bool_decide_true by done. rewrite Hroots.
    rewrite at_index_0. erewrite M_bind_ok by reflexivity. rewrite Hm.
    erewrite M_bind_ok by (unfold map_err; rewrite E3; reflexivity). reflexivity.
  - rewrite Hm. apply proof_verifies; (done || lia).
Qed.

(** C1. A deposit of L1 becomes claimable on its rollup, for an L1 synchronizer without
    Redis and a database that answers.  The block of the deposit is stored; when the node of the rollup reports a global exit root
    whose mainnet exit root covers the deposit, the synchronizer of the rollup
    stores it and sends it on, the monitor that receives it makes the deposit
    ready, and from then on the service answers with that exit root and a proof
    which leads from the hash of the deposit to the mainnet exit root. *)
Theorem deposit_becomes_claimable (cfg1 cfg2 : Config) block order flags (s s2 : ClientSynchronizer E) Ls mt leaves
  lastGER rollup time e1 e2 k
  (Hl1 : cfg_networkID cfg1 = 0)
  (Hf : forest (db_committed (ss_db s)) (ss_ctrl s) Ls) (Hok : db_ok (ss_db s))
  (Hlive : db_faults (ss_db s) = []) (Hredis : cfg_redis cfg1 = false)
  (Hn : blk_BlockNumber block < 2 ^ 63) (Hseq : sq_block (db_seqs (ss_db s)) + 1 < 2 ^ 63)
  (Ht : tree_of (ss_ctrl s) 0 = Some mt) (Hheight : bs_height sv = mt_height mt) (Hh : 1 ≤ mt_height mt ≤ 64)
  (Hfo : follow (Z.to_nat (mt_height mt)) (Ls 0) (blk_Deposits block) leaves)
  (Hfit : (length (Ls 0%Z) + length (blk_Deposits block) ≤ 2 ^ Z.to_nat (mt_height mt))%nat)
  (H32 : Z.of_nat (length (Ls 0) + length (blk_Deposits block)) < 2 ^ 32)
  (Horder : order !! blk_BlockHash block =
     Some ((λ i, mkOrder DepositsOrder (Z.of_nat i)) <$> seq 0 (length (blk_Deposits block)))) :
  let L := Ls 0 ++ leaves in
  let stored := processBlock cfg1 block order flags s in
  let main := merkle_root (Z.to_nat (mt_height mt)) (take (S k) L) in
  let net := cfg_networkID cfg2 in
  ∀ (Hk : (k < length L)%nat) (Hdist : distinct_roots (Z.to_nat (mt_height mt)) L)
    (Hshared : ss_db s2 = ss_db stored.2)
    (Haw : awaits_ger (db_committed (ss_db s2)) (db_seqs (ss_db s2)) lastGER net)
    (Hlatest : GetLatestGlobalExitRoot (ss_env s2) = (Ok lastGER, e1)) (Hne : lastGER ≠ zero_hash)
    (Hroots : ExitRootsByGER lastGER e1 = (Ok (Some (main, rollup, time)), e2)) (Hrollup : length rollup = 32%nat),
  stored.1 = Ok flags ∧
  ∃ s2' ger db, syncTrustedState cfg2 s2 = (Ok tt, s2') ∧ ss_sent s2' = ss_sent s2 ++ [SentExitRootL2 ger] ∧
    monitor_ger net ger (ss_db s2') = (Ok tt, db) ∧
    ∀ d c, d ∈ blk_Deposits block → dep_DestinationNetwork d = net → dep_DepositCount d ≤ Z.of_nat k →
      coherent c (t_rht (db_committed (ss_db s2))) →
      ∃ x g proof c' db', hashDeposit d = Ok x ∧
        GetClaimProof sv (dep_DepositCount d) 0 nil_tx (c, db) = (Ok (g, proof, emptyProof), (c', db')) ∧
        ger_GlobalExitRoot g = lastGER ∧ ger_ExitRoots g = [main; rollup] ∧
        calculateRoot x proof (dep_DepositCount d) (bs_height sv) = Ok main.
Proof.
  intros L stored main net Hk Hdist Hshared Haw Hlatest Hne Hroots Hrollup. rewrite <- Hl1 in Hfo, Hfit, H32, Ht.
  destruct (processBlock_run cfg1 block order flags s Ls mt leaves Hf Hok Hlive Hredis Hn Hseq Ht Hfo Hfit H32 Horder)
    as (s' & Ls' & Erun & [Hwf Hf'] & HL & _ & _ & Hok' & _ & Hfa & (mt' & Ht' & Hh') & (id & rows & Hrows & Hall) & _).
  subst stored. rewrite Erun in *. cbn [fst snd] in *. split; [done|].
  rewrite Hl1 in *. fold L in HL. destruct (Hf' 0 mt' Ht') as ((_ & _ & H32L & _) & _ & NS). rewrite Hh', HL in NS. rewrite HL in H32L.
  assert (length leaves = length (blk_Deposits block)) as Hlen.
  { clear -Hfo. revert Hfo. generalize (Ls 0%Z). revert leaves. induction (blk_Deposits block) as [|d ds IH]; intros [|x l] L0 H; try done.
    cbn. f_equal. by eapply IH, H. }
  set (h := Z.to_nat (mt_height mt)) in *. rewrite Hshared in Haw.
  destruct (AddTrusted_stored (ss_db s') lastGER main rollup net (int64 time * 10 ^ 9) Hfa Haw) as (db1 & E1 & Hc1 & Hf1).
  set (ger := mkGlobalExitRoot 0 0 [main; rollup] lastGER net 0 (int64 time * 10 ^ 9)) in *.
  assert (db_ok db1) as [Hs1 _] by (eapply pres_AddTrustedGlobalExitRoot; [exact Hok'|exact E1]).
  destruct Hok' as [Hs _].
  assert (net_stored (db_committed db1) 0 h L) as NS1 by (rewrite Hc1; destruct NS; by split).
  destruct (monitor_l2 net ger db1 h L k Hf1 Hs1 Hdist Hk [rollup]) as (db & Em & Hc & _ & Hfm); [done..|].
  exists (send (SentExitRootL2 ger) (set_db db1 (set_env e2 (set_env e1 s2)))), ger, db. split_and!; [|done|exact Em|].
  - unfold syncTrustedState. erewrite M_bind_ok by (unfold on_env, zoom; rewrite Hlatest; reflexivity).
    rewrite bool_decide_false by done. cbv iota.
    erewrite M_bind_ok by (unfold on_env, zoom; cbn [ss_env set_env]; rewrite Hroots; reflexivity). cbv beta iota zeta. fold net ger.
    erewrite M_bind_ok by (apply on_db_run; cbn [ss_db set_env]; rewrite Hshared; exact E1). reflexivity.
  - intros d c Hd Hdest Hcount Hco. apply list_elem_of_lookup in Hd as [j Hj].
    destruct (follow_lookup _ _ _ _ _ _ Hfo Hj) as (x & Hx & Hhash & Hcnt). fold L in Hx.
    destruct (Forall2_lookup_l _ _ _ _ _ Hrows Hj) as (r & Hr & rid & ->).
    destruct (covered_proof (db_committed (ss_db s')) (db_seqs (ss_db s')) net lastGER main rollup k h L db
      (stored_deposit rid (set_dep_ids id (cfg_networkID cfg1) d)) (length (Ls 0%Z) + j) x c) as (g & proof & c' & db' & Hp); try done.
    + unfold h. by rewrite Hheight.
    + by rewrite Hheight.
    + unfold L. rewrite length_app, Hlen. exact Hfit.
    + unfold L. rewrite length_app, Hlen. exact H32.
    + by rewrite Hc, Hc1.
    + rewrite Hall. apply elem_of_app. right. by eapply list_elem_of_lookup_2.
    + lia.
    + by rewrite Hshared in Hco.
    + exists x, g, proof, c', db'. split; [done|]. by rewrite Hcnt.
Qed.
End EndToEnd.
