(* ===== verification/AutoClaimFacts.v ===== *)
(** * The auto claim service: theorems

    What the service sends: the groups its bridges are split into, the claims of a
    pass, and that the arguments it builds from the answers of the REST interface
    are those the claim transaction manager builds from the tables. *)
From Stdlib Require Import Strings.String Strings.Ascii.
From stdpp Require Import pretty.
From S2P Require Import Prelude Types GlobalIndex Hashing Hex Http MerkleStore MerkleTree MerkleSpec MerkleTreeFacts.
From S2P Require Import MerkleDense MerkleReset Tables Storage StorageFacts BridgeService ClaimTxManager AutoClaim.
#[local] Open Scope Z_scope.

(** ** The groups *)
Section Splitter.
Context {A : Type}.

Lemma arraySplitter_step fuel (x : A) arr size : 0 < size →
  arraySplitter (S fuel) (x :: arr) size =
    let n := Nat.min (Z.to_nat size) (length (x :: arr)) in
    chunks ← arraySplitter fuel (drop n (x :: arr)) (Z.of_nat n);
    Some (c ← chunks; Ok (take n (x :: arr) :: c)).
Proof.
  intros Hs. cbn [arraySplitter].
  assert ((if bool_decide (Z.of_nat (length (x :: arr)) < size) then Z.of_nat (length (x :: arr)) else size) =
    Z.of_nat (Nat.min (Z.to_nat size) (length (x :: arr)))) as ->.
  { case_bool_decide; lia. }
  cbn zeta. rewrite bool_decide_false by lia. by rewrite Nat2Z.id.
Qed.

Lemma splitter_ok (arr : list A) size fuel : (length arr < fuel)%nat → 0 < size →
  ∃ chunks, arraySplitter fuel arr size = Some (Ok chunks) ∧ concat chunks = arr ∧
     Forall (λ c, 0 < Z.of_nat (length c) ≤ size) chunks ∧
     ∀ i c, chunks !! i = Some c → (S i < length chunks)%nat → Z.of_nat (length c) = size.
Proof.
  revert arr size. induction fuel as [|fuel IH]; intros [|x arr] size Hf Hs; [cbn in Hf; lia..| |].
  { exists []. split_and!; [done..|constructor|]. intros i c Hi. by rewrite lookup_nil in Hi. }
  rewrite arraySplitter_step by done. cbv zeta. set (n := Nat.min _ _).
  assert (1 ≤ n ≤ length (x :: arr))%nat as Hn by (cbn [length] in *; lia).
  destruct (IH (drop n (x :: arr)) (Z.of_nat n)) as (chunks & E & Hcat & Hall & Hfull); [rewrite length_drop; lia|lia|].
  exists (take n (x :: arr) :: chunks). rewrite E. split_and!; [done|cbn; by rewrite Hcat, take_drop| |].
  - constructor; [rewrite length_take; lia|]. eapply Forall_impl; [exact Hall|]. intros c Hc. cbn in Hc. lia.
  - assert (Hsz : chunks ≠ [] → Z.of_nat n = size).
    { intros Hne. destruct chunks as [|c chunks]; [done|]. apply Forall_cons in Hall as [Hc _].
      assert (length (drop n (x :: arr)) ≠ 0%nat) as Hd by (rewrite <- Hcat; cbn; rewrite length_app; lia).
      rewrite length_drop in Hd. lia. }
    intros [|i] c Hi Hl; cbn in Hi, Hl.
    * injection Hi as <-. rewrite length_take. destruct chunks; [cbn in Hl; lia|]. specialize (Hsz ltac:(done)). lia.
    * rewrite (Hfull i c) by (done || lia). apply Hsz. by destruct chunks.
Qed.

(** The groups are the bridges in their order, none is empty or larger than
    the configured size and only the last one can be smaller; one round for each
    bridge and one more is enough.  With a size of 0 the loop never ends, and a
    negative one panics. *)
Theorem arraySplitter_chunks (arr : list A) size fuel (Hf : (length arr < fuel)%nat) :
  (0 < size → ∃ chunks, arraySplitter fuel arr size = Some (Ok chunks) ∧ concat chunks = arr ∧
     Forall (λ c, 0 < Z.of_nat (length c) ≤ size) chunks ∧
     ∀ i c, chunks !! i = Some c → (S i < length chunks)%nat → Z.of_nat (length c) = size) ∧
  (arr ≠ [] → (∀ n, arraySplitter n arr 0 = None) ∧
     (size < 0 → arraySplitter fuel arr size = Some (Panic "slice bounds out of range"))).
Proof.
  split; [by apply splitter_ok|]. intros Hne. destruct arr as [|x arr]; [done|]. split.
  - induction n as [|n IHn]; [done|]. cbn [arraySplitter].
    rewrite (bool_decide_false (Z.of_nat _ < 0)) by lia. cbn zeta. rewrite bool_decide_false by lia.
    change (drop (Z.to_nat 0) (x :: arr)) with (x :: arr). by rewrite IHn.
  - intros Hs. destruct fuel as [|fuel]; [cbn in Hf; lia|]. cbn [arraySplitter].
    rewrite (bool_decide_false (Z.of_nat _ < size)) by lia. cbn zeta. by rewrite bool_decide_true by done.
Qed.
End Splitter.

(** Two lists of one length are split in the same way. *)
Lemma arraySplitter_zip {A B} fuel : ∀ (l : list A) (k : list B) size, length l = length k →
  match arraySplitter fuel l size, arraySplitter fuel k size with
  | Some (Ok cl), Some (Ok ck) => arraySplitter fuel (zip l k) size = Some (Ok (zip_with zip cl ck))
  | _, _ => True
  end.
Proof.
  induction fuel as [|fuel IH]; intros [|x l] [|y k] size Hl; try done.
  assert (length (zip (x :: l) (y :: k)) = length (x :: l)) as H1 by (rewrite length_zip_with; cbn in *; lia).
  assert (length (y :: k) = length (x :: l)) as H2 by done.
  change (zip (x :: l) (y :: k)) with ((x, y) :: zip l k) in *.
  cbn [arraySplitter]. rewrite H1, H2. set (n := if bool_decide (_ < size) then _ else size).
  case_bool_decide; [done|]. change ((x, y) :: zip l k) with (zip (x :: l) (y :: k)).
  specialize (IH (drop (Z.to_nat n) (x :: l)) (drop (Z.to_nat n) (y :: k)) n).
  rewrite !length_drop in IH. specialize (IH ltac:(lia)).
  destruct (arraySplitter fuel (drop _ (x :: l)) n) as [[cl| |]|]; [|done..].
  destruct (arraySplitter fuel (drop _ (y :: k)) n) as [[ck| |]|]; [|done..]. cbn [mbind option_bind].
  rewrite zip_with_drop, IH. unfold mbind, res_bind. rewrite zip_with_take. done.
Qed.

(** ** Numbers that were printed *)
Definition ascii_digit (x : N) : byte := byte_of_ascii (pretty_N_char x).
Lemma list_byte_String c s : list_byte_of_string (String c s) = byte_of_ascii c :: list_byte_of_string s.
Proof. done. Qed.
Lemma ascii_digit_value x : (x < 10)%N → hex_value (ascii_digit x) = Some (Z.of_N x) ∧ ascii_digit x ≠ ch_sep ∧
  (x ≠ 0%N → ascii_digit x ∈ [x31; x32; x33; x34; x35; x36; x37; x38; x39]).
Proof.
  intros H. assert (x = 0 ∨ x = 1 ∨ x = 2 ∨ x = 3 ∨ x = 4 ∨ x = 5 ∨ x = 6 ∨ x = 7 ∨ x = 8 ∨ x = 9)%N as Hx by lia.
  repeat (destruct Hx as [->|Hx]; [split_and!; [done|done|intros; by apply (bool_decide_unpack _)]|]); subst.
  split_and!; [done|done|intros; by apply (bool_decide_unpack _)].
Qed.

Lemma scan_pretty_go x : ∃ k, 0 ≤ k ∧ ((0 < x)%N → 0 < k) ∧ ∀ s prev c,
  scan_digits 10 (list_byte_of_string (pretty_N_go x s)) prev false c 0 =
  scan_digits 10 (list_byte_of_string s) (if decide (x = 0)%N then prev else ch_zero) false (c + k) (Z.of_N x).
Proof.
  induction (N.lt_wf_0 x) as [x _ IH]. destruct (decide (x = 0)%N) as [->|Hx].
  { exists 0. split_and!; [done|lia|]. intros s prev c. by rewrite pretty_N_go_0, Z.add_0_r. }
  destruct (IH (x `div` 10)%N (N.div_lt x 10 ltac:(lia) ltac:(lia))) as (k & Hk & _ & E).
  exists (k + 1). split_and!; [lia|lia|]. intros s prev c.
  rewrite pretty_N_go_step by lia. rewrite E, list_byte_String. cbn [scan_digits].
  assert (x `mod` 10 < 10)%N as Hm by (apply N.mod_lt; lia).
  destruct (ascii_digit_value _ Hm) as (Hv & Hs & _). unfold ascii_digit in *.
  rewrite (bool_decide_false (_ = ch_sep)) by done. rewrite Hv. cbn [mbind option_bind].
  rewrite bool_decide_false by lia. f_equal; [lia|].
  rewrite N2Z.inj_div, N2Z.inj_mod. change (Z.of_N 10) with 10. pose proof (Z.div_mod (Z.of_N x) 10 ltac:(lia)). lia.
Qed.
Lemma pretty_go_head x : (0 < x)%N → ∀ s, ∃ y rest, (0 < y < 10)%N ∧
  list_byte_of_string (pretty_N_go x s) = ascii_digit y :: rest.
Proof.
  induction (N.lt_wf_0 x) as [x _ IH]. intros Hx s. rewrite pretty_N_go_step by done.
  destruct (decide (x < 10)%N) as [Hlt|].
  - rewrite N.div_small, N.mod_small, pretty_N_go_0 by done. exists x. eexists. split; [lia|done].
  - apply IH; [apply N.div_lt; lia|]. apply N.div_str_pos. lia.
Qed.
Lemma scan_nat_head (b : byte) s : b ∈ [x31; x32; x33; x34; x35; x36; x37; x38; x39] →
  scan_nat (b :: s) = scan_end false (scan_digits 10 (b :: s) ch_dot false 0 0) ∧ b ≠ x2d ∧ b ≠ x2b.
Proof. intros H. repeat (apply elem_of_cons in H as [->|H]; [by split_and!|]). by apply not_elem_of_nil in H. Qed.

(** Every number is read back from its decimal text. *)
Lemma SetString0_pretty (z : Z) : 0 ≤ z → SetString0 (pretty z) = Some z.
Proof.
  intros Hz. destruct (decide (z = 0)) as [->|Hne]; [done|].
  destruct z as [|p|p]; [done| |lia]. change (pretty (Z.pos p)) with (pretty (N.pos p)).
  unfold SetString0, pretty, pretty_N. rewrite decide_False by done.
  destruct (scan_pretty_go (N.pos p)) as (k & _ & Hk & E). specialize (E "" ch_dot 0).
  destruct (pretty_go_head (N.pos p) ltac:(lia) "") as (y & rest & Hy & Eh). rewrite Eh in *.
  destruct (ascii_digit_value y ltac:(lia)) as (_ & _ & Hin). specialize (Hin ltac:(lia)).
  destruct (scan_nat_head _ rest Hin) as (Es & Hm & Hp).
  assert (scan_nat (ascii_digit y :: rest) = Some (Z.pos p)) as H.
  { rewrite Es, E, decide_False by done. cbn [list_byte_of_string scan_digits scan_end mbind option_bind]. cbn.
    specialize (Hk ltac:(lia)). by rewrite !bool_decide_false by (done || lia). }
  destruct (ascii_digit y); done.
Qed.

(** ** What the claim endpoints answer *)
Section Answers.
Context {K : Keccak} {C : Type} {Lru : LruCache C} (s : bridgeService).

Lemma length_BytesToHash b : length (BytesToHash b) = 32%nat.
Proof. unfold BytesToHash. rewrite length_app, length_replicate, length_drop. lia. Qed.
Lemma on_storage_inv {A} (m : M database A) (st : C * database) a st' :
  on_storage m st = (Ok a, st') → ∃ db', m st.2 = (Ok a, db') ∧ st' = (st.1, db').
Proof. unfold on_storage, zoom. destruct (m st.2) as [r db']. intros [= -> <-]. eauto. Qed.

(** Two exit roots of 32 bytes. *)
Definition two_hashes (g : GlobalExitRoot) : Prop :=
  ∃ r0 r1, ger_ExitRoots g = [r0; r1] ∧ length r0 = 32%nat ∧ length r1 = 32%nat.

Lemma scan_roots_shape g l : scan_roots g = Ok l → ∃ r0 r1, l = [r0; r1] ∧ length r0 = 32%nat ∧ length r1 = 32%nat.
Proof.
  unfold scan_roots. destruct (at_index _ 0); [|done..]. destruct (at_index _ 1); [|done..].
  intros [= <-]. eexists _, _. split_and!; [done|apply length_BytesToHash..].
Qed.
Lemma l1_root_shape o db g db' : l1_root o db = (Ok g, db') → two_hashes g.
Proof.
  intros H. unfold l1_root in H. inv_bind H. inv_bind H1. apply lift_res_inv in H as [H ->].
  injection H2 as <- <-. by apply scan_roots_shape in H.
Qed.
Lemma GetLatestExitRoot_shape net dest tx db g db' : GetLatestExitRoot net dest tx db = (Ok g, db') → two_hashes g.
Proof.
  unfold GetLatestExitRoot. case_bool_decide; intros H1.
  - unfold GetLatestTrustedExitRoot in H1. apply M_bind_inv in H1 as (g0 & db1 & _ & H1). revert H1. cbn zeta.
    case_bool_decide; intros (x & db2 & E1 & E2)%M_bind_inv; injection E2 as <- <-.
    + apply lift_res_inv in E1 as [E1 ->]. by apply scan_roots_shape in E1.
    + apply not_found_ok in E1. unfold GetL1ExitRootByGER in E1. apply M_bind_inv in E1 as (o & db3 & _ & E1).
      by apply l1_root_shape in E1.
  - unfold GetLatestL1SyncedExitRoot in H1. inv_bind H1. by apply l1_root_shape in H2.
Qed.

(** A proof of one hash for each level. *)
Definition proof_shape (proof : list bytes) : Prop :=
  length proof = Z.to_nat (bs_height s) ∧ hashes32 proof.

Lemma getNode_shape h tx st l r st' : getNode h tx st = (Ok (l, r), st') → length l = 32%nat ∧ length r = 32%nat.
Proof.
  unfold getNode. destruct st as [c db]. destruct (lru_Get h c) as [[v|] c1].
  - destruct (at_index v 0); [|done..]. destruct (at_index v 1); [|done..]. intros [= <- <- _].
    unfold hash_of. by rewrite !length_go_copy.
  - destruct (Get h tx db) as [[v| |] db1]; [|done..].
    destruct (at_index v 0); [|done..]. destruct (at_index v 1); [|done..]. intros [= <- <- _].
    unfold hash_of. by rewrite !length_go_copy.
Qed.
Lemma getProof_loop_shape tx hs : ∀ i cur acc st l st', getProof_loop hs i cur acc tx st = (Ok l, st') →
  hashes32 acc → length l = (length acc + length hs)%nat ∧ hashes32 l.
Proof.
  induction hs as [|h hs IH]; intros i cur acc st l st' H Hacc; cbn [getProof_loop] in H.
  { injection H as <- <-. cbn. split; [lia|done]. }
  inv_bind H. destruct a as [lft rgt]. apply M_map_err_inv, getNode_shape in H0 as [Hl Hr].
  cbn [length]. destruct (bit_set i h);
    (eapply IH in H1 as [H1 ?]; [split; [rewrite H1, length_app; cbn; lia|done]|];
     apply Forall_app; by rewrite Forall_singleton).
Qed.
Lemma getProof_shape i root tx st proof st' : 1 ≤ bs_height s ≤ 64 →
  BridgeService.getProof s i root tx st = (Ok proof, st') → proof_shape proof.
Proof.
  intros Hh H. unfold BridgeService.getProof in H. inv_bind H. injection H1 as <- <-.
  apply getProof_loop_shape in H0 as [Hl Ha]; [|constructor].
  rewrite levels_spec, length_fmap, length_rev, length_seq in Hl by done. split; rewrite invert_rev.
  - by rewrite length_rev.
  - by apply Forall_rev.
Qed.
Lemma getRollupExitProof_shape i root tx (st : C * database) proof leaf st' : 0 ≤ i < 2 ^ 32 - 1 → 1 ≤ bs_height s ≤ 64 →
  getRollupExitProof s i root tx st = (Ok (proof, leaf), st') → proof_shape proof.
Proof.
  intros Hi Hh H. unfold getRollupExitProof in H. apply M_bind_inv in H as (ls & st1 & _ & H). cbn zeta in H.
  apply M_bind_inv in H as ([sib r] & st2 & E%lift_res_inv & H). destruct E as [E ->].
  apply ComputeSiblings_path in E as ->; [|done..].
  destruct (bool_decide (root ≠ r)); [done|]. destruct (_ || _); [done|]. destruct (bool_decide _); [done|].
  apply M_bind_inv in H as (x & st3 & _ & [= <- _ _]). split.
  - unfold path_siblings. by rewrite length_fmap, length_seq.
  - apply Forall_fmap, Forall_forall. intros h _. unfold compose, path_sibling. apply length_node.
    apply Forall_fmap, Forall_forall. intros y _. unfold compose, hash_of. by rewrite length_go_copy.
Qed.

(** The answer of [GetClaimProof] fills the arrays of a claim. *)
Lemma GetClaimProof_shape cnt net tx st g proof rollup st' : bs_height s = 32 → is_uint32 net →
  GetClaimProof s cnt net tx st = (Ok (g, proof, rollup), st') →
  two_hashes g ∧ proof_shape proof ∧ proof_shape rollup.
Proof.
  intros Hh Hn H. unfold GetClaimProof in H. apply M_bind_inv in H as (d & st1 & _ & H). destruct (negb _); [done|].
  apply M_bind_inv in H as (g' & st2 & (db & Hg%GetLatestExitRoot_shape & _)%on_storage_inv & H).
  apply M_bind_inv in H as ([mp rp] & st3 & H & [= -> -> -> _]). split; [done|]. clear Hg.
  unfold claim_proofs in H. case_bool_decide as Hz; apply M_bind_inv in H as (r & st4 & _ & H).
  - apply M_bind_inv in H as (mp & st5 & Hp%M_map_err_inv & [= <- <- _]). apply getProof_shape in Hp; [|lia].
    split; [done|]. split; [by rewrite Hh|]. by apply (bool_decide_unpack _).
  - apply M_bind_inv in H as ([rmp leaf] & st5 & Hr%M_map_err_inv & H).
    apply M_bind_inv in H as (mp & st6 & Hp%M_map_err_inv & [= <- <- _]). apply getProof_shape in Hp; [|lia].
    apply getRollupExitProof_shape in Hr; [done| |lia].
    unfold in_width in Hn. unfold wrap32. rewrite wrap_id; unfold in_width; lia.
Qed.
End Answers.

(** ** The laws of the codecs *)

(** Texts of go-ethereum are read back. *)
Class CommonOk `{!Common} : Prop := {
  HexToAddress_Hex a : length a = 20%nat → HexToAddress (Address_Hex a) = a;
  HexToHash_String h : length h = 32%nat → HexToHash (Hash_String h) = h;
  HexToHash_encode h : length h = 32%nat → HexToHash (EncodeToHex h) = h;
  FromHex_encode b : FromHex (EncodeToHex b) = b;
}.

(** ** The arguments of a claim *)
Section Arguments.
Context {K : Keccak} {Com : Common} {ComOk : CommonOk}.

(** A stored deposit has addresses of 20 bytes, an amount and a network. *)
Definition dep_typed (d : Deposit) : Prop :=
  length (dep_OriginalAddress d) = 20%nat ∧ length (dep_DestinationAddress d) = 20%nat ∧
  0 ≤ dep_Amount d ∧ is_uint32 (dep_NetworkID d).
#[global] Instance dep_typed_dec d : Decision (dep_typed d).
Proof. unfold dep_typed. apply _. Defined.

(** The arguments of the manager: there both numbers are always given. *)
Definition to_claim_args (a : auto_claim_args) : option claim_args :=
  globalIndex ← aa_globalIndex a;
  amount ← aa_amount a;
  Some (mk_claim_args (aa_smtProof a) (aa_smtRollupProof a) globalIndex (aa_mainnetExitRoot a)
    (aa_rollupExitRoot a) (aa_originNetwork a) (aa_originAddress a) (aa_destinationNetwork a)
    (aa_destinationAddress a) amount (aa_metadata a)).
(** What [BuildSendClaim] asks of the contract, given the arguments. *)
Definition build_with {E} `{BridgeContract E} (leafType : Z) (ca : claim_args) : M E (option (option bytes * bytes)) :=
  let failed := ErrorfV "failed to build SendClaim tx, err: %v" in
  if bool_decide (leafType = LeafTypeAsset) then map_err failed (claim ← ClaimAsset ca; mret (Some claim))
  else if bool_decide (leafType = LeafTypeMessage) then map_err failed (claim ← ClaimMessage ca; mret (Some claim))
  else mret None.

Lemma proof_strings_full rp : ∀ mp pre, length mp = length rp →
  proof_strings mp (pre ++ rp) (Z.of_nat (length pre)) = Ok (EncodeToHex <$> mp, EncodeToHex <$> rp).
Proof.
  induction rp as [|r rp IH]; intros [|m mp] pre Hl; try done. cbn [proof_strings].
  rewrite at_index_nat, list_lookup_middle by done. cbn [mbind res_bind].
  specialize (IH mp (pre ++ [r]) ltac:(cbn in Hl; lia)). rewrite length_app, <- app_assoc in IH. cbn [app length] in IH.
  replace (Z.of_nat (length pre) + 1) with (Z.of_nat (length pre + 1)) by lia. by rewrite IH.
Qed.
Lemma fill_proofs_full rp : ∀ mp pre1 pre2 z1 z2, hashes32 mp → hashes32 rp →
  length mp = length rp → length z1 = length rp → length z2 = length rp →
  length pre1 = length pre2 → (length pre1 + length rp)%nat = MtHeight →
  fill_proofs (length pre1) (EncodeToHex <$> mp) (EncodeToHex <$> pre2 ++ rp) (pre1 ++ z1) (pre2 ++ z2) =
    Ok (pre1 ++ mp, pre2 ++ rp).
Proof.
  induction rp as [|r rp IH]; intros [|m mp] pre1 pre2 [|y1 z1] [|y2 z2] Hm Hr H1 H2 H3 Hp Hlen; try done.
  cbn [fill_proofs fmap list_fmap]. cbn [length] in *. rewrite bool_decide_false by lia.
  rewrite at_index_nat, fmap_app, lookup_app_r by (rewrite length_fmap; lia).
  rewrite length_fmap, Hp, Nat.sub_diag. cbn [fmap list_fmap lookup list_lookup mbind res_bind].
  apply Forall_cons in Hm as [Hm ?], Hr as [Hr ?]. rewrite !HexToHash_encode by done.
  rewrite !insert_app_r_alt by lia. rewrite Hp, !Nat.sub_diag. cbn [insert list_insert].
  specialize (IH mp (pre1 ++ [m]) (pre2 ++ [r]) z1 z2). rewrite !length_app, <- !app_assoc in IH. cbn [app length] in IH.
  rewrite fmap_app in IH. cbn [fmap list_fmap] in IH. rewrite Nat.add_1_r in IH. rewrite Hp in IH. apply IH; (done || lia).
Qed.

(** The arguments read from the answers are those the manager takes from the
    tables. *)
Lemma bridge_args_same d h b g mp rp r0 r1 p : dep_typed d →
  ger_ExitRoots g = [r0; r1] → length r0 = 32%nat → length r1 = 32%nat →
  length mp = MtHeight → length rp = MtHeight → hashes32 mp → hashes32 rp →
  to_pb_Deposit d h = Ok b → proof_response g mp rp = Ok p →
  ∃ args ca, bridge_args b (HexToHash (pp_MainExitRoot p)) (HexToHash (pp_RollupExitRoot p)) p = Ok args ∧
    to_claim_args args = Some ca ∧ pd_LeafType b = dep_LeafType d ∧
    ∀ E (BC : BridgeContract E), BuildSendClaim (E := E) d mp rp r0 r1 = build_with (dep_LeafType d) ca.
Proof.
  intros (Ho & Hd & Ha & _) Hg H0 H1 Hm Hr Hhm Hhr Hb Hp.
  unfold proof_response in Hp. rewrite bool_decide_false in Hp by (cbn; lia).
  pose proof (proof_strings_full rp mp [] ltac:(lia)) as Hs. cbn [app length] in Hs. change (Z.of_nat 0) with 0 in Hs.
  rewrite Hs, Hg in Hp. cbn [mbind res_bind] in Hp. rewrite at_index_0, at_index_1 in Hp. injection Hp as <-.
  unfold to_pb_Deposit in Hb. cbn zeta in Hb. destruct (GenerateGlobalIndex _ _ _) as [gi| |] eqn:Egi; [|done..].
  cbn [mbind res_bind] in Hb. injection Hb as <-.
  assert (0 ≤ gi) as Hgi.
  { unfold GenerateGlobalIndex in Egi. destruct (if bool_decide _ then _ else _); [|done..].
    cbn [mbind res_bind] in Egi. destruct (FillBytes _ _); [|done..]. injection Egi as <-. apply be_value_range. }
  pose proof (fill_proofs_full rp mp [] [] (replicate MtHeight zero_hash) (replicate MtHeight zero_hash)
    Hhm Hhr ltac:(lia) ltac:(by rewrite length_replicate) ltac:(by rewrite length_replicate) eq_refl ltac:(done)) as Hf.
  unfold bridge_args, proof_arrays. cbn [pp_MerkleProof pp_RollupMerkleProof pp_MainExitRoot pp_RollupExitRoot
    pd_GlobalIndex pd_OrigNet pd_OrigAddr pd_DestNet pd_DestAddr pd_Amount pd_Metadata pd_LeafType].
  cbn [app length] in Hf. rewrite Hf. cbn [mbind res_bind].
  rewrite !SetString0_pretty, !HexToAddress_Hex, !HexToHash_String, FromHex_encode by done.
  eexists _, _. split_and!; [done|done|done|]. intros E BC. unfold BuildSendClaim. rewrite Egi. done.
Qed.
End Arguments.

(** ** A pass, served by the bridge service *)

(** The REST interface as the service answers it: the two endpoints, with the
    default limit and the offset 0 where the request does not give them; an empty
    body is no message. *)
Class RestServer {K : Keccak} {Abi : TokenAbi} {C : Type} {Lru : LruCache C} {Com : Common} {PJ : ProtoJson}
    {E : Type} {Http : HttpClient E} (s : bridgeService) (cfg : AutoClaimConfig) (service : E → C * database) : Prop := {
  served_proof b e res e' body : http_Get (proof_url cfg b) e = (Ok res, e') →
    hr_StatusCode res = StatusOK → hr_Body res = Ok body →
    ∃ p, GetProof s (pd_DepositCnt b) (pd_NetworkId b) (service e) = (Ok p, service e') ∧
      Unmarshal_GetProofResponse body = Ok (Some p);
  served_pending leafType addr e res e' body : http_Get (pending_url cfg leafType addr) e = (Ok res, e') →
    hr_StatusCode res = StatusOK → hr_Body res = Ok body →
    ∃ ds, GetPendingBridgesToClaim s (Address_Hex addr) (au_NetworkID cfg) leafType 0 0 (service e) = (Ok ds, service e') ∧
      Unmarshal_GetBridgesResponse body = Ok ds;
  unmarshal_empty : is_ok (Unmarshal_GetBridgesResponse "") = false;
}.
(** The claims that were sent, whatever became of them. *)
Class ClaimLog {E : Type} {Http : HttpClient E} {Contracts : ClaimContracts E} (sent : E → list (Z * auto_claim_args)) : Prop := {
  http_sends_nothing r e x e' : http_Do r e = (x, e') → sent e' = sent e;
  ClaimAsset_sent args e r e' : bind_ClaimAsset false args e = (r, e') → sent e' = sent e ++ [(LeafTypeAsset, args)];
  ClaimMessage_sent args e r e' : bind_ClaimMessage false args e = (r, e') → sent e' = sent e ++ [(LeafTypeMessage, args)];
}.

Section Pass.
Context {K : Keccak} {Abi : TokenAbi} {C : Type} {Lru : LruCache C} {Com : Common} {ComOk : CommonOk} {PJ : ProtoJson}.
Context {E : Type} {Http : HttpClient E} {Contracts : ClaimContracts E}.
Context (s : bridgeService) (cfg : AutoClaimConfig) (service : E → C * database) (sent : E → list (Z * auto_claim_args)).
Context {Rest : RestServer s cfg service} {Log : ClaimLog sent}.

(** The tables of the service in the states of the environment. *)
Definition served_tables (e : E) : tables := db_committed (service e).2.
(** No request changes the tables while the pass runs: they are [t]. *)
Context (Hquiet : ∀ r e x e', http_Do r e = (x, e') → served_tables e' = served_tables e) (t : tables).

(** A stored deposit that this service may claim: it waits on its network, and is
    an asset or a message to an authorised address. *)
Definition pending_here (d : Deposit) : Prop := ∃ leafType addr row,
  (leafType = LeafTypeAsset ∧ addr = zero_address ∨
   leafType = LeafTypeMessage ∧ addr ∈ au_AuthorizedClaimMessageAddresses cfg) ∧
  row ∈ pending_to_claim addr (au_NetworkID cfg) leafType t ∧
  d = scan_deposit (dep_BlockNumber d) zero_time zero_address (dr_dep row).
(** The claim of a deposit as the claim transaction manager builds it from the
    proofs and the exit roots that the service computed for it from the tables. *)
Definition managers_claim (d : Deposit) (args : auto_claim_args) : Prop :=
  ∃ ei st' g mp rp r0 r1 ca, served_tables ei = t ∧
    GetClaimProof s (dep_DepositCount d) (dep_NetworkID d) nil_tx (service ei) = (Ok (g, mp, rp), st') ∧
    ger_ExitRoots g = [r0; r1] ∧ to_claim_args args = Some ca ∧
    ∀ E' (BC : BridgeContract E'), BuildSendClaim (E := E') d mp rp r0 r1 = build_with (dep_LeafType d) ca.
Definition from_deposit (b : pb_Deposit) : Prop :=
  ∃ d, to_pb_Deposit d [] = Ok b ∧ dep_typed d ∧ pending_here d.
Definition claim_of (b : pb_Deposit) (claim : Z * auto_claim_args) : Prop :=
  ∃ d, to_pb_Deposit d [] = Ok b ∧ pending_here d ∧ claim.1 = dep_LeafType d ∧ managers_claim d claim.2.

Lemma http_Get_tables url e x e' : http_Get url e = (x, e') → served_tables e' = served_tables e.
Proof.
  unfold http_Get, lift_res, NewRequest. destruct (check_request _ _); cbn; [by intros [= _ ->]|]. apply Hquiet.
Qed.
Lemma http_Get_sent url e x e' : http_Get url e = (x, e') → sent e' = sent e.
Proof.
  unfold http_Get, lift_res, NewRequest. destruct (check_request _ _); cbn; [by intros [= _ ->]|].
  apply http_sends_nothing.
Qed.

Lemma pending_served leafType addr e bs n e' : length addr = 20%nat →
  getPendingBridges cfg leafType addr e = (Ok (bs, n), e') →
  served_tables e = t →
  sent e' = sent e ∧ served_tables e' = t ∧ ∀ b, b ∈ bs → ∃ d row, to_pb_Deposit d [] = Ok b ∧
    row ∈ pending_to_claim addr (au_NetworkID cfg) leafType t ∧
    d = scan_deposit (dep_BlockNumber d) zero_time zero_address (dr_dep row).
Proof.
  intros Ha H Ht. unfold getPendingBridges in H. apply M_bind_inv in H as (res & e1 & Hget & H).
  pose proof (http_Get_sent _ _ _ _ Hget) as Hs. pose proof (http_Get_tables _ _ _ _ Hget) as Hs'. apply M_bind_inv in H as (body & e2 & Hb & H).
  apply lift_res_inv in H as [Hu ->]. revert Hb. case_bool_decide as Hst.
  2: { intros [= <- <-]. pose proof unmarshal_empty as Hem. by rewrite Hu in Hem. }
  intros [Hb ->]%lift_res_inv. split; [done|]. split; [congruence|].
  destruct (served_pending _ _ _ _ _ _ Hget Hst Hb) as (ds & Hp & Hu'). rewrite Hu in Hu'. injection Hu' as <-.
  unfold GetPendingBridgesToClaim in Hp.
  apply M_bind_inv in Hp as ([deps total] & st1 & (db1 & Hq & ->)%on_storage_inv & Hp).
  apply M_bind_inv in Hp as (pbs & st2 & Heach & [= <- _ _]). rewrite HexToAddress_Hex in Hq by done.
  unfold GetPendingDepositsToClaim in Hq. apply M_bind_inv in Hq as (cnt & db2 & Hq1 & Hq).
  apply M_bind_inv in Hq as (deps' & db3 & Hq2 & [= <- _ _]).
  apply select_ok in Hq1 as (_ & Hv & _). apply query_rows in Hq2 as [k Hd]. rewrite Hv in Hd.
  change (view nil_tx (service e).2) with (served_tables e) in Hd. rewrite Ht in Hd.
  intros b Hin.
  assert (∃ d, d ∈ deps' ∧ to_pb_Deposit d [] = Ok b) as (d & Hdin & Hdb).
  { clear Hd Hu. revert st2 Hin Heach. generalize ((service e).1, db1). revert pbs.
    induction deps' as [|d deps' IH]; intros pbs st0 st2 Hin Heach; cbn in Heach.
    - injection Heach as <- _. by apply not_elem_of_nil in Hin.
    - apply M_bind_inv in Heach as (y & st3 & [Hy ->]%lift_res_inv & Heach).
      apply M_bind_inv in Heach as (ys & st4 & Heach & [= <- _]). apply elem_of_cons in Hin as [->|Hin].
      + exists d. split; [by left|done].
      + destruct (IH _ _ _ Hin Heach) as (d' & ? & ?). exists d'. split; [by right|done]. }
  rewrite Hd in Hdin. apply (subseteq_take k) in Hdin. apply elem_of_page, elem_of_order_asc, list_elem_of_omap in Hdin as (row & Hrow & Hj).
  exists d, row. split_and!; [done|exact Hrow|]. unfold join_num_by_id in Hj.
  destruct (head _) as [blk|]; [|done]. injection Hj as <-. done.
Qed.
(** The deposits of the service are typed, and so are the authorised addresses. *)
Context (Hrows : Forall (λ r, dep_typed (dr_dep r)) (t_deposit t)).
Context (Haddrs : Forall (λ a, length a = 20%nat) (au_AuthorizedClaimMessageAddresses cfg)).
Context (Hheight : bs_height s = 32).

Lemma pending_deposits leafType addr e bs n e' : length addr = 20%nat →
  leafType = LeafTypeAsset ∧ addr = zero_address ∨ leafType = LeafTypeMessage ∧ addr ∈ au_AuthorizedClaimMessageAddresses cfg →
  getPendingBridges cfg leafType addr e = (Ok (bs, n), e') → served_tables e = t →
  sent e' = sent e ∧ served_tables e' = t ∧ Forall from_deposit bs.
Proof.
  intros Ha Hleaf H Ht. apply pending_served in H as (Hs & Ht' & H); [|done..]. split; [done|]. split; [done|].
  apply Forall_forall. intros b Hb. destruct (H b Hb) as (d & row & Hd & Hin & Hscan). exists d.
  split; [done|]. split; [|by exists leafType, addr, row].
  unfold pending_to_claim in Hin. apply list_elem_of_filter in Hin as (_ & Hin).
  rewrite Forall_forall in Hrows. specialize (Hrows _ Hin). by rewrite Hscan.
Qed.
Lemma authorized_deposits addrs : ∀ bridges e bs e', addrs ⊆ au_AuthorizedClaimMessageAddresses cfg →
  authorized_bridges cfg addrs bridges e = (Ok bs, e') → Forall from_deposit bridges → served_tables e = t →
  sent e' = sent e ∧ served_tables e' = t ∧ Forall from_deposit bs.
Proof.
  induction addrs as [|addr addrs IH]; intros bridges e bs e' Hsub H Hb Ht; cbn [authorized_bridges] in H.
  { injection H as <- <-. done. }
  apply M_bind_inv in H as ([more n] & e1 & H1 & H).
  assert (addr ∈ au_AuthorizedClaimMessageAddresses cfg) as Hin by (apply Hsub; by left).
  rewrite Forall_forall in Haddrs. apply pending_deposits in H1 as (Hs1 & Ht1 & H1); [|by auto|by right|done].
  apply IH in H as (Hs2 & Ht2 & H); [by rewrite Hs2| |by apply Forall_app|done]. intros x Hx. apply Hsub. by right.
Qed.
Lemma bridges_deposits e bs e' : getBridgesToClaim cfg e = (Ok bs, e') → served_tables e = t →
  sent e' = sent e ∧ served_tables e' = t ∧ Forall from_deposit bs.
Proof.
  intros H Ht. unfold getBridgesToClaim in H. apply M_bind_inv in H as ([bridges n] & e1 & H1 & H).
  apply pending_deposits in H1 as (Hs1 & Ht1 & H1); [|done|by left|done].
  apply authorized_deposits in H as (Hs2 & Ht2 & H); [by rewrite Hs2|done|done|done].
Qed.

(** What a proof that was asked for holds. *)
Definition proof_for (b : pb_Deposit) (proof : option pb_Proof) : Prop :=
  ∃ p ei st' g mp rp, proof = Some p ∧ served_tables ei = t ∧
    GetClaimProof s (pd_DepositCnt b) (pd_NetworkId b) nil_tx (service ei) = (Ok (g, mp, rp), st') ∧
    proof_response g mp rp = Ok p.
Lemma getProof_served b e proof e' : getProof cfg b e = (Ok proof, e') → served_tables e = t →
  sent e' = sent e ∧ served_tables e' = t ∧ proof_for b proof.
Proof.
  intros H Ht. unfold getProof in H. apply M_bind_inv in H as (res & e1 & Hget & H).
  pose proof (http_Get_sent _ _ _ _ Hget) as Hs. pose proof (http_Get_tables _ _ _ _ Hget) as Ht1.
  apply M_bind_inv in H as (body & e2 & Hb & H).
  apply lift_res_inv in H as [Hu ->]. unfold read_OK in Hb. revert Hb. case_bool_decide as Hst; [|done].
  intros [Hb ->]%lift_res_inv. split; [done|]. split; [congruence|].
  destruct (served_proof _ _ _ _ _ Hget Hst Hb) as (p & Hp & Hu').
  rewrite Hu in Hu'. injection Hu' as ->. unfold GetProof in Hp.
  apply M_bind_inv in Hp as ([[g mp] rp] & st & Hc & [Hr _]%lift_res_inv). by exists p, e, st, g, mp, rp.
Qed.
Lemma get_proofs_served bridges : ∀ e proofs e', get_proofs cfg bridges e = (Ok proofs, e') → served_tables e = t →
  sent e' = sent e ∧ Forall2 proof_for bridges proofs.
Proof.
  induction bridges as [|b bridges IH]; intros e proofs e' H Ht; cbn [get_proofs] in H.
  { injection H as <- <-. done. }
  apply M_bind_inv in H as (proof & e1 & Hp & H). apply getProof_served in Hp as (Hs1 & Ht1 & H1); [|done].
  apply M_bind_inv in H as (rest & e2 & Hr & [= <- <-]). apply IH in Hr as [Hs2 H2]; [|done]. split; [congruence|by constructor].
Qed.

Lemma pending_leaf d : pending_here d → dep_LeafType d = LeafTypeAsset ∨ dep_LeafType d = LeafTypeMessage.
Proof.
  intros (leafType & addr & row & Hl & Hin & ->). unfold pending_to_claim in Hin.
  apply list_elem_of_filter in Hin as [(_ & _ & Hleaf & _) _]. cbn. rewrite Hleaf. destruct Hl as [[-> _]|[-> _]]; auto.
Qed.
Lemma claim_bridge_sends b proof e e' : from_deposit b → proof_for b proof →
  claim_bridge b proof e = (Ok tt, e') → ∃ claim, sent e' = sent e ++ [claim] ∧ claim_of b claim.
Proof.
  intros (d & Hd & Htd & Hcl) (p & ei & st' & g & mp & rp & -> & Hei & Hp & Hr) H.
  assert (pd_DepositCnt b = dep_DepositCount d ∧ pd_NetworkId b = dep_NetworkID d) as [Hc Hn].
  { unfold to_pb_Deposit in Hd. cbn zeta in Hd. destruct (GenerateGlobalIndex _ _ _); [|done..]. by injection Hd as <-. }
  rewrite Hc, Hn in Hp. pose proof Htd as (_ & _ & _ & Hnet).
  destruct (GetClaimProof_shape s _ _ _ _ _ _ _ _ Hheight Hnet Hp) as ((r0 & r1 & Hg & H0 & H1) & [Hl1 Ha1] & [Hl2 Ha2]).
  rewrite Hheight in Hl1, Hl2.
  destruct (bridge_args_same d [] b g mp rp r0 r1 p Htd Hg H0 H1 Hl1 Hl2 Ha1 Ha2 Hd Hr)
    as (args & ca & Hargs & Hca & Hleaf & Hbuild).
  unfold claim_bridge in H. apply M_bind_inv in H as (p' & e1 & [Hp' ->]%lift_res_inv & H). injection Hp' as <-.
  rewrite Hargs in H. apply M_bind_inv in H as (args' & e2 & [Ha ->]%lift_res_inv & H). injection Ha as <-.
  assert (sent e' = sent e ++ [(dep_LeafType d, args)]) as Hsent.
  { apply M_bind_inv in H as (r & e3 & Hs & H). assert (e' = e3) as ->.
    { destruct r as [[tx|]|err]; [by injection H|done|by injection H]. }
    unfold attempt, SendClaim, call_claim in Hs. rewrite Hleaf in Hs.
    destruct (pending_leaf _ Hcl) as [Ht|Ht]; rewrite Ht in *.
    - rewrite bool_decide_true in Hs by done. unfold mbind, M_bind in Hs.
      destruct (bind_ClaimAsset false args e) as [rr e4] eqn:Eb. apply ClaimAsset_sent in Eb.
      destruct rr; [|injection Hs as _ <-..|done]; [injection Hs as _ <-|]; done.
    - rewrite bool_decide_false, bool_decide_true in Hs by done. unfold mbind, M_bind in Hs.
      destruct (bind_ClaimMessage false args e) as [rr e4] eqn:Eb. apply ClaimMessage_sent in Eb.
      destruct rr; [|injection Hs as _ <-..|done]; [injection Hs as _ <-|]; done. }
  exists (dep_LeafType d, args). split; [done|]. exists d. split_and!; [done..|]. by exists ei, st', g, mp, rp, r0, r1, ca.
Qed.
Lemma claim_bridges_send bridges : ∀ proofs e e', Forall from_deposit bridges → Forall2 proof_for bridges proofs →
  for_each (zip bridges proofs) (λ bp, claim_bridge bp.1 bp.2) e = (Ok tt, e') →
  ∃ claims, sent e' = sent e ++ claims ∧ Forall2 claim_of bridges claims.
Proof.
  induction bridges as [|b bridges IH]; intros proofs e e' Hd Hp H.
  { injection H as <-. exists []. by rewrite app_nil_r. }
  apply Forall2_cons_inv_l in Hp as (proof & proofs' & Hp & Hps & ->). apply Forall_cons in Hd as [Hd Hds].
  cbn [zip zip_with for_each] in H. apply M_bind_inv in H as ([] & e1 & H1 & H).
  destruct (claim_bridge_sends _ _ _ _ Hd Hp H1) as (claim & Hs1 & Hc).
  destruct (IH _ _ _ Hds Hps H) as (claims & Hs2 & Hcs). exists (claim :: claims).
  rewrite Hs2, Hs1, <- app_assoc. split; [done|by constructor].
Qed.
End Pass.

(** C34. The auto claim service and the claim transaction manager agree: when a
    pass over single claims, served by the bridge service whose tables stay the same
    during the pass, ends, it has sent one claim for each bridge it was given, in
    their order and whatever became of the claims before.  Each bridge is a stored
    deposit that waits on the network of the service, an asset or a message to an
    authorised address, and its claim has the arguments with which the manager
    builds it from the proofs and the exit roots that the bridge service computes
    for this very deposit from these tables. *)
Theorem claimIndividually_managers_claims {K : Keccak} {Abi : TokenAbi} {Com : Common} {ComOk : CommonOk} {PJ : ProtoJson}
  {C E : Type} {Lru : LruCache C} {Http : HttpClient E} {Contracts : ClaimContracts E}
  (s : bridgeService) (cfg : AutoClaimConfig) (service : E → C * database) (sent : E → list (Z * auto_claim_args))
  (Rest : RestServer s cfg service) (Log : ClaimLog sent) e e'
  (Hquiet : ∀ r e x e', http_Do r e = (x, e') → served_tables service e' = served_tables service e)
  (Hrows : Forall (λ r, dep_typed (dr_dep r)) (t_deposit (served_tables service e)))
  (Haddrs : Forall (λ a, length a = 20%nat) (au_AuthorizedClaimMessageAddresses cfg))
  (Hheight : bs_height s = 32)
  (Hpass : claimIndividually cfg e = (Ok tt, e')) :
  ∃ bridges e1 claims, getBridgesToClaim cfg e = (Ok bridges, e1) ∧
    sent e' = sent e ++ claims ∧ Forall2 (claim_of s cfg service (served_tables service e)) bridges claims.
Proof.
  unfold claimIndividually in Hpass. apply M_bind_inv in Hpass as (bridges & e1 & Hb & Hpass).
  pose proof (bridges_deposits s cfg service sent Hquiet _ Hrows Haddrs _ _ _ Hb eq_refl) as (Hs1 & Ht1 & Hd).
  exists bridges, e1. revert Hpass. case_bool_decide as Hl.
  { intros [= <-]. apply length_zero_iff_nil in Hl as ->. exists []. by rewrite app_nil_r, Hs1. }
  intros (proofs & e2 & Hp & H)%M_bind_inv.
  apply (get_proofs_served s cfg service sent Hquiet (served_tables service e)) in Hp as [Hs2 Hp]; [|exact Ht1]. case_bool_decide; [done|].
  destruct (claim_bridges_send s cfg service sent _ Hheight _ _ _ _ Hd Hp H) as (claims & Hs & Hc).
  exists claims. split_and!; [done|congruence|done].
Qed.

(** ** A pass over groups *)

(** While the groups of a pass are composed, the estimates only depend on the claim. *)
Class SteadyEstimates {E : Type} {Contracts : ClaimContracts E} (ok : Z → auto_claim_args → bool) : Prop := {
  ClaimAsset_estimate args e : ∃ r, bind_ClaimAsset true args e = (r, e) ∧ is_ok r = ok LeafTypeAsset args ∧ ∀ p, r ≠ Panic p;
  ClaimMessage_estimate args e : ∃ r, bind_ClaimMessage true args e = (r, e) ∧ is_ok r = ok LeafTypeMessage args ∧ ∀ p, r ≠ Panic p;
}.
(** What the contracts of the compressor were called with. *)
Inductive group_call : Type :=
| Compress (mainnetExitRoot rollupExitRoot : bytes) (claims : list auto_ClaimCallData)
| Send (data : bytes).
Class GroupLog {E : Type} {Http : HttpClient E} {Contracts : ClaimContracts E} (calls : E → list group_call) : Prop := {
  http_groups_nothing r e x e' : http_Do r e = (x, e') → calls e' = calls e;
  Compress_called m r l e x e' : bind_CompressClaimCall m r l e = (x, e') → calls e' = calls e ++ [Compress m r l];
  Send_called b e x e' : bind_SendCompressedClaims b e = (x, e') → calls e' = calls e ++ [Send b];
}.

Create HintDb asks.
Section Groups.
Context {K : Keccak} {Com : Common} {PJ : ProtoJson} {E : Type} {Http : HttpClient E} {Contracts : ClaimContracts E}.
Context (cfg : AutoClaimConfig) (ok : Z → auto_claim_args → bool) (calls : E → list group_call).
Context {Steady : SteadyEstimates ok} {Log : GroupLog calls}.

(** The claim of a bridge in its group, if it can be claimed: a leaf of another
    type is estimated by no call. *)
Definition can_claim (leafType : Z) (args : auto_claim_args) : bool :=
  if bool_decide (leafType = LeafTypeAsset) || bool_decide (leafType = LeafTypeMessage) then ok leafType args else true.
Definition group_entry (main rollup : bytes) (bp : pb_Deposit * option pb_Proof) : option auto_ClaimCallData :=
  p ← bp.2;
  match bridge_args bp.1 main rollup p with
  | Ok args =>
      if can_claim (pd_LeafType bp.1) args then
        Some (mk_auto_ClaimCallData (aa_smtProof args) (aa_smtRollupProof args) (aa_globalIndex args)
                (aa_originNetwork args) (aa_originAddress args) (aa_destinationAddress args) (aa_amount args)
                (aa_metadata args) (bool_decide (pd_LeafType bp.1 = LeafTypeMessage)))
      else None
  | _ => None
  end.
Definition group_entries (main rollup : bytes) (sb : list (pb_Deposit * option pb_Proof)) : list auto_ClaimCallData :=
  omap (group_entry main rollup) sb.
(** The bridge has a proof, and the arguments of its claim can be read from it. *)
Definition has_args (main rollup : bytes) (bp : pb_Deposit * option pb_Proof) : Prop :=
  ∃ p args, bp.2 = Some p ∧ bridge_args bp.1 main rollup p = Ok args.
(** A group was compressed, and what the compressor answered was sent. *)
Definition group_sent (main rollup : bytes) (sb : list (pb_Deposit * option pb_Proof)) (cs : list group_call) : Prop :=
  ∃ data ea eb, CompressClaimCall main rollup (group_entries main rollup sb) ea = (Ok data, eb) ∧
    cs = [Compress main rollup (group_entries main rollup sb); Send data].

Lemma EstimateGasClaim_steady leaf args e :
  ∃ r, attempt (EstimateGasClaim leaf args) e = (Ok r, e) ∧
    (if r is inl _ then can_claim leaf args = true else can_claim leaf args = false).
Proof.
  unfold attempt, EstimateGasClaim, map_err, call_claim, can_claim.
  destruct (bool_decide (leaf = LeafTypeAsset)) eqn:Ea.
  - apply bool_decide_eq_true in Ea as ->. cbn [orb]. unfold mbind, M_bind.
    destruct (ClaimAsset_estimate args e) as (r & -> & <- & Hp). destruct r as [tx|err|p]; [by eexists..|by destruct (Hp p)].
  - destruct (bool_decide (leaf = LeafTypeMessage)) eqn:Em; [|by eexists]. apply bool_decide_eq_true in Em as ->.
    cbn [orb]. unfold mbind, M_bind.
    destruct (ClaimMessage_estimate args e) as (r & -> & <- & Hp). destruct r as [tx|err|p]; [by eexists..|by destruct (Hp p)].
Qed.
Lemma group_claims_steady main rollup sb : ∀ e l e', group_claims main rollup sb e = (Ok l, e') →
  l = group_entries main rollup sb ∧ e' = e ∧ Forall (has_args main rollup) sb.
Proof.
  induction sb as [|[b proof] sb IH]; intros e l e' H; cbn [group_claims] in H; [by injection H as <- <-|].
  apply M_bind_inv in H as (p & e1 & [Hp ->]%lift_res_inv & H).
  apply M_bind_inv in H as (args & e2 & [Ha ->]%lift_res_inv & H). destruct proof as [p'|]; [|done]. injection Hp as ->.
  destruct (EstimateGasClaim_steady (pd_LeafType b) args e) as (r & Er & Hr). rewrite (M_bind_ok _ _ _ _ _ Er) in H.
  change (group_entries main rollup ((b, Some p) :: sb)) with
    (match group_entry main rollup (b, Some p) with Some x => x :: group_entries main rollup sb | None => group_entries main rollup sb end).
  unfold group_entry at 1. cbn [snd fst mbind option_bind]. rewrite Ha. destruct r; rewrite Hr.
  - apply M_bind_inv in H as (rest & e3 & (-> & -> & Hall)%IH & [= <- <-]). split_and!; [done..|].
    constructor; [by exists p, args|done].
  - apply IH in H as (-> & -> & Hall). split_and!; [done..|]. constructor; [by exists p, args|done].
Qed.
Lemma compress_log main rollup l e data e' : CompressClaimCall main rollup l e = (Ok data, e') →
  calls e' = calls e ++ [Compress main rollup l].
Proof.
  unfold CompressClaimCall, attempt. intros (r & e4 & Hr & Hc)%M_bind_inv.
  assert (e' = e4) as -> by (destruct r; by injection Hc).
  destruct (bind_CompressClaimCall _ _ _ e) as [[x|err|p] e5] eqn:Eb; [..|done]; injection Hr as _ <-;
    by apply Compress_called in Eb.
Qed.
Lemma send_groups_log main rollup groups : ∀ e e', send_groups main rollup groups e = (Ok tt, e') →
  ∃ finished stopped sends, groups = finished ++ stopped ∧ Forall2 (group_sent main rollup) finished sends ∧
    calls e' = calls e ++ concat sends ∧
    Forall (λ sb, Forall (has_args main rollup) sb ∧ group_entries main rollup sb ≠ []) finished ∧
    (stopped = [] ∨ ∃ sb rest, stopped = sb :: rest ∧ Forall (has_args main rollup) sb ∧ group_entries main rollup sb = []).
Proof.
  induction groups as [|sb groups IH]; intros e e' H; cbn [send_groups] in H.
  { injection H as <-. exists [], [], []. split_and!; [done|by apply Forall2_nil|by rewrite app_nil_r|by apply Forall_nil|by left]. }
  apply M_bind_inv in H as (l & e1 & (-> & -> & Hall)%group_claims_steady & H).
  revert H. case_bool_decide as Hl; intros H.
  { injection H as <-. apply length_zero_iff_nil in Hl. exists [], (sb :: groups), [].
    split_and!; [done|by apply Forall2_nil|by rewrite app_nil_r|by apply Forall_nil|]. right. by exists sb, groups. }
  apply M_bind_inv in H as (data & e2 & Hc & H). apply M_bind_inv in H as (tx & e3 & Hs & H).
  apply IH in H as (fin & stopped & sends & -> & Hsent & Hcalls & Hfin & Hstop).
  exists (sb :: fin), stopped, ([Compress main rollup (group_entries main rollup sb); Send data] :: sends).
  split_and!; [done| | | |exact Hstop].
  - constructor; [|done]. by exists data, e, e2.
  - rewrite Hcalls, (Send_called _ _ _ _ Hs), (compress_log _ _ _ _ _ _ Hc). cbn. by rewrite <- !app_assoc.
  - constructor; [|done]. split; [done|]. intros Hnil. by rewrite Hnil in Hl.
Qed.
(** The first group without claims ends the pass. *)
Lemma unclaimable_group_stops main rollup sb groups e :
  Forall (λ bp, ∃ p args, bp.2 = Some p ∧ bridge_args bp.1 main rollup p = Ok args ∧ can_claim (pd_LeafType bp.1) args = false) sb →
  send_groups main rollup (sb :: groups) e = (Ok tt, e).
Proof.
  intros H. cbn [send_groups]. assert (group_claims main rollup sb e = (Ok [], e)) as Hg.
  { induction H as [|[b proof] sb (p & args & Hp & Ha & Hc) _ IH]; [done|]. cbn in Hp, Ha, Hc. subst proof.
    cbn [group_claims]. rewrite (M_bind_ok _ _ e p e) by done. rewrite Ha, (M_bind_ok _ _ e args e) by done.
    destruct (EstimateGasClaim_steady (pd_LeafType b) args e) as (r & Er & Hr). rewrite (M_bind_ok _ _ _ _ _ Er).
    destruct r; [by rewrite Hc in Hr|done]. }
  by rewrite (M_bind_ok _ _ _ _ _ Hg).
Qed.

(** What only asks the REST interface. *)
Definition asks {A} (m : M E A) : Prop := ∀ e r e', m e = (r, e') → calls e' = calls e.
Lemma asks_bind {A B} (m : M E A) (f : A → M E B) : asks m → (∀ a, asks (f a)) → asks (m ≫= f).
Proof.
  intros Hm Hf e r e'. unfold mbind, M_bind. destruct (m e) as [[a|err|p] e1] eqn:Em; [|intros [= _ <-]; by eapply Hm..].
  intros H. apply Hf in H. rewrite H. by eapply Hm.
Qed.
Lemma asks_lift {A} (r : res A) : asks (lift_res r).
Proof. by intros e x e' [= _ <-]. Qed.
Lemma asks_ret {A} (a : A) : asks (mret a).
Proof. by intros e x e' [= _ <-]. Qed.
Lemma asks_throw {A} err : asks (throw (A := A) err).
Proof. by intros e x e' [= _ <-]. Qed.
Lemma asks_http_Get url : asks (http_Get url).
Proof. apply asks_bind; [apply asks_lift|]. intros req e r e'. apply http_groups_nothing. Qed.
#[local] Hint Resolve asks_bind asks_lift asks_ret asks_throw asks_http_Get : asks.
Lemma asks_read_OK res endpoint : asks (read_OK res endpoint).
Proof. unfold read_OK. case_bool_decide; auto with asks. Qed.
#[local] Hint Resolve asks_read_OK : asks.
Lemma asks_getProof b : asks (getProof cfg b).
Proof. unfold getProof. auto 10 with asks. Qed.
Lemma asks_get_proofs_by_ger ger bridges : asks (get_proofs_by_ger cfg ger bridges).
Proof.
  induction bridges as [|b bridges IH]; cbn [get_proofs_by_ger]; [auto with asks|].
  apply asks_bind; [unfold getProofByGER; auto 10 with asks|auto with asks].
Qed.
Lemma asks_getBridgesToClaim : asks (getBridgesToClaim cfg).
Proof.
  assert (∀ leaf addr, asks (getPendingBridges cfg leaf addr)) as Hp.
  { intros leaf addr. unfold getPendingBridges. apply asks_bind; [auto with asks|]. intros res.
    apply asks_bind; [case_bool_decide|]; auto with asks. }
  unfold getBridgesToClaim. apply asks_bind; [apply Hp|]. intros [bs n]. revert bs.
  induction (au_AuthorizedClaimMessageAddresses cfg) as [|addr addrs IH]; intros bs; cbn [authorized_bridges]; [auto with asks|].
  apply asks_bind; [apply Hp|]. by intros [more m].
Qed.
Lemma get_proofs_by_ger_length ger bridges : ∀ e proofs e', get_proofs_by_ger cfg ger bridges e = (Ok proofs, e') →
  length proofs = length bridges.
Proof.
  induction bridges as [|b bridges IH]; intros e proofs e' H; cbn [get_proofs_by_ger] in H; [by injection H as <- <-|].
  apply M_bind_inv in H as (proof & e1 & _ & H). apply M_bind_inv in H as (rest & e2 & H%IH & [= <- <-]). cbn. lia.
Qed.

(** C35. A pass over groups, while the estimates are steady.  The bridges it was
    given, each with its proof - that of the first one asked for alone, the others
    for the global exit root of the first proof - are cut into groups of exactly the
    configured size, in their order; only the last group may be smaller.  Each group
    is reduced to the claims that can be estimated, compressed with the exit roots
    of the first proof, and what the compressor answers is sent - up to the first
    group in which there is no such claim: that group and all after it are not
    sent. *)
Theorem claimGrouped_groups e e' (Hsize : 0 < au_MaxNumberOfClaimsPerGroup cfg)
  (Hpass : claimGrouped cfg e = (Ok tt, e')) :
  ∃ bridges e1, getBridgesToClaim cfg e = (Ok bridges, e1) ∧
    match bridges with
    | [] => calls e' = calls e
    | b :: rest => ∃ p e2 proofs e3 groups finished stopped sends,
        let main := HexToHash (pp_MainExitRoot p) in let rollup := HexToHash (pp_RollupExitRoot p) in
        getProof cfg b e1 = (Ok (Some p), e2) ∧
        get_proofs_by_ger cfg (hash [main; rollup]) rest e2 = (Ok proofs, e3) ∧ length proofs = length rest ∧
        concat groups = zip bridges (Some p :: proofs) ∧
        Forall (λ g, 0 < Z.of_nat (length g) ≤ au_MaxNumberOfClaimsPerGroup cfg) groups ∧
        (∀ i g, groups !! i = Some g → (S i < length groups)%nat → Z.of_nat (length g) = au_MaxNumberOfClaimsPerGroup cfg) ∧
        groups = finished ++ stopped ∧ Forall2 (group_sent main rollup) finished sends ∧
        calls e' = calls e ++ concat sends ∧
        Forall (λ sb, Forall (has_args main rollup) sb ∧ group_entries main rollup sb ≠ []) finished ∧
        (stopped = [] ∨ ∃ sb rest', stopped = sb :: rest' ∧ Forall (has_args main rollup) sb ∧
           group_entries main rollup sb = [])
    end.
Proof.
  unfold claimGrouped in Hpass. apply M_bind_inv in Hpass as (bridges & e1 & Hb & H).
  exists bridges, e1. split; [done|]. apply asks_getBridgesToClaim in Hb. rewrite <- Hb.
  destruct bridges as [|b rest]; [by injection H as <-|].
  apply M_bind_inv in H as (proof & e2 & H2 & H). apply M_bind_inv in H as (p & e3 & [Hp ->]%lift_res_inv & H).
  destruct proof as [p'|]; [|done]. injection Hp as ->. cbn zeta in H.
  apply M_bind_inv in H as (proofs & e4 & H4 & H). pose proof (get_proofs_by_ger_length _ _ _ _ _ H4) as Hl.
  pose proof (asks_getProof _ _ _ _ H2) as Ha2. pose proof (asks_get_proofs_by_ger _ _ _ _ _ H4) as Ha4.
  revert H. case_bool_decide as Hlen; [done|]. intros H.
  assert (length (b :: rest) = length (Some p :: proofs)) as Hbs by (cbn; lia). clear Hlen.
  set (bs := b :: rest) in *. set (ps := Some p :: proofs) in *.
  apply M_bind_inv in H as (sb & e5 & H5 & H). apply M_bind_inv in H as (sp & e6 & H6 & H). unfold splitter in *.
  destruct (arraySplitter _ bs _) as [[cb| |]|] eqn:Eb in H5; [|done..]. injection H5 as <- <-.
  rewrite <- Hbs in H6. destruct (arraySplitter _ ps _) as [[cp| |]|] eqn:Ep in H6; [|done..]. injection H6 as <- <-.
  pose proof (arraySplitter_zip (S (length bs)) bs ps (au_MaxNumberOfClaimsPerGroup cfg) Hbs) as Hz.
  rewrite Eb, Ep in Hz. apply send_groups_log in H as (fin & stopped & sends & Hg & Hsent & Hcalls & Hfin & Hstop).
  destruct (splitter_ok (zip bs ps) (au_MaxNumberOfClaimsPerGroup cfg) (S (length bs))) as (chunks & Ec & Hcat & Hall & Hfull);
    [rewrite length_zip_with; lia|done|]. rewrite Hz in Ec. injection Ec as <-.
  exists p, e2, proofs, e4. eexists _, fin, stopped, sends. cbv zeta.
  split_and!; [exact H2|exact H4|exact Hl|exact Hcat|exact Hall|exact Hfull|exact Hg|exact Hsent| |exact Hfin|exact Hstop].
  by rewrite Hcalls, Ha4, Ha2.
Qed.
End Groups.
