(* ===== verification/Examples.v ===== *)
(** * The theorems at concrete inputs

    A bridge with trees of height two, a computable function in the place of
    Keccak and a chain whose blocks are known: the hypotheses of the theorems
    hold there and the definitions compute. *)
From S2P Require Import Prelude Types GlobalIndex Hashing MerkleStore MerkleTree MerkleSpec.
From S2P Require Import MerkleTreeFacts MerkleDense MerkleReset MonitoredTx Tables Storage.
From S2P Require Import StorageFacts SchemaInv Transactions BridgeCtrl NetTrees MessageBridge.
From S2P Require Import Synchronizer SyncAtomic SyncFacts SyncReorg StorageProps Hex.
From S2P Require Import BridgeService BridgeServiceFacts.

#[local] Instance example_keccak : Keccak := toy_keccak.
#[local] Instance example_abi : TokenAbi := λ _, None.
#[local] Instance example_json : Json := {| Marshal := λ _, None; Unmarshal := λ _, None |}.

(** The chain: the hash of a block is its number, written on 32 bytes. *)
Definition chain_hash (n : Z) : bytes := be_bytes 32 n.
#[local] Instance example_env : Environment unit := {|
  HeaderByNumber n e := (Ok (default 10 n, chain_hash (default 10 n)), e);
  GetRollupInfoByBlockRange _ _ := mret ([], ∅);
  GetLatestGlobalExitRoot := mret zero_hash;
  ExitRootsByGER _ := mret None;
  AddBlockDeposit _ := mret tt;
  CtxErr := mret false;
|}.
(** A cache that never evicts. *)
#[local] Instance example_cache : LruCache (gmap bytes (list bytes)) := {|
  lru_New n := if bool_decide (n > 0) then Some ∅ else None;
  lru_Get k c := (c !! k, c);
  lru_Add k v c := <[k := v]> c;
|}.
#[local] Program Instance example_cache_ok : LruCacheOk (gmap bytes (list bytes)) := {|
  holds c k v := c !! k = Some v;
|}.
Next Obligation. intros n c k v. cbn. case_bool_decide; intros [= <-]. by rewrite lookup_empty. Qed.
Next Obligation. intros k c o c' [= <- <-]. done. Qed.
Next Obligation.
  intros k v c k' v'. cbn. destruct (decide (k' = k)) as [->|Hne].
  - rewrite lookup_insert_eq. intros [= ->]. by left.
  - rewrite lookup_insert_ne by done. by right.
Qed.
#[local] Instance example_common : Common := {|
  Hash_String b := b; Address_Hex b := b; FromHex b := b; HexToAddress b := b; HexToHash b := b |}.

Definition cfg0 : Config := mkConfig 0 0 10 5 false [0; 1] false 1 false ∅.

(** ** An empty tree, and one deposit *)
Definition mt0 : MerkleTree := mkMerkleTree 0 2 0 [zero_node 0; zero_node 1].
Definition rollups0 : MerkleTree := mkMerkleTree MaxInt32 2 0 [zero_node 0; zero_node 1].
Definition ctrl0 : BridgeController := mkBridgeController [mt0] rollups0 {[0 := 0]}.
Definition Ls0 : Z → list bytes := λ _, [].
Definition db0 : database := initial_db.
Definition state0 : ClientSynchronizer unit := mkSync ctrl0 db0 tt true zero_hash 1 [].

Definition deposit_n (n : Z) : Deposit :=
  mkDeposit 0 0 0 zero_address (100 + n) 1 (be_bytes 20 (7 + n)) n 0 0 0 (chain_hash (50 + n)) [] false 0 0
    zero_address.
Definition leaf_n (n : Z) : bytes := match hashDeposit (deposit_n n) with Ok x => x | _ => zero_hash end.
Definition block_n (n : Z) (ds : list Deposit) : Block :=
  mkBlock 0 n (chain_hash n) 0 [] [] ds [] [] [] [] 0.
Definition orders (b : Block) : gmap bytes (list Order) :=
  {[blk_BlockHash b := (λ i, mkOrder DepositsOrder (Z.of_nat i)) <$> seq 0 (length (blk_Deposits b))]}.

Lemma initial_ok : schema_ok initial_tables initial_sequences.
Proof. split; decided. Qed.
Lemma db0_ok : db_ok db0.
Proof. split; [apply initial_ok|done]. Qed.
Lemma ctrl0_wf : wf_controller ctrl0.
Proof.
  intros net tID H. cbn in H. apply lookup_singleton_Some in H as [<- <-]. split; [lia|]. by exists mt0.
Qed.
Lemma ctrl0_tree net mt : tree_of ctrl0 net = Some mt → net = 0 ∧ mt = mt0.
Proof.
  unfold tree_of. cbn [bt_merkleTreeIDs ctrl0]. destruct (decide (0 = net)) as [<-|Hne].
  - intros H. vm_compute in H. split; [done|]. by injection H as <-.
  - by rewrite lookup_singleton_ne.
Qed.
Lemma mt0_represents : represents mt0 [].
Proof.
  split; [done|]. split; [cbn; lia|]. split; [constructor|]. apply (frontier_last_zero 2).
Qed.
Lemma net_stored_empty t net h :
  (∀ d, d ∈ t_deposit t → dep_NetworkID (dr_dep d) ≠ net) → t_root t = [] → net_stored t net h [].
Proof.
  intros Hd Hr. split.
  - intros d Hin Hn. by destruct (Hd d Hin).
  - intros k Hk. cbn in Hk. lia.
  - intros r id. rewrite Hr. by intros ?%elem_of_nil.
Qed.
Lemma forest0 : forest initial_tables ctrl0 Ls0.
Proof.
  split; [apply ctrl0_wf|]. intros net mt [-> ->]%ctrl0_tree.
  split; [apply mt0_represents|]. split; [done|].
  apply net_stored_empty; [|done]. by intros d ?%elem_of_nil.
Qed.

Definition block1 : Block := block_n 1 [deposit_n 0; deposit_n 1].

Lemma block1_follow : follow 2 [] (blk_Deposits block1) [leaf_n 0; leaf_n 1].
Proof. split_and!; [computed|done|decided|]. split_and!; [computed|done|decided|done]. Qed.

Lemma processBlock_appends_witness :
  ∃ s' Ls', processBlock cfg0 block1 (orders block1) (false, false) state0 = (Ok (false, false), s') ∧
      forest (db_committed (ss_db s')) (ss_ctrl s') Ls' ∧
      Ls' 0 = Ls0 0 ++ [leaf_n 0; leaf_n 1] ∧ (∀ n, n ≠ 0 → Ls' n = Ls0 n) ∧
      db_tx (ss_db s') = None ∧ db_ok (ss_db s') ∧ ss_sent s' = ss_sent state0 ∧
      ∀ k mt', tree_of (ss_ctrl s') 0 = Some mt' → (k < length (Ls' 0%Z))%nat →
        ∃ db', GetRoot (Z.of_nat k) 0 nil_tx (ss_db s') =
          (Ok (merkle_root (Z.to_nat (mt_height mt')) (take (S k) (Ls0 0 ++ [leaf_n 0; leaf_n 1]))), db').
Proof.
  apply (processBlock_appends cfg0 block1 (orders block1) (false, false) state0 Ls0 mt0).
  - exact forest0.
  - exact db0_ok.
  - reflexivity.
  - reflexivity.
  - cbn. lia.
  - cbn. lia.
  - reflexivity.
  - exact block1_follow.
  - decided.
  - decided.
  - apply lookup_singleton_eq.
Defined.

(** ** Two blocks, with one deposit each *)
Definition blockA : Block := block_n 1 [deposit_n 0].
Definition blockB : Block := block_n 2 [deposit_n 1].
Definition state1 : ClientSynchronizer unit :=
  Eval vm_compute in (processBlock cfg0 blockA (orders blockA) (false, false) state0).2.
Definition state2 : ClientSynchronizer unit :=
  Eval vm_compute in (processBlock cfg0 blockB (orders blockB) (false, false) state1).2.
Definition t1 : tables := db_committed (ss_db state1).
Definition t2 : tables := db_committed (ss_db state2).
Definition L2 : list bytes := [leaf_n 0; leaf_n 1].
Definition Ls2 : Z → list bytes := upd Ls0 0 L2.
Definition mt2 : MerkleTree := match bt_exitTrees (ss_ctrl state2) with mt :: _ => mt | [] => mt0 end.

Lemma L2_hashes : hashes32 L2.
Proof. decided. Qed.
Lemma t1_stored : net_stored t1 0 2 [leaf_n 0].
Proof.
  apply (net_stored_snoc initial_tables t1 0 2 [] (leaf_n 0)
           (stored_deposit 1 (set_dep_ids 1 0 (deposit_n 0)))); [|computed..].
  apply net_stored_empty; [|done]. by intros d ?%elem_of_nil.
Qed.
Lemma t2_stored : net_stored t2 0 2 L2.
Proof.
  apply (net_stored_snoc t1 t2 0 2 [leaf_n 0] (leaf_n 1)
           (stored_deposit 2 (set_dep_ids 2 0 (deposit_n 1)))); [apply t1_stored|computed..].
Qed.
Lemma t2_schema : schema_ok t2 (db_seqs (ss_db state2)).
Proof. split; decided. Qed.
Lemma state2_ok : db_ok (ss_db state2).
Proof. split; [apply t2_schema|done]. Qed.
Lemma ctrl2_tree net mt : tree_of (ss_ctrl state2) net = Some mt → net = 0 ∧ mt = mt2.
Proof.
  unfold tree_of. destruct (decide (net = 0)) as [->|Hne].
  - intros H. vm_compute in H. split; [done|]. by injection H as <-.
  - replace (bt_merkleTreeIDs (ss_ctrl state2)) with ({[0 := 0]} : gmap Z Z) by reflexivity.
    by rewrite lookup_singleton_ne.
Qed.
Lemma mt2_represents : represents mt2 L2.
Proof.
  split; [done|]. split; [cbn; lia|]. split; [exact L2_hashes|].
  split; [done|]. split; [decided|]. intros [|[|h]] Hh Ho; [by vm_compute in Ho|computed|].
  change (Z.to_nat (mt_height mt2)) with 2%nat in Hh. lia.
Qed.
Lemma forest2 : forest t2 (ss_ctrl state2) Ls2.
Proof.
  split.
  - intros net tID H. replace (bt_merkleTreeIDs (ss_ctrl state2)) with ({[0 := 0]} : gmap Z Z) in H by reflexivity.
    apply lookup_singleton_Some in H as [<- <-]. split; [lia|]. by exists mt2.
  - intros net mt [-> ->]%ctrl2_tree. split; [apply mt2_represents|]. split; [done|]. apply t2_stored.
Qed.

Definition rows_agree (rows : list node_row) : Prop :=
  Forall (λ r : node_row, Forall (λ r' : node_row, r.1.1 = r'.1.1 → r.1.2 = r'.1.2) rows) rows.
Lemma rows_agree_ok rows : rows_agree rows → no_collision rows.
Proof.
  intros H k v v' d d' H1 H2. unfold rows_agree in H. rewrite Forall_forall in H.
  specialize (H _ H1). rewrite Forall_forall in H. by apply (H _ H2).
Qed.
#[local] Instance rows_agree_dec rows : Decision (rows_agree rows).
Proof. unfold rows_agree. apply _. Defined.
Lemma t2_no_collision : no_collision (t_rht t2).
Proof. apply rows_agree_ok. decided. Qed.

Lemma t2_deposits d : d ∈ t_deposit t2 →
  d = stored_deposit 1 (set_dep_ids 1 0 (deposit_n 0)) ∨ d = stored_deposit 2 (set_dep_ids 2 0 (deposit_n 1)).
Proof.
  replace (t_deposit t2) with [stored_deposit 1 (set_dep_ids 1 0 (deposit_n 0));
    stored_deposit 2 (set_dep_ids 2 0 (deposit_n 1))] by reflexivity.
  rewrite !elem_of_cons, elem_of_nil. tauto.
Qed.
Lemma t2_chain : chain_order t2 0.
Proof.
  split.
  - intros d [-> | ->]%t2_deposits; vm_compute; by eexists.
  - intros d d' m m' [-> | ->]%t2_deposits [-> | ->]%t2_deposits _ _ Hle; cbn in Hle;
      [..|lia|]; vm_compute; intros [= <-] [= <-]; done.
Qed.

Lemma resetState_prefix_witness :
  ∃ s' (c : nat), resetState cfg0 1 state2 = (Ok tt, s') ∧ (c ≤ length (Ls2 0%Z))%nat ∧
      (∀ d, d ∈ t_deposit t2 → dep_NetworkID (dr_dep d) = 0 →
        dep_DepositCount (dr_dep d) < Z.of_nat c ↔ ∃ m, block_num t2 d = Some m ∧ m ≤ 1) ∧
      forest (db_committed (ss_db s')) (ss_ctrl s') (upd Ls2 0 (take c (Ls2 0))) ∧
      db_committed (ss_db s') = sql_reset 1 0 t2 ∧ db_tx (ss_db s') = None.
Proof.
  apply (resetState_prefix cfg0 1 state2 Ls2 mt2).
  - exact forest2.
  - exact state2_ok.
  - reflexivity.
  - lia.
  - reflexivity.
  - cbn. lia.
  - decided.
  - decided.
  - exact t2_chain.
  - exact t2_no_collision.
Defined.

(** ** Proofs *)
Definition service0 : bridgeService := mkBridgeService 2 ∅ 25 100 "v1".
Definition dbp : database := ss_db state2.
Definition empty_cache : gmap bytes (list bytes) := ∅.

Lemma dbp_live : db_live nil_tx dbp.
Proof. done. Qed.
Lemma dbp_tree : tree_stored nil_tx dbp 0 2 L2.
Proof. apply net_stored_tree; [apply t2_schema|apply t2_stored]. Qed.
Lemma empty_coherent rows : coherent empty_cache rows.
Proof. intros k v v' d H. cbn in H. unfold empty_cache in H. by rewrite lookup_empty in H. Qed.

Lemma getProof_correct_witness :
  ∃ proof c' db', getProof service0 0 (merkle_root 2 (take 2 L2)) nil_tx (empty_cache, dbp) =
      (Ok proof, (c', db')) ∧
    calculateRoot (leaf_n 0) proof 0 2 = Ok (merkle_root 2 (take 2 L2)) ∧
    length proof = 2%nat ∧ coherent c' (pg_nodes nil_tx db').
Proof.
  apply (getProof_correct service0 nil_tx empty_cache dbp 0 L2 0 1 (leaf_n 0)).
  - cbn. lia.
  - exact L2_hashes.
  - exact dbp_tree.
  - exact dbp_live.
  - exact t2_no_collision.
  - apply empty_coherent.
  - cbn. lia.
  - cbn. lia.
  - decided.
  - reflexivity.
Defined.

(** The tree of the example as that of rollup 1: its root is the first leaf of
    the tree of the rollups. *)
Definition local_root : bytes := merkle_root 2 (take 2 L2).
Definition rollup_root : bytes := merkle_root 2 [local_root].
Definition t3 : tables := set_rollup_exit [mkRollupExitLeaf 1 2 local_root 1 rollup_root] t2.
Definition dbr : database := mkDatabase t3 None (db_seqs dbp) 0 [] 0.
Definition ger0 : GlobalExitRoot := mkGlobalExitRoot 2 2 [zero_hash; rollup_root] zero_hash 0 1 0.

Lemma dbr_tree : tree_stored nil_tx dbr 0 2 L2.
Proof. split; [exact (ts_roots _ _ _ _ _ dbp_tree)|exact (ts_has_root _ _ _ _ _ dbp_tree)]. Qed.

Lemma claim_proofs_rollup_witness :
  ∃ proof rollupProof c' db',
    claim_proofs service0 0 1 ger0 nil_tx (empty_cache, dbr) = (Ok (proof, rollupProof), (c', db')) ∧
    calculateRoot (leaf_n 0) proof 0 2 = Ok local_root ∧
    calculateRoot local_root rollupProof 0 2 = Ok rollup_root.
Proof.
  apply (claim_proofs_rollup service0 nil_tx empty_cache dbr ger0 0 L2 0 1 0 (leaf_n 0) rollup_root).
  - cbn. lia.
  - exact L2_hashes.
  - exact dbr_tree.
  - done.
  - exact t2_no_collision.
  - apply empty_coherent.
  - cbn. lia.
  - cbn. lia.
  - decided.
  - reflexivity.
  - reflexivity.
  - computed.
  - decided.
  - lia.
  - computed.
Defined.

Lemma getRollupExitProof_unsynced_panics_witness :
  (getRollupExitProof service0 5 rollup_root nil_tx (empty_cache, dbr)).1 = Panic "index out of range".
Proof.
  apply (getRollupExitProof_unsynced_panics service0 nil_tx empty_cache dbr rollup_root 5).
  - cbn. lia.
  - done.
  - lia.
  - decided.
  - decided.
Defined.

Lemma proof_response_lengths_witness :
  proof_response ger0 [zero_hash; zero_hash] [zero_hash] = Panic "index out of range".
Proof. apply (proof_response_lengths ger0 [zero_hash; zero_hash] [zero_hash]). cbn. lia. Defined.

(** ** Failures *)

(** The connection fails at the commit. *)
Definition state_fault : ClientSynchronizer unit :=
  set_db (mkDatabase initial_tables None initial_sequences 0 [None; None; None; None; None; Some (Refused 7)] 0) state0.

Lemma processBlock_atomic_witness :
  db_committed (ss_db (processBlock cfg0 blockA (orders blockA) (false, false) state_fault).2) =
    initial_tables.
Proof.
  apply (processBlock_atomic cfg0 blockA (orders blockA) (false, false) state_fault
           (processBlock cfg0 blockA (orders blockA) (false, false) state_fault).1).
  - apply surjective_pairing.
  - computed.
Defined.

(** The block whose commit failed left the tree in memory ahead of the
    tables: on a connection that works again it is refused, and so is every later
    attempt. *)
Definition after_fault : ClientSynchronizer unit :=
  let s := (processBlock cfg0 blockA (orders blockA) (false, false) state_fault).2 in
  set_db (mkDatabase (db_committed (ss_db s)) None (db_seqs (ss_db s)) 0 [] 0) s.

Lemma behind_tree_refuses_block_witness :
  ∃ s', processBlock cfg0 blockA (orders blockA) (false, false) after_fault =
      (Err (Errorf "mismatched deposit count: %d, expected: %d" [0; 1]), s') ∧
    ss_ctrl s' = ss_ctrl after_fault ∧ db_committed (ss_db s') = db_committed (ss_db after_fault) ∧
    db_tx (ss_db s') = None ∧ db_faults (ss_db s') = [].
Proof.
  apply (behind_tree_refuses_block cfg0 blockA (orders blockA) (false, false) after_fault
           (mkMerkleTree 0 2 1 [leaf_n 0; zero_node 1]) (deposit_n 0) [] (leaf_n 0) []).
  - intros net tID H. replace (bt_merkleTreeIDs (ss_ctrl after_fault)) with ({[0 := 0]} : gmap Z Z) in H by computed.
    apply lookup_singleton_Some in H as [<- <-]. split; [lia|].
    exists (mkMerkleTree 0 2 1 [leaf_n 0; zero_node 1]). split; computed.
  - computed.
  - reflexivity.
  - split; [|done]. split; decided.
  - reflexivity.
  - cbn. lia.
  - decided.
  - intros H. vm_compute in H. by apply elem_of_nil in H.
  - computed.
  - cbn. lia.
  - reflexivity.
  - apply lookup_singleton_eq.
Defined.

Lemma messy_event_leaves_transaction_witness :
  ∃ s', processBlock cfg0 blockA {[chain_hash 1 := [mkOrder DepositsOrder 1]]} (false, false) state0 =
      (Err (ErrMessyEvents "deposits"), s') ∧
    db_tx (ss_db s') ≠ None ∧
    ∃ db'', BeginDBTransaction (ss_db s') = (Ok open_tx, db'') ∧
      db_leaked db'' = (db_leaked (ss_db s') + 1)%nat.
Proof.
  apply (messy_event_leaves_transaction cfg0 blockA {[chain_hash 1 := [mkOrder DepositsOrder 1]]}
           (false, false) state0 1 []).
  - reflexivity.
  - exact db0_ok.
  - cbn. lia.
  - apply lookup_singleton_eq.
  - cbn. lia.
Defined.

(** A statement fails inside a transaction: a root of a deposit that does not exist. *)
Definition db_begun : database := (BeginDBTransaction (ss_db state1)).2.
Definition db_failed : database := (SetRoot zero_hash 99 0 open_tx db_begun).2.

(** The program goes on in the transaction, and commits. *)
Definition db_more : database := (AddBlock (block_n 2 []) open_tx db_failed).2.

Lemma failed_statement_never_commits_witness :
  is_ok (Commit open_tx db_more).1 = false ∧ db_committed (Commit open_tx db_more).2 = t1.
Proof.
  apply (failed_statement_never_commits (sql_set_root zero_hash 99 0) db_begun
           ErrForeignKey db_failed db_more (Commit open_tx db_more).1).
  - computed.
  - apply rtc_once. exists Z, (call_AddBlock (block_n 2 []) open_tx), (AddBlock (block_n 2 []) open_tx db_failed).1.
    split; [reflexivity|apply surjective_pairing].
  - apply surjective_pairing.
Defined.

(** A block is added and the transaction is still open. *)
Definition db_added : database := (AddBlock (block_n 2 []) open_tx db_begun).2.

Lemma uncommitted_invisible_witness :
  db_committed db_added = t1 ∧ length (t_block (view open_tx db_added)) = 3%nat.
Proof.
  split; [|computed].
  apply (uncommitted_invisible db_begun db_added). apply rtc_once.
  exists Z, (call_AddBlock (block_n 2 []) open_tx), (AddBlock (block_n 2 []) open_tx db_begun).1.
  split; [reflexivity|apply surjective_pairing].
Defined.

Lemma reachable_schema_witness : db_ok (AddBlock (block_n 1 []) nil_tx initial_db).2.
Proof.
  apply (reachable_schema (AddBlock (block_n 1 []) nil_tx initial_db).2).
  apply (reachable_call (call_AddBlock (block_n 1 []) nil_tx) initial_db
           (AddBlock (block_n 1 []) nil_tx initial_db).1 (AddBlock (block_n 1 []) nil_tx initial_db).2).
  - apply reachable_init.
  - apply surjective_pairing.
Defined.

(** ** A reorganisation *)

(** The chain kept the first block and has another second one. *)
Definition forked (n : Z) : bytes := be_bytes 32 (if bool_decide (n ≤ 1) then n else 1000 + n).
Definition forked_env : Environment unit := {|
  HeaderByNumber n e := (Ok (default 10 n, forked (default 10 n)), e);
  GetRollupInfoByBlockRange _ _ := mret ([], ∅);
  GetLatestGlobalExitRoot := mret zero_hash;
  ExitRootsByGER _ := mret None;
  AddBlockDeposit _ := mret tt;
  CtxErr := mret false;
|}.
Definition latest2 : Block := block_n 2 [].

Lemma checkReorg_correct_witness :
  ∃ s', @checkReorg unit forked_env cfg0 5 latest2 None state2 =
      (Ok (Some (mkBlock 0 1 (forked 1) 0 [] [] [] [] [] [] [] zero_time)), s') ∧
    ss_ctrl s' = ss_ctrl state2 ∧ db_committed (ss_db s') = t2.
Proof.
  apply (@checkReorg_correct unit forked_env cfg0 forked 5 latest2 state2).
  - intros e n. reflexivity.
  - done.
  - decided.
  - decided.
Defined.

(** ** The trees of the rollups *)
Definition leaf_r (n : Z) : RollupExitLeaf := mkRollupExitLeaf 0 1 (leaf_n n) n zero_hash.
Definition db_rollups : database := mkDatabase t1 None (db_seqs (ss_db state1)) 0 [] 0.

(** Rollup 2 reports before rollup 1: the tree is extended with an empty leaf. *)
Lemma addRollupExitLeaf_stores_witness :
  ∃ db', addRollupExitLeaf (leaf_r 2) nil_tx (rollups0, db_rollups) = (Ok tt, (rollups0, db')) ∧
    rel_Leaf <$> t_rollup_exit (db_committed db') = [zero_hash; leaf_n 2].
Proof.
  eexists. split.
  - etrans; [apply (addRollupExitLeaf_stores rollups0 [] (leaf_r 2) nil_tx db_rollups db_rollups)|].
    + computed.
    + intros i l. rewrite lookup_nil. done.
    + decided.
    + decided.
    + decided.
    + decided.
    + vm_compute. reflexivity.
  - computed.
Defined.

Lemma addRollupExitLeaf_rollup0_witness :
  addRollupExitLeaf (leaf_r 0) nil_tx (rollups0, db_rollups) =
    (Panic "index out of range", (rollups0, db_rollups)).
Proof.
  apply (addRollupExitLeaf_rollup0 rollups0 [] (leaf_r 0) nil_tx db_rollups db_rollups).
  - computed.
  - decided.
  - reflexivity.
Defined.

Lemma ComputeSiblings_verifies_witness :
  ∃ siblings root, ComputeSiblings 2 [leaf_n 0; leaf_n 1; leaf_n 2] 2 = Ok (siblings, root) ∧
    length siblings = 2%nat ∧ buildMTRoot 2 [leaf_n 0; leaf_n 1; leaf_n 2] = Ok root ∧
    root = merkle_root 2 [leaf_n 0; leaf_n 1; leaf_n 2] ∧
    calculateRoot (leaf_n 2) siblings 2 2 = Ok root.
Proof.
  apply (ComputeSiblings_verifies 2 2 [leaf_n 0; leaf_n 1; leaf_n 2] (leaf_n 2)).
  - decided.
  - decided.
  - decided.
  - decided.
  - reflexivity.
Defined.

Lemma ComputeSiblings_panics_witness :
  ComputeSiblings 3 [leaf_n 0; leaf_n 1] 2 = Panic "index out of range".
Proof. apply (ComputeSiblings_panics 3 2 [leaf_n 0; leaf_n 1]); decided. Defined.

(** ** The tree in memory, on a connection that fails *)
Definition db_down : database := mkDatabase t2 None (db_seqs (ss_db state2)) 0 [Some (Refused 7)] 0.

Lemma addLeaf_error_keeps_tree_witness :
  ∃ mt' db', addLeaf 3 (leaf_n 2) 2 nil_tx (mt2, db_down) = (Err (ErrExternal 7), (mt', db')) ∧
    represents mt' L2 ∧ mt_count mt' = 2.
Proof.
  eexists _, _. split; [computed|].
  eapply (addLeaf_error_keeps_tree mt2 L2 (leaf_n 2) 2 3 nil_tx db_down (ErrExternal 7)).
  - exact mt2_represents.
  - split; decided.
  - computed.
  - computed.
Defined.

Lemma resetLeaf_error_witness :
  ∃ db', resetLeaf 1 nil_tx (mt2, db_down) = (Err (ErrExternal 7), (mkMerkleTree 0 2 1 [], db')).
Proof.
  destruct (resetLeaf 1 nil_tx (mt2, db_down)) as [r [mt' db']] eqn:E.
  assert (r = Err (ErrExternal 7)) as ->.
  { replace r with (resetLeaf 1 nil_tx (mt2, db_down)).1 by (by rewrite E). computed. }
  exists db'. by rewrite (resetLeaf_error nil_tx mt2 db_down 1 (ErrExternal 7) mt' db' E).
Defined.

(** ** Messages *)
Definition usdc_bridge : bytes := be_bytes 20 77.
Definition bridges : processors := InitProcessor USDC [usdc_bridge] [be_bytes 20 78] ∅.
Definition message0 : Deposit :=
  mkDeposit 0 LeafTypeMessage 0 usdc_bridge 0 1 (be_bytes 20 9) 0 0 0 0 (chain_hash 50)
    (be_bytes 32 4242 ++ be_bytes 32 1000) false 0 0 zero_address.

Lemma ReplaceDepositDestAddresses_leaf_witness :
  ∃ d', ReplaceDepositDestAddresses bridges message0 = Ok d' ∧
    dep_DestinationAddress d' = be_bytes 20 4242 ∧ dep_DestContractAddress d' = be_bytes 20 9 ∧
    hashDeposit d' = hashDeposit message0.
Proof.
  eexists. split; [computed|]. split; [computed|]. split; [computed|].
  apply (ReplaceDepositDestAddresses_leaf bridges message0).
  - reflexivity.
  - decided.
  - computed.
Defined.

(** ** Rows *)
Definition deposit3 : Deposit := set_dep_ids 2 0 (deposit_n 2).

Lemma AddDepositXLayer_GetDeposit_witness :
  ∃ id db1 db2, AddDepositXLayer deposit3 nil_tx dbp = (Ok id, db1) ∧
    GetDeposit 2 0 nil_tx db1 =
      (Ok (mkDeposit id 0 0 zero_address 102 1 (be_bytes 20 9) 2 2 2 0 (chain_hash 52) [] false zero_time
             zero_time zero_address), db2).
Proof.
  apply (AddDepositXLayer_GetDeposit deposit3 nil_tx dbp (mkBlockRow 2 (Some 2) (chain_hash 2) (Some 0) 0)
           (db_seqs (ss_db state2))).
  - exact dbp_live.
  - exact t2_schema.
  - decided.
  - decided.
  - reflexivity.
  - reflexivity.
  - decided.
Defined.

Definition claim1 : Claim :=
  mkClaim false 0 3 1 zero_address 55 (be_bytes 20 4) 2 2 0 (chain_hash 60) 0.

Lemma AddClaim_GetClaim_witness :
  ∃ db1 db2, AddClaim claim1 nil_tx dbp = (Ok tt, db1) ∧
    GetClaim 3 1 0 nil_tx db1 =
      (Ok (mkClaim false 0 3 1 zero_address 55 (be_bytes 20 4) 2 0 0 (chain_hash 60) zero_time), db2).
Proof.
  apply (AddClaim_GetClaim claim1 nil_tx dbp).
  - exact dbp_live.
  - decided.
  - computed.
  - decided.
  - intros c' H. vm_compute in H. by apply elem_of_nil in H.
Defined.

(** ** Deposits become ready *)
Definition rollup_root1 : bytes := merkle_root 2 [merkle_root 2 (take 1 L2)].
Definition t4 : tables :=
  set_rollup_exit [mkRollupExitLeaf 1 2 (merkle_root 2 (take 1 L2)) 1 rollup_root1] t2.
Definition seqs4 : sequences := let q := db_seqs dbp in
  mkSequences (sq_block q) (sq_exit_root q) (sq_deposit q) 1 (sq_remove q).
Definition db4 : database := mkDatabase t4 None seqs4 0 [] 0.

Lemma db4_stored : net_stored t4 0 2 L2.
Proof. destruct t2_stored. split; assumption. Qed.
Lemma L2_roots : distinct_roots 2 L2.
Proof.
  intros [|[|j]] [|[|k]] Hj Hk H; cbn in Hj, Hk; try lia; exfalso; revert H; decided.
Qed.

Lemma UpdateL2DepositsStatus_ready_witness :
  ∃ ds db', UpdateL2DepositsStatusXLayer rollup_root1 1 0 nil_tx db4 = (Ok ds, db') ∧
    Forall2 (ready_upto 0 0) (t_deposit t4) (t_deposit (db_committed db')) ∧
    Forall (λ d, dep_ReadyForClaim d = true ∧ dep_NetworkID d = 0 ∧ dep_DepositCount d ≤ 0) ds.
Proof.
  apply (UpdateL2DepositsStatus_ready nil_tx db4 rollup_root1 1 0 2 L2 0).
  - done.
  - split; decided.
  - exact db4_stored.
  - exact L2_roots.
  - decided.
  - computed.
Defined.

Lemma GetNotReadyTransactions_fails_witness :
  (GetNotReadyTransactions 10 0 1 nil_tx dbp).1 = Err (ErrScan 15).
Proof. apply (GetNotReadyTransactions_fails 10 0 1 nil_tx dbp). exact dbp_live. Defined.

Lemma numbers_roundtrip_witness :
  DecodeBig (λ _, 0) (EncodeBig 255) = 255 ∧
  (255 < 2 ^ 64 → DecodeUint64 (λ _, 0) (EncodeUint64 255) = 255) ∧
  (0 < 255 → EncodeBig (-255) = x2d :: EncodeBig 255).
Proof. apply (numbers_roundtrip (λ _, 0) 255). decided. Defined.
