(* ===== verification/ClaimExamples.v ===== *)
(** * The theorems of the claim managers at concrete inputs

    A node, a contract of the compressor, a cache of nonces and an encoding of
    histories that compute, and a few claims. *)
From Stdlib Require Import Ascii.
From S2P Require Import Prelude Types Hashing MonitoredTx MerkleStore MerkleTree Tables Storage StorageFacts.
From S2P Require Import EthClient PendingTxs GroupMonitor TxMonitor TableInv GroupFacts.
From S2P Require Import BridgeService ClaimTxManager ClaimTxManagerFacts.

(** ** The outside *)

(** JSON: the number that counts the history, in binary. *)
Fixpoint bits (p : positive) : string :=
  match p with
  | xH => "1"%string
  | xO p => String "0"%char (bits p)
  | xI p => String "1"%char (bits p)
  end.
Fixpoint unbits (s : string) : option positive :=
  match s with
  | EmptyString => None
  | String c s =>
      if bool_decide (c = "0"%char) then xO <$> unbits s
      else if bool_decide (s = ""%string) then Some xH else xI <$> unbits s
  end.
Lemma bits_unbits p : bits p ≠ ""%string ∧ unbits (bits p) = Some p.
Proof.
  induction p as [p [Hn IH]|p [Hn IH]|]; [..|done]; (split; [done|]); cbn [bits unbits].
  - rewrite (bool_decide_false (bits p = ""%string)), IH by done. done.
  - by rewrite IH.
Qed.
#[local] Instance entry_countable : Countable TxHashHistoryEntry.
Proof.
  refine (inj_countable' (λ t, (the_TxHash t, the_ReceiptStatus t, the_CreatedAt t))
            (λ x, mkTxHashHistoryEntry x.1.1 x.1.2 x.2) _). by intros [].
Defined.
#[local] Instance history_countable : Countable TxHistoryV2.
Proof. refine (inj_countable' (λ h, (th_Version h, th_TxHashes h)) (λ x, mkTxHistoryV2 x.1 x.2) _). by intros []. Defined.
#[local] Instance example_json : Json := {|
  Marshal h := Some (bits (encode h)); Unmarshal s := unbits s ≫= decode |}.
#[local] Instance example_json_ok : JsonOk.
Proof.
  intros h s [= <-]. destruct (bits_unbits (encode h)) as [Hn Hu]. split; [done|]. cbn. rewrite Hu. cbn.
  apply decode_encode.
Qed.

Definition hash_n (n : Z) : bytes := be_bytes 32 n.
(** The clock stands still and the keys of a map come in their order. *)
#[local] Instance example_runtime E : Runtime E := {| Now := mret 1000; MapRange _ ids := mret ids |}.
#[local] Instance example_runtime_ok E : RuntimeOk E.
Proof. split; [intros K ids e r e' [= <- <-]; by exists ids|]. intros e. by exists 1000, e. Qed.
#[local] Instance example_texts : Texts := {| hash_text _ := "hash"; error_text _ := "nonce too low" |}.
(** A node that has mined everything, whose state is the number of claims the
    compressor has sent, and one that does not answer. *)
#[local] Instance example_node : EthNode nat := {|
  TransactionReceipt _ := mret (mkReceipt ReceiptStatusSuccessful 1);
  TransactionByHash _ := throw ErrNotFound; SendTransaction _ := mret tt; EstimateGas _ := mret 21000;
  SuggestGasPrice := mret 5; NonceAt _ := mret 3; Signer _ tx := mret (hash_n (900 + lt_Nonce tx));
|}.
#[local] Instance silent_node : EthNode bool := {|
  TransactionReceipt _ := throw (ErrExternal 5);
  TransactionByHash _ := throw (ErrExternal 5); SendTransaction _ := throw (ErrExternal 5);
  EstimateGas _ := throw (ErrExternal 5); SuggestGasPrice := throw (ErrExternal 5);
  NonceAt _ := throw (ErrExternal 5); Signer _ _ := throw (ErrExternal 5);
|}.
#[local] Instance example_nonces : NonceLru (gmap bytes Z) := {|
  nonce_Get k c := (c !! k, c); nonce_Add k n c := <[k := n]> c; nonce_Remove k c := delete k c |}.
#[local] Program Instance example_nonces_ok : NonceLruOk (gmap bytes Z) := {| nonce_holds c k n := c !! k = Some n |}.
Next Obligation. intros k c o c' [= <- <-]. done. Qed.
Next Obligation. intros k n c. apply lookup_insert_eq. Qed.
Next Obligation. intros c k n n' H H'. cbn in *. congruence. Qed.

(** ** Groups *)
Definition params0 : bridgeClaimXParams := mk_bridgeClaimXParams [] [] 1 (hash_n 1) (hash_n 2) 0 [] 1 [] 5 [] false.
#[local] Instance example_claim_abi : ClaimAbi := {|
  claimAsset_ID := be_bytes 4 1; claimMessage_ID := be_bytes 4 2; UnpackClaim _ _ := Ok params0 |}.
(** The contract of the compressor answers, or refuses to compress. *)
#[local] Instance example_compressor : Compressor nat := {|
  ClaimCompressor_CompressClaimCall _ _ l := mret (be_bytes 1 (Z.of_nat (length l)));
  SendCompressedClaims noSend _ data sent := (Ok (hash_n 70, 100000), if (noSend : bool) then sent else S sent) |}.
#[local] Instance refusing_compressor : Compressor bool := {|
  ClaimCompressor_CompressClaimCall _ _ _ := throw (ErrExternal 9); SendCompressedClaims _ _ _ := throw (ErrExternal 9) |}.
#[local] Instance example_cmp : GoCmp := {|
  cmp_entry e e' := Ok (bool_decide (e = e')); cmp_tx t t' := Ok (bool_decide (t = t')) |}.

(** One retry, and groups of at most two claims. *)
Definition grouping0 : ConfigGroupingClaims := mkConfigGroupingClaims 1 2 60 1 10 100.
Definition ccfg : CompressConfig := mkCompressConfig grouping0 0 500000 1.
Definition tx_n (id : Z) (group : option Z) : MonitoredTx :=
  mkMonitoredTx id (be_bytes 20 1) (Some (be_bytes 20 2)) 0 None (be_bytes 4 1) 21000 None
    MonitoredTxStatusCreated ∅ id id group (hash_n 1).
Definition entry_n (id : Z) (data : option bytes) : MonitoredTxGroupDBEntry :=
  mkMonitoredTxGroupDBEntry id MonitoredTxGroupStatusCreated [] data None 0 0 0 "".

Lemma NewPendingTxs_split_witness :
  ∃ p, NewPendingTxs [tx_n 1 None; tx_n 2 (Some 7); tx_n 3 None] {[7 := entry_n 7 None]} 7 = Ok p ∧
    pend_LastGroupTxID p = 7 ∧ pend_TxCandidatesForGroup p = [tx_n 1 None; tx_n 3 None] ∧
    pend_GroupTx p !! 7 = Some (mkMonitoredTxGroup (entry_n 7 None) [tx_n 2 (Some 7)]).
Proof.
  destruct (NewPendingTxs_split [tx_n 1 None; tx_n 2 (Some 7); tx_n 3 None] {[7 := entry_n 7 None]} 7)
    as (p & Hp & Hl & Hc & Hg).
  - intros k e H. apply lookup_singleton_Some in H as [<- <-]. reflexivity.
  - intros tx k Hin Hk. assert (k = 7) as ->.
    { repeat (apply elem_of_cons in Hin as [->|Hin]; [cbn in Hk; congruence|]). by apply elem_of_nil in Hin. }
    exists (entry_n 7 None). apply lookup_singleton_eq.
  - exists p. split; [exact Hp|]. split; [exact Hl|]. split; [rewrite Hc; computed|rewrite Hg; computed].
Defined.

Definition deposit_row_n (id : Z) : deposit_row :=
  mkDepositRow (mkDeposit id 0 0 zero_address 100 1 (be_bytes 20 7) id 0 0 0 (hash_n 50) [] true 0 0 zero_address) None.
(** Three claims to group. *)
Definition claims3 : tables :=
  set_deposit [deposit_row_n 1; deposit_row_n 2; deposit_row_n 3]
    (set_monitored [tx_n 1 None; tx_n 2 None; tx_n 3 None] initial_tables).
Definition start (faults : list (option fault)) (t : tables) : nat * database :=
  (0%nat, mkDatabase t None initial_sequences 0 faults 0).
(** After a pass, with a group of two claims that was not sent. *)
Definition grouped3 : tables := db_committed (MonitorCompressedTxs ccfg (start [] claims3)).2.2.

Lemma claims3_rows faults : db_all rows_ok (start faults claims3).2.
Proof. split; [constructor|done]. Qed.

Lemma MonitorCompressedTxs_one_pending_witness :
  db_all rows_ok (MonitorCompressedTxs ccfg (start [] claims3)).2.2 ∧ length (t_groups grouped3) = 1%nat.
Proof.
  split; [|computed].
  apply (MonitorCompressedTxs_one_pending ccfg example_json_ok (start [] claims3)
           (MonitorCompressedTxs ccfg (start [] claims3)).1).
  - apply claims3_rows.
  - apply surjective_pairing.
Defined.

(** The commit fails after the claim of the group has been sent. *)
Definition faulty : nat * database := start (replicate 12 None ++ [Some (Refused 7)]) grouped3.

Lemma MonitorCompressedTxs_atomic_witness :
  db_committed (MonitorCompressedTxs ccfg faulty).2.2 = db_committed faulty.2 ∧ (MonitorCompressedTxs ccfg faulty).2.1 = 1%nat.
Proof.
  split; [|computed].
  apply (MonitorCompressedTxs_atomic ccfg faulty (MonitorCompressedTxs ccfg faulty).1).
  - apply surjective_pairing.
  - computed.
Defined.

Definition pending3 : PendingTxs := mkPendingTxs ∅ [tx_n 1 None; tx_n 2 None; tx_n 3 None] 4.
Definition created3 : PendingTxs :=
  match (createNewGroups ccfg pending3 0%nat).1 with Ok p => p | _ => pending3 end.
Lemma createNewGroups_fresh_witness :
  created3 = pending3 ∨ ∃ n group, pend_GroupTx pending3 !! 5 = None ∧
    pend_GroupTx created3 = <[5 := group]> (pend_GroupTx pending3) ∧
    mg_Txs group = set_mtx_GroupID (Some 5) <$> take n (pend_TxCandidatesForGroup pending3) ∧
    (0 < n ≤ 3)%nat ∧ (0 < 2 → Z.of_nat n ≤ 2) ∧
    grp_GroupID (mg_DbEntry group) = 5 ∧ grp_Status (mg_DbEntry group) = MonitoredTxGroupStatusCreated ∧
    grp_ClaimTxHistory (mg_DbEntry group) = None ∧ is_Some (grp_CompressedTxData (mg_DbEntry group)).
Proof.
  apply (createNewGroups_fresh ccfg pending3 0%nat created3 0%nat).
  - intros id [g H]. cbn in H. by rewrite lookup_empty in H.
  - cbn. lia.
  - computed.
Defined.

(** The contract refuses to compress. *)
Definition refused3 : PendingTxs :=
  match (createNewGroups ccfg pending3 true).1 with Ok p => p | _ => pending3 end.
Definition refused_group : MonitoredTxGroup := default zero_group (pend_GroupTx refused3 !! 5).
Lemma failed_compression_is_stored_witness :
  grp_CompressedTxData (mg_DbEntry refused_group) = Some [] ∧ length (mg_Txs refused_group) = 2%nat.
Proof.
  split; [|computed].
  apply (failed_compression_is_stored ccfg pending3 true refused3 true 5 refused_group).
  - intros a b c e1. by exists (ErrExternal 9), e1.
  - computed.
  - reflexivity.
  - computed.
Defined.

(** The claim of a group is sent and mined in the pass that uses its only
    retry. *)
Definition group5 : MonitoredTxGroup := mkMonitoredTxGroup (entry_n 5 (Some [x01])) [tx_n 1 (Some 5)].
Definition pending5 : PendingTxs := mkPendingTxs {[5 := group5]} [] 5.
Definition processed5 : PendingTxs := match (Process ccfg pending5 0%nat).1 with Ok p => p | _ => pending5 end.
Definition processed_group : MonitoredTxGroup := default zero_group (pend_GroupTx processed5 !! 5).
Lemma Process_exhausted_fails_witness :
  (grp_Status (mg_DbEntry processed_group) = MonitoredTxGroupStatussFailed ∧
   Forall (λ tx, mtx_Status tx = MonitoredTxStatusFailed) (mg_Txs processed_group)) ∧
  (λ h, the_ReceiptStatus <$> th_TxHashes h) <$> grp_ClaimTxHistory (mg_DbEntry processed_group) =
    Some [Some ReceiptStatusSuccessful].
Proof.
  split; [|computed].
  apply (Process_exhausted_fails ccfg (example_runtime_ok nat) pending5 0%nat processed5 1%nat 5 processed_group).
  - computed.
  - apply lookup_singleton_is_Some. reflexivity.
  - computed.
  - decided.
Defined.

(** ** Single claims *)
Definition tcfg : TxConfig := mkTxConfig 1 3.
Definition no_nonces : gmap bytes Z := ∅.
Definition claimer3 : Claimer nat (gmap bytes Z) :=
  mkClaimer 0%nat no_nonces (mkDatabase claims3 None initial_sequences 0 [] 0).
Lemma MonitorTxs_history_bounded_witness :
  db_all histories_bounded (cl_db (MonitorTxs tcfg claimer3).2) ∧
  (λ m, size (mtx_History m)) <$> t_monitored (db_committed (cl_db (MonitorTxs tcfg claimer3).2)) = [1; 1; 1]%nat.
Proof.
  split; [|computed].
  apply (MonitorTxs_history_bounded tcfg claimer3 (MonitorTxs tcfg claimer3).1).
  - split; [decided|done].
  - apply surjective_pairing.
Defined.

(** Ten transactions were sent for a claim, and the node is down. *)
Definition full_tx : MonitoredTx :=
  mkMonitoredTx 1 (be_bytes 20 1) (Some (be_bytes 20 2)) 0 None (be_bytes 4 1) 21000 None
    MonitoredTxStatusCreated (list_to_set (hash_n <$> seqZ 0 10)) 1 1 None (hash_n 1).
Definition db_full : database :=
  mkDatabase (set_monitored [full_tx] claims3) None initial_sequences 0 [] 0.
Definition claimer_full : Claimer bool (gmap bytes Z) := mkClaimer true no_nonces db_full.
Definition failed_full : database := (UpdateClaimTx (set_mtx_Status MonitoredTxStatusFailed full_tx) nil_tx db_full).2.
Lemma unreachable_node_fails_tx_witness :
  (∃ e', monitor_tx tcfg full_tx false nil_tx claimer_full = (Ok false, mkClaimer e' no_nonces failed_full)) ∧
  mtx_Status <$> t_monitored (db_committed failed_full) = [MonitoredTxStatusFailed].
Proof.
  split; [|computed].
  apply (unreachable_node_fails_tx tcfg full_tx false nil_tx claimer_full failed_full).
  - intros h e. by exists (ErrExternal 5), e.
  - decided.
  - computed.
Defined.

(** The node answers 3 three times. *)
Definition claimer_after (k : nat) : Claimer nat (gmap bytes Z) :=
  Nat.iter k (λ s, (GetNextNonce [x01] s).2) claimer3.
Lemma GetNextNonce_increasing_witness : StronglySorted Z.lt [3; 4; 5].
Proof.
  apply (GetNextNonce_increasing [x01] claimer3 [3; 4; 5]).
  - apply (nonce_calls_cons _ _ _ (claimer_after 1) (claimer_after 1)); [computed|done|].
    apply (nonce_calls_cons _ _ _ (claimer_after 2) (claimer_after 2)); [computed|done|].
    apply (nonce_calls_cons _ _ _ (claimer_after 3) (claimer_after 3)); [computed|done|]. constructor.
  - repeat constructor; lia.
Defined.

(** ** A deposit of the first network becomes ready *)
#[local] Instance example_keccak : Keccak := toy_keccak.
#[local] Instance example_token_abi : TokenAbi := λ _, None.
#[local] Instance example_common : Common := {|
  Hash_String b := x30 :: x78 :: b; Address_Hex b := b; FromHex b := b; HexToAddress b := b; HexToHash b := b |}.
Abbreviation cache := (list (bytes * list bytes)).
#[local] Instance example_lru : LruCache cache := {|
  lru_New n := Some []; lru_Get k c := (snd <$> head (filter (λ e, e.1 = k) c), c); lru_Add k v c := (k, v) :: c |}.
(** The data of a claim starts with its first sibling. *)
#[local] Instance example_bridge : BridgeContract nat := {|
  ClaimAsset a := mret (Some (be_bytes 20 2), be_bytes 4 1 ++ concat (take 1 (ca_smtProof a)));
  ClaimMessage a := mret (Some (be_bytes 20 2), be_bytes 4 2) |}.

Definition mcfg : ManagerConfig := mkManagerConfig tcfg 1 (be_bytes 20 1) [] false.
Definition service32 : bridgeService := mkBridgeService 32 ∅ 25 100 "v1".
Definition deposit0 : Deposit :=
  mkDeposit 1 0 0 zero_address 100 1 (be_bytes 20 7) 0 1 0 0 (hash_n 50) [] false 0 0 zero_address.
Definition leaf0 : bytes := Eval vm_compute in match hashDeposit deposit0 with Ok x => x | _ => zero_hash end.
Definition tree32 : MerkleTree := Eval vm_compute in mkMerkleTree 0 32 0 (take 32 zeroHashes).
Definition root32 : bytes := Eval vm_compute in match buildMTRoot 32 [leaf0] with Ok r => r | _ => zero_hash end.
Definition ger32 : GlobalExitRoot := mkGlobalExitRoot 1 0 [root32; zero_hash] (hash_n 33) 0 1 0.
(** The same root as the second network reports it. *)
Definition trusted32 : GlobalExitRoot := mkGlobalExitRoot 0 0 [root32; zero_hash] (hash_n 33) 1 2 0.
(** The tables after the block of the deposit and its global exit root. *)
Definition stored32 : database := Eval vm_compute in
  (addLeaf 1 leaf0 0 nil_tx
    (tree32, mkDatabase (set_deposit [mkDepositRow deposit0 None]
                          (set_exit_root [mkExitRootRow ger32 true] initial_tables)) None initial_sequences 0 [] 0)).2.2.
Definition manager32 (faults : list (option fault)) : ClaimTxManager nat (gmap bytes Z) cache :=
  mkClaimTxManager (mkClaimer 0%nat no_nonces (mkDatabase (db_committed stored32) None initial_sequences 0 faults 0)) [].
(** Processed without a fault, and with one at the commit. *)
Abbreviation run32 faults := (updateDepositsStatus mcfg service32 trusted32 (manager32 faults)).
Definition commit_fault : list (option fault) := replicate 37 None ++ [Some (Refused 7)].

Lemma updateDepositsStatus_atomic_witness :
  db_committed (cl_db (tm_claimer (run32 commit_fault).2)) =
    db_committed (cl_db (tm_claimer (manager32 commit_fault))) ∧
  (run32 commit_fault).1 = Err ErrTxClosed.
Proof.
  split; [|computed].
  apply (updateDepositsStatus_atomic mcfg service32 trusted32 (manager32 commit_fault) (run32 commit_fault).1).
  - apply surjective_pairing.
  - computed.
Defined.

Lemma updateDepositsStatus_only_claims_witness :
  only_claims mcfg (db_committed stored32) (db_committed (cl_db (tm_claimer (run32 []).2))) ∧
  (λ m, (mtx_DepositID m, mtx_Nonce m)) <$> t_monitored (db_committed (cl_db (tm_claimer (run32 []).2))) = [(1, 3)].
Proof.
  split; [|computed].
  apply (updateDepositsStatus_only_claims mcfg service32 trusted32 (manager32 []) (run32 []).1).
  - done.
  - apply surjective_pairing.
Defined.
