(* ===== verification/ReadExamples.v ===== *)
(** * The theorems on reading the chain, at concrete logs

    Two deposits and a global exit root in one block, one deposit in the next. *)
From S2P Require Import Prelude Types GlobalIndex Hashing MerkleStore MerkleTree Tables Storage BridgeCtrl.
From S2P Require Import MessageBridge EthClient Etherman Synchronizer EthermanFacts.

#[local] Instance read_keccak : Keccak := toy_keccak.
#[local] Instance read_abi : TokenAbi := λ _, None.
#[local] Instance read_runtime : Runtime unit := {| Now := mret 1000; MapRange _ ids := mret ids |}.
#[local] Instance read_env : Environment unit := {|
  HeaderByNumber n e := (Ok (default 10 n, be_bytes 32 (default 10 n)), e);
  GetRollupInfoByBlockRange _ _ := mret ([], ∅);
  GetLatestGlobalExitRoot := mret zero_hash;
  ExitRootsByGER _ := mret None;
  AddBlockDeposit _ := mret tt;
  CtxErr := mret false;
|}.

Definition ev_hash (n : Z) : bytes := be_bytes 32 n.
Definition deposit_log (blk tx : Z) : Log :=
  mkLog zero_address
    [signature_hash "BridgeEvent(uint8,uint32,address,uint32,address,uint256,bytes,uint32)"]
    [] blk (ev_hash (500 + blk)) (ev_hash tx).
Definition ger_log (blk tx : Z) : Log :=
  mkLog zero_address [signature_hash "UpdateGlobalExitRoot(bytes32,bytes32)"; ev_hash 1; ev_hash 2]
    [] blk (ev_hash (500 + blk)) (ev_hash tx).
Definition logs3 : list Log := [deposit_log 7 70; ger_log 7 71; deposit_log 7 72; deposit_log 9 73].

(** The deposit of a log is numbered by its transaction. *)
#[local] Instance read_bindings : Bindings := {|
  ParseInsertGlobalExitRoot _ := Err (ErrExternal 1);
  ParseRemoveLastGlobalExitRoot _ := Err (ErrExternal 1);
  ParseUpdateHashChainValue _ := Err (ErrExternal 1);
  ParseUpdateRemovalHashChainValue _ := Err (ErrExternal 1);
  ParseUpdateL1InfoTree _ := Err (ErrExternal 1);
  ParseBridgeEvent l := Ok (mkBridgeEvent 0 0 zero_address 1 zero_address 100 [] (fold_left (λ a x, a * 256 + Z_of_byte x) (lg_TxHash l) 0));
  ParseClaimEvent _ := Err (ErrExternal 1);
  ParseOldClaimEvent _ := Err (ErrExternal 1);
  ParseNewWrappedToken _ := Err (ErrExternal 1);
  ParseVerifyBatchesTrustedAggregator _ := Err (ErrExternal 1);
  ParseVerifyBatches _ := Err (ErrExternal 1);
|}.
#[local] Instance read_chain : ChainReader unit := {|
  FilterLogs _ := mret logs3; BlockByHash_Time _ := mret 44 |}.

Definition client0 : Client := mkClient [zero_address] true false 0.
Definition query0 : FilterQuery := mkFilterQuery 0 None [zero_address] [].
Abbreviation read0 := (readEvents client0 query0 tt).
Definition read_blocks : list Block := match read0 with (Ok (bs, _), _) => bs | _ => [] end.
Definition read_order : gmap bytes (list Order) := match read0 with (Ok (_, o), _) => o | _ => ∅ end.
Definition read_cfg : Config := mkConfig 0 0 10 5 false [0; 1] false 1 false ∅.

Lemma logs3_chain : chain_logs logs3.
Proof.
  split.
  - repeat constructor; cbn; lia.
  - intros a b Ha Hb.
    assert (Hall : ∀ l, l ∈ logs3 → lg_BlockHash l = ev_hash (500 + lg_BlockNumber l)).
    { apply Forall_forall. repeat constructor. }
    assert (Hnum : ∀ l, l ∈ logs3 → lg_BlockNumber l = 7 ∨ lg_BlockNumber l = 9).
    { apply Forall_forall. repeat constructor; cbn; lia. }
    rewrite (Hall a Ha), (Hall b Hb).
    destruct (Hnum a Ha) as [-> | ->], (Hnum b Hb) as [-> | ->]; split; intros H; try done; vm_compute in H; discriminate.
Qed.

Lemma read0_ok : readEvents client0 query0 tt = (Ok (read_blocks, read_order), tt).
Proof.
  assert (Hok : is_ok read0.1 = true) by computed. unfold read_blocks, read_order.
  by destruct read0 as [[[bs o]|e|p] []].
Qed.

Lemma readEvents_faithful_witness :
  readEvents client0 query0 tt = (Ok (read_blocks, read_order), tt) ∧ length read_blocks = 2%nat ∧
  StronglySorted Z.lt (blk_BlockNumber <$> read_blocks) ∧
  (∀ b, b ∈ read_blocks → block_events client0 logs3 b (default [] (read_order !! blk_BlockHash b))) ∧
  (∀ l ev, l ∈ logs3 → decode client0 l = Ok (Some ev) → lg_BlockHash l ∈ blk_BlockHash <$> read_blocks).
Proof.
  split; [exact read0_ok|]. split; [computed|].
  exact (readEvents_faithful client0 query0 logs3 tt read_blocks read_order tt tt eq_refl logs3_chain read0_ok).
Defined.

Lemma first_deposit_has_no_time_witness :
  ∃ d t s1, ParseBridgeEvent (deposit_log 7 70) = Ok d ∧
    getFullBlockTime (deposit_log 7 70) (mkScan tt [] ∅) = (Ok t, s1) ∧
    sc_blocks (process_depositEvent (deposit_log 7 70) (mkScan tt [] ∅)).2 =
      [] ++ [push_Deposit (depositEvent_deposit (deposit_log 7 70) d) (log_block (deposit_log 7 70) t)] ∧
    dep_Time (depositEvent_deposit (deposit_log 7 70) d) = zero_time.
Proof.
  apply (first_deposit_has_no_time (deposit_log 7 70) (mkScan tt [] ∅)); [done|computed].
Defined.

Definition block_read : Block := default (log_block (deposit_log 7 70) 0) (head read_blocks).
Lemma read_blocks_processed_witness :
  ∃ evs, timeless <$> evs = decoded client0 logs3 (blk_BlockHash block_read) ∧
    ∀ id tx flags (s : ClientSynchronizer unit),
      processElements read_cfg (set_blk_NetworkID (cfg_networkID read_cfg) block_read) id tx
        (default [] (read_order !! blk_BlockHash block_read)) flags s = process_events read_cfg evs id tx flags s.
Proof.
  apply (read_blocks_processed read_cfg client0 query0 logs3 tt tt tt read_blocks read_order block_read).
  - reflexivity.
  - exact logs3_chain.
  - exact read0_ok.
  - decided.
Defined.
