(* ===== verification/PushExamples.v ===== *)
(** * The theorems on Redis and the tasks, at a concrete server

    A server that is a finite map and answers every command. *)
From Stdlib Require Import Strings.String.
From stdpp Require Import pretty.
From S2P Require Import Prelude Types GlobalIndex Hashing MerkleStore Tables Storage MessageBridge EthClient Etherman Hex BridgeService.
From S2P Require Import Redis RedisFacts PushMessage GoFloat PushTask PushTaskFacts EstimateTime ClaimExamples.

(** ** The server *)
Abbreviation server := (gmap string RedisValue).
Definition serve {A} (f : server → res A * server) : M server A := f.
#[local] Instance map_redis : RedisClient server := {|
  redis_Set k a _ m := (Ok tt, <[k := RString (arg_text a)]> m);
  redis_Get k m := (match m !! k with Some (RString s) => Ok s | None => Err ErrRedisNil | _ => Err (ErrExternal 7) end, m);
  redis_SetNX k a _ m := match m !! k with None => (Ok true, <[k := RString (arg_text a)]> m) | Some _ => (Ok false, m) end;
  redis_Del k m := (Ok tt, delete k m);
  redis_HSet k fs m := (Ok tt, put_hash k (set_fields fs (hash_at k m)) m);
  redis_HMGet k fs m := (Ok ((λ f, hash_at k m !! f) <$> fs), m);
  redis_HVals k m := (Ok (map_to_list (hash_at k m)).*2, m);
  redis_HDel k f m := (Ok tt, put_hash k (delete f (hash_at k m)) m);
  redis_LPush k a m := (Ok (Z.of_nat (S (length (list_at k m)))), put_list k (arg_text a :: list_at k m) m);
  redis_RPop k m := match last (list_at k m) with
                    | Some s => (Ok s, put_list k (removelast (list_at k m)) m)
                    | None => (Err ErrRedisNil, m)
                    end;
  redis_LLen k m := (Ok (Z.of_nat (length (list_at k m))), m);
  redis_LRange k _ _ m := (Ok (list_at k m), m);
  redis_Expire k _ m := (Ok true, m);
|}.
#[local] Program Instance map_redis_ok : RedisOk server := {| kept m := m |}.
Solve All Obligations with (cbn; intros; simplify_eq; eauto).
Next Obligation.
  intros k e r e' [= <- <-]. split_and!; [done|intros s|]; destruct (e !! k) as [[]|]; congruence.
Qed.
Next Obligation. intros k a t e b e'. cbn. destruct (e !! k) eqn:H; intros [= <- <-]; [by eauto|done]. Qed.
Next Obligation. intros k fs e r e' [= <- <-]. split; [done|]. by intros l [= <-]. Qed.
Next Obligation. intros k e r e' [= <- <-]. split; [done|]. by intros l [= <-]. Qed.
Next Obligation.
  intros k e s e'. cbn. destruct (last (list_at k e)) as [x|] eqn:Hl; [|done]. intros [= <- <-].
  apply last_Some in Hl as (l & Hl). exists l. rewrite Hl. by rewrite removelast_last.
Qed.
Next Obligation. intros k e r e' [= <- <-]. split; [done|]. by intros n [= <-]. Qed.
#[local] Instance map_redis_up : RedisUp server.
Proof.
  split; cbn; eauto.
  - intros k e. destruct (e !! k) as [[]|]; eauto.
  - intros k a t e. destruct (e !! k); eauto.
Qed.
#[local] Instance push_texts : Texts := {| hash_text b := pretty (be_value b); error_text _ := ""%string |}.

(** ** Encodings *)
#[local] Instance deposit_countable : Countable Deposit.
Proof.
  refine (inj_countable'
    (λ d, (dep_Id d, dep_LeafType d, dep_OriginalNetwork d, dep_OriginalAddress d, dep_Amount d,
           dep_DestinationNetwork d, dep_DestinationAddress d, dep_DepositCount d,
           (dep_BlockID d, dep_BlockNumber d, dep_NetworkID d, dep_TxHash d, dep_Metadata d, dep_ReadyForClaim d,
            dep_Time d, dep_ReadyTime d, dep_DestContractAddress d)))
    (λ '(a, b, c, d, e, f, g, h, (i, j, k, l, m, n, o, p, q)), mkDeposit a b c d e f g h i j k l m n o p q) _).
  by intros [].
Defined.
#[local] Instance price_eq_dec : EqDecision SymbolPrice.
Proof. solve_decision. Defined.
#[local] Instance price_countable : Countable SymbolPrice.
Proof.
  refine (inj_countable' (λ p, (sp_Symbol p, sp_Price p, sp_Time p, sp_Address p, sp_ChainId p))
            (λ '(a, b, c, d, e), mkSymbolPrice a b c d e) _). by intros [].
Defined.
#[local] Instance bits_codec A `{Countable A} : Codec A := {|
  encode_text a := Some (bits (encode a)); decode_text s := unbits s ≫= decode |}.
#[local] Instance bits_codec_ok A `{Countable A} : CodecOk A.
Proof. intros a s [= <-]. cbn. destruct (bits_unbits (encode a)) as [_ ->]. apply decode_encode. Qed.

Definition rs0 : redisStorageImpl := mkRedisStorage true true "x:".
Definition dep_n (tx count : Z) : Deposit :=
  mkDeposit 0 0 0 [] 5 1 [] count 0 8 0 (be_bytes 2 tx) [] false 0 0 [].

(** Two deposits of one transaction and one of another. *)
Definition three_deposits : list Deposit := [dep_n 1 10; dep_n 1 11; dep_n 2 12].
Abbreviation server3 := (for_each three_deposits (AddBlockDeposit rs0) (∅ : server)).2.
Abbreviation listed3 := (match GetBlockDepositList rs0 0 8 server3 with (Ok l, _) => l | _ => [] end).
Lemma AddBlockDeposit_last_of_tx_witness :
  listed3 = [dep_n 1 11; dep_n 2 12] ∧
  ∀ d, d ∈ listed3 ↔ ∃ ds1 ds2, three_deposits = ds1 ++ d :: ds2 ∧
    ∀ d', d' ∈ ds2 → hash_text (dep_TxHash d') ≠ hash_text (dep_TxHash d).
Proof.
  split; [computed|].
  apply (AddBlockDeposit_last_of_tx rs0 three_deposits 0 8 (∅ : server) server3 listed3 server3).
  - repeat constructor.
  - computed.
  - computed.
  - computed.
Defined.

Definition price_n (t : Z) : SymbolPrice := mkSymbolPrice "ETH" 17 t "0xAB" 1.
Abbreviation priced := (SetCoinPrice rs0 [price_n 20; price_n 15] (∅ : server)).2.
Lemma SetCoinPrice_never_older_witness :
  getCoinPrice rs0 [mkSymbolInfo 1 "0xab"] priced = (Ok [price_n 15], priced) ∧
  sp_Time (price_n 15) ≤ sp_Time (price_n 15).
Proof.
  split; [computed|].
  apply (SetCoinPrice_never_older rs0 [price_n 12; price_n 10] priced
           (SetCoinPrice rs0 [price_n 12; price_n 10] priced).2 (mkSymbolInfo 1 "0xab") priced (price_n 15)
           (SetCoinPrice rs0 [price_n 12; price_n 10] priced).2 (price_n 15)); computed.
Defined.

(** ** Blocks of L1: the head is 75, and 64 blocks confirm *)
#[local] Instance example_batches : BatchNode server := {|
  JSONRPCCall _ _ := throw (ErrExternal 5); BlockByHash_Number _ := throw (ErrExternal 5); BlockNumber := mret 75 |}.
Definition tcfg0 : TaskConfig := mkTaskConfig rs0 (mkChainIds ∅ ∅ ∅) true 1 ∅ 64.
Definition deposits8 : gmap string string := hash_at (block_deposits_key rs0 0 8) server3.
Definition server70 : server :=
  <[addKeyPrefix rs0 l1BlockNumKey := RString (pretty 70)]> {[block_deposits_key rs0 0 8 := RHash deposits8]}.
Definition task70 : Task server := mkTask server70 initial_db [].

Lemma deposits8_readable : map_Forall (λ _ t, is_Some (decode_text (A := Deposit) t)) deposits8.
Proof. decided. Qed.
Lemma server70_readable b : readable_at tcfg0 server70 b.
Proof.
  assert (Hv : ∀ v, server70 !! block_deposits_key rs0 0 b = Some v → v = RHash deposits8).
  { intros v. unfold server70. rewrite lookup_insert_ne by (apply not_eq_sym, (block_key_num tcfg0)).
    by intros [_ <-]%lookup_singleton_Some. }
  split; [intros v H; exists deposits8; by apply Hv|]. unfold hash_at. cbn [pt_redis tcfg0].
  destruct (server70 !! block_deposits_key rs0 0 b) as [v|]; [rewrite (Hv v eq_refl)|]; cbn;
    [apply deposits8_readable|apply map_Forall_empty].
Qed.
Lemma server70_between : between_runs tcfg0 70 server70.
Proof. split_and!; [split; [lia|left; computed]|computed|apply server70_readable]. Qed.

Lemma doTask_every_block_once_witness :
  (doTask tcfg0 task70).2.(tk_spawned) = SpawnAutoClaim <$> [dep_n 1 11; dep_n 2 12] ∧
  ∃ s' o' ps, run_times 2 (doTask tcfg0) task70 = (Ok tt, s') ∧ 70 ≤ o' ∧ ((0 < 2)%nat → 75 ≤ o') ∧
    between_runs tcfg0 o' (kept (tk_env s')) ∧ tk_spawned s' = tk_spawned task70 ++ ps ∧
    told tcfg0 (kept (tk_env task70)) (blocks_between (confirmed tcfg0 70) (confirmed tcfg0 o')) ps.
Proof.
  split; [computed|].
  apply (doTask_every_block_once tcfg0 eq_refl).
  - intros e. exists 75, e. split_and!; [done|done|lia|lia|lia].
  - exact server70_between.
Defined.

(** A server whose lists of deposits cannot be read. *)
Definition broken : Type := server.
#[local] Instance broken_redis : RedisClient broken := {|
  redis_Set := redis_Set (E := server); redis_Get := redis_Get (E := server); redis_SetNX := redis_SetNX (E := server);
  redis_Del := redis_Del (E := server); redis_HSet := redis_HSet (E := server); redis_HMGet := redis_HMGet (E := server);
  redis_HVals k m := (Err (ErrExternal 7), m); redis_HDel := redis_HDel (E := server);
  redis_LPush := redis_LPush (E := server); redis_RPop := redis_RPop (E := server); redis_LLen := redis_LLen (E := server);
  redis_LRange := redis_LRange (E := server); redis_Expire := redis_Expire (E := server) |}.
#[local] Program Instance broken_ok : RedisOk broken := {| kept m := m |}.
Next Obligation. exact (Set_ok (E := server)). Qed.
Next Obligation. exact (Get_ok (E := server)). Qed.
Next Obligation. exact (SetNX_ok (E := server)). Qed.
Next Obligation. exact (Del_ok (E := server)). Qed.
Next Obligation. exact (HSet_ok (E := server)). Qed.
Next Obligation. exact (HMGet_ok (E := server)). Qed.
Next Obligation. intros k e r e' [= <- <-]. by split. Qed.
Next Obligation. exact (HDel_ok (E := server)). Qed.
Next Obligation. exact (LPush_ok (E := server)). Qed.
Next Obligation. exact (RPop_ok (E := server)). Qed.
Next Obligation. exact (LLen_ok (E := server)). Qed.
Next Obligation. exact (LRange_ok (E := server)). Qed.
Next Obligation. exact (Expire_ok (E := server)). Qed.
#[local] Instance broken_batches : BatchNode broken := {|
  JSONRPCCall _ _ := throw (ErrExternal 5); BlockByHash_Number _ := throw (ErrExternal 5); BlockNumber := mret 75 |}.
Definition broken70 : Task broken := mkTask (E := broken) server70 initial_db [].
Abbreviation locked70 := (<[addKeyPrefix rs0 l1BlockNumTaskLockKey := RString "1"]> server70 : broken).
Abbreviation skipped75 := (<[addKeyPrefix rs0 l1BlockNumKey := RString (pretty 75)]> locked70 : broken).
Abbreviation after75 := (delete (addKeyPrefix rs0 l1BlockNumTaskLockKey) skipped75 : broken).
Lemma doTask_skips_unreadable_witness :
  doTask tcfg0 broken70 = (Ok tt, mkTask after75 initial_db []) ∧
  kept (E := broken) skipped75 !! addKeyPrefix (pt_redis tcfg0) l1BlockNumKey = Some (RString (pretty 75)).
Proof.
  apply (doTask_skips_unreadable tcfg0 broken70 75 70 (ErrorfW "GetBlockDeposits HVals error" (ErrExternal 7))
           locked70 locked70 locked70 locked70 skipped75 after75); first [reflexivity|computed].
Defined.

(** ** A batch of blocks *)
Definition tables5 : tables :=
  set_block [mkBlockRow 1 (Some 5) (be_bytes 2 5) (Some 1) 0]
    (set_deposit [mkDepositRow (mkDeposit 1 0 0 [] 5 0 [] 0 1 0 1 (be_bytes 2 9) [] false 0 0 []) None] initial_tables).
Definition task5 : Task server := mkTask server70 (mkDatabase tables5 None initial_sequences 0 [] 0) [].
Lemma pushStatusChangedMsg_complete_witness :
  length (not_ready_between (3 + 1) 9 tables5) = 1%nat ∧
  pushStatusChangedMsg tcfg0 1 3 9 task5 =
  (Ok true, mkTask server70 (tk_db task5)
     (tk_spawned task5 ++ ((λ d, SpawnVerification d 10) <$> not_ready_between (3 + 1) 9 (db_committed (tk_db task5))))).
Proof.
  split; [computed|].
  apply (pushStatusChangedMsg_complete tcfg0 1 3 9 10 task5 server70); first [lia|computed].
Defined.

(** ** Three processes *)
Abbreviation lk := (addKeyPrefix rs0 "lock").
Abbreviation taken := (<[lk := RString "1"]> (∅ : server)).
Lemma lock_exclusive_witness :
  rtc (timely_step rs0 "lock") (mkLocking (∅ : server) ∅) (mkLocking taken {[4%nat]}) ∧ 4%nat = 4%nat.
Proof.
  assert (H : rtc (timely_step rs0 "lock") (mkLocking (∅ : server) ∅) (mkLocking taken {[4%nat]})).
  { eapply rtc_l; [left; apply (lock_acquire _ _ 4%nat ∅ taken); [done|computed]|].
    rewrite union_empty_r_L. apply rtc_refl. }
  split; [exact H|]. apply (lock_exclusive rs0 "lock" (mkLocking (∅ : server) ∅) (mkLocking taken {[4%nat]}) 4%nat 4%nat); [done|exact H|by apply elem_of_singleton..].
Defined.
Lemma lock_expiry_breaks_exclusion_witness :
  rtc (lock_step rs0 "lock") (mkLocking (∅ : server) ∅) (mkLocking taken {[2%nat; 1%nat]}) ∧
  rtc (lock_step rs0 "lock") (mkLocking (∅ : server) ∅) (mkLocking taken {[3%nat; 2%nat]}).
Proof.
  apply (lock_expiry_breaks_exclusion rs0 "lock" (∅ : server) taken (∅ : server) taken (∅ : server) taken); computed.
Defined.

(** ** Five commits, five minutes apart *)
Definition server_times : server :=
  {[addKeyPrefix rs0 commitBatchTimeListKey := RList ["1200"; "900"; "600"; "300"; "0"]%string]}.
Abbreviation after_commit := (freshCommitDuration tcfg0 1500 server_times).2.
Lemma freshCommitDuration_bounds_witness :
  after_commit !! addKeyPrefix rs0 avgCommitDurationKey = Some (RString "5") ∧
  average_ok tcfg0 (kept after_commit) ∧
  Z.of_nat (length (list_at (addKeyPrefix (pt_redis tcfg0) commitBatchTimeListKey) (kept after_commit))) ≤ commitDurationListLen ∧
  ∀ z e2, GetAvgCommitDuration tcfg0 after_commit = (Ok z, e2) → 3 ≤ z ≤ 10.
Proof.
  split; [computed|]. apply (freshCommitDuration_bounds tcfg0 1500 server_times).
  - left. computed.
  - by vm_compute.
  - computed.
Defined.

(** ** A deposit of L1 that took ninety seconds *)
Definition tables_ready : tables :=
  set_block [mkBlockRow 1 (Some 5) (be_bytes 2 5) (Some 0) (time_Unix 60)]
    (set_deposit [mkDepositRow (mkDeposit 1 0 0 [] 5 0 [] 0 1 0 0 (be_bytes 2 9) [] true 0 0 []) (Some (time_Unix 150))]
       initial_tables).
Definition calculator0 : calculatorImpl :=
  mkCalculator (mkDatabase tables_ready None initial_sequences 0 [] 0) defaultEstTimeConfig.
Lemma refreshAll_bounds_witness :
  ca_estimateTime (refreshAll (λ _, 0) calculator0).2 = [2; 60] ∧
  ∃ c', refresh_times (λ _, 0) 3 calculator0 = (Ok tt, c') ∧ estimates_ok c' ∧
    ∀ net, 0 ≤ net → ∃ t, Get_estimate c' net = Ok t ∧ 0 ≤ t ≤ defaultL2EstimateTime.
Proof.
  split; [computed|]. apply refreshAll_bounds. repeat constructor; vm_compute; congruence.
Defined.
