(* ===== verification/XLayerExamples.v ===== *)
(** * The theorems on the X Layer managers, caches and endpoints at concrete inputs

    The state of the outside is the Redis server; the nodes and the sender answer
    every request. *)
From Stdlib Require Import Strings.String.
From stdpp Require Import pretty.
From S2P Require Import Prelude Types GlobalIndex Hashing MonitoredTx MerkleStore MerkleTree Tables Storage.
From S2P Require Import EthClient TxMonitor Hex BridgeService Redis PushMessage GoFloat PushTask EstimateTime ClaimTxManager MessageBridge.
From S2P Require Import XLayerClaimTxManager ManagerLoop TokenLogo LocalCache XLayerService.
From S2P Require Import ClaimTxManagerFacts XLayerFacts XLayerServiceFacts ClaimExamples PushExamples.

#[local] Existing Instances example_runtime example_runtime_ok example_texts example_nonces example_nonces_ok.
#[local] Existing Instances example_keccak example_token_abi example_common example_lru map_redis map_redis_ok example_node.
#[local] Instance server_node : EthNode server := {|
  TransactionReceipt _ := mret (mkReceipt ReceiptStatusSuccessful 1);
  TransactionByHash _ := throw ErrNotFound; SendTransaction _ := mret tt; EstimateGas _ := mret 21000;
  SuggestGasPrice := mret 5; NonceAt _ := mret 3; Signer _ tx := mret (hash_n (900 + lt_Nonce tx));
|}.
#[local] Instance server_bridge : BridgeContract server := {|
  ClaimAsset a := mret (Some (be_bytes 20 2), be_bytes 4 1 ++ concat (take 1 (ca_smtProof a)));
  ClaimMessage a := mret (Some (be_bytes 20 2), be_bytes 4 2) |}.
#[local] Instance server_kafka : KafkaProducer server := λ _ _ _, mret tt.

Lemma ran_ok {A B} (p : res A * B) a : p.1 = Ok a → p = (Ok a, p.2).
Proof. destruct p. by intros [= ->]. Qed.

(** ** Global exit roots *)
Definition xcfg (opt : bool) : XLayerConfig := mkXLayerConfig mcfg false opt 10 tcfg0.
Abbreviation xmanager := (XLayerManager server (gmap bytes Z) cache).
(** The block of the deposit, and the exit root as the second network reports it. *)
Definition xtables : tables :=
  set_block [mkBlockRow 1 (Some 5) [] (Some 0) 7]
    (set_exit_root [mkExitRootRow trusted32 true; mkExitRootRow ger32 true] (db_committed stored32)).
Definition xmanager32 (faults : list (option fault)) : xmanager :=
  mkXLayer (mkClaimTxManager (mkClaimer ∅ no_nonces (mkDatabase xtables None initial_sequences 0 faults 0)) []) [].
(** The commit fails, and the process ends. *)
Definition xcommit_fault : list (option fault) := replicate 38 None ++ [Some (Refused 7)].
Abbreviation xrun opt faults := (updateDepositsStatusXLayer (xcfg opt) service32 trusted32 (xmanager32 faults)).

Lemma updateDepositsStatusXLayer_atomic_witness :
  db_committed (cl_db (tm_claimer (xm_tm (xrun false xcommit_fault).2))) = xtables ∧
  (xrun false xcommit_fault).1 = Panic "log.Fatalf".
Proof.
  split; [|computed].
  apply (updateDepositsStatusXLayer_atomic (xcfg false) service32 trusted32 (xmanager32 xcommit_fault) (xrun false xcommit_fault).1).
  - discriminate.
  - apply surjective_pairing.
  - computed.
Defined.

Abbreviation told32 := (xm_spawned (processDepositStatusL1 (xcfg true) service32 trusted32 (xmanager32 [])).2).
Lemma processDepositStatusL1_tells_committed_witness :
  ((λ p, match p with PushUpdate d st => (dep_DepositCount d, st) | _ => (0, 0) end) <$> told32) = [(0, TX_PENDING_AUTO_CLAIM)] ∧
  ∃ new, told32 = [] ++ new ∧ Forall (λ p, ∃ d, claim_message (xcfg true) d p ∧
    ready_l1 (dep_DepositCount d)
      (db_committed (cl_db (tm_claimer (xm_tm (processDepositStatusL1 (xcfg true) service32 trusted32 (xmanager32 [])).2))))) new.
Proof.
  split; [computed|].
  apply (processDepositStatusL1_tells_committed (xcfg true) service32 trusted32 (xmanager32 [])
           (processDepositStatusL1 (xcfg true) service32 trusted32 (xmanager32 [])).1).
  apply surjective_pairing.
Defined.

(** ** Claims that were sent *)
Definition sent3 : Claimer nat (gmap bytes Z) := (MonitorTxs tcfg claimer3).2.
Definition sent_tx : MonitoredTx := nth 0 (t_monitored (db_committed (cl_db sent3))) (tx_n 1 None).
Definition sent_hash : bytes := nth 0 (elements (mtx_History sent_tx)) zero_hash.
Lemma MonitorTxs_confirms_mined_witness :
  confirmed_row 1 (db_committed (cl_db (MonitorTxs tcfg sent3).2)) ∧ mtx_Status sent_tx = MonitoredTxStatusCreated.
Proof.
  split; [|computed].
  apply (MonitorTxs_confirms_mined tcfg sent3 (MonitorTxs tcfg sent3).2 sent_tx sent_hash).
  - decided.
  - decided.
  - computed.
  - computed.
  - unfold params_ok. decided.
  - decided.
  - intros e. by eexists _, _.
  - apply ran_ok. computed.
Defined.

(** A pass of the X Layer manager over a claim that has failed. *)
Definition failed_tx : MonitoredTx := set_mtx_Status MonitoredTxStatusFailed (tx_n 1 None).
Definition xmanager_failed : xmanager :=
  mkXLayer (mkClaimTxManager (mkClaimer ∅ no_nonces
    (mkDatabase (set_monitored [failed_tx; tx_n 2 None] claims3) None initial_sequences 0 [] 0)) []) [].
Abbreviation passed := (monitorTxsXLayer (xcfg true) xmanager_failed).
Lemma monitorTxsXLayer_final_statuses_witness :
  failed_tx ∈ t_monitored (db_committed (cl_db (tm_claimer (xm_tm passed.2)))) ∧ passed.1 = Ok tt ∧
  (mtx_Nonce <$> t_monitored (db_committed (cl_db (tm_claimer (xm_tm passed.2))))) = [0; 3].
Proof.
  split; [|split; computed].
  apply (monitorTxsXLayer_final_statuses (xcfg true) xmanager_failed passed.1).
  - computed.
  - decided.
  - apply surjective_pairing.
  - by left.
  - discriminate.
Defined.

(** ** The loop: the manager counts what it processes *)
Definition ger_n (n : Z) : GlobalExitRoot := mkGlobalExitRoot 0 0 [] (hash_n n) 1 n 0.
Definition count_ger (g : GlobalExitRoot) : M nat unit := modify S.
Definition idle : M nat unit := mret tt.
Definition events : list LoopEvent :=
  [GerEvent (ger_n 1); SyncedEvent 1; GerEvent (ger_n 2); SyncedEvent 0; GerEvent (ger_n 3); MonitorTick; GerEvent (ger_n 4)].
Abbreviation looped labels := (for_each labels (run_label 1 false count_ger idle) (loop_start 0%nat)).
Definition labels0 : list LoopLabel := (Receives <$> events) ++ [Goroutine; Goroutine].
Lemma nothing_before_synced_witness :
  ger_ID <$> lp_processed (looped labels0).2 = [4; 4] ∧
  Forall (received labels0) (lp_processed (looped labels0).2) ∧
  (lp_processed (looped labels0).2 ≠ [] → Receives (SyncedEvent 0) ∈ labels0 ∧ Receives (SyncedEvent 1) ∈ labels0).
Proof.
  split; [computed|].
  apply (nothing_before_synced 1 false count_ger idle labels0 0%nat (looped labels0).1).
  apply surjective_pairing.
Defined.
Lemma gers_processed_in_turn_witness :
  gers_after_sync 1 false false events = [ger_n 3; ger_n 4] ∧
  ∃ s', for_each events (run_in_turn 1 false count_ger idle) (loop_start 0%nat) = (Ok tt, s') ∧
    lp_processed s' = gers_after_sync 1 false false events.
Proof.
  split; [computed|].
  apply (gers_processed_in_turn 1 false count_ger idle); [by intros ? ? ? ?|by intros ? ? ?|done].
Defined.
Lemma captured_ger_is_lost_witness :
  let s := mkLoop 0%nat true true (ger_n 1) zero_hash 0 [] in
  ∃ s', for_each [Receives (GerEvent (ger_n 2)); Receives (GerEvent (ger_n 3)); Goroutine; Goroutine]
          (run_label 1 false count_ger idle) s = (Ok tt, s') ∧
    lp_pending s' = 0%nat ∧ lp_processed s' = lp_processed s ++ [ger_n 3; ger_n 3].
Proof.
  intros s. apply (captured_ger_is_lost 1 false count_ger idle); [by intros ? ? ? ?|done..].
Defined.

(** ** The cache of the main coins *)
Definition coin_row (n : Z) (deleted : bool) : main_coin_row :=
  mkMainCoinRow (mkCoinInfo "OKB" "OKB" 18 1 n "" (be_bytes 1 n)) deleted.
Lemma doRefresh_small_witness :
  ∃ c, doRefresh 6 (mkMainCoinsCache ∅ (mkCoinStorage [coin_row 0 false; coin_row 1 false; coin_row 0 true]
      ([Some (Refused 7); Some (Refused 7)] ++ [None]))) = (Ok true, c) ∧
    ∀ networkID, GetMainCoinsByNetwork networkID c =
      (Ok (coins_of networkID (all_coins [coin_row 0 false; coin_row 1 false; coin_row 0 true])), c).
Proof.
  apply (doRefresh_small 6 [Some (Refused 7); Some (Refused 7)] [None]); [cbn; lia| |decided|by right|decided].
  repeat constructor; by exists 7.
Defined.
Lemma doRefresh_never_ends_witness :
  let st := mkMainCoinsCache {[1 := [mc_coin (coin_row 1 false)]]} (mkCoinStorage (replicate 100 (coin_row 1 false)) []) in
  doRefresh 50 st = (Ok false, st).
Proof. intros st. apply doRefresh_never_ends. decided. Defined.

(** ** The endpoints *)
#[local] Instance no_logos : LogoService server := λ _, mret [].
#[local] Instance logo_eq_dec : EqDecision LogoInfo.
Proof. solve_decision. Defined.
#[local] Instance logo_countable : Countable LogoInfo.
Proof.
  refine (inj_countable' (λ l, (li_LogoUrl l, li_LogoOssUrl l, li_ChainIdStr l, li_TokenContractAddress l, li_TokenSymbol l,
            li_Unit l, li_TokenName l)) (λ '(a, b, c, d, e, f, g), mkLogoInfo a b c d e f g) _). by intros [].
Defined.
#[local] Instance logo_codec : Codec LogoInfo := bits_codec LogoInfo.
(** The sender keeps what it sent. *)
#[local] Instance keeping_sender : BridgeSender server := {|
  SendClaimAsset client a := modify <["sent" := RString (pretty client)]>;; mret (hash_n 77);
  SendClaimMessage client a := mret (hash_n 78) |}.

Definition user : bytes := be_bytes 20 7.
Definition udep (count : Z) (ready : bool) : deposit_row :=
  mkDepositRow (mkDeposit (count + 1) 0 0 zero_address 100 1 user count 1 0 0 (hash_n (50 + count)) [] ready 0 0 zero_address) None.
Definition uclaim : Claim := mkClaim true 0 1 0 zero_address 100 user 2 0 1 (hash_n 60) 0.
(** Three deposits: not ready, claimed, and ready. *)
Definition utables : tables :=
  set_claim [uclaim] (set_deposit [udep 0 true; udep 1 true; udep 2 false] xtables).
Definition xs0 (t : tables) : XService server cache :=
  mkXService {[addKeyPrefix rs0 l1BlockNumKey := RString (pretty 10)]} [] (mkDatabase t None initial_sequences 0 [] 0).
Definition calc0 : calculatorImpl := mkCalculator initial_db [15; 60].
Definition no_float (f : float64) : Z := 0.
Abbreviation answer := (GetAllTransactions no_float service32 tcfg0 1 false calc0 user 2 0 (xs0 utables)).
Abbreviation answered := (match answer.1 with Ok (Answer p) => p | _ => (false, []) end).
(** The same request when the read breaks off after one row. *)
Definition xs_broken : XService server cache :=
  mkXService (xv_env (xs0 utables)) [] (mkDatabase utables None initial_sequences 0 [Some (Broken 1 7)] 0).
Abbreviation broken_answer := (GetAllTransactions no_float service32 tcfg0 1 false calc0 user 2 0 xs_broken).
Abbreviation broken_answered := (match broken_answer.1 with Ok (Answer p) => p | _ => (true, []) end).
Lemma GetAllTransactions_answer_witness :
  (answered.1, (λ tx, (tr_Index tx, tr_Status tx)) <$> answered.2) = (true, [(2, TX_CREATED); (1, TX_CLAIMED)]) ∧
  (broken_answered.1, (λ tx, (tr_Index tx, tr_Status tx)) <$> broken_answered.2) = (false, [(2, TX_CREATED)]) ∧
  let deposits := list_full (λ _ d, user_deposits (FromHex user) (GetContractAddressList (pt_processors tcfg0)) 1 (dr_dep d)) utables in
  (Forall2 (shows utables) (page (page_limit service32 2) 0 deposits) answered.2 ∧
   (answered.1 = true ↔ 0 + page_limit service32 2 < Z.of_nat (length deposits))) ∧
  (Forall2 (shows utables) (take 1 (page (page_limit service32 2) 0 deposits)) broken_answered.2 ∧
   (broken_answered.1 = true ↔ 0 + page_limit service32 2 < Z.of_nat (length deposits) ∧ page_limit service32 2 < Z.of_nat 1)).
Proof.
  split; [computed|]. split; [computed|]. split.
  - apply (GetAllTransactions_answer no_float service32 tcfg0 1 false calc0 user 2 0 (xs0 utables) answered.1 answered.2 answer.2).
    + decided.
    + lia.
    + apply ran_ok. computed.
  - apply (GetAllTransactions_answer no_float service32 tcfg0 1 false calc0 user 2 0 xs_broken broken_answered.1 broken_answered.2 broken_answer.2).
    + decided.
    + lia.
    + apply ran_ok. computed.
Defined.

(** The head of L1 in Redis is behind the block of the deposit. *)
Lemma stale_head_shows_auto_claim_witness :
  let h := mkHeads 3 0 3 3 0 in
  let d := mkDeposit 1 0 0 zero_address 100 1 user 0 1 5 0 (hash_n 50) [] false 0 0 zero_address in
  ∃ tx s', pending_transaction no_float tcfg0 calc0 h d (xs0 utables) = (Ok tx, s') ∧ tr_Status tx = TX_PENDING_AUTO_CLAIM.
Proof.
  intros h d. eexists _, _. split; [|apply (stale_head_shows_auto_claim no_float tcfg0 calc0 h d (xs0 utables) _ (xs0 utables))];
    [reflexivity|done|done|decided|decided|decided|reflexivity].
Defined.

(** The user claims the ready deposit; the second time its root is not stored. *)
Abbreviation claimed := (ManualClaim service32 {[1]} 0 user (hash_n 50) (xs0 utables)).
Lemma ManualClaim_sends_claimable_witness :
  claimed.1 = Ok (Answer (x30 :: x78 :: hash_n 77)) ∧ 0 = 0 ∧ ∃ row d, row ∈ t_deposit utables ∧ join_full utables row = Some d ∧
    dep_NetworkID (dr_dep row) = 0 ∧ dep_DestinationAddress (dr_dep row) = user ∧ dep_TxHash (dr_dep row) = hash_n 50 ∧
    dep_ReadyForClaim (dr_dep row) = true ∧ ¬ deposit_is_claimed utables (dr_dep row).
Proof.
  split; [computed|].
  destruct (ManualClaim_sends_claimable service32 {[1]} 0 user (hash_n 50) (xs0 utables) claimed.1 claimed.2)
    as (H0 & row & d & H1 & H2 & H3 & H4 & H5 & H6 & H7 & _).
  - apply surjective_pairing.
  - intros H%(f_equal (lookup "sent")). revert H. vm_compute. discriminate.
  - split; [exact H0|]. exists row, d. split_and!; assumption.
Defined.
Definition no_root : tables := set_exit_root [] utables.
Lemma ManualClaim_without_proof_panics_witness :
  (ManualClaim service32 {[1]} 0 user (hash_n 50) (xs0 no_root)).1 = Panic "index out of range".
Proof.
  rewrite (ManualClaim_without_proof_panics service32 {[1]} user (hash_n 50) (xs0 no_root)
    (match join_full no_root (udep 0 true) with Some d => set_dep_Id 0 (set_dep_Time zero_time d) | None => deposit0 end)
    (xv_db (xs0 no_root)) ErrStorageNotFound (xv_db (xs0 no_root)) ErrStorageNotFound [] (xv_db (xs0 no_root)));
    [reflexivity|computed|computed|decided|computed|computed|computed].
Defined.

Definition l1_deposit : Deposit := deposit0.
Lemma BuildSendClaimXLayer_same_witness :
  BuildSendClaimXLayer (xcfg true) l1_deposit [] [] root32 zero_hash (∅ : server) =
    BuildSendClaim l1_deposit [] [] root32 zero_hash (∅ : server).
Proof. rewrite (BuildSendClaimXLayer_same (xcfg true) l1_deposit); [reflexivity|done|decided|done]. Defined.
