(* ===== verification/AutoExamples.v ===== *)
(** * The theorems on the auto claim service, at a concrete pair of deposits

    Two ready deposits of the first network to the second, a server that answers
    with what the bridge service computes from the tables, and contracts that
    record what they are called with. *)
From Stdlib Require Import Strings.String Strings.Ascii.
From stdpp Require Import pretty.
From S2P Require Import Prelude Types GlobalIndex Hashing Hex Http MerkleStore MerkleTree MerkleSpec MerkleTreeFacts.
From S2P Require Import Tables Storage BridgeService Redis RedisFacts AutoClaim AutoClaimFacts.
#[local] Open Scope Z_scope.

#[local] Instance example_keccak : Keccak := toy_keccak.
#[local] Instance example_token_abi : TokenAbi := λ _, None.
(** Texts in hexadecimal, without the checks of go-ethereum. *)
Definition unhex (b : bytes) : bytes := match DecodeHex b with Ok x => x | _ => [] end.
#[local] Instance hex_common : Common := {|
  Hash_String := EncodeToHex; Address_Hex := EncodeToHex; FromHex := unhex; HexToAddress := unhex; HexToHash := unhex |}.
Lemma unhex_encode b : unhex (EncodeToHex b) = b.
Proof. unfold unhex. by destruct (DecodeHex_EncodeToHex b) as (-> & _). Qed.
#[local] Instance hex_common_ok : CommonOk.
Proof. split; intros; apply unhex_encode. Qed.
(** A cache that keeps nothing. *)
#[local] Instance no_cache : LruCache unit := {|
  lru_New _ := Some tt; lru_Get _ _ := (None, tt); lru_Add _ _ _ := tt |}.

Definition auto_deposit (n : Z) : Deposit :=
  mkDeposit 0 0 0 zero_address (100 + n) 1 (be_bytes 20 (7 + n)) n 1 5 0 (be_bytes 32 (50 + n)) [] true 0 0 zero_address.
Definition auto_leaf (n : Z) : bytes := match hashDeposit (auto_deposit n) with Ok x => x | _ => zero_hash end.
Definition auto_tree : MerkleTree := mkMerkleTree 0 32 0 (take 32 zeroHashes).
Definition auto_root : bytes := Eval vm_compute in
  match buildMTRoot 32 [auto_leaf 0; auto_leaf 1] with Ok r => r | _ => zero_hash end.
Definition auto_tables : tables :=
  set_deposit [mkDepositRow (auto_deposit 0) None; mkDepositRow (set_dep_Id 1 (auto_deposit 1)) None]
    (set_exit_root [mkExitRootRow (mkGlobalExitRoot 1 0 [auto_root; zero_hash] (be_bytes 32 33) 0 1 0) true;
                    mkExitRootRow (mkGlobalExitRoot 0 0 [auto_root; zero_hash] (be_bytes 32 33) 1 2 0) true]
      (set_block [mkBlockRow 1 (Some 5) (be_bytes 32 5) (Some 0) 0] initial_tables)).
Definition auto_db : database := Eval vm_compute in
  let s1 := (addLeaf 0 (auto_leaf 0) 0 nil_tx (auto_tree, mkDatabase auto_tables None initial_sequences 0 [] 0)).2 in
  (addLeaf 1 (auto_leaf 1) 1 nil_tx s1).2.2.
Definition auto_service : bridgeService := mkBridgeService 32 {[0 := 0]} 25 100 "v1".
Definition auto_cfg (size : Z) : AutoClaimConfig := mkAutoClaimConfig [] size "http://b" 1 true.

(** ** The server *)
Definition answer_of (n : Z) : option pb_Proof :=
  match (GetProof auto_service n 0 (tt, auto_db)).1 with Ok p => Some p | _ => None end.
Definition auto_answer0 : option pb_Proof := Eval vm_compute in answer_of 0.
Definition auto_answer1 : option pb_Proof := Eval vm_compute in answer_of 1.
Definition auto_pending : list pb_Deposit * Z :=
  Eval vm_compute in
    match (GetPendingBridgesToClaim auto_service (Address_Hex zero_address) 1 0 0 0 (tt, auto_db)).1 with
    | Ok l => l | _ => ([], 0) end.

(** The claims that were sent, and the calls to the compressor. *)
Record chain := mkChain { ch_sent : list (Z * auto_claim_args); ch_calls : list group_call }.
#[local] Instance auto_contracts : ClaimContracts chain := {|
  bind_ClaimAsset noSend a e :=
    (Ok (be_bytes 32 1), if noSend then e else mkChain (ch_sent e ++ [(LeafTypeAsset, a)]) (ch_calls e));
  bind_ClaimMessage noSend a e :=
    (Ok (be_bytes 32 2), if noSend then e else mkChain (ch_sent e ++ [(LeafTypeMessage, a)]) (ch_calls e));
  bind_CompressClaimCall m r l e := (Ok [x01], mkChain (ch_sent e) (ch_calls e ++ [Compress m r l]));
  bind_SendCompressedClaims b e := (Ok (be_bytes 32 3), mkChain (ch_sent e) (ch_calls e ++ [Send b]));
|}.
(** The bodies stand for the answers they encode. *)
#[local] Instance auto_json : ProtoJson := {|
  Unmarshal_GetProofResponse body :=
    if bool_decide (body = "P0") then Ok auto_answer0
    else if bool_decide (body = "P1") then Ok auto_answer1 else Err (ErrExternal 1);
  Unmarshal_GetBridgesResponse body := if bool_decide (body = "B") then Ok auto_pending else Err (ErrExternal 1);
|}.
Definition auto_body (url : string) : option string :=
  if bool_decide (url = "http://b/pending-bridges?dest_net=1&leaf_type=0&dest_addr=0x0000000000000000000000000000000000000000") then Some "B"
  else if bool_decide (url = "http://b/merkle-proof?net_id=0&deposit_cnt=0") then Some "P0"
  else if bool_decide (url = "http://b/merkle-proof?net_id=0&deposit_cnt=1") then Some "P1"
  else if bool_decide (String.prefix "http://b/merkle-proof-by-ger?net_id=0&deposit_cnt=1&ger=" url) then Some "P1"
  else None.
#[local] Instance auto_http : HttpClient chain := {|
  check_request _ _ := None;
  http_Do r e :=
    (Ok (match auto_body (hq_URL r) with
         | Some b => mk_http_Response StatusOK (Ok b) | None => mk_http_Response 404 (Ok "") end), e);
|}.

(** *** Its answers are those of the bridge service *)
Lemma pretty_neg z : z < 0 → ∃ s, pretty z = String "-" s.
Proof. destruct z as [|p|p]; [lia..|]. intros _. by eexists. Qed.
(** A number before a separator, in one way. *)
Lemma number_cut c sep (x : string) (n z : Z) : 0 ≤ n → digit_value sep = None → sep ≠ "-"%char →
  pretty z +:+ String sep x = pretty n +:+ String sep c → z = n ∧ x = c.
Proof.
  intros Hn Hs Hd H. destruct (decide (z < 0)) as [Hz|Hz].
  - exfalso. destruct (pretty_neg z Hz) as [s Es]. rewrite Es in H.
    pose proof (all_digits_pretty n Hn) as Ha. destruct (pretty n) as [|d t]; cbn in H; [by injection H as <- _|].
    injection H as <- _. by apply andb_True in Ha as [Ha _].
  - apply digits_cut in H as [H ->]; [|done|by apply all_digits_pretty; lia|by apply all_digits_pretty].
    by apply (inj pretty) in H as ->.
Qed.
Lemma proof_url_inj size b (n : Z) :
  proof_url (auto_cfg size) b = "http://b/merkle-proof?net_id=0&deposit_cnt=" +:+ pretty n →
  pd_NetworkId b = 0 ∧ pd_DepositCnt b = n.
Proof.
  intros H. unfold proof_url in H. cbn [auto_cfg au_BridgeURL] in H.
  change ("http://b/merkle-proof?net_id=0&deposit_cnt=" +:+ pretty n) with
    ("http://b" +:+ "/merkle-proof?net_id=" +:+ pretty 0 +:+ "&deposit_cnt=" +:+ pretty n) in H.
  apply (inj (String.append _)), (inj (String.append _)) in H.
  change ("&deposit_cnt=" +:+ pretty n) with (String "&" ("deposit_cnt=" +:+ pretty n)) in H.
  change ("&deposit_cnt=" +:+ pretty (pd_DepositCnt b)) with (String "&" ("deposit_cnt=" +:+ pretty (pd_DepositCnt b))) in H.
  apply number_cut in H as [-> H]; [|done..]. apply (inj (String.append _)), (inj pretty) in H. done.
Qed.
(** The two endpoints differ. *)
Lemma by_ger_is_no_proof size b :
  String.prefix "http://b/merkle-proof-by-ger?net_id=0&deposit_cnt=1&ger=" (proof_url (auto_cfg size) b) = false.
Proof. done. Qed.
Lemma served0 : GetProof auto_service 0 0 (tt, auto_db) = (Ok (default (mk_pb_Proof [] [] [] []) auto_answer0), (tt, auto_db)).
Proof. computed. Qed.
Lemma served1 : GetProof auto_service 1 0 (tt, auto_db) = (Ok (default (mk_pb_Proof [] [] [] []) auto_answer1), (tt, auto_db)).
Proof. computed. Qed.
Lemma pending_url_inj size leafType addr :
  pending_url (auto_cfg size) leafType addr =
    "http://b/pending-bridges?dest_net=1&leaf_type=0&dest_addr=0x0000000000000000000000000000000000000000" →
  leafType = 0 ∧ addr = zero_address.
Proof.
  intros H. unfold pending_url in H.
  change "http://b/pending-bridges?dest_net=1&leaf_type=0&dest_addr=0x0000000000000000000000000000000000000000" with
    ("http://b" +:+ "/pending-bridges?dest_net=" +:+ pretty 1 +:+ "&leaf_type=" +:+ pretty 0 +:+
     String "&" ("dest_addr=" +:+ text (EncodeToHex zero_address))) in H.
  cbn [auto_cfg au_BridgeURL au_NetworkID] in H. do 4 apply (inj (String.append _)) in H.
  change ("&dest_addr=" +:+ text (Address_Hex addr)) with (String "&" ("dest_addr=" +:+ text (EncodeToHex addr))) in H.
  apply number_cut in H as [-> H]; [|done..]. split; [done|]. apply (inj (String.append _)) in H.
  unfold text in H. apply (f_equal list_byte_of_string) in H. rewrite !list_byte_of_string_of_list_byte in H.
  by rewrite <- (unhex_encode addr), H, unhex_encode.
Qed.

Lemma auto_Get url e res e' body : http_Get url e = (Ok res, e') → hr_StatusCode res = StatusOK →
  hr_Body res = Ok body → auto_body url = Some body.
Proof.
  intros H Hs Hb. assert (http_Get url e = (Ok (match auto_body url with
    | Some b => mk_http_Response StatusOK (Ok b) | None => mk_http_Response 404 (Ok "") end), e)) as E by reflexivity.
  rewrite H in E. destruct (auto_body url); injection E as -> _; [by injection Hb as ->|done].
Qed.
#[local] Instance auto_rest size : RestServer auto_service (auto_cfg size) (λ _ : chain, (tt, auto_db)).
Proof.
  split.
  - intros b e res e' body Hg Hs Hb. pose proof (auto_Get _ _ _ _ _ Hg Hs Hb) as H. clear Hg. unfold auto_body in H.
    rewrite by_ger_is_no_proof, bool_decide_false in H by (by unfold proof_url). revert H.
    case_bool_decide as H0; [|case_bool_decide as H1; [|done]]; intros [= <-].
    + apply (proof_url_inj size b 0) in H0 as [-> ->]. eexists. split; [exact served0|done].
    + apply (proof_url_inj size b 1) in H1 as [-> ->]. eexists. split; [exact served1|done].
  - intros leafType addr e res e' body Hg Hs Hb. pose proof (auto_Get _ _ _ _ _ Hg Hs Hb) as H. clear Hg.
    unfold auto_body in H. revert H.
    case_bool_decide as H0.
    + apply (pending_url_inj size) in H0 as [-> ->]. intros [= <-]. exists auto_pending. split; [computed|done].
    + rewrite !bool_decide_false by (by unfold pending_url). done.
  - done.
Qed.
#[local] Instance auto_log : ClaimLog ch_sent.
Proof. split; [by intros r e x e' [= _ <-]|by intros a e r e' [= _ <-]..]. Qed.
#[local] Instance auto_estimates : SteadyEstimates (E := chain) (λ _ _, true).
Proof. split; intros a e; eexists; by split_and!. Qed.
#[local] Instance auto_groups : GroupLog ch_calls.
Proof. split; [by intros r e x e' [= _ <-]|by intros m r l e x e' [= _ <-]|by intros b e x e' [= _ <-]]. Qed.

Definition chain0 : chain := mkChain [] [].
Abbreviation single_pass := (claimIndividually (auto_cfg 0) chain0).
Abbreviation group_pass := (claimGrouped (auto_cfg 1) chain0).
Lemma single_pass_ends : single_pass = (Ok tt, single_pass.2).
Proof. computed. Qed.
Lemma group_pass_ends : group_pass = (Ok tt, group_pass.2).
Proof. computed. Qed.

Lemma arraySplitter_chunks_witness :
  (0 < 2 → ∃ chunks, arraySplitter 6 [1; 2; 3; 4; 5] 2 = Some (Ok chunks) ∧ concat chunks = [1; 2; 3; 4; 5] ∧
     Forall (λ c, 0 < Z.of_nat (length c) ≤ 2) chunks ∧
     ∀ i c, chunks !! i = Some c → (S i < length chunks)%nat → Z.of_nat (length c) = 2) ∧
  arraySplitter 6 [1; 2; 3; 4; 5] 2 = Some (Ok [[1; 2]; [3; 4]; [5]]).
Proof.
  split; [|computed]. apply (arraySplitter_chunks [1; 2; 3; 4; 5] 2 6). cbn. lia.
Defined.

(** Both deposits are claimed, in their order. *)
Lemma claimIndividually_managers_claims_witness :
  (∃ bridges e1 claims, getBridgesToClaim (auto_cfg 0) chain0 = (Ok bridges, e1) ∧
     ch_sent single_pass.2 = [] ++ claims ∧
     Forall2 (claim_of auto_service (auto_cfg 0) (λ _ : chain, (tt, auto_db)) (db_committed auto_db)) bridges claims) ∧
  (λ c, (c.1, aa_globalIndex c.2, aa_amount c.2)) <$> ch_sent single_pass.2 =
    [(0, Some (2 ^ 64), Some 100); (0, Some (2 ^ 64 + 1), Some 101)].
Proof.
  split; [|computed].
  apply (claimIndividually_managers_claims auto_service (auto_cfg 0) (λ _, (tt, auto_db)) ch_sent _ _ chain0).
  - reflexivity.
  - decided.
  - constructor.
  - reflexivity.
  - exact single_pass_ends.
Defined.

(** Each deposit in a group of its own. *)
Lemma claimGrouped_groups_witness :
  (∃ bridges e1, getBridgesToClaim (auto_cfg 1) chain0 = (Ok bridges, e1) ∧
    match bridges with
    | [] => ch_calls group_pass.2 = []
    | b :: rest => ∃ p e2 proofs e3 groups finished stopped sends,
        let main := HexToHash (pp_MainExitRoot p) in let rollup := HexToHash (pp_RollupExitRoot p) in
        getProof (auto_cfg 1) b e1 = (Ok (Some p), e2) ∧
        get_proofs_by_ger (auto_cfg 1) (hash [main; rollup]) rest e2 = (Ok proofs, e3) ∧ length proofs = length rest ∧
        concat groups = zip bridges (Some p :: proofs) ∧
        Forall (λ g, 0 < Z.of_nat (length g) ≤ 1) groups ∧
        (∀ i g, groups !! i = Some g → (S i < length groups)%nat → Z.of_nat (length g) = 1) ∧
        groups = finished ++ stopped ∧ Forall2 (group_sent (λ _ _, true) main rollup) finished sends ∧
        ch_calls group_pass.2 = [] ++ concat sends ∧
        Forall (λ sb, Forall (has_args main rollup) sb ∧ group_entries (λ _ _, true) main rollup sb ≠ []) finished ∧
        (stopped = [] ∨ ∃ sb rest', stopped = sb :: rest' ∧ Forall (has_args main rollup) sb ∧
           group_entries (λ _ _, true) main rollup sb = [])
    end) ∧
  (λ c, match c with Compress _ _ l => ac_GlobalIndex <$> l | Send _ => [] end) <$> ch_calls group_pass.2 =
    [[Some (2 ^ 64)]; []; [Some (2 ^ 64 + 1)]; []].
Proof.
  split; [|computed].
  apply (claimGrouped_groups (auto_cfg 1) (λ _ _, true) ch_calls chain0 group_pass.2).
  - reflexivity.
  - exact group_pass_ends.
Defined.
