(* ===== verification/ServiceExamples.v ===== *)
(** * The theorems on the services around the core, at concrete inputs

    A consumer whose writes fail after they were applied, the producer for tests,
    a gateway with a list of addresses and a limit of requests, the monitor of a network without claims,
    and a database that a few typed calls bring about. *)
From Stdlib Require Import Strings.String.
From stdpp Require Import pretty.
From S2P Require Import RpcClient.
From S2P Require Import Prelude Types Hashing MerkleStore MerkleTree MerkleSpec Tables Storage StorageFacts SchemaInv TableInv.
From S2P Require Import NetTrees SyncFacts StorageProps EthClient Hex BridgeService Http Redis RedisFacts PushMessage.
From S2P Require Import GlobalIndex MerkleTreeFacts MerkleDense MerkleReset BridgeCtrl MessageBridge Synchronizer BridgeServiceFacts EndToEnd.
From S2P Require Import CoinMiddleware Producers Gateway ChannelMonitor TypedRows Examples PushExamples.

(** ** Prices: the first write of every message fails, and was applied *)
Record consumer := mkConsumer { cs_map : gmap string RedisValue; cs_marks : list ConsumerMessage; cs_faults : nat }.
Definition refuse {A} : M consumer A := throw (ErrExternal 9).
#[local] Instance consumer_redis : RedisClient consumer := {|
  redis_Set k a t := refuse; redis_Get k := refuse; redis_SetNX k a t := refuse; redis_Del k := refuse;
  redis_HSet k fs e :=
    let m := put_hash k (set_fields fs (hash_at k (cs_map e))) (cs_map e) in
    match cs_faults e with
    | O => (Ok tt, mkConsumer m (cs_marks e) 0)
    | S n => (Err (ErrExternal 9), mkConsumer m (cs_marks e) n)
    end;
  redis_HMGet k fs e := (Ok ((λ f, hash_at k (cs_map e) !! f) <$> fs), e);
  redis_HVals k := refuse; redis_HDel k f := refuse; redis_LPush k a := refuse; redis_RPop k := refuse;
  redis_LLen k := refuse; redis_LRange k a b := refuse; redis_Expire k t := refuse;
|}.
#[local] Instance consumer_redis_ok : RedisOk consumer.
Proof.
  refine {| kept := cs_map |}; cbn; unfold refuse, throw; cbn; try by (intros; simplify_eq; eauto).
  - intros k fs e e'. destruct (cs_faults e); by intros [= <-].
  - intros k fs e r e' [= <- <-]. split; [done|]. by intros l [= <-].
Defined.
#[local] Instance consumer_session : ConsumerSession consumer := λ m e,
  (Ok tt, mkConsumer (cs_map e) (cs_marks e ++ [m]) (cs_faults e)).
#[local] Existing Instances price_countable bits_codec bits_codec_ok push_texts.

Definition price_info (time : Z) : PriceInfo :=
  mkPriceInfo 1 1 "ETH" "Ether" "eth" "0xAB" (17 + time) 1 0 0 0 time 0 0 0 0 0 0 0 0 0 false 0.
(** The third message is none. *)
#[local] Instance consumer_json : MessageJson := λ s,
  if bool_decide (s = "new") then Ok (mkMessageBody (Some (mkMessageData "1" [Some (price_info 20)])) "p")
  else if bool_decide (s = "old") then Ok (mkMessageBody (Some (mkMessageData "2" [Some (price_info 15)])) "p")
  else Err ErrEncoding.
Definition three_messages : list ConsumerMessage :=
  (λ s, mkConsumerMessage "p" 0 0 s) <$> ["new"; "old"; "bad"]%string.
Abbreviation consumed := (ConsumeClaim rs0 ((KMessage <$> three_messages) ++ [KDone]) (mkConsumer ∅ [] 1)).
Lemma consumed_ends : consumed = (Ok tt, consumed.2).
Proof. computed. Qed.
Lemma consumer_ok : ConsumerOk consumer cs_marks.
Proof.
  split.
  - intros k fs e err e'. cbn. destruct (cs_faults e); intros [= <- <-]. by right.
  - by intros k fs e r e' [= _ <-].
  - intros k fs e r e'. cbn. by destruct (cs_faults e); intros [= _ <-].
  - by intros m e r e' [= <- <-].
Qed.

Lemma ConsumeClaim_never_older_witness :
  (cs_marks consumed.2 = [] ++ three_messages ∧
   ∀ k, price_time (prices_in rs0 (mkConsumer ∅ [] 1) !! k) ≤ price_time (prices_in rs0 consumed.2 !! k)) ∧
  sp_Time <$> match getCoinPrice rs0 [mkSymbolInfo 1 "0xab"] consumed.2 with (Ok l, _) => l | _ => [] end = [20].
Proof.
  split; [|computed].
  exact (ConsumeClaim_never_older rs0 cs_marks (COk := consumer_ok) ((KMessage <$> three_messages) ++ [KDone])
    (mkConsumer ∅ [] 1) consumed.2 consumed_ends).
Defined.

(** ** The producer for tests, at two messages *)
#[local] Instance no_push_json : PushJson := {|
  Marshal_PushMessage _ := Err (ErrExternal 3); Marshal_Transaction _ := Err (ErrExternal 3);
  Marshal_populated _ := Err (ErrExternal 3) |}.
Lemma fake_messages_latest_witness :
  let p := newFakeProducer "t" "k" in
  ∃ p1 p2, produce_all [] [WithTopic "u"] ["a"; "b"]%string p = (Ok tt, p1) ∧
    GetFakePushMessages "u" (Some p1) = (Ok (ERROR_OK, ""%string, ["a"; "b"]%string), Some p2) ∧
    ∀ k, messages_of k p2 = if decide ("u"%string = k) then [] else messages_of k p.
Proof. apply (fake_messages_latest [] [WithTopic "u"] ["a"; "b"]%string (newFakeProducer "t" "k")). decided. Defined.

(** ** A request from an address of the list *)
#[local] Instance no_http : HttpClient nat := {| check_request _ _ := None; http_Do _ := throw (ErrExternal 8) |}.
#[local] Instance no_naming : NamingClient nat := {|
  CreateNamingClient _ _ := mret tt; RegisterInstance _ _ _ := mret tt;
  SelectOneHealthyInstance _ := throw (ErrExternal 8); getLocalIP := mret "10.0.0.1"%string |}.
#[local] Instance no_api : CountryApi := {|
  url_JoinPath a b := Ok (a +:+ b); url_with_query a _ := a; Unmarshal_CountryLimit _ := Err ErrEncoding |}.
#[local] Instance counted : Metrics nat := {| RecordRequest _ _ _ n := (Ok tt, S n); RecordRequestLatency _ _ _ n := (Ok tt, S n) |}.
#[local] Instance counted_ok : MetricsOk nat.
Proof. split; intros; by eexists. Qed.
#[local] Instance no_text : ErrorText := λ _, ""%string.
#[local] Instance still : Runtime nat := {| Now n := (Ok 0, n); MapRange _ ids n := (Ok ids, n) |}.
#[local] Instance still_ok : RuntimeOk nat.
Proof. split; [intros K ids e r e' [= <- <-]; by exists ids|intros e; by exists 0, e]. Qed.
(** Ten requests are let through. *)
#[local] Instance ten : Sentinel nat := {|
  Entry _ n := (Ok (if bool_decide (10 ≤ n)%nat then Some "flow"%string else None), n);
  SentinelInterceptor A fallback method handler n :=
    if bool_decide (10 ≤ n)%nat then fallback "flow"%string n else handler n;
|}.
#[local] Instance ten_ok : SentinelOk nat.
Proof.
  split; intros; cbn in *; [by eexists _, _|case_bool_decide; by simplify_eq..].
Qed.
Definition ip_client : option IPConfig := InitClient (mkIPConfig true false "" "h" ["1.2.3.4"]) None.
Definition ip_headers (ip : string) : MD := {["x-forwarded-for"%string := [ip]]}.
Definition served (n : nat) : res (option (reply nat)) * nat := (Ok (Some (mkReply (Some 0) None n)), n).
Abbreviation request ip := (intercepted false ip_client 0%nat "m" (Some (ip_headers ip)) served).

Lemma intercepted_decides_witness :
  (∀ handler', intercepted false ip_client 0%nat "m" (Some (ip_headers " 1.2.3.4 , 9.9.9.9")) handler' 5%nat =
     (Ok (Some (mkReply (Some ERROR_IP_RESTRICTED) (Some ipRestrictionErrorMsg) 0%nat)), 7%nat)) ∧
  request "1.2.3.5" 5%nat = (Ok (Some (mkReply (Some 0) None 5%nat)), 7%nat) ∧
  (request "1.2.3.5" 10%nat).1 = Err (status_Error ResourceExhausted "flow").
Proof.
  split; [|split; computed].
  refine (proj2 (proj1 (intercepted_decides false ip_client 0%nat "m" (Some (ip_headers " 1.2.3.4 , 9.9.9.9")) served 5%nat
    _ 7%nat _ _) _)).
  - intros c ip s p s'. unfold ask_country. destruct (ip_UseNacos c); done.
  - computed.
  - exists (ip_headers " 1.2.3.4 , 9.9.9.9"). split; [done|]. split; [decided|].
    exists (mkIPConfig true false "http" "h" ["1.2.3.4"]). split; [done|]. split; [done|]. left.
    apply (bool_decide_unpack _). vm_compute. exact I.
Defined.

(** ** The monitor of a network without claims *)
#[local] Existing Instance example_keccak.
Definition ger_of_rollup : GlobalExitRoot := mkGlobalExitRoot 0 0 [merkle_root 2 (take 1 L2)] zero_hash 1 1 0.
Lemma monitor_ger_ready_witness :
  ∃ db', monitor_ger 1 ger_of_rollup db4 = (Ok tt, db') ∧ db_tx db' = None ∧
    Forall2 (ready_if (λ d, bool_decide (dep_DepositCount d ≤ 0) &&
        (bool_decide (dep_NetworkID d = 0) && bool_decide (dep_DestinationNetwork d = 1))))
      (t_deposit t4) (t_deposit (db_committed db')).
Proof.
  apply (monitor_ger_ready 1 ger_of_rollup db4 2 L2 0).
  - reflexivity.
  - split; decided.
  - exact L2_roots.
  - cbn. lia.
  - exact db4_stored.
  - by eexists.
Defined.

(** ** Typed calls: a block, its deposit and its exit root *)
#[local] Existing Instances example_abi example_json.
Definition typed_block : Block := mkBlock 0 7 (be_bytes 32 7) 0 [] [] [] [] [] [] [] 0.
Definition typed_deposit1 : Deposit :=
  mkDeposit 0 1 (2 ^ 32 - 1) (be_bytes 20 1) (2 ^ 256 - 1) 1 (be_bytes 20 2) 5 1 7 0 (be_bytes 32 9) [] false 0 0 (be_bytes 20 3).
Definition typed_ger : GlobalExitRoot := mkGlobalExitRoot 1 0 [be_bytes 32 4; be_bytes 32 5] (be_bytes 32 6) 0 0 0.
Abbreviation db_start := (mkDatabase initial_tables None initial_sequences 0 [] 0).
Abbreviation db_block := (run_call (call_AddBlock typed_block nil_tx) db_start).2.
Abbreviation db_deposit := (run_call (call_AddDeposit typed_deposit1 nil_tx) db_block).2.
Abbreviation db_ger := (run_call (call_AddGlobalExitRoot typed_ger nil_tx) db_deposit).2.
Lemma stored_rows_typed_witness :
  (tables_typed (db_committed db_ger) ∧ ∀ tx, db_tx db_ger = Some tx → tables_typed (tx_tables tx)) ∧
  (λ r, dep_OriginalNetwork (dr_dep r)) <$> t_deposit (db_committed db_ger) = [2 ^ 32 - 1] ∧
  length (t_exit_root (db_committed db_ger)) = 1%nat.
Proof.
  split; [|split; computed]. apply stored_rows_typed.
  apply (typed_call (call_AddGlobalExitRoot typed_ger nil_tx) db_deposit
    (run_call (call_AddGlobalExitRoot typed_ger nil_tx) db_deposit).1);
    [|repeat split; decided|apply surjective_pairing].
  apply (typed_call (call_AddDeposit typed_deposit1 nil_tx) db_block
    (run_call (call_AddDeposit typed_deposit1 nil_tx) db_block).1); [|split; decided|apply surjective_pairing].
  apply (typed_call (call_AddBlock typed_block nil_tx) db_start
    (run_call (call_AddBlock typed_block nil_tx) db_start).1); [|repeat split; decided|apply surjective_pairing].
  apply typed_init.
Defined.

(** ** A failed call of a node *)
Lemma ArgBytes_invalid_ignored_witness : ArgBytes_UnmarshalText [x7a; x7a] [x01] = (Ok tt, [x01]).
Proof. apply (ArgBytes_invalid_ignored [x7a; x7a] [x01]). reflexivity. Defined.

(** ** Two deposits, from their block to their proofs *)
#[local] Existing Instances example_cache example_cache_ok.
Definition node_ger : bytes := chain_hash 77.
Definition two_leaves : list bytes := [leaf_n 0; leaf_n 1].
Definition node_main : bytes := merkle_root 2 (take 2 two_leaves).
Definition node_rollup : bytes := chain_hash 78.
(** The node of the rollup reports the exit root of both deposits. *)
#[local] Instance node_env : Environment unit := {|
  HeaderByNumber n e := (Ok (default 10 n, chain_hash (default 10 n)), e);
  GetRollupInfoByBlockRange _ _ := mret ([], ∅);
  GetLatestGlobalExitRoot := mret node_ger;
  ExitRootsByGER _ := mret (Some (node_main, node_rollup, 5));
  AddBlockDeposit _ := mret tt;
  CtxErr := mret false;
|}.
Definition cfg_rollup : Config := mkConfig 1 0 10 5 false [0; 1] false 1 false ∅.
Definition l1_block : res (bool * bool) * ClientSynchronizer unit :=
  processBlock cfg0 block1 (orders block1) (false, false) state0.
Definition l1_stored : ClientSynchronizer unit := Eval vm_compute in l1_block.2.
Definition rollup_sync : ClientSynchronizer unit := mkSync ctrl0 (ss_db l1_stored) tt true zero_hash 1 [].
Lemma two_leaves_distinct : distinct_roots 2 (Ls0 0 ++ two_leaves).
Proof. intros [|[|j]] [|[|k]] Hj Hk H; cbn in Hj, Hk; try lia; exfalso; revert H; decided. Qed.
Lemma l1_awaits : awaits_ger (db_committed (ss_db rollup_sync)) (db_seqs (ss_db rollup_sync)) node_ger 1.
Proof.
  split.
  - computed.
  - apply Forall_forall. decided.
  - apply Forall_forall. decided.
  - apply Forall_forall. decided.
  - apply rows_agree_ok. decided.
Qed.

Lemma deposit_becomes_claimable_witness :
  l1_block.1 = Ok (false, false) ∧
  ∃ s2' ger db, syncTrustedState cfg_rollup rollup_sync = (Ok tt, s2') ∧ ss_sent s2' = [] ++ [SentExitRootL2 ger] ∧
    monitor_ger 1 ger (ss_db s2') = (Ok tt, db) ∧
    ∀ d c, d ∈ blk_Deposits block1 → dep_DestinationNetwork d = 1 → dep_DepositCount d ≤ 1 →
      coherent c (t_rht (db_committed (ss_db rollup_sync))) →
      ∃ x g proof c' db', hashDeposit d = Ok x ∧
        GetClaimProof service0 (dep_DepositCount d) 0 nil_tx (c, db) = (Ok (g, proof, emptyProof), (c', db')) ∧
        ger_GlobalExitRoot g = node_ger ∧ ger_ExitRoots g = [node_main; node_rollup] ∧
        calculateRoot x proof (dep_DepositCount d) 2 = Ok node_main.
Proof.
  apply (deposit_becomes_claimable service0 cfg0 cfg_rollup block1 (orders block1) (false, false) state0 rollup_sync Ls0 mt0
    two_leaves node_ger node_rollup 5 tt tt 1).
  - reflexivity.
  - exact forest0.
  - exact db0_ok.
  - reflexivity.
  - reflexivity.
  - cbn. lia.
  - cbn. lia.
  - reflexivity.
  - reflexivity.
  - cbn. lia.
  - exact block1_follow.
  - decided.
  - decided.
  - apply lookup_singleton_eq.
  - cbn. lia.
  - exact two_leaves_distinct.
  - computed.
  - exact l1_awaits.
  - reflexivity.
  - decided.
  - reflexivity.
  - decided.
Defined.
