(* ===== verification/MetricsExamples.v ===== *)
(** * The theorems on metrics and large transactions, at concrete inputs

    A registerer that refuses a second collector of the same name and panics
    when the labels do not fit; a Redis that knows one price. *)
From Stdlib Require Import Strings.String SpecFloat.
From stdpp Require Import pretty.
From S2P Require Import Prelude Types EthClient Hex BridgeService Redis RedisFacts PushMessage GoFloat PushTask TokenLogo XLayerService.
From S2P Require Import DepositMessages LocalCache Metrics XMetrics MetricsFacts PushExamples.

(** ** A registerer *)
#[local] Instance spec_float_eq_dec : EqDecision spec_float.
Proof. solve_decision. Defined.
#[local] Instance opts_eq_dec : EqDecision Opts.
Proof. solve_decision. Defined.
#[local] Instance collector_eq_dec : EqDecision collector.
Proof. solve_decision. Defined.
#[local] Instance labels_fit_dec c values : Decision (labels_fit c values).
Proof. destruct values; cbn; apply _. Defined.
Abbreviation registerer := (list collector).
Definition named (n : string) (c : collector) : bool := bool_decide (op_Name (cl_opts c) = n).
#[local] Instance list_prometheus : Prometheus registerer := {|
  prom_Register c e := if existsb (named (op_Name (cl_opts c))) e then (Err ErrAlreadyExists, e) else (Ok tt, c :: e);
  prom_Unregister c e := (Ok (bool_decide (c ∈ e)), filter (λ c', c' ≠ c) e);
  prom_Update c values u e := (if bool_decide (labels_fit c values) && update_fits c u then Ok tt else Panic "inconsistent labels", e);
|}.
#[local] Instance list_prometheus_ok : PrometheusOk registerer.
Proof.
  refine {| registered e c := c ∈ e; is_text _ := True |}; cbn.
  - intros c e r e'. destruct (existsb _ e); intros [= <- <-]; (split; [done|]); intros c'; [|rewrite elem_of_cons];
      (split; [tauto|intros [[? ?]|?]; [done|tauto]]) || (split; [intros [?|?]; auto|intros [[? ?]|?]; auto]).
  - intros c e r e' [= <- <-]. eexists. split; [done|]. intros c'. rewrite list_elem_of_filter, bool_decide_eq_true.
    split; [intros [? ?]; split; [done|tauto]|intros [? Hc]; split; [intros ->; auto|done]].
  - intros c values u e r e' [= <- <-]. split; [done|]. intros Hf _ Hu. rewrite Hu, bool_decide_true; done.
Defined.

Definition some_ops : list registry_op :=
  [OpInit; OpPackages 1; OpRegister KCounter [plain_opts "c" "a counter"]; OpRecord KCounter "c" None UInc;
   OpRegisterVec KHistogramVec [mkVecOpts (plain_opts "h" "a vector") ["l"]]; OpUnregister KCounter ["c"; "d"]]%string.
Lemma registry_consistent_witness :
  let s := (for_each some_ops run_op (mkMetrics ([] : registerer) false ∅ "" "")).2 in
  registry_ok s ∧ ∀ k name u r1 s1, is_vec k = false → update_fits (mkCollector k (plain_opts name "") []) u = true →
    on_collector (lookup_collector k name) (Positions []) u s = (r1, s1) → r1 = Ok tt.
Proof. apply (registry_consistent some_ops [] (Ok tt)). apply run_result. computed. Defined.

(** Two synchronizers: the deposits of both count as those of the second. *)
Definition ready : Metrics registerer := mkMetrics [] true ∅ "" "".
Example two_synchronizers :
  let s2 := (sync_Register 2 (sync_Register 1 ready).2).2 in
  (sync_Register 1 ready).1 = Ok tt ∧ (sync_Register 2 (sync_Register 1 ready).2).1 = Ok tt ∧
  length (mt_prom s2) = 40%nat.
Proof. by vm_compute. Qed.

#[local] Instance text_common : Common := {|
  Hash_String b := b; Address_Hex b := b; FromHex b := b; HexToAddress b := b; HexToHash b := b |}.
(** An event before the maps are made, a request while a histogram is written, and
    an order and a block number when everything is registered. *)
Definition request_counted : recording :=
  mkRecording KCounterVec metricRequestCount [(labelMethod, "m"%string); (labelCode, pretty 0); (labelErrMessage, "ok"%string)] UInc.
Definition some_updates : list recording :=
  action_updates (XOrder None 0 1 0 0 [x41] (5 * 10 ^ 18)) ++ action_updates (XLatestBlockNum 1 77).
Definition some_schedule : list (option recording) :=
  (Some <$> action_updates (XSynchronizerEvent 0 "early")) ++ replicate 4 None ++ [Some request_counted] ++
  replicate 19 None ++ (Some <$> some_updates).
Lemma some_recordable : Forall (λ o, ∀ u, o = Some u → recordable u) some_schedule.
Proof.
  unfold some_schedule. repeat rewrite Forall_app. split_and!.
  - repeat constructor. intros u [= <-]. exists (XSynchronizerEvent 0 "early").
    split; [by left|]. split; [by repeat constructor|done].
  - by repeat constructor.
  - repeat constructor. intros u [= <-]. exists (XRequest "m" 0 "ok"). split; [by left|]. split; [by repeat constructor|done].
  - by repeat constructor.
  - apply Forall_fmap, Forall_app. split; apply Forall_forall; intros u Hu u' [= <-].
    + exists (XOrder None 0 1 0 0 [x41] (5 * 10 ^ 18)). split; [done|]. split; [by repeat constructor|cbn; lia].
    + exists (XLatestBlockNum 1 77). split; [done|]. split; [by repeat constructor|done].
Qed.
Lemma recording_never_panics_witness :
  let run := run_interleaved some_schedule (started "test" ([] : registerer)) in
  run.1 = Ok tt ∧ length (xm_prom (mp_metrics run.2)) = 11%nat ∧
  (run.1 = Ok tt ∨ ∃ pre u post s1 c, some_schedule = pre ++ Some u :: post ∧
    run_interleaved pre (started "test" ([] : registerer)) = (Ok tt, s1) ∧ mp_writing s1 = Some c ∧ cl_kind c = rec_kind u ∧
    run.1 = Panic fatal_race).
Proof.
  split; [computed|]. split; [computed|].
  apply (recording_never_panics "test" ([] : registerer) some_schedule _
    (run_interleaved some_schedule (started "test" ([] : registerer))).2); [apply some_recordable|apply surjective_pairing].
Defined.
(** A request that is counted while the goroutine writes the counters. *)
Example recorder_races :
  (run_interleaved [None; None; Some request_counted] (started "test" ([] : registerer))).1 = Panic fatal_race.
Proof. computed. Qed.

(** ** A large transaction *)
#[local] Existing Instances price_countable bits_codec bits_codec_ok push_texts map_redis map_redis_ok.
#[local] Instance large_eq_dec : EqDecision LargeTxInfo.
Proof. solve_decision. Defined.
#[local] Instance large_countable : Countable LargeTxInfo.
Proof.
  refine (inj_countable' (λ p, (lti_ChainId p, lti_Symbol p, lti_Amount p, lti_UsdAmount p, lti_Hash p, lti_Address p))
            (λ '(a, b, c, d, e, f), mkLargeTxInfo a b c d e f) _). by intros [].
Defined.
#[local] Instance noon_runtime : Runtime server := {| Now := mret 1000; MapRange _ ids := mret ids |}.
#[local] Instance noon : Calendar := {| Date _ := (2024, 5, 6); Hour _ := 12 |}.
Definition dollar : SymbolPrice := mkSymbolPrice "USDT" (1023 * 2 ^ 52) 20 "0xAB" 1.
Definition large_tx : Transaction :=
  mkTransaction 0 1 (list_byte_of_string "0xAB") "200000000000000000000000" 15 TX_CREATED 0 (list_byte_of_string "0x12") [] 0 1 2 7 3 []
    (list_byte_of_string "0x34") 0 8 "3" [] (Some (mkTokenLogoInfo "USDT" "Tether" "" 18)) 0.
Abbreviation priced_server := (SetCoinPrice rs0 [dollar] (∅ : server)).2.
Abbreviation announced_server := (filterLargeTransaction tcfg0 100000 large_tx 1 priced_server).2.
Definition usdt : TokenLogoInfo := mkTokenLogoInfo "USDT" "Tether" "" 18.
Definition large_origin : bigFloat :=
  match big_SetString 18 (tr_TokenAmount large_tx) with Some x => x | None => mkBigFloat 0 (of_int 0) end.
Definition large_decimal : bigFloat :=
  match big_SetFloat64 18 (Pow10 18) with Ok x => x | _ => mkBigFloat 0 (of_int 0) end.
Definition large_quotient : bigFloat :=
  match big_Quo large_origin large_decimal with Ok x => x | _ => mkBigFloat 0 (of_int 0) end.
(** 200,000 coins worth a dollar each: with 18 bits, 199,999. *)
Definition large_row : LargeTxInfo :=
  mkLargeTxInfo 1 "USDT" (Float64bits (of_int 199999)) (Float64bits (of_int 199999)) "0x12" "0x34".
Lemma large_transaction_listed_witness :
  (GetLargeTransactionInfos tcfg0 1 announced_server).1 = Ok (Answer [large_row]) ∧
  [large_row] = (if SFltb (fmul (Float64frombits (sp_Price dollar)) (big_Float64 large_quotient)) (of_int 100000) then [] else
      [mkLargeTxInfo 1 "USDT" (Float64bits (big_Float64 large_quotient))
         (Float64bits (fmul (Float64frombits (sp_Price dollar)) (big_Float64 large_quotient))) "0x12" "0x34"]) ++
    readable (list_at (getLargeInfosCacheKey (pt_redis tcfg0) (GetLargeTxRedisKeySuffix (tr_ToChain large_tx) OpRead 1000)) (kept priced_server)).
Proof.
  split; [computed|].
  refine (large_transaction_listed tcfg0 100000 _ large_tx usdt 1 dollar [] large_origin large_decimal large_quotient
    priced_server priced_server 1000 priced_server (Ok tt) announced_server announced_server [large_row] announced_server
    _ _ _ _ _ _ _ _ _ _ _ _).
  - by intros e t e' [= _ <-].
  - reflexivity.
  - computed.
  - computed.
  - computed.
  - computed.
  - reflexivity.
  - by cbn.
  - eexists _, _. apply run_result. computed.
  - computed.
  - split; [reflexivity|]. by exists 1000, announced_server.
  - computed.
  - by intros key g.
Defined.
