(* ===== verification/StartUp.v ===== *)
(** * The start of the process

    [cmd/run.go], [cmd/xlayer_run.go] and [cmd/xlayer_helpers.go], with the
    constructors they call: [NewSynchronizer] ([synchronizer/synchronizer.go]),
    [NewClaimTxManager] ([claimtxman/claimtxman.go]), [RunServer]
    ([server/server.go]) and [WithL2Clients] ([server/xlayer_service.go]).  The
    start makes the channels and records every goroutine it starts, with the
    channels it was given; what the goroutines do is in the other files.  The model
    ends where the process waits for an interrupt or for its goroutines.  The
    auto claim service, a process of its own, starts in [autoclaimservice/main.go]. *)
From Stdlib Require Import Strings.String.
From S2P Require Import Prelude Types Hashing MerkleStore Tables Storage Etherman PendingTxs GroupMonitor TxMonitor.
From S2P Require Import BridgeCtrl MessageBridge Synchronizer BridgeService AutoClaim Redis Gateway PushMessage.
From S2P Require Import Producers GoFloat PushTask EstimateTime ClaimTxManager LocalCache Metrics Configuration.
From S2P Require Import Connections.
#[local] Open Scope Z_scope.

(** ** Goroutines and channels *)
Abbreviation chan := nat.

(** The arguments of [NewSynchronizer]. *)
Record SyncArgs := mkSyncArgs {
  sa_etherMan : EthermanClient; sa_zkEVMClient : option string; sa_genBlockNumber : Z;
  sa_chExitRootEventL2 : option chan; sa_chsExitRootEvent : list chan; sa_chSynced : chan;
  sa_cfg : SyncConfig; sa_allNetworkIDs : list Z; sa_sovereignChain : bool;
}.
(** [ClientSynchronizer]: its configuration, the first value of
    [l1RollupExitRoot], and its channels; [None] is a nil channel. *)
Record SyncInstance := mkSyncInstance {
  sy_config : Config; sy_ctrl : BridgeController; sy_etherMan : EthermanClient; sy_zkEVMClient : option string;
  sy_l1RollupExitRoot : bytes; sy_chSynced : chan; sy_chExitRootEventL2 : option chan; sy_chsExitRootEvent : list chan;
  sy_producer : bool; sy_rollupID : Z;
}.
Inductive TxMonitorer : Type := CompressedTxs (c : CompressConfig) | SingleTxs (c : TxConfig).
Record ManagerInstance := mkManagerInstance {
  mi_config : ManagerConfig; mi_monitorTxs : TxMonitorer; mi_l2Node : UtilsClient; mi_service : bridgeService;
  mi_chExitRootEvent : chan; mi_chSynced : chan;
}.
Inductive goroutine : Type :=
| GoSync (s : SyncInstance)                                  (* errs.Go(s.Sync) *)
| GoRunSynchronizer (bt : BridgeController) (a : SyncArgs)   (* go runSynchronizer(...) *)
| GoRecordLatestBlockNum (s : SyncInstance)
| GoManager (m : ManagerInstance)                            (* go claimTxManager.Start() *)
| GoManagerXLayer (m : ManagerInstance)                      (* go claimTxManager.StartXLayer() *)
| GoForward (from : chan) (to : list chan)                   (* <-chSynced to chsSyncedL2 *)
| GoMonitorChannel (chExitRootEvent chSynced : chan) (networkID : Z)
| GoL1BlockNumTask (url : string) (c : TaskConfig)
| GoCommittedBatch (url : string) (c : TaskConfig)
| GoVerifiedBatch (url : string) (rs : redisStorageImpl)
| GoKafkaConsumer (topics : list string) (rs : redisStorageImpl)
| GoRestServer (grpcPort httpPort : string)
| GoGRPCServer (s : bridgeService) (port : string)
| GoRefreshEstimates | GoRefreshCoins | GoMetrics (port : Z).

(** ** The process *)

(** The variables of the packages that the start sets; [None] is nil. *)
Record globals := mkGlobals {
  gl_processors : processors;
  gl_ids : ChainIds;
  gl_rollupNetworkId : Z;
  gl_L1TargetBlockConfirmations : Z;
  gl_largeTxUsdLimit : Z;                             (* of the synchronizers *)
  gl_freeGas : bool; gl_optClaim : bool;              (* of the claim managers *)
  gl_claimProducer : option Producer; gl_claimRedis : option redisStorageImpl;
  gl_estimates : option (list Z);                     (* defaultCalculator *)
  gl_coins : option coins_by_network;                 (* defaultCache *)
  gl_serviceRedis : option redisStorageImpl;          (* of the bridge service *)
  gl_nodeClients : gmap Z UtilsClient; gl_auths : gmap Z bytes;
  gl_ipClient : option IPConfig;
}.
Definition set_processors (ps : processors) (g : globals) : globals :=
  mkGlobals ps (gl_ids g) (gl_rollupNetworkId g) (gl_L1TargetBlockConfirmations g) (gl_largeTxUsdLimit g) (gl_freeGas g) (gl_optClaim g)
    (gl_claimProducer g) (gl_claimRedis g) (gl_estimates g) (gl_coins g) (gl_serviceRedis g) (gl_nodeClients g) (gl_auths g) (gl_ipClient g).
Definition set_ids (ids : ChainIds) (g : globals) : globals :=
  mkGlobals (gl_processors g) ids (gl_rollupNetworkId g) (gl_L1TargetBlockConfirmations g) (gl_largeTxUsdLimit g) (gl_freeGas g) (gl_optClaim g)
    (gl_claimProducer g) (gl_claimRedis g) (gl_estimates g) (gl_coins g) (gl_serviceRedis g) (gl_nodeClients g) (gl_auths g) (gl_ipClient g).
(** [InitRollupNetworkId]. *)
Definition InitRollupNetworkId (networkID : Z) (g : globals) : globals :=
  mkGlobals (gl_processors g) (gl_ids g) networkID (gl_L1TargetBlockConfirmations g) (gl_largeTxUsdLimit g) (gl_freeGas g) (gl_optClaim g)
    (gl_claimProducer g) (gl_claimRedis g) (gl_estimates g) (gl_coins g) (gl_serviceRedis g) (gl_nodeClients g) (gl_auths g) (gl_ipClient g).
(** [InitL1TargetBlockConfirmations], and the client of the IP restriction. *)
Definition set_limits (confirmations : Z) (ip : option IPConfig) (g : globals) : globals :=
  mkGlobals (gl_processors g) (gl_ids g) (gl_rollupNetworkId g) confirmations (gl_largeTxUsdLimit g) (gl_freeGas g) (gl_optClaim g)
    (gl_claimProducer g) (gl_claimRedis g) (gl_estimates g) (gl_coins g) (gl_serviceRedis g) (gl_nodeClients g) (gl_auths g) ip.
Definition SetLargeTxUsdLimit (limit : Z) (g : globals) : globals :=
  mkGlobals (gl_processors g) (gl_ids g) (gl_rollupNetworkId g) (gl_L1TargetBlockConfirmations g) limit (gl_freeGas g) (gl_optClaim g)
    (gl_claimProducer g) (gl_claimRedis g) (gl_estimates g) (gl_coins g) (gl_serviceRedis g) (gl_nodeClients g) (gl_auths g) (gl_ipClient g).
(** [SetRedis], [SetProducer], [SetFreegas] and [SetOptClaim] of a claim manager:
    one variable for all the managers. *)
Definition set_claim (rs : redisStorageImpl) (p : option Producer) (freeGas optClaim : bool) (g : globals) : globals :=
  mkGlobals (gl_processors g) (gl_ids g) (gl_rollupNetworkId g) (gl_L1TargetBlockConfirmations g) (gl_largeTxUsdLimit g) freeGas optClaim
    p (Some rs) (gl_estimates g) (gl_coins g) (gl_serviceRedis g) (gl_nodeClients g) (gl_auths g) (gl_ipClient g).
Definition set_estimates (e : list Z) (g : globals) : globals :=
  mkGlobals (gl_processors g) (gl_ids g) (gl_rollupNetworkId g) (gl_L1TargetBlockConfirmations g) (gl_largeTxUsdLimit g) (gl_freeGas g) (gl_optClaim g)
    (gl_claimProducer g) (gl_claimRedis g) (Some e) (gl_coins g) (gl_serviceRedis g) (gl_nodeClients g) (gl_auths g) (gl_ipClient g).
Definition set_coins (c : coins_by_network) (g : globals) : globals :=
  mkGlobals (gl_processors g) (gl_ids g) (gl_rollupNetworkId g) (gl_L1TargetBlockConfirmations g) (gl_largeTxUsdLimit g) (gl_freeGas g) (gl_optClaim g)
    (gl_claimProducer g) (gl_claimRedis g) (gl_estimates g) (Some c) (gl_serviceRedis g) (gl_nodeClients g) (gl_auths g) (gl_ipClient g).
(** [WithRedisStorage] and the maps of [WithL2Clients]. *)
Definition set_service (rs : redisStorageImpl) (nodes : gmap Z UtilsClient) (auths : gmap Z bytes) (g : globals) : globals :=
  mkGlobals (gl_processors g) (gl_ids g) (gl_rollupNetworkId g) (gl_L1TargetBlockConfirmations g) (gl_largeTxUsdLimit g) (gl_freeGas g) (gl_optClaim g)
    (gl_claimProducer g) (gl_claimRedis g) (gl_estimates g) (gl_coins g) (Some rs) nodes auths (gl_ipClient g).

Record process (W P : Type) := mkProcess {
  pr_outside : W * Metrics P;
  pr_db : database;               (* of both storages *)
  pr_coins : CoinStorage;         (* and its table of the main coins *)
  pr_globals : globals;
  pr_chans : nat;                 (* the channels made so far *)
  pr_started : list goroutine;
}.
Arguments mkProcess {W P}.
Arguments pr_outside {W P}.
Arguments pr_db {W P}.
Arguments pr_coins {W P}.
Arguments pr_globals {W P}.
Arguments pr_chans {W P}.
Arguments pr_started {W P}.

Section StartUp.
Context {K : Keccak} {C W P : Type} {Lru : LruCache C} {Out : Outside W} {Prom : Prometheus P}.
Context (unspecified : float64 → Z).
Abbreviation Pr := (M (process W P)).

Definition conn {A} (m : M (W * Metrics P) A) : Pr A :=
  zoom pr_outside (λ o s, mkProcess o (pr_db s) (pr_coins s) (pr_globals s) (pr_chans s) (pr_started s)) m.
Definition outside {A} (m : M W A) : Pr A := conn (on_outside m).
Definition db_of {A} (m : M database A) : Pr A :=
  zoom pr_db (λ db s, mkProcess (pr_outside s) db (pr_coins s) (pr_globals s) (pr_chans s) (pr_started s)) m.
Definition modify_globals (f : globals → globals) : Pr unit :=
  modify (λ s, mkProcess (pr_outside s) (pr_db s) (pr_coins s) (f (pr_globals s)) (pr_chans s) (pr_started s)).
Definition global {A} (f : globals → A) : Pr A := gets (λ s, f (pr_globals s)).
(** [make(chan ...)]: a channel that no one has. *)
Definition make_chan : Pr chan := λ s,
  (Ok (pr_chans s), mkProcess (pr_outside s) (pr_db s) (pr_coins s) (pr_globals s) (S (pr_chans s)) (pr_started s)).
(** [go]. *)
Definition go_ (g : goroutine) : Pr unit :=
  modify (λ s, mkProcess (pr_outside s) (pr_db s) (pr_coins s) (pr_globals s) (pr_chans s) (pr_started s ++ [g])).
Definition elem {A} (l : list A) (i : nat) : Pr A := lift_res (at_index l (Z.of_nat i)).

(** ** Synchronizers *)
(** The roots of the last exit root of the first network; two zeros when there is
    none. *)
Definition latest_exit_roots : Pr (list bytes) :=
  r ← attempt (db_of (GetLatestL1SyncedExitRoot nil_tx));
  match r with
  | inl ger => mret (ger_ExitRoots ger)
  | inr err => if bool_decide (err = ErrStorageNotFound) then mret [zero_hash; zero_hash] else throw err
  end.
Definition NewSynchronizer (bt : BridgeController) (a : SyncArgs) : Pr SyncInstance :=
  let networkID := GetNetworkID (sa_etherMan a) in
  conn (on_metrics (sync_Register networkID));;
  exitRoots ← latest_exit_roots;
  ps ← global gl_processors;
  let cfg := sa_cfg a in
  if bool_decide (networkID = 0) then
    l1RollupExitRoot ← elem exitRoots 1;
    mret (mkSyncInstance
      (mkConfig networkID (sa_genBlockNumber a) (syc_SyncInterval cfg) (syc_SyncChunkSize cfg) false (sa_allNetworkIDs a) false
        (length (sa_chsExitRootEvent a)) false ps)
      bt (sa_etherMan a) None l1RollupExitRoot (sa_chSynced a) None (sa_chsExitRootEvent a) false 0)
  else
    mret (mkSyncInstance
      (mkConfig networkID (sa_genBlockNumber a) (syc_SyncInterval cfg) (syc_SyncChunkSize cfg) (syc_ForceL2SyncChunk cfg) []
        (sa_sovereignChain a) 0 false ps)
      bt (sa_etherMan a) (sa_zkEVMClient a) zero_hash (sa_chSynced a) (sa_chExitRootEventL2 a) [] false 0).
(** [SetProducer], [SetRedis] and [SetRollupID]. *)
Definition configured (producer : bool) (rollupID : Z) (s : SyncInstance) : SyncInstance :=
  let c := sy_config s in
  mkSyncInstance
    (mkConfig (cfg_networkID c) (cfg_genBlockNumber c) (cfg_SyncInterval c) (cfg_SyncChunkSize c) (cfg_forceSyncChunk c)
      (cfg_allNetworkIDs c) (cfg_sovereignChain c) (cfg_channels c) true (cfg_processors c))
    (sy_ctrl s) (sy_etherMan s) (sy_zkEVMClient s) (sy_l1RollupExitRoot s) (sy_chSynced s) (sy_chExitRootEventL2 s)
    (sy_chsExitRootEvent s) producer rollupID.
(** The state in which [Sync] starts. *)
Definition initial_state {E} (db : database) (env : E) (s : SyncInstance) : ClientSynchronizer E :=
  mkSync (sy_ctrl s) db env false (sy_l1RollupExitRoot s) 0 [].
(** The body of the goroutine of [start]; [Sync] follows. *)
Definition runSynchronizer (bt : BridgeController) (a : SyncArgs) : Pr SyncInstance := or_fatal (NewSynchronizer bt a).

(** ** Claim managers *)
Definition grouping_of (g : GroupingConfig) : ConfigGroupingClaims :=
  mkConfigGroupingClaims (gcf_TriggerNumberOfClaims g) (gcf_MaxNumberOfClaimsPerGroup g) (gcf_TriggerRetainedClaimPeriod g)
    (gcf_MaxRetries g) (gcf_RetryInterval g) (gcf_RetryTimeout g).
(** The gas limit of a new signer is 0. *)
Definition NewMonitorCompressedTxs (cfg : ClaimTxConfig) (rollupID : Z) : M W CompressConfig :=
  or_fatal Bridge_GetAbi;;
  let g := ctc_GroupingClaims cfg in mret (mkCompressConfig (grouping_of g) (gcf_GasOffset g) 0 rollupID).
Definition NewClaimTxManager (cfg : ClaimTxConfig) (chExitRootEvent chSynced : chan) (l2NodeURL : string) (l2NetworkID : Z)
    (l2BridgeAddr : bytes) (service : bridgeService) (rollupID : Z) (auth : bytes) : M W ManagerInstance :=
  client ← utils_NewClient l2NodeURL l2BridgeAddr;
  let txs := mkTxConfig rollupID (ctc_RetryNumber cfg) in
  monitorTx ← (if gcf_Enabled (ctc_GroupingClaims cfg)
               then c ← NewMonitorCompressedTxs cfg rollupID; mret (CompressedTxs c) else mret (SingleTxs txs));
  mret (mkManagerInstance
    (mkManagerConfig txs l2NetworkID auth (ctc_AuthorizedClaimMessageAddresses cfg) (ctc_AreClaimsBetweenL2sEnabled cfg))
    monitorTx client service chExitRootEvent chSynced).

(** ** Nodes and networks *)
Fixpoint newL2Ethermans (c : BaseConfig) (i : nat) (addrs : list bytes) (l2Ethermans : list EthermanClient)
  : Pr (list EthermanClient) :=
  match addrs with
  | [] => mret l2Ethermans
  | addr :: addrs =>
      let n := uc_NetworkConfig c in
      url ← elem (etc_L2URLs (uc_Etherman c)) i;
      ger ← elem (nc_L2PolygonZkEVMGlobalExitRootAddresses n) i;
      sovereign ← elem (nc_RequireSovereignChainSmcs n) i;
      l2Etherman ← conn (NewL2Client url addr (nc_L2ClaimCompressorAddress n) ger sovereign);
      newL2Ethermans c (S i) addrs (l2Ethermans ++ [l2Etherman])
  end.
Definition l1_etherman (c : BaseConfig) : Pr EthermanClient :=
  let n := uc_NetworkConfig c in
  conn (etherman_NewClient (uc_Etherman c) (nc_PolygonBridgeAddress n) (nc_PolygonZkEVMGlobalExitRootAddress n)
    (nc_PolygonRollupManagerAddress n)).
Definition newEthermans (c : BaseConfig) : Pr (EthermanClient * list EthermanClient) :=
  l1Etherman ← l1_etherman c;
  let addrs := nc_L2PolygonBridgeAddresses (uc_NetworkConfig c) in
  if bool_decide (length addrs ≠ length (etc_L2URLs (uc_Etherman c))) then fatal
  else
    l2Ethermans ← newL2Ethermans c 0 addrs [];
    mret (l1Etherman, l2Ethermans).
(** The first network, and those of the rollups; the last one stays the network id
    of the rollup. *)
Definition setupNetworkIDs (networkID : Z) (l2Ethermans : list EthermanClient) : Pr (list Z) :=
  for_each l2Ethermans (λ cl, modify_globals (InitRollupNetworkId (GetNetworkID cl)));;
  mret (networkID :: (GetNetworkID <$> l2Ethermans)).
Definition InitProcessors (c : BusinessConfig) : Pr unit :=
  modify_globals (λ g, set_processors
    (InitEURCProcessor (buc_EURCContractAddresses c) (buc_EURCTokenAddresses c)
      (InitWstETHProcessor (buc_WstETHContractAddresses c) (buc_WstETHTokenAddresses c)
        (InitUSDCLxLyProcessor (buc_USDCContractAddresses c) (buc_USDCTokenAddresses c) (gl_processors g)))) g).
Definition InitChainIds (c : XLayerCfg) (networkIDs : list Z) : Pr unit :=
  ids ← lift_res (InitChainIdManager networkIDs (xc_L1ChainId c :: xc_L2ChainIds c));
  modify_globals (λ g, set_ids (mkChainIds (standardIdKeyMapper (gl_ids g)) (innerIdKeyMapper (gl_ids g)) ids) g).

(** [estimatetime.InitDefaultCalculator] and the goroutine that refreshes it. *)
Definition InitDefaultCalculator : Pr unit :=
  times ← (λ s, let '(r, ca) := NewCalculator unspecified (pr_db s) in
                ((_ ← r; Ok (ca_estimateTime ca)),
                 mkProcess (pr_outside s) (ca_storage ca) (pr_coins s) (pr_globals s) (pr_chans s) (pr_started s)));
  go_ GoRefreshEstimates;;
  modify_globals (set_estimates times).
(** [localcache.InitDefaultCache]: an error leaves the cache nil and is not
    returned; [false] when the fuel of the first refresh is used up. *)
Definition InitDefaultCache (fuel : nat) : Pr bool :=
  r ← attempt (λ s, let '(r, c) := doRefresh fuel (mkMainCoinsCache ∅ (pr_coins s)) in
                    ((b ← r; Ok (b, mcc_data c)),
                     mkProcess (pr_outside s) (pr_db s) (mcc_storage c) (pr_globals s) (pr_chans s) (pr_started s)));
  match r with
  | inl (true, data) => go_ GoRefreshCoins;; modify_globals (set_coins data);; mret true
  | inl (false, _) => mret false
  | inr _ => mret true
  end.
Definition NewBridgeController_of (c : BaseConfig) (networkIDs : list Z) : Pr BridgeController :=
  if bool_decide (bcc_Store (uc_BridgeController c) = "postgres"%string)
  then db_of (NewBridgeController (bcc_Height (uc_BridgeController c)) networkIDs)
  else throw ErrStorageNotRegister.

(** ** The server *)
Definition service_of (c : BaseConfig) (networkIDs : list Z) : Pr bridgeService :=
  let b := uc_BridgeServer c in
  '(service, _) ← lift_res (BridgeService.NewBridgeService (C := C) (bsc_DefaultPageLimit b) (bsc_MaxPageLimit b) (bsc_CacheSize b)
    (bsc_BridgeVersion b) (bcc_Height (uc_BridgeController c)) networkIDs);
  mret service.
Definition ErrGRPCPort : error := Errorf "invalid TCP port for gRPC server: ''" [].
Definition ErrHTTPPort : error := Errorf "invalid TCP port for HTTP gateway: ''" [].
Definition RunServer (cfg : BridgeServerConfig) (service : bridgeService) : Pr unit :=
  if bool_decide (bsc_GRPCPort cfg = ""%string) then throw ErrGRPCPort
  else if bool_decide (bsc_HTTPPort cfg = ""%string) then throw ErrHTTPPort
  else go_ (GoRestServer (bsc_GRPCPort cfg) (bsc_HTTPPort cfg));; go_ (GoGRPCServer service (bsc_GRPCPort cfg)).
(** The networks without the first one, with the clients and the signers in the
    same order. *)
Fixpoint with_clients (i : nat) (l2NodeClients : list UtilsClient) (l2Auths : list bytes) (networks : list Z)
    (maps : gmap Z UtilsClient * gmap Z bytes) : res (gmap Z UtilsClient * gmap Z bytes) :=
  match networks with
  | [] => Ok maps
  | network :: networks =>
      client ← at_index l2NodeClients (Z.of_nat i);
      auth ← at_index l2Auths (Z.of_nat i);
      with_clients (S i) l2NodeClients l2Auths networks (<[network := client]> maps.1, <[network := auth]> maps.2)
  end.
Definition WithL2Clients (l2NodeClients : list UtilsClient) (l2Auths : list bytes) (networks : list Z)
  : res (gmap Z UtilsClient * gmap Z bytes) :=
  with_clients 0 l2NodeClients l2Auths (tail networks) (∅, ∅).

(** ** The three parts of the X Layer process *)
Fixpoint l2_clients (c : BaseConfig) (i : nat) (urls : list string) : Pr (list UtilsClient * list bytes) :=
  match urls with
  | [] => mret ([], [])
  | url :: urls =>
      addr ← elem (nc_L2PolygonBridgeAddresses (uc_NetworkConfig c)) i;
      nodeClient ← outside (utils_NewClient url addr);
      auth ← outside (GetSignerFromKeystore url (ctc_PrivateKey (uc_ClaimTxManager c)));
      '(clients, auths) ← l2_clients c (S i) urls;
      mret (nodeClient :: clients, auth :: auths)
  end.
(** [false] when the fuel of the cache of the coins is used up. *)
Definition runAPI (fuel : nat) (c : XLayerCfg) : Pr bool :=
  let b := xc_Base c in
  InitProcessors (xc_Business c);;
  redisStorage ← outside (NewRedisStorage (xc_Redis c));
  outside (NewStorage (bsc_DB (uc_BridgeServer b)));;
  cached ← InitDefaultCache fuel;
  if negb cached then mret false
  else
    InitDefaultCalculator;;
    '(l1Etherman, l2Ethermans) ← newEthermans b;
    networkIDs ← setupNetworkIDs (GetNetworkID l1Etherman) l2Ethermans;
    InitChainIds c networkIDs;;
    '(l2NodeClients, l2Auths) ← l2_clients b 0 (etc_L2URLs (uc_Etherman b));
    outside (registerNacos (xc_Nacos c));;
    outside (InitFileDataSource (xc_SentinelConfigFilePath c));;
    bridgeService ← service_of b networkIDs;
    '(nodes, auths) ← lift_res (WithL2Clients l2NodeClients l2Auths networkIDs);
    modify_globals (set_service redisStorage nodes auths);;
    RunServer (uc_BridgeServer b) bridgeService;;
    mret true.

(** The errors of the client and of the contract are dropped: without a client the
    next line reads a nil pointer, without an answer the id is 0. *)
Definition push_rollupID (c : BaseConfig) : Pr Z :=
  r ← attempt (l1_etherman c);
  match r with
  | inr _ => gopanic "nil pointer dereference"
  | inl l1Etherman =>
      let addr := nc_PolygonRollupManagerAddress (uc_NetworkConfig c) in
      r ← attempt (outside (RollupAddressToID addr (em_url l1Etherman) addr));
      mret (match r with inl rollupID => rollupID | inr _ => 0 end)
  end.
(** [ethclient.DialContext] of a push task. *)
Definition map_err_dial (msg url : string) : Pr unit := outside (map_err (ErrorfW msg) (ethclient_Dial url)).
Definition task_config (rs : redisStorageImpl) (producer : option Producer) (rollupID : Z) (g : globals) : TaskConfig :=
  mkTaskConfig rs (gl_ids g) (bool_decide (is_Some producer)) rollupID (gl_processors g) (gl_L1TargetBlockConfirmations g).
Definition runPushTask (c : XLayerCfg) : Pr unit :=
  let b := xc_Base c in
  outside (NewStorage (bsc_DB (uc_BridgeServer b)));;
  redisStorage ← outside (NewRedisStorage (xc_Redis c));
  producer ← outside (setupKafkaProducer (xc_MessagePushProducer c));
  rollupID ← push_rollupID b;
  let l1URL := etc_L1URL (uc_Etherman b) in
  map_err_dial "ethclient dial error" l1URL;;
  l2URL ← elem (etc_L2URLs (uc_Etherman b)) 0;
  map_err_dial "eth-client dial error" l2URL;;
  task ← global (task_config redisStorage producer rollupID);
  go_ (GoL1BlockNumTask l1URL task);;
  go_ (GoCommittedBatch l2URL task);;
  go_ (GoVerifiedBatch l2URL redisStorage).

(** The synchronizer of a rollup, with its two channels, and its claim manager. *)
Definition run_manager (c : XLayerCfg) (redisStorage : redisStorageImpl) (producer : option Producer) (service : bridgeService)
    (networkIDs : list Z) (i : nat) (L2URL : string) (rollupID : Z) (chExitRootEvent chSynced : chan) : Pr unit :=
  let b := xc_Base c in
  let cfg := uc_ClaimTxManager b in
  bridgeAddr ← elem (nc_L2PolygonBridgeAddresses (uc_NetworkConfig b)) i;
  nodeClient ← outside (utils_NewClient L2URL bridgeAddr);
  or_fatal (outside NewNonceCache);;
  auth ← outside (GetSignerFromKeystore (ut_NodeURL nodeClient) (ctc_PrivateKey cfg));
  l2NetworkID ← elem networkIDs (S i);
  r ← attempt (outside (NewClaimTxManager cfg chExitRootEvent chSynced L2URL l2NetworkID bridgeAddr service rollupID auth));
  modify_globals (set_claim redisStorage producer (xc_FreeGas c) (xc_OptClaim c));;
  match r with
  | inr _ => fatal
  | inl claimTxManager => go_ (GoManagerXLayer claimTxManager)
  end.
Definition run_l2 (c : XLayerCfg) (bt : BridgeController) (redisStorage : redisStorageImpl) (producer : option Producer)
    (service : bridgeService) (networkIDs : list Z) (i : nat) (client : EthermanClient) : Pr (chan * chan) :=
  let b := xc_Base c in
  L2URL ← elem (etc_L2URLs (uc_Etherman b)) i;
  let rollupID := GetNetworkID client in
  chExitRootEventL2 ← make_chan;
  chSyncedL2 ← make_chan;
  sovereign ← elem (nc_RequireSovereignChainSmcs (uc_NetworkConfig b)) i;
  sync ← NewSynchronizer bt (mkSyncArgs client (Some L2URL) 0 (Some chExitRootEventL2) [] chSyncedL2 (uc_Synchronizer b) [] sovereign);
  modify_globals (SetLargeTxUsdLimit (xc_LargeTxUsdLimit c));;
  go_ (GoSync (configured (bool_decide (is_Some producer)) rollupID sync));;
  when (ctc_Enabled (uc_ClaimTxManager b))
    (run_manager c redisStorage producer service networkIDs i L2URL rollupID chExitRootEventL2 chSyncedL2);;
  mret (chExitRootEventL2, chSyncedL2).
(** [for i, client := range l2Ethermans], collecting the channels. *)
Fixpoint for_l2 (f : nat → EthermanClient → Pr (chan * chan)) (i : nat) (l2Ethermans : list EthermanClient) : Pr (list (chan * chan)) :=
  match l2Ethermans with
  | [] => mret []
  | client :: l2Ethermans => ch ← f i client; chs ← for_l2 f (S i) l2Ethermans; mret (ch :: chs)
  end.
(** [for i := range chsExitRootEvent { monitorChannel(...) }]. *)
Fixpoint monitor_channels (networkIDs : list Z) (i : nat) (chs : list (chan * chan)) : Pr unit :=
  match chs with
  | [] => mret tt
  | ch :: chs =>
      networkID ← elem networkIDs (S i);
      go_ (GoMonitorChannel ch.1 ch.2 networkID);;
      monitor_channels networkIDs (S i) chs
  end.
Definition runTask (c : XLayerCfg) : Pr unit :=
  let b := xc_Base c in
  InitProcessors (xc_Business c);;
  outside (NewStorage (bsc_DB (uc_BridgeServer b)));;
  InitDefaultCalculator;;
  outside (NewStorage (uc_SyncDB b));;
  redisStorage ← outside (NewRedisStorage (xc_Redis c));
  '(l1Etherman, l2Ethermans) ← newEthermans b;
  let networkID := GetNetworkID l1Etherman in
  networkIDs ← setupNetworkIDs networkID l2Ethermans;
  InitChainIds c networkIDs;;
  bridgeController ← NewBridgeController_of b networkIDs;
  producer ← outside (setupKafkaProducer (xc_MessagePushProducer c));
  bridgeService ← service_of b networkIDs;
  chSynced ← make_chan;
  chs ← for_l2 (run_l2 c bridgeController redisStorage producer bridgeService networkIDs) 0 l2Ethermans;
  sync ← NewSynchronizer bridgeController
    (mkSyncArgs l1Etherman None (nc_GenBlockNumber (uc_NetworkConfig b)) None chs.*1 chSynced (uc_Synchronizer b) networkIDs false);
  modify_globals (SetLargeTxUsdLimit (xc_LargeTxUsdLimit c));;
  let cliSyncL1 := configured (bool_decide (is_Some producer)) networkID sync in
  go_ (GoSync cliSyncL1);;
  go_ (GoRecordLatestBlockNum cliSyncL1);;
  go_ (GoForward chSynced chs.*2);;
  when (negb (ctc_Enabled (uc_ClaimTxManager b))) (monitor_channels networkIDs 0 chs);;
  when (bool_decide (coc_Brokers (xc_CoinKafkaConsumer c) ≠ []))
    (topics ← outside (NewKafkaConsumer (xc_CoinKafkaConsumer c)); go_ (GoKafkaConsumer topics redisStorage)).

(** ** The upstream process *)
Definition start_l2 (c : BaseConfig) (bt : BridgeController) (i : nat) (client : EthermanClient) : Pr (chan * chan) :=
  L2URL ← elem (etc_L2URLs (uc_Etherman c)) i;
  chExitRootEventL2 ← make_chan;
  chSyncedL2 ← make_chan;
  sovereign ← elem (nc_RequireSovereignChainSmcs (uc_NetworkConfig c)) i;
  go_ (GoRunSynchronizer bt
    (mkSyncArgs client (Some L2URL) 0 (Some chExitRootEventL2) [] chSyncedL2 (uc_Synchronizer c) [] sovereign));;
  mret (chExitRootEventL2, chSyncedL2).
(** Every error here ends the process. *)
Fixpoint start_managers (c : BaseConfig) (service : bridgeService) (networkIDs : list Z) (l2Ethermans : list EthermanClient)
    (chs : list (chan * chan)) (i : nat) (urls : list string) : Pr unit :=
  match urls with
  | [] => mret tt
  | url :: urls =>
      let cfg := uc_ClaimTxManager c in
      bridgeAddr ← elem (nc_L2PolygonBridgeAddresses (uc_NetworkConfig c)) i;
      client ← or_fatal (outside (utils_NewClient url bridgeAddr));
      or_fatal (outside NewNonceCache);;
      auth ← or_fatal (outside (GetSignerFromKeystore (ut_NodeURL client) (ctc_PrivateKey cfg)));
      l2Etherman ← elem l2Ethermans i;
      ch ← elem chs i;
      l2NetworkID ← elem networkIDs (S i);
      claimTxManager ← or_fatal (outside (NewClaimTxManager cfg ch.1 ch.2 url l2NetworkID bridgeAddr service (GetNetworkID l2Etherman) auth));
      go_ (GoManager claimTxManager);;
      start_managers c service networkIDs l2Ethermans chs (S i) urls
  end.
Definition zkevmbridgeservice_Version : string := "v0.1.0".
(** [start] after the configuration was loaded. *)
Definition set_server (b : BridgeServerConfig) (c : BaseConfig) : BaseConfig :=
  mkBaseConfig (uc_SyncDB c) (uc_ClaimTxManager c) (uc_Etherman c) (uc_Synchronizer c) (uc_BridgeController c) b
    (uc_Metrics c) (uc_NetworkConfig c).
Definition start_with (c : BaseConfig) : Pr unit :=
  outside (RunMigrations (uc_SyncDB c));;
  when (mec_Enabled (uc_Metrics c)) (conn (on_metrics Init);; go_ (GoMetrics (mec_Port (uc_Metrics c))));;
  '(l1Etherman, l2Ethermans) ← newEthermans c;
  let networkIDs := GetNetworkID l1Etherman :: (GetNetworkID <$> l2Ethermans) in
  outside (NewStorage (uc_SyncDB c));;
  bridgeController ← NewBridgeController_of c networkIDs;
  outside (NewStorage (bsc_DB (uc_BridgeServer c)));;
  let c := set_server (set_BridgeVersion zkevmbridgeservice_Version (uc_BridgeServer c)) c in
  bridgeService ← service_of c networkIDs;
  RunServer (uc_BridgeServer c) bridgeService;;
  chs ← for_l2 (start_l2 c bridgeController) 0 l2Ethermans;
  chSynced ← make_chan;
  go_ (GoRunSynchronizer bridgeController
    (mkSyncArgs l1Etherman None (nc_GenBlockNumber (uc_NetworkConfig c)) None chs.*1 chSynced (uc_Synchronizer c) networkIDs false));;
  go_ (GoForward chSynced chs.*2);;
  if ctc_Enabled (uc_ClaimTxManager c)
  then start_managers c bridgeService networkIDs l2Ethermans chs 0 (etc_L2URLs (uc_Etherman c))
  else monitor_channels networkIDs 0 chs.

(** ** The command line *)
Context {Vip : Viper W} {KMS : Kms W}.
(** [setupConfigAndLog]; the log, and the client of the token logos, which keeps
    its configuration, are left out. *)
Definition setupConfigAndLog (configFilePath network : string) : Pr XLayerCfg :=
  c ← outside (load_config configFilePath network);
  '(standard, inner) ← lift_res (InnitOkInnerChainIdMapper (buc_StandardChainIds (xc_Business c)) (buc_InnerChainIds (xc_Business c)));
  modify_globals (λ g, set_limits (xc_L1TargetBlockConfirmations c) (InitClient (xc_IPRestriction c) (gl_ipClient g))
    (set_ids (mkChainIds standard inner (chainIDs (gl_ids g))) g));;
  mret c.
Inductive choice : Type := API | PUSH | TASK | ALL.
(** [run]: [false] when the start of the API does not end. *)
Definition run_choice (fuel : nat) (ch : choice) (c : XLayerCfg) : Pr bool :=
  when (mec_Enabled (uc_Metrics (xc_Base c))) (go_ (GoMetrics (mec_Port (uc_Metrics (xc_Base c)))));;
  match ch with
  | API => outside (RunMigrations (uc_SyncDB (xc_Base c)));; runAPI fuel c
  | PUSH => runPushTask c;; mret true
  | TASK => runTask c;; mret true
  | ALL =>
      outside (RunMigrations (uc_SyncDB (xc_Base c)));;
      ended ← runAPI fuel c;
      if negb ended then mret false else runPushTask c;; runTask c;; mret true
  end.
Inductive command : Type := Run (xlayer : bool) | RunAPI | RunPushTask | RunTask.
Definition main (fuel : nat) (cmd : command) (configFilePath network : string) : Pr bool :=
  match cmd with
  | Run false => c ← outside (Load configFilePath network); start_with c;; mret true
  | _ =>
      c ← setupConfigAndLog configFilePath network;
      run_choice fuel (match cmd with Run _ => ALL | RunAPI => API | RunPushTask => PUSH | RunTask => TASK end) c
  end.
End StartUp.

(** The durations are in nanoseconds. *)
Record AutoServiceConfig := mkAutoServiceConfig {
  asc_AuthorizedClaimMessageAddresses : list bytes; asc_AutoClaimInterval : Z; asc_MaxNumberOfClaimsPerGroup : Z; asc_BridgeURL : string;
  asc_BlockchainManager : BlockchainConfig;
}.
(** [DefaultValues] of [autoclaimservice/config/default.go]. *)
Definition AutoDefaultValues : AutoServiceConfig := mkAutoServiceConfig [] (secs 600) 10 "http://localhost:8080"
  (mkBlockchainConfig "http://localhost:8123" (mkKeystoreFileConfig "./test/test.keystore" "testonly")
    (addr_hex 0xFe12ABaa190Ef0c8638Ee0ba9F828BF41368Ca0E) zero_address).
Class AutoViper (V : Type) : Type := {
  aviper_ReadConfig : M V unit;
  aviper_SetConfig : string → string → string → M V unit;
  aviper_SetEnvPrefix : string → M V unit;
  aviper_ReadInConfig : M V bool;
  aviper_Unmarshal : AutoServiceConfig → M V AutoServiceConfig;
}.

Section AutoStart.
Context {W : Type} {Out : Outside W} {Vip : AutoViper W}.
Definition AutoDefault : M W AutoServiceConfig := aviper_ReadConfig;; mret AutoDefaultValues.
Definition autoclaim_Load (configFilePath : string) : M W AutoServiceConfig :=
  cfg ← AutoDefault;
  when (bool_decide (configFilePath ≠ ""%string))
    (let '(dirName, name, ext) := config_file configFilePath in aviper_SetConfig dirName name ext);;
  aviper_SetEnvPrefix "ZKEVM_AUTOCLAIM";;
  _ ← aviper_ReadInConfig;
  aviper_Unmarshal cfg.
Definition NewAutoClaim (c : AutoServiceConfig) (bm : BlockchainClient) : AutoClaimConfig :=
  mkAutoClaimConfig (asc_AuthorizedClaimMessageAddresses c) (asc_MaxNumberOfClaimsPerGroup c) (asc_BridgeURL c)
    (bm_NetworkID bm) (bool_decide (is_Some (bm_ClaimCompressor bm))).
(** The interval of the ticker and the loop's configuration. *)
Definition auto_run (configFilePath : string) : M W (Z * AutoClaimConfig) :=
  c ← autoclaim_Load configFilePath;
  bm ← blockchainmanager_NewClient (asc_BlockchainManager c);
  mret (asc_AutoClaimInterval c, NewAutoClaim c bm).

(** Claims are grouped when the compressor has an address. *)
Lemma auto_run_compressor path w interval cfg w' : auto_run path w = (Ok (interval, cfg), w') →
  ∃ c, interval = asc_AutoClaimInterval c ∧ au_BridgeURL cfg = asc_BridgeURL c ∧
    au_MaxNumberOfClaimsPerGroup cfg = asc_MaxNumberOfClaimsPerGroup c ∧
    au_HasClaimCompressor cfg = bool_decide (bmc_ClaimCompressorAddress (asc_BlockchainManager c) ≠ zero_address).
Proof.
  unfold auto_run. intros H. apply M_bind_inv in H as (c & w1 & _ & H). apply M_bind_inv in H as (bm & w2 & E & H). injection H as <- <- _.
  exists c. split_and!; try done. cbn. unfold blockchainmanager_NewClient in E. do 2 apply M_bind_inv in E as (? & ? & _ & E).
  apply M_bind_inv in E as (o & ? & E1 & E). do 2 apply M_bind_inv in E as (? & ? & _ & E). injection E as <- _. cbn.
  unfold bind_compressor in E1. case_bool_decide as Ha.
  - injection E1 as <- _. symmetry. apply bool_decide_eq_false. tauto.
  - apply M_bind_inv in E1 as (? & ? & _ & [= <- _]). by rewrite (bool_decide_true (_ ≠ _)) by done.
Qed.
End AutoStart.
