(* ===== verification/StartFacts.v ===== *)
(** * What the start of the process sets up

    The channels of the X Layer tasks: every channel has one reader, whatever is
    sent has a reader, and the reader of a rollup's channel serves that rollup.  The
    same for [start] of [cmd/run.go], whose synchronizers are made inside their
    goroutines, and whose claim managers are started after all of them. *)
From Stdlib Require Import Strings.String.
From S2P Require Import Prelude Types Hashing MerkleStore Tables Storage StorageFacts Etherman PendingTxs.
From S2P Require Import GroupMonitor TxMonitor BridgeCtrl MessageBridge Synchronizer BridgeService Redis Gateway.
From S2P Require Import PushMessage Producers GoFloat PushTask EstimateTime ClaimTxManager LocalCache Metrics.
From S2P Require Import Configuration Connections StartUp.
#[local] Open Scope Z_scope.

(** ** What a goroutine does with its channels *)
Definition option_chan (o : option chan) : list chan := match o with Some ch => [ch] | None => [] end.
Definition receives (g : goroutine) : list chan :=
  match g with
  | GoManager m | GoManagerXLayer m => [mi_chExitRootEvent m; mi_chSynced m]
  | GoForward from _ => [from]
  | GoMonitorChannel chExitRootEvent chSynced _ => [chExitRootEvent; chSynced]
  | _ => []
  end.
Definition sends (g : goroutine) : list chan :=
  match g with
  | GoSync s => sy_chSynced s :: option_chan (sy_chExitRootEventL2 s) ++ sy_chsExitRootEvent s
  | GoRunSynchronizer _ a => sa_chSynced a ::
      (if bool_decide (GetNetworkID (sa_etherMan a) = 0) then sa_chsExitRootEvent a else option_chan (sa_chExitRootEventL2 a))
  | GoForward _ to => to
  | _ => []
  end.
(** A network's reader, with the channels of the exit roots and of the networks
    that are synced. *)
Definition reader (g : goroutine) : option (Z * chan * chan) :=
  match g with
  | GoManager m | GoManagerXLayer m => Some (tm_l2NetworkID (mi_config m), mi_chExitRootEvent m, mi_chSynced m)
  | GoMonitorChannel chExitRootEvent chSynced networkID => Some (networkID, chExitRootEvent, chSynced)
  | _ => None
  end.
Definition all_receives (G : list goroutine) : list chan := mjoin (receives <$> G).
Definition all_sends (G : list goroutine) : list chan := mjoin (sends <$> G).

Section StartFacts.
Context {K : Keccak} {C W P : Type} {Lru : LruCache C} {Out : Outside W} {Prom : Prometheus P}.
Context (unspecified : float64 → Z).
Abbreviation Pr := (M (process W P)).

(** ** Steps that start nothing *)
Section Quiet.
Context (n : nat) (l : list goroutine).
Definition same_start (s : process W P) : Prop := pr_chans s = n ∧ pr_started s = l.
Lemma quiet_conn {A} (m : M (W * Metrics P) A) : preserves same_start (conn m).
Proof. intros s r s' H Hr. apply zoom_inv in Hr as (t & _ & ->). exact H. Qed.
Lemma quiet_db {A} (m : M database A) : preserves same_start (db_of m : Pr A).
Proof. intros s r s' H Hr. apply zoom_inv in Hr as (t & _ & ->). exact H. Qed.
Lemma quiet_globals f : preserves same_start (modify_globals f : Pr unit).
Proof. by apply pres_modify. Qed.
Lemma quiet_global {A} (f : globals → A) : preserves same_start (global f : Pr A).
Proof. apply pres_gets. Qed.
Lemma quiet_elem {A} (x : list A) i : preserves same_start (elem x i : Pr A).
Proof. apply pres_lift. Qed.
Lemma quiet_outside {A} (m : M W A) : preserves same_start (outside m : Pr A).
Proof. apply quiet_conn. Qed.
Lemma quiet_fatal {A} (m : Pr A) : preserves same_start m → preserves same_start (or_fatal m).
Proof. intros H. apply pres_bind; [by apply pres_attempt|]. intros []; [apply pres_ret|apply pres_panic]. Qed.
End Quiet.
#[local] Hint Resolve pres_map_err quiet_conn quiet_db quiet_globals quiet_global quiet_elem quiet_outside quiet_fatal : pres.

(** ** Steps that start goroutines *)
Definition adds (n : nat) (G : list goroutine) (s s' : process W P) : Prop :=
  pr_chans s' = (pr_chans s + n)%nat ∧ pr_started s' = pr_started s ++ G.
Lemma adds_trans n1 G1 n2 G2 s1 s2 s3 : adds n1 G1 s1 s2 → adds n2 G2 s2 s3 → adds (n1 + n2) (G1 ++ G2) s1 s3.
Proof. intros [H1 H2] [H3 H4]. split; [lia|]. by rewrite H4, H2, app_assoc. Qed.
Lemma quiet_adds {A} (m : Pr A) s r s' :
  preserves (same_start (pr_chans s) (pr_started s)) m → m s = (r, s') → adds 0 [] s s'.
Proof. intros Hm E. destruct (Hm s r s' (conj eq_refl eq_refl) E) as [H1 H2]. split; [lia|]. by rewrite app_nil_r. Qed.
Lemma go_adds g s r s' : (go_ g : Pr unit) s = (r, s') → adds 0 [g] s s'.
Proof. intros [= _ <-]. split; cbn; [lia|done]. Qed.
Lemma make_chan_adds s ch s' : (make_chan : Pr chan) s = (Ok ch, s') → ch = pr_chans s ∧ adds 1 [] s s'.
Proof. intros [= <- <-]. split; [done|]. split; cbn; [lia|]. by rewrite app_nil_r. Qed.
Lemma elem_inv {A} (l : list A) i s a s' : (elem l i : Pr A) s = (Ok a, s') → l !! i = Some a ∧ s' = s.
Proof. unfold elem. intros [E ->]%lift_res_inv. rewrite at_index_nat in E. destruct (l !! i); [|done]. by injection E as ->. Qed.

Lemma NewSynchronizer_ok bt a s sy s' : (NewSynchronizer bt a : Pr SyncInstance) s = (Ok sy, s') →
  adds 0 [] s s' ∧ sy_chSynced sy = sa_chSynced a ∧ sy_ctrl sy = bt ∧ cfg_networkID (sy_config sy) = GetNetworkID (sa_etherMan a) ∧
  (sy_chExitRootEventL2 sy, sy_chsExitRootEvent sy) =
    if bool_decide (GetNetworkID (sa_etherMan a) = 0) then (None, sa_chsExitRootEvent a) else (sa_chExitRootEventL2 a, []).
Proof.
  intros H. split.
  - eapply quiet_adds; [|exact H]. unfold NewSynchronizer, latest_exit_roots. solve_preserves.
  - unfold NewSynchronizer in H. do 3 apply M_bind_inv in H as (? & ? & _ & H). destruct (bool_decide _) eqn:E.
    + apply M_bind_inv in H as (? & ? & _ & [= <- <-]). done.
    + injection H as <- <-. done.
Qed.

(** ** The goroutines of the rollups *)
Section Rollups.
Context (c : XLayerCfg) (bt : BridgeController) (redisStorage : redisStorageImpl) (producer : option Producer)
  (service : bridgeService) (networkIDs : list Z).
Abbreviation enabled := (ctc_Enabled (uc_ClaimTxManager (xc_Base c))).

(** The goroutines of one rollup, whose channels are [a] and [S a]. *)
Definition l2_started (i : nat) (client : EthermanClient) (a : chan) (G : list goroutine) : Prop :=
  ∃ sy, sy_ctrl sy = bt ∧ sy_chSynced sy = S a ∧ cfg_networkID (sy_config sy) = GetNetworkID client ∧ sy_chsExitRootEvent sy = [] ∧
    sy_chExitRootEventL2 sy = (if bool_decide (GetNetworkID client = 0) then None else Some a) ∧
    if enabled then ∃ m, G = [GoSync sy; GoManagerXLayer m] ∧ mi_chExitRootEvent m = a ∧ mi_chSynced m = S a ∧
      networkIDs !! S i = Some (tm_l2NetworkID (mi_config m))
    else G = [GoSync sy].
Fixpoint l2s_started (i : nat) (clients : list EthermanClient) (a : chan) (G : list goroutine) : Prop :=
  match clients with
  | [] => G = []
  | client :: clients => ∃ G1 G2, G = G1 ++ G2 ∧ l2_started i client a G1 ∧ l2s_started (S i) clients (S (S a)) G2
  end.
Fixpoint pairs (a : chan) (k : nat) : list (chan * chan) :=
  match k with O => [] | S k => (a, S a) :: pairs (S (S a)) k end.

Lemma run_manager_adds i url rollupID a b s r s' :
  (run_manager c redisStorage producer service networkIDs i url rollupID a b : Pr unit) s = (Ok r, s') →
  ∃ m, adds 0 [GoManagerXLayer m] s s' ∧ mi_chExitRootEvent m = a ∧ mi_chSynced m = b ∧
    networkIDs !! S i = Some (tm_l2NetworkID (mi_config m)).
Proof.
  unfold run_manager. intros H. apply M_bind_inv in H as (addr & s1 & E1 & H). apply elem_inv in E1 as [_ ->].
  apply M_bind_inv in H as (node & s2 & E2 & H). apply M_bind_inv in H as (? & s3 & E3 & H). apply M_bind_inv in H as (auth & s4 & E4 & H).
  apply M_bind_inv in H as (net & s5 & E5 & H). apply elem_inv in E5 as [Hnet ->].
  apply M_bind_inv in H as (r1 & s6 & E6 & H). apply M_bind_inv in H as ([] & s7 & E7 & H).
  destruct r1 as [m|]; [|done]. exists m. split.
  - apply quiet_adds in E2, E3, E4, E6, E7; [|auto with pres..]. apply go_adds in H.
    exact (adds_trans _ _ _ _ _ _ _ (adds_trans _ _ _ _ _ _ _ (adds_trans _ _ _ _ _ _ _
      (adds_trans _ _ _ _ _ _ _ (adds_trans _ _ _ _ _ _ _ E2 E3) E4) E6) E7) H).
  - unfold attempt in E6. destruct (outside _ s4) as [[y|e|p] s6'] eqn:E; [injection E6 as -> ->|done|done].
    unfold outside, conn in E. apply zoom_inv in E as (o & E & _). apply zoom_inv in E as (w & E & _).
    unfold NewClaimTxManager in E. do 2 apply M_bind_inv in E as (? & ? & _ & E). by injection E as <- _.
Qed.

Lemma run_l2_adds i client s ch s' : (run_l2 c bt redisStorage producer service networkIDs i client : Pr (chan * chan)) s = (Ok ch, s') →
  ch = (pr_chans s, S (pr_chans s)) ∧ ∃ G, adds 2 G s s' ∧ l2_started i client (pr_chans s) G.
Proof.
  unfold run_l2. intros H. apply M_bind_inv in H as (url & s1 & E1 & H). apply elem_inv in E1 as [_ ->].
  apply M_bind_inv in H as (a & s2 & E2 & H). apply make_chan_adds in E2 as [-> A2].
  apply M_bind_inv in H as (b & s3 & E3 & H). apply make_chan_adds in E3 as [-> A3].
  apply M_bind_inv in H as (sov & s4 & E4 & H). apply elem_inv in E4 as [_ ->].
  apply M_bind_inv in H as (sy & s5 & E5 & H). apply NewSynchronizer_ok in E5 as (A5 & Hs & Hc & Hn & Hch).
  apply M_bind_inv in H as ([] & s6 & E6 & H). apply quiet_adds in E6 as A6; [|auto with pres].
  apply M_bind_inv in H as ([] & s7 & E7 & H). apply go_adds in E7 as A7.
  apply M_bind_inv in H as ([] & s8 & E8 & [= <- <-]).
  assert (pr_chans s2 = S (pr_chans s)) as Hs2 by (destruct A2 as [-> _]; lia). rewrite Hs2 in *. split; [done|].
  pose proof (adds_trans _ _ _ _ _ _ _ (adds_trans _ _ _ _ _ _ _ (adds_trans _ _ _ _ _ _ _ (adds_trans _ _ _ _ _ _ _ A2 A3) A5) A6) A7) as A.
  cbn in Hs, Hn, Hch. set (g := configured _ _ sy) in A.
  assert (sy_ctrl g = bt ∧ sy_chSynced g = S (pr_chans s) ∧ cfg_networkID (sy_config g) = GetNetworkID client ∧ sy_chsExitRootEvent g = [] ∧
    sy_chExitRootEventL2 g = (if bool_decide (GetNetworkID client = 0) then None else Some (pr_chans s))) as (G1 & G2 & G3 & G4 & G5).
  { unfold g, configured. cbn. split_and!; [done|done|done|..]; destruct (bool_decide _); congruence. }
  unfold l2_started, when in *. destruct enabled.
  - apply run_manager_adds in E8 as (m & A8 & Ha & Hb & Hm). exists [GoSync g; GoManagerXLayer m].
    split; [exact (adds_trans _ _ _ _ _ _ _ A A8)|]. exists g. split_and!; try done. by exists m.
  - injection E8 as <-. exists [GoSync g]. split; [done|]. by exists g.
Qed.
Lemma for_l2_adds clients : ∀ i s chs s',
  for_l2 (run_l2 c bt redisStorage producer service networkIDs : _ → _ → Pr (chan * chan)) i clients s = (Ok chs, s') →
  chs = pairs (pr_chans s) (length clients) ∧ ∃ G, adds (2 * length clients) G s s' ∧ l2s_started i clients (pr_chans s) G.
Proof.
  induction clients as [|client clients IH]; intros i s chs s'; cbn [for_l2 length pairs l2s_started].
  - intros [= <- <-]. split; [done|]. exists []. split; [|done]. split; [lia|by rewrite app_nil_r].
  - intros H. apply M_bind_inv in H as (ch & s1 & E1 & H). apply M_bind_inv in H as (chs' & s2 & E2 & [= <- <-]).
    apply run_l2_adds in E1 as (-> & G1 & A1 & H1). apply IH in E2 as (-> & G2 & A2 & H2).
    assert (pr_chans s1 = S (S (pr_chans s))) as E by (destruct A1 as [-> _]; lia). rewrite E in *. split; [done|].
    exists (G1 ++ G2). split; [|by exists G1, G2]. pose proof (adds_trans _ _ _ _ _ _ _ A1 A2) as A.
    by replace (2 * S (length clients))%nat with (2 + 2 * length clients)%nat by lia.
Qed.

(** The monitors of the channels, one for each pair. *)
Fixpoint monitors (i : nat) (chs : list (chan * chan)) (G : list goroutine) : Prop :=
  match chs with
  | [] => G = []
  | ch :: chs => ∃ net G', G = GoMonitorChannel ch.1 ch.2 net :: G' ∧ networkIDs !! S i = Some net ∧ monitors (S i) chs G'
  end.
Lemma monitor_channels_adds chs : ∀ i s s', (monitor_channels networkIDs i chs : Pr unit) s = (Ok tt, s') →
  ∃ G, adds 0 G s s' ∧ monitors i chs G.
Proof.
  induction chs as [|ch chs IH]; intros i s s'; cbn [monitor_channels monitors].
  - intros [= <-]. exists []. split; [|done]. split; [lia|by rewrite app_nil_r].
  - intros H. apply M_bind_inv in H as (net & s1 & E1 & H). apply elem_inv in E1 as [Hn ->].
    apply M_bind_inv in H as ([] & s2 & E2 & H). apply go_adds in E2. apply IH in H as (G & A & HG).
    exists (GoMonitorChannel ch.1 ch.2 net :: G). split; [exact (adds_trans _ _ _ _ _ _ _ E2 A)|]. by exists net, G.
Qed.

(** ** The channels *)
Lemma all_receives_app G1 G2 : all_receives (G1 ++ G2) = all_receives G1 ++ all_receives G2.
Proof. unfold all_receives. rewrite fmap_app. apply join_app. Qed.
Lemma all_sends_app G1 G2 : all_sends (G1 ++ G2) = all_sends G1 ++ all_sends G2.
Proof. unfold all_sends. rewrite fmap_app. apply join_app. Qed.
Lemma pairs_flat a k : ∀ ch, ch ∈ (pairs a k).*1 ∨ ch ∈ (pairs a k).*2 → (a ≤ ch < a + 2 * k)%nat.
Proof.
  revert a. induction k as [|k IH]; intros a ch; cbn [pairs fmap list_fmap fst snd].
  - by intros [H|H]; apply not_elem_of_nil in H.
  - rewrite !elem_of_cons. intros [[->|H]|[->|H]]; [lia| |lia|]; specialize (IH (S (S a)) ch ltac:(tauto)); lia.
Qed.
Lemma monitors_receive chs : ∀ i G, monitors i chs G → all_sends G = [] ∧
  all_receives G = mjoin ((λ ch : chan * chan, [ch.1; ch.2]) <$> chs).
Proof.
  induction chs as [|ch chs IH]; intros i G; cbn [monitors]; [by intros ->|].
  intros (net & G' & -> & _ & H). destruct (IH _ _ H) as [H1 H2]. split; [exact H1|].
  trans (ch.1 :: ch.2 :: all_receives G'); [done|]. by rewrite H2.
Qed.
Lemma pairs_seq a k : mjoin ((λ ch : chan * chan, [ch.1; ch.2]) <$> pairs a k) = seq a (2 * k).
Proof.
  revert a. induction k as [|k IH]; intros a; [done|]. replace (2 * S k)%nat with (S (S (2 * k))) by lia.
  trans (a :: S a :: mjoin ((λ ch : chan * chan, [ch.1; ch.2]) <$> pairs (S (S a)) k)); [done|]. by rewrite IH.
Qed.

Lemma pairs_lookup k : ∀ a j, (j < k)%nat → pairs a k !! j = Some ((a + 2 * j)%nat, S (a + 2 * j)).
Proof.
  induction k as [|k IH]; intros a j Hj; [lia|]. destruct j as [|j]; cbn [pairs lookup list_lookup].
  - by rewrite Nat.mul_0_r, Nat.add_0_r.
  - change (list_lookup j (pairs (S (S a)) k)) with (pairs (S (S a)) k !! j). rewrite IH by lia.
    replace (S (S a) + 2 * j)%nat with (a + 2 * S j)%nat by lia. done.
Qed.
Lemma monitors_lookup chs : ∀ i G j ch, monitors i chs G → chs !! j = Some ch →
  ∃ net, networkIDs !! S (i + j) = Some net ∧ GoMonitorChannel ch.1 ch.2 net ∈ G.
Proof.
  induction chs as [|ch0 chs IH]; intros i G j ch; [done|]. cbn [monitors]. intros (net & G' & -> & Hn & H).
  destruct j as [|j]; cbn; [intros [= ->]; exists net; rewrite Nat.add_0_r; split; [done|by left]|].
  intros Hj. destruct (IH _ _ _ _ H Hj) as (net' & Hn' & Hin). exists net'. split; [by rewrite Nat.add_succ_r|by right].
Qed.

Lemma monitors_pairs k : ∀ i a G g, monitors i (pairs a k) G → g ∈ G →
  ∃ j net, (j < k)%nat ∧ g = GoMonitorChannel (a + 2 * j) (S (a + 2 * j)) net.
Proof.
  induction k as [|k IH]; intros i a G g; cbn [pairs monitors]; [by intros -> H%not_elem_of_nil|].
  intros (net & G' & -> & _ & H) [->|Hin]%elem_of_cons.
  - exists 0%nat, net. rewrite !Nat.mul_0_r, !Nat.add_0_r. split; [lia|done].
  - destruct (IH _ _ _ _ H Hin) as (j & net' & Hj & ->). exists (S j), net'. split; [lia|].
    by replace (a + 2 * S j)%nat with (S (S a) + 2 * j)%nat by lia.
Qed.

(** What the goroutines of the rollups send and receive. *)
Lemma l2_started_chans i client a G : l2_started i client a G →
  all_receives G = (if enabled then [a; S a] else []) ∧ ∀ ch, ch ∈ all_sends G → ch = a ∨ ch = S a.
Proof.
  intros (sy & _ & Hs & _ & Hc & Hx & H). assert (∀ ch, ch ∈ sends (GoSync sy) → ch = a ∨ ch = S a) as Hsend.
  { cbn. rewrite Hs, Hc, Hx, app_nil_r. intros ch [->|Hch]%elem_of_cons; [by right|].
    case_bool_decide; cbn in Hch; [by apply not_elem_of_nil in Hch|]. apply list_elem_of_singleton in Hch. by left. }
  destruct enabled.
  - destruct H as (m & -> & <- & Hb & _). split; [cbn; by rewrite Hb|]. intros ch [Hch|Hch%not_elem_of_nil]%elem_of_app; [by apply Hsend|done].
  - subst G. split; [done|]. intros ch [Hch|Hch%not_elem_of_nil]%elem_of_app; [by apply Hsend|done].
Qed.
Lemma l2s_started_chans clients : ∀ i a G, l2s_started i clients a G →
  all_receives G = (if enabled then seq a (2 * length clients) else []) ∧
  ∀ ch, ch ∈ all_sends G → ch ∈ seq a (2 * length clients).
Proof.
  induction clients as [|client clients IH]; intros i a G; cbn [l2s_started length].
  - intros ->. split; [by destruct enabled|]. by intros ch Hch%not_elem_of_nil.
  - intros (G1 & G2 & -> & H1 & H2). destruct (l2_started_chans _ _ _ _ H1) as [R1 S1]. destruct (IH _ _ _ H2) as [R2 S2].
    rewrite all_receives_app, all_sends_app, R1, R2. replace (2 * S (length clients))%nat with (S (S (2 * length clients))) by lia.
    split; [by destruct enabled|]. cbn [seq]. intros ch [Hch|Hch]%elem_of_app; rewrite !elem_of_cons; [|by auto].
    destruct (S1 _ Hch); auto.
Qed.
(** The synchronizer of a rollup, and its manager when there is one. *)
Lemma l2s_started_sync clients : ∀ i a G sy, l2s_started i clients a G → GoSync sy ∈ G →
  ∃ j client, clients !! j = Some client ∧ cfg_networkID (sy_config sy) = GetNetworkID client ∧ sy_ctrl sy = bt ∧
    sy_chSynced sy = S (a + 2 * j) ∧ (∀ ch, sy_chExitRootEventL2 sy = Some ch → ch = a + 2 * j)%nat ∧
    (enabled = true → ∃ m, GoManagerXLayer m ∈ G ∧ mi_chExitRootEvent m = (a + 2 * j)%nat ∧ mi_chSynced m = S (a + 2 * j) ∧
      networkIDs !! S (i + j) = Some (tm_l2NetworkID (mi_config m))).
Proof.
  induction clients as [|client clients IH]; intros i a G sy; cbn [l2s_started].
  - by intros -> H%not_elem_of_nil.
  - intros (G1 & G2 & -> & (sy' & Hb & Hs & Hn & _ & Hx & H1) & H2) [Hin|Hin]%elem_of_app.
    + exists 0%nat, client. rewrite !Nat.mul_0_r, !Nat.add_0_r. destruct enabled.
      * destruct H1 as (m & -> & Hm1 & Hm2 & Hm3). apply elem_of_cons in Hin as [[= ->]|[Hin|Hin%not_elem_of_nil]%elem_of_cons]; [|done|done].
        split_and!; try done; [rewrite Hx; case_bool_decide; congruence|]. intros _. exists m. split_and!; try done. apply elem_of_app. left. right. by left.
      * subst G1. apply list_elem_of_singleton in Hin as [= ->]. split_and!; try done. rewrite Hx. case_bool_decide; congruence.
    + destruct (IH _ _ _ _ H2 Hin) as (j & cl & Hj & Hn' & Hb' & Hs' & Hx' & Hm). exists (S j), cl.
      replace (a + 2 * S j)%nat with (S (S a) + 2 * j)%nat by lia. rewrite Nat.add_succ_r. split_and!; try done.
      intros He. destruct (Hm He) as (m & Hin' & Hrest). exists m. split; [apply elem_of_app; by right|done].
Qed.
Lemma l2s_started_manager clients : ∀ i a G g, l2s_started i clients a G → g ∈ G →
  (∃ sy, g = GoSync sy) ∨ ∃ j m, g = GoManagerXLayer m ∧ (j < length clients)%nat ∧ mi_chExitRootEvent m = (a + 2 * j)%nat ∧
    mi_chSynced m = S (a + 2 * j).
Proof.
  induction clients as [|client clients IH]; intros i a G g; cbn [l2s_started length].
  - by intros -> H%not_elem_of_nil.
  - intros (G1 & G2 & -> & (sy' & _ & _ & _ & _ & _ & H1) & H2) [Hin|Hin]%elem_of_app.
    + destruct enabled.
      * destruct H1 as (m & -> & Hm1 & Hm2 & _). apply elem_of_cons in Hin as [->|Hin]; [by left; exists sy'|].
        apply list_elem_of_singleton in Hin as ->. right. exists 0%nat, m. rewrite !Nat.mul_0_r, !Nat.add_0_r. split_and!; (done || lia).
      * subst G1. apply list_elem_of_singleton in Hin as ->. left. by exists sy'.
    + destruct (IH _ _ _ _ H2 Hin) as [?|(j & m & -> & Hj & Ha & Hb)]; [by left|]. right. exists (S j), m.
      replace (a + 2 * S j)%nat with (S (S a) + 2 * j)%nat by lia. split_and!; (done || lia).
Qed.

(** ** The tasks *)

(** Whatever the other steps start has no channel. *)
Definition no_channel (g : goroutine) : Prop := receives g = [] ∧ sends g = [] ∧ reader g = None ∧ ∀ s, g ≠ GoSync s.
Lemma no_channels G : Forall no_channel G → all_receives G = [] ∧ all_sends G = [].
Proof.
  induction 1 as [|g G (Hr & Hs & _) _ [IHr IHs]]; [done|]. change (g :: G) with ([g] ++ G).
  rewrite all_receives_app, all_sends_app, IHr, IHs, !app_nil_r. cbn. by rewrite Hr, Hs.
Qed.
End Rollups.

Lemma newL2Ethermans_quiet n l b addrs : ∀ i cs, preserves (same_start n l) (newL2Ethermans b i addrs cs : Pr (list EthermanClient)).
Proof. induction addrs as [|addr addrs IH]; intros i cs; cbn [newL2Ethermans]; solve_preserves. Qed.
Lemma newEthermans_quiet n l b : preserves (same_start n l) (newEthermans b : Pr (EthermanClient * list EthermanClient)).
Proof.
  unfold newEthermans, l1_etherman, fatal. apply pres_bind; [auto with pres|intros l1]. case_match; [auto with pres|].
  apply pres_bind; [apply newL2Ethermans_quiet|auto with pres].
Qed.
Lemma newEthermans_l1 b s l1 l2s s' : (newEthermans b : Pr (EthermanClient * list EthermanClient)) s = (Ok (l1, l2s), s') → GetNetworkID l1 = 0.
Proof.
  unfold newEthermans. intros H. apply M_bind_inv in H as (l1' & s1 & E1 & H). unfold l1_etherman, conn in E1.
  apply zoom_inv in E1 as (o & E1 & _). unfold etherman_NewClient in E1. do 2 apply M_bind_inv in E1 as (? & ? & _ & E1).
  injection E1 as <- _. case_bool_decide; [done|]. apply M_bind_inv in H as (? & ? & _ & H). by injection H as <- _ _.
Qed.
Lemma setupNetworkIDs_ok net l2s s nets s' : (setupNetworkIDs net l2s : Pr (list Z)) s = (Ok nets, s') →
  nets = net :: (GetNetworkID <$> l2s).
Proof. unfold setupNetworkIDs. intros H. apply M_bind_inv in H as (? & ? & _ & H). by injection H. Qed.
Lemma calculator_adds s r s' : (InitDefaultCalculator unspecified : Pr unit) s = (Ok r, s') → adds 0 [GoRefreshEstimates] s s'.
Proof.
  unfold InitDefaultCalculator. intros H. apply M_bind_inv in H as (times & s1 & E1 & H).
  destruct (NewCalculator _ _) as [r1 ca]. injection E1 as _ <-. apply M_bind_inv in H as ([] & s2 & [= <-] & H).
  injection H as _ <-. split; cbn; [lia|done].
Qed.

(** The goroutines of the tasks: those of the rollups, the synchronizer of the first
    network with what forwards its channel, and the monitors of the channels when no
    manager reads them. *)
Record tasks_started (c : XLayerCfg) (n : nat) (bt : BridgeController) (clients : list EthermanClient) (G : list goroutine) : Prop := {
  ts_parts : ∃ G2 l1 GM GK, G = [GoRefreshEstimates] ++ G2 ++ [GoSync l1; GoRecordLatestBlockNum l1; GoForward n (pairs (S n) (length clients)).*2] ++ GM ++ GK ∧
    l2s_started c bt (0 :: (GetNetworkID <$> clients)) 0 clients (S n) G2 ∧
    sy_ctrl l1 = bt ∧ cfg_networkID (sy_config l1) = 0 ∧ sy_chSynced l1 = n ∧ sy_chExitRootEventL2 l1 = None ∧
    sy_chsExitRootEvent l1 = (pairs (S n) (length clients)).*1 ∧
    (if ctc_Enabled (uc_ClaimTxManager (xc_Base c)) then GM = []
     else monitors (0 :: (GetNetworkID <$> clients)) 0 (pairs (S n) (length clients)) GM) ∧
    Forall no_channel GK;
}.
Lemma kafka_adds c rs s s' : (when (bool_decide (coc_Brokers (xc_CoinKafkaConsumer c) ≠ []))
    (topics ← outside (NewKafkaConsumer (xc_CoinKafkaConsumer c)); go_ (GoKafkaConsumer topics rs)) : Pr unit) s = (Ok tt, s') →
  ∃ G, adds 0 G s s' ∧ Forall no_channel G.
Proof.
  unfold when. intros H. destruct (bool_decide _) eqn:Hb.
  - apply M_bind_inv in H as (topics & s1 & E1 & H). apply quiet_adds in E1; [|auto with pres]. apply go_adds in H.
    eexists. split; [exact (adds_trans _ _ _ _ _ _ _ E1 H)|]. cbn. repeat constructor. done.
  - injection H as <-. exists []. split; [|done]. split; [lia|by rewrite app_nil_r].
Qed.
Lemma monitors_adds c nets chs s s' : (when (negb (ctc_Enabled (uc_ClaimTxManager (xc_Base c)))) (monitor_channels nets 0 chs) : Pr unit) s = (Ok tt, s') →
  ∃ G, adds 0 G s s' ∧ if ctc_Enabled (uc_ClaimTxManager (xc_Base c)) then G = [] else monitors nets 0 chs G.
Proof.
  destruct (ctc_Enabled _); cbn [negb when]; intros H.
  - injection H as <-. exists []. split; [|done]. split; [lia|by rewrite app_nil_r].
  - by apply monitor_channels_adds in H.
Qed.
End StartFacts.

Ltac quiet_step H A :=
  let E := fresh "E" in let H2 := fresh "H" in
  apply M_bind_inv in H; destruct H as (? & ? & E & H2); rename H2 into H; apply quiet_adds in E as A;
    [|first [apply newEthermans_quiet|unfold InitProcessors, InitChainIds, NewBridgeController_of, service_of, setupNetworkIDs; solve_preserves]].

Section Runs.
Context {K : Keccak} {C W P : Type} {Lru : LruCache C} {Out : Outside W} {Prom : Prometheus P}.
Context (unspecified : float64 → Z).
Abbreviation Pr := (M (process W P)).
#[local] Hint Resolve pres_map_err quiet_conn quiet_db quiet_globals quiet_global quiet_elem quiet_outside quiet_fatal : pres.
Lemma runTask_parts c s s' : (runTask unspecified c : Pr unit) s = (Ok tt, s') →
  ∃ bt clients G, pr_started s' = pr_started s ++ G ∧ tasks_started c (pr_chans s) bt clients G.
Proof.
  unfold runTask. intros H. quiet_step H A1. quiet_step H A2.
  apply M_bind_inv in H as ([] & ? & E3 & H). apply calculator_adds in E3 as A3. quiet_step H A4. quiet_step H A5.
  apply M_bind_inv in H as ([l1 clients] & ? & E6 & H). pose proof (newEthermans_l1 _ _ _ _ _ E6) as Hl1.
  apply quiet_adds in E6 as A6; [|apply newEthermans_quiet].
  apply M_bind_inv in H as (nets & ? & E7 & H). pose proof (setupNetworkIDs_ok _ _ _ _ _ E7) as Hnets.
  apply quiet_adds in E7 as A7; [|unfold setupNetworkIDs; solve_preserves]. quiet_step H A8.
  apply M_bind_inv in H as (bt & ? & E9 & H). apply quiet_adds in E9 as A9; [|unfold NewBridgeController_of; solve_preserves].
  quiet_step H A10. quiet_step H A11.
  apply M_bind_inv in H as (n & ? & E12 & H). apply make_chan_adds in E12 as [En A12].
  pose proof (adds_trans _ _ _ _ _ _ _ A1 (adds_trans _ _ _ _ _ _ _ A2 (adds_trans _ _ _ _ _ _ _ A3 (adds_trans _ _ _ _ _ _ _ A4
    (adds_trans _ _ _ _ _ _ _ A5 (adds_trans _ _ _ _ _ _ _ A6 (adds_trans _ _ _ _ _ _ _ A7 (adds_trans _ _ _ _ _ _ _ A8
    (adds_trans _ _ _ _ _ _ _ A9 (adds_trans _ _ _ _ _ _ _ A10 A11)))))))))) as B1. rewrite (proj1 B1), Nat.add_0_r in En.
  pose proof (adds_trans _ _ _ _ _ _ _ B1 A12) as B2. cbn [app Nat.add] in B2.
  apply M_bind_inv in H as (chs & ? & E13 & H). apply for_l2_adds in E13 as (Echs & G2 & A13 & HG2).
  rewrite (proj1 B2), Nat.add_1_r in Echs, HG2.
  apply M_bind_inv in H as (sy & ? & E14 & H). apply NewSynchronizer_ok in E14 as (A14 & Hsy & Hct & Hn & Hch).
  quiet_step H A15. apply M_bind_inv in H as ([] & ? & E16 & H). apply go_adds in E16.
  apply M_bind_inv in H as ([] & ? & E17 & H). apply go_adds in E17. apply M_bind_inv in H as ([] & ? & E18 & H). apply go_adds in E18.
  apply M_bind_inv in H as ([] & ? & E19 & H). apply monitors_adds in E19 as (GM & A19 & HGM). apply kafka_adds in H as (GK & A20 & HGK).
  pose proof (adds_trans _ _ _ _ _ _ _ B2 (adds_trans _ _ _ _ _ _ _ A13 (adds_trans _ _ _ _ _ _ _ A14 (adds_trans _ _ _ _ _ _ _ A15
    (adds_trans _ _ _ _ _ _ _ E16 (adds_trans _ _ _ _ _ _ _ E17 (adds_trans _ _ _ _ _ _ _ E18 (adds_trans _ _ _ _ _ _ _ A19 A20)))))))) as B3.
  rewrite Hl1 in *. cbn [sa_etherMan sa_chsExitRootEvent sa_chSynced] in *. rewrite Hl1, Echs in *. injection Hch as Hx Hchs.
  exists bt, clients. eexists. split; [exact (proj2 B3)|]. constructor. subst.
  eexists G2, _, GM, GK. split; [cbn [app]; reflexivity|]. by split_and!.
Qed.

(** *** What follows from the list of the goroutines *)
Section Tasks.
Context (c : XLayerCfg) (n : nat) (bt : BridgeController) (clients : list EthermanClient) (G : list goroutine).
Context (HG : tasks_started c n bt clients G).
Lemma tasks_receive : all_receives G ≡ₚ seq n (S (2 * length clients)).
Proof.
  destruct HG as [(G2 & l1 & GM & GK & -> & H2 & _ & _ & _ & _ & _ & HM & HK)].
  destruct (l2s_started_chans _ _ _ _ _ _ _ H2) as [R2 _]. destruct (no_channels _ HK) as [RK _].
  rewrite !all_receives_app, R2, RK. cbn -[seq]. rewrite app_nil_r. change (seq n (S (2 * length clients))) with (n :: seq (S n) (2 * length clients)).
  destruct (ctc_Enabled _); [rewrite HM; cbn|]; [by rewrite Permutation_app_comm|].
  destruct (monitors_receive _ _ _ _ HM) as [_ ->]. by rewrite pairs_seq.
Qed.
Lemma tasks_send ch : ch ∈ all_sends G → ch ∈ seq n (S (2 * length clients)).
Proof.
  destruct HG as [(G2 & l1 & GM & GK & -> & H2 & _ & _ & Hs & Hx & Hc & HM & HK)].
  destruct (l2s_started_chans _ _ _ _ _ _ _ H2) as [_ S2]. destruct (no_channels _ HK) as [_ SK].
  assert (all_sends GM = []) as SM.
  { destruct (ctc_Enabled _); [by rewrite HM|]. by destruct (monitors_receive _ _ _ _ HM). }
  rewrite !all_sends_app, SM, SK. cbn -[seq]. rewrite Hs, Hx, Hc, !app_nil_r. cbn [option_chan app].
  change (seq n (S (2 * length clients))) with (n :: seq (S n) (2 * length clients)).
  intros Hch. apply elem_of_cons. rewrite elem_of_app, elem_of_cons, elem_of_app in Hch.
  destruct Hch as [Hch|[Hch|Hch]]; [by right; apply S2|by left|right; apply elem_of_seq, (pairs_flat (S n)); tauto].
Qed.
(** The synchronizer of a rollup sends its exit roots to the reader of its network. *)
Lemma tasks_l2 sy ch : GoSync sy ∈ G → sy_chExitRootEventL2 sy = Some ch →
  ∃ g, g ∈ G ∧ reader g = Some (cfg_networkID (sy_config sy), ch, sy_chSynced sy).
Proof.
  destruct HG as [(G2 & l1 & GM & GK & -> & H2 & _ & _ & _ & Hx & _ & HM & HK)]. intros Hin Hch.
  assert (GoSync sy ∈ G2) as Hin2.
  { rewrite !elem_of_app, !elem_of_cons in Hin. destruct Hin as [[Hin|Hin%not_elem_of_nil]|[Hin|[[Hin|[Hin|[Hin|Hin%not_elem_of_nil]]]|[Hin|Hin]]]]; try done.
    - injection Hin as ->. congruence.
    - destruct (ctc_Enabled _); [rewrite HM in Hin; by apply not_elem_of_nil in Hin|]. exfalso. revert HM Hin. generalize (pairs (S n) (length clients)).
      generalize 0%nat. clear. intros i chs. revert i GM. induction chs as [|? chs IH]; intros i GM; cbn [monitors]; [by intros -> ?%not_elem_of_nil|].
      intros (net & G' & -> & _ & H) [?|Hin]%elem_of_cons; [done|]. by eapply IH.
    - rewrite Forall_forall in HK. by destruct (HK _ Hin) as (_ & _ & _ & Hno); destruct (Hno sy). }
  destruct (l2s_started_sync _ _ _ _ _ _ _ _ H2 Hin2) as (j & cl & Hj & Hn & _ & Hs & Hch' & Hm). rewrite (Hch' _ Hch), Hn, Hs.
  assert ((0 :: (GetNetworkID <$> clients)) !! S j = Some (GetNetworkID cl)) as Hnet.
  { change ((GetNetworkID <$> clients) !! j = Some (GetNetworkID cl)). by rewrite list_lookup_fmap, Hj. }
  destruct (ctc_Enabled _) eqn:He.
  - destruct (Hm eq_refl) as (m & Hinm & Ha & Hb & Hnm). exists (GoManagerXLayer m). cbn [Nat.add] in Hnm. rewrite Hnet in Hnm. injection Hnm as Hnm.
    split; [apply elem_of_app; right; apply elem_of_app; by left|]. cbn. by rewrite <- Hnm, Ha, Hb.
  - destruct (monitors_lookup _ _ _ _ j _ HM (pairs_lookup _ _ _ (lookup_lt_Some _ _ _ Hj))) as (net & Hnet' & Hinm).
    cbn [Nat.add] in Hnet'. rewrite Hnet in Hnet'. injection Hnet' as <-. eexists. split; [rewrite !elem_of_app; right; right; right; left; exact Hinm|done].
Qed.
(** What a reader waits for comes from the synchronizer of the first network. *)
Lemma tasks_reader g net ch synced : g ∈ G → reader g = Some (net, ch, synced) → ∃ l1 to,
  GoSync l1 ∈ G ∧ cfg_networkID (sy_config l1) = 0 ∧ ch ∈ sy_chsExitRootEvent l1 ∧ GoForward (sy_chSynced l1) to ∈ G ∧ synced ∈ to.
Proof.
  destruct HG as [(G2 & l1 & GM & GK & -> & H2 & _ & H0 & Hs & _ & Hc & HM & HK)]. intros Hin Hr.
  assert (∃ j, (j < length clients)%nat ∧ ch = (S n + 2 * j)%nat ∧ synced = S (S n + 2 * j)) as (j & Hj & -> & ->).
  { rewrite !elem_of_app, !elem_of_cons in Hin. destruct Hin as [[->|Hin%not_elem_of_nil]|[Hin|[[->|[->|[->|Hin%not_elem_of_nil]]]|[Hin|Hin]]]]; try done.
    - destruct (l2s_started_manager _ _ _ _ _ _ _ _ H2 Hin) as [[sy ->]|(j & m & -> & Hj & Ha & Hb)]; [done|].
      injection Hr as _ <- <-. by exists j.
    - destruct (ctc_Enabled _); [rewrite HM in Hin; by apply not_elem_of_nil in Hin|].
      destruct (monitors_pairs _ _ _ _ _ _ HM Hin) as (j & net' & Hj & ->). injection Hr as _ <- <-. by exists j.
    - rewrite Forall_forall in HK. destruct (HK _ Hin) as (_ & _ & Hno & _). congruence. }
  pose proof (pairs_lookup _ (S n) _ Hj) as Hp. exists l1, (pairs (S n) (length clients)).*2.
  rewrite Hs, Hc. split_and!; [| |eapply list_elem_of_lookup_2; by rewrite list_lookup_fmap, Hp| |eapply list_elem_of_lookup_2; by rewrite list_lookup_fmap, Hp]; [|done|].
  all: rewrite !elem_of_app, !elem_of_cons; tauto.
Qed.
End Tasks.

(** C7. The channels of the X Layer tasks are wired, with the claim managers or
    without them: no channel has two readers, whatever a synchronizer or the
    goroutine that forwards sends has a reader, so that no send blocks for ever for
    want of one; the synchronizer of a rollup sends its exit roots to the reader that
    serves its own network, which also hears when it is synced; and every reader gets
    the exit roots of the first network and hears when that network is synced. *)
Theorem runTask_wired c s s' (H : (runTask unspecified c : Pr unit) s = (Ok tt, s')) :
  ∃ G, pr_started s' = pr_started s ++ G ∧
    NoDup (all_receives G) ∧ (∀ ch, ch ∈ all_sends G → ch ∈ all_receives G) ∧
    (∀ sy ch, GoSync sy ∈ G → sy_chExitRootEventL2 sy = Some ch →
      ∃ g, g ∈ G ∧ reader g = Some (cfg_networkID (sy_config sy), ch, sy_chSynced sy)) ∧
    (∀ g net ch synced, g ∈ G → reader g = Some (net, ch, synced) → ∃ l1 to,
      GoSync l1 ∈ G ∧ cfg_networkID (sy_config l1) = 0 ∧ ch ∈ sy_chsExitRootEvent l1 ∧
      GoForward (sy_chSynced l1) to ∈ G ∧ synced ∈ to).
Proof.
  destruct (runTask_parts _ _ _ H) as (bt & clients & G & HG & Hts). exists G.
  pose proof (tasks_receive _ _ _ _ _ Hts) as Hrec. split_and!; [done| | | |].
  - rewrite Hrec. apply NoDup_seq.
  - intros ch Hch. rewrite Hrec. by eapply tasks_send.
  - intros. by eapply tasks_l2.
  - intros. by eapply tasks_reader.
Qed.
End Runs.

Section Upstream.
Context {K : Keccak} {C W P : Type} {Lru : LruCache C} {Out : Outside W} {Prom : Prometheus P}.
Abbreviation Pr := (M (process W P)).
#[local] Hint Resolve pres_map_err quiet_conn quiet_db quiet_globals quiet_global quiet_elem quiet_outside quiet_fatal : pres.

(** One synchronizer for each rollup, on the channels [a] and [S a]. *)
Fixpoint syncs_started (bt : BridgeController) (clients : list EthermanClient) (a : chan) (G : list goroutine) : Prop :=
  match clients with
  | [] => G = []
  | client :: clients => ∃ args G', G = GoRunSynchronizer bt args :: G' ∧ sa_etherMan args = client ∧ sa_chSynced args = S a ∧
      sa_chExitRootEventL2 args = Some a ∧ sa_chsExitRootEvent args = [] ∧ syncs_started bt clients (S (S a)) G'
  end.
(** One manager for each pair of channels. *)
Fixpoint managers_started (nets : list Z) (i : nat) (chs : list (chan * chan)) (G : list goroutine) : Prop :=
  match chs with
  | [] => G = []
  | ch :: chs => ∃ m G', G = GoManager m :: G' ∧ nets !! S i = Some (tm_l2NetworkID (mi_config m)) ∧
      mi_chExitRootEvent m = ch.1 ∧ mi_chSynced m = ch.2 ∧ managers_started nets (S i) chs G'
  end.

Lemma or_fatal_inv {S A} (m : M S A) s a s' : or_fatal m s = (Ok a, s') → m s = (Ok a, s').
Proof.
  unfold or_fatal, attempt, mbind, M_bind. destruct (m s) as [[x|e|p] s1]; [by intros [= -> ->]|done|done].
Qed.
Lemma NewClaimTxManager_fields cfg a b url net addr service rollupID auth s m s' :
  (outside (NewClaimTxManager cfg a b url net addr service rollupID auth) : Pr ManagerInstance) s = (Ok m, s') →
  tm_l2NetworkID (mi_config m) = net ∧ mi_chExitRootEvent m = a ∧ mi_chSynced m = b.
Proof.
  unfold outside, conn. intros E. apply zoom_inv in E as (o & E & _). apply zoom_inv in E as (w & E & _).
  unfold NewClaimTxManager in E. do 2 apply M_bind_inv in E as (? & ? & _ & E). by injection E as <- _.
Qed.
Lemma start_l2_adds c bt i client s ch s' : (start_l2 c bt i client : Pr (chan * chan)) s = (Ok ch, s') →
  ch = (pr_chans s, S (pr_chans s)) ∧ ∃ args, adds 2 [GoRunSynchronizer bt args] s s' ∧ sa_etherMan args = client ∧
    sa_chSynced args = S (pr_chans s) ∧ sa_chExitRootEventL2 args = Some (pr_chans s) ∧ sa_chsExitRootEvent args = [].
Proof.
  unfold start_l2. intros H. apply M_bind_inv in H as (url & s1 & E1 & H). apply elem_inv in E1 as [_ ->].
  apply M_bind_inv in H as (a & s2 & E2 & H). apply make_chan_adds in E2 as [-> A2].
  apply M_bind_inv in H as (b & s3 & E3 & H). apply make_chan_adds in E3 as [-> A3].
  apply M_bind_inv in H as (sov & s4 & E4 & H). apply elem_inv in E4 as [_ ->].
  apply M_bind_inv in H as ([] & s5 & E5 & [= <- <-]). apply go_adds in E5.
  assert (pr_chans s2 = S (pr_chans s)) as Hs2 by (destruct A2 as [-> _]; lia). rewrite Hs2 in *. split; [done|].
  eexists. split; [exact (adds_trans _ _ _ _ _ _ _ (adds_trans _ _ _ _ _ _ _ A2 A3) E5)|]. done.
Qed.
Lemma start_l2s_adds c bt clients : ∀ i s chs s', for_l2 (start_l2 c bt : _ → _ → Pr (chan * chan)) i clients s = (Ok chs, s') →
  chs = pairs (pr_chans s) (length clients) ∧ ∃ G, adds (2 * length clients) G s s' ∧ syncs_started bt clients (pr_chans s) G.
Proof.
  induction clients as [|client clients IH]; intros i s chs s'; cbn [for_l2 length pairs syncs_started].
  - intros [= <- <-]. split; [done|]. exists []. split; [|done]. split; [lia|by rewrite app_nil_r].
  - intros H. apply M_bind_inv in H as (ch & s1 & E1 & H). apply M_bind_inv in H as (chs' & s2 & E2 & [= <- <-]).
    apply start_l2_adds in E1 as (-> & args & A1 & H1). apply IH in E2 as (-> & G2 & A2 & H2).
    assert (pr_chans s1 = S (S (pr_chans s))) as E by (destruct A1 as [-> _]; lia). rewrite E in *. split; [done|].
    exists (GoRunSynchronizer bt args :: G2). split; [|destruct H1 as (? & ? & ? & ?); by exists args, G2].
    pose proof (adds_trans _ _ _ _ _ _ _ A1 A2) as A. by replace (2 * S (length clients))%nat with (2 + 2 * length clients)%nat by lia.
Qed.
Lemma start_managers_adds c service nets l2s chs urls : ∀ i s s',
  (start_managers c service nets l2s chs i urls : Pr unit) s = (Ok tt, s') → length chs = (i + length urls)%nat →
  ∃ G, adds 0 G s s' ∧ managers_started nets i (drop i chs) G.
Proof.
  induction urls as [|url urls IH]; intros i s s'; cbn [start_managers length].
  - intros [= <-] Hl. exists []. rewrite drop_ge by lia. split; [|done]. split; [lia|by rewrite app_nil_r].
  - intros H Hl. apply M_bind_inv in H as (addr & s1 & E1 & H). apply elem_inv in E1 as [_ ->].
    quiet_step H A2. quiet_step H A3. quiet_step H A4.
    apply M_bind_inv in H as (cl & s5 & E5 & H). apply elem_inv in E5 as [_ ->]. apply M_bind_inv in H as (ch & s6 & E6 & H). apply elem_inv in E6 as [Hch ->].
    apply M_bind_inv in H as (net & s7 & E7 & H). apply elem_inv in E7 as [Hnet ->]. apply M_bind_inv in H as (m & s8 & E8 & H).
    apply quiet_adds in E8 as A8; [|auto with pres]. apply or_fatal_inv, NewClaimTxManager_fields in E8 as (Hm1 & Hm2 & Hm3).
    apply M_bind_inv in H as ([] & s9 & E9 & H). apply go_adds in E9. apply IH in H as (G & AG & HG); [|lia].
    exists (GoManager m :: G). rewrite (drop_S _ _ _ Hch). split; [|exists m, G; by rewrite Hm1].
    exact (adds_trans _ _ _ _ _ _ _ (adds_trans _ _ _ _ _ _ _ (adds_trans _ _ _ _ _ _ _ (adds_trans _ _ _ _ _ _ _ A2 A3) A4) A8) (adds_trans _ _ _ _ _ _ _ E9 AG)).
Qed.

(** ** What follows from the list of the goroutines *)
Lemma syncs_chans bt clients : ∀ a G, syncs_started bt clients a G →
  all_receives G = [] ∧ ∀ ch, ch ∈ all_sends G → ch ∈ seq a (2 * length clients).
Proof.
  induction clients as [|client clients IH]; intros a G; cbn [syncs_started length].
  - intros ->. split; [done|]. by intros ch Hch%not_elem_of_nil.
  - intros (args & G' & -> & _ & Hs & Hx & Hc & HG). destruct (IH _ _ HG) as [HR HS]. split; [exact HR|].
    replace (2 * S (length clients))%nat with (S (S (2 * length clients))) by lia. intros ch [Hch|Hch]%elem_of_app; cbn [seq]; rewrite !elem_of_cons; [|by auto].
    cbn in Hch. rewrite Hs, Hx, Hc in Hch. apply elem_of_cons in Hch as [->|Hch]; [by auto|]. case_bool_decide; cbn in Hch; [by apply not_elem_of_nil in Hch|].
    apply list_elem_of_singleton in Hch as ->. by left.
Qed.
Lemma syncs_lookup bt clients : ∀ a G g, syncs_started bt clients a G → g ∈ G → ∃ j client args,
  clients !! j = Some client ∧ g = GoRunSynchronizer bt args ∧ sa_etherMan args = client ∧ sa_chSynced args = S (a + 2 * j) ∧
  sa_chExitRootEventL2 args = Some (a + 2 * j)%nat.
Proof.
  induction clients as [|client clients IH]; intros a G g; cbn [syncs_started]; [by intros -> ?%not_elem_of_nil|].
  intros (args & G' & -> & He & Hs & Hx & Hc & HG) [->|Hin]%elem_of_cons.
  - exists 0%nat, client, args. by rewrite !Nat.mul_0_r, !Nat.add_0_r.
  - destruct (IH _ _ _ HG Hin) as (j & cl & args' & Hj & -> & He' & Hs' & Hx'). exists (S j), cl, args'.
    by replace (a + 2 * S j)%nat with (S (S a) + 2 * j)%nat by lia.
Qed.
Lemma managers_receive nets chs : ∀ i G, managers_started nets i chs G → all_sends G = [] ∧
  all_receives G = mjoin ((λ ch : chan * chan, [ch.1; ch.2]) <$> chs).
Proof.
  induction chs as [|ch chs IH]; intros i G; cbn [managers_started]; [by intros ->|].
  intros (m & G' & -> & _ & Ha & Hb & H). destruct (IH _ _ H) as [H1 H2]. split; [exact H1|].
  trans (mi_chExitRootEvent m :: mi_chSynced m :: all_receives G'); [done|]. by rewrite H2, Ha, Hb.
Qed.
(** The readers: the managers or the monitors. *)
Definition readers (enabled : bool) (nets : list Z) (i : nat) (chs : list (chan * chan)) (G : list goroutine) : Prop :=
  if enabled then managers_started nets i chs G else monitors nets i chs G.
Lemma readers_receive enabled nets i chs G : readers enabled nets i chs G → all_sends G = [] ∧
  all_receives G = mjoin ((λ ch : chan * chan, [ch.1; ch.2]) <$> chs).
Proof. destruct enabled; [apply managers_receive|apply monitors_receive]. Qed.
Lemma readers_lookup enabled nets chs : ∀ i G j ch, readers enabled nets i chs G → chs !! j = Some ch →
  ∃ net g, nets !! S (i + j) = Some net ∧ g ∈ G ∧ reader g = Some (net, ch.1, ch.2).
Proof.
  induction chs as [|ch0 chs IH]; intros i G j ch; [done|]. intros H.
  assert (∃ net0 g0 G', G = g0 :: G' ∧ nets !! S i = Some net0 ∧ reader g0 = Some (net0, ch0.1, ch0.2) ∧ readers enabled nets (S i) chs G')
    as (net0 & g0 & G' & -> & Hn0 & Hr0 & H').
  { destruct enabled; cbn in H.
    - destruct H as (m & G' & -> & Hn & Ha & Hb & H). exists (tm_l2NetworkID (mi_config m)), (GoManager m), G'. cbn. by rewrite Ha, Hb.
    - destruct H as (net & G' & -> & Hn & H). by exists net, (GoMonitorChannel ch0.1 ch0.2 net), G'. }
  destruct j as [|j]; cbn.
  - intros [= ->]. exists net0, g0. rewrite Nat.add_0_r. split_and!; [done|by left|done].
  - intros Hj. destruct (IH _ _ _ _ H' Hj) as (net & g & Hn & Hin & Hr). exists net, g. rewrite Nat.add_succ_r. split_and!; [done|by right|done].
Qed.
Lemma readers_only enabled nets chs : ∀ i G g, readers enabled nets i chs G → g ∈ G →
  (∀ bt args, g ≠ GoRunSynchronizer bt args) ∧ ∃ j ch net, chs !! j = Some ch ∧ reader g = Some (net, ch.1, ch.2).
Proof.
  induction chs as [|ch0 chs IH]; intros i G g; [by destruct enabled; intros -> ?%not_elem_of_nil|]. intros H.
  assert (∃ net0 g0 G', G = g0 :: G' ∧ (∀ bt args, g0 ≠ GoRunSynchronizer bt args) ∧ reader g0 = Some (net0, ch0.1, ch0.2) ∧
    readers enabled nets (S i) chs G') as (net0 & g0 & G' & -> & Hno & Hr0 & H').
  { destruct enabled; cbn in H.
    - destruct H as (m & G' & -> & Hn & Ha & Hb & H). exists (tm_l2NetworkID (mi_config m)), (GoManager m), G'. cbn. by rewrite Ha, Hb.
    - destruct H as (net & G' & -> & Hn & H). by exists net, (GoMonitorChannel ch0.1 ch0.2 net), G'. }
  intros [->|Hin]%elem_of_cons; [split; [done|]; by exists 0%nat, ch0, net0|].
  destruct (IH _ _ _ H' Hin) as [Hno' (j & ch & net & Hj & Hr)]. split; [done|]. by exists (S j), ch, net.
Qed.

(** ** The start *)
Lemma newL2Ethermans_length b addrs : ∀ i cs s l s', (newL2Ethermans b i addrs cs : Pr (list EthermanClient)) s = (Ok l, s') →
  length l = (length cs + length addrs)%nat.
Proof.
  induction addrs as [|addr addrs IH]; intros i cs s l s'; cbn [newL2Ethermans length]; [intros [= <- _]; lia|].
  intros H. do 4 apply M_bind_inv in H as (? & ? & _ & H). apply IH in H. rewrite length_app in H. cbn in H. lia.
Qed.
Lemma newEthermans_length b s l1 l2s s' : (newEthermans b : Pr (EthermanClient * list EthermanClient)) s = (Ok (l1, l2s), s') →
  length l2s = length (etc_L2URLs (uc_Etherman b)).
Proof.
  unfold newEthermans. intros H. apply M_bind_inv in H as (? & ? & _ & H). case_bool_decide as Hl; [done|].
  apply M_bind_inv in H as (l & ? & E & H). injection H as _ -> _. apply newL2Ethermans_length in E. rewrite E. cbn.
  by destruct (decide (length (nc_L2PolygonBridgeAddresses (uc_NetworkConfig b)) = length (etc_L2URLs (uc_Etherman b)))).
Qed.
Lemma RunServer_adds b service s s' : (RunServer b service : Pr unit) s = (Ok tt, s') → ∃ G, adds 0 G s s' ∧ Forall no_channel G.
Proof.
  unfold RunServer. intros H. case_bool_decide as Hg; [done|]. case_bool_decide as Hh; [done|]. apply M_bind_inv in H as ([] & s1 & E1 & H).
  apply go_adds in E1, H. eexists. split; [exact (adds_trans _ _ _ _ _ _ _ E1 H)|]. by repeat constructor.
Qed.
Lemma metrics_adds (b : bool) port s s' : (when b (conn (on_metrics Init);; go_ (GoMetrics port)) : Pr unit) s = (Ok tt, s') →
  ∃ G, adds 0 G s s' ∧ Forall no_channel G.
Proof.
  destruct b; cbn [when]; intros H.
  - apply M_bind_inv in H as ([] & s1 & E1 & H). apply quiet_adds in E1; [|auto with pres]. apply go_adds in H.
    eexists. split; [exact (adds_trans _ _ _ _ _ _ _ E1 H)|]. by repeat constructor.
  - injection H as <-. exists []. split; [|done]. split; [lia|by rewrite app_nil_r].
Qed.

Record upstream_started (enabled : bool) (n : nat) (bt : BridgeController) (clients : list EthermanClient) (G : list goroutine) : Prop := {
  us_parts : ∃ G0 G2 l1 GR, G = G0 ++ G2 ++ [GoRunSynchronizer bt l1; GoForward (n + 2 * length clients) (pairs n (length clients)).*2] ++ GR ∧
    Forall no_channel G0 ∧ syncs_started bt clients n G2 ∧ GetNetworkID (sa_etherMan l1) = 0 ∧ sa_chSynced l1 = (n + 2 * length clients)%nat ∧
    sa_chExitRootEventL2 l1 = None ∧ sa_chsExitRootEvent l1 = (pairs n (length clients)).*1 ∧
    readers enabled (0 :: (GetNetworkID <$> clients)) 0 (pairs n (length clients)) GR;
}.
Lemma length_pairs k : ∀ a, length (pairs a k) = k.
Proof. induction k as [|k IH]; intros a; cbn; [done|]. by rewrite IH. Qed.
Lemma start_parts c s s' : (start_with (C := C) c : Pr unit) s = (Ok tt, s') →
  ∃ bt clients G, pr_started s' = pr_started s ++ G ∧ upstream_started (ctc_Enabled (uc_ClaimTxManager c)) (pr_chans s) bt clients G.
Proof.
  unfold start_with. intros H. quiet_step H A1. apply M_bind_inv in H as ([] & ? & E2 & H). apply metrics_adds in E2 as (G1 & A2 & HG1).
  apply M_bind_inv in H as ([l1 clients] & ? & E3 & H). pose proof (newEthermans_l1 _ _ _ _ _ E3) as Hl1. pose proof (newEthermans_length _ _ _ _ _ E3) as Hlen.
  apply quiet_adds in E3 as A3; [|apply newEthermans_quiet]. quiet_step H A4.
  apply M_bind_inv in H as (bt & ? & E5 & H). apply quiet_adds in E5 as A5; [|unfold NewBridgeController_of; solve_preserves].
  quiet_step H A6. quiet_step H A7. apply M_bind_inv in H as ([] & ? & E8 & H). apply RunServer_adds in E8 as (G8 & A8 & HG8).
  pose proof (adds_trans _ _ _ _ _ _ _ A1 (adds_trans _ _ _ _ _ _ _ A2 (adds_trans _ _ _ _ _ _ _ A3 (adds_trans _ _ _ _ _ _ _ A4
    (adds_trans _ _ _ _ _ _ _ A5 (adds_trans _ _ _ _ _ _ _ A6 (adds_trans _ _ _ _ _ _ _ A7 A8))))))) as B1. cbn [app Nat.add] in B1.
  apply M_bind_inv in H as (chs & ? & E9 & H). apply start_l2s_adds in E9 as (Echs & G2 & A9 & HG2). rewrite (proj1 B1), Nat.add_0_r in Echs, HG2.
  pose proof (adds_trans _ _ _ _ _ _ _ B1 A9) as B2. rewrite Nat.add_0_l in B2.
  apply M_bind_inv in H as (n & ? & E10 & H). apply make_chan_adds in E10 as [En A10]. rewrite (proj1 B2) in En.
  apply M_bind_inv in H as ([] & ? & E11 & H). apply go_adds in E11. apply M_bind_inv in H as ([] & s12 & E12 & H). apply go_adds in E12.
  pose proof (adds_trans _ _ _ _ _ _ _ B2 (adds_trans _ _ _ _ _ _ _ A10 (adds_trans _ _ _ _ _ _ _ E11 E12))) as B3. subst chs n.
  assert (∃ GR, adds 0 GR s12 s' ∧ readers (ctc_Enabled (uc_ClaimTxManager c)) (0 :: (GetNetworkID <$> clients)) 0 (pairs (pr_chans s) (length clients)) GR)
    as (GR & AR & HR).
  { rewrite Hl1 in H. cbn in H. destruct (ctc_Enabled (uc_ClaimTxManager c)).
    - apply start_managers_adds in H; [|rewrite length_pairs; exact Hlen]. by rewrite drop_0 in H.
    - by apply monitor_channels_adds in H. }
  pose proof (adds_trans _ _ _ _ _ _ _ B3 AR) as B4. exists bt, clients. eexists. split; [exact (proj2 B4)|]. constructor.
  eexists (G1 ++ G8), G2, _, GR. split; [cbn [app]; rewrite <- !app_assoc; reflexivity|]. split_and!; try done. by apply Forall_app.
Qed.

Section Wired.
Context (enabled : bool) (n : nat) (bt : BridgeController) (clients : list EthermanClient) (G : list goroutine).
Context (HG : upstream_started enabled n bt clients G).
Abbreviation k := (length clients).
Lemma upstream_receive : all_receives G ≡ₚ seq n (2 * k) ++ [(n + 2 * k)%nat].
Proof.
  destruct HG as [(G0 & G2 & l1 & GR & -> & H0 & H2 & _ & _ & _ & _ & HR)]. destruct (no_channels _ H0) as [R0 _].
  destruct (syncs_chans _ _ _ _ H2) as [R2 _]. destruct (readers_receive _ _ _ _ _ HR) as [_ RR].
  rewrite !all_receives_app, R0, R2, RR, pairs_seq. cbn -[seq Nat.mul]. by rewrite Permutation_cons_append.
Qed.
Lemma upstream_send ch : ch ∈ all_sends G → ch ∈ seq n (2 * k) ++ [(n + 2 * k)%nat].
Proof.
  destruct HG as [(G0 & G2 & l1 & GR & -> & H0 & H2 & Hn & Hs & _ & Hc & HR)]. destruct (no_channels _ H0) as [_ S0].
  destruct (syncs_chans _ _ _ _ H2) as [_ S2]. destruct (readers_receive _ _ _ _ _ HR) as [SR _].
  rewrite !all_sends_app, S0, SR. cbn -[seq Nat.mul]. rewrite Hs, Hc, Hn, !app_nil_r. cbn -[seq Nat.mul].
  intros Hch. rewrite elem_of_app, elem_of_cons, elem_of_app in Hch. apply elem_of_app.
  destruct Hch as [Hch|[->|Hch]]; [left; by apply S2|right; by left|left; apply elem_of_seq, pairs_flat; tauto].
Qed.
Lemma upstream_l2 bt' args ch : GoRunSynchronizer bt' args ∈ G → sa_chExitRootEventL2 args = Some ch → ∃ g, g ∈ G ∧
  reader g = Some (GetNetworkID (sa_etherMan args), ch, sa_chSynced args).
Proof.
  destruct HG as [(G0 & G2 & l1 & GR & -> & H0 & H2 & _ & _ & Hx & _ & HR)]. intros Hin Hch.
  rewrite !elem_of_app, !elem_of_cons in Hin. destruct Hin as [Hin|[Hin|[[[= -> ->]|[Hin|Hin%not_elem_of_nil]]|Hin]]]; try done.
  - rewrite Forall_forall in H0. by destruct (H0 _ Hin) as (_ & Hs & _).
  - destruct (syncs_lookup _ _ _ _ _ H2 Hin) as (j & cl & args' & Hj & [= -> ->] & He & Hs & Hx').
    destruct (readers_lookup _ _ _ _ _ j _ HR (pairs_lookup _ n _ (lookup_lt_Some _ _ _ Hj))) as (net & g & Hn & Hg & Hr).
    rewrite Hx' in Hch. injection Hch as <-. exists g. split; [rewrite !elem_of_app; auto|]. rewrite Hr, Hs, He. cbn [fst snd]. do 3 f_equal.
    change ((GetNetworkID <$> clients) !! j = Some net) in Hn. rewrite list_lookup_fmap, Hj in Hn. by injection Hn.
  - congruence.
  - destruct (readers_only _ _ _ _ _ _ HR Hin) as [Hno _]. by destruct (Hno bt' args).
Qed.
Lemma upstream_reader g net ch synced : g ∈ G → reader g = Some (net, ch, synced) → ∃ bt l1 to,
  GoRunSynchronizer bt l1 ∈ G ∧ GetNetworkID (sa_etherMan l1) = 0 ∧ ch ∈ sa_chsExitRootEvent l1 ∧
  GoForward (sa_chSynced l1) to ∈ G ∧ synced ∈ to.
Proof.
  destruct HG as [(G0 & G2 & l1 & GR & -> & H0 & H2 & Hn & Hs & _ & Hc & HR)]. intros Hin Hr.
  assert (∃ j, pairs n k !! j = Some (ch, synced)) as [j Hp].
  { rewrite !elem_of_app, !elem_of_cons in Hin. destruct Hin as [Hin|[Hin|[[->|[->|Hin%not_elem_of_nil]]|Hin]]]; try done.
    - rewrite Forall_forall in H0. destruct (H0 _ Hin) as (_ & _ & Hno & _). congruence.
    - by destruct (syncs_lookup _ _ _ _ _ H2 Hin) as (? & ? & ? & _ & -> & _).
    - destruct (readers_only _ _ _ _ _ _ HR Hin) as [_ (j & [a b] & net' & Hj & Hr')]. exists j. rewrite Hr' in Hr. by injection Hr as _ <- <-. }
  exists bt, l1, (pairs n k).*2. rewrite Hs, Hc.
  split_and!; [|done|eapply list_elem_of_lookup_2; by rewrite list_lookup_fmap, Hp| |eapply list_elem_of_lookup_2; by rewrite list_lookup_fmap, Hp].
  all: rewrite !elem_of_app, !elem_of_cons; tauto.
Qed.
End Wired.

(** The channels of the upstream process are wired too: none has two readers, and
    whatever is sent has one; the synchronizer of a rollup sends its exit roots to
    the reader of its network, and every reader gets the exit roots of the first
    network and hears when it is synced. *)
Theorem start_wired c s s' (H : (start_with (C := C) c : Pr unit) s = (Ok tt, s')) :
  ∃ G, pr_started s' = pr_started s ++ G ∧
    NoDup (all_receives G) ∧ (∀ ch, ch ∈ all_sends G → ch ∈ all_receives G) ∧
    (∀ bt args ch, GoRunSynchronizer bt args ∈ G → sa_chExitRootEventL2 args = Some ch →
      ∃ g, g ∈ G ∧ reader g = Some (GetNetworkID (sa_etherMan args), ch, sa_chSynced args)) ∧
    (∀ g net ch synced, g ∈ G → reader g = Some (net, ch, synced) → ∃ bt l1 to,
      GoRunSynchronizer bt l1 ∈ G ∧ GetNetworkID (sa_etherMan l1) = 0 ∧ ch ∈ sa_chsExitRootEvent l1 ∧
      GoForward (sa_chSynced l1) to ∈ G ∧ synced ∈ to).
Proof.
  destruct (start_parts _ _ _ H) as (bt & clients & G & HG & Hts). exists G.
  pose proof (upstream_receive _ _ _ _ _ Hts) as Hrec. split_and!; [done| | | |].
  - rewrite Hrec. apply NoDup_app. split_and!; [apply NoDup_seq|intros ch Hch%elem_of_seq Hl%list_elem_of_singleton; lia|apply NoDup_singleton].
  - intros ch Hch. rewrite Hrec. by eapply upstream_send.
  - intros. by eapply upstream_l2.
  - intros. by eapply upstream_reader.
Qed.
End Upstream.
