(* ===== verification/StartSuccess.v ===== *)
(** * A start that succeeds

    When what is outside answers and the database can be read, the X Layer tasks
    start: no step fails, and every synchronizer works on trees that are those of
    the stored deposits.  The API, with a hundred main coins, never comes to serve:
    its first refresh of the coins does not end. *)
From Stdlib Require Import Strings.String.
From S2P Require Import Prelude Types Hashing MerkleStore MerkleTree MerkleTreeFacts MerkleReset Tables Storage StorageFacts SchemaInv BridgeCtrl NetTrees.
From S2P Require Import MessageBridge Synchronizer SyncFacts Restart Etherman PendingTxs GroupMonitor TxMonitor BridgeService Redis.
From S2P Require Import PushMessage Producers GoFloat PushTask EstimateTime ClaimTxManager LocalCache Gateway Metrics.
From S2P Require Import Configuration Connections StartUp.
#[local] Open Scope Z_scope.

(** ** Runs that succeed *)
Definition total {S A} (I : S → Prop) (m : M S A) (φ : A → Prop) : Prop :=
  ∀ s, I s → ∃ a s', m s = (Ok a, s') ∧ φ a ∧ I s'.
Section Total.
Context {S : Type} (I : S → Prop).
Lemma total_ret {A} (a : A) (φ : A → Prop) : φ a → total I (mret a) φ.
Proof. intros H s Hs. by exists a, s. Qed.
Lemma total_bind {A B} (m : M S A) (f : A → M S B) φ ψ : total I m φ → (∀ a, φ a → total I (f a) ψ) → total I (m ≫= f) ψ.
Proof.
  intros Hm Hf s Hs. destruct (Hm s Hs) as (a & s1 & E & Ha & H1). rewrite (M_bind_ok _ _ _ _ _ E). by apply (Hf a).
Qed.
Lemma total_any {A} (m : M S A) φ : total I m φ → total I m (λ _, True).
Proof. intros Hm s Hs. destruct (Hm s Hs) as (a & s1 & E & _ & H1). by exists a, s1. Qed.
Lemma total_modify f : (∀ s, I s → I (f s)) → total I (modify f) (λ _, True).
Proof. intros H s Hs. exists tt, (f s). by auto. Qed.
Lemma total_gets {A} (f : S → A) (φ : A → Prop) : (∀ s, I s → φ (f s)) → total I (gets f) φ.
Proof. intros H s Hs. exists (f s), s. by auto. Qed.
Lemma total_lift {A} (r : res A) a (φ : A → Prop) : r = Ok a → φ a → total I (lift_res r) φ.
Proof. intros -> H s Hs. by exists a, s. Qed.
Lemma total_map_err {A} f (m : M S A) φ : total I m φ → total I (map_err f m) φ.
Proof. intros Hm s Hs. destruct (Hm s Hs) as (a & s1 & E & H). exists a, s1. unfold map_err. by rewrite E. Qed.
Lemma total_attempt {A} (m : M S A) φ : total I m φ → total I (attempt m) (λ r, ∃ a, r = inl a ∧ φ a).
Proof. intros Hm s Hs. destruct (Hm s Hs) as (a & s1 & E & Ha & H). exists (inl a), s1. unfold attempt. rewrite E. eauto. Qed.
Lemma total_when b (m : M S unit) : total I m (λ _, True) → total I (when b m) (λ _, True).
Proof. destruct b; [done|]. intros _. by apply total_ret. Qed.
Lemma total_for_each {A} (l : list A) (f : A → M S unit) : (∀ x, total I (f x) (λ _, True)) → total I (for_each l f) (λ _, True).
Proof. intros Hf. induction l as [|x l IH]; [by apply total_ret|]. apply (total_bind _ _ _ _ (Hf x)). by intros. Qed.
Lemma total_fatal {A} (m : M S A) φ : total I m φ → total I (or_fatal m) φ.
Proof. intros Hm. apply (total_bind _ _ _ _ (total_attempt _ _ Hm)). intros ? (a & -> & Ha). by apply total_ret. Qed.
End Total.

(** ** What is outside answers *)

(** [up] is what makes every request succeed; the bridge of a rollup answers with
    the id of its network. *)
Class OutsideUp (W : Type) `{!Outside W} (up : W → Prop) (net_at : bytes → string → Z) : Prop := {
  up_Dial url : total up (ethclient_Dial url) (λ _, True);
  up_New name addr url : total up (contract_New name addr url) (λ _, True);
  up_NetworkID addr url : total up (Bridge_NetworkID addr url) (λ n, n = net_at addr url);
  up_ReadFile path : total up (os_ReadFile path) (λ _, True);
  up_DecryptKey text password : total up (keystore_DecryptKey text password) (λ _, True);
  up_ChainID url : total up (node_ChainID url) (λ _, True);
  up_NewTransactor key chainID : total up (bind_NewKeyedTransactorWithChainID key chainID) (λ _, True);
  up_lru size : 0 < size → total up (lru_New_ok size) (λ _, True);
  up_GetAbi : total up Bridge_GetAbi (λ _, True);
  up_Connect dsn : total up (pgxpool_Connect dsn) (λ _, True);
  up_migrate dsn : total up (migrate_Exec dsn) (λ _, True);
  up_Ping options : total up (redis_Ping options) (λ _, True);
  up_certs text : AppendCertsFromPEM text = true;
  up_producer brokers auth : total up (sarama_NewSyncProducer brokers auth) (λ _, True);
  up_consumer brokers group offset auth : total up (sarama_NewConsumerGroup brokers group offset auth) (λ _, True);
}.
Create HintDb starts.
#[export] Hint Resolve total_ret total_when total_map_err total_fatal up_Dial up_New up_ReadFile up_DecryptKey up_ChainID
  up_NewTransactor up_GetAbi up_Connect up_migrate up_Ping up_producer up_consumer : starts.
Ltac total_step := first [eapply total_bind; [solve [eauto with starts]|intros ? ?]|solve [eauto with starts]].

Section Connections.
Context {W : Type} {Out : Outside W} (up : W → Prop) (net_at : bytes → string → Z) {Up : OutsideUp W up net_at}.
Lemma NewStorage_up cfg : dc_Database cfg = "postgres"%string → total up (NewStorage cfg) (λ _, True).
Proof. intros H. unfold NewStorage. rewrite bool_decide_true by done. unfold NewPostgresStorage. eauto with starts. Qed.
Lemma NewRedisStorage_up cfg : rdc_Addrs cfg ≠ [] → total up (NewRedisStorage cfg) (λ _, True).
Proof. intros H. unfold NewRedisStorage. destruct (rdc_Addrs cfg); [done|]. repeat total_step. Qed.
Lemma sasl_up e1 e2 u p r : total up (sasl_config e1 e2 u p r) (λ _, True).
Proof. unfold sasl_config. case_bool_decide; [|eauto with starts]. total_step. rewrite up_certs. eauto with starts. Qed.
Lemma setupKafkaProducer_up cfg : total up (setupKafkaProducer cfg) (λ _, True).
Proof.
  unfold setupKafkaProducer. destruct (prc_Enabled cfg); [|eauto with starts]. eapply (total_bind _ _ _ (λ _, True)); [|intros; eauto with starts].
  unfold NewKafkaProducer. destruct (prc_UseFakeProducer cfg); [eauto with starts|]. eapply total_bind; [apply sasl_up|intros]. repeat total_step.
Qed.
Lemma NewKafkaConsumer_up cfg : total up (NewKafkaConsumer cfg) (λ _, True).
Proof. unfold NewKafkaConsumer. eapply total_bind; [apply sasl_up|intros]. repeat total_step. Qed.
Lemma utils_NewClient_up url addr : total up (utils_NewClient url addr) (λ _, True).
Proof. unfold utils_NewClient. total_step. case_bool_decide; repeat total_step. Qed.
Lemma GetSigner_up url ks : total up (GetSignerFromKeystore url ks) (λ _, True).
Proof. unfold GetSignerFromKeystore. repeat total_step. Qed.
Lemma NewNonceCache_up : total up NewNonceCache (λ _, True).
Proof. by apply up_lru. Qed.
Lemma NewClaimTxManager_up cfg a b url net addr service rollupID auth :
  total up (NewClaimTxManager cfg a b url net addr service rollupID auth) (λ _, True).
Proof.
  unfold NewClaimTxManager. eapply total_bind; [apply utils_NewClient_up|intros]. eapply (total_bind _ _ _ (λ _, True)); [|intros; eauto with starts].
  destruct (gcf_Enabled _); [|eauto with starts]. unfold NewMonitorCompressedTxs. eapply (total_bind _ _ _ (λ _, True)); [|intros; eauto with starts].
  repeat total_step.
Qed.
End Connections.

(** ** The process *)
Section Process.
Context {K : Keccak} {C W P : Type} {Lru : LruCache C} {Out : Outside W} {Prom : Prometheus P}.
Context (unspecified : float64 → Z) (up : W → Prop) (net_at : bytes → string → Z) {Up : OutsideUp W up net_at}.
Context (db0 : database) (Ls : Z → list bytes).
Abbreviation Pr := (M (process W P)).

(** The synchronizer works on the trees of the stored deposits, and has one for its
    network. *)
Definition sound_sync (sy : SyncInstance) : Prop :=
  forest (db_committed db0) (sy_ctrl sy) Ls ∧ is_Some (tree_of (sy_ctrl sy) (cfg_networkID (sy_config sy))).
Definition sound (g : goroutine) : Prop := match g with GoSync sy => sound_sync sy | _ => True end.
(** The metrics of the upstream packages are not initialised. *)
Record starting (s : process W P) : Prop := {
  st_up : up (pr_outside s).1;
  st_metrics : mt_initialized (pr_outside s).2 = false;
  st_live : db_live nil_tx (pr_db s);
  st_rows : same_rows db0 (pr_db s);
  st_sound : Forall sound (pr_started s);
}.

(** *** Connections *)
Definition connected (o : W * Metrics P) : Prop := up o.1 ∧ mt_initialized o.2 = false.
Lemma total_conn {A} (m : M (W * Metrics P) A) φ : total connected m φ → total starting (conn m : Pr A) φ.
Proof.
  intros Hm s [Hu Hi Hl Hr Hs]. destruct (Hm (pr_outside s) (conj Hu Hi)) as (a & o & E & Ha & [Hu' Hi']). unfold conn, zoom. rewrite E.
  eexists a, _. split; [reflexivity|]. split; [done|]. by constructor.
Qed.
Lemma total_on_outside {A} (m : M W A) φ : total up m φ → total connected (on_outside m : M (W * Metrics P) A) φ.
Proof.
  intros Hm [w x] [Hu Hi]. destruct (Hm w Hu) as (a & w' & E & Ha & Hw). unfold on_outside, zoom. cbn. rewrite E.
  eexists a, _. split; [reflexivity|]. by split.
Qed.
Lemma total_outside {A} (m : M W A) φ : total up m φ → total starting (outside m : Pr A) φ.
Proof. intros. by apply total_conn, total_on_outside. Qed.
Lemma total_on_metrics (m : M (Metrics P) unit) : total (λ x, mt_initialized x = false) m (λ _, True) →
  total connected (on_metrics m : M (W * Metrics P) unit) (λ _, True).
Proof.
  intros Hm [w x] [Hu Hi]. destruct (Hm x Hi) as ([] & x' & E & _ & Hx). unfold on_metrics, zoom. cbn in *. rewrite E.
  eexists tt, _. split; [reflexivity|]. by split.
Qed.
Lemma off_total (m : M (Metrics P) unit) : total (λ x, mt_initialized x = false) (if_initialized m) (λ _, True).
Proof. intros x Hx. exists tt, x. unfold if_initialized. by rewrite Hx. Qed.
Lemma etherman_Register_off net : total (λ x : Metrics P, mt_initialized x = false) (etherman_Register net) (λ _, True).
Proof.
  unfold etherman_Register. eapply total_bind; [by apply total_modify|intros _ _]. eapply total_bind; [by apply (total_gets _ _ (λ _, True))|intros pre _].
  eapply total_bind; [apply off_total|intros _ _; apply off_total].
Qed.
Lemma sync_Register_off net : total (λ x : Metrics P, mt_initialized x = false) (sync_Register net) (λ _, True).
Proof.
  unfold sync_Register. eapply total_bind; [by apply total_modify|intros _ _]. eapply total_bind; [by apply (total_gets _ _ (λ _, True))|intros pre _].
  eapply total_bind; [apply off_total|intros _ _]. eapply total_bind; [apply off_total|intros _ _; apply off_total].
Qed.
Lemma total_globals f : total starting (modify_globals f : Pr unit) (λ _, True).
Proof. apply total_modify. intros s [Hu Hi Hl Hr Hs]. by constructor. Qed.
Lemma total_global {A} (f : globals → A) : total starting (global f : Pr A) (λ _, True).
Proof. by apply total_gets. Qed.
Lemma total_go g : sound g → total starting (go_ g : Pr unit) (λ _, True).
Proof. intros Hg. apply total_modify. intros s [Hu Hi Hl Hr Hs]. constructor; try done. apply Forall_app. split; [done|by constructor]. Qed.
Lemma total_chan : total starting (make_chan : Pr chan) (λ _, True).
Proof. intros s [Hu Hi Hl Hr Hs]. eexists _, _. split; [reflexivity|]. split; [done|]. by constructor. Qed.
Lemma total_elem {A} (l : list A) i x : l !! i = Some x → total starting (elem l i : Pr A) (λ a, a = x).
Proof. intros H. eapply total_lift; [|done]. by rewrite at_index_nat, H. Qed.
Lemma total_elem_lt {A} (l : list A) i : (i < length l)%nat → total starting (elem l i : Pr A) (λ a, l !! i = Some a).
Proof. intros [x Hx]%lookup_lt_is_Some_2. intros s Hs. destruct (total_elem _ _ _ Hx s Hs) as (a & s' & E & -> & H). by exists x, s'. Qed.

(** *** The nodes *)
Lemma etherman_NewClient_total cfg a b r : total connected (etherman_NewClient cfg a b r : M (W * Metrics P) EthermanClient) (λ c, GetNetworkID c = 0).
Proof.
  unfold etherman_NewClient. eapply total_bind; [apply total_on_outside; repeat total_step|intros _ _].
  eapply total_bind; [apply total_on_metrics, etherman_Register_off|intros _ _]. by apply total_ret.
Qed.
Lemma bind_compressor_total addr url : total up (bind_compressor addr url) (λ _, True).
Proof. unfold bind_compressor. case_bool_decide; repeat total_step. Qed.
Lemma NewL2Client_total url bridge compressor ger sovereign :
  total connected (NewL2Client url bridge compressor ger sovereign : M (W * Metrics P) EthermanClient) (λ c, GetNetworkID c = net_at bridge url).
Proof.
  unfold NewL2Client. eapply (total_bind _ _ _ (λ p, p.2 = net_at bridge url)).
  - apply total_on_outside. do 3 total_step. eapply total_bind; [apply bind_compressor_total|intros o _].
    eapply total_bind; [apply up_NetworkID|intros n ->]. eapply (total_bind _ _ _ (λ _, True)); [|intros; by apply total_ret].
    apply total_when. repeat total_step.
  - intros [o n] Hn. cbn in Hn. subst n. eapply total_bind; [apply total_on_metrics, etherman_Register_off|intros _ _]. by apply total_ret.
Qed.

(** The ids the bridges of the rollups answer with. *)
Definition rollup_ids (b : BaseConfig) : list Z := zip_with net_at (nc_L2PolygonBridgeAddresses (uc_NetworkConfig b)) (etc_L2URLs (uc_Etherman b)).
Lemma newL2Ethermans_total b : lengths_agree b = true → ∀ addrs i cs,
  addrs = drop i (nc_L2PolygonBridgeAddresses (uc_NetworkConfig b)) →
  total starting (newL2Ethermans b i addrs cs : Pr (list EthermanClient)) (λ l, GetNetworkID <$> l = (GetNetworkID <$> cs) ++ drop i (rollup_ids b)).
Proof.
  intros Hb addrs. unfold lengths_agree in Hb. rewrite !andb_true_iff, !bool_decide_eq_true in Hb. destruct Hb as [[H1 H2] H3].
  induction addrs as [|addr addrs IH]; intros i cs Haddrs; cbn [newL2Ethermans].
  - apply total_ret. rewrite drop_ge; [by rewrite app_nil_r|]. unfold rollup_ids. rewrite length_zip_with.
    pose proof (f_equal length Haddrs) as Hl. rewrite length_drop in Hl. cbn in Hl. lia.
  - assert (nc_L2PolygonBridgeAddresses (uc_NetworkConfig b) !! i = Some addr) as Hi.
    { rewrite <- (Nat.add_0_r i), <- lookup_drop, <- Haddrs. done. }
    pose proof (lookup_lt_Some _ _ _ Hi) as Hlt.
    eapply total_bind; [apply (total_elem_lt (etc_L2URLs (uc_Etherman b))); lia|intros url Hurl].
    eapply total_bind; [apply total_elem_lt; lia|intros ger _]. eapply total_bind; [apply total_elem_lt; lia|intros sov _].
    eapply total_bind; [apply total_conn, NewL2Client_total|intros c Hc].
    assert (addrs = drop (S i) (nc_L2PolygonBridgeAddresses (uc_NetworkConfig b))) as Hrest.
    { rewrite <- Nat.add_1_r, <- drop_drop, <- Haddrs. done. }
    intros s Hs. destruct (IH (S i) (cs ++ [c]) Hrest s Hs) as (l & s' & E & Hl & Hs'). exists l, s'. split_and!; [done| |done].
    rewrite Hl, fmap_app, <- app_assoc. f_equal. cbn. rewrite Hc. symmetry. apply drop_S. unfold rollup_ids.
    by rewrite lookup_zip_with, Hi, Hurl.
Qed.
Lemma newEthermans_total b : lengths_agree b = true → total starting (newEthermans b : Pr (EthermanClient * list EthermanClient))
  (λ p, GetNetworkID p.1 = 0 ∧ GetNetworkID <$> p.2 = rollup_ids b).
Proof.
  intros Hb. unfold newEthermans, l1_etherman. eapply total_bind; [apply total_conn, etherman_NewClient_total|intros l1 Hl1].
  rewrite bool_decide_false.
  - eapply total_bind; [by apply newL2Ethermans_total|intros l2s Hl2s]. apply total_ret. split; [exact Hl1|exact Hl2s].
  - unfold lengths_agree in Hb. rewrite !andb_true_iff, !bool_decide_eq_true in Hb. tauto.
Qed.
Lemma setupNetworkIDs_total net l2s : total starting (setupNetworkIDs net l2s : Pr (list Z)) (λ l, l = net :: (GetNetworkID <$> l2s)).
Proof.
  unfold setupNetworkIDs. eapply (total_bind _ _ _ (λ _, True)); [apply total_for_each; intros; apply total_globals|intros _ _]. by apply total_ret.
Qed.
Lemma pair_up_ok keys : ∀ values, (length keys ≤ length values)%nat → ∃ l, pair_up keys values = Ok l.
Proof.
  induction keys as [|k keys IH]; intros values Hl; [by exists []|]. destruct values as [|v values]; cbn in Hl; [lia|].
  destruct (IH values ltac:(lia)) as [l E]. cbn. rewrite E. by eexists.
Qed.
Lemma InitChainIds_total c nets : (length nets ≤ S (length (xc_L2ChainIds c)))%nat → total starting (InitChainIds c nets : Pr unit) (λ _, True).
Proof.
  intros Hl. unfold InitChainIds. destruct (pair_up_ok nets (xc_L1ChainId c :: xc_L2ChainIds c) ltac:(cbn; lia)) as [l E].
  eapply (total_bind _ _ _ (λ _, True)); [|intros; apply total_globals]. eapply total_lift; [|done]. unfold InitChainIdManager. rewrite E. reflexivity.
Qed.

(** *** The storage *)
Definition readable_db (db : database) : Prop := db_live nil_tx db ∧ same_rows db0 db.
Lemma total_db {A} (m : M database A) φ : total readable_db m φ → total starting (db_of m : Pr A) φ.
Proof.
  intros Hm s [Hu Hi Hl Hr Hs]. destruct (Hm (pr_db s) (conj Hl Hr)) as (a & db & E & Ha & [Hl' Hr']). unfold db_of, zoom. rewrite E.
  eexists a, _. split; [reflexivity|]. split; [done|]. by constructor.
Qed.
Lemma readable_select A (f : tables → A) : preserves readable_db (exec nil_tx (select f)).
Proof.
  intros db r db' [Hl Hr] E. destruct (select_live nil_tx f db Hl) as [db2 E2]. rewrite E2 in E. injection E as <- <-.
  destruct (select_ok _ _ _ _ _ E2) as (_ & _ & _ & H). split; [auto|]. etrans; [exact Hr|]. eapply same_select; [reflexivity|exact E2].
Qed.
Lemma total_select A (f : tables → A) : total readable_db (exec nil_tx (select f)) (λ a, a = f (db_committed db0)).
Proof.
  intros db [Hl Hr]. destruct (select_live nil_tx f db Hl) as [db' E]. exists (f (view nil_tx db)), db'.
  split_and!; [done|by destruct Hr as [<- _]|]. exact (readable_select _ _ _ _ _ (conj Hl Hr) E).
Qed.

(** A global exit root of the first network is stored with both its roots. *)
Definition roots_stored (t : tables) : Prop := Forall (λ r, er_allowed r = true → ger_NetworkID (er_ger r) = 0 →
  (2 ≤ length (ger_ExitRoots (er_ger r)))%nat) (t_exit_root t).
Lemma GetLatestL1SyncedExitRoot_total : roots_stored (db_committed db0) →
  total readable_db (r ← attempt (GetLatestL1SyncedExitRoot nil_tx);
    match r with
    | inl ger => mret (ger_ExitRoots ger)
    | inr err => if bool_decide (err = ErrStorageNotFound) then mret [zero_hash; zero_hash] else throw err
    end) (λ l, length l = 2%nat).
Proof.
  intros Hroots db Hdb. destruct (total_select _ (λ t, head (allowed_roots (λ g,
    bool_decide (ger_BlockID g > 0) && bool_decide (ger_NetworkID g = 0)) t)) db Hdb) as (o & db' & E & Ho & Hdb').
  unfold GetLatestL1SyncedExitRoot, attempt, mbind at 1, M_bind at 1. unfold mbind at 1, M_bind at 1. rewrite E. unfold l1_root, not_found, map_err, mbind at 1, M_bind at 1.
  destruct o as [g|]; cbn -[scan_roots].
  - assert (∃ r0 r1, scan_roots g = Ok [r0; r1]) as (r0 & r1 & Es).
    { symmetry in Ho. apply head_Some_elem_of in Ho. unfold allowed_roots in Ho.
      apply list_elem_of_fmap in Ho as (r & -> & Hr). unfold order_desc in Hr. rewrite merge_sort_Permutation in Hr. apply list_elem_of_filter in Hr as [[Ha Hb] Hin].
      rewrite andb_true_iff, !bool_decide_eq_true in Hb. destruct Hb as [_ Hb].
      pose proof Hroots as H. unfold roots_stored in H. rewrite Forall_forall in H. specialize (H _ Hin Ha Hb).
      unfold scan_roots. destruct (ger_ExitRoots (er_ger r)) as [|x0 [|x1 l]]; cbn in H; [lia|lia|]. by exists (BytesToHash x0), (BytesToHash x1). }
    unfold mbind at 1, M_bind at 1, lift_res. rewrite Es. cbn. by exists [r0; r1], db'.
  - rewrite bool_decide_true by done. by exists [zero_hash; zero_hash], db'.
Qed.

Lemma refreshAll_readable : preserves (λ c, readable_db (ca_storage c)) (refreshAll unspecified).
Proof.
  unfold refreshAll. apply pres_for_each. intros i. apply pres_bind; [|auto with pres]. apply pres_attempt. unfold refresh.
  destruct (bool_decide _); [auto with pres|]. apply pres_bind.
  - intros c r c' H E. unfold ca_db in E. apply zoom_inv in E as (db & E & ->). cbn. exact (pres_query _ _ _ (readable_select _ _) _ _ _ H E).
  - intros ds. destruct (deposit_minutes ds); [auto with pres|]. apply pres_bind; [auto with pres|]. intros d c r c' H E.
    unfold set_estimate in E. destruct (at_index (ca_estimateTime c) i); by injection E as <- <-.
Qed.
Lemma InitDefaultCalculator_total : total starting (InitDefaultCalculator unspecified : Pr unit) (λ _, True).
Proof.
  unfold InitDefaultCalculator. eapply (total_bind _ _ _ (λ _, True)).
  - intros s [Hu Hi Hl Hr Hs]. unfold NewCalculator.
    destruct (refreshAll_ok unspecified (mkCalculator (pr_db s) defaultEstTimeConfig)) as (c & E & _); [by repeat constructor|].
    destruct (refreshAll_readable (mkCalculator (pr_db s) defaultEstTimeConfig) _ _ (conj Hl Hr) E) as [Hl' Hr']. rewrite E. cbn.
    eexists _, _. split; [reflexivity|]. split; [done|]. by constructor.
  - intros times _. eapply total_bind; [by apply total_go|intros _ _]. apply total_globals.
Qed.
Lemma NewBridgeController_of_total b nets : bcc_Store (uc_BridgeController b) = "postgres"%string →
  1 ≤ bcc_Height (uc_BridgeController b) ≤ 64 → schema_ok (db_committed db0) (db_seqs db0) → no_collision (t_rht (db_committed db0)) →
  Z.of_nat (length nets) ≤ 256 → Forall (Restart.readable (db_committed db0) (bcc_Height (uc_BridgeController b)) Ls) (nets ++ [MaxInt32]) →
  total starting (NewBridgeController_of b nets : Pr BridgeController)
    (λ bt, forest (db_committed db0) bt Ls ∧ ∀ net, is_Some (tree_of bt net) ↔ net ∈ nets).
Proof.
  intros Hst Hh Hok Hnc Hlen Hread. unfold NewBridgeController_of. rewrite bool_decide_true by done. apply total_db.
  intros db [Hl Hr]. pose proof Hr as (Hc & Hq & _).
  destruct (NewBridgeController_reads (bcc_Height (uc_BridgeController b)) Ls Hh nets db) as (bt & db' & E & Hf & _ & Hin & _ & Hl' & Hr');
    rewrite ?Hc, ?Hq; try done.
  pose proof Hr' as (Hc' & _). rewrite Hc', Hc in Hf. exists bt, db'. split_and!; [done..|]. split; [done|]. by etrans.
Qed.
Lemma service_of_total b nets : is_Some (lru_New (C := C) (bsc_CacheSize (uc_BridgeServer b))) →
  total starting (service_of (C := C) b nets : Pr bridgeService) (λ _, True).
Proof.
  intros [cache E]. unfold service_of. eapply (total_bind _ _ _ (λ _, True)); [|intros [service ?] _; by apply total_ret].
  eapply total_lift; [|done]. unfold BridgeService.NewBridgeService. by rewrite E.
Qed.

(** *** The synchronizers and the claim managers *)
Section Tasks.
Context (Hroots : roots_stored (db_committed db0)).
Lemma latest_exit_roots_total : total starting (latest_exit_roots : Pr (list bytes)) (λ l, length l = 2%nat).
Proof.
  intros s Hs. destruct (total_db _ _ (GetLatestL1SyncedExitRoot_total Hroots) s Hs) as (l & s1 & E & Hl & Hs1). exists l, s1.
  split; [|done]. revert E. unfold latest_exit_roots, db_of, zoom, attempt, mbind, M_bind.
  destruct (GetLatestL1SyncedExitRoot nil_tx (pr_db s)) as [[g|e|p] db]; [done| |done]. by destruct (bool_decide _).
Qed.
Lemma NewSynchronizer_total bt a : total starting (NewSynchronizer bt a : Pr SyncInstance)
  (λ sy, sy_ctrl sy = bt ∧ cfg_networkID (sy_config sy) = GetNetworkID (sa_etherMan a)).
Proof.
  unfold NewSynchronizer. eapply total_bind; [apply total_conn, total_on_metrics, sync_Register_off|intros _ _].
  eapply total_bind; [apply latest_exit_roots_total|intros l Hl]. eapply total_bind; [apply total_global|intros ps _]. cbv zeta.
  destruct (bool_decide _); [|by apply total_ret]. eapply total_bind; [apply total_elem_lt; cbn in Hl; lia|intros x _]. by apply total_ret.
Qed.

Context (c : XLayerCfg) (bt : BridgeController) (rs : redisStorageImpl) (producer : option Producer) (service : bridgeService).
Context (Hlengths : lengths_agree (xc_Base c) = true).
Context (nets : list Z) (Hnets : length nets = S (length (etc_L2URLs (uc_Etherman (xc_Base c))))).
Context (Hforest : forest (db_committed db0) bt Ls) (Htrees : ∀ net, net ∈ nets → is_Some (tree_of bt net)).

Lemma run_manager_total i url rollupID a b : (i < length (etc_L2URLs (uc_Etherman (xc_Base c))))%nat →
  total starting (run_manager c rs producer service nets i url rollupID a b : Pr unit) (λ _, True).
Proof.
  intros Hi. pose proof Hlengths as Hb. unfold lengths_agree in Hb. rewrite !andb_true_iff, !bool_decide_eq_true in Hb. destruct Hb as [[H1 H2] H3].
  unfold run_manager. eapply total_bind; [apply total_elem_lt; lia|intros addr _].
  eapply total_bind; [eapply total_outside, utils_NewClient_up, _|intros node _].
  eapply total_bind; [eapply total_fatal, total_outside, NewNonceCache_up, _|intros _ _].
  eapply total_bind; [eapply total_outside, GetSigner_up, _|intros auth _].
  eapply total_bind; [apply total_elem_lt; lia|intros net _].
  eapply total_bind; [eapply total_attempt, total_outside, NewClaimTxManager_up, _|intros ? (m & -> & _)].
  eapply total_bind; [apply total_globals|intros _ _]. by apply total_go.
Qed.
Lemma run_l2_total i client : (i < length (etc_L2URLs (uc_Etherman (xc_Base c))))%nat → GetNetworkID client ∈ nets →
  total starting (run_l2 c bt rs producer service nets i client : Pr (chan * chan)) (λ _, True).
Proof.
  intros Hi Hnet. pose proof Hlengths as Hb. unfold lengths_agree in Hb. rewrite !andb_true_iff, !bool_decide_eq_true in Hb. destruct Hb as [[H1 H2] H3].
  unfold run_l2. eapply total_bind; [by apply total_elem_lt|intros url _]. eapply total_bind; [apply total_chan|intros a _].
  eapply total_bind; [apply total_chan|intros b _]. eapply total_bind; [apply total_elem_lt; lia|intros sov _].
  eapply total_bind; [apply NewSynchronizer_total|intros sy [Hbt Hn]]. eapply total_bind; [apply total_globals|intros _ _].
  eapply total_bind; [apply total_go|intros _ _].
  - split; cbn; rewrite Hbt; [done|]. rewrite Hn. by apply Htrees.
  - eapply total_bind; [apply total_when; by apply run_manager_total|intros _ _]. by apply total_ret.
Qed.
Lemma for_l2_total clients : ∀ i, (i + length clients ≤ length (etc_L2URLs (uc_Etherman (xc_Base c))))%nat →
  Forall (λ client, GetNetworkID client ∈ nets) clients →
  total starting (for_l2 (run_l2 c bt rs producer service nets : _ → _ → Pr (chan * chan)) i clients) (λ chs, length chs = length clients).
Proof.
  induction clients as [|client clients IH]; intros i Hi Hall; cbn [for_l2 length] in *; [by apply total_ret|].
  apply Forall_cons in Hall as [Hc Hall]. eapply total_bind; [apply run_l2_total; [lia|done]|intros ch _].
  eapply total_bind; [apply (IH (S i)); [lia|done]|intros chs Hchs]. apply total_ret. cbn in *. by rewrite Hchs.
Qed.
Lemma monitor_channels_total chs : ∀ i, (i + length chs < length nets)%nat → total starting (monitor_channels nets i chs : Pr unit) (λ _, True).
Proof.
  induction chs as [|ch chs IH]; intros i Hi; cbn [monitor_channels length] in *; [by apply total_ret|].
  eapply total_bind; [apply total_elem_lt; lia|intros net _]. eapply total_bind; [by apply total_go|intros _ _]. apply IH. lia.
Qed.
End Tasks.

(** *** The tasks *)

(** A configuration that names what there is: [sb_lengths] is what [Load] checks. *)
Record startable (c : XLayerCfg) : Prop := {
  sb_lengths : lengths_agree (xc_Base c) = true;
  sb_sync : dc_Database (uc_SyncDB (xc_Base c)) = "postgres"%string;
  sb_api : dc_Database (bsc_DB (uc_BridgeServer (xc_Base c))) = "postgres"%string;
  sb_store : bcc_Store (uc_BridgeController (xc_Base c)) = "postgres"%string;
  sb_height : 1 ≤ bcc_Height (uc_BridgeController (xc_Base c)) ≤ 64;
  sb_redis : rdc_Addrs (xc_Redis c) ≠ [];
  sb_chains : (length (etc_L2URLs (uc_Etherman (xc_Base c))) ≤ length (xc_L2ChainIds c))%nat;
  sb_count : Z.of_nat (S (length (etc_L2URLs (uc_Etherman (xc_Base c))))) ≤ 256;
  sb_cache : is_Some (lru_New (C := C) (bsc_CacheSize (uc_BridgeServer (xc_Base c))));
}.
(** A database on which the trees of the networks can be built again. *)
Record ready_db (c : XLayerCfg) : Prop := {
  rb_live : db_live nil_tx db0;
  rb_schema : schema_ok (db_committed db0) (db_seqs db0);
  rb_hashes : no_collision (t_rht (db_committed db0));
  rb_roots : roots_stored (db_committed db0);
  rb_trees : Forall (Restart.readable (db_committed db0) (bcc_Height (uc_BridgeController (xc_Base c))) Ls)
    ((0 :: rollup_ids (xc_Base c)) ++ [MaxInt32]);
}.

Lemma tasks_total c : startable c → ready_db c → total starting (runTask (C := C) unspecified c : Pr unit) (λ _, True).
Proof.
  intros [Hlen Hsync Hapi Hstore Hheight Hredis Hchains Hcount Hcache] [Hlive Hok Hnc Hroots Hread].
  assert (length (rollup_ids (xc_Base c)) = length (etc_L2URLs (uc_Etherman (xc_Base c)))) as Hids.
  { pose proof Hlen as Hb. unfold lengths_agree in Hb. rewrite !andb_true_iff, !bool_decide_eq_true in Hb.
    unfold rollup_ids. rewrite length_zip_with. lia. }
  unfold runTask. eapply total_bind; [apply total_globals|intros _ _].
  eapply total_bind; [eapply total_outside, (NewStorage_up up net_at); done|intros _ _].
  eapply total_bind; [apply InitDefaultCalculator_total|intros _ _].
  eapply total_bind; [eapply total_outside, (NewStorage_up up net_at); done|intros _ _].
  eapply total_bind; [eapply total_outside, (NewRedisStorage_up up net_at); done|intros rs _].
  eapply total_bind; [by apply newEthermans_total|intros [l1 l2s] [Hl1 Hl2s]]. cbn in Hl1, Hl2s.
  assert (length l2s = length (etc_L2URLs (uc_Etherman (xc_Base c)))) as Hl2 by (by rewrite <- Hids, <- Hl2s, length_fmap).
  eapply total_bind; [apply setupNetworkIDs_total|intros nets ->]. rewrite Hl1, Hl2s.
  eapply total_bind; [apply InitChainIds_total; cbn; lia|intros _ _].
  eapply total_bind; [eapply NewBridgeController_of_total; try done; cbn; lia|intros bt [Hf Hin]].
  eapply total_bind; [eapply total_outside, (setupKafkaProducer_up up net_at)|intros producer _].
  eapply total_bind; [by apply service_of_total|intros service _]. eapply total_bind; [apply total_chan|intros ch _].
  eapply total_bind; [eapply for_l2_total; [done|done|cbn; lia|done|by intros; apply Hin|lia|]|intros chs Hchs].
  { apply Forall_forall. intros client Hc. right. rewrite <- Hl2s. apply list_elem_of_fmap. by exists client. }
  eapply total_bind; [by apply NewSynchronizer_total|intros sy [Hbt Hn]]. cbn in Hn. eapply total_bind; [apply total_globals|intros _ _].
  eapply total_bind; [apply total_go|intros _ _].
  { split; cbn; rewrite Hbt; [done|]. rewrite Hn, Hl1. apply Hin. by left. }
  eapply total_bind; [by apply total_go|intros _ _]. eapply total_bind; [by apply total_go|intros _ _].
  eapply total_bind; [apply total_when; eapply (monitor_channels_total c); cbn in *; lia|intros _ _].
  apply total_when. eapply total_bind; [eapply total_outside, (NewKafkaConsumer_up up net_at)|intros topics _]. by apply total_go.
Qed.

(** C6. The tasks start when what they need is there: with every node, Redis, Kafka
    and the database answering, and tables from which the trees of the configured
    networks can be built, the start succeeds, it changes no table, and every
    synchronizer that is started works on trees that are those of the stored
    deposits, with one for its own network. *)
Theorem runTask_starts c (s : process W P) (Hc : startable c) (Hdb : ready_db c)
  (Hup : up (pr_outside s).1) (Hmetrics : mt_initialized (pr_outside s).2 = false) (Hs : pr_db s = db0) (Hnew : pr_started s = []) :
  ∃ s', (runTask (C := C) unspecified c : Pr unit) s = (Ok tt, s') ∧ same_rows db0 (pr_db s') ∧
    ∀ sy, GoSync sy ∈ pr_started s' → forest (db_committed db0) (sy_ctrl sy) Ls ∧
      is_Some (tree_of (sy_ctrl sy) (cfg_networkID (sy_config sy))).
Proof.
  destruct (tasks_total c Hc Hdb s) as ([] & s' & E & _ & [_ _ _ Hrows Hsound]).
  { constructor; [done|done|rewrite Hs; apply Hdb|by rewrite Hs|by rewrite Hnew]. }
  exists s'. split_and!; [done|done|]. intros sy Hsy. rewrite Forall_forall in Hsound. exact (Hsound _ Hsy).
Qed.
(** *** A start that does not end *)
Section Coins.
Context (st : CoinStorage) (l : list goroutine).
Context (Hsize : queryLimit ≤ Z.of_nat (length (all_coins (cs_rows st)))) (Hfaults : cs_faults st = []).
(** The coins are those of the table, and these goroutines have been started. *)
Record waiting (s : process W P) : Prop := {
  wt_up : up (pr_outside s).1;
  wt_coins : pr_coins s = st;
  wt_started : pr_started s = l;
}.
Lemma waiting_outside {A} (m : M W A) φ : total up m φ → total waiting (outside m : Pr A) φ.
Proof.
  intros Hm s [Hu Hc Hs]. destruct (Hm _ Hu) as (a & w & E & Ha & Hw). unfold outside, conn, on_outside, zoom. rewrite E.
  eexists a, _. split; [reflexivity|]. split; [done|]. by constructor.
Qed.
Lemma waiting_cache fuel : total waiting (InitDefaultCache fuel : Pr bool) (λ b, b = false).
Proof.
  intros s [Hu Hc Hs]. unfold InitDefaultCache, attempt, mbind at 1, M_bind at 1.
  assert (st = mkCoinStorage (cs_rows st) []) as Est by (rewrite <- Hfaults; by destruct st).
  rewrite Hc, Est, doRefresh_full by done. eexists false, _. split; [reflexivity|]. split; [done|]. by constructor.
Qed.
Lemma waiting_runAPI fuel c : rdc_Addrs (xc_Redis c) ≠ [] → dc_Database (bsc_DB (uc_BridgeServer (xc_Base c))) = "postgres"%string →
  total waiting (runAPI (C := C) unspecified fuel c : Pr bool) (λ b, b = false).
Proof.
  intros Hredis Hapi. unfold runAPI. eapply (total_bind _ _ _ (λ _, True)).
  { apply total_modify. intros s [Hu Hc Hs]. by constructor. }
  intros _ _. eapply total_bind; [eapply waiting_outside, (NewRedisStorage_up up net_at); done|intros rs _].
  eapply total_bind; [eapply waiting_outside, (NewStorage_up up net_at); done|intros _ _].
  eapply total_bind; [apply waiting_cache|intros b ->]. by apply total_ret.
Qed.
End Coins.

(** C9. With a hundred main coins the process never starts to serve.  Redis, the
    migrations and the storage of the API are reached and the database answers, and
    still the start is, after any number of iterations, in the first refresh of the
    cache of the coins, which has reported no error: of the goroutines of the
    process only that of the metrics has been started - no server and, when all the
    parts run in one process, no push task, synchronizer or claim manager. *)
Theorem hundred_coins_never_start {Vip : Viper W} {KMS : Kms W} fuel ch c (s : process W P)
  (Hpart : ch = API ∨ ch = ALL)
  (Hredis : rdc_Addrs (xc_Redis c) ≠ []) (Hapi : dc_Database (bsc_DB (uc_BridgeServer (xc_Base c))) = "postgres"%string)
  (Hup : up (pr_outside s).1)
  (Hsize : queryLimit ≤ Z.of_nat (length (all_coins (cs_rows (pr_coins s))))) (Hfaults : cs_faults (pr_coins s) = []) :
  ∃ s', (run_choice (C := C) unspecified fuel ch c : Pr bool) s = (Ok false, s') ∧
    pr_started s' = pr_started s ++
      (if mec_Enabled (uc_Metrics (xc_Base c)) then [GoMetrics (mec_Port (uc_Metrics (xc_Base c)))] else []).
Proof.
  set (G := if mec_Enabled _ then _ else _). unfold run_choice.
  assert (∃ s1, when (mec_Enabled (uc_Metrics (xc_Base c))) (go_ (GoMetrics (mec_Port (uc_Metrics (xc_Base c))))) s = (Ok tt, s1) ∧
    waiting (pr_coins s) (pr_started s ++ G) s1) as (s1 & E1 & H1).
  { unfold when, G. destruct (mec_Enabled _); eexists; (split; [reflexivity|]); rewrite ?app_nil_r; by constructor. }
  rewrite (M_bind_ok _ _ _ _ _ E1). set (I := waiting (pr_coins s) (pr_started s ++ G)) in *.
  assert (Hmig : total I (outside (RunMigrations (uc_SyncDB (xc_Base c))) : Pr unit) (λ _, True)).
  { apply waiting_outside, (up_migrate (up := up) (net_at := net_at)). }
  pose proof (waiting_runAPI (pr_coins s) (pr_started s ++ G) Hsize Hfaults fuel c Hredis Hapi) as Hapi'.
  assert (Hall : total I (match ch with
      | API => outside (RunMigrations (uc_SyncDB (xc_Base c)));; runAPI (C := C) unspecified fuel c
      | PUSH => runPushTask c;; mret true
      | TASK => runTask (C := C) unspecified c;; mret true
      | ALL => outside (RunMigrations (uc_SyncDB (xc_Base c)));; ended ← runAPI (C := C) unspecified fuel c;
               if negb ended then mret false else runPushTask c;; runTask (C := C) unspecified c;; mret true
      end : Pr bool) (λ b, b = false)).
  { destruct Hpart as [-> | ->]; (eapply total_bind; [exact Hmig|intros _ _]); [exact Hapi'|].
    eapply total_bind; [exact Hapi'|intros b ->]. by apply total_ret. }
  destruct (Hall s1 H1) as (b & s2 & E2 & -> & H2). exists s2. split; [exact E2|apply H2].
Qed.
End Process.
