(* ===== verification/StartExamples.v ===== *)
(** * Starting and restarting, at concrete inputs

    The database after two blocks, on which a process starts again; the block
    whose commit failed; a query that fails while the trees are built. *)
From S2P Require Import BridgeService Redis PushMessage Producers Gateway GoFloat LocalCache Metrics Configuration Connections StartUp StartFacts StartSuccess.
From S2P Require Import Prelude Types Hashing MerkleStore MerkleTree MerkleSpec MerkleTreeFacts MerkleReset Tables.
From S2P Require Import Storage StorageFacts SchemaInv BridgeCtrl NetTrees MessageBridge Synchronizer SyncFacts Restart Examples.

#[local] Existing Instances example_keccak example_abi example_env rows_agree_dec.

(** ** Restarts *)
Lemma net_stored_none t net h : Forall (λ d, dep_NetworkID (dr_dep d) ≠ net) (t_deposit t) →
  Forall (λ r : root_row, r.2 ≠ net) (t_root t) → net_stored t net h [].
Proof.
  rewrite !Forall_forall. intros Hd Hr. split.
  - intros d Hin Hn. by destruct (Hd d Hin).
  - intros k Hk. cbn in Hk. lia.
  - intros r id Hin. by destruct (Hr _ Hin).
Qed.
Definition ordered_ids (net : Z) (l : list deposit_row) : Prop := Forall (λ d, Forall (λ d',
  dep_NetworkID (dr_dep d) = net ∧ dep_NetworkID (dr_dep d') = net ∧
  dep_DepositCount (dr_dep d) < dep_DepositCount (dr_dep d') → dep_Id (dr_dep d) < dep_Id (dr_dep d')) l) l.
#[local] Instance ordered_ids_dec net l : Decision (ordered_ids net l).
Proof. unfold ordered_ids. apply _. Defined.
Lemma ordered_ids_ok t net : ordered_ids net (t_deposit t) → id_order t net.
Proof.
  unfold ordered_ids. intros H d d' Hd Hd' Hn Hn' Hlt. rewrite Forall_forall in H. specialize (H d Hd).
  rewrite Forall_forall in H. by apply (H d' Hd').
Qed.
Lemma readable_none t height Ls net : Ls net = [] → Forall (λ d, dep_NetworkID (dr_dep d) ≠ net) (t_deposit t) →
  Forall (λ r : root_row, r.2 ≠ net) (t_root t) → readable t height Ls net.
Proof.
  intros HL Hd Hr. split; rewrite ?HL; [by apply net_stored_none| |constructor|cbn; lia|done].
  intros d d' Hin _ Hn. rewrite Forall_forall in Hd. by destruct (Hd d Hin).
Qed.

(** The tables after two blocks of network 0; network 1 has no deposit yet. *)
Lemma t2_readable : Forall (readable t2 2 Ls2) ([0; 1] ++ [MaxInt32]).
Proof.
  repeat (apply Forall_cons_2; [first [by apply readable_none; [done|decided|decided]|idtac]|]); [|constructor].
  split; [apply t2_stored|apply ordered_ids_ok; decided|exact L2_hashes|decided|decided].
Qed.

Lemma NewBridgeController_rebuilds_witness :
  ∃ bt db', NewBridgeController 2 [0; 1] (restarted [] (ss_db state2)) = (Ok bt, db') ∧
    forest (db_committed db') bt Ls2 ∧ represents (bt_rollupsTree bt) (Ls2 MaxInt32) ∧
    (∀ net, is_Some (tree_of bt net) ↔ net ∈ [0; 1]) ∧ (∀ net mt, tree_of bt net = Some mt → mt_height mt = 2) ∧
    db_live nil_tx db' ∧ same_rows (restarted [] (ss_db state2)) db'.
Proof.
  apply (NewBridgeController_rebuilds 2 Ls2); [lia|done|exact t2_schema|exact t2_no_collision|cbn; lia|exact t2_readable].
Defined.

Lemma failed_block_stored_after_restart_witness :
  ∃ bt db, NewBridgeController 2 [0; 1]
      (restarted [] (ss_db (processBlock cfg0 blockA (orders blockA) (false, false) state_fault).2)) = (Ok bt, db) ∧
    ∀ env synced l1 wait sent, ∃ s3 Ls',
      processBlock cfg0 blockA (orders blockA) (false, false) (mkSync bt db env synced l1 wait sent) = (Ok (false, false), s3) ∧
      forest (db_committed (ss_db s3)) (ss_ctrl s3) Ls' ∧ Ls' 0 = Ls0 0 ++ [leaf_n 0] ∧ ∀ n, n ≠ 0 → Ls' n = Ls0 n.
Proof.
  apply (failed_block_stored_after_restart 2 Ls0 ltac:(lia) cfg0 [0; 1] blockA (orders blockA) (false, false) state_fault
    (processBlock cfg0 blockA (orders blockA) (false, false) state_fault).2
    (processBlock cfg0 blockA (orders blockA) (false, false) state_fault).1 [leaf_n 0]).
  - apply surjective_pairing.
  - computed.
  - split; decided.
  - apply rows_agree_ok. decided.
  - cbn. lia.
  - repeat (apply Forall_cons_2; [apply readable_none; [done|decided|decided]|]). constructor.
  - decided.
  - done.
  - cbn. lia.
  - decided.
  - split_and!; [computed|done|decided|done].
  - decided.
  - decided.
  - apply lookup_singleton_eq.
Defined.

(** The count of the deposits cannot be read: the tree has one leaf, the tables
    have two. *)
Lemma failed_count_query_witness :
  ∃ db', db_committed db' = t2 ∧
    match Ls2 0 with
    | [] => NewMerkleTree 2 0 (restarted [Some (Refused 57)] (ss_db state2)) = (Err ErrStorageNotFound, db')
    | leaf :: leaves => ∃ mt, NewMerkleTree 2 0 (restarted [Some (Refused 57)] (ss_db state2)) = (Ok mt, db') ∧
        mt_networkID mt = 0 ∧ represents mt [leaf] ∧ mt_count mt = 1 ∧ (mt_count mt = Z.of_nat (length (Ls2 0)) ↔ leaves = [])
    end.
Proof.
  apply (failed_count_query 2 Ls2 ltac:(lia) 0 (restarted [Some (Refused 57)] (ss_db state2)) (Refused 57)); [done|exact t2_schema| |exact t2_no_collision].
  pose proof t2_readable as H. by apply Forall_inv in H.
Defined.

(** ** A configuration and what is outside *)

(** Every request is answered; the bridge of every rollup says 1. *)
#[local] Instance answering : Outside unit := {|
  ethclient_Dial _ := mret tt; contract_New _ _ _ := mret tt; Bridge_NetworkID _ _ := mret 1;
  RollupAddressToID _ _ _ := mret 1; os_ReadFile _ := mret ""%string; keystore_DecryptKey _ _ := mret [];
  node_ChainID _ := mret 1101; bind_NewKeyedTransactorWithChainID _ _ := mret zero_address;
  lru_New_ok size := if bool_decide (0 < size) then mret tt else throw (ErrExternal 1); Bridge_GetAbi := mret tt;
  pgxpool_Connect _ := mret tt; migrate_Exec _ := mret tt; redis_Ping _ := mret tt; AppendCertsFromPEM _ := true;
  sarama_NewSyncProducer _ _ := mret tt; sarama_NewConsumerGroup _ _ _ _ := mret tt;
  nacos_InitNacosClient _ := mret tt; sentinel_Initialize _ := mret tt |}.
#[local] Instance answering_up : OutsideUp unit (λ _, True) (λ _ _, 1).
Proof.
  constructor; intros; try (by apply total_ret); [|done]. cbn. rewrite bool_decide_true by done. by apply total_ret.
Qed.
#[local] Instance no_collectors : Prometheus unit := {|
  prom_Register _ := mret tt; prom_Unregister _ := mret true; prom_Update _ _ _ := mret tt |}.
#[local] Instance one_cache : LruCache unit := {|
  lru_New size := if bool_decide (0 < size) then Some tt else None; lru_Get _ c := (None, c); lru_Add _ _ c := c |}.

Definition example_db : DBConfig := mkDBConfig "postgres" "bridge" "user" "secret" "db" "5432" 20.
Definition example_networks : NetworkConfig :=
  mkNetworkConfig 1 zero_address zero_address zero_address zero_address [zero_address] [false] [zero_address].
Definition example_base (claims : bool) : BaseConfig := mkBaseConfig example_db
  (mkClaimTxConfig claims 1 (mkKeystoreFileConfig "/keystore" "secret") 1 10 [] false (mkGroupingConfig true 1 10 10 1 1 1 1 0))
  (mkEthermanConfig "http://l1" ["http://l2"]) (mkSyncConfig 1 100 false) (mkBridgeCtrlConfig "postgres" 2)
  (mkBridgeServerConfig "9090" "8080" 100 25 100 "" example_db) (mkMetricsConfig "" 9091 false) example_networks.
Definition example_config (claims : bool) : XLayerCfg := mkXLayerCfg (example_base claims) 1 [1101] "" (mkRedisConfig false ["redis"] "" "" 0 true "")
  "test" false false 128 100000 64 (mkNacosConfig "" "" "" "") (mkBusinessConfig [] [] [] [] [] [] [] []) (mkIPConfig false false "" "" [])
  (mkConsumerConfig [] [] "" 0 "" "" "") (mkProducerConfig true true [] "topic" "key" "" "" "" "biz").
Definition no_globals : globals := mkGlobals ∅ (mkChainIds ∅ ∅ ∅) 1 64 100000 false false None None None None None ∅ ∅ None.
Definition no_metrics : Metrics.Metrics unit := Metrics.mkMetrics tt false ∅ "" "".
Definition new_process (coins : list main_coin_row) : process unit unit :=
  mkProcess (tt, no_metrics) (restarted [] (ss_db state2)) (mkCoinStorage coins []) no_globals 0 [].
Definition no_estimate : float64 → Z := λ _, 0.
Abbreviation example_run claims := (runTask (C := unit) no_estimate (example_config claims) (new_process [])).

Lemma runTask_starts_witness :
  ∃ s', example_run true = (Ok tt, s') ∧ same_rows (restarted [] (ss_db state2)) (pr_db s') ∧
    ∀ sy, GoSync sy ∈ pr_started s' → forest t2 (sy_ctrl sy) Ls2 ∧ is_Some (tree_of (sy_ctrl sy) (cfg_networkID (sy_config sy))).
Proof.
  apply (runTask_starts no_estimate (λ _, True) (λ _ _, 1) (restarted [] (ss_db state2)) Ls2); try done.
  constructor; [done|exact t2_schema|exact t2_no_collision|decided|exact t2_readable].
Defined.

Lemma runTask_wired_witness :
  ∃ G, pr_started (example_run true).2 = [] ++ G ∧
    NoDup (all_receives G) ∧ (∀ ch, ch ∈ all_sends G → ch ∈ all_receives G) ∧
    (∀ sy ch, GoSync sy ∈ G → sy_chExitRootEventL2 sy = Some ch →
      ∃ g, g ∈ G ∧ reader g = Some (cfg_networkID (sy_config sy), ch, sy_chSynced sy)) ∧
    (∀ g net ch synced, g ∈ G → reader g = Some (net, ch, synced) → ∃ l1 to,
      GoSync l1 ∈ G ∧ cfg_networkID (sy_config l1) = 0 ∧ ch ∈ sy_chsExitRootEvent l1 ∧
      GoForward (sy_chSynced l1) to ∈ G ∧ synced ∈ to).
Proof. apply (runTask_wired (C := unit) no_estimate (example_config true) (new_process []) (example_run true).2). apply run_result. computed. Defined.
(** The goroutines, with the claim managers and without them. *)
Example started_with : (λ g, (receives g, sends g)) <$> pr_started (example_run true).2 =
  [([], []); ([], [2; 1]); ([1; 2], []); ([], [0; 1]); ([], []); ([0], [2])]%nat.
Proof. reflexivity. Qed.
Example started_without : (λ g, (receives g, sends g)) <$> pr_started (example_run false).2 =
  [([], []); ([], [2; 1]); ([], [0; 1]); ([], []); ([0], [2]); ([1; 2], [])]%nat.
Proof. reflexivity. Qed.

(** ** The API *)
Definition example_coins (n : nat) : list main_coin_row :=
  replicate n (mkMainCoinRow (mkCoinInfo "ETH" "Ether" 18 1 0 "" []) false).
#[local] Instance no_viper : Viper unit := {|
  viper_ReadConfig := throw (ErrExternal 1); viper_SetConfig _ _ _ := mret tt; viper_SetEnvPrefix _ := mret tt; viper_ReadInConfig := mret true;
  viper_Unmarshal := mret; viper_UnmarshalXLayer := throw (ErrExternal 1); viper_IsSet _ _ := true |}.
#[local] Instance no_kms : Kms unit := {| kms_Init := mret tt; kms_GetAwsSecretValue _ := throw (ErrExternal 1) |}.
Abbreviation example_api n := (run_choice (C := unit) no_estimate 50 API (example_config true) (new_process (example_coins n))).
Lemma hundred_coins_never_start_witness :
  ∃ s', example_api 100 = (Ok false, s') ∧ pr_started s' = [] ++ [].
Proof.
  apply (hundred_coins_never_start (C := unit) no_estimate (λ _, True) (λ _ _, 1) 50 API (example_config true)
    (new_process (example_coins 100))); [by left|done|done|done|decided|done].
Defined.
(** Fuel is not what is missing: with one coin the start gets past the cache, to the
    empty path of the rules of Sentinel. *)
Example one_coin : (example_api 1).1 = Panic "nil pointer dereference" ∧ (example_api 100).1 = Ok false.
Proof. split; computed. Qed.

(** A file that sets the networks. *)
#[local] Instance file_viper : Viper BaseConfig := {|
  viper_ReadConfig := mret tt; viper_SetConfig _ _ _ := mret tt; viper_SetEnvPrefix _ := mret tt; viper_ReadInConfig := mret true;
  viper_Unmarshal _ := get; viper_UnmarshalXLayer := throw (ErrExternal 1); viper_IsSet _ _ := true |}.
Lemma Load_ok_witness :
  let n := uc_NetworkConfig (example_base true) in
  length (nc_L2PolygonZkEVMGlobalExitRootAddresses n) = length (etc_L2URLs (uc_Etherman (example_base true))) ∧
  length (nc_RequireSovereignChainSmcs n) = length (etc_L2URLs (uc_Etherman (example_base true))) ∧
  length (nc_L2PolygonBridgeAddresses n) = length (etc_L2URLs (uc_Etherman (example_base true))) ∧ "" = ""%string.
Proof. apply (Load_ok (Vip := file_viper) "/etc/bridge/config.toml" "" (example_base true) (example_base true) (example_base true)). reflexivity. Defined.
(** The parts of a path. *)
Example config_parts : config_file "/etc/bridge.d/config.local.toml" = ("/etc/bridge.d/", "config.local", "toml")%string ∧
  config_file "config" = ("", "config", "")%string.
Proof. split; reflexivity. Qed.

(** ** The upstream process *)
Abbreviation example_start claims := (start_with (C := unit) (example_base claims) (new_process [])).
Lemma start_wired_witness :
  ∃ G, pr_started (example_start true).2 = [] ++ G ∧
    NoDup (all_receives G) ∧ (∀ ch, ch ∈ all_sends G → ch ∈ all_receives G) ∧
    (∀ bt args ch, GoRunSynchronizer bt args ∈ G → sa_chExitRootEventL2 args = Some ch →
      ∃ g, g ∈ G ∧ reader g = Some (GetNetworkID (sa_etherMan args), ch, sa_chSynced args)) ∧
    (∀ g net ch synced, g ∈ G → reader g = Some (net, ch, synced) → ∃ bt l1 to,
      GoRunSynchronizer bt l1 ∈ G ∧ GetNetworkID (sa_etherMan l1) = 0 ∧ ch ∈ sa_chsExitRootEvent l1 ∧
      GoForward (sa_chSynced l1) to ∈ G ∧ synced ∈ to).
Proof. apply (start_wired (C := unit) (example_base true) (new_process []) (example_start true).2). apply run_result. computed. Defined.
Example upstream_with : (λ g, (receives g, sends g)) <$> pr_started (example_start true).2 =
  [([], []); ([], []); ([], [1; 0]); ([], [2; 0]); ([2], [1]); ([0; 1], [])]%nat.
Proof. reflexivity. Qed.
